(* ===== verification/_CoqProject ===== *)
-Q . S2P
Prelude.v
Loader.v
KeypadState.v
TouchPad.v
Keypad.v
DataBuffer.v
Obex.v
ObexSend.v
ObexReceive.v
ObexHeaders.v
Crypt.v
CryptFacts.v
Cipher.v
Exword.v
ExwordFacts.v
Text.v
Util.v
Content.v
ContentFacts.v
UserKeys.v
Libc.v
Formatted.v
Heap.v
HeapFacts.v
HeapSpec.v
Stdio.v
StdioFacts.v
SysInfo.v
SysInfoFacts.v
Traced.v
Clock.v
SubpadMouse.v
SubpadFacts.v
SubpadPorts.v
TouchDiag.v
TouchFacts.v
TouchReads.v
TouchPorts.v
SubLcd.v
SubLcdFacts.v
SubLcdGuard.v
Snake.v
SnakeFacts.v
Desktop.v
DesktopFiles.v
DesktopTimed.v
DesktopFacts.v
FilesWatch.v
FilesFacts.v
Command.v
CommandFacts.v
Gate.v
FileLite.v
FrameBuffer.v
Lcd.v
Boot.v
Sdhi.v
SdhiFacts.v
SdhiClock.v
SdhiCore.v
SdhiProbe.v
CpuProbe.v
Sh7724.v
Board.v
Status.v
