(* ===== verification/Prelude.v ===== *)
(** * XD-B8600 Linux port: a verification library

    The repository boots Linux on a Casio XD-B8600 dictionary and brings the
    programs that go with it.  This library models the parts of it that are
    programs of its own, written in C, and proves what makes them correct.

    ** The parts and their files

    - The payload loader, [src/loader/src/main.c]: [Loader].  It checks the
      header of a payload, copies it into the uncached window, checks the copy
      and starts it.
    - The keypad driver of the kernel,
      [src/kernel/overlay/drivers/input/keyboard/exword-keypad.c]:
      [KeypadState] (its statics, the registers as the class [Mmio], the input
      core as a log of events), [TouchPad] (the second display and the touch
      panel), [Keypad] (scanning, pointer modes, the polling thread, probe and
      removal).
    - libexword, [src/tools/libexword/src]: [DataBuffer] ([databuffer.c]) below
      [Obex] ([obex.c]) below [Exword] ([exword.c], with the keys and the
      encryption of [Crypt], [crypt.c]) below [Content] ([content.c], with the
      helpers of [Util], [util.c]).  [ObexSend], [ObexReceive], [ObexHeaders],
      [CryptFacts], [Cipher], [ExwordFacts], [ContentFacts] and [UserKeys] hold
      the properties.  [Content] is written against the class [Device] of
      commands; the instance [exword_device] is the handle of [Exword], and
      [session_kept] of [ContentFacts] shows that it keeps what [ContentFacts]
      asks of a device.
    - The C library of the payload programs,
      [src/experiments/hello-world/src/libc] (with copies under [sysinfo]):
      [Libc] (strings, numbers, [sprintf]) and [Heap] ([memmgr.c]) with
      [HeapFacts] and [HeapSpec], [Formatted] (how long formatted text gets),
      [Stdio] (streams, lines, the log, [strdup]) with [StdioFacts], [Clock]
      (the real time clock and the calendar).
    - The add-in [src/experiments/sysinfo/src/main.c]: [SysInfo] with
      [SysInfoFacts].
    - The main display: [Lcd] (the registers, the test program
      [src/payload/display-test.c], the refresh of the frame buffer driver),
      [FrameBuffer] (the rest of
      [src/kernel/overlay/drivers/video/fbdev/exwordfb.c], whose operations run
      concurrently), [Boot] ([src/kernel/overlay/arch/sh/boot/compressed/misc.c],
      what surrounds the decompressor of the kernel).
    - The processor and the board, under [src/kernel/overlay/arch/sh]: [CpuProbe]
      ([kernel/cpu/sh4/probe.c], which processor this is and its caches), [Sh7724]
      ([kernel/cpu/sh4a/setup-sh7724.c]: devices, interrupts, DMA slaves), [Board]
      ([boards/mach-exword/setup.c]: reserved memory, the read-only device with
      what the loader left, the USB host).
    - The SD host controller,
      [src/kernel/overlay/drivers/mmc/host/renesas_sdhi_core.c]: [Sdhi] (the
      registers, the clock, resets, tuning) with [SdhiFacts] (tuning, on scan
      registers that hold the results) and [SdhiClock] (dividers), [SdhiCore]
      (power, voltages, the unit's start and stop), [SdhiProbe] (probe and
      removal).
    - Small programs of [src/x11/apps]: [Gate] ([x11-start-gate.c], three
      processes that share what they did before a [fork]), [FileLite]
      ([file-lite.c]) and [Status] ([holostatus.c], the status line).
    - The programs of the second display and its touch panel, in [src/x11/apps],
      written as requests to the system ([Traced]): the driver in user space
      [subpad-mouse.c], [SubpadMouse] with [SubpadFacts] and [SubpadPorts]; the
      diagnosis of the panel [touchdiag.c], [TouchDiag] with [TouchFacts],
      [TouchReads] (what is read back) and [TouchPorts], whose register sequences are those of [SubpadMouse] where
      the source repeats them; the test of the display [sublcd-test.c], [SubLcd]
      with [SubLcdFacts] and [SubLcdGuard].
    - The game [src/x11/apps/snake.c]: [Snake] with [SnakeFacts].
    - The desktop, [src/x11/apps/exdesk.c], one program that is a menu, a file
      manager, a clock or a pair of eyes by the name it is started with:
      [Desktop] (the window, what is drawn, the calls, the menu),
      [DesktopFiles] (the file manager over the class [Files] of the file system;
      [qsort] as the class [Qsort]), [DesktopTimed] (the windows drawn again by
      the clock, and [main]), with [DesktopFacts], [FilesWatch] (the file system
      with a record of what was read) and [FilesFacts].
    - The command line of libexword, [main.c] of its directory: [Command] with
      [CommandFacts].  It is written against [Device] (the dictionary), [Local]
      (the files of the host) and [Session] (connecting, models, capacity, the
      rest of [exword.h] a session needs).
    - Literals and formatted numbers of all of them: [Text].

    ** How the code is modelled

    A function of the code is a definition of the same name.  Integers are
    [Z]; every assignment that can overflow is truncated to the width it has
    in the code (below).  Memory is bytes: blocks as lists, the payload window
    as a finite map, the heap as a flat function of addresses.  State is passed
    in the monads of this file: [st] where the code cannot go wrong, [res]
    where it can ([OutOfBounds]: an access outside an object or a null pointer;
    [AssertFailed]; [OutOfFuel]: a bound of the model was too small).  What is
    not in the repository (firmware calls, registers, libusb, iconv, the
    allocator, system calls, the X server, the input core) is a class whose
    operations are arbitrary functions of a state of the outside; where a
    property needs more, it is a named law of a second class ([FirmwareOk],
    [AllocOk], [Latched], [DeviceKeeps], [DiskKeeps], ...), and the property
    has a witness on a concrete instance.

    Programs of the X server are functions of its answers (does the display
    open, is the grab granted, the size of the screen), of the list of events or
    of turns of their loop, and of the state of the file system; they give the
    list of the calls they make, drawings included, in order.  A [long] is 32
    bits wide, as on the SH4.

    Not modelled inside these parts: debug output, delay loops and barriers,
    giving memory back, the set-up of windows (the desktop's is), the two forks
    of a program that is started, the line editor and its history.

    ** What is shown

    - [Loader]: only the window is written and only a verified payload is
      started, after the presses the menu asks for; the checksum tells apart
      payloads that differ within four bytes.
    - [Board]: the kernel reads the image the loader has verified, whatever is
      stored outside the memory reserved for it.  [CpuProbe],
      [Sh7724]: the processor of the board is recognised, its caches have the
      geometry of the registers; the tables fit together (every device has its
      interrupts, register windows are disjoint, slaves have their ports).
    - [Sdhi*]: tuning tries every tap twice and sets one that was good both times,
      with its neighbours, or fails; the divider gives at most the rate that was
      asked for; the sampling unit is set up while the card's clock is stopped;
      probe gives back what it took on every failure.
    - [Keypad], [TouchPad]: no key and no button stays pressed in the input core;
      every change is reported; touches are debounced; the zones touched are the
      zones drawn; probe gives back what it took.
    - [DataBuffer], [Obex*]: buffers refine byte strings; sending refines an
      abstract packing; what is received decodes; a request ends and delivers
      its body.
    - [Crypt*], [Cipher]: the encryption is bytewise and its own inverse; the
      key generator ends inside its tables; the software floating point.
    - [Exword*]: the session's invariant over all calls, one report of each
      disconnection, files and listings on the wire, conversions that end.
    - [Content*], [UserKeys]: commands only between a granted unlocking and the
      lock, and which refusals a command that succeeds has ignored; the key file
      as a round trip.
    - [Libc], [Heap*]: numbers printed and read back; the count of [sprintf];
      allocation and freeing refine operations on the list of blocks.
    - [Formatted], [SysInfoFacts]: a bound on formatted text, and with it that the
      report is complete and overruns nothing, if the firmware's identifier fits
      its field.  [StdioFacts]: [fgets] gives the
      line of the file, and when it writes behind the buffer.  [Clock]: the
      conversion counts the seconds of the calendar; reading ends with a date that
      is not torn; the years that are read right.
    - [Boot], [Lcd], [FrameBuffer]: three programs drive the display alike; no
      stale instruction is left for the kernel; whatever was drawn with success is
      shown once the driver comes to rest, and it does.
    - [Gate], [FileLite]: the stopped shell is let go on in every combination of
      answers; every name gets its line and its descriptor is closed.  [Status]:
      the memory shown is that of the file, and the note of the scrolling line.
    - [Subpad*], [Touch*], [SubLcd*]: registers only under the lock and the
      other guards, nothing left behind on any exit but a button whose release
      was refused, the ports given back bit by bit, and read back before a status
      of 0; what the second display receives, and that the test draws what the
      driver of the kernel draws; the range of the options.
    - [Snake*]: the invariant of the game.
    - [DesktopFacts], [FilesFacts]: every run releases what it acquired and draws
      inside its window, but for one line of text; the file manager's state is well
      formed and its list is the directory read last, the one it shows; the menu starts the item that was chosen; the integer root.
    - [CommandFacts]: no add-on is touched without an authentication; the state
      of a session over all commands and events; the path sent; words, keys; how
      the prompt ends.

    ** Bounds

    Loops of the code with a bound of their own use it ([ADC_TIMEOUT],
    [MAX_SNAKE], the tables).  Decimal numbers of 64 bits have at most 20 digits,
    a root of 32 bits takes 16 rounds and one to stop ([integer_sqrt_exact]).  The others take fuel: [copy_loop] of [Loader] one
    unit per byte, [obex_request] one per round and one per read
    ([request_delivers_body] shows one round per body byte and one more to be
    enough), conversions three per byte and three more ([convert_complete]), the
    normalising loops of [Crypt] one per bit of a word ([get_xor_key_total]), [sprintf] one per character
    of the format, the heap's loops one per free block ([HeapSpec]), the search
    in the key file one per record and one more, the loop of [SubpadMouse] the
    number of polls ([None] means it is still running), the reads of [Clock] one per
    change of the registers and one more, [fgets] one per byte, the waits of [Gate]
    one more than what the processes are kept waiting ([Patient]), [normalise] and
    [queue_words] of [Command] one per character ([path_normalised], [line_words]).

    ** Not modelled

    The standby code of [setup-sh7724.c] (it is compiled out) and the parameters of
    its serial ports (numbers the serial driver alone interprets).  [hello-world]
    and [early-init] print one text.  The start-up code, the system calls and
    [memcpy] of the payload programs are assembler; the rest of the repository is
    scripts, data and a Python binding. *)

From Stdlib Require Export ZArith Lia.
From stdpp Require Export base tactics numbers list gmap strings relations.

#[global] Open Scope Z_scope.

(** ** Machine integers

    A [w]-bit unsigned integer of the C code is a [Z] in [0 .. 2^w-1]; every
    assignment that can overflow goes through one of the truncations below,
    a conversion to a signed type through [s16] or [s32]. *)

Definition is_u (w x : Z) : Prop := 0 <= x < 2 ^ w.

Definition u8 (x : Z) : Z := x mod 2 ^ 8.
Definition u16 (x : Z) : Z := x mod 2 ^ 16.
Definition u32 (x : Z) : Z := x mod 2 ^ 32.
Definition u64 (x : Z) : Z := x mod 2 ^ 64.
Definition s8 (x : Z) : Z := (x + 2 ^ 7) mod 2 ^ 8 - 2 ^ 7.
Definition s16 (x : Z) : Z := (x + 2 ^ 15) mod 2 ^ 16 - 2 ^ 15.
Definition s32 (x : Z) : Z := (x + 2 ^ 31) mod 2 ^ 32 - 2 ^ 31.

(** A byte list: the contents of a C object as its [uint8_t] values. *)
Definition bytes_ok (l : list Z) : Prop := Forall (is_u 8) l.

#[export] Instance is_u_dec w x : Decision (is_u w x).
Proof. unfold is_u. apply _. Defined.
#[export] Instance bytes_ok_dec l : Decision (bytes_ok l).
Proof. unfold bytes_ok. apply _. Defined.

(** ** Big-endian encodings: [htons], [ntohs], [htonl], [ntohl] *)

Fixpoint be_encode (n : nat) (x : Z) : list Z :=
  match n with
  | O => []
  | S n' => be_encode n' (x / 256) ++ [x mod 256]
  end.

Definition be_decode (l : list Z) : Z := foldl (λ acc b, acc * 256 + b) 0 l.

(** ** Lists indexed by [Z] and memory copies *)

Definition zlen {A} (l : list A) : Z := Z.of_nat (length l).

(** [memcpy(l + off, bs, length bs)] into a buffer that is long enough. *)
Definition splice {A} (off : nat) (bs l : list A) : list A :=
  take off l ++ bs ++ drop (off + length bs) l.

(** [n] elements of [l] from [off] on. *)
Definition slice {A} (off n : nat) (l : list A) : list A := take n (drop off l).

(** ** State monads

    [st S] threads the state of a component that cannot fail; [res S] adds
    the C run-time failures the model keeps apart from error codes: an access
    outside an object, a failed [assert], a loop that exceeds its fuel. *)

Definition st (S A : Type) : Type := S → A * S.

#[global] Instance st_mret S : MRet (st S) := λ A a s, (a, s).
#[global] Instance st_mbind S : MBind (st S) :=
  λ A B (f : A → st S B) (m : st S A) s, let '(a, s') := m s in f a s'.

Definition st_get {S A} (f : S → A) : st S A := λ s, (f s, s).
Definition st_upd {S} (f : S → S) : st S unit := λ s, (tt, f s).

Inductive fault : Type :=
| OutOfBounds   (** read or write outside the object *)
| AssertFailed  (** [assert] *)
| OutOfFuel.    (** a loop bound of the model was too small *)

Inductive outcome (S A : Type) : Type :=
| Ok (a : A) (s : S)
| Fault (f : fault).
Arguments Ok {S A} a s.
Arguments Fault {S A} f.

Definition res (S A : Type) : Type := S → outcome S A.

#[global] Instance res_mret S : MRet (res S) := λ A a s, Ok a s.
#[global] Instance res_mbind S : MBind (res S) :=
  λ A B (f : A → res S B) (m : res S A) s,
    match m s with
    | Ok a s' => f a s'
    | Fault e => Fault e
    end.

Definition res_get {S A} (f : S → A) : res S A := λ s, Ok (f s) s.
Definition res_upd {S} (f : S → S) : res S unit := λ s, Ok tt (f s).
Definition res_fault {S A} (e : fault) : res S A := λ _, Fault e.
Definition res_opt {S A} (e : fault) (o : option A) : res S A :=
  match o with Some a => mret a | None => res_fault e end.

(** Running the first step of a computation. *)
Lemma bind_ok {S A B} (m : res S A) (f : A → res S B) c a c' :
  m c = Ok a c' → (m ≫= f) c = f a c'.
Proof. intros E. unfold mbind, res_mbind. by rewrite E. Qed.

(** ** Tactics *)

(** Case analysis on the outermost [if] or [match] of the goal or a hypothesis. *)
Ltac case_goal :=
  match goal with
  | |- context [match ?x with _ => _ end] => destruct x eqn:?
  end.
Ltac case_hyp H :=
  match type of H with
  | context [match ?x with _ => _ end] => destruct x eqn:?
  end.

(** Boolean tests of the code to propositions [lia] reads. *)
Ltac to_prop :=
  repeat match goal with
  | H : (_ && _)%bool = true |- _ => apply andb_prop in H as [? ?]
  | H : (_ || _)%bool = false |- _ => apply orb_false_elim in H as [? ?]
  | H : negb _ = true |- _ => apply negb_true_iff in H
  | H : negb _ = false |- _ => apply negb_false_iff in H
  | H : (_ =? _) = true |- _ => apply Z.eqb_eq in H
  | H : (_ =? _) = false |- _ => apply Z.eqb_neq in H
  | H : (_ <? _) = true |- _ => apply Z.ltb_lt in H
  | H : (_ <? _) = false |- _ => apply Z.ltb_ge in H
  | H : (_ <=? _) = true |- _ => apply Z.leb_le in H
  | H : (_ <=? _) = false |- _ => apply Z.leb_gt in H
  end.

(** Closed decidable goals, by evaluation. *)
Ltac compute_dec :=
  first [ apply (bool_decide_unpack _); vm_compute; exact I | done ].

(** ** Range lemmas *)

Lemma u8_range x : is_u 8 (u8 x).
Proof. apply Z.mod_pos_bound. lia. Qed.
Lemma u16_range x : is_u 16 (u16 x).
Proof. apply Z.mod_pos_bound. lia. Qed.
Lemma u32_range x : is_u 32 (u32 x).
Proof. apply Z.mod_pos_bound. lia. Qed.
Lemma u64_range x : is_u 64 (u64 x).
Proof. apply Z.mod_pos_bound. lia. Qed.

Lemma u8_small x : is_u 8 x → u8 x = x.
Proof. apply Z.mod_small. Qed.
Lemma u16_small x : is_u 16 x → u16 x = x.
Proof. apply Z.mod_small. Qed.
Lemma u32_small x : is_u 32 x → u32 x = x.
Proof. apply Z.mod_small. Qed.
Lemma u64_small x : is_u 64 x → u64 x = x.
Proof. apply Z.mod_small. Qed.
Lemma s32_small x : - 2 ^ 31 <= x < 2 ^ 31 → s32 x = x.
Proof. intros H. unfold s32. rewrite Z.mod_small; lia. Qed.
Lemma s16_small x : - 2 ^ 15 <= x < 2 ^ 15 → s16 x = x.
Proof. intros H. unfold s16. rewrite Z.mod_small; lia. Qed.

Lemma is_u_mono w v x : w <= v → is_u w x → is_u v x.
Proof.
  unfold is_u. intros Hwv Hx.
  destruct (decide (0 <= w)).
  - pose proof (Z.pow_le_mono_r 2 w v). lia.
  - rewrite (Z.pow_neg_r 2 w) in Hx by lia. lia.
Qed.

Lemma is_u_testbit w x :
  0 <= w → 0 <= x → (∀ i, w <= i → Z.testbit x i = false) → is_u w x.
Proof.
  intros Hw Hx Hbits. split; [done|].
  assert (x = x mod 2 ^ w) as ->; [|apply Z.mod_pos_bound; lia].
  apply Z.bits_inj'. intros i Hi. rewrite Z.testbit_mod_pow2 by lia.
  destruct (Z.ltb_spec i w); [done|]. simpl. auto.
Qed.

Lemma is_u_above w x i : 0 <= w → is_u w x → w <= i → Z.testbit x i = false.
Proof.
  intros Hw [Hx Hlt] Hi.
  rewrite <- (Z.mod_small x (2 ^ w)) by lia.
  rewrite Z.testbit_mod_pow2 by lia.
  destruct (Z.ltb_spec i w); [lia|done].
Qed.

Lemma land_range w x y : 0 <= w → 0 <= y → is_u w x → is_u w (Z.land x y).
Proof.
  intros Hw Hy Hx. pose proof (proj1 Hx). apply is_u_testbit; [done| |].
  - apply Z.land_nonneg. auto.
  - intros i Hi. rewrite Z.land_spec, (is_u_above w x) by done. done.
Qed.

Lemma land_range_r w x y : 0 <= w → 0 <= x → is_u w y → is_u w (Z.land x y).
Proof. rewrite Z.land_comm. apply land_range. Qed.

Lemma lor_range w x y : 0 <= w → is_u w x → is_u w y → is_u w (Z.lor x y).
Proof.
  intros Hw Hx Hy. pose proof (proj1 Hx). pose proof (proj1 Hy).
  apply is_u_testbit; [done| |].
  - apply Z.lor_nonneg. auto.
  - intros i Hi. rewrite Z.lor_spec, (is_u_above w x), (is_u_above w y); done.
Qed.

(** A field above another one. *)
Lemma lor_fields x y n : 0 <= n → 0 <= x < 2 ^ n → Z.lor x (y * 2 ^ n) = x + y * 2 ^ n.
Proof.
  intros Hn Hx. rewrite <- Z.add_lor_land.
  assert (Z.land x (y * 2 ^ n) = 0) as ->; [|lia].
  apply Z.bits_inj'. intros i Hi. rewrite Z.land_spec, Z.bits_0.
  destruct (decide (i < n)).
  - by rewrite Z.mul_pow2_bits_low, andb_false_r by lia.
  - rewrite (is_u_above n) by (done || lia). done.
Qed.

Lemma lxor_range w x y : 0 <= w → is_u w x → is_u w y → is_u w (Z.lxor x y).
Proof.
  intros Hw Hx Hy. pose proof (proj1 Hx). pose proof (proj1 Hy).
  apply is_u_testbit; [done| |].
  - apply Z.lxor_nonneg. tauto.
  - intros i Hi. rewrite Z.lxor_spec, (is_u_above w x), (is_u_above w y); done.
Qed.

Lemma shiftr_range w x n : 0 <= n → is_u w x → is_u w (Z.shiftr x n).
Proof.
  intros Hn [Hx Hlt]. rewrite Z.shiftr_div_pow2 by done. split.
  - apply Z.div_pos; lia.
  - eapply Z.le_lt_trans; [|exact Hlt].
    apply Z.div_le_upper_bound; [lia|].
    pose proof (Z.pow_pos_nonneg 2 n). nia.
Qed.

Lemma shiftr_range' w x n : 0 <= n <= w → is_u w x → is_u (w - n) (Z.shiftr x n).
Proof.
  intros Hn [Hx Hlt]. rewrite Z.shiftr_div_pow2 by lia. split.
  - apply Z.div_pos; lia.
  - apply Z.div_lt_upper_bound; [lia|]. rewrite <- Z.pow_add_r by lia.
    by replace (n + (w - n)) with w by lia.
Qed.

(** ** Big-endian lemmas *)

Lemma be_encode_length n x : length (be_encode n x) = n.
Proof.
  revert x. induction n as [|n IH]; intros x; simpl; [done|].
  rewrite length_app, IH. simpl. lia.
Qed.

Lemma be_decode_app l b : be_decode (l ++ [b]) = be_decode l * 256 + b.
Proof. unfold be_decode. by rewrite foldl_app. Qed.

Lemma be_decode_encode n x : be_decode (be_encode n x) = x mod 256 ^ Z.of_nat n.
Proof.
  revert x. induction n as [|n IH]; intros x.
  - simpl. by rewrite Z.mod_1_r.
  - cbn [be_encode]. rewrite be_decode_app, IH.
    rewrite Nat2Z.inj_succ, Z.pow_succ_r by lia.
    rewrite (Z.rem_mul_r x 256) by (try apply Z.pow_nonzero; lia). lia.
Qed.

Lemma be_encode_bytes n x : bytes_ok (be_encode n x).
Proof.
  revert x. induction n as [|n IH]; intros x; simpl; [by constructor|].
  apply Forall_app. split; [apply IH|].
  constructor; [|constructor]. apply (Z.mod_pos_bound x 256). lia.
Qed.

Lemma be_decode_range l : bytes_ok l → 0 <= be_decode l < 256 ^ zlen l.
Proof.
  unfold zlen. induction l as [|b l IH] using rev_ind; intros Hl; [done|].
  apply Forall_app in Hl as [Hl Hb]. apply Forall_inv in Hb.
  rewrite be_decode_app, length_app, Nat2Z.inj_add. simpl (Z.of_nat (length [_])).
  rewrite Z.pow_add_r by lia. specialize (IH Hl). unfold is_u in Hb. nia.
Qed.

Lemma be_encode_decode l : bytes_ok l → be_encode (length l) (be_decode l) = l.
Proof.
  induction l as [|b l IH] using rev_ind; intros Hl; [done|].
  apply Forall_app in Hl as [Hl Hb]. apply Forall_inv in Hb. unfold is_u in Hb.
  rewrite length_app, Nat.add_comm. cbn [length Nat.add be_encode].
  rewrite be_decode_app.
  replace ((be_decode l * 256 + b) / 256) with (be_decode l)
    by (apply Z.div_unique with b; lia).
  replace ((be_decode l * 256 + b) mod 256) with b
    by (apply Z.mod_unique with (be_decode l); lia).
  by rewrite IH.
Qed.

(** ** List lemmas *)

Lemma zlen_nonneg {A} (l : list A) : 0 <= zlen l.
Proof. unfold zlen. lia. Qed.
Lemma zlen_app {A} (l k : list A) : zlen (l ++ k) = zlen l + zlen k.
Proof. unfold zlen. rewrite length_app. lia. Qed.
Lemma zlen_cons {A} (x : A) (l : list A) : zlen (x :: l) = 1 + zlen l.
Proof. unfold zlen. simpl. lia. Qed.

Lemma zlen_nil {A} : zlen (A := A) [] = 0.
Proof. done. Qed.

Lemma splice_length {A} off (bs l : list A) :
  (off + length bs <= length l)%nat → length (splice off bs l) = length l.
Proof.
  intros H. unfold splice.
  rewrite !length_app, length_take, length_drop. lia.
Qed.

Lemma slice_length {A} off n (l : list A) :
  (off + n <= length l)%nat → length (slice off n l) = n.
Proof. intros H. unfold slice. rewrite length_take, length_drop. lia. Qed.

Lemma lookup_slice {A} off n (l : list A) i :
  slice off n l !! i = if decide (i < n)%nat then l !! (off + i)%nat else None.
Proof.
  unfold slice. case_decide.
  - by rewrite lookup_take_lt, lookup_drop by done.
  - apply lookup_take_ge. lia.
Qed.

Lemma lookup_splice {A} off (bs l : list A) i :
  (off <= length l)%nat →
  splice off bs l !! i
  = if decide (i < off)%nat then l !! i
    else if decide (i < off + length bs)%nat then bs !! (i - off)%nat else l !! i.
Proof.
  intros Hoff. unfold splice. case_decide; [|case_decide].
  - rewrite lookup_app_l by (rewrite length_take; lia). by apply lookup_take_lt.
  - rewrite lookup_app_r by (rewrite length_take; lia).
    rewrite length_take, Nat.min_l by done. by rewrite lookup_app_l by lia.
  - rewrite lookup_app_r by (rewrite length_take; lia).
    rewrite length_take, Nat.min_l by done. rewrite lookup_app_r by lia.
    rewrite lookup_drop. f_equal. lia.
Qed.

Lemma slice_app_split {A} off n m (l : list A) :
  slice off (n + m) l = slice off n l ++ slice (off + n) m l.
Proof.
  unfold slice. rewrite <- drop_drop. generalize (drop off l). intros k.
  symmetry. apply take_take_drop.
Qed.

Lemma splice_splice {A} i (a b s : list A) : (i + length a + length b <= length s)%nat →
  splice (i + length a) b (splice i a s) = splice i (a ++ b) s.
Proof.
  intros Hs. apply list_eq. intros j.
  rewrite !lookup_splice by (rewrite ?splice_length; lia). rewrite length_app.
  repeat case_decide; try lia; try done.
  - by rewrite lookup_app_l by lia.
  - rewrite lookup_app_r by lia. f_equal. lia.
Qed.

Lemma splice_nil {A} i (s : list A) : splice i [] s = s.
Proof. unfold splice. cbn. by rewrite Nat.add_0_r, take_drop. Qed.

(** What was copied in is read back, the rest is unchanged. *)
Lemma slice_splice_same {A} off (bs l : list A) :
  (off <= length l)%nat → slice off (length bs) (splice off bs l) = bs.
Proof.
  intros Hoff. apply list_eq. intros i. rewrite lookup_slice. case_decide.
  - rewrite lookup_splice by done. rewrite !decide_False by lia.
    rewrite decide_True by lia. f_equal. lia.
  - symmetry. apply lookup_ge_None. lia.
Qed.

Lemma slice_splice_before {A} off n off' (bs l : list A) :
  (off + n <= off')%nat → (off' <= length l)%nat →
  slice off n (splice off' bs l) = slice off n l.
Proof.
  intros Hn Hoff. apply list_eq. intros i. rewrite !lookup_slice. case_decide; [|done].
  rewrite lookup_splice by done. by rewrite decide_True by lia.
Qed.

Lemma slice_splice_after {A} off n off' (bs l : list A) :
  (off' + length bs <= off)%nat → (off' <= length l)%nat →
  slice off n (splice off' bs l) = slice off n l.
Proof.
  intros Hn Hoff. apply list_eq. intros i. rewrite !lookup_slice. case_decide; [|done].
  rewrite lookup_splice by done. by rewrite !decide_False by lia.
Qed.

Lemma slice_app_l {A} off n (l k : list A) :
  (off + n <= length l)%nat → slice off n (l ++ k) = slice off n l.
Proof.
  intros Hn. apply list_eq. intros i. rewrite !lookup_slice. case_decide; [|done].
  apply lookup_app_l. lia.
Qed.

Lemma slice_take {A} off n m (l : list A) :
  (off + n <= m)%nat → slice off n (take m l) = slice off n l.
Proof.
  intros Hn. apply list_eq. intros i. rewrite !lookup_slice. case_decide; [|done].
  apply lookup_take_lt. lia.
Qed.

Lemma take_slice {A} m off n (l : list A) : take m (slice off n l) = slice off (m `min` n) l.
Proof. unfold slice. by rewrite take_take. Qed.

Lemma drop_slice {A} m off n (l : list A) : drop m (slice off n l) = slice (off + m) (n - m) l.
Proof. unfold slice. rewrite <- drop_drop. by rewrite skipn_firstn_comm. Qed.

Lemma bytes_ok_slice off n l : bytes_ok l → bytes_ok (slice off n l).
Proof. intros Hl. by apply Forall_take, Forall_drop. Qed.

Lemma bytes_ok_splice off bs l : bytes_ok bs → bytes_ok l → bytes_ok (splice off bs l).
Proof.
  intros Hb Hl. apply Forall_app. split; [by apply Forall_take|].
  apply Forall_app. split; [done|by apply Forall_drop].
Qed.

(** ** Running a state monad *)

Lemma st_bind_eq {S A B} (m : st S A) (f : A → st S B) s :
  (m ≫= f) s = f (m s).1 (m s).2.
Proof. unfold mbind, st_mbind. by destruct (m s). Qed.

Lemma st_ret_snd {S A} (a : A) (s : S) : ((mret a : st S A) s).2 = s.
Proof. done. Qed.

(** Partial-correctness triples over a state monad. *)
Definition triple {S A} (P : S → Prop) (m : st S A) (Q : A → S → Prop) : Prop :=
  ∀ s a s', P s → m s = (a, s') → Q a s'.

Lemma triple_ret {S A} (P : S → Prop) (a : A) (Q : A → S → Prop) :
  (∀ s, P s → Q a s) → triple P (mret a) Q.
Proof. intros HQ s b s' Hs [= <- <-]. by apply HQ. Qed.

Lemma triple_bind {S A B} P (m : st S A) (f : A → st S B) R Q :
  triple P m R → (∀ a, triple (R a) (f a) Q) → triple P (m ≫= f) Q.
Proof.
  intros Hm Hf s b s' Hs. unfold mbind, st_mbind. destruct (m s) as [a s1] eqn:Em.
  intros Ef. exact (Hf a s1 b s' (Hm s a s1 Hs Em) Ef).
Qed.

Lemma triple_conseq {S A} (P P' : S → Prop) (m : st S A) (Q Q' : A → S → Prop) :
  triple P m Q → (∀ s, P' s → P s) → (∀ a s, Q a s → Q' a s) → triple P' m Q'.
Proof. intros Hm HP HQ s a s' Hs E1. by apply HQ, (Hm s a s'); [apply HP|]. Qed.

Lemma triple_pre {S A} (P : S → Prop) (m : st S A) Q :
  (∀ s, P s → triple (eq s) m Q) → triple P m Q.
Proof. intros Hm s a s' Hs. by apply (Hm s). Qed.

(** Triples over the monad with faults: about the runs that end well. *)
Definition res_triple {S A} (P : S → Prop) (m : res S A) (Q : A → S → Prop) : Prop :=
  ∀ s a s', P s → m s = Ok a s' → Q a s'.

Lemma res_triple_ret {S A} (P : S → Prop) (a : A) (Q : A → S → Prop) :
  (∀ s, P s → Q a s) → res_triple P (mret a) Q.
Proof. intros HQ s b s' Hs [= <- <-]. by apply HQ. Qed.

Lemma res_triple_bind {S A B} P (m : res S A) (f : A → res S B) R Q :
  res_triple P m R → (∀ a, res_triple (R a) (f a) Q) → res_triple P (m ≫= f) Q.
Proof.
  intros Hm Hf s b s' Hs. unfold mbind, res_mbind. destruct (m s) as [a s1|] eqn:Em; [|done].
  intros Ef. exact (Hf a s1 b s' (Hm s a s1 Hs Em) Ef).
Qed.

Lemma res_triple_conseq {S A} (P P' : S → Prop) (m : res S A) (Q Q' : A → S → Prop) :
  res_triple P m Q → (∀ s, P' s → P s) → (∀ a s, Q a s → Q' a s) → res_triple P' m Q'.
Proof. intros Hm HP HQ s a s' Hs E1. by apply HQ, (Hm s a s'); [apply HP|]. Qed.

Lemma res_triple_fault {S A} P e (Q : A → S → Prop) : res_triple P (res_fault e) Q.
Proof. done. Qed.

Lemma res_triple_opt {S A} P e (o : option A) (Q : A → S → Prop) :
  (∀ a s, o = Some a → P s → Q a s) → res_triple P (res_opt e o) Q.
Proof. intros HQ s a s' Hs. destruct o; [|done]. intros [= <- <-]. by apply HQ. Qed.

(** ** Invariants of step relations *)

Lemma rtc_invariant {A} (R : relation A) (P : A → Prop) x y :
  (∀ a b, P a → R a b → P b) → rtc R x y → P x → P y.
Proof. intros Hstep H. induction H; eauto. Qed.

(** ** Automation *)

Create HintDb ranges.
#[export] Hint Resolve u8_range u16_range u32_range u64_range : ranges.
#[export] Hint Resolve land_range lor_range lxor_range shiftr_range : ranges.
#[export] Hint Resolve be_encode_bytes zlen_nonneg : ranges.
#[export] Hint Extern 1 (0 <= _) => lia : ranges.

Create Rewrite HintDb lens.
#[export] Hint Rewrite @length_app @length_take @length_drop @length_insert
  @length_fmap @length_replicate @be_encode_length : lens.
