(* ===== verification/Loader.v ===== *)
(** * The Casio add-in payload loader ([src/loader/src/main.c])

    The loader finds [linux.pay], validates its 32-byte header, copies the
    payload into the uncached P2 window and starts it after two presses of
    ENTER.  The firmware's file calls are the class [Firmware]; the payload
    itself is an argument.  The screen is a list of drawing commands. *)

From S2P Require Import Prelude.

(** ** Firmware interface *)

Class Firmware (W : Type) := {
  sys_open : string → W → Z * W;
  sys_get_filesize : Z → W → Z * W;
  (** the returned count and the bytes stored at the destination *)
  sys_read : Z → Z → W → (Z * list Z) * W;
  sys_close : Z → W → W;
}.

(** What the loader relies on: [sys_read] never stores or reports more than
    was asked for, and stores as many bytes as it reports. *)
Class FirmwareOk W `{Firmware W} := {
  sys_read_bytes : ∀ d n w, bytes_ok (sys_read d n w).1.2;
  sys_read_count : ∀ d n w, 0 <= n →
    (sys_read d n w).1.1 <= n ∧
    zlen (sys_read d n w).1.2 = Z.max 0 (sys_read d n w).1.1;
}.

(** ** Constants *)

Definition PAYLOAD_HEADER_SIZE : Z := 32.
Definition PAYLOAD_P2_START : Z := 0xac800000.
Definition PAYLOAD_P2_END : Z := 0xad000000.
Definition PAYLOAD_FLAG_EXECUTABLE : Z := 1.
Definition PAYLOAD_FLAG_RETURNS : Z := 2.
Definition PAYLOAD_COOKIE : Z := 0x45585731.

Definition SCREEN_WIDTH : Z := 528.
Definition SCREEN_HEIGHT : Z := 320.

(** ** Data *)

(** [struct payload_header], as the 32 bytes the file holds; the machine is
    big-endian, so every field is the big-endian value of its bytes. *)
Definition payload_header : Type := list Z.

Definition hdr_field (off : nat) (h : payload_header) : Z :=
  be_decode (slice off 4 h).

Definition hdr_magic (h : payload_header) : list Z := slice 0 8 h.
Definition header_size (h : payload_header) : Z := hdr_field 8 h.
Definition load_address (h : payload_header) : Z := hdr_field 12 h.
Definition entry_address (h : payload_header) : Z := hdr_field 16 h.
Definition payload_size (h : payload_header) : Z := hdr_field 20 h.
Definition payload_crc32 (h : payload_header) : Z := hdr_field 24 h.
Definition flags (h : payload_header) : Z := hdr_field 28 h.

Inductive load_status : Type :=
| LOAD_OK
| LOAD_NOT_FOUND
| LOAD_BAD_HEADER
| LOAD_BAD_RANGE
| LOAD_BAD_SIZE
| LOAD_READ_ERROR
| LOAD_BAD_CRC.

#[export] Instance load_status_eq_dec : EqDecision load_status.
Proof. solve_decision. Defined.

(** Drawing commands and firmware calls, in the order they are made. *)
Inductive action : Type :=
| SetPen (r g b : Z)
| DrawRect (x y w h : Z)
| RenderText (x y : Z) (text : string)
| CopyVram
| Opened (path : string) (descriptor : Z)
| Closed (descriptor : Z)
| Entered (address cookie : Z).

Record loader (W : Type) := Loader {
  ld_world : W;
  ld_mem : gmap Z Z;             (** memory, one byte per address *)
  ld_header : payload_header;    (** [static struct payload_header header] *)
  ld_crc : Z;                    (** [static uint32_t measured_crc] *)
  ld_card : bool;                (** [static int source_is_card] *)
  ld_log : list action;
}.
Arguments Loader {W}.
Arguments ld_world {W}. Arguments ld_mem {W}. Arguments ld_header {W}.
Arguments ld_crc {W}. Arguments ld_card {W}. Arguments ld_log {W}.

(** ** Formatting and the checksum *)

Fixpoint bytes_equal_loop (left right : list Z) (i count : nat) : bool :=
  match count with
  | O => true
  | S count' =>
      if decide (left !!! i ≠ right !!! i) then false
      else bytes_equal_loop left right (S i) count'
  end.

Definition bytes_equal (left right : list Z) (count : nat) : bool :=
  bytes_equal_loop left right 0 count.

Definition hex_digits : list Z := Z.of_nat <$>
  [48;49;50;51;52;53;54;55;56;57;65;66;67;68;69;70]%nat.

(** [output[0..10]], its terminating 0 included. *)
Definition hex32 (value : Z) : list Z :=
  [48; 120] ++
  ((λ i, hex_digits !!! Z.to_nat (Z.land (Z.shiftr value (28 - i * 4)) 15))
     <$> seqZ 0 8) ++ [0].

(** The digit loop fills [reverse], at most [sizeof(reverse)] = 10 bytes. *)
Fixpoint decimal_loop (room : nat) (value : Z) : list Z :=
  match room with
  | O => []
  | S room' =>
      if value =? 0 then []
      else (48 + value mod 10) :: decimal_loop room' (value / 10)
  end.

Definition decimal (value : Z) : list Z :=
  if value =? 0 then [48; 0]
  else reverse (decimal_loop 10 value) ++ [0].

(** [crc = (crc >> 1) ^ (0xedb88320u & (uint32_t)-(int32_t)(crc & 1))]. *)
Definition crc32_bit (crc : Z) : Z :=
  Z.lxor (Z.shiftr crc 1) (Z.land 0xedb88320 (u32 (- Z.land crc 1))).

Definition crc32_byte (crc b : Z) : Z := Nat.iter 8 crc32_bit (Z.lxor crc b).

Definition crc32_update (crc : Z) (data : list Z) : Z := foldl crc32_byte crc data.

Open Scope string_scope.

Definition status_text (status : load_status) : string :=
  match status with
  | LOAD_OK => "Payload verified and ready"
  | LOAD_NOT_FOUND => "linux.pay not found on internal storage or card"
  | LOAD_BAD_HEADER => "Payload header is invalid"
  | LOAD_BAD_RANGE => "Payload requests memory outside the safe P2 pool"
  | LOAD_BAD_SIZE => "Payload size does not match the file"
  | LOAD_READ_ERROR => "Storage read failed before payload completed"
  | LOAD_BAD_CRC => "CRC mismatch: payload will not be launched"
  end.

(** A C string as a Rocq string: the bytes before the first 0. *)
Fixpoint c_string (l : list Z) : string :=
  match l with
  | [] => EmptyString
  | b :: l' => if (b =? 0)%Z then EmptyString
               else String (Ascii.ascii_of_N (Z.to_N b)) (c_string l')
  end.

Definition label_value (y : Z) (label value : string) : list action :=
  [ SetPen 137 164 196; RenderText 18 y label;
    SetPen 226 232 240; RenderText 190 y value ].

Definition render_startup_screen : list action :=
  [ SetPen 6 12 22; DrawRect 0 0 SCREEN_WIDTH SCREEN_HEIGHT;
    SetPen 22 46 74; DrawRect 0 0 SCREEN_WIDTH 34;
    SetPen 116 214 255; RenderText 12 10 "EX-WORD LINUX LOADER - STARTUP CHECK";
    SetPen 86 235 176; RenderText 18 68 "Loader code started successfully";
    SetPen 226 232 240;
    RenderText 18 104 "No payload file or staging RAM has been touched";
    RenderText 18 136 "Release ENTER, then press ENTER to inspect linux.pay";
    SetPen 22 46 74; DrawRect 0 286 SCREEN_WIDTH 34;
    SetPen 226 232 240;
    RenderText 12 298 "BACK: return to Casio   No firmware is written";
    CopyVram ].

Definition render_screen (h : payload_header) (measured_crc : Z) (card : bool)
    (status : load_status) (armed : bool) (last_result : option string)
    : list action :=
  [ SetPen 6 12 22; DrawRect 0 0 SCREEN_WIDTH SCREEN_HEIGHT;
    SetPen 22 46 74; DrawRect 0 0 SCREEN_WIDTH 34;
    SetPen 116 214 255; RenderText 12 10 "EX-WORD LINUX LOADER - REVERSIBLE TEST";
    (if decide (status = LOAD_OK) then SetPen 86 235 176 else SetPen 255 150 120);
    RenderText 18 54 (status_text status) ] ++
  (if decide (status = LOAD_OK) then
     label_value 88 "Source" (if card then "microSD" else "internal storage") ++
     label_value 108 "Load address" (c_string (hex32 (load_address h))) ++
     label_value 128 "Entry address" (c_string (hex32 (entry_address h))) ++
     label_value 148 "Payload bytes" (c_string (decimal (payload_size h))) ++
     label_value 168 "Measured CRC32" (c_string (hex32 measured_crc)) ++
     label_value 188 "Flags" (c_string (hex32 (flags h))) ++
     match last_result with
     | Some r => [ SetPen 86 235 176; RenderText 18 220 r ]
     | None =>
         if armed then
           [ SetPen 255 193 92;
             RenderText 18 220 "ARMED: press ENTER again to transfer control" ]
         else
           [ SetPen 226 232 240;
             RenderText 18 220 "Press ENTER to arm the payload" ]
     end
   else []) ++
  [ SetPen 22 46 74; DrawRect 0 286 SCREEN_WIDTH 34;
    SetPen 226 232 240;
    RenderText 12 298 "BACK: return to Casio   No firmware is written";
    CopyVram ].

Close Scope string_scope.

(** ** Memory *)

Fixpoint mem_write (m : gmap Z Z) (a : Z) (bs : list Z) : gmap Z Z :=
  match bs with
  | [] => m
  | b :: bs' => mem_write (<[a := b]> m) (a + 1) bs'
  end.

Definition mem_read (m : gmap Z Z) (a n : Z) : list Z :=
  (λ i, default 0 (m !! (a + i))) <$> seqZ 0 n.

(** ** Loading *)

Section Loading.
Context {W : Type} `{Firmware W}.

Definition log (a : list action) : st (loader W) unit :=
  st_upd (λ s, Loader (ld_world s) (ld_mem s) (ld_header s) (ld_crc s)
                      (ld_card s) (ld_log s ++ a)).
Definition set_card (c : bool) : st (loader W) unit :=
  st_upd (λ s, Loader (ld_world s) (ld_mem s) (ld_header s) (ld_crc s) c (ld_log s)).
Definition set_crc (c : Z) : st (loader W) unit :=
  st_upd (λ s, Loader (ld_world s) (ld_mem s) (ld_header s) c (ld_card s) (ld_log s)).

Definition do_open (path : string) : st (loader W) Z := λ s,
  let '(d, w) := sys_open path (ld_world s) in
  (d, Loader w (ld_mem s) (ld_header s) (ld_crc s) (ld_card s)
             (ld_log s ++ [Opened path d])).
Definition do_close (d : Z) : st (loader W) unit := λ s,
  (tt, Loader (sys_close d (ld_world s)) (ld_mem s) (ld_header s) (ld_crc s)
              (ld_card s) (ld_log s ++ [Closed d])).
Definition do_filesize (d : Z) : st (loader W) Z := λ s,
  let '(n, w) := sys_get_filesize d (ld_world s) in
  (n, Loader w (ld_mem s) (ld_header s) (ld_crc s) (ld_card s) (ld_log s)).

(** [sys_read(descriptor, &header, sizeof(header))]: a short read replaces
    only the first bytes of the static header. *)
Definition do_read_header (d : Z) : st (loader W) Z := λ s,
  let '((c, bs), w) := sys_read d PAYLOAD_HEADER_SIZE (ld_world s) in
  (c, Loader w (ld_mem s) (splice 0 bs (ld_header s)) (ld_crc s) (ld_card s)
             (ld_log s)).

Definition do_read_mem (d dest n : Z) : st (loader W) Z := λ s,
  let '((c, bs), w) := sys_read d n (ld_world s) in
  (c, Loader w (mem_write (ld_mem s) dest bs) (ld_header s) (ld_crc s)
             (ld_card s) (ld_log s)).

Fixpoint open_first (paths : list string) : st (loader W) Z :=
  match paths with
  | [] => mret (-1)
  | [p] => do_open p
  | p :: ps => d ← do_open p; if d <? 0 then open_first ps else mret d
  end.

Definition open_payload : st (loader W) Z :=
  set_card false;;
  d ← open_first [ "\\drv0\CASIOTXT\linux.pay"; "\\drv0\CASIOTXT\LINUX.PAY";
                   "\\drv0\linux.pay"; "\\drv0\LINUX.PAY" ]%string;
  if 0 <=? d then mret d
  else
    set_card true;;
    open_first [ "\\crd0\CASIOTXT\linux.pay"; "\\crd0\CASIOTXT\LINUX.PAY";
                 "\\crd0\linux.pay"; "\\crd0\LINUX.PAY" ]%string.

(** The copy loop: [Some] of its end, [None] when [fuel] runs out. *)
Fixpoint copy_loop (fuel : nat) (d done crc : Z)
    : st (loader W) (option (load_status + Z)) :=
  match fuel with
  | O => mret None
  | S fuel' =>
      h ← st_get ld_header;
      if done <? payload_size h then
        let remaining := u32 (payload_size h - done) in
        let request := if remaining >? 65536 then 65536 else remaining in
        let destination := u32 (load_address h + done) in
        count ← do_read_mem d destination request;
        if count <=? 0 then
          do_close d;; mret (Some (inl LOAD_READ_ERROR))
        else
          m ← st_get ld_mem;
          copy_loop fuel' d (u32 (done + u32 count))
            (crc32_update crc (mem_read m destination (u32 count)))
      else mret (Some (inr crc))
  end.

Definition expected_magic : list Z := [69; 88; 87; 80; 65; 89; 49; 0].

Definition bad_header (h : payload_header) : bool :=
  negb (bytes_equal (hdr_magic h) expected_magic 8)
  || negb (header_size h =? PAYLOAD_HEADER_SIZE)
  || (Z.land (flags h) PAYLOAD_FLAG_EXECUTABLE =? 0).

Definition bad_range (h : payload_header) : bool :=
  (load_address h <? PAYLOAD_P2_START)
  || (load_address h >=? PAYLOAD_P2_END)
  || (payload_size h =? 0)
  || (payload_size h >? u32 (PAYLOAD_P2_END - load_address h))
  || (entry_address h <? load_address h)
  || (entry_address h >=? u32 (load_address h + payload_size h)).

(** [None] stands for a copy loop that exceeded its fuel. *)
Definition load_payload : st (loader W) (option load_status) :=
  descriptor ← open_payload;
  if descriptor <? 0 then mret (Some LOAD_NOT_FOUND) else
  file_size ← do_filesize descriptor;
  count ← do_read_header descriptor;
  if negb (count =? PAYLOAD_HEADER_SIZE) then
    do_close descriptor;; mret (Some LOAD_BAD_HEADER) else
  h ← st_get ld_header;
  if bad_header h then
    do_close descriptor;; mret (Some LOAD_BAD_HEADER) else
  if bad_range h then
    do_close descriptor;; mret (Some LOAD_BAD_RANGE) else
  if negb (file_size =? s32 (u32 (PAYLOAD_HEADER_SIZE + payload_size h))) then
    do_close descriptor;; mret (Some LOAD_BAD_SIZE) else
  r ← copy_loop (S (Z.to_nat (payload_size h))) descriptor 0 0xffffffff;
  match r with
  | None => mret None
  | Some (inl status) => mret (Some status)
  | Some (inr crc) =>
      do_close descriptor;;
      set_crc (Z.lxor crc 0xffffffff);;
      measured ← st_get ld_crc;
      if negb (measured =? payload_crc32 h) then mret (Some LOAD_BAD_CRC)
      else mret (Some LOAD_OK)
  end.
End Loading.

(** ** The interactive loop of [main] *)

(** What one [keypad_read] makes visible: key levels and press edges. *)
Record poll := Poll {
  power_state : bool; back_state : bool; enter_state : bool;
  power_pressed : bool; back_pressed : bool; enter_pressed : bool;
}.

Inductive phase : Type :=
| Startup (controls_released : bool)        (** first [while (1)] of [main] *)
| Menu (status : load_status) (armed : bool) (** second [while (1)] *)
| Returned (code : Z)                       (** [main] has returned *)
| Stuck.                                    (** the copy loop ran out of fuel *)

Section Main.
Context {W : Type} `{Firmware W}.
(** The code at the entry address: what it does to the firmware and to
    memory when it returns.  The loader's own statics are assumed intact. *)
Variable payload : Z → Z → W * gmap Z Z → W * gmap Z Z.

Definition show (status : load_status) (armed : bool) (last : option string)
    : st (loader W) unit :=
  s ← st_get id;
  log (render_screen (ld_header s) (ld_crc s) (ld_card s) status armed last).

Definition execute_payload : st (loader W) unit := λ s,
  let entry := entry_address (ld_header s) in
  let '(w, m) := payload entry PAYLOAD_COOKIE (ld_world s, ld_mem s) in
  (tt, Loader w m (ld_header s) (ld_crc s) (ld_card s)
              (ld_log s ++ [Entered entry PAYLOAD_COOKIE])).

Definition main_step (p : poll) (ph : phase) : st (loader W) phase :=
  match ph with
  | Startup released =>
      let released := released || (negb (power_state p) && negb (back_state p)
                                   && negb (enter_state p)) in
      if released && enter_pressed p then
        r ← load_payload;
        match r with
        | Some status => show status false None;; mret (Menu status false)
        | None => mret Stuck
        end
      else if released && (power_pressed p || back_pressed p) then
        mret (Returned (-2))
      else mret (Startup released)
  | Menu status armed =>
      if power_state p || back_state p then mret (Returned (-2))
      else if bool_decide (status = LOAD_OK) && enter_pressed p then
        if negb armed then
          show status true None;; mret (Menu status true)
        else
          execute_payload;;
          h ← st_get ld_header;
          (if negb (Z.land (flags h) PAYLOAD_FLAG_RETURNS =? 0) then
             show status false
               (Some "P2 payload executed and returned successfully"%string)
           else
             show status false
               (Some "Payload unexpectedly returned to the loader"%string));;
          mret (Menu status false)
      else mret (Menu status armed)
  | Returned _ | Stuck => mret ph
  end.

(** [main] on a sequence of polls. *)
Fixpoint main_loop (ps : list poll) (ph : phase) : st (loader W) phase :=
  match ps with
  | [] => mret ph
  | p :: ps' => ph' ← main_step p ph; main_loop ps' ph'
  end.

Definition main (ps : list poll) : st (loader W) phase :=
  log render_startup_screen;; main_loop ps (Startup false).
End Main.

(** ** A concrete firmware: named files with a read position *)

Definition file_world : Type := list (string * list Z) * list Z.

Definition find_file (fs : list (string * list Z)) (p : string) : option (list Z) :=
  (list_find (λ f, f.1 = p) fs) ≫= λ '(_, f), Some f.2.

#[export] Instance file_firmware : Firmware file_world := {
  sys_open p w := match find_file w.1 p with
                  | Some c => (3, (w.1, c)) | None => (-1, w) end;
  sys_get_filesize d w := (zlen w.2, w);
  sys_read d n w :=
    let bs := u8 <$> take (Z.to_nat n) w.2 in
    ((zlen bs, bs), (w.1, drop (Z.to_nat n) w.2));
  sys_close d w := w;
}.

#[export] Instance file_firmware_ok : FirmwareOk file_world.
Proof.
  split.
  - intros d n w. cbn. apply Forall_fmap, Forall_true. intros x. apply u8_range.
  - intros d n w Hn. cbn. unfold zlen. autorewrite with lens. lia.
Qed.

(** ** The checksum *)

Definition crc_poly : Z := 0xedb88320.

Lemma land_one x : Z.land x 1 = Z.b2z (Z.odd x).
Proof.
  change 1 with (Z.ones 1) at 1. rewrite Z.land_ones by lia.
  change (2 ^ 1) with 2. by rewrite Zmod_odd; destruct (Z.odd x).
Qed.

Lemma crc32_bit_eq c :
  crc32_bit c = Z.lxor (Z.shiftr c 1) (if Z.odd c then crc_poly else 0).
Proof. unfold crc32_bit. rewrite land_one. by destruct (Z.odd c). Qed.

Lemma crc32_bit_range c : is_u 32 c → is_u 32 (crc32_bit c).
Proof.
  intros Hc. rewrite crc32_bit_eq. apply lxor_range; [lia|by apply shiftr_range|].
  by destruct (Z.odd c).
Qed.

Lemma crc32_bit_top c : is_u 32 c → Z.testbit (crc32_bit c) 31 = Z.odd c.
Proof.
  intros Hc. rewrite crc32_bit_eq, Z.lxor_spec, Z.shiftr_spec by lia.
  rewrite (is_u_above 32 c) by (done || lia). by destruct (Z.odd c).
Qed.

Lemma crc32_bit_inj c d :
  is_u 32 c → is_u 32 d → crc32_bit c = crc32_bit d → c = d.
Proof.
  intros Hc Hd Heq.
  assert (Z.odd c = Z.odd d) as Hodd.
  { rewrite <- (crc32_bit_top c), <- (crc32_bit_top d) by done. by rewrite Heq. }
  rewrite !crc32_bit_eq, Hodd in Heq.
  assert (Z.shiftr c 1 = Z.shiftr d 1) as Hs.
  { generalize dependent (if Z.odd d then crc_poly else 0). intros p Hp.
    rewrite <- (Z.lxor_0_r (Z.shiftr c 1)), <- (Z.lxor_0_r (Z.shiftr d 1)).
    rewrite <- (Z.lxor_nilpotent p), <- !Z.lxor_assoc. by rewrite Hp. }
  rewrite <- !Z.div2_spec in Hs.
  rewrite (Z.div2_odd c), (Z.div2_odd d). by rewrite Hs, Hodd.
Qed.

Lemma crc32_bit_lxor c d :
  crc32_bit (Z.lxor c d) = Z.lxor (crc32_bit c) (crc32_bit d).
Proof.
  rewrite !crc32_bit_eq, Z.shiftr_lxor, <- !Z.bit0_odd, Z.lxor_spec.
  apply Z.bits_inj'. intros i Hi. rewrite !Z.lxor_spec.
  destruct (Z.testbit c 0), (Z.testbit d 0); simpl;
    destruct (Z.testbit (Z.shiftr c 1) i), (Z.testbit (Z.shiftr d 1) i),
      (Z.testbit crc_poly i); rewrite ?Z.testbit_0_l; done.
Qed.

Lemma crc32_iter_range n c : is_u 32 c → is_u 32 (Nat.iter n crc32_bit c).
Proof. intros Hc. induction n; simpl; auto using crc32_bit_range. Qed.

Lemma crc32_iter_inj n c d :
  is_u 32 c → is_u 32 d →
  Nat.iter n crc32_bit c = Nat.iter n crc32_bit d → c = d.
Proof.
  intros Hc Hd. induction n as [|n IH]; simpl; [done|]. intros Heq.
  apply IH, crc32_bit_inj; auto using crc32_iter_range.
Qed.

Lemma crc32_iter_lxor n c d :
  Nat.iter n crc32_bit (Z.lxor c d)
  = Z.lxor (Nat.iter n crc32_bit c) (Nat.iter n crc32_bit d).
Proof. induction n as [|n IH]; simpl; [done|]. by rewrite IH, crc32_bit_lxor. Qed.

Lemma crc32_iter_shift n b : Nat.iter n crc32_bit (b * 2 ^ Z.of_nat n) = b.
Proof.
  induction n as [|n IH]; [simpl; lia|].
  rewrite Nat.iter_succ_r.
  assert (crc32_bit (b * 2 ^ Z.of_nat (S n)) = b * 2 ^ Z.of_nat n) as ->; [|done].
  replace (b * 2 ^ Z.of_nat (S n)) with (2 * (b * 2 ^ Z.of_nat n))
    by (rewrite Nat2Z.inj_succ, Z.pow_succ_r by lia; lia).
  rewrite crc32_bit_eq, <- Z.div2_spec, Z.odd_mul. simpl (Z.odd 2).
  rewrite Z.lxor_0_r, Z.div2_div. by rewrite Z.mul_comm, Z.div_mul.
Qed.

(** Feeding a byte after [n] bit steps equals feeding it shifted up front. *)
Lemma crc32_byte_iter n m c b :
  m = (8 + n)%nat →
  crc32_byte (Nat.iter n crc32_bit c) b
  = Nat.iter m crc32_bit (Z.lxor c (b * 2 ^ Z.of_nat n)).
Proof.
  intros ->. unfold crc32_byte. rewrite Nat.iter_add.
  by rewrite (crc32_iter_lxor n), crc32_iter_shift.
Qed.

Lemma crc32_byte_first c b : crc32_byte c b = Nat.iter 8 crc32_bit (Z.lxor c (b * 2 ^ 0)).
Proof. unfold crc32_byte. by rewrite Z.mul_1_r. Qed.

Lemma crc32_update_nil c : crc32_update c [] = c.
Proof. done. Qed.

Lemma crc32_update_cons c b l : crc32_update c (b :: l) = crc32_update (crc32_byte c b) l.
Proof. done. Qed.

Definition le32 (w : list Z) : Z := foldr (λ b acc, b + 256 * acc) 0 w.

Lemma crc32_update_word c b0 b1 b2 b3 :
  bytes_ok [b0; b1; b2; b3] →
  crc32_update c [b0; b1; b2; b3]
  = Nat.iter 32 crc32_bit (Z.lxor c (le32 [b0; b1; b2; b3])).
Proof.
  intros Hb. rewrite !crc32_update_cons, (crc32_byte_first c b0).
  rewrite (crc32_byte_iter 8 16), (crc32_byte_iter 16 24),
    (crc32_byte_iter 24 32), crc32_update_nil by done.
  apply (f_equal (Nat.iter 32 crc32_bit)). rewrite !Z.lxor_assoc. f_equal.
  unfold bytes_ok, is_u in Hb. decompose_Forall_hyps.
  assert (∀ x y n, 0 <= n → 0 <= x < 2 ^ n → Z.lxor x (y * 2 ^ n) = x + y * 2 ^ n)
    as Hx.
  { intros x y n Hn Hlt. rewrite Z.add_nocarry_lxor; [done|].
    apply Z.bits_inj'. intros i Hi. rewrite Z.land_spec, Z.testbit_0_l.
    destruct (decide (i < n)).
    - by rewrite (Z.mul_pow2_bits_low y n i), andb_false_r by lia.
    - rewrite (is_u_above n x) by (done || lia). done. }
  cbn [le32 foldr]. rewrite <- !Z.lxor_assoc.
  change (Z.of_nat 8) with 8.
  change (Z.of_nat 16) with 16. change (Z.of_nat 24) with 24.
  rewrite (Hx (b0 * 2 ^ 0) b1 8), (Hx _ b2 16), (Hx _ b3 24) by lia. lia.
Qed.

Lemma crc32_byte_range c b : is_u 32 c → is_u 8 b → is_u 32 (crc32_byte c b).
Proof.
  intros Hc Hb. apply crc32_iter_range, lxor_range; [lia|done|].
  by apply (is_u_mono 8).
Qed.

Lemma crc32_update_range c l : is_u 32 c → bytes_ok l → is_u 32 (crc32_update c l).
Proof.
  intros Hc Hl. revert c Hc. induction Hl as [|b l Hb Hl IH]; intros c Hc; [done|].
  apply IH. by apply crc32_byte_range.
Qed.

Lemma lxor_cancel_r a b c : Z.lxor a c = Z.lxor b c → a = b.
Proof.
  intros H. rewrite <- (Z.lxor_0_r a), <- (Z.lxor_0_r b).
  rewrite <- (Z.lxor_nilpotent c), <- !Z.lxor_assoc. by rewrite H.
Qed.

Lemma crc32_byte_inj c d b :
  is_u 32 c → is_u 32 d → is_u 8 b → crc32_byte c b = crc32_byte d b → c = d.
Proof.
  intros Hc Hd Hb. unfold crc32_byte. intros Heq.
  apply (lxor_cancel_r _ _ b), (crc32_iter_inj 8); [..|exact Heq];
    (apply lxor_range; [lia|done|by apply (is_u_mono 8)]).
Qed.

Lemma crc32_update_inj c d l :
  is_u 32 c → is_u 32 d → bytes_ok l →
  crc32_update c l = crc32_update d l → c = d.
Proof.
  intros Hc Hd Hl. revert c d Hc Hd.
  induction Hl as [|b l Hb Hl IH]; intros c d Hc Hd Heq; [done|].
  rewrite !crc32_update_cons in Heq.
  apply IH in Heq; [|by apply crc32_byte_range..].
  by apply crc32_byte_inj in Heq.
Qed.

Lemma crc32_update_app c l k :
  crc32_update c (l ++ k) = crc32_update (crc32_update c l) k.
Proof. apply foldl_app. Qed.

Lemma le32_range w : bytes_ok w → is_u (8 * zlen w) (le32 w).
Proof.
  induction 1 as [|b w Hb Hw IH]; [done|].
  rewrite zlen_cons. unfold is_u in *. pose proof (zlen_nonneg w).
  replace (8 * (1 + zlen w)) with (8 + 8 * zlen w) by lia.
  rewrite Z.pow_add_r by lia. cbn [le32 foldr]. fold (le32 w). lia.
Qed.

(** Two four-byte windows with the same state afterwards are the same bytes. *)
Lemma crc32_update_word_inj c v w :
  is_u 32 c → bytes_ok v → bytes_ok w → length v = 4%nat → length w = 4%nat →
  crc32_update c v = crc32_update c w → v = w.
Proof.
  intros Hc Hv Hw Lv Lw.
  destruct v as [|v0 [|v1 [|v2 [|v3 [|]]]]]; try discriminate Lv.
  destruct w as [|w0 [|w1 [|w2 [|w3 [|]]]]]; try discriminate Lw.
  pose proof (le32_range _ Hv) as Rv. pose proof (le32_range _ Hw) as Rw.
  rewrite !crc32_update_word by done. intros Heq.
  apply (crc32_iter_inj 32) in Heq; [|by apply lxor_range..].
  rewrite !(Z.lxor_comm c) in Heq. apply lxor_cancel_r in Heq.
  unfold bytes_ok, is_u in Hv, Hw. clear Rv Rw. decompose_Forall_hyps.
  repeat f_equal; lia.
Qed.

(** ** Decimal and hexadecimal text *)

Definition digit_value (d : Z) : Z := if d <=? 57 then d - 48 else d - 55.

(** The number a digit string denotes, most significant digit first. *)
Definition digits_value (base : Z) (l : list Z) : Z :=
  foldl (λ acc d, acc * base + digit_value d) 0 l.

Lemma digits_value_app base l d :
  digits_value base (l ++ [d]) = digits_value base l * base + digit_value d.
Proof. unfold digits_value. by rewrite foldl_app. Qed.

Lemma digit_value_decimal v : digit_value (48 + v mod 10) = v mod 10.
Proof.
  pose proof (Z.mod_pos_bound v 10). unfold digit_value.
  destruct (Z.leb_spec (48 + v mod 10) 57); lia.
Qed.

Lemma decimal_loop_value room v :
  0 <= v < 10 ^ Z.of_nat room →
  digits_value 10 (reverse (decimal_loop room v)) = v.
Proof.
  revert v. induction room as [|room IH]; intros v Hv; [cbn in *; lia|].
  cbn [decimal_loop]. destruct (Z.eqb_spec v 0) as [->|Hne]; [done|].
  rewrite reverse_cons, digits_value_app, digit_value_decimal, IH.
  - pose proof (Z.div_mod v 10). lia.
  - rewrite Nat2Z.inj_succ, Z.pow_succ_r in Hv by lia. split.
    + apply Z.div_pos; lia.
    + apply Z.div_lt_upper_bound; lia.
Qed.

Lemma decimal_loop_length room v : (length (decimal_loop room v) <= room)%nat.
Proof.
  revert v. induction room as [|room IH]; intros v; simpl; [lia|].
  destruct (v =? 0); simpl; [lia|]. specialize (IH (v / 10)). lia.
Qed.

Lemma decimal_loop_digits room v :
  Forall (λ d, 48 <= d <= 57) (decimal_loop room v).
Proof.
  revert v. induction room as [|room IH]; intros v; cbn [decimal_loop]; [done|].
  destruct (v =? 0); [done|]. constructor; [|done].
  pose proof (Z.mod_pos_bound v 10). lia.
Qed.

Definition nibbles (value : Z) : list Z :=
  (λ i, Z.land (Z.shiftr value (28 - i * 4)) 15) <$> seqZ 0 8.

Lemma nibble_range value i : is_u 4 (Z.land (Z.shiftr value i) 15).
Proof.
  change 15 with (Z.ones 4). rewrite Z.land_ones by lia.
  apply Z.mod_pos_bound. lia.
Qed.

Lemma hex_digit_value n :
  is_u 4 n → digit_value (hex_digits !!! Z.to_nat n) = n.
Proof.
  intros [H0 H15]. rewrite <- (Z2Nat.id n) at 2 by done.
  assert (Z.to_nat n < 16)%nat as Hk by lia. clear H0 H15. revert Hk.
  generalize (Z.to_nat n). intros k Hk.
  do 16 (destruct k as [|k]; [done|]). lia.
Qed.

Lemma be_nibbles_step x v :
  Z.land (Z.shiftr v x) 15 = (v / 2 ^ x) mod 16 ∨ x < 0.
Proof.
  destruct (decide (0 <= x)); [left|right; lia].
  rewrite Z.shiftr_div_pow2 by done. change 15 with (Z.ones 4).
  by rewrite Z.land_ones.
Qed.

Lemma hex32_digits value :
  hex32 value = [48; 120] ++ ((λ n, hex_digits !!! Z.to_nat n) <$> nibbles value) ++ [0].
Proof. unfold hex32, nibbles. by rewrite <- list_fmap_compose. Qed.

Lemma nibbles_value value :
  is_u 32 value → foldl (λ acc n, acc * 16 + n) 0 (nibbles value) = value.
Proof.
  intros [H0 H32]. unfold nibbles. change (seqZ 0 8) with [0;1;2;3;4;5;6;7].
  cbn [fmap list_fmap foldl].
  assert (∀ x, 0 <= x → Z.land (Z.shiftr value x) 15 = (value / 2 ^ x) mod 16) as E.
  { intros x Hx. destruct (be_nibbles_step x value); [done|lia]. }
  rewrite !E by lia. clear E. cbn [Z.mul Z.sub Z.add Z.opp Z.pos_sub Pos.mul Z.pow].
  Z.to_euclidean_division_equations. lia.
Qed.

(** ** Memory *)

Lemma mem_write_lookup m a bs k :
  mem_write m a bs !! k
  = if decide (a <= k < a + zlen bs) then bs !! Z.to_nat (k - a) else m !! k.
Proof.
  revert m a. induction bs as [|b bs IH]; intros m a; cbn [mem_write].
  - rewrite decide_False; [done|]. unfold zlen. simpl. lia.
  - rewrite IH, zlen_cons. unfold zlen.
    destruct (decide (k = a)) as [->|Hne].
    + rewrite decide_False by lia. rewrite decide_True by lia.
      rewrite lookup_insert_eq. by rewrite Z.sub_diag.
    + destruct (decide (a + 1 <= k < a + 1 + Z.of_nat (length bs))).
      * rewrite decide_True by lia.
        by replace (Z.to_nat (k - a)) with (S (Z.to_nat (k - (a + 1)))) by lia.
      * rewrite decide_False by lia. by rewrite lookup_insert_ne.
Qed.

Lemma mem_read_length m a n : length (mem_read m a n) = Z.to_nat n.
Proof. unfold mem_read. by rewrite length_fmap, length_seqZ. Qed.

Lemma mem_read_lookup m a n (i : nat) :
  Z.of_nat i < n → mem_read m a n !! i = Some (default 0 (m !! (a + Z.of_nat i))).
Proof.
  intros Hi. unfold mem_read. rewrite list_lookup_fmap, lookup_seqZ_lt by lia.
  simpl. do 3 f_equal.
Qed.

Lemma mem_read_app m a n k :
  0 <= n → 0 <= k → mem_read m a (n + k) = mem_read m a n ++ mem_read m (a + n) k.
Proof.
  intros Hn Hk. unfold mem_read. rewrite seqZ_app by lia. rewrite fmap_app.
  f_equal. rewrite Z.add_0_l, <- (Z.add_0_r n) at 1. rewrite <- fmap_add_seqZ.
  rewrite <- list_fmap_compose. apply list_fmap_ext. intros i x _. simpl.
  do 2 f_equal. lia.
Qed.

Lemma mem_read_write_same m a bs :
  mem_read (mem_write m a bs) a (zlen bs) = bs.
Proof.
  apply list_eq_same_length with (length bs); [done| |].
  - rewrite mem_read_length. unfold zlen. lia.
  - intros i x y Hi Hx Hy. rewrite mem_read_lookup in Hx by (unfold zlen; lia).
    rewrite mem_write_lookup, decide_True in Hx by (unfold zlen; lia).
    replace (Z.to_nat (a + Z.of_nat i - a)) with i in Hx by lia.
    rewrite Hy in Hx. by simplify_eq/=.
Qed.

Lemma mem_read_write_before m a n b bs :
  a + n <= b → mem_read (mem_write m b bs) a n = mem_read m a n.
Proof.
  intros Hb. apply list_fmap_ext. intros i x Hx. apply lookup_seqZ in Hx as [-> Hi].
  rewrite mem_write_lookup, decide_False by lia. done.
Qed.

(** ** The copy loop and [load_payload] *)

Ltac run_st := cbv beta iota zeta delta [mbind mret st_mbind st_mret st_get st_upd
  log set_card set_crc];
  cbn [ld_world ld_mem ld_header ld_crc ld_card ld_log fst snd].

Section LoadingFacts.
Context {W : Type} `{FirmwareOk W}.
Implicit Types (s : loader W).

Lemma do_read_mem_spec d dest n s :
  0 <= n →
  ∃ c bs w, do_read_mem d dest n s
    = (c, Loader w (mem_write (ld_mem s) dest bs) (ld_header s) (ld_crc s)
                 (ld_card s) (ld_log s))
    ∧ c <= n ∧ zlen bs = Z.max 0 c.
Proof.
  intros Hn. unfold do_read_mem.
  pose proof (sys_read_count d n (ld_world s) Hn) as [Hc Hl].
  destruct (sys_read d n (ld_world s)) as [[c bs] w]. eauto 10.
Qed.

(** What the loop leaves behind, for a window [L, L+N) that does not wrap. *)
Definition copy_post (d done crc : Z) s (r : load_status + Z) s' : Prop :=
  let L := load_address (ld_header s) in
  let N := payload_size (ld_header s) in
  ld_header s' = ld_header s ∧ ld_card s' = ld_card s ∧
  (∀ a, ¬ (L + done <= a < L + N) → ld_mem s' !! a = ld_mem s !! a) ∧
  match r with
  | inl status => status = LOAD_READ_ERROR ∧ ld_log s' = ld_log s ++ [Closed d]
  | inr crc' => ld_log s' = ld_log s ∧
      crc' = crc32_update crc (mem_read (ld_mem s') (L + done) (N - done))
  end.

Lemma copy_loop_spec fuel d done crc s :
  let L := load_address (ld_header s) in
  let N := payload_size (ld_header s) in
  0 <= L → 0 <= done <= N → L + N < 2 ^ 32 → (Z.to_nat (N - done) < fuel)%nat →
  ∃ r s', copy_loop fuel d done crc s = (Some r, s') ∧
    copy_post d done crc s r s'.
Proof.
  revert done crc s. induction fuel as [|fuel IH]; intros done crc s; [lia|].
  intros L N HL Hdone HLN Hfuel. subst L N. cbn [copy_loop]. run_st.
  destruct (Z.ltb_spec done (payload_size (ld_header s))) as [Hlt|Hge]; run_st.
  2:{ eexists _, _. split; [reflexivity|]. unfold copy_post.
      replace (payload_size (ld_header s) - done) with 0 by lia. done. }
  rewrite !u32_small by (unfold is_u; lia).
  set (rem := payload_size (ld_header s) - done) in *.
  set (request := if rem >? 65536 then 65536 else rem).
  assert (0 < request <= rem) as Hreq.
  { unfold request. destruct (Z.gtb_spec rem 65536); lia. }
  destruct (do_read_mem_spec d (load_address (ld_header s) + done) request s)
    as (c & bs & w & -> & Hc & Hbs); [lia|]. run_st.
  destruct (Z.leb_spec c 0) as [Hc0|Hc0]; run_st.
  - eexists _, _. split; [reflexivity|]. unfold copy_post.
    cbn [ld_header ld_mem ld_card ld_log].
    repeat split. intros a _. rewrite mem_write_lookup, decide_False by lia. done.
  - rewrite (u32_small c), (u32_small (done + c)) by (unfold is_u; lia).
    match goal with |- context [copy_loop fuel d _ ?crc' ?s'] =>
      destruct (IH (done + c) crc' s') as (r & s2 & Hr & Hpost) end;
      [cbn [ld_header]; lia..|].
    exists r, s2. split; [exact Hr|].
    destruct Hpost as (Hh & Hcard & Hframe & Hout).
    cbn [ld_header ld_mem ld_card ld_log] in Hh, Hcard, Hframe, Hout.
    unfold copy_post. split_and!; [done|done| |].
    + intros a Ha. rewrite Hframe by lia.
      rewrite mem_write_lookup, decide_False by lia. done.
    + destruct r as [status|crc']; [done|]. destruct Hout as [Hlog ->].
      split; [done|]. rewrite <- crc32_update_app. f_equal.
      rewrite Z.max_r in Hbs by lia.
      replace (payload_size (ld_header s) - done)
        with (c + (payload_size (ld_header s) - (done + c))) by lia.
      rewrite mem_read_app by lia. rewrite Z.add_assoc. f_equal.
      apply list_fmap_ext. intros i x Hx. apply lookup_seqZ in Hx as [-> Hi].
      rewrite Hframe by lia. done.
Qed.
End LoadingFacts.

(** The file descriptors a run still holds, newest first. *)
Definition held_step (acc : list Z) (a : action) : list Z :=
  match a with
  | Opened _ d => if 0 <=? d then d :: acc else acc
  | Closed d => match list_find (λ e, e = d) acc with
                | Some (i, _) => delete i acc
                | None => acc
                end
  | _ => acc
  end.
Definition is_file_call (a : action) : bool :=
  match a with Opened _ _ | Closed _ => true | _ => false end.

Definition held (l : list action) : list Z := foldl held_step [] l.

(** The header passes every check: the payload is executable and lies, with
    its entry point, inside the P2 window. *)
Record accepted (h : payload_header) : Prop := {
  acc_magic : hdr_magic h = expected_magic;
  acc_size : header_size h = PAYLOAD_HEADER_SIZE;
  acc_exec : Z.testbit (flags h) 0 = true;
  acc_start : PAYLOAD_P2_START <= load_address h;
  acc_nonempty : 0 < payload_size h;
  acc_end : load_address h + payload_size h <= PAYLOAD_P2_END;
  acc_entry : load_address h <= entry_address h < load_address h + payload_size h;
}.

(** ... and the bytes in memory are the ones the header's checksum is for. *)
Definition verified (h : payload_header) (m : gmap Z Z) : Prop :=
  accepted h ∧
  Z.lxor (crc32_update 0xffffffff (mem_read m (load_address h) (payload_size h)))
    0xffffffff = payload_crc32 h.

Lemma bytes_equal_loop_spec l r i n :
  bytes_equal_loop l r i n = true →
  ∀ j, (i <= j < i + n)%nat → l !!! j = r !!! j.
Proof.
  revert i. induction n as [|n IH]; intros i; [lia|]. cbn [bytes_equal_loop].
  case_decide as Hd; [done|]. intros Hl j Hj.
  destruct (decide (j = i)) as [->|]; [|apply (IH (S i)); [done|lia]].
  destruct (decide (l !!! i = r !!! i)); [done|contradiction].
Qed.

Lemma bytes_equal_spec l r n :
  length l = n → length r = n → bytes_equal l r n = true → l = r.
Proof.
  intros Hl Hr Heq. apply list_eq_same_length with n; [done|done|].
  intros i x y Hi Hx Hy.
  pose proof (bytes_equal_loop_spec _ _ _ _ Heq i) as E.
  rewrite (list_lookup_total_correct _ _ _ Hx),
    (list_lookup_total_correct _ _ _ Hy) in E. apply E. lia.
Qed.

(** A header whose first 32 entries are bytes. *)
Definition header_ok (h : payload_header) : Prop :=
  (32 <= length h)%nat ∧ bytes_ok (take 32 h).

Lemma hdr_field_range off h :
  header_ok h → (off + 4 <= 32)%nat → is_u 32 (hdr_field off h).
Proof.
  intros [Hlen Hb] Hoff. unfold hdr_field.
  assert (slice off 4 h = slice off 4 (take 32 h)) as ->.
  { unfold slice. rewrite <- (take_drop 32 h) at 1.
    rewrite drop_app_le by (rewrite length_take; lia).
    rewrite take_app_le; [done|]. rewrite length_drop, length_take. lia. }
  assert (bytes_ok (slice off 4 (take 32 h))) as Hs by (by apply Forall_take, Forall_drop).
  pose proof (be_decode_range _ Hs) as Hr. unfold zlen in Hr.
  rewrite slice_length in Hr by (rewrite length_take; lia). exact Hr.
Qed.

Lemma checks_accepted h :
  header_ok h → bad_header h = false → bad_range h = false → accepted h.
Proof.
  intros Hok Hbh Hbr. unfold bad_header, bad_range in *. to_prop.
  rewrite Z.geb_leb in *. rewrite Z.gtb_ltb in *. to_prop.
  assert (is_u 32 (load_address h)) as [L0 L1] by (by apply hdr_field_range; [|lia]).
  assert (is_u 32 (payload_size h)) as [N0 N1] by (by apply hdr_field_range; [|lia]).
  unfold PAYLOAD_P2_START, PAYLOAD_P2_END in *.
  match goal with H : _ <= u32 (0xad000000 - _) |- _ =>
    rewrite u32_small in H by (unfold is_u; lia) end.
  match goal with H : _ < u32 (load_address h + _) |- _ =>
    rewrite u32_small in H by (unfold is_u; lia) end.
  split; unfold PAYLOAD_P2_START, PAYLOAD_P2_END; try lia; try done.
  - apply bytes_equal_spec with 8%nat; [|done|done].
    unfold hdr_magic. apply slice_length. destruct Hok. lia.
  - unfold PAYLOAD_FLAG_EXECUTABLE in *. rewrite land_one in *. rewrite Z.bit0_odd.
    by destruct (Z.odd (flags h)).
Qed.

Section LoadPayload.
Context {W : Type} `{FirmwareOk W}.
Implicit Types (s : loader W).

(** [s'] differs from [s] by firmware state, the source flag and [l]. *)
Definition only_log s s' (l : list action) : Prop :=
  ld_mem s' = ld_mem s ∧ ld_header s' = ld_header s ∧ ld_crc s' = ld_crc s
  ∧ ld_log s' = ld_log s ++ l ∧ Forall is_file_call l.

Lemma open_first_spec paths s :
  ∃ d s' l, open_first paths s = (d, s') ∧ only_log s s' l ∧
    foldl held_step (held (ld_log s)) l
    = (if 0 <=? d then [d] else []) ++ held (ld_log s).
Proof.
  revert s. induction paths as [|p paths IH]; intros s.
  - exists (-1), s, []. unfold only_log. rewrite app_nil_r. by split_and!.
  - cbn [open_first]. destruct paths as [|p' paths'].
    + unfold do_open. destruct (sys_open p (ld_world s)) as [d w].
      eexists d, _, [_]. split; [done|].
      split; [unfold only_log; split_and!; try done; by repeat constructor|].
      simpl. by destruct (0 <=? d).
    + run_st. unfold do_open at 1.
      destruct (sys_open p (ld_world s)) as [d w]. cbv iota beta.
      destruct (Z.ltb_spec d 0) as [Hd|Hd].
      * destruct (IH (Loader w (ld_mem s) (ld_header s) (ld_crc s) (ld_card s)
           (ld_log s ++ [Opened p d]))) as (d' & s' & l & -> & (?&?&?&Hl&?) & Hh).
        exists d', s', (Opened p d :: l). split; [done|].
        unfold held in *. cbn [ld_log] in *. rewrite foldl_app in Hh.
        cbn [foldl held_step] in *. rewrite Z.leb_nle in * || idtac.
        destruct (Z.leb_spec 0 d); [lia|]. cbn [foldl held_step] in Hh.
        split; [|exact Hh]. unfold only_log. rewrite Hl, <- app_assoc.
        split_and!; try done. by constructor.
      * eexists d, _, [_]. split; [done|].
        split; [unfold only_log; split_and!; try done; by repeat constructor|].
        simpl. by destruct (Z.leb_spec 0 d); [|lia].
Qed.

Lemma open_payload_spec s :
  ∃ d s' l, open_payload s = (d, s') ∧ only_log s s' l ∧
    foldl held_step (held (ld_log s)) l
    = (if 0 <=? d then [d] else []) ++ held (ld_log s).
Proof.
  unfold open_payload. run_st.
  match goal with |- context [open_first ?ps ?s0] =>
    destruct (open_first_spec ps s0) as (d & s1 & l & -> & (E1&E2&E3&E4&E5) & Hh) end.
  cbn [ld_mem ld_header ld_crc ld_log] in *.
  destruct (Z.leb_spec 0 d) as [Hd|Hd]; run_st.
  - exists d, s1, l. split; [done|]. split; [done|].
    destruct (Z.leb_spec 0 d); [done|lia].
  - match goal with |- context [open_first ?ps ?s0] =>
      destruct (open_first_spec ps s0) as (d2 & s2 & l2 & -> & (F1&F2&F3&F4&F5) & Hh2) end.
    cbn [ld_mem ld_header ld_crc ld_log] in *.
    exists d2, s2, (l ++ l2). split; [done|]. split.
    + unfold only_log. rewrite F1, F2, F3, F4, E4, <- app_assoc.
      split_and!; try done. by apply Forall_app.
    + rewrite foldl_app, Hh. unfold held in *. rewrite E4, foldl_app in Hh2.
      rewrite Hh in Hh2. exact Hh2.
Qed.
End LoadPayload.

Section LoadPayloadSpec.
Context {W : Type} `{FirmwareOk W}.
Implicit Types (s : loader W).

Definition in_window (a : Z) : Prop := PAYLOAD_P2_START <= a < PAYLOAD_P2_END.

Definition load_post s (status : load_status) s' : Prop :=
  held (ld_log s') = held (ld_log s) ∧
  (∃ l, ld_log s' = ld_log s ++ l ∧ Forall is_file_call l) ∧
  (∀ a, ¬ in_window a → ld_mem s' !! a = ld_mem s !! a) ∧
  (status = LOAD_OK → verified (ld_header s') (ld_mem s')).

Lemma held_close l d r : held l = d :: r → held (l ++ [Closed d]) = r.
Proof.
  intros Hl. unfold held in *. rewrite foldl_app, Hl. simpl.
  by rewrite decide_True.
Qed.

Lemma do_read_header_spec d s :
  ∃ c w h, do_read_header d s
    = (c, Loader w (ld_mem s) h (ld_crc s) (ld_card s) (ld_log s))
    ∧ (c = PAYLOAD_HEADER_SIZE → header_ok h).
Proof.
  unfold do_read_header.
  pose proof (sys_read_count d PAYLOAD_HEADER_SIZE (ld_world s)) as [Hc Hl]; [done|].
  pose proof (sys_read_bytes d PAYLOAD_HEADER_SIZE (ld_world s)) as Hb.
  destruct (sys_read d PAYLOAD_HEADER_SIZE (ld_world s)) as [[c bs] w].
  eexists c, w, _. split; [done|]. intros ->. cbn in Hl, Hb. unfold zlen in Hl.
  unfold splice, header_ok. simpl. rewrite length_app, length_drop.
  unfold PAYLOAD_HEADER_SIZE in Hl.
  split; [lia|]. rewrite take_app_length' by lia. done.
Qed.

Lemma copy_accepted d s :
  accepted (ld_header s) →
  ∃ r s', copy_loop (S (Z.to_nat (payload_size (ld_header s)))) d 0 0xffffffff s
          = (Some r, s')
    ∧ copy_post d 0 0xffffffff s r s'
    ∧ (∀ a, ¬ in_window a → ld_mem s' !! a = ld_mem s !! a).
Proof.
  intros [_ _ _ Hst Hne Hend _].
  destruct (copy_loop_spec (S (Z.to_nat (payload_size (ld_header s)))) d 0
    0xffffffff s) as (r & s' & Hr & Hpost);
    unfold PAYLOAD_P2_START, PAYLOAD_P2_END in *; [lia..|].
  exists r, s'. split_and!; [done|done|]. intros a Ha. apply Hpost.
  unfold in_window, PAYLOAD_P2_START, PAYLOAD_P2_END in Ha. lia.
Qed.

(** Closing the file of a load that failed before the copy, or in it. *)
Lemma close_failed d s s' status : held (ld_log s') = d :: held (ld_log s) →
  (∃ l, ld_log s' = ld_log s ++ l ∧ Forall is_file_call l) →
  (∀ a, ¬ in_window a → ld_mem s' !! a = ld_mem s !! a) → status ≠ LOAD_OK →
  load_post s status (do_close d s').2.
Proof.
  intros Hh (l & Hl & Hf) Hm Hne. unfold load_post, do_close. cbn [ld_log ld_mem ld_header snd].
  split_and!; [by apply held_close| |done..].
  exists (l ++ [Closed d]). rewrite Hl, <- app_assoc. split; [done|].
  apply Forall_app. split; [done|]. by repeat constructor.
Qed.

(** From the accepted header on. *)
Lemma copy_and_check d s s' : held (ld_log s') = d :: held (ld_log s) →
  (∃ l, ld_log s' ++ [Closed d] = ld_log s ++ l ∧ Forall is_file_call l) →
  ld_mem s' = ld_mem s → accepted (ld_header s') →
  let h := ld_header s' in
  ∃ status s1,
    (r ← copy_loop (S (Z.to_nat (payload_size h))) d 0 0xffffffff;
     match r with
     | None => mret None
     | Some (inl status) => mret (Some status)
     | Some (inr crc) =>
         do_close d;;
         set_crc (Z.lxor crc 0xffffffff);;
         measured ← st_get ld_crc;
         if negb (measured =? payload_crc32 h) then mret (Some LOAD_BAD_CRC)
         else mret (Some LOAD_OK)
     end) s' = (Some status, s1) ∧ load_post s status s1.
Proof.
  intros Hheld Hfile Hmem Hacc h. run_st.
  destruct (copy_accepted d s' Hacc) as (r & s3 & Hrun & Hpost & Hframe).
  fold h in Hrun. rewrite Hrun. cbv iota beta.
  unfold copy_post in Hpost. fold h in Hpost. destruct Hpost as (F1 & _ & _ & Hout).
  unfold load_post. destruct r as [status|crc]; run_st.
  - eexists _, _. split; [reflexivity|]. destruct Hout as [-> Hlog]. rewrite Hlog.
    split_and!; [by apply held_close|by apply Hfile| |done]. intros a Ha. by rewrite Hframe, Hmem.
  - destruct Hout as [Hlog ->]. unfold do_close. run_st.
    assert (held (ld_log s3 ++ [Closed d]) = held (ld_log s)) as Hh4.
    { rewrite Hlog. by apply held_close. }
    assert (∃ l', ld_log s3 ++ [Closed d] = ld_log s ++ l' ∧ Forall is_file_call l') as Hf4.
    { by rewrite Hlog. }
    destruct (Z.eqb_spec (Z.lxor (crc32_update 4294967295
      (mem_read (ld_mem s3) (load_address h + 0)
         (payload_size h - 0))) 4294967295) (payload_crc32 h)) as [Hcrc|Hcrc];
      eexists _, _; (split; [reflexivity|]); split_and!; try done;
      try (intros a Ha; cbn [ld_mem]; by rewrite Hframe, Hmem).
    intros _. rewrite Z.add_0_r, Z.sub_0_r in Hcrc. unfold verified. cbn [ld_header ld_mem]. by rewrite F1.
Qed.

Lemma load_payload_spec s :
  ∃ status s', load_payload s = (Some status, s') ∧ load_post s status s'.
Proof.
  unfold load_payload. run_st.
  destruct (open_payload_spec s) as (d & s1 & l & -> & (E1&E2&E3&E4&E5) & Hh).
  assert (held (ld_log s1) = (if 0 <=? d then [d] else []) ++ held (ld_log s)) as Hh1.
  { unfold held in *. by rewrite E4, foldl_app, Hh. }
  clear Hh. destruct (Z.ltb_spec d 0) as [Hd|Hd]; run_st.
  { eexists _, _. split; [reflexivity|]. unfold load_post.
    rewrite Hh1, E1. destruct (Z.leb_spec 0 d); [lia|]. split_and!; eauto; done. }
  destruct (Z.leb_spec 0 d) as [_|]; [|lia]. simpl in Hh1.
  unfold do_filesize at 1.
  destruct (sys_get_filesize d (ld_world s1)) as [fs w]. run_st.
  match goal with |- context [do_read_header d ?s0] =>
    destruct (do_read_header_spec d s0) as (c & w2 & h & -> & Hok) end. run_st.
  set (s2 := Loader _ _ _ _ _ _).
  assert (∀ status, status ≠ LOAD_OK → ∃ status' s', (Some status, (do_close d s2).2)
            = (Some status', s') ∧ load_post s status' s') as Hclose.
  { intros status Hne. eexists _, _. split; [reflexivity|].
    apply close_failed; [done|by exists l| |done]. intros a _. cbn. by rewrite E1. }
  destruct (Z.eqb_spec c PAYLOAD_HEADER_SIZE) as [Hc|_]; [|by apply Hclose].
  specialize (Hok Hc). simpl (negb _). cbv iota beta.
  assert (ld_header s2 = h) as Hs2 by done. rewrite Hs2.
  destruct (bad_header h) eqn:Hbh; [by apply Hclose|].
  destruct (bad_range h) eqn:Hbr; [by apply Hclose|].
  destruct (negb (fs =? _)); [by apply Hclose|]. clear Hclose.
  apply (copy_and_check d s s2); [done| |by rewrite <- E1|by apply checks_accepted].
  exists (l ++ [Closed d]). cbn. rewrite E4, <- app_assoc. split; [done|].
  apply Forall_app. split; [done|]. by repeat constructor.
Qed.
End LoadPayloadSpec.

(** ** The interactive loop: how often, and on what, control is transferred *)

Definition is_entered (a : action) : bool :=
  match a with Entered _ _ => true | _ => false end.
Definition entries (l : list action) : Z := zlen (filter is_entered l).
Definition presses (ps : list poll) : Z := zlen (filter (λ p, enter_pressed p) ps).

Lemma entries_app l k : entries (l ++ k) = entries l + entries k.
Proof. unfold entries. by rewrite filter_app, zlen_app. Qed.

Lemma entries_file_calls l : Forall is_file_call l → entries l = 0.
Proof.
  unfold entries. induction 1 as [|a l Ha Hl IH]; [done|].
  rewrite filter_cons. by destruct a.
Qed.

Lemma entries_none l : Forall (λ a, is_entered a = false) l → entries l = 0.
Proof.
  unfold entries. induction 1 as [|a l Ha Hl IH]; [done|].
  rewrite filter_cons, Ha. exact IH.
Qed.

Lemma entries_render h c k st a last : entries (render_screen h c k st a last) = 0.
Proof.
  apply entries_none. unfold render_screen, label_value.
  repeat first [ apply Forall_nil_2 | apply Forall_app_2
               | apply Forall_cons_2; [try reflexivity|] | case_decide
               | destruct last | destruct a ]; reflexivity.
Qed.

Section MainFacts.
Context {W : Type} `{FirmwareOk W}.
Variable payload : Z → Z → W * gmap Z Z → W * gmap Z Z.
Implicit Types (s : loader W).

(** ENTER presses the phase has already consumed for the next transfer. *)
Definition phase_presses (ph : phase) : Z :=
  match ph with
  | Startup _ => 0
  | Menu _ armed => if armed then 2 else 1
  | Returned _ | Stuck => 0
  end.

(** [n] is the number of polls so far that pressed ENTER. *)
Definition main_inv (n : Z) (ph : phase) s : Prop :=
  ph ≠ Stuck ∧
  (0 < entries (ld_log s) → 2 * entries (ld_log s) < n) ∧
  2 * entries (ld_log s) + phase_presses ph <= n ∧
  (∀ r, ph = Startup r → entries (ld_log s) = 0) ∧
  (∀ st armed, ph = Menu st armed → armed = true → st = LOAD_OK) ∧
  (∀ armed, ph = Menu LOAD_OK armed → entries (ld_log s) = 0 →
     verified (ld_header s) (ld_mem s)).

(** What a turn keeps, and when it transfers control. *)
Definition step_ok n p ph s ph' s' : Prop :=
  main_inv (n + Z.b2z (enter_pressed p)) ph' s' ∧
  (entries (ld_log s') ≠ entries (ld_log s) →
     ph = Menu LOAD_OK true ∧ enter_pressed p = true ∧
     ∃ l, ld_log s' = ld_log s ++ Entered (entry_address (ld_header s)) PAYLOAD_COOKIE :: l).

(** A turn that does nothing: the phase stays, ends or remains the start-up screen. *)
Lemma idle_step n p ph s ph1 : main_inv n ph s →
  ph1 = ph ∨ (∃ r r', ph = Startup r ∧ ph1 = Startup r') ∨ (∃ c, ph1 = Returned c) →
  step_ok n p ph s ph1 s.
Proof.
  intros (Hns & Hpos & Hcnt & Hst & Harm & Hver) Hph1.
  assert (0 <= Z.b2z (enter_pressed p)) by (destruct (enter_pressed p); simpl; lia).
  assert (0 <= entries (ld_log s)) by apply zlen_nonneg.
  split; [|done]. split_and!.
  - destruct Hph1 as [->|[(r&r'&_&->)|(c&->)]]; done.
  - lia.
  - destruct Hph1 as [->|[(r&r'&->&->)|(c&->)]]; simpl in *; [lia..|].
    assert (0 <= phase_presses ph); [|lia]. destruct ph as [|? []| |]; simpl; lia.
  - intros r ->. destruct Hph1 as [<-|[(r2&?&->&_)|(c&?)]]; [..|done]; by eapply Hst.
  - intros st armed ->. destruct Hph1 as [<-|[(r2&?&_&?)|(c&?)]]; [|done..]. by apply Harm.
  - intros armed ->. destruct Hph1 as [<-|[(r2&?&_&?)|(c&?)]]; [|done..]. by eapply Hver.
Qed.

(** ENTER on the start-up screen loads the payload. *)
Lemma load_step n p r s status s1 s' : main_inv n (Startup r) s → enter_pressed p = true →
  load_post s status s1 →
  show status false None s1 = (tt, s') →
  step_ok n p (Startup r) s (Menu status false) s'.
Proof.
  intros (_ & Hpos & Hcnt & Hst & _) Hp (_ & (l & Hl & Hf) & _ & Hok).
  unfold show. run_st. intros [= <-]. unfold step_ok, main_inv. cbn [ld_log ld_header ld_mem].
  assert (entries (ld_log s1 ++ render_screen (ld_header s1) (ld_crc s1)
    (ld_card s1) status false None) = entries (ld_log s)) as ->.
  { rewrite Hl, !entries_app, entries_render, (entries_file_calls l) by done. lia. }
  rewrite Hp. simpl (Z.b2z true). specialize (Hst _ eq_refl). cbn [phase_presses] in *.
  split; [|done]. split_and!; [done|lia|cbn [phase_presses]; lia|done|..].
  - intros st armed ??. by simplify_eq.
  - intros armed ? _. simplify_eq. by apply Hok.
Qed.

(** ENTER in the menu arms it. *)
Lemma arm_step n p s s' : main_inv n (Menu LOAD_OK false) s → enter_pressed p = true →
  show LOAD_OK true None s = (tt, s') → step_ok n p (Menu LOAD_OK false) s (Menu LOAD_OK true) s'.
Proof.
  intros (_ & Hpos & Hcnt & _ & _ & Hver) Hp. assert (0 <= entries (ld_log s)) by apply zlen_nonneg.
  unfold show. run_st. intros [= <-]. unfold step_ok, main_inv. cbn [ld_log ld_header ld_mem].
  rewrite entries_app, entries_render, Z.add_0_r, Hp. simpl (Z.b2z true). cbn [phase_presses] in Hcnt.
  split; [|done]. split_and!; [done|lia|cbn [phase_presses]; lia|done|by intros; simplify_eq|].
  intros armed ?. simplify_eq. by eapply Hver.
Qed.

(** And transfers control from the armed menu; the payload has changed the outside and
    the memory. *)
Lemma entered_log s r :
  entries (ld_log s ++ Entered (entry_address (ld_header s)) PAYLOAD_COOKIE ::
    render_screen (ld_header s) (ld_crc s) (ld_card s) LOAD_OK false r) = 1 + entries (ld_log s).
Proof.
  rewrite entries_app. unfold entries at 2. rewrite filter_cons. cbn [is_entered].
  rewrite decide_True by done. rewrite zlen_cons.
  fold (entries (render_screen (ld_header s) (ld_crc s) (ld_card s) LOAD_OK false r)).
  rewrite entries_render. lia.
Qed.

Lemma transfer_step n p s w m r : main_inv n (Menu LOAD_OK true) s → enter_pressed p = true →
  step_ok n p (Menu LOAD_OK true) s (Menu LOAD_OK false)
    (Loader w m (ld_header s) (ld_crc s) (ld_card s)
       (ld_log s ++ Entered (entry_address (ld_header s)) PAYLOAD_COOKIE ::
          render_screen (ld_header s) (ld_crc s) (ld_card s) LOAD_OK false r)).
Proof.
  intros (_ & Hpos & Hcnt & _ & _ & Hver) Hp. assert (0 <= entries (ld_log s)) by apply zlen_nonneg.
  unfold step_ok, main_inv. cbn [ld_log ld_header ld_mem phase_presses] in *. rewrite entered_log, Hp.
  split; [|by eauto]. simpl (Z.b2z true). split_and!; intros; simplify_eq; done || lia.
Qed.

Lemma main_step_inv n p ph s ph' s' :
  main_inv n ph s → main_step payload p ph s = (ph', s') → step_ok n p ph s ph' s'.
Proof.
  intros Hinv Hstep. destruct ph as [released|status armed|c|]; cbn [main_step] in Hstep.
  - destruct ((released || _) && enter_pressed p)%bool eqn:Hgo.
    + apply andb_prop in Hgo as [_ Hp]. revert Hstep. run_st.
      destruct (load_payload_spec s) as (status & s1 & -> & Hpost). run_st.
      intros [= <- <-]. by apply (load_step n p released s status s1).
    + destruct ((released || _) && (power_pressed p || back_pressed p))%bool;
        revert Hstep; run_st; intros [= <- <-]; apply (idle_step n p _ _ _ Hinv); eauto 10.
  - destruct (power_state p || back_state p)%bool.
    { revert Hstep; run_st; intros [= <- <-]. apply (idle_step n p _ _ _ Hinv); eauto 10. }
    destruct (bool_decide (status = LOAD_OK) && enter_pressed p)%bool eqn:Hgo.
    2:{ revert Hstep; run_st; intros [= <- <-]. apply (idle_step n p _ _ _ Hinv); eauto 10. }
    apply andb_prop in Hgo as [Hok Hp]. apply bool_decide_eq_true in Hok as ->.
    destruct armed; simpl (negb _) in Hstep; cbv iota in Hstep; revert Hstep.
    + unfold execute_payload. run_st. destruct (payload _ _ _) as [w m]. run_st.
      destruct (negb _); unfold show; run_st; rewrite <- app_assoc; intros [= <- <-];
        by apply transfer_step.
    + run_st. intros [= <- <-]. by apply arm_step.
  - revert Hstep. run_st. intros [= <- <-]. apply (idle_step n p _ _ _ Hinv); eauto.
  - by destruct Hinv.
Qed.

Lemma main_loop_inv n ps ph s ph' s' :
  main_inv n ph s → main_loop payload ps ph s = (ph', s') →
  main_inv (n + presses ps) ph' s'.
Proof.
  revert n ph s. induction ps as [|p ps IH]; intros n ph s Hinv; cbn [main_loop].
  - run_st. intros [= <- <-]. unfold presses. cbn. by rewrite Z.add_0_r.
  - run_st. destruct (main_step payload p ph s) as [ph1 s1] eqn:Hstep.
    intros Hloop. destruct (main_step_inv n p ph s ph1 s1 Hinv Hstep) as [Hinv1 _].
    specialize (IH _ _ _ Hinv1 Hloop).
    assert (n + presses (p :: ps) = n + Z.b2z (enter_pressed p) + presses ps) as ->;
      [|done].
    unfold presses. rewrite filter_cons.
    destruct (enter_pressed p); [rewrite decide_True by done; rewrite zlen_cons|
      rewrite decide_False by (intros []; done)]; simpl; lia.
Qed.

Lemma main_inv_reachable ps s ph' s' :
  entries (ld_log s) = 0 → main payload ps s = (ph', s') →
  main_inv (presses ps) ph' s'.
Proof.
  intros Hs. unfold main. run_st. intros Hrun.
  rewrite <- (Z.add_0_l (presses ps)). eapply main_loop_inv; [|exact Hrun].
  unfold main_inv. cbn [ld_log ld_header ld_mem phase_presses].
  rewrite entries_app, Hs.
  assert (entries render_startup_screen = 0) as -> by (by vm_compute).
  split_and!; try done.
Qed.
End MainFacts.

(** ** Properties *)

(** C1: loading the payload always returns a status; it leaves every byte
    outside the P2 window untouched and closes what it opened; the status is
    [LOAD_OK] only when the header passes every check and the bytes then in
    memory have the header's checksum. *)
Theorem load_payload_safe {W} `{FirmwareOk W} (s : loader W) :
  ∃ status s', load_payload s = (Some status, s') ∧
    held (ld_log s') = held (ld_log s) ∧
    (∀ a, a < PAYLOAD_P2_START ∨ PAYLOAD_P2_END <= a →
       ld_mem s' !! a = ld_mem s !! a) ∧
    (status = LOAD_OK → verified (ld_header s') (ld_mem s')).
Proof.
  destruct (load_payload_spec s) as (status & s' & Hrun & Hheld & _ & Hframe & Hok).
  exists status, s'. split_and!; try done.
  intros a Ha. apply Hframe. unfold in_window. lia.
Qed.

(** C13: control is transferred only by an armed menu after a successful load:
    each transfer costs two presses of ENTER after the one that loads, it goes
    to the header's entry address, and the first one finds the verified
    payload in memory. *)
Theorem main_transfer_guarded {W} `{FirmwareOk W}
    (payload : Z → Z → W * gmap Z Z → W * gmap Z Z)
    (ps : list poll) (p : poll) (s s1 s2 : loader W) (ph1 ph2 : phase) :
  entries (ld_log s) = 0 →
  main payload ps s = (ph1, s1) →
  main_step payload p ph1 s1 = (ph2, s2) →
  entries (ld_log s2) ≠ entries (ld_log s1) →
  ph1 = Menu LOAD_OK true ∧
  2 * entries (ld_log s2) < presses (ps ++ [p]) ∧
  (∃ l, ld_log s2 = ld_log s1 ++ Entered (entry_address (ld_header s1)) PAYLOAD_COOKIE :: l) ∧
  (entries (ld_log s1) = 0 → verified (ld_header s1) (ld_mem s1)).
Proof.
  intros Hs Hrun Hstep Hne.
  pose proof (main_inv_reachable payload ps s ph1 s1 Hs Hrun) as Hinv.
  destruct (main_step_inv payload _ p ph1 s1 ph2 s2 Hinv Hstep) as [Hinv2 Hent].
  destruct (Hent Hne) as (-> & Hp & Hl).
  assert (presses (ps ++ [p]) = presses ps + Z.b2z (enter_pressed p)) as ->.
  { unfold presses. rewrite filter_app, zlen_app, Hp.
    unfold filter at 2. simpl. by rewrite Hp. }
  split_and!; [done| |done|].
  - destruct Hinv2 as (_ & Hpos & _). apply Hpos.
    pose proof (zlen_nonneg (filter is_entered (ld_log s2))).
    pose proof (zlen_nonneg (filter is_entered (ld_log s1))).
    destruct Hl as [l Hl]. rewrite Hl, entries_app. unfold entries at 2.
    rewrite filter_cons. cbn [is_entered]. rewrite decide_True, zlen_cons by done.
    pose proof (zlen_nonneg (filter is_entered l)). unfold entries. lia.
  - destruct Hinv as (_ & _ & _ & _ & _ & Hver). by eapply Hver.
Qed.

(** C37: the checksum detects every corruption confined to four consecutive
    bytes of the payload, wherever they are. *)
Theorem crc32_detects_burst (before after v w : list Z) :
  bytes_ok before → bytes_ok after → bytes_ok v → bytes_ok w →
  length v = 4%nat → length w = 4%nat → v ≠ w →
  crc32_update 0xffffffff (before ++ v ++ after)
  ≠ crc32_update 0xffffffff (before ++ w ++ after).
Proof.
  intros Hb Ha Hv Hw Lv Lw Hne. rewrite !crc32_update_app. intros Heq. apply Hne.
  assert (is_u 32 (crc32_update 0xffffffff before)) as Hc.
  { by apply crc32_update_range. }
  apply crc32_update_inj in Heq; [|by apply crc32_update_range..|done].
  by apply (crc32_update_word_inj (crc32_update 0xffffffff before)).
Qed.

(** The numbers on the screen are the header's: [decimal] and [hex32]
    write, in at most eleven bytes with the final 0, digits that denote the
    value they were given. *)
Theorem screen_numbers_exact (value : Z) :
  is_u 32 value →
  (∃ ds, decimal value = ds ++ [0] ∧ (length ds + 1 <= 11)%nat ∧
     Forall (λ d, 48 <= d <= 57) ds ∧ digits_value 10 ds = value) ∧
  (∃ ds, hex32 value = [48; 120] ++ ds ++ [0] ∧ length ds = 8%nat ∧
     digits_value 16 ds = value).
Proof.
  intros Hv. split.
  - unfold decimal. destruct (Z.eqb_spec value 0) as [->|Hne].
    { exists [48]. split_and!; [done|simpl; lia|by repeat constructor; lia|done]. }
    exists (reverse (decimal_loop 10 value)). split_and!; [done|..].
    + rewrite length_reverse.
      pose proof (decimal_loop_length 10 value). lia.
    + apply Forall_reverse, decimal_loop_digits.
    + apply decimal_loop_value. unfold is_u in Hv. cbn. lia.
  - exists ((λ n, hex_digits !!! Z.to_nat n) <$> nibbles value).
    split_and!; [apply hex32_digits|done|].
    transitivity (foldl (λ acc n, acc * 16 + n) 0 (nibbles value));
      [|by apply nibbles_value].
    assert (Forall (is_u 4) (nibbles value)) as Hn.
    { apply Forall_fmap, Forall_true. intros i. apply nibble_range. }
    unfold digits_value. generalize 0. induction Hn as [|n l Hn Hl IH]; intros acc; [done|].
    cbn [fmap list_fmap foldl]. rewrite hex_digit_value by done. apply IH.
Qed.

(** ** Witnesses *)

(** A two-byte payload at the start of the window, with its checksum. *)
Definition sample_payload : list Z := [0xc0; 0xde].
Definition sample_header : list Z :=
  expected_magic ++ be_encode 4 32 ++ be_encode 4 0xac800000 ++ be_encode 4 0xac800000
  ++ be_encode 4 2 ++ be_encode 4 (Z.lxor (crc32_update 0xffffffff sample_payload) 0xffffffff)
  ++ be_encode 4 3.
Definition sample_world : file_world :=
  ([("\\drv0\linux.pay"%string, sample_header ++ sample_payload)], []).
Definition sample_loader : loader file_world :=
  Loader sample_world ∅ (replicate 32 0) 0 false [].

Definition keys_up : poll := Poll false false false false false false.
Definition enter_down : poll := Poll false false true false false true.

Lemma load_payload_safe_witness :
  (load_payload sample_loader).1 = Some LOAD_OK ∧
  verified (ld_header (load_payload sample_loader).2) (ld_mem (load_payload sample_loader).2).
Proof.
  assert ((load_payload sample_loader).1 = Some LOAD_OK) as E by (by vm_compute).
  split; [exact E|].
  destruct (load_payload_safe sample_loader) as (status & s' & Hrun & _ & _ & Hok).
  rewrite Hrun in *. apply Hok. by injection E.
Defined.

Lemma main_transfer_guarded_witness :
  let r := main (λ _ _ w, w) [keys_up; enter_down; enter_down] sample_loader in
  verified (ld_header r.2) (ld_mem r.2).
Proof.
  intros r.
  destruct (main_transfer_guarded (λ _ _ w, w) [keys_up; enter_down; enter_down] enter_down
    sample_loader r.2 (main_step (λ _ _ w, w) enter_down r.1 r.2).2 r.1
    (main_step (λ _ _ w, w) enter_down r.1 r.2).1) as (_ & _ & _ & Hver);
    [reflexivity|apply surjective_pairing|apply surjective_pairing| |].
  - assert (entries (ld_log (main_step (λ _ _ w, w) enter_down r.1 r.2).2) = 1) as ->
      by (by vm_compute).
    assert (entries (ld_log r.2) = 0) as -> by (by vm_compute). done.
  - apply Hver. by vm_compute.
Defined.

Lemma crc32_detects_burst_witness :
  crc32_update 0xffffffff ([1; 2] ++ [3; 4; 5; 6] ++ [7])
  ≠ crc32_update 0xffffffff ([1; 2] ++ [3; 4; 5; 7] ++ [7]).
Proof.
  apply crc32_detects_burst; by compute_dec.
Defined.

Lemma screen_numbers_exact_witness :
  ∃ ds, decimal 4096 = ds ++ [0] ∧ digits_value 10 ds = 4096.
Proof.
  destruct (screen_numbers_exact 4096) as [(ds & H1 & _ & _ & H2) _].
  - unfold is_u. lia.
  - by exists ds.
Defined.
