(* ===== verification/KeypadState.v ===== *)
(** * Keypad driver: data, state and device access
    ([src/kernel/overlay/drivers/input/keyboard/exword-keypad.c])

    The static variables of the driver are the record [kst]; the part that
    decides what the input core sees is the nested record [inputs].  Device
    registers are read and written through the class [Mmio]; calls to the
    input core are logged as [event]s, newest first.  Kernel log messages
    ([pr_info] and the like) are left out; the reads they make are kept where
    they have an effect. *)

From S2P Require Import Prelude.

(** ** Device access: [__raw_readb], [__raw_writew], ... *)

Class Mmio (H : Type) := {
  raw_readb : Z → H → Z * H;
  raw_readw : Z → H → Z * H;
  raw_readl : Z → H → Z * H;
  raw_writeb : Z → Z → H → H;
  raw_writew : Z → Z → H → H;
  raw_writel : Z → Z → H → H;
}.

(** A read returns a value of its width. *)
Class MmioOk H `{Mmio H} := {
  raw_readb_range : ∀ a h, is_u 8 (raw_readb a h).1;
  raw_readw_range : ∀ a h, is_u 16 (raw_readw a h).1;
  raw_readl_range : ∀ a h, is_u 32 (raw_readl a h).1;
}.

(** ** Constants *)

Definition EXWORD_KEYPAD_BASE : Z := 0xa44b0000.
Definition EXWORD_MSTPCR0 : Z := 0xa4150030.
Definition EXWORD_KEYSC_MSTP_BIT : Z := 6.
Definition EXWORD_SNAPSHOT_BASE : Z := 0xac252c00.
Definition EXWORD_TOUCH_SNAPSHOT_MAGIC : Z := 0x45585453.
Definition EXWORD_TOUCH_SNAPSHOT_OFFSET : Z := 0x28.
Definition EXWORD_TOUCH_VARIANT_OFFSET : Z := 0x2c.
Definition EXWORD_TOUCH_CAL1_OFFSET : Z := 0x30.
Definition EXWORD_PRIME_READS : Z := 65536.
Definition EXWORD_POLL_BURST : Z := 256.
Definition EXWORD_MOUSE_TOGGLE_SCAN : Z := 10.
Definition EXWORD_MOUSE_REPEAT_SCANS : Z := 16384.
Definition EXWORD_MOUSE_STEP : Z := 4.
Definition EXWORD_SUBLCD_DATA : Z := 0xb8000000.
Definition EXWORD_SUBLCD_PRDR : Z := 0xa405013c.
Definition EXWORD_SUBLCD_DC : Z := 4.
Definition EXWORD_SUBLCD_WIDTH : Z := 244.
Definition EXWORD_SUBLCD_HEIGHT : Z := 99.
Definition EXWORD_SUBLCD_UI_WIDTH : Z := 240.
Definition EXWORD_SUBLCD_UI_HEIGHT : Z := 96.
Definition EXWORD_TOUCH_PLCR : Z := 0xa4050114.
Definition EXWORD_TOUCH_PLDR : Z := 0xa4050134.
Definition EXWORD_TOUCH_PHCR : Z := 0xa405010e.
Definition EXWORD_TOUCH_PHDR : Z := 0xa405012e.
Definition EXWORD_TOUCH_PGDR : Z := 0xa405012c.
Definition EXWORD_TOUCH_PSELE : Z := 0xa4050156.
Definition EXWORD_TOUCH_PFC_A : Z := 0xa40501d6.
Definition EXWORD_TOUCH_PGCR : Z := 0xa405010c.
Definition EXWORD_TOUCH_MSELCRA : Z := 0xa4050180.
Definition EXWORD_TOUCH_ADDRA : Z := 0xa4610080.
Definition EXWORD_TOUCH_ADDRB : Z := 0xa4610082.
Definition EXWORD_TOUCH_ADDRC : Z := 0xa4610084.
Definition EXWORD_TOUCH_ADDRD : Z := 0xa4610086.
Definition EXWORD_TOUCH_ADCSR : Z := 0xa4610088.
Definition EXWORD_TOUCH_ADCCSR : Z := 0xa461008a.
Definition EXWORD_TOUCH_ADCUST : Z := 0xa461008c.
Definition EXWORD_TOUCH_ADPCTL : Z := 0xa461008e.
Definition EXWORD_TOUCH_CPG_ID : Z := 0xa4150000.
Definition EXWORD_TOUCH_MSTPCR2 : Z := 0xa4150038.
Definition EXWORD_TOUCH_MSTP_BIT : Z := 27.
Definition EXWORD_TOUCH_POLL_SCANS : Z := 4096.
Definition EXWORD_TOUCH_ADC_TIMEOUT : Z := 8192.
Definition EXWORD_TOUCH_DEBOUNCE : Z := 2.
Definition EXWORD_TOUCH_RELEASE_DEBOUNCE : Z := 2.
Definition EXWORD_TOUCH_REPEAT_POLLS : Z := 3.
Definition EXWORD_TOUCH_MOUSE_STEP : Z := 6.
Definition EXWORD_POINTER_SOURCE_KEYPAD : Z := 1.
Definition EXWORD_POINTER_SOURCE_TOUCH : Z := 2.

(** ** Data *)

(** The input-core codes the driver uses; their numbers are the kernel's. *)
Inductive keycode : Type :=
| KEY_RESERVED
| KEY_0 | KEY_1 | KEY_2 | KEY_3 | KEY_4 | KEY_5 | KEY_6 | KEY_7 | KEY_8 | KEY_9
| KEY_A | KEY_B | KEY_C | KEY_D | KEY_E | KEY_F | KEY_G | KEY_H | KEY_I | KEY_J
| KEY_K | KEY_L | KEY_M | KEY_N | KEY_O | KEY_P | KEY_Q | KEY_R | KEY_S | KEY_T
| KEY_U | KEY_V | KEY_W | KEY_X | KEY_Y | KEY_Z
| KEY_LEFTSHIFT | KEY_LEFTCTRL | KEY_BACKSPACE | KEY_SPACE | KEY_ENTER
| KEY_MINUS | KEY_EQUAL | KEY_SLASH | KEY_DOT
| KEY_UP | KEY_DOWN | KEY_LEFT | KEY_RIGHT
| BTN_LEFT | BTN_MIDDLE | BTN_RIGHT.

#[export] Instance keycode_eq_dec : EqDecision keycode.
Proof. intros x y. unfold Decision. decide equality. Defined.

Inductive rel_axis : Type := REL_X | REL_Y.
Inductive device : Type := exword_input | exword_pointer.
#[export] Instance device_eq_dec : EqDecision device.
Proof. solve_decision. Defined.

Inductive event : Type :=
| KeyEvent (d : device) (code : keycode) (value : bool)  (** [input_report_key] *)
| RelEvent (axis : rel_axis) (value : Z)                 (** [input_report_rel] *)
| SyncEvent (d : device).                                (** [input_sync] *)

#[export] Instance event_eq_dec : EqDecision event.
Proof. intros x y. unfold Decision. repeat decide equality. Defined.

(** [struct exword_key] without [down], which is state. *)
Record exword_key := Key { scan : Z; code : keycode }.

Record exword_touch_calibration := Calibration {
  x_origin : Z; y_origin : Z; x_span : Z; y_span : Z;
}.

Record exword_touch_sample := Sample { sample_x : Z; sample_y : Z }.

Inductive exword_touch_zone : Type :=
| EXWORD_TOUCH_NONE
| EXWORD_TOUCH_LEFT
| EXWORD_TOUCH_UP
| EXWORD_TOUCH_RIGHT
| EXWORD_TOUCH_BUTTON_LEFT
| EXWORD_TOUCH_DOWN
| EXWORD_TOUCH_BUTTON_RIGHT.
#[export] Instance zone_eq_dec : EqDecision exword_touch_zone.
Proof. solve_decision. Defined.

Definition exword_keys : list exword_key := [
  Key 21 KEY_1; Key 31 KEY_2; Key 41 KEY_3; Key 51 KEY_4;
  Key 61 KEY_5; Key 22 KEY_6; Key 71 KEY_7; Key 81 KEY_8;
  Key 83 KEY_9; Key 84 KEY_0; Key 10 KEY_RESERVED; Key 53 KEY_LEFTSHIFT;
  Key 58 KEY_BACKSPACE; Key 48 KEY_SPACE; Key 76 KEY_ENTER; Key 75 KEY_LEFTCTRL;
  Key 73 KEY_MINUS; Key 64 KEY_EQUAL; Key 74 KEY_SLASH; Key 68 KEY_DOT;
  Key 77 KEY_UP; Key 86 KEY_DOWN; Key 87 KEY_LEFT; Key 88 KEY_RIGHT;
  Key 23 KEY_Q; Key 33 KEY_W; Key 24 KEY_E; Key 25 KEY_R;
  Key 35 KEY_T; Key 57 KEY_Y; Key 26 KEY_U; Key 36 KEY_I;
  Key 27 KEY_O; Key 28 KEY_P; Key 43 KEY_A; Key 34 KEY_S;
  Key 44 KEY_D; Key 45 KEY_F; Key 67 KEY_G; Key 66 KEY_H;
  Key 46 KEY_J; Key 37 KEY_K; Key 38 KEY_L; Key 63 KEY_Z;
  Key 54 KEY_X; Key 55 KEY_C; Key 65 KEY_V; Key 85 KEY_B;
  Key 56 KEY_N; Key 47 KEY_M ].

(** The part of the driver state that decides what the input core sees. *)
Record inputs := Inputs {
  k_ev : list event;  (** calls to the input core, newest first *)
  k_down : list bool;   (** [exword_keys[i].down] *)
  k_enter_seen : bool;   (** [exword_enter_press_seen] *)
  k_mouse_mode : bool;   (** [exword_mouse_mode] *)
  k_sources : list Z;   (** [exword_pointer_button_sources[3]] *)
  k_active : exword_touch_zone;   (** [exword_touch_active] *)
}.
Definition set_k_ev (v : list event) (s : inputs) : inputs :=
  Inputs v (k_down s) (k_enter_seen s) (k_mouse_mode s) (k_sources s) (k_active s).
Definition set_k_down (v : list bool) (s : inputs) : inputs :=
  Inputs (k_ev s) v (k_enter_seen s) (k_mouse_mode s) (k_sources s) (k_active s).
Definition set_k_enter_seen (v : bool) (s : inputs) : inputs :=
  Inputs (k_ev s) (k_down s) v (k_mouse_mode s) (k_sources s) (k_active s).
Definition set_k_mouse_mode (v : bool) (s : inputs) : inputs :=
  Inputs (k_ev s) (k_down s) (k_enter_seen s) v (k_sources s) (k_active s).
Definition set_k_sources (v : list Z) (s : inputs) : inputs :=
  Inputs (k_ev s) (k_down s) (k_enter_seen s) (k_mouse_mode s) v (k_active s).
Definition set_k_active (v : exword_touch_zone) (s : inputs) : inputs :=
  Inputs (k_ev s) (k_down s) (k_enter_seen s) (k_mouse_mode s) (k_sources s) v.

(** The touch panel: the [exword_touch_...] variables. *)
Record touch := Touch {
  t_cal : exword_touch_calibration;   (** [exword_touch_cal] *)
  t_cal_valid : bool;
  t_available : bool;
  t_timeout_reported : bool;
  t_enabled : bool;
  t_prepared : bool;
  t_gpio_prepared : bool;
  t_first_reported : bool;   (** [exword_touch_first_sample_reported] *)
  t_poll_scans : Z;
  t_candidate : exword_touch_zone;
  t_candidate_samples : Z;
  t_release_samples : Z;
  t_repeat_polls : Z;
  t_candidate_sample : exword_touch_sample;
}.
Definition set_t_cal (v : exword_touch_calibration) (s : touch) : touch :=
  Touch v (t_cal_valid s) (t_available s) (t_timeout_reported s) (t_enabled s) (t_prepared s) (t_gpio_prepared s) (t_first_reported s) (t_poll_scans s) (t_candidate s) (t_candidate_samples s) (t_release_samples s) (t_repeat_polls s) (t_candidate_sample s).
Definition set_t_cal_valid (v : bool) (s : touch) : touch :=
  Touch (t_cal s) v (t_available s) (t_timeout_reported s) (t_enabled s) (t_prepared s) (t_gpio_prepared s) (t_first_reported s) (t_poll_scans s) (t_candidate s) (t_candidate_samples s) (t_release_samples s) (t_repeat_polls s) (t_candidate_sample s).
Definition set_t_available (v : bool) (s : touch) : touch :=
  Touch (t_cal s) (t_cal_valid s) v (t_timeout_reported s) (t_enabled s) (t_prepared s) (t_gpio_prepared s) (t_first_reported s) (t_poll_scans s) (t_candidate s) (t_candidate_samples s) (t_release_samples s) (t_repeat_polls s) (t_candidate_sample s).
Definition set_t_timeout_reported (v : bool) (s : touch) : touch :=
  Touch (t_cal s) (t_cal_valid s) (t_available s) v (t_enabled s) (t_prepared s) (t_gpio_prepared s) (t_first_reported s) (t_poll_scans s) (t_candidate s) (t_candidate_samples s) (t_release_samples s) (t_repeat_polls s) (t_candidate_sample s).
Definition set_t_enabled (v : bool) (s : touch) : touch :=
  Touch (t_cal s) (t_cal_valid s) (t_available s) (t_timeout_reported s) v (t_prepared s) (t_gpio_prepared s) (t_first_reported s) (t_poll_scans s) (t_candidate s) (t_candidate_samples s) (t_release_samples s) (t_repeat_polls s) (t_candidate_sample s).
Definition set_t_prepared (v : bool) (s : touch) : touch :=
  Touch (t_cal s) (t_cal_valid s) (t_available s) (t_timeout_reported s) (t_enabled s) v (t_gpio_prepared s) (t_first_reported s) (t_poll_scans s) (t_candidate s) (t_candidate_samples s) (t_release_samples s) (t_repeat_polls s) (t_candidate_sample s).
Definition set_t_gpio_prepared (v : bool) (s : touch) : touch :=
  Touch (t_cal s) (t_cal_valid s) (t_available s) (t_timeout_reported s) (t_enabled s) (t_prepared s) v (t_first_reported s) (t_poll_scans s) (t_candidate s) (t_candidate_samples s) (t_release_samples s) (t_repeat_polls s) (t_candidate_sample s).
Definition set_t_first_reported (v : bool) (s : touch) : touch :=
  Touch (t_cal s) (t_cal_valid s) (t_available s) (t_timeout_reported s) (t_enabled s) (t_prepared s) (t_gpio_prepared s) v (t_poll_scans s) (t_candidate s) (t_candidate_samples s) (t_release_samples s) (t_repeat_polls s) (t_candidate_sample s).
Definition set_t_poll_scans (v : Z) (s : touch) : touch :=
  Touch (t_cal s) (t_cal_valid s) (t_available s) (t_timeout_reported s) (t_enabled s) (t_prepared s) (t_gpio_prepared s) (t_first_reported s) v (t_candidate s) (t_candidate_samples s) (t_release_samples s) (t_repeat_polls s) (t_candidate_sample s).
Definition set_t_candidate (v : exword_touch_zone) (s : touch) : touch :=
  Touch (t_cal s) (t_cal_valid s) (t_available s) (t_timeout_reported s) (t_enabled s) (t_prepared s) (t_gpio_prepared s) (t_first_reported s) (t_poll_scans s) v (t_candidate_samples s) (t_release_samples s) (t_repeat_polls s) (t_candidate_sample s).
Definition set_t_candidate_samples (v : Z) (s : touch) : touch :=
  Touch (t_cal s) (t_cal_valid s) (t_available s) (t_timeout_reported s) (t_enabled s) (t_prepared s) (t_gpio_prepared s) (t_first_reported s) (t_poll_scans s) (t_candidate s) v (t_release_samples s) (t_repeat_polls s) (t_candidate_sample s).
Definition set_t_release_samples (v : Z) (s : touch) : touch :=
  Touch (t_cal s) (t_cal_valid s) (t_available s) (t_timeout_reported s) (t_enabled s) (t_prepared s) (t_gpio_prepared s) (t_first_reported s) (t_poll_scans s) (t_candidate s) (t_candidate_samples s) v (t_repeat_polls s) (t_candidate_sample s).
Definition set_t_repeat_polls (v : Z) (s : touch) : touch :=
  Touch (t_cal s) (t_cal_valid s) (t_available s) (t_timeout_reported s) (t_enabled s) (t_prepared s) (t_gpio_prepared s) (t_first_reported s) (t_poll_scans s) (t_candidate s) (t_candidate_samples s) (t_release_samples s) v (t_candidate_sample s).
Definition set_t_candidate_sample (v : exword_touch_sample) (s : touch) : touch :=
  Touch (t_cal s) (t_cal_valid s) (t_available s) (t_timeout_reported s) (t_enabled s) (t_prepared s) (t_gpio_prepared s) (t_first_reported s) (t_poll_scans s) (t_candidate s) (t_candidate_samples s) (t_release_samples s) (t_repeat_polls s) v.

(** The secondary LCD: the [exword_sublcd_...] variables. *)
Record lcd := Lcd {
  l_supported : bool;   (** [exword_sublcd_supported] *)
  l_enabled : bool;
  l_next_row : Z;
  l_finished : bool;
}.
Definition set_l_supported (v : bool) (s : lcd) : lcd :=
  Lcd v (l_enabled s) (l_next_row s) (l_finished s).
Definition set_l_enabled (v : bool) (s : lcd) : lcd :=
  Lcd (l_supported s) v (l_next_row s) (l_finished s).
Definition set_l_next_row (v : Z) (s : lcd) : lcd :=
  Lcd (l_supported s) (l_enabled s) v (l_finished s).
Definition set_l_finished (v : bool) (s : lcd) : lcd :=
  Lcd (l_supported s) (l_enabled s) (l_next_row s) v.

(** All variables of the driver. *)
Record kst (H : Type) := KState {
  k_hw : H;   (** the device registers and memory *)
  k_in : inputs;
  k_raw : list Z;   (** [exword_raw[6]] *)
  k_repeat_scans : Z;   (** [exword_mouse_repeat_scans] *)
  k_touch : touch;
  k_lcd : lcd;
  k_subpad_mode : Z;   (** [exword_subpad_mode], written by user space *)
  k_applied_mode : Z;   (** [applied_mode] of [exword_service_subpad_mode] *)
}.
Arguments KState {H}.
Arguments k_hw {H}.
Arguments k_in {H}.
Arguments k_raw {H}.
Arguments k_repeat_scans {H}.
Arguments k_touch {H}.
Arguments k_lcd {H}.
Arguments k_subpad_mode {H}.
Arguments k_applied_mode {H}.
Definition set_k_hw {H} (v : H) (s : kst H) : kst H :=
  KState v (k_in s) (k_raw s) (k_repeat_scans s) (k_touch s) (k_lcd s) (k_subpad_mode s) (k_applied_mode s).
Definition set_k_in {H} (v : inputs) (s : kst H) : kst H :=
  KState (k_hw s) v (k_raw s) (k_repeat_scans s) (k_touch s) (k_lcd s) (k_subpad_mode s) (k_applied_mode s).
Definition set_k_raw {H} (v : list Z) (s : kst H) : kst H :=
  KState (k_hw s) (k_in s) v (k_repeat_scans s) (k_touch s) (k_lcd s) (k_subpad_mode s) (k_applied_mode s).
Definition set_k_repeat_scans {H} (v : Z) (s : kst H) : kst H :=
  KState (k_hw s) (k_in s) (k_raw s) v (k_touch s) (k_lcd s) (k_subpad_mode s) (k_applied_mode s).
Definition set_k_touch {H} (v : touch) (s : kst H) : kst H :=
  KState (k_hw s) (k_in s) (k_raw s) (k_repeat_scans s) v (k_lcd s) (k_subpad_mode s) (k_applied_mode s).
Definition set_k_lcd {H} (v : lcd) (s : kst H) : kst H :=
  KState (k_hw s) (k_in s) (k_raw s) (k_repeat_scans s) (k_touch s) v (k_subpad_mode s) (k_applied_mode s).
Definition set_k_subpad_mode {H} (v : Z) (s : kst H) : kst H :=
  KState (k_hw s) (k_in s) (k_raw s) (k_repeat_scans s) (k_touch s) (k_lcd s) v (k_applied_mode s).
Definition set_k_applied_mode {H} (v : Z) (s : kst H) : kst H :=
  KState (k_hw s) (k_in s) (k_raw s) (k_repeat_scans s) (k_touch s) (k_lcd s) (k_subpad_mode s) v.

(** The static initialisers: everything zero but [applied_mode]. *)
Definition exword_initial {H} (h : H) : kst H :=
  KState h
    (Inputs [] (replicate (length exword_keys) false) false false [0; 0; 0] EXWORD_TOUCH_NONE)
    (replicate 6 0) 0
    (Touch (Calibration 0 0 0 0) false false false false false false false 0
       EXWORD_TOUCH_NONE 0 0 0 (Sample 0 0))
    (Lcd false false 0 false) 0 (-1).

(** Plain memory as a device, for concrete runs. *)
#[export] Instance memory_mmio : Mmio (Z → Z) := {
  raw_readb a h := (u8 (h a), h);
  raw_readw a h := (u16 (h a), h);
  raw_readl a h := (u32 (h a), h);
  raw_writeb a v h := λ a', if a' =? a then u8 v else h a';
  raw_writew a v h := λ a', if a' =? a then u16 v else h a';
  raw_writel a v h := λ a', if a' =? a then u32 v else h a';
}.

#[export] Instance memory_mmio_ok : MmioOk (Z → Z).
Proof. split; intros a h; [apply u8_range|apply u16_range|apply u32_range]. Qed.

(** Registers that always read the same. *)
Record fixed_regs := FixedRegs { reg : Z → Z }.
#[export] Instance fixed_mmio : Mmio fixed_regs := {
  raw_readb a h := (u8 (reg h a), h);
  raw_readw a h := (u16 (reg h a), h);
  raw_readl a h := (u32 (reg h a), h);
  raw_writeb a v h := h;
  raw_writew a v h := h;
  raw_writel a v h := h;
}.

#[export] Instance fixed_mmio_ok : MmioOk fixed_regs.
Proof. split; intros a h; [apply u8_range|apply u16_range|apply u32_range]. Qed.

(** ** The driver monad *)

Section Access.
Context {H : Type} `{Mmio H}.

Definition readb (a : Z) : st (kst H) Z := λ s,
  let '(v, h) := raw_readb a (k_hw s) in (v, set_k_hw h s).
Definition readw (a : Z) : st (kst H) Z := λ s,
  let '(v, h) := raw_readw a (k_hw s) in (v, set_k_hw h s).
Definition readl (a : Z) : st (kst H) Z := λ s,
  let '(v, h) := raw_readl a (k_hw s) in (v, set_k_hw h s).
Definition writeb (v a : Z) : st (kst H) unit :=
  st_upd (λ s, set_k_hw (raw_writeb a v (k_hw s)) s).
Definition writew (v a : Z) : st (kst H) unit :=
  st_upd (λ s, set_k_hw (raw_writew a v (k_hw s)) s).
Definition writel (v a : Z) : st (kst H) unit :=
  st_upd (λ s, set_k_hw (raw_writel a v (k_hw s)) s).

Definition upd_in (f : inputs → inputs) : st (kst H) unit :=
  st_upd (λ s, set_k_in (f (k_in s)) s).
Definition upd_touch (f : touch → touch) : st (kst H) unit :=
  st_upd (λ s, set_k_touch (f (k_touch s)) s).
Definition upd_lcd (f : lcd → lcd) : st (kst H) unit :=
  st_upd (λ s, set_k_lcd (f (k_lcd s)) s).
Definition get_in {A} (f : inputs → A) : st (kst H) A := st_get (λ s, f (k_in s)).
Definition get_touch {A} (f : touch → A) : st (kst H) A := st_get (λ s, f (k_touch s)).
Definition get_lcd {A} (f : lcd → A) : st (kst H) A := st_get (λ s, f (k_lcd s)).

Definition emit (e : event) : st (kst H) unit :=
  upd_in (λ i, set_k_ev (e :: k_ev i) i).
Definition input_report_key (d : device) (c : keycode) (v : bool) : st (kst H) unit :=
  emit (KeyEvent d c v).
Definition input_report_rel (a : rel_axis) (v : Z) : st (kst H) unit :=
  emit (RelEvent a v).
Definition input_sync (d : device) : st (kst H) unit := emit (SyncEvent d).
End Access.

(** The value last reported for a key, as the input core holds it. *)
Fixpoint reported (d : device) (c : keycode) (ev : list event) : bool :=
  match ev with
  | [] => false
  | KeyEvent d' c' v :: ev' =>
      if decide (d' = d ∧ c' = c) then v else reported d c ev'
  | _ :: ev' => reported d c ev'
  end.

(** ** Operations that leave part of the state alone

    [Leaves g m]: running [m] does not change [g].  Instance search proves it
    for every combination of device accesses and every [g] that does not look
    at the registers, the panel and the display. *)

Class Leaves {H A B} (g : kst H → B) (m : st (kst H) A) : Prop :=
  leaves : ∀ s, g (m s).2 = g s.

Class BlindHw {H B} (g : kst H → B) : Prop :=
  blind_hw : ∀ h s, g (set_k_hw h s) = g s.
Class Blind {H B} (g : kst H → B) : Prop := {
  blind_blind_hw :: BlindHw g;
  blind_touch t s : g (set_k_touch t s) = g s;
  blind_lcd l s : g (set_k_lcd l s) = g s;
  blind_repeat_scans n s : g (set_k_repeat_scans n s) = g s;
  blind_applied_mode n s : g (set_k_applied_mode n s) = g s;
}.

#[export] Instance blind_in H : Blind (k_in (H := H)).
Proof. done. Qed.
#[export] Instance blind_raw H : Blind (k_raw (H := H)).
Proof. done. Qed.

Section LeavesHw.
Context {H B : Type} `{Mmio H} (g : kst H → B) `{!BlindHw g}.

#[export] Instance leaves_ret A (a : A) : Leaves g (mret a).
Proof. by intros s. Qed.
#[export] Instance leaves_bind A A' (m : st (kst H) A) (f : A → st (kst H) A') :
  Leaves g m → (∀ a, Leaves g (f a)) → Leaves g (m ≫= f).
Proof. intros Hm Hf s. rewrite st_bind_eq. rewrite Hf. apply Hm. Qed.
#[export] Instance leaves_if A (b : bool) (m1 m2 : st (kst H) A) :
  Leaves g m1 → Leaves g m2 → Leaves g (if b then m1 else m2).
Proof. by destruct b. Qed.
#[export] Instance leaves_option A A' (o : option A') (m1 : A' → st (kst H) A) m2 :
  (∀ b, Leaves g (m1 b)) → Leaves g m2 →
  Leaves g (match o with Some b => m1 b | None => m2 end).
Proof. by destruct o. Qed.
#[export] Instance leaves_readb a : Leaves g (readb a).
Proof. intros s. unfold readb. destruct (raw_readb a (k_hw s)). apply blind_hw. Qed.
#[export] Instance leaves_readw a : Leaves g (readw a).
Proof. intros s. unfold readw. destruct (raw_readw a (k_hw s)). apply blind_hw. Qed.
#[export] Instance leaves_readl a : Leaves g (readl a).
Proof. intros s. unfold readl. destruct (raw_readl a (k_hw s)). apply blind_hw. Qed.
#[export] Instance leaves_writeb v a : Leaves g (writeb v a).
Proof. intros s. apply blind_hw. Qed.
#[export] Instance leaves_writew v a : Leaves g (writew v a).
Proof. intros s. apply blind_hw. Qed.
#[export] Instance leaves_writel v a : Leaves g (writel v a).
Proof. intros s. apply blind_hw. Qed.
#[export] Instance leaves_get A (f : kst H → A) : Leaves g (st_get f).
Proof. by intros s. Qed.
End LeavesHw.

Section LeavesAll.
Context {H B : Type} `{Mmio H} (g : kst H → B) `{!Blind g}.

#[export] Instance leaves_upd_touch f : Leaves g (upd_touch f).
Proof. intros s. apply blind_touch. Qed.
#[export] Instance leaves_upd_lcd f : Leaves g (upd_lcd f).
Proof. intros s. apply blind_lcd. Qed.
#[export] Instance leaves_set_repeat_scans v : Leaves g (st_upd (set_k_repeat_scans v)).
Proof. intros s. apply blind_repeat_scans. Qed.
#[export] Instance leaves_set_applied_mode v : Leaves g (st_upd (set_k_applied_mode v)).
Proof. intros s. apply blind_applied_mode. Qed.
#[export] Instance leaves_in_set_raw v : Leaves k_in (st_upd (set_k_raw v) : st (kst H) unit).
Proof. by intros s. Qed.
#[export] Instance leaves_raw_upd_in f : Leaves k_raw (upd_in f : st (kst H) unit).
Proof. by intros s. Qed.
End LeavesAll.

(** ** Operations that keep a property of the input side *)

Class Keeps {H A} (P : inputs → Prop) (m : st (kst H) A) : Prop :=
  keeps : ∀ s, P (k_in s) → P (k_in (m s).2).

Section KeepsInstances.
Context {H : Type} `{Mmio H} (P : inputs → Prop).

#[export] Instance keeps_leaves A (m : st (kst H) A) : Leaves k_in m → Keeps P m | 10.
Proof. intros Hm s Hs. by rewrite Hm. Qed.
#[export] Instance keeps_bind A B (m : st (kst H) A) (f : A → st (kst H) B) :
  Keeps P m → (∀ a, Keeps P (f a)) → Keeps P (m ≫= f).
Proof. intros Hm Hf s Hs. rewrite st_bind_eq. by apply Hf, Hm. Qed.
#[export] Instance keeps_if A (b : bool) (m1 m2 : st (kst H) A) :
  Keeps P m1 → Keeps P m2 → Keeps P (if b then m1 else m2).
Proof. by destruct b. Qed.
End KeepsInstances.
