(* ===== verification/TouchPad.v ===== *)
(** * Keypad driver: the secondary LCD and the resistive touch panel
    ([src/kernel/overlay/drivers/input/keyboard/exword-keypad.c])

    Drawing of the six-button pad row by row, the ADC sequence that samples
    the panel, the calibration and the zone map.  Delay loops
    ([exword_touch_settle], [cpu_relax], [mb]) have no effect on the state and
    are left out. *)

From S2P Require Import Prelude KeypadState.

(** ** Pure functions *)

Definition exword_touch_calibration_sane (cal : exword_touch_calibration) : bool :=
  if (x_origin cal <? 0) || (x_origin cal >? 1023) ||
     (y_origin cal <? 0) || (y_origin cal >? 1023) then false
  else if (x_span cal <? 128) || (x_span cal >? 8192) then false
  else if (y_span cal <? 128) || (y_span cal >? 8192) then false
  else true.

Definition exword_small_abs (value : Z) : Z :=
  if value <? 0 then u32 (- value) else u32 value.

Definition exword_sublcd_arrow_pixel (zone : exword_touch_zone) (x y : Z) : bool :=
  let ax := x - 40 in
  let ay := y - 24 in
  match zone with
  | EXWORD_TOUCH_LEFT =>
      ((35 <=? x) && (x <=? 60) && (exword_small_abs ay <=? 3)) ||
      ((17 <=? x) && (x <=? 40) && (exword_small_abs ay <=? u32 (x - 17) / 2))
  | EXWORD_TOUCH_UP =>
      ((22 <=? y) && (y <=? 40) && (exword_small_abs ax <=? 3)) ||
      ((7 <=? y) && (y <=? 28) && (exword_small_abs ax <=? u32 (y - 7) / 2))
  | EXWORD_TOUCH_RIGHT =>
      ((20 <=? x) && (x <=? 45) && (exword_small_abs ay <=? 3)) ||
      ((40 <=? x) && (x <=? 63) && (exword_small_abs ay <=? u32 (63 - x) / 2))
  | EXWORD_TOUCH_DOWN =>
      ((8 <=? y) && (y <=? 26) && (exword_small_abs ax <=? 3)) ||
      ((20 <=? y) && (y <=? 41) && (exword_small_abs ax <=? u32 (41 - y) / 2))
  | _ => false
  end.

Definition letter_l : list Z := [0x10; 0x10; 0x10; 0x10; 0x10; 0x10; 0x1f].
Definition letter_r : list Z := [0x1e; 0x11; 0x11; 0x1e; 0x14; 0x12; 0x11].

(** [None] is a read outside the glyph. *)
Definition exword_sublcd_letter_pixel (zone : exword_touch_zone) (x y : Z) : option bool :=
  if negb (bool_decide (zone = EXWORD_TOUCH_BUTTON_LEFT)) &&
     negb (bool_decide (zone = EXWORD_TOUCH_BUTTON_RIGHT)) then Some false
  else if (x <? 30) || (x >=? 50) || (y <? 10) || (y >=? 38) then Some false
  else
    let rows := if bool_decide (zone = EXWORD_TOUCH_BUTTON_LEFT)
                then letter_l else letter_r in
    let column := Z.shiftr (x - 30) 2 in
    let row := Z.shiftr (y - 10) 2 in
    r ← rows !! Z.to_nat row;
    Some (negb (Z.land r (Z.shiftl 1 (4 - column)) =? 0)).

(** The zone a pixel of the pad belongs to, with its coordinates inside it. *)
Definition pad_zone (x y : Z) : exword_touch_zone * Z * Z :=
  let '(zone, local_x) :=
    if x <? 80 then
      (if y <? 48 then EXWORD_TOUCH_LEFT else EXWORD_TOUCH_BUTTON_LEFT, x)
    else if x <? 160 then
      (if y <? 48 then EXWORD_TOUCH_UP else EXWORD_TOUCH_DOWN, x - 80)
    else
      (if y <? 48 then EXWORD_TOUCH_RIGHT else EXWORD_TOUCH_BUTTON_RIGHT, x - 160) in
  (zone, local_x, if y <? 48 then y else y - 48).

Definition exword_sublcd_pad_pixel (x y : Z) : option Z :=
  if (x >=? EXWORD_SUBLCD_UI_WIDTH) || (y >=? EXWORD_SUBLCD_UI_HEIGHT) then Some 0
  else
    let '(zone, local_x, local_y) := pad_zone x y in
    if (local_x <? 2) || (local_x >=? 78) || (local_y <? 2) || (local_y >=? 46)
    then Some 0xbdf7
    else
      let background :=
        if bool_decide (zone = EXWORD_TOUCH_BUTTON_LEFT) ||
           bool_decide (zone = EXWORD_TOUCH_BUTTON_RIGHT) then 0x2448 else 0x194f in
      if exword_sublcd_arrow_pixel zone local_x local_y then Some 0xffff
      else
        letter ← exword_sublcd_letter_pixel zone local_x local_y;
        Some (if letter : bool then 0xffff else background).

(** ** Device operations *)

Section TouchPad.
Context {H : Type} `{Mmio H}.
Abbreviation K := (st (kst H)).

Definition exword_touch_snapshot_long (offset : Z) : K Z :=
  v ← readl (EXWORD_SNAPSHOT_BASE + offset); mret (s32 v).

Definition exword_touch_read_calibration (offset : Z) : K unit :=
  xo ← exword_touch_snapshot_long offset;
  yo ← exword_touch_snapshot_long (offset + 4);
  xs ← exword_touch_snapshot_long (offset + 8);
  ys ← exword_touch_snapshot_long (offset + 12);
  upd_touch (set_t_cal (Calibration xo yo xs ys)).

Definition exword_touch_load_firmware_setup : K unit :=
  magic ← readl (EXWORD_SNAPSHOT_BASE + EXWORD_TOUCH_SNAPSHOT_OFFSET);
  if negb (magic =? EXWORD_TOUCH_SNAPSHOT_MAGIC) then
    upd_touch (set_t_cal_valid false);;
    upd_touch (set_t_available false);;
    upd_lcd (set_l_supported false)
  else
    variant ← readl (EXWORD_SNAPSHOT_BASE + EXWORD_TOUCH_VARIANT_OFFSET);
    exword_touch_read_calibration EXWORD_TOUCH_CAL1_OFFSET;;
    cal ← get_touch t_cal;
    upd_touch (set_t_cal_valid (exword_touch_calibration_sane cal));;
    upd_lcd (set_l_supported (variant =? 1));;
    upd_touch (set_t_available
      ((variant =? 1) && exword_touch_calibration_sane cal)).

Definition exword_sublcd_command (command : Z) : K unit :=
  prdr ← readb EXWORD_SUBLCD_PRDR;
  writeb (Z.land prdr (Z.lnot EXWORD_SUBLCD_DC)) EXWORD_SUBLCD_PRDR;;
  writew command EXWORD_SUBLCD_DATA;;
  writeb (Z.lor prdr EXWORD_SUBLCD_DC) EXWORD_SUBLCD_PRDR.

Definition exword_sublcd_data (value : Z) : K unit := writew value EXWORD_SUBLCD_DATA.

Definition exword_sublcd_set_row (y : Z) : K unit :=
  exword_sublcd_command 0x21;; exword_sublcd_data 6;;
  exword_sublcd_command 0x52;; exword_sublcd_data 6;;
  exword_sublcd_command 0x53;; exword_sublcd_data (6 + EXWORD_SUBLCD_WIDTH - 1);;
  exword_sublcd_command 0x20;; exword_sublcd_data y;;
  exword_sublcd_command 0x50;; exword_sublcd_data y;;
  exword_sublcd_command 0x51;; exword_sublcd_data y;;
  exword_sublcd_command 0x22.

(** The pixel loop of one row, from column [x] on. *)
Fixpoint draw_pixels (columns : nat) (x y : Z) : K unit :=
  match columns with
  | O => mret tt
  | S columns' =>
      exword_sublcd_data (default 0 (exword_sublcd_pad_pixel x y));;
      draw_pixels columns' (x + 1) y
  end.

Definition exword_sublcd_draw_next_row : K bool :=
  y ← get_lcd l_next_row;
  l ← get_lcd id;
  if l_finished l || negb (l_enabled l) || negb (l_supported l) then mret false
  else
    exword_sublcd_set_row y;;
    draw_pixels (Z.to_nat EXWORD_SUBLCD_WIDTH) 0 y;;
    upd_lcd (set_l_next_row (u32 (y + 1)));;
    (if u32 (y + 1) =? EXWORD_SUBLCD_HEIGHT then upd_lcd (set_l_finished true)
     else mret tt);;
    mret true.

Definition exword_touch_disable : K unit :=
  upd_touch (set_t_available false);;
  upd_touch (set_t_timeout_reported true).

Definition exword_touch_open_clock : K bool :=
  mstp2 ← readl EXWORD_TOUCH_MSTPCR2;
  (if Z.testbit mstp2 EXWORD_TOUCH_MSTP_BIT then
     writel (Z.clearbit mstp2 EXWORD_TOUCH_MSTP_BIT) EXWORD_TOUCH_MSTPCR2
   else mret tt);;
  mstp2 ← readl EXWORD_TOUCH_MSTPCR2;
  if Z.testbit mstp2 EXWORD_TOUCH_MSTP_BIT then
    exword_touch_disable;; mret false
  else mret true.

(** [exword_touch_wait_adcsr] and [exword_touch_wait_adccsr]: bounded polls. *)
Fixpoint wait_ready (passes : nat) (reg : Z) : K bool :=
  match passes with
  | O => exword_touch_disable;; mret false
  | S passes' =>
      v ← readw reg;
      if Z.land v 0x2000 =? 0 then mret true else wait_ready passes' reg
  end.

Definition exword_touch_wait_adcsr : K bool :=
  wait_ready (Z.to_nat EXWORD_TOUCH_ADC_TIMEOUT) EXWORD_TOUCH_ADCSR.
Definition exword_touch_wait_adccsr : K bool :=
  wait_ready (Z.to_nat EXWORD_TOUCH_ADC_TIMEOUT) EXWORD_TOUCH_ADCCSR.

Definition exword_touch_base_pfc : K unit :=
  writeb 0 EXWORD_TOUCH_PGDR;;
  value ← readw EXWORD_TOUCH_PHCR;
  writew (Z.lor (Z.land value 0xfcff) 0x0100) EXWORD_TOUCH_PHCR;;
  value ← readw EXWORD_TOUCH_PLCR;
  writew (u16 (Z.land value (Z.lnot 0x000c))) EXWORD_TOUCH_PLCR;;
  value ← readw EXWORD_TOUCH_PSELE;
  writew (u16 (Z.land value (Z.lnot 0x0c00))) EXWORD_TOUCH_PSELE.

Definition exword_touch_rest (high : bool) : K bool :=
  ok ← exword_touch_wait_adccsr;
  if negb ok then mret false
  else
    writew 0 EXWORD_TOUCH_ADCUST;;
    value ← readw EXWORD_TOUCH_ADCSR;
    writew (u16 (Z.land value (Z.lnot 0x2000))) EXWORD_TOUCH_ADCSR;;
    writew 0xaaaa EXWORD_TOUCH_PGCR;;
    writeb 0 EXWORD_TOUCH_PGDR;;
    phdr ← readb EXWORD_TOUCH_PHDR;
    writeb (if high then Z.lor phdr 0x10 else u8 (Z.land phdr (Z.lnot 0x10)))
      EXWORD_TOUCH_PHDR;;
    mret true.

Fixpoint pen_samples (passes : nat) : K bool :=
  match passes with
  | O => mret true
  | S passes' =>
      v ← readb EXWORD_TOUCH_PLDR;
      if Z.testbit v 1 then mret false else pen_samples passes'
  end.

Definition exword_touch_read_pen_level : K bool :=
  value ← readw EXWORD_TOUCH_PLCR;
  writew (Z.lor (u16 (Z.land value (Z.lnot 0x000c))) 0x0008) EXWORD_TOUCH_PLCR;;
  contact ← pen_samples 5;
  exword_touch_base_pfc;;
  mret contact.

Definition exword_touch_prepare_hardware : K bool :=
  available ← get_touch t_available;
  if negb available then mret false else
  open ← exword_touch_open_clock;
  if negb open then mret false else
  exword_touch_base_pfc;;
  rested ← exword_touch_rest true;
  if negb rested then mret false else
  exword_touch_read_pen_level;;
  mret true.

Definition exword_touch_prepare_gpio_hardware : K bool :=
  supported ← get_lcd l_supported;
  if negb supported then mret false else
  exword_touch_base_pfc;;
  writew 0xaaaa EXWORD_TOUCH_PGCR;;
  writeb 0 EXWORD_TOUCH_PGDR;;
  phdr ← readb EXWORD_TOUCH_PHDR;
  writeb (Z.lor phdr 0x10) EXWORD_TOUCH_PHDR;;
  exword_touch_read_pen_level;;
  mret true.

Definition exword_touch_pen_down : K bool := exword_touch_read_pen_level.

(** The coordinate of one axis from the two opposite conversions. *)
Definition adc_pair_ok (a b : Z) : bool := exword_small_abs (1023 - a - b) <=? 64.
Definition adc_coordinate (a b : Z) : Z :=
  Z.land (u16 (Z.shiftr (a - b + 1023) 1)) 1023.

(** [Some sample] stands for [true] with the sample stored. *)
Definition exword_touch_read_adc : K (option exword_touch_sample) :=
  open ← exword_touch_open_clock;
  if negb open then mret None else
  low ← exword_touch_rest false;
  if negb low then mret None else
  value ← readw EXWORD_TOUCH_PFC_A;
  writew (Z.lor (Z.land value 0x0fff) 0x5000) EXWORD_TOUCH_PFC_A;;
  writew 0 EXWORD_TOUCH_PGCR;;
  value ← readw EXWORD_TOUCH_MSELCRA;
  writew (Z.land value 0xfcff) EXWORD_TOUCH_MSELCRA;;
  ready ← exword_touch_wait_adcsr;
  if negb ready then mret None else
  writew 0x8000 EXWORD_TOUCH_ADCUST;;
  cpg ← readl EXWORD_TOUCH_CPG_ID;
  let base := if Z.land cpg 0xf =? 3 then 0x01cf else 0x02cf in
  writew base EXWORD_TOUCH_ADCCSR;;
  writew 0x8000 EXWORD_TOUCH_ADPCTL;;
  writew (Z.lor base 0x2000) EXWORD_TOUCH_ADCCSR;;
  converted ← exword_touch_wait_adccsr;
  if negb converted then mret None else
  b ← readw EXWORD_TOUCH_ADDRB;
  a ← readw EXWORD_TOUCH_ADDRA;
  d ← readw EXWORD_TOUCH_ADDRD;
  c ← readw EXWORD_TOUCH_ADDRC;
  let raw0 := Z.shiftr b 6 in
  let raw1 := Z.shiftr a 6 in
  let raw2 := Z.shiftr d 6 in
  let raw3 := Z.shiftr c 6 in
  value ← readw EXWORD_TOUCH_ADCCSR;
  writew (u16 (Z.land value (Z.lnot 0xc000))) EXWORD_TOUCH_ADCCSR;;
  let valid := adc_pair_ok raw0 raw1 && adc_pair_ok raw2 raw3 in
  rested ← exword_touch_rest true;
  if negb rested then mret None
  else mret (if valid
             then Some (Sample (adc_coordinate raw3 raw2) (adc_coordinate raw1 raw0))
             else None).

Definition exword_touch_read_sample : K (option exword_touch_sample) :=
  available ← get_touch t_available;
  if negb available then mret None else
  down ← exword_touch_pen_down;
  if negb down then mret None else exword_touch_read_adc.
End TouchPad.

(** ** Coordinates and zones *)

Definition exword_touch_coordinate (cal_valid : bool) (raw origin span limit : Z) : Z :=
  if negb cal_valid then Z.shiftr (u32 (raw * limit)) 10
  else
    let value := Z.quot (s32 (s32 (raw - origin) * 256)) span in
    if value <? 0 then 0
    else if value >=? limit then limit - 1
    else value.

Definition exword_touch_sample_zone (t : touch) (sample : exword_touch_sample)
    : exword_touch_zone :=
  let cal := t_cal t in
  let x := exword_touch_coordinate (t_cal_valid t) (sample_x sample)
             (x_origin cal) (x_span cal) EXWORD_SUBLCD_UI_WIDTH in
  let y := exword_touch_coordinate (t_cal_valid t) (sample_y sample)
             (y_origin cal) (y_span cal) EXWORD_SUBLCD_UI_HEIGHT in
  if y <? 48 then
    if x <? 80 then EXWORD_TOUCH_LEFT
    else if x <? 160 then EXWORD_TOUCH_UP
    else EXWORD_TOUCH_RIGHT
  else if x <? 80 then EXWORD_TOUCH_BUTTON_LEFT
  else if x <? 160 then EXWORD_TOUCH_DOWN
  else EXWORD_TOUCH_BUTTON_RIGHT.

(** ** Facts about the pure functions *)

Lemma exword_small_abs_eq v : - 2 ^ 31 < v < 2 ^ 31 → exword_small_abs v = Z.abs v.
Proof.
  intros Hv. unfold exword_small_abs, u32.
  destruct (Z.ltb_spec v 0); rewrite Z.mod_small; lia.
Qed.

Lemma exword_touch_calibration_sane_spec cal :
  exword_touch_calibration_sane cal = true ↔
  0 <= x_origin cal <= 1023 ∧ 0 <= y_origin cal <= 1023 ∧
  128 <= x_span cal <= 8192 ∧ 128 <= y_span cal <= 8192.
Proof. unfold exword_touch_calibration_sane. repeat case_match; lia. Qed.

Lemma exword_touch_coordinate_plain raw origin span limit :
  is_u 10 raw → 0 < limit <= 1024 →
  exword_touch_coordinate false raw origin span limit = raw * limit / 1024.
Proof.
  unfold is_u. intros Hraw Hl. unfold exword_touch_coordinate. cbn [negb].
  rewrite u32_small by (unfold is_u; nia). by rewrite Z.shiftr_div_pow2 by lia.
Qed.

Lemma exword_touch_coordinate_range v raw origin span limit :
  is_u 10 raw → 0 < limit <= 1024 →
  0 <= exword_touch_coordinate v raw origin span limit < limit.
Proof.
  intros Hraw Hl. destruct v.
  - unfold exword_touch_coordinate. cbn [negb]. cbv zeta.
    generalize (Z.quot (s32 (s32 (raw - origin) * 256)) span). intros q.
    rewrite Z.geb_leb. destruct (Z.ltb_spec q 0), (Z.leb_spec limit q); lia.
  - rewrite exword_touch_coordinate_plain by done. unfold is_u in Hraw. split.
    + apply Z.div_pos; nia.
    + apply Z.div_lt_upper_bound; nia.
Qed.

(** The arithmetic of a calibrated coordinate does not overflow an [int]. *)
Lemma exword_touch_coordinate_exact raw origin span limit :
  is_u 16 raw → 0 <= origin <= 1023 → 0 < limit →
  exword_touch_coordinate true raw origin span limit
  = Z.max 0 (Z.min (limit - 1) (Z.quot ((raw - origin) * 256) span)).
Proof.
  intros Hraw Ho Hl. unfold is_u in Hraw. unfold exword_touch_coordinate. cbn [negb].
  rewrite (s32_small (raw - origin)), (s32_small ((raw - origin) * 256)) by lia.
  cbv zeta. generalize (Z.quot ((raw - origin) * 256) span). intros q.
  rewrite Z.geb_leb. destruct (Z.ltb_spec q 0), (Z.leb_spec limit q); lia.
Qed.

Lemma exword_sublcd_letter_pixel_defined zone x y :
  is_Some (exword_sublcd_letter_pixel zone x y).
Proof.
  unfold exword_sublcd_letter_pixel. rewrite !Z.geb_leb.
  destruct (_ && _)%bool; [by eexists|].
  destruct ((x <? 30) || _ || _ || _)%bool eqn:Hr; [by eexists|].
  assert (0 <= Z.shiftr (y - 10) 2 < 7) as Hy.
  { rewrite Z.shiftr_div_pow2 by lia. Z.to_euclidean_division_equations. lia. }
  assert (∀ rows : list Z, length rows = 7%nat →
    is_Some (rows !! Z.to_nat (Z.shiftr (y - 10) 2))) as Hrows.
  { intros rows Hl. apply lookup_lt_is_Some. lia. }
  case_bool_decide.
  - destruct (Hrows letter_l) as [r ->]; [done|by eexists].
  - destruct (Hrows letter_r) as [r ->]; [done|by eexists].
Qed.

Lemma exword_sublcd_pad_pixel_defined x y : is_Some (exword_sublcd_pad_pixel x y).
Proof.
  unfold exword_sublcd_pad_pixel.
  destruct (_ || _)%bool; [by eexists|]. destruct (pad_zone x y) as [[zone lx] ly].
  destruct (_ || _)%bool; [by eexists|]. destruct (exword_sublcd_arrow_pixel _ _ _); [by eexists|].
  destruct (exword_sublcd_letter_pixel_defined zone lx ly) as [b ->]. by eexists.
Qed.

Lemma pad_zone_local x y :
  0 <= x < EXWORD_SUBLCD_UI_WIDTH → 0 <= y < EXWORD_SUBLCD_UI_HEIGHT →
  0 <= (pad_zone x y).1.2 < 80 ∧ 0 <= (pad_zone x y).2 < 48.
Proof.
  unfold EXWORD_SUBLCD_UI_WIDTH, EXWORD_SUBLCD_UI_HEIGHT, pad_zone. intros Hx Hy.
  repeat case_match; simplify_eq/=; lia.
Qed.

Lemma adc_coordinate_exact a b :
  is_u 10 a → is_u 10 b → adc_coordinate a b = (a - b + 1023) / 2 ∧ is_u 10 (adc_coordinate a b).
Proof.
  unfold is_u. intros Ha Hb. unfold adc_coordinate.
  rewrite Z.shiftr_div_pow2 by lia. change (2 ^ 1) with 2.
  assert (0 <= (a - b + 1023) / 2 < 1024) as Hr
    by (Z.to_euclidean_division_equations; lia).
  assert (∀ x, 0 <= x < 1024 → Z.land (u16 x) 1023 = x) as Hland.
  { intros x Hx. rewrite u16_small by (unfold is_u; lia).
    change 1023 with (Z.ones 10). rewrite Z.land_ones, Z.mod_small; lia. }
  rewrite Hland by done. lia.
Qed.

(** ** Which registers the pen-GPIO diagnostic touches *)

(** Any device, instrumented with the list of addresses accessed. *)
#[export] Instance logged_mmio H `{Mmio H} : Mmio (H * list Z) := {
  raw_readb a h := let '(v, h') := raw_readb a h.1 in (v, (h', a :: h.2));
  raw_readw a h := let '(v, h') := raw_readw a h.1 in (v, (h', a :: h.2));
  raw_readl a h := let '(v, h') := raw_readl a h.1 in (v, (h', a :: h.2));
  raw_writeb a v h := (raw_writeb a v h.1, a :: h.2);
  raw_writew a v h := (raw_writew a v h.1, a :: h.2);
  raw_writel a v h := (raw_writel a v h.1, a :: h.2);
}.

(** The operation accesses only addresses that satisfy [P]. *)
Class Accesses {H A} `{Mmio H} (P : Z → Prop) (m : st (kst (H * list Z)) A) : Prop :=
  accesses : ∀ s, Forall P (k_hw s).2 → Forall P (k_hw (m s).2).2.

Section AccessInstances.
Context {H : Type} `{Mmio H} (P : Z → Prop).

#[export] Instance accesses_ret A (a : A) : Accesses P (mret a : st (kst (H * list Z)) A).
Proof. by intros s. Qed.
#[export] Instance accesses_bind A B (m : st (kst (H * list Z)) A)
    (f : A → st (kst (H * list Z)) B) :
  Accesses P m → (∀ a, Accesses P (f a)) → Accesses P (m ≫= f).
Proof.
  intros Hm Hf s Hs. unfold mbind, st_mbind. specialize (Hm s Hs).
  destruct (m s) as [a s']. by apply Hf.
Qed.
#[export] Instance accesses_if A (b : bool) (m1 m2 : st (kst (H * list Z)) A) :
  Accesses P m1 → Accesses P m2 → Accesses P (if b then m1 else m2).
Proof. by destruct b. Qed.
#[export] Instance accesses_get A (f : kst (H * list Z) → A) : Accesses P (st_get f).
Proof. by intros s. Qed.
Lemma accesses_readb a : P a → Accesses P (readb a : st (kst (H * list Z)) Z).
Proof.
  intros Ha s Hs. unfold readb. simpl. destruct (raw_readb a (k_hw s).1). by constructor.
Qed.
Lemma accesses_readw a : P a → Accesses P (readw a : st (kst (H * list Z)) Z).
Proof.
  intros Ha s Hs. unfold readw. simpl. destruct (raw_readw a (k_hw s).1). by constructor.
Qed.
Lemma accesses_writeb v a : P a → Accesses P (writeb v a : st (kst (H * list Z)) unit).
Proof. intros Ha s Hs. by constructor. Qed.
Lemma accesses_writew v a : P a → Accesses P (writew v a : st (kst (H * list Z)) unit).
Proof. intros Ha s Hs. by constructor. Qed.
End AccessInstances.

(** The ADC block and the clock-gate word that holds its gate. *)
Definition adc_or_clock (a : Z) : Prop :=
  0xa4610080 <= a <= 0xa461008f ∨ a = EXWORD_TOUCH_MSTPCR2 ∨ a = EXWORD_TOUCH_CPG_ID.
#[export] Instance adc_or_clock_dec a : Decision (adc_or_clock a).
Proof. unfold adc_or_clock. apply _. Defined.

#[export] Hint Resolve accesses_readb accesses_readw accesses_writeb accesses_writew
  : typeclass_instances.
#[export] Hint Extern 1 (¬ adc_or_clock _) =>
  solve [apply (bool_decide_unpack _); vm_compute; exact I] : typeclass_instances.

(** ** Theorems *)

(** A touch acts on the button drawn under it.  For a calibration that
    passed the sanity check (or none at all) and a 10-bit ADC sample, the
    coordinates computed from the sample lie on the pad, the zone the driver
    selects is the zone whose button [exword_sublcd_pad_pixel] paints at those
    coordinates, and that pixel is inside every glyph table it is read from. *)
Theorem touch_zone_matches_pad (t : touch) (s : exword_touch_sample) :
  (t_cal_valid t = true → exword_touch_calibration_sane (t_cal t) = true) →
  is_u 10 (sample_x s) → is_u 10 (sample_y s) →
  ∃ x y, 0 <= x < EXWORD_SUBLCD_UI_WIDTH ∧ 0 <= y < EXWORD_SUBLCD_UI_HEIGHT ∧
    exword_touch_sample_zone t s = (pad_zone x y).1.1 ∧
    is_Some (exword_sublcd_pad_pixel x y) ∧
    (t_cal_valid t = false →
     x = sample_x s * EXWORD_SUBLCD_UI_WIDTH / 1024 ∧
     y = sample_y s * EXWORD_SUBLCD_UI_HEIGHT / 1024) ∧
    (t_cal_valid t = true →
     x = Z.max 0 (Z.min (EXWORD_SUBLCD_UI_WIDTH - 1)
           (Z.quot ((sample_x s - x_origin (t_cal t)) * 256) (x_span (t_cal t)))) ∧
     y = Z.max 0 (Z.min (EXWORD_SUBLCD_UI_HEIGHT - 1)
           (Z.quot ((sample_y s - y_origin (t_cal t)) * 256) (y_span (t_cal t))))).
Proof.
  intros Hsane Hx Hy.
  exists (exword_touch_coordinate (t_cal_valid t) (sample_x s)
            (x_origin (t_cal t)) (x_span (t_cal t)) EXWORD_SUBLCD_UI_WIDTH),
         (exword_touch_coordinate (t_cal_valid t) (sample_y s)
            (y_origin (t_cal t)) (y_span (t_cal t)) EXWORD_SUBLCD_UI_HEIGHT).
  split; [|split; [|split; [|split; [|split]]]].
  - by apply exword_touch_coordinate_range.
  - by apply exword_touch_coordinate_range.
  - unfold exword_touch_sample_zone, pad_zone. by repeat case_match; simplify_eq/=.
  - apply exword_sublcd_pad_pixel_defined.
  - intros ->. by rewrite !exword_touch_coordinate_plain by done.
  - intros Hv. rewrite Hv in *. apply exword_touch_calibration_sane_spec in Hsane; [|done].
    split; apply exword_touch_coordinate_exact; try done; try lia;
      by eapply is_u_mono; [|eassumption].
Qed.

Lemma touch_zone_matches_pad_witness :
  let t := Touch (Calibration 96 880 832 7168) true true false true true true true
             0 EXWORD_TOUCH_NONE 0 0 0 (Sample 0 0) in
  exword_touch_sample_zone t (Sample 500 900) = EXWORD_TOUCH_UP ∧
  ∃ x y, 0 <= x < EXWORD_SUBLCD_UI_WIDTH ∧ 0 <= y < EXWORD_SUBLCD_UI_HEIGHT ∧
    exword_touch_sample_zone t (Sample 500 900) = (pad_zone x y).1.1.
Proof.
  intros t. split; [reflexivity|].
  destruct (touch_zone_matches_pad t (Sample 500 900)) as (x & y & Hx & Hy & Hz & _);
    [intros _; reflexivity|compute_dec|compute_dec|].
  by exists x, y.
Defined.

Section Sampling.
Context {H : Type} `{MmioOk H}.
Abbreviation K := (st (kst H)).

(** Every result of the operation satisfies [P]. *)
Definition returns {A} (P : A → Prop) (m : K A) : Prop := ∀ s, P (m s).1.

Lemma returns_bind {A B} (Q : A → Prop) (P : B → Prop) (m : K A) (f : A → K B) :
  returns Q m → (∀ a, Q a → returns P (f a)) → returns P (m ≫= f).
Proof.
  intros Hm Hf s. unfold mbind, st_mbind. specialize (Hm s).
  destruct (m s) as [a s']. by apply Hf.
Qed.

Lemma returns_any {A B} (P : B → Prop) (m : K A) (f : A → K B) :
  (∀ a, returns P (f a)) → returns P (m ≫= f).
Proof. intros Hf. apply (returns_bind (λ _, True)); [done|auto]. Qed.

Lemma returns_if {A} (P : A → Prop) (b : bool) (m1 m2 : K A) :
  returns P m1 → returns P m2 → returns P (if b then m1 else m2).
Proof. by destruct b. Qed.

Lemma returns_readw a : returns (is_u 16) (readw a).
Proof.
  intros s. unfold readw. pose proof (raw_readw_range a (k_hw s)).
  by destruct (raw_readw a (k_hw s)).
Qed.

(** What a sample that passes the plausibility test means for one axis: the
    two opposite conversions are 10-bit values that add up to full scale
    within 64 counts, and the coordinate is their average, at most 33 counts
    from the direct reading. *)
Definition axis_ok (coord : Z) : Prop :=
  ∃ pos neg, is_u 10 pos ∧ is_u 10 neg ∧ Z.abs (1023 - pos - neg) <= 64 ∧
    coord = (pos - neg + 1023) / 2 ∧ is_u 10 coord ∧ Z.abs (coord - pos) <= 33.

Lemma axis_ok_intro pos neg :
  is_u 16 pos → is_u 16 neg →
  adc_pair_ok (Z.shiftr neg 6) (Z.shiftr pos 6) = true →
  axis_ok (adc_coordinate (Z.shiftr pos 6) (Z.shiftr neg 6)).
Proof.
  intros Hp%(shiftr_range' 16 _ 6) Hn%(shiftr_range' 16 _ 6) Hok; [|lia..].
  change (16 - 6) with 10 in *.
  destruct (adc_coordinate_exact _ _ Hp Hn) as [Hc Hr].
  exists (Z.shiftr pos 6), (Z.shiftr neg 6).
  revert Hp Hn Hok Hc Hr. generalize (Z.shiftr pos 6) (Z.shiftr neg 6).
  intros p n Hp Hn Hok Hc Hr. unfold adc_pair_ok in Hok. unfold is_u in Hp, Hn.
  rewrite exword_small_abs_eq in Hok by lia. to_prop.
  split; [done|]. split; [done|]. split; [lia|]. split; [done|]. split; [done|].
  rewrite Hc. Z.to_euclidean_division_equations. lia.
Qed.

(** The ADC sequence returns only plausible samples.  Whatever the
    hardware answers, a sample that [exword_touch_read_adc] returns has two
    10-bit coordinates, each the average of two opposite conversions that
    agree within 64 counts; everything else is reported as no sample. *)
Theorem read_adc_plausible (s : kst H) :
  match (exword_touch_read_adc s).1 with
  | Some sample => axis_ok (sample_x sample) ∧ axis_ok (sample_y sample)
  | None => True
  end.
Proof.
  revert s. change (returns (λ o, match o with
    | Some sample => axis_ok (sample_x sample) ∧ axis_ok (sample_y sample)
    | None => True end) (exword_touch_read_adc (H := H))).
  unfold exword_touch_read_adc.
  repeat first
    [ apply (returns_bind (is_u 16)); [apply returns_readw|intros ? ?]
    | apply returns_any; intros ?
    | apply returns_if; [by intros ?|] | progress cbv zeta ].
  intros s. cbn [mret st_mret fst].
  destruct (adc_pair_ok _ _ && adc_pair_ok _ _)%bool eqn:Hok; [|done].
  apply andb_prop in Hok as [Hpair1 Hpair2]. split; by apply axis_ok_intro.
Qed.
End Sampling.

(** The ADC unit of the witness: full-scale readings at one third and two
    thirds on both axes. *)
Definition sample_regs : fixed_regs := FixedRegs (λ a,
  if (a =? EXWORD_TOUCH_ADDRB) || (a =? EXWORD_TOUCH_ADDRD) then Z.shiftl 341 6
  else if (a =? EXWORD_TOUCH_ADDRA) || (a =? EXWORD_TOUCH_ADDRC) then Z.shiftl 682 6
  else 0).

Lemma read_adc_plausible_witness :
  let s := exword_initial sample_regs in
  (exword_touch_read_adc s).1 = Some (Sample 682 682) ∧ axis_ok 682.
Proof.
  intros s. assert ((exword_touch_read_adc s).1 = Some (Sample 682 682)) as E by reflexivity.
  split; [exact E|]. pose proof (read_adc_plausible s) as Hp. rewrite E in Hp. apply Hp.
Defined.

(** ** The pen-GPIO diagnostic and the LCD *)

Section Registers.
Context {H : Type} `{Mmio H}.

Lemma prepare_gpio_accesses :
  Accesses (λ a, ¬ adc_or_clock a)
    (exword_touch_prepare_gpio_hardware : st (kst (H * list Z)) bool).
Proof.
  unfold exword_touch_prepare_gpio_hardware, exword_touch_base_pfc,
    exword_touch_read_pen_level, exword_touch_base_pfc.
  simpl pen_samples. unfold pen_samples.
  typeclasses eauto.
Qed.

End Registers.

(** The display on any bus: it samples the data/command line, bit 2 of the
    port register, on every write to its data port. *)
Record panel (H : Type) := Panel {
  p_bus : H;
  p_prdr : Z;
  p_stream : list (bool * Z);  (** [(is_data, value)], newest first *)
}.
Arguments Panel {H}.
Arguments p_bus {H}.
Arguments p_prdr {H}.
Arguments p_stream {H}.

#[export] Instance panel_mmio H `{Mmio H} : Mmio (panel H) := {
  raw_readb a p :=
    if a =? EXWORD_SUBLCD_PRDR then (p_prdr p, p)
    else let '(v, h) := raw_readb a (p_bus p) in (v, Panel h (p_prdr p) (p_stream p));
  raw_readw a p :=
    let '(v, h) := raw_readw a (p_bus p) in (v, Panel h (p_prdr p) (p_stream p));
  raw_readl a p :=
    let '(v, h) := raw_readl a (p_bus p) in (v, Panel h (p_prdr p) (p_stream p));
  raw_writeb a v p :=
    if a =? EXWORD_SUBLCD_PRDR then Panel (p_bus p) v (p_stream p)
    else Panel (raw_writeb a v (p_bus p)) (p_prdr p) (p_stream p);
  raw_writew a v p :=
    if a =? EXWORD_SUBLCD_DATA
    then Panel (p_bus p) (p_prdr p) ((Z.testbit (p_prdr p) 2, v) :: p_stream p)
    else Panel (raw_writew a v (p_bus p)) (p_prdr p) (p_stream p);
  raw_writel a v p := Panel (raw_writel a v (p_bus p)) (p_prdr p) (p_stream p);
}.

(** What the display must receive for row [y]: the horizontal window and
    address, the vertical ones, and the 244 pixels of the row. *)
Definition row_stream (y : Z) : list (bool * Z) :=
  [(false, 0x21); (true, 6); (false, 0x52); (true, 6); (false, 0x53); (true, 249);
   (false, 0x20); (true, y); (false, 0x50); (true, y); (false, 0x51); (true, y);
   (false, 0x22)] ++
  ((λ x, (true, default 0 (exword_sublcd_pad_pixel (Z.of_nat x) y))) <$> seq 0 244).

Section Panel.
Context {H : Type} `{Mmio H}.
Abbreviation K := (st (kst (panel H))).

(** [m] sends [out] to the display, leaves its data line high and nothing
    else of the driver changed. *)
Definition sends (out : list (bool * Z)) (s s' : kst (panel H)) : Prop :=
  p_stream (k_hw s') = reverse out ++ p_stream (k_hw s) ∧
  Z.testbit (p_prdr (k_hw s')) 2 = true ∧ k_lcd s' = k_lcd s.

Lemma sends_trans o1 o2 s1 s2 s3 :
  sends o1 s1 s2 → sends o2 s2 s3 → sends (o1 ++ o2) s1 s3.
Proof.
  intros (E1 & _ & L1) (E2 & D2 & L2). repeat split; [|done|congruence].
  rewrite E2, E1, reverse_app. by rewrite (assoc (++)).
Qed.

Lemma sends_command c s : sends [(false, c)] s (exword_sublcd_command c s : _ * _).2.
Proof.
  unfold sends, exword_sublcd_command, mbind, st_mbind, readb, writeb, writew, st_upd.
  cbn [raw_readb raw_writeb raw_writew panel_mmio k_hw set_k_hw].
  rewrite !Z.eqb_refl. cbn [k_hw set_k_hw p_prdr p_stream fst snd k_lcd].
  cbn [p_prdr p_stream reverse rev_append app].
  rewrite Z.land_spec, Z.lor_spec, Z.lnot_spec by lia.
  change (Z.testbit EXWORD_SUBLCD_DC 2) with true. cbn [negb].
  by rewrite andb_false_r, orb_true_r.
Qed.

Lemma sends_data v s :
  Z.testbit (p_prdr (k_hw s)) 2 = true → sends [(true, v)] s (exword_sublcd_data v s : _ * _).2.
Proof.
  intros Hd. unfold sends, exword_sublcd_data, writew, st_upd.
  cbn [raw_writew panel_mmio k_hw set_k_hw fst snd]. rewrite Z.eqb_refl.
  cbn [p_prdr p_stream k_lcd]. by rewrite Hd.
Qed.

Lemma sends_bind {A B} o1 o2 (m : K A) (f : A → K B) s :
  sends o1 s (m s).2 → (∀ a s', Z.testbit (p_prdr (k_hw s')) 2 = true → sends o2 s' (f a s').2) →
  sends (o1 ++ o2) s ((m ≫= f) s).2.
Proof.
  intros Hm Hf. rewrite st_bind_eq. eapply sends_trans; [exact Hm|].
  apply Hf, Hm.
Qed.

Lemma sends_cons {A B} o1 o2 (m : K A) (f : A → K B) s :
  sends [o1] s (m s).2 → (∀ a s', Z.testbit (p_prdr (k_hw s')) 2 = true → sends o2 s' (f a s').2) →
  sends (o1 :: o2) s ((m ≫= f) s).2.
Proof. apply (sends_bind [o1] o2). Qed.

Lemma sends_set_row y s : sends (take 13 (row_stream y)) s (exword_sublcd_set_row y s).2.
Proof.
  unfold exword_sublcd_set_row. change (6 + EXWORD_SUBLCD_WIDTH - 1) with 249.
  unfold row_stream. rewrite take_app_le by done. cbn [take].
  repeat (apply sends_cons;
    [first [apply sends_command|by apply sends_data]|intros ???]).
  apply sends_command.
Qed.

Lemma sends_pixels n x y s :
  Z.testbit (p_prdr (k_hw s)) 2 = true →
  sends ((λ i, (true, default 0 (exword_sublcd_pad_pixel (Z.of_nat i) y))) <$> seq x n) s
    (draw_pixels n (Z.of_nat x) y s).2.
Proof.
  revert x s. induction n as [|n IH]; intros x s Hd; [done|].
  cbn [draw_pixels seq fmap list_fmap]. apply sends_cons; [by apply sends_data|].
  intros _ s' Hd'. replace (Z.of_nat x + 1) with (Z.of_nat (S x)) by lia. by apply IH.
Qed.

Lemma sends_row y s :
  sends (row_stream y) s
    ((exword_sublcd_set_row y;; draw_pixels (Z.to_nat EXWORD_SUBLCD_WIDTH) 0 y) s).2.
Proof.
  rewrite <- (take_drop 13 (row_stream y)). apply sends_bind; [apply sends_set_row|].
  intros _ s' Hd. apply (sends_pixels 244 0). done.
Qed.

(** One call while the pad is being drawn. *)
Lemma draw_next_row_step y s :
  k_lcd s = Lcd true true y false → 0 <= y < 99 →
  (exword_sublcd_draw_next_row s).1 = true ∧
  p_stream (k_hw (exword_sublcd_draw_next_row s).2)
  = reverse (row_stream y) ++ p_stream (k_hw s) ∧
  k_lcd (exword_sublcd_draw_next_row s).2 = Lcd true true (y + 1) (y + 1 =? 99).
Proof.
  intros Hl Hy. pose proof (sends_row y s) as (Es & _ & El).
  revert Es El.
  unfold exword_sublcd_draw_next_row, mbind, st_mbind, get_lcd, st_get, upd_lcd, st_upd,
    mret, st_mret, id, u32.
  cbn beta iota zeta. rewrite Hl. cbn [l_next_row l_finished l_enabled l_supported orb negb].
  cbn beta iota. rewrite Z.mod_small by lia.
  destruct (exword_sublcd_set_row y s) as [[] s1].
  destruct (draw_pixels _ 0 y s1) as [[] s2]. cbn [snd]. intros Es El. rewrite El.
  change EXWORD_SUBLCD_HEIGHT with 99. by destruct (Z.eqb_spec (y + 1) 99) as [->|].
Qed.
End Panel.

Section PanelTheorem.
Context {H : Type} `{Mmio H}.

Fixpoint draw_rows (n : nat) (s : kst (panel H)) : kst (panel H) :=
  match n with
  | O => s
  | S n' => draw_rows n' (exword_sublcd_draw_next_row s).2
  end.

Lemma draw_rows_stream n y s :
  k_lcd s = Lcd true true y false → 0 <= y → y + Z.of_nat n = 99 → (0 < n)%nat →
  k_lcd (draw_rows n s) = Lcd true true 99 true ∧
  p_stream (k_hw (draw_rows n s))
  = reverse (concat ((λ i, row_stream (y + Z.of_nat i)) <$> seq 0 n)) ++ p_stream (k_hw s).
Proof.
  revert y s. induction n as [|n IH]; intros y s Hl Hy Hn Hpos; [lia|].
  destruct (draw_next_row_step y s Hl) as (_ & Es & El); [lia|].
  cbn [draw_rows seq fmap list_fmap concat]. rewrite Z.add_0_r, reverse_app.
  destruct (decide (n = 0%nat)) as [->|Hn0].
  - assert (y = 98) as -> by lia. cbn [draw_rows seq fmap list_fmap concat].
    by rewrite El, Es.
  - destruct (Z.eqb_spec (y + 1) 99) in El; [lia|].
    destruct (IH (y + 1) _ El) as [El' Es']; [lia..|]. split; [done|].
    rewrite Es', Es, (assoc (++)). do 3 f_equal.
    rewrite <- fmap_S_seq, <- list_fmap_compose. f_equal.
    apply list_fmap_ext. intros _ i _. cbn [compose]. f_equal. lia.
Qed.

(** The pad is drawn completely and once.  From the state in which the
    service routine switches the display on, 99 calls of
    [exword_sublcd_draw_next_row] send the display exactly the window commands
    and the 244 pixels of the rows 0 to 98 in order, commands with the
    data line low and parameters and pixels with it high; every further call
    sends nothing and leaves the state alone. *)
Theorem lcd_drawn_once (s : kst (panel H)) :
  k_lcd s = Lcd true true 0 false →
  let s' := draw_rows 99 s in
  p_stream (k_hw s')
  = reverse (concat ((λ y, row_stream (Z.of_nat y)) <$> seq 0 99)) ++ p_stream (k_hw s) ∧
  exword_sublcd_draw_next_row s' = (false, s').
Proof.
  intros Hl s'. destruct (draw_rows_stream 99 0 s Hl) as [El Es]; [lia..|].
  split; [exact Es|]. unfold exword_sublcd_draw_next_row, mbind, st_mbind, get_lcd, st_get.
  cbn beta iota zeta. fold s' in El. by rewrite El.
Qed.
End PanelTheorem.

Lemma lcd_drawn_once_witness :
  let s := set_k_lcd (Lcd true true 0 false)
             (exword_initial (Panel (λ _ : Z, 0) 0 [])) in
  k_lcd s = Lcd true true 0 false ∧
  p_stream (k_hw (draw_rows 99 s))
  = reverse (concat ((λ y, row_stream (Z.of_nat y)) <$> seq 0 99)) ++ [].
Proof. intros s. split; [reflexivity|]. apply (lcd_drawn_once s). reflexivity. Defined.
