(* ===== verification/Keypad.v ===== *)
(** * Keypad driver: scanning, pointer emulation, the polling thread and probe
    ([src/kernel/overlay/drivers/input/keyboard/exword-keypad.c])

    [exword_scan_once] is translated whole; the polling thread is the step
    [exword_scan_thread_step], its states are reached from the state
    [exword_prime_scanner] leaves.  The main theorem of the file is that no
    key or button is ever left pressed in the input core. *)

From S2P Require Import Prelude KeypadState TouchPad.

(** ** Pure functions *)

(** The word index and the bit of a scan code in the six KIUDATA words. *)
Definition scan_word (scan : Z) : Z := Z.shiftr (scan mod 10) 1.
Definition scan_bit (scan : Z) : Z :=
  u32 (scan / 10 - 1) + 8 * Z.land (scan mod 10) 1.

Definition exword_key_down (state : list Z) (scan : Z) : bool :=
  negb (Z.land (state !!! Z.to_nat (scan_word scan)) (Z.shiftl 1 (scan_bit scan)) =? 0).

Definition exword_mouse_action_scan (scan : Z) : bool :=
  (scan =? 64) || (scan =? 75) || (scan =? 76) || (scan =? 77) ||
  (scan =? 86) || (scan =? 87) || (scan =? 88).

(** [None] stands for 0, which is no button. *)
Definition exword_mouse_button (scan : Z) : option keycode :=
  if scan =? 76 then Some BTN_LEFT
  else if scan =? 64 then Some BTN_MIDDLE
  else if scan =? 75 then Some BTN_RIGHT
  else None.

Definition exword_pointer_button_index (button : keycode) : Z :=
  match button with
  | BTN_LEFT => 0
  | BTN_MIDDLE => 1
  | BTN_RIGHT => 2
  | _ => -1
  end.

(** ** Input operations *)

Section Keypad.
Context {H : Type} `{Mmio H}.
Abbreviation K := (st (kst H)).

Fixpoint read_words (n : nat) (i : Z) : K (list Z) :=
  match n with
  | O => mret []
  | S n' =>
      w ← readw (EXWORD_KEYPAD_BASE + i * 2);
      ws ← read_words n' (i + 1);
      mret (w :: ws)
  end.

Definition exword_read_state : K (list Z) := read_words 6 0.

(** The drain loop: [passes] reads, the last one is kept. *)
Fixpoint prime_reads (passes : nat) (sample : list Z) : K (list Z) :=
  match passes with
  | O => mret sample
  | S passes' => sample' ← exword_read_state; prime_reads passes' sample'
  end.

Definition exword_prime_scanner : K unit :=
  sample ← prime_reads (Z.to_nat EXWORD_PRIME_READS) (replicate 6 0);
  st_upd (set_k_raw sample);;
  upd_in (set_k_down ((λ k, exword_key_down sample (scan k)) <$> exword_keys)).

Definition exword_report_enter_tap : K unit :=
  input_report_key exword_input KEY_ENTER true;;
  input_sync exword_input;;
  input_report_key exword_input KEY_ENTER false;;
  input_sync exword_input.

Definition exword_set_pointer_button (button : keycode) (source : Z) (down : bool)
    : K bool :=
  let index := exword_pointer_button_index button in
  if index <? 0 then mret false
  else
    sources ← get_in k_sources;
    let previous := sources !!! Z.to_nat index in
    let now := if down then Z.lor previous source
               else u8 (Z.land previous (Z.lnot source)) in
    upd_in (set_k_sources (<[Z.to_nat index := now]> sources));;
    if bool_decide (negb (previous =? 0) = negb (now =? 0)) then mret false
    else
      input_report_key exword_pointer button (negb (now =? 0));;
      input_sync exword_pointer;;
      mret true.

Definition exword_release_keypad_mouse_buttons : K unit :=
  exword_set_pointer_button BTN_LEFT EXWORD_POINTER_SOURCE_KEYPAD false;;
  exword_set_pointer_button BTN_MIDDLE EXWORD_POINTER_SOURCE_KEYPAD false;;
  exword_set_pointer_button BTN_RIGHT EXWORD_POINTER_SOURCE_KEYPAD false;;
  mret tt.

Definition exword_release_mouse_keys_from_keyboard : K unit :=
  input_report_key exword_input KEY_UP false;;
  input_report_key exword_input KEY_DOWN false;;
  input_report_key exword_input KEY_LEFT false;;
  input_report_key exword_input KEY_RIGHT false;;
  input_report_key exword_input KEY_ENTER false;;
  input_report_key exword_input KEY_EQUAL false;;
  input_report_key exword_input KEY_LEFTCTRL false;;
  input_sync exword_input.

Definition exword_toggle_mouse_mode : K unit :=
  mode ← get_in k_mouse_mode;
  upd_in (set_k_mouse_mode (negb mode));;
  st_upd (set_k_repeat_scans 0);;
  if negb mode then exword_release_mouse_keys_from_keyboard
  else exword_release_keypad_mouse_buttons.

Definition exword_report_pointer_motion (state : list Z) : K bool :=
  let dx := (if exword_key_down state 87 then - EXWORD_MOUSE_STEP else 0)
            + (if exword_key_down state 88 then EXWORD_MOUSE_STEP else 0) in
  let dy := (if exword_key_down state 77 then - EXWORD_MOUSE_STEP else 0)
            + (if exword_key_down state 86 then EXWORD_MOUSE_STEP else 0) in
  if (dx =? 0) && (dy =? 0) then mret false
  else
    input_report_rel REL_X dx;;
    input_report_rel REL_Y dy;;
    input_sync exword_pointer;;
    mret true.

Definition exword_touch_report_motion (zone : exword_touch_zone) : K bool :=
  let report dx dy :=
    input_report_rel REL_X dx;;
    input_report_rel REL_Y dy;;
    input_sync exword_pointer;;
    mret true in
  match zone with
  | EXWORD_TOUCH_LEFT => report (- EXWORD_TOUCH_MOUSE_STEP) 0
  | EXWORD_TOUCH_UP => report 0 (- EXWORD_TOUCH_MOUSE_STEP)
  | EXWORD_TOUCH_RIGHT => report EXWORD_TOUCH_MOUSE_STEP 0
  | EXWORD_TOUCH_DOWN => report 0 EXWORD_TOUCH_MOUSE_STEP
  | _ => mret false
  end.

Definition exword_touch_activate_zone (zone : exword_touch_zone) : K bool :=
  match zone with
  | EXWORD_TOUCH_BUTTON_LEFT =>
      exword_set_pointer_button BTN_LEFT EXWORD_POINTER_SOURCE_TOUCH true
  | EXWORD_TOUCH_BUTTON_RIGHT =>
      exword_set_pointer_button BTN_RIGHT EXWORD_POINTER_SOURCE_TOUCH true
  | _ => exword_touch_report_motion zone
  end.

Definition exword_touch_release_active : K bool :=
  active ← get_in k_active;
  activity ← (match active with
              | EXWORD_TOUCH_BUTTON_LEFT =>
                  exword_set_pointer_button BTN_LEFT EXWORD_POINTER_SOURCE_TOUCH false
              | EXWORD_TOUCH_BUTTON_RIGHT =>
                  exword_set_pointer_button BTN_RIGHT EXWORD_POINTER_SOURCE_TOUCH false
              | _ => mret false
              end);
  upd_in (set_k_active EXWORD_TOUCH_NONE);;
  upd_touch (set_t_repeat_polls 0);;
  mret activity.

Definition exword_service_subpad_mode : K unit :=
  requested ← st_get k_subpad_mode;
  applied_mode ← st_get k_applied_mode;
  let mode := if requested <? 0 then 0 else Z.land requested 7 in
  let want_lcd := Z.testbit mode 0 in
  let want_touch := Z.testbit mode 1 in
  let want_pen_probe := Z.testbit mode 2 in
  if mode =? applied_mode then mret tt
  else
    enabled ← get_touch t_enabled;
    (if negb want_touch && enabled then
       upd_touch (set_t_enabled false);;
       exword_touch_release_active;;
       upd_touch (set_t_poll_scans 0);;
       upd_touch (set_t_candidate EXWORD_TOUCH_NONE);;
       upd_touch (set_t_candidate_samples 0);;
       upd_touch (set_t_release_samples 0);;
       upd_touch (set_t_repeat_polls 0)
     else mret tt);;
    l ← get_lcd id;
    (if want_lcd && negb (l_enabled l) then
       upd_lcd (set_l_next_row 0);; upd_lcd (set_l_finished false)
     else mret tt);;
    upd_lcd (set_l_enabled (want_lcd && l_supported l));;
    gpio_prepared ← get_touch t_gpio_prepared;
    (if want_pen_probe && negb gpio_prepared then
       upd_touch (set_t_gpio_prepared true);;
       exword_touch_prepare_gpio_hardware;;
       mret tt
     else mret tt);;
    (if want_touch then
       prepared ← get_touch t_prepared;
       if negb prepared then
         upd_touch (set_t_prepared true);;
         ok ← exword_touch_prepare_hardware;
         upd_touch (set_t_enabled ok);;
         if ok : bool then upd_touch (set_t_gpio_prepared true) else mret tt
       else
         available ← get_touch t_available;
         upd_touch (set_t_enabled available)
     else mret tt);;
    st_upd (set_k_applied_mode mode).

(** No sample: the pen is up. *)
Definition poll_lifted (active : exword_touch_zone) : K bool :=
  upd_touch (set_t_candidate EXWORD_TOUCH_NONE);;
  upd_touch (set_t_candidate_samples 0);;
  if bool_decide (active = EXWORD_TOUCH_NONE) then mret false
  else
    misses ← get_touch t_release_samples;
    upd_touch (set_t_release_samples (u32 (misses + 1)));;
    if EXWORD_TOUCH_RELEASE_DEBOUNCE <=? u32 (misses + 1) then
      upd_touch (set_t_release_samples 0);;
      exword_touch_release_active
    else mret false.

(** The pen is down and a zone is active. *)
Definition poll_latched (active : exword_touch_zone) (repeat_polls : Z) : K bool :=
  if negb (bool_decide (active = EXWORD_TOUCH_BUTTON_LEFT)) &&
     negb (bool_decide (active = EXWORD_TOUCH_BUTTON_RIGHT)) then
    upd_touch (set_t_repeat_polls (u32 (repeat_polls + 1)));;
    if EXWORD_TOUCH_REPEAT_POLLS <=? u32 (repeat_polls + 1) then
      upd_touch (set_t_repeat_polls 0);;
      exword_touch_report_motion active
    else mret false
  else mret false.

(** The pen is down and no zone is active yet; [t]: the statics. *)
Definition poll_settling (t : touch) (zone : exword_touch_zone) (sample : exword_touch_sample) :
    K bool :=
  let last := t_candidate_sample t in
  let samples :=
    if negb (bool_decide (zone = t_candidate t))
       || (exword_small_abs (sample_x sample - sample_x last) >? 96)
       || (exword_small_abs (sample_y sample - sample_y last) >? 96)
    then 1 else u32 (t_candidate_samples t + 1) in
  upd_touch (set_t_candidate zone);;
  upd_touch (set_t_candidate_samples samples);;
  upd_touch (set_t_candidate_sample sample);;
  if samples <? EXWORD_TOUCH_DEBOUNCE then mret false
  else
    upd_in (set_k_active zone);;
    upd_touch (set_t_candidate EXWORD_TOUCH_NONE);;
    upd_touch (set_t_candidate_samples 0);;
    upd_touch (set_t_repeat_polls 0);;
    exword_touch_activate_zone zone.

Definition exword_touch_poll : K bool :=
  sample ← exword_touch_read_sample;
  active ← get_in k_active;
  match sample with
  | None => poll_lifted active
  | Some sample =>
      upd_touch (set_t_release_samples 0);;
      t ← get_touch id;
      let zone := exword_touch_sample_zone t sample in
      upd_touch (set_t_first_reported true);;
      if negb (bool_decide (active = EXWORD_TOUCH_NONE)) then poll_latched active (t_repeat_polls t)
      else poll_settling t zone sample
  end.

(** ** The scanner *)

(** The locals of [exword_scan_once] that its key loop updates. *)
Record scan_flags := Flags { f_activity : bool; f_edge : bool; f_sync : bool }.

Definition key_activity (f : scan_flags) : scan_flags := Flags true (f_edge f) (f_sync f).

(** The body of the key loop for the key at index [i]. *)
Definition scan_key (sample : list Z) (i : nat) (k : exword_key) (f : scan_flags)
    : K scan_flags :=
  let down := exword_key_down sample (scan k) in
  was ← get_in (λ s, k_down s !!! i);
  if Bool.eqb down was then mret f
  else
    upd_in (λ s, set_k_down (<[i := down]> (k_down s)) s);;
    mouse_mode ← get_in k_mouse_mode;
    if scan k =? EXWORD_MOUSE_TOGGLE_SCAN then
      (if down then exword_toggle_mouse_mode else mret tt);;
      mret (key_activity f)
    else if mouse_mode && exword_mouse_action_scan (scan k) then
      match exword_mouse_button (scan k) with
      | Some button =>
          exword_set_pointer_button button EXWORD_POINTER_SOURCE_KEYPAD down;;
          mret (key_activity f)
      | None => mret (Flags true (f_edge f || down) (f_sync f))
      end
    else if bool_decide (code k = KEY_ENTER) then
      seen ← get_in k_enter_seen;
      (if down || negb seen then exword_report_enter_tap else mret tt);;
      upd_in (set_k_enter_seen down);;
      mret (key_activity f)
    else
      input_report_key exword_input (code k) down;;
      mret (Flags true (f_edge f) true).

Fixpoint scan_keys (sample : list Z) (i : nat) (ks : list exword_key) (f : scan_flags)
    : K scan_flags :=
  match ks with
  | [] => mret f
  | k :: ks' => f' ← scan_key sample i k f; scan_keys sample (S i) ks' f'
  end.

Definition open_keysc_gate : K unit :=
  mstp0 ← readl EXWORD_MSTPCR0;
  if Z.testbit mstp0 EXWORD_KEYSC_MSTP_BIT then
    writel (Z.clearbit mstp0 EXWORD_KEYSC_MSTP_BIT) EXWORD_MSTPCR0
  else mret tt.

(** The repeat of a held direction key in pointer mode. *)
Definition scan_repeat (sample : list Z) (edge : bool) : K bool :=
  mouse_mode ← get_in k_mouse_mode;
  if negb mouse_mode then st_upd (set_k_repeat_scans 0);; mret false
  else
    let held := exword_key_down sample 77 || exword_key_down sample 86 ||
                exword_key_down sample 87 || exword_key_down sample 88 in
    if negb held then st_upd (set_k_repeat_scans 0);; mret false
    else
      n ← st_get k_repeat_scans;
      let n' := if edge then n else u32 (n + 1) in
      st_upd (set_k_repeat_scans n');;
      if edge || (EXWORD_MOUSE_REPEAT_SCANS <=? n') then
        st_upd (set_k_repeat_scans 0);;
        exword_report_pointer_motion sample
      else mret false.

Definition scan_touch : K bool :=
  enabled ← get_touch t_enabled;
  if negb enabled then upd_touch (set_t_poll_scans 0);; mret false
  else
    n ← get_touch t_poll_scans;
    upd_touch (set_t_poll_scans (u32 (n + 1)));;
    if EXWORD_TOUCH_POLL_SCANS <=? u32 (n + 1) then
      upd_touch (set_t_poll_scans 0);;
      exword_touch_poll
    else mret false.

Definition exword_scan_once : K bool :=
  open_keysc_gate;;
  sample ← exword_read_state;
  raw ← st_get k_raw;
  (if bool_decide (sample = raw) then mret tt else st_upd (set_k_raw sample));;
  f ← scan_keys sample 0 exword_keys (Flags false false false);
  (if f_sync f then input_sync exword_input else mret tt);;
  moved ← scan_repeat sample (f_edge f);
  touched ← scan_touch;
  mret (f_activity f || moved || touched).

(** One turn of the thread's loop; [burst] is its local. *)
Definition exword_scan_thread_step (burst : Z) : K Z :=
  activity ← exword_scan_once;
  if activity || (u32 (burst + 1) =? EXWORD_POLL_BURST) then
    exword_service_subpad_mode;;
    exword_sublcd_draw_next_row;;
    mret 0
  else mret (u32 (burst + 1)).
End Keypad.

(** ** Probe *)

(** What the kernel answers: whether the clock exists, the error codes of the
    calls that return one (0 is success), whether the allocations succeed. *)
Record init_env := InitEnv {
  e_clk_get_sys : bool;
  e_clk_prepare_enable : Z;
  e_allocate_input : bool;
  e_allocate_pointer : bool;
  e_register_input : Z;
  e_register_pointer : Z;
  e_kthread_run : Z;
}.

(** The calls that acquire or release something, with their success. *)
Inductive init_call : Type :=
| clk_get_sys (ok : bool)
| clk_prepare_enable (ok : bool)
| clk_disable_unprepare
| clk_put
| input_allocate_device (d : device) (ok : bool)
| input_free_device (d : device)
| input_register_device (d : device) (ok : bool)
| input_unregister_device (d : device)
| kthread_run (ok : bool).

(** The clock part; the result says whether [exword_keysc_clk] is set. *)
Definition init_clock (e : init_env) : bool * list init_call :=
  if negb (e_clk_get_sys e) then (false, [clk_get_sys false])
  else if negb (e_clk_prepare_enable e =? 0) then
    (false, [clk_get_sys true; clk_prepare_enable false; clk_put])
  else (true, [clk_get_sys true; clk_prepare_enable true]).

Definition ENOMEM : Z := 12.

(** The input devices and the thread: the return value and the calls. *)
Definition init_devices (e : init_env) (clk : bool) : Z * list init_call :=
  let release_clk := if clk then [clk_disable_unprepare; clk_put] else [] in
  if negb (e_allocate_input e) then
    (- ENOMEM, [input_allocate_device exword_input false] ++ release_clk)
  else if negb (e_allocate_pointer e) then
    (- ENOMEM, [input_allocate_device exword_input true;
                input_allocate_device exword_pointer false;
                input_free_device exword_input] ++ release_clk)
  else
    let allocated := [input_allocate_device exword_input true;
                      input_allocate_device exword_pointer true] in
    if negb (e_register_input e =? 0) then
      (e_register_input e,
       allocated ++ [input_register_device exword_input false;
                     input_free_device exword_input;
                     input_free_device exword_pointer] ++ release_clk)
    else if negb (e_register_pointer e =? 0) then
      (e_register_pointer e,
       allocated ++ [input_register_device exword_input true;
                     input_register_device exword_pointer false;
                     input_free_device exword_pointer;
                     input_unregister_device exword_input] ++ release_clk)
    else if negb (e_kthread_run e =? 0) then
      (e_kthread_run e,
       allocated ++ [input_register_device exword_input true;
                     input_register_device exword_pointer true;
                     kthread_run false;
                     input_unregister_device exword_pointer;
                     input_unregister_device exword_input] ++ release_clk)
    else
      (0, allocated ++ [input_register_device exword_input true;
                        input_register_device exword_pointer true;
                        kthread_run true]).

(** [exword_keypad_init]: the clock, the register set-up and the priming of
    the scanner, then the devices. *)
Definition exword_keypad_init {H} `{Mmio H} (e : init_env)
    : st (kst H) (Z * list init_call) :=
  let '(clk, calls) := init_clock e in
  mstp0 ← readl EXWORD_MSTPCR0;
  writel (Z.land mstp0 (Z.lnot (Z.shiftl 1 EXWORD_KEYSC_MSTP_BIT))) EXWORD_MSTPCR0;;
  exword_touch_load_firmware_setup;;
  exword_prime_scanner;;
  let '(error, calls') := init_devices e clk in
  mret (error, calls ++ calls').

(** ** The reported state and its invariant *)

Lemma reported_key d c d' c' v ev :
  reported d c (KeyEvent d' c' v :: ev)
  = if bool_decide (d' = d ∧ c' = c) then v else reported d c ev.
Proof. simpl. by case_decide; case_bool_decide. Qed.
Lemma reported_rel d c a v ev : reported d c (RelEvent a v :: ev) = reported d c ev.
Proof. done. Qed.
Lemma reported_sync d c d' ev : reported d c (SyncEvent d' :: ev) = reported d c ev.
Proof. done. Qed.

(** A key of the table is held according to the last scan. *)
Definition key_held (i : inputs) (sc : Z) : Prop :=
  ∃ j k, exword_keys !! j = Some k ∧ scan k = sc ∧ k_down i !! j = Some true.

Definition button_scan (b : keycode) : Z :=
  match b with BTN_LEFT => 76 | BTN_MIDDLE => 64 | _ => 75 end.
Definition button_zone (b : keycode) : option exword_touch_zone :=
  match b with
  | BTN_LEFT => Some EXWORD_TOUCH_BUTTON_LEFT
  | BTN_RIGHT => Some EXWORD_TOUCH_BUTTON_RIGHT
  | _ => None
  end.
Definition is_button (b : keycode) : Prop :=
  b = BTN_LEFT ∨ b = BTN_MIDDLE ∨ b = BTN_RIGHT.
(** The sources that hold a pointer button down. *)
Definition src (i : inputs) (b : keycode) : Z :=
  k_sources i !!! Z.to_nat (exword_pointer_button_index b).

(** The buttons: [kp b] allows the keypad to hold [b], [tb b] says whether the
    panel holds it; the reported level is the union of the two sources. *)
Record button_ok (kp : keycode → Prop) (tb : keycode → bool) (b : keycode) (i : inputs)
    : Prop := {
  bo_range : is_u 2 (src i b);
  bo_level : reported exword_pointer b (k_ev i) = negb (src i b =? 0);
  bo_keypad : Z.testbit (src i b) 0 = true → kp b;
  bo_touch : Z.testbit (src i b) 1 = tb b;
}.
Definition buttons_ok (kp : keycode → Prop) (tb : keycode → bool) (i : inputs) : Prop :=
  length (k_sources i) = 3%nat ∧ ∀ b, is_button b → button_ok kp tb b i.

(** The keyboard: only a key that is held, and in pointer mode none of the
    keys that drive the pointer, is reported pressed. *)
Record keyboard_ok (i : inputs) : Prop := {
  ko_down : length (k_down i) = length exword_keys;
  ko_enter : reported exword_input KEY_ENTER (k_ev i) = false;
  ko_reserved : reported exword_input KEY_RESERVED (k_ev i) = false;
  ko_key j k : exword_keys !! j = Some k →
    reported exword_input (code k) (k_ev i) = true →
    k_down i !! j = Some true ∧
    (k_mouse_mode i = true → exword_mouse_action_scan (scan k) = false);
}.

Definition keypad_holds (i : inputs) (b : keycode) : Prop :=
  k_mouse_mode i = true ∧ key_held i (button_scan b).
Definition touch_holds (i : inputs) (b : keycode) : bool :=
  bool_decide (button_zone b = Some (k_active i)).

Definition inputs_ok (i : inputs) : Prop :=
  buttons_ok (keypad_holds i) (touch_holds i) i ∧ keyboard_ok i.

(** *** The key table *)

Lemma keys_scan_NoDup : NoDup (scan <$> exword_keys).
Proof. compute_dec. Qed.
Lemma keys_code_NoDup : NoDup (code <$> exword_keys).
Proof. compute_dec. Qed.

(** What the table promises about each key. *)
Definition key_entry_ok (k : exword_key) : Prop :=
  (0 <= scan_word (scan k) < 6 ∧ 0 <= scan_bit (scan k) < 16) ∧
  (scan k = EXWORD_MOUSE_TOGGLE_SCAN ↔ code k = KEY_RESERVED) ∧
  (exword_mouse_action_scan (scan k) = true ↔
   code k ∈ [KEY_UP; KEY_DOWN; KEY_LEFT; KEY_RIGHT; KEY_ENTER; KEY_EQUAL; KEY_LEFTCTRL]) ∧
  match exword_mouse_button (scan k) with
  | Some b => button_scan b = scan k ∧ (0 <= exword_pointer_button_index b)
  | None => True
  end ∧ (code k ≠ BTN_LEFT ∧ code k ≠ BTN_MIDDLE ∧ code k ≠ BTN_RIGHT).

#[export] Instance key_entry_ok_dec k : Decision (key_entry_ok k).
Proof. unfold key_entry_ok. destruct (exword_mouse_button (scan k)); apply _. Defined.

Lemma keys_ok : Forall key_entry_ok exword_keys.
Proof. compute_dec. Qed.

Lemma key_entry j k : exword_keys !! j = Some k → key_entry_ok k.
Proof. intros Hj. eapply (Forall_lookup_1 _ _ _ _ keys_ok Hj). Qed.

Lemma key_code_inj j j' k k' :
  exword_keys !! j = Some k → exword_keys !! j' = Some k' → code k = code k' → j = j'.
Proof.
  intros Hj Hj' Hc. apply (NoDup_lookup _ _ _ (code k) keys_code_NoDup).
  - by rewrite list_lookup_fmap, Hj.
  - by rewrite list_lookup_fmap, Hj', Hc.
Qed.

Lemma key_scan_inj j j' k k' :
  exword_keys !! j = Some k → exword_keys !! j' = Some k' → scan k = scan k' → j = j'.
Proof.
  intros Hj Hj' Hc. apply (NoDup_lookup _ _ _ (scan k) keys_scan_NoDup).
  - by rewrite list_lookup_fmap, Hj.
  - by rewrite list_lookup_fmap, Hj', Hc.
Qed.

(** *** Pointer buttons *)

(** What [exword_set_pointer_button] does to the input side. *)
Record button_effect (b : keycode) (source : Z) (down : bool) (i i' : inputs) : Prop := {
  be_len : length (k_sources i') = 3%nat;
  be_range : is_u 2 (src i' b);
  be_bit n : n = 0 ∨ n = 1 →
    Z.testbit (src i' b) n = if Z.testbit source n then down else Z.testbit (src i b) n;
  be_other b' : is_button b' → b' ≠ b → src i' b' = src i b';
  be_level : reported exword_pointer b (k_ev i') = negb (src i' b =? 0);
  be_reports d c : (d, c) ≠ (exword_pointer, b) →
    reported d c (k_ev i') = reported d c (k_ev i);
  be_down : k_down i' = k_down i;
  be_seen : k_enter_seen i' = k_enter_seen i;
  be_mode : k_mouse_mode i' = k_mouse_mode i;
  be_active : k_active i' = k_active i;
}.

Definition set_button (b : keycode) (source : Z) (down : bool) (i : inputs) : inputs :=
  let previous := src i b in
  let now := if down then Z.lor previous source else u8 (Z.land previous (Z.lnot source)) in
  let i' := set_k_sources
    (<[Z.to_nat (exword_pointer_button_index b) := now]> (k_sources i)) i in
  if bool_decide (negb (previous =? 0) = negb (now =? 0)) then i'
  else set_k_ev (SyncEvent exword_pointer
                 :: KeyEvent exword_pointer b (negb (now =? 0)) :: k_ev i') i'.

Lemma set_pointer_button_in {H} `{Mmio H} b source down (s : kst H) :
  is_button b →
  k_in (exword_set_pointer_button b source down s).2 = set_button b source down (k_in s).
Proof.
  intros Hb. unfold exword_set_pointer_button, set_button.
  assert ((exword_pointer_button_index b <? 0) = false) as ->
    by (destruct Hb as [->|[->| ->]]; done).
  unfold mbind, st_mbind, get_in, st_get, upd_in, st_upd. cbn beta iota zeta.
  unfold src. by case_bool_decide.
Qed.

Lemma now_bits prev source down :
  is_u 2 prev → source = 1 ∨ source = 2 →
  let now := (if down : bool then Z.lor prev source else u8 (Z.land prev (Z.lnot source))) in
  is_u 2 now ∧ Z.testbit now 0 = (if Z.testbit source 0 then down else Z.testbit prev 0) ∧
  Z.testbit now 1 = (if Z.testbit source 1 then down else Z.testbit prev 1).
Proof.
  intros Hp Hs. unfold is_u in Hp.
  assert (prev = 0 ∨ prev = 1 ∨ prev = 2 ∨ prev = 3) as Hp' by lia.
  destruct Hp' as [->|[->|[->| ->]]], Hs as [->| ->], down; by compute_dec.
Qed.

Lemma set_button_effect b source down i :
  is_button b → source = 1 ∨ source = 2 →
  length (k_sources i) = 3%nat → is_u 2 (src i b) →
  reported exword_pointer b (k_ev i) = negb (src i b =? 0) →
  button_effect b source down i (set_button b source down i).
Proof.
  intros Hb Hs Hlen Hr Hlev.
  destruct (now_bits (src i b) source down Hr Hs) as (Hnr & Hn0 & Hn1).
  unfold set_button. cbv zeta.
  remember (if down then Z.lor (src i b) source else _) as now.
  assert (∀ i0, k_sources i0 = <[Z.to_nat (exword_pointer_button_index b):=now]> (k_sources i) →
    src i0 b = now ∧ ∀ b', is_button b' → b' ≠ b → src i0 b' = src i b') as Hsrc.
  { intros i0 E. unfold src. rewrite E. split.
    - apply list_lookup_total_insert_eq. rewrite Hlen.
      destruct Hb as [->|[->| ->]]; simpl; lia.
    - intros b' Hb' Hne. apply list_lookup_total_insert_ne.
      destruct Hb as [->|[->| ->]], Hb' as [->|[->| ->]]; simpl; congruence || lia. }
  case_bool_decide as Hsame.
  - match goal with |- button_effect _ _ _ _ ?i0 => destruct (Hsrc i0 eq_refl) as [E Ho] end.
    split; cbn [k_sources k_ev k_down k_enter_seen k_mouse_mode k_active set_k_sources];
      rewrite ?E; auto; [by rewrite length_insert|intros n [-> | ->]; done|].
    by rewrite Hlev.
  - cbn [k_sources k_ev k_down k_enter_seen k_mouse_mode k_active set_k_sources set_k_ev].
    match goal with |- button_effect _ _ _ _ ?i0 => destruct (Hsrc i0 eq_refl) as [E Ho] end.
    split; rewrite ?E;
      cbn [k_sources k_ev k_down k_enter_seen k_mouse_mode k_active set_k_sources set_k_ev];
      auto; [by rewrite length_insert|intros n [-> | ->]; done| |].
    + rewrite reported_sync, reported_key, bool_decide_eq_true_2 by done. done.
    + intros d c Hne. rewrite reported_sync, reported_key, bool_decide_eq_false_2; [done|].
      intros [<- <-]. done.
Qed.

Lemma buttons_ok_mono kp kp' tb tb' i :
  (∀ b, is_button b → kp b → kp' b) → (∀ b, is_button b → tb b = tb' b) →
  buttons_ok kp tb i → buttons_ok kp' tb' i.
Proof.
  intros Hk Ht [Hl Hb]. split; [done|]. intros b Hb'. destruct (Hb b Hb') as [? ? ? Htb].
  split; [done..|by eauto|]. by rewrite <- Ht.
Qed.

(** The buttons depend on the sources and on what was reported for them. *)
Lemma buttons_ok_ext kp tb i i' :
  k_sources i' = k_sources i →
  (∀ b, is_button b → reported exword_pointer b (k_ev i') = reported exword_pointer b (k_ev i)) →
  buttons_ok kp tb i → buttons_ok kp tb i'.
Proof.
  intros Es Er [Hl Hb]. split; [by rewrite Es|]. intros b Hb'.
  assert (src i' b = src i b) as E by (unfold src; by rewrite Es).
  destruct (Hb b Hb'). split; rewrite ?E, ?Er by done; done.
Qed.

(** The keyboard depends on the key state, the mode and what was reported. *)
Lemma keyboard_ok_ext i i' :
  k_down i' = k_down i → k_mouse_mode i' = k_mouse_mode i →
  (∀ c, reported exword_input c (k_ev i') = reported exword_input c (k_ev i)) →
  keyboard_ok i → keyboard_ok i'.
Proof.
  intros Ed Em Er [Hd He Hr Hk]. split; rewrite ?Ed, ?Er; [done..|].
  intros j k Hj. rewrite Er, Em. by apply Hk.
Qed.

(** Updating one source of one button. *)
Lemma set_button_ok kp tb b source down i :
  is_button b → source = 1 ∨ source = 2 → buttons_ok kp tb i →
  buttons_ok (λ b', if bool_decide (b' = b ∧ source = 1) then down = true else kp b')
    (λ b', if bool_decide (b' = b ∧ source = 2) then down else tb b')
    (set_button b source down i).
Proof.
  intros Hb Hs [Hlen Hok]. destruct (Hok b Hb) as [Hr Hl Hk Ht].
  destruct (set_button_effect b source down i Hb Hs Hlen Hr Hl) as
    [Hlen' Hr' Hbit Ho Hlev Hrep _ _ _ _].
  split; [done|]. intros b' Hb'. destruct (decide (b' = b)) as [->|Hne].
  - split; [done|done|..]; rewrite Hbit by tauto.
    + destruct Hs as [-> | ->]; case_bool_decide; naive_solver.
    + destruct Hs as [-> | ->]; case_bool_decide; naive_solver.
  - destruct (Hok b' Hb'). split; rewrite ?Ho, ?Hrep by (done || congruence); try done;
      rewrite bool_decide_eq_false_2 by tauto; done.
Qed.

Lemma set_button_fields b source down i :
  k_down (set_button b source down i) = k_down i ∧
  k_mouse_mode (set_button b source down i) = k_mouse_mode i ∧
  k_active (set_button b source down i) = k_active i.
Proof. unfold set_button. cbv zeta. by case_bool_decide. Qed.

Lemma set_button_reports_input b source down i c :
  reported exword_input c (k_ev (set_button b source down i))
  = reported exword_input c (k_ev i).
Proof. unfold set_button. cbv zeta. by case_bool_decide. Qed.

Lemma set_button_keyboard b source down i :
  keyboard_ok i → keyboard_ok (set_button b source down i).
Proof.
  destruct (set_button_fields b source down i) as (? & ? & _).
  apply keyboard_ok_ext; [done..|]. apply set_button_reports_input.
Qed.

Lemma inputs_ok_ext i i' :
  k_down i' = k_down i → k_mouse_mode i' = k_mouse_mode i →
  k_sources i' = k_sources i → k_active i' = k_active i →
  (∀ d c, reported d c (k_ev i') = reported d c (k_ev i)) →
  inputs_ok i → inputs_ok i'.
Proof.
  intros Ed Em Es Ea Er [Hb Hk]. split; [|by apply (keyboard_ok_ext i)].
  apply (buttons_ok_ext _ _ i); [done..|]. revert Hb. apply buttons_ok_mono.
  - intros b _. unfold keypad_holds, key_held. by rewrite Em, Ed.
  - intros b _. unfold touch_holds. by rewrite Ea.
Qed.

(** *** Updating [down] for one key *)

Definition put_down (j : nat) (down : bool) (i : inputs) : inputs :=
  set_k_down (<[j := down]> (k_down i)) i.

Lemma put_down_held j k down i sc :
  exword_keys !! j = Some k → sc ≠ scan k ∨ down = true →
  key_held i sc → key_held (put_down j down i) sc.
Proof.
  intros Hj Hor (j' & k' & Hj' & Hsc & Hd). exists j', k'. split; [done|]. split; [done|].
  unfold put_down. cbn [k_down set_k_down]. destruct (decide (j' = j)) as [->|Hne].
  - rewrite list_lookup_insert_eq by (by eapply lookup_lt_Some). naive_solver.
  - by rewrite list_lookup_insert_ne.
Qed.

Lemma put_down_self j k i :
  exword_keys !! j = Some k → length (k_down i) = length exword_keys →
  key_held (put_down j true i) (scan k).
Proof.
  intros Hj Hl. exists j, k. split; [done|]. split; [done|].
  apply list_lookup_insert_eq. rewrite Hl. by eapply lookup_lt_Some.
Qed.

Lemma put_down_keyboard j k down i :
  exword_keys !! j = Some k →
  (down = false → reported exword_input (code k) (k_ev i) = false) →
  keyboard_ok i → keyboard_ok (put_down j down i).
Proof.
  intros Hj Hrep [Hd He Hr Hk]. split; [by unfold put_down; simpl; rewrite length_insert|done..|].
  intros j' k' Hj' Hrep'. cbn [put_down k_ev set_k_down k_mouse_mode k_down] in *.
  destruct (Hk j' k' Hj' Hrep') as [Hdown Hm]. split; [|done].
  destruct (decide (j' = j)) as [->|Hne].
  - rewrite Hj in Hj'. simplify_eq. destruct down; [|by rewrite Hrep in Hrep'].
    apply list_lookup_insert_eq. rewrite Hd. by eapply lookup_lt_Some.
  - by rewrite list_lookup_insert_ne.
Qed.

Lemma button_scan_inj b b' : is_button b → is_button b' → button_scan b = button_scan b' → b = b'.
Proof. intros [->|[->| ->]] [->|[->| ->]]; done. Qed.

Lemma button_scan_action b : is_button b → exword_mouse_action_scan (button_scan b) = true.
Proof. by intros [->|[->| ->]]. Qed.

Lemma mouse_button_inv sc b :
  exword_mouse_button sc = Some b → is_button b ∧ button_scan b = sc.
Proof.
  unfold exword_mouse_button, is_button. intros Hb.
  repeat case_match; simplify_eq; to_prop; subst; auto.
Qed.

(** Reporting the ordinary key [k] at its new level. *)
Lemma report_key_keyboard j k down i :
  exword_keys !! j = Some k → code k ≠ KEY_ENTER → code k ≠ KEY_RESERVED →
  (k_mouse_mode i = true → exword_mouse_action_scan (scan k) = false) →
  keyboard_ok i →
  keyboard_ok (set_k_ev (KeyEvent exword_input (code k) down :: k_ev i) (put_down j down i)).
Proof.
  intros Hj Hne Hnr Hm [Hd He Hr Hk].
  split; cbn [put_down k_ev set_k_ev k_down set_k_down k_mouse_mode].
  - by rewrite length_insert.
  - rewrite reported_key, bool_decide_eq_false_2; [done|naive_solver].
  - rewrite reported_key, bool_decide_eq_false_2; [done|naive_solver].
  - intros j' k' Hj'. rewrite reported_key.
    destruct (decide (j' = j)) as [->|Hjne].
    + rewrite Hj in Hj'. simplify_eq. rewrite bool_decide_eq_true_2 by done. intros ->.
      split; [|done]. apply list_lookup_insert_eq. rewrite Hd. by eapply lookup_lt_Some.
    + rewrite bool_decide_eq_false_2.
      * intros Hrep. rewrite list_lookup_insert_ne by done. by apply Hk.
      * intros [_ Hc]. apply Hjne. symmetry. by eapply key_code_inj.
Qed.

(** *** The mode toggle *)

Definition released_keys : list keycode :=
  [KEY_LEFTCTRL; KEY_EQUAL; KEY_ENTER; KEY_RIGHT; KEY_LEFT; KEY_DOWN; KEY_UP].

Definition toggle_in (i : inputs) : inputs :=
  if k_mouse_mode i then
    set_button BTN_RIGHT 1 false (set_button BTN_MIDDLE 1 false
      (set_button BTN_LEFT 1 false (set_k_mouse_mode false i)))
  else
    set_k_ev (SyncEvent exword_input ::
      ((λ c, KeyEvent exword_input c false) <$> released_keys) ++ k_ev i)
      (set_k_mouse_mode true i).

Lemma toggle_mouse_mode_in {H} `{Mmio H} (s : kst H) :
  k_in (exword_toggle_mouse_mode s).2 = toggle_in (k_in s).
Proof.
  unfold exword_toggle_mouse_mode, toggle_in. rewrite !st_bind_eq.
  unfold get_in, st_get, upd_in, st_upd. cbn beta iota zeta delta [fst snd].
  destruct (k_mouse_mode (k_in s)) eqn:Hm; [|done]. cbn [negb].
  unfold exword_release_keypad_mouse_buttons. rewrite !st_bind_eq. cbn [mret st_mret snd].
  rewrite !set_pointer_button_in by (unfold is_button; auto). done.
Qed.

Lemma reported_released c ev cs :
  reported exword_input c (((λ c, KeyEvent exword_input c false) <$> cs) ++ ev)
  = if bool_decide (c ∈ cs) then false else reported exword_input c ev.
Proof.
  induction cs as [|c' cs IH]; [done|]. cbn [fmap list_fmap app]. rewrite reported_key, IH.
  repeat case_bool_decide; set_solver.
Qed.

Lemma reported_released_pointer b ev cs :
  reported exword_pointer b (((λ c, KeyEvent exword_input c false) <$> cs) ++ ev)
  = reported exword_pointer b ev.
Proof. 
  induction cs as [|c' cs IH]; [done|]. cbn [fmap list_fmap app].
  rewrite reported_key, bool_decide_eq_false_2 by naive_solver. done.
Qed.

Lemma action_released j k :
  exword_keys !! j = Some k → exword_mouse_action_scan (scan k) = true →
  code k ∈ released_keys.
Proof.
  intros Hj Ha. destruct (key_entry j k Hj) as (_ & _ & Hact & _).
  apply Hact in Ha. unfold released_keys. set_solver.
Qed.

Lemma toggle_in_down i : k_down (toggle_in i) = k_down i.
Proof.
  unfold toggle_in. destruct (k_mouse_mode i); [|done].
  by rewrite !(proj1 (set_button_fields _ _ _ _)).
Qed.

(** Leaving pointer mode releases the buttons the keypad holds, entering it
    the keys that drive the pointer. *)
Lemma toggle_in_ok i : inputs_ok i → inputs_ok (toggle_in i).
Proof.
  intros [Hb Hk]. unfold toggle_in. destruct (k_mouse_mode i) eqn:Hm.
  - split.
    + pose (kp0 := λ b, keypad_holds i b).
      apply (buttons_ok_ext kp0 (touch_holds i) i (set_k_mouse_mode false i)) in Hb; [|done..].
      apply (set_button_ok _ _ BTN_LEFT 1 false) in Hb; [|by left|by left].
      apply (set_button_ok _ _ BTN_MIDDLE 1 false) in Hb; [|by right; left|by left].
      apply (set_button_ok _ _ BTN_RIGHT 1 false) in Hb; [|by right; right|by left].
      revert Hb. apply buttons_ok_mono.
      * intros b Hb Hkp. exfalso.
        destruct Hb as [->|[->| ->]]; revert Hkp; repeat case_bool_decide; naive_solver.
      * intros b Hb. unfold touch_holds.
        destruct (set_button_fields BTN_RIGHT 1 false (set_button BTN_MIDDLE 1 false
          (set_button BTN_LEFT 1 false (set_k_mouse_mode false i)))) as (_ & _ & ->).
        destruct (set_button_fields BTN_MIDDLE 1 false
          (set_button BTN_LEFT 1 false (set_k_mouse_mode false i))) as (_ & _ & ->).
        destruct (set_button_fields BTN_LEFT 1 false (set_k_mouse_mode false i))
          as (_ & _ & ->).
        by destruct Hb as [->|[->| ->]].
    + do 3 apply set_button_keyboard. destruct Hk as [Hd He Hr Hkey]. split; [done..|].
      intros j k Hj Hrep. split; [by eapply Hkey|done].
  - split.
    + revert Hb. intros Hb. apply (buttons_ok_mono (keypad_holds i) _ (touch_holds i)).
      * intros b _ [Hm' _]. congruence.
      * done.
      * revert Hb. apply buttons_ok_ext; [done|]. intros b _. cbn [k_ev set_k_ev].
        by rewrite reported_sync, reported_released_pointer.
    + destruct Hk as [Hd He Hr Hkey]. split; cbn [k_ev set_k_ev k_down k_mouse_mode];
        rewrite ?reported_sync, ?reported_released; [done|done|by case_bool_decide|].
      intros j k Hj. rewrite reported_sync, reported_released.
      case_bool_decide as Hin; [done|]. intros Hrep. split; [by eapply Hkey|].
      intros _. apply not_true_is_false. intros Ha. by eapply Hin, action_released.
Qed.

(** *** One key of a scan *)

(** A key of the pointer in pointer mode. *)
Definition mouse_key_in (j : nat) (k : exword_key) (down : bool) (i : inputs) : inputs :=
  match exword_mouse_button (scan k) with
  | Some b => set_button b EXWORD_POINTER_SOURCE_KEYPAD down (put_down j down i)
  | None => put_down j down i
  end.

(** The input side after the body of the key loop. *)
Definition scan_key_in (sample : list Z) (j : nat) (k : exword_key) (i : inputs) : inputs :=
  let down := exword_key_down sample (scan k) in
  if Bool.eqb down (k_down i !!! j) then i
  else
    let i' := put_down j down i in
    if scan k =? EXWORD_MOUSE_TOGGLE_SCAN then
      if down then toggle_in i' else i'
    else if k_mouse_mode i && exword_mouse_action_scan (scan k) then
      mouse_key_in j k down i
    else if bool_decide (code k = KEY_ENTER) then
      set_k_enter_seen down
        (if down || negb (k_enter_seen i) then
           set_k_ev ([SyncEvent exword_input; KeyEvent exword_input KEY_ENTER false;
                      SyncEvent exword_input; KeyEvent exword_input KEY_ENTER true]
                     ++ k_ev i) i'
         else i')
    else set_k_ev (KeyEvent exword_input (code k) down :: k_ev i) i'.

Lemma scan_key_eq {H} `{Mmio H} sample j k f (s : kst H) :
  k_in (scan_key sample j k f s).2 = scan_key_in sample j k (k_in s).
Proof.
  unfold scan_key, scan_key_in, mouse_key_in. cbv zeta. rewrite st_bind_eq.
  unfold get_in at 1, st_get at 1. cbn [fst snd].
  destruct (Bool.eqb _ _); [done|]. rewrite !st_bind_eq.
  unfold upd_in at 1 2, st_upd at 1 2, get_in at 1 2, st_get at 1 2. cbn [fst snd].
  cbn [k_in set_k_in k_mouse_mode set_k_down].
  destruct (scan k =? _).
  { rewrite st_bind_eq. cbn [mret st_mret snd].
    destruct (exword_key_down sample (scan k)); [|done]. by rewrite toggle_mouse_mode_in. }
  destruct (_ && _)%bool.
  { destruct (exword_mouse_button (scan k)) as [b|] eqn:Hb; [|done].
    rewrite st_bind_eq. cbn [mret st_mret snd].
    rewrite set_pointer_button_in by (by eapply mouse_button_inv in Hb as [? _]). done. }
  destruct (bool_decide _); [|done].
  unfold exword_report_enter_tap. rewrite !st_bind_eq.
  unfold get_in, st_get. cbn [fst snd k_in set_k_in k_enter_seen set_k_down].
  by destruct (_ || _)%bool.
Qed.

Lemma scan_key_in_down sample j k i j' :
  exword_keys !! j = Some k → length (k_down i) = length exword_keys →
  k_down (scan_key_in sample j k i) !! j'
  = if bool_decide (j' = j) then Some (exword_key_down sample (scan k)) else k_down i !! j'.
Proof.
  intros Hj Hl. unfold scan_key_in, mouse_key_in. cbv zeta.
  destruct (Bool.eqb _ _) eqn:He.
  { apply Bool.eqb_prop in He. case_bool_decide; [|done]. subst j'. rewrite He.
    destruct (lookup_lt_is_Some_2 (k_down i) j) as [x Hx].
    { rewrite Hl. by eapply lookup_lt_Some. }
    by rewrite (list_lookup_total_correct _ _ _ Hx). }
  transitivity (k_down (put_down j (exword_key_down sample (scan k)) i) !! j').
  - repeat first [rewrite toggle_in_down|rewrite (proj1 (set_button_fields _ _ _ _))|case_match];
      done.
  - unfold put_down. cbn [k_down set_k_down]. case_bool_decide; subst.
    + apply list_lookup_insert_eq. rewrite Hl. by eapply lookup_lt_Some.
    + by apply list_lookup_insert_ne.
Qed.

(** The keypad's hold on the buttons survives the update of another key. *)
Lemma put_down_buttons j k down i :
  exword_keys !! j = Some k →
  (k_mouse_mode i = true → exword_mouse_action_scan (scan k) = false) →
  buttons_ok (keypad_holds i) (touch_holds i) i →
  buttons_ok (keypad_holds (put_down j down i)) (touch_holds i) (put_down j down i).
Proof.
  intros Hj Hm Hb. apply (buttons_ok_mono (keypad_holds i) _ (touch_holds i)).
  - intros b Hb' [Hmode Hheld]. split; [done|]. eapply put_down_held; [done| |done].
    left. intros E. apply Hm in Hmode. rewrite <- E, button_scan_action in Hmode; done.
  - done.
  - by apply (buttons_ok_ext _ _ i).
Qed.

Lemma mouse_key_ok j k down i :
  exword_keys !! j = Some k → k_mouse_mode i = true → exword_mouse_action_scan (scan k) = true →
  inputs_ok i → inputs_ok (mouse_key_in j k down i).
Proof.
  intros Hj Hm Ha [Hb Hk]. unfold mouse_key_in.
  assert (keyboard_ok (put_down j down i)) as Hkey.
  { apply put_down_keyboard with k; [done| |done]. intros _.
    apply not_true_is_false. intros Hrep.
    destruct (ko_key i Hk j k Hj Hrep) as [_ Hf]. by rewrite Hf in Ha. }
  apply (buttons_ok_ext _ _ i (put_down j down i)) in Hb; [|done..].
  destruct (exword_mouse_button (scan k)) as [b|] eqn:Hbutton.
  - apply mouse_button_inv in Hbutton as [Hisb Hsc].
    split; [|by apply set_button_keyboard].
    destruct (set_button_fields b EXWORD_POINTER_SOURCE_KEYPAD down (put_down j down i))
      as (Ed & Em & Ea).
    apply (set_button_ok _ _ b EXWORD_POINTER_SOURCE_KEYPAD down) in Hb; [|done|by left].
    revert Hb. apply buttons_ok_mono.
    + intros b' Hb'. unfold keypad_holds at 2, key_held. rewrite Em, Ed.
      case_bool_decide as Heq.
      * intros ->. split; [done|]. destruct Heq as [-> _]. rewrite Hsc.
        apply put_down_self; [done|apply Hk].
      * intros [_ Hheld]. split; [done|]. eapply put_down_held; [done| |done].
        left. rewrite <- Hsc. intros E. apply Heq. split; [|done].
        by apply button_scan_inj.
    + intros b' Hb'. rewrite bool_decide_eq_false_2 by (by intros [_ ?]).
      unfold touch_holds. by rewrite Ea.
  - split; [|done]. revert Hb. apply buttons_ok_mono; [|done].
    intros b Hb' [_ Hheld]. split; [done|]. eapply put_down_held; [done| |done].
    left. intros E. rewrite <- E in Hbutton. by destruct Hb' as [->|[->| ->]].
Qed.

Lemma scan_key_in_ok sample j k i :
  exword_keys !! j = Some k → inputs_ok i → inputs_ok (scan_key_in sample j k i).
Proof.
  intros Hj Hok. pose proof Hok as [Hb Hk]. destruct (key_entry j k Hj) as (_ & Hres & Hact & Hbtn & _).
  unfold scan_key_in. cbv zeta.
  remember (exword_key_down sample (scan k)) as down eqn:Hdown. clear Hdown.
  destruct (Bool.eqb down _); [done|].
  destruct (Z.eqb_spec (scan k) EXWORD_MOUSE_TOGGLE_SCAN) as [Ht|Ht].
  { assert (inputs_ok (put_down j down i)) as Hput.
    { split; [change (touch_holds (put_down j down i)) with (touch_holds i);
        apply (put_down_buttons j k); [done|intros _; by rewrite Ht|done]|].
      apply put_down_keyboard with k; [done| |done]. intros _.
      apply Hres in Ht. rewrite Ht. apply Hk. }
    destruct down; [by apply toggle_in_ok|done]. }
  assert (code k ≠ KEY_RESERVED) as Hnr by tauto.
  destruct (k_mouse_mode i && exword_mouse_action_scan (scan k))%bool eqn:Hmouse.
  { apply andb_prop in Hmouse as [Hm Ha]. by apply mouse_key_ok. }
  assert (k_mouse_mode i = true → exword_mouse_action_scan (scan k) = false) as Hm.
  { intros Hm. by rewrite Hm in Hmouse. }
  pose proof (put_down_buttons j k down i Hj Hm Hb) as Hb'. clear Hb.
  case_bool_decide as Hent.
  - assert (keyboard_ok (put_down j down i)) as Hkey.
    { apply put_down_keyboard with k; [done| |done]. intros _. rewrite Hent. apply Hk. }
    apply (inputs_ok_ext (put_down j down i)); 
      [by destruct (_ || _)%bool..| |split; [exact Hb'|exact Hkey]].
    intros d c. destruct (_ || _)%bool; [|done].
    cbn [k_ev set_k_enter_seen set_k_ev app put_down set_k_down].
    rewrite reported_sync, reported_key, reported_sync, reported_key.
    case_bool_decide as Hc; [|done].
    destruct Hc as [<- <-]. symmetry. apply Hk.
  - split; [|by apply report_key_keyboard].
    revert Hb'. apply buttons_ok_ext; [done|]. intros b _. cbn [k_ev set_k_ev].
    rewrite reported_key, bool_decide_eq_false_2; [done|by intros [? _]].
Qed.

(** *** The panel's buttons *)

Definition release_in (i : inputs) : inputs :=
  set_k_active EXWORD_TOUCH_NONE
    match k_active i with
    | EXWORD_TOUCH_BUTTON_LEFT => set_button BTN_LEFT EXWORD_POINTER_SOURCE_TOUCH false i
    | EXWORD_TOUCH_BUTTON_RIGHT => set_button BTN_RIGHT EXWORD_POINTER_SOURCE_TOUCH false i
    | _ => i
    end.

Lemma touch_release_active_in {H} `{Mmio H} (s : kst H) :
  k_in (exword_touch_release_active s).2 = release_in (k_in s).
Proof.
  unfold exword_touch_release_active, release_in. rewrite !st_bind_eq.
  unfold get_in, st_get, upd_in, upd_touch, st_upd. cbn [fst snd mret st_mret k_in set_k_in set_k_touch].
  destruct (k_active (k_in s)); try done;
    rewrite set_pointer_button_in by (unfold is_button; auto); done.
Qed.

(** Setting the panel's source of one button together with [exword_touch_active]. *)
Lemma touch_button_ok b zone down i :
  is_button b → inputs_ok i →
  (∀ b', is_button b' → touch_holds (set_k_active zone i) b'
     = if bool_decide (b' = b) then down else touch_holds i b') →
  inputs_ok (set_button b EXWORD_POINTER_SOURCE_TOUCH down (set_k_active zone i)).
Proof.
  intros Hb [Hbs Hk] Htouch. split.
  - apply (buttons_ok_ext _ _ i (set_k_active zone i)) in Hbs; [|done..].
    apply (set_button_ok _ _ b EXWORD_POINTER_SOURCE_TOUCH down) in Hbs; [|done|by right].
    destruct (set_button_fields b EXWORD_POINTER_SOURCE_TOUCH down (set_k_active zone i))
      as (Ed & Em & Ea).
    revert Hbs. apply buttons_ok_mono.
    + intros b' Hb'. unfold keypad_holds at 2, key_held. rewrite Em, Ed.
      by rewrite bool_decide_eq_false_2 by (by intros [_ ?]).
    + intros b' Hb'. unfold touch_holds at 2. rewrite Ea.
      transitivity (touch_holds (set_k_active zone i) b'); [|done]. rewrite Htouch by done.
      destruct (decide (b' = b)).
      * by rewrite !bool_decide_eq_true_2.
      * by rewrite !bool_decide_eq_false_2 by tauto.
  - apply set_button_keyboard. by apply (keyboard_ok_ext i).
Qed.

(** [exword_touch_active] alone, between zones that hold no button. *)
Lemma set_active_ok zone i :
  (∀ b, is_button b → touch_holds (set_k_active zone i) b = touch_holds i b) →
  inputs_ok i → inputs_ok (set_k_active zone i).
Proof.
  intros Ht [Hb Hk]. split; [|by apply (keyboard_ok_ext i)].
  apply (buttons_ok_ext _ _ i); [done..|]. revert Hb. apply buttons_ok_mono; [done|].
  intros b Hb. by rewrite Ht.
Qed.

Lemma set_active_commute b source down zone i :
  set_k_active zone (set_button b source down i)
  = set_button b source down (set_k_active zone i).
Proof. unfold set_button, src. cbv zeta. cbn [k_sources set_k_active]. by case_bool_decide. Qed.

Ltac solve_touch_holds :=
  intros b [->|[->| ->]]; unfold touch_holds; cbn [k_active set_k_active];
  repeat match goal with E : k_active ?i = _ |- _ => rewrite E end; done.

Lemma release_in_ok i : inputs_ok i → inputs_ok (release_in i).
Proof.
  intros Hi. unfold release_in. destruct (k_active i) eqn:Ha;
    rewrite ?set_active_commute.
  all: try (apply set_active_ok; [solve_touch_holds|done]).
  - apply touch_button_ok; [by left|done|solve_touch_holds].
  - apply touch_button_ok; [by right; right|done|solve_touch_holds].
Qed.

#[export] Instance keeps_rel H `{Mmio H} a v : Keeps inputs_ok (input_report_rel a v : st (kst H) unit).
Proof. intros s. apply inputs_ok_ext; done. Qed.
#[export] Instance keeps_sync H `{Mmio H} d : Keeps inputs_ok (input_sync d : st (kst H) unit).
Proof. intros s. apply inputs_ok_ext; done. Qed.
#[export] Instance keeps_motion H `{Mmio H} zone :
  Keeps inputs_ok (exword_touch_report_motion zone : st (kst H) bool).
Proof. destruct zone; typeclasses eauto. Qed.
#[export] Instance keeps_release H `{Mmio H} :
  Keeps inputs_ok (exword_touch_release_active : st (kst H) bool).
Proof. intros s Hs. rewrite touch_release_active_in. by apply release_in_ok. Qed.

(** A zone latched while none was. *)
Lemma touch_activate_ok {H} `{Mmio H} zone (s : kst H) i :
  k_active i = EXWORD_TOUCH_NONE → inputs_ok i → k_in s = set_k_active zone i →
  inputs_ok (k_in (exword_touch_activate_zone zone s).2).
Proof.
  intros Ha Hi Es. unfold exword_touch_activate_zone.
  destruct zone;
    try (apply (keeps (m := exword_touch_report_motion _)); rewrite Es;
         apply set_active_ok; [solve_touch_holds|done]).
  - rewrite set_pointer_button_in, Es by (by left).
    apply touch_button_ok; [by left|done|solve_touch_holds].
  - rewrite set_pointer_button_in, Es by (by right; right).
    apply touch_button_ok; [by right; right|done|solve_touch_holds].
Qed.

(** *** The whole scan and the thread *)

Section Scan.
Context {H : Type} `{Mmio H}.
Abbreviation K := (st (kst H)).

#[export] Instance leaves_disable {B} (g : kst H → B) `{!Blind g} :
  Leaves g exword_touch_disable.
Proof. unfold exword_touch_disable. apply _. Qed.

Section LeavingHw.
Context {B : Type} (g : kst H → B) `{!BlindHw g} `{!Leaves g exword_touch_disable}.

#[export] Instance leaves_read_words n i : Leaves g (read_words n i).
Proof. revert i. induction n; intros i; simpl; apply _. Qed.
#[export] Instance leaves_read_state : Leaves g (exword_read_state).
Proof. apply leaves_read_words. Qed.
#[export] Instance leaves_prime_reads n sample : Leaves g (prime_reads n sample).
Proof. revert sample. induction n; intros; simpl; apply _. Qed.
#[export] Instance leaves_wait_ready n reg : Leaves g (wait_ready n reg).
Proof. induction n; simpl; apply _. Qed.
#[export] Instance leaves_pen_samples n : Leaves g (pen_samples n).
Proof. induction n; simpl; apply _. Qed.
#[export] Instance leaves_draw_pixels n x y : Leaves g (draw_pixels n x y).
Proof.
  revert x. induction n; intros x; simpl; [apply _|].
  unfold exword_sublcd_data. apply _.
Qed.
#[export] Instance leaves_read_sample : Leaves g (exword_touch_read_sample).
Proof.
  unfold exword_touch_read_sample, exword_touch_pen_down, exword_touch_read_pen_level,
    exword_touch_base_pfc, exword_touch_read_adc, exword_touch_open_clock,
    exword_touch_rest, exword_touch_wait_adccsr, exword_touch_wait_adcsr,
    exword_touch_base_pfc. cbv zeta.
  apply _.
Qed.
#[export] Instance leaves_prepare_hardware : Leaves g (exword_touch_prepare_hardware).
Proof.
  unfold exword_touch_prepare_hardware, exword_touch_read_pen_level,
    exword_touch_base_pfc, exword_touch_open_clock,
    exword_touch_rest, exword_touch_wait_adccsr,
    exword_touch_base_pfc. cbv zeta. apply _.
Qed.
#[export] Instance leaves_prepare_gpio_hardware :
  Leaves g (exword_touch_prepare_gpio_hardware).
Proof.
  unfold exword_touch_prepare_gpio_hardware, exword_touch_read_pen_level,
    exword_touch_base_pfc. apply _.
Qed.
End LeavingHw.

Section Leaving.
Context {B : Type} (g : kst H → B) `{!Blind g}.

#[export] Instance leaves_draw_next_row : Leaves g (exword_sublcd_draw_next_row).
Proof.
  unfold exword_sublcd_draw_next_row, exword_sublcd_set_row, exword_sublcd_command,
    exword_sublcd_data. apply _.
Qed.
#[export] Instance leaves_load_firmware_setup :
  Leaves g (exword_touch_load_firmware_setup).
Proof.
  unfold exword_touch_load_firmware_setup, exword_touch_read_calibration,
    exword_touch_snapshot_long. apply _.
Qed.
#[export] Instance leaves_open_keysc_gate : Leaves g (open_keysc_gate).
Proof. unfold open_keysc_gate. apply _. Qed.

End Leaving.

#[export] Instance keeps_touch_poll : Keeps inputs_ok (exword_touch_poll : K bool).
Proof.
  intros s Hs. unfold exword_touch_poll, poll_lifted, poll_latched, poll_settling. rewrite st_bind_eq.
  pose proof (leaves_read_sample k_in s) as Eq.
  destruct (exword_touch_read_sample s) as [sample s1]. cbn [fst snd] in *.
  rewrite <- Eq in Hs. clear Eq s.
  rewrite st_bind_eq.
  destruct sample as [sample|].
  - rewrite !st_bind_eq. unfold upd_touch, st_upd, get_touch, st_get, get_in.
    cbn [fst snd k_touch set_k_touch id]. cbv zeta.
    case_bool_decide as Ha; cbn [negb].
    + rewrite !st_bind_eq. cbn [fst snd].
      case_match; [done|]. rewrite !st_bind_eq. cbn [fst snd].
      eapply touch_activate_ok; [exact Ha|exact Hs|done].
    + case_match; [|done]. rewrite st_bind_eq. cbn [fst snd].
      case_match; [|done]. rewrite st_bind_eq.
      by apply (keeps (m := exword_touch_report_motion _)).
  - revert Hs. change ((get_in k_active s1).2) with s1. generalize (get_in k_active s1).1.
    intros active. revert s1. apply keeps.
Qed.

#[export] Instance keeps_scan_touch : Keeps inputs_ok (scan_touch : K bool).
Proof. unfold scan_touch. apply _. Qed.
#[export] Instance keeps_scan_repeat sample edge : Keeps inputs_ok (scan_repeat sample edge : K bool).
Proof. unfold scan_repeat, exword_report_pointer_motion. cbv zeta. apply _. Qed.
(** What changes neither [exword_raw] nor the key state. *)
Class Unscanned {B} (g : kst H → B) : Prop := {
  unscanned_blind :: Blind g;
  unscanned_ev v (s : kst H) : g (set_k_in (set_k_ev v (k_in s)) s) = g s;
  unscanned_sources v (s : kst H) : g (set_k_in (set_k_sources v (k_in s)) s) = g s;
  unscanned_active v (s : kst H) : g (set_k_in (set_k_active v (k_in s)) s) = g s;
}.
#[export] Instance unscanned_raw : Unscanned (k_raw (H := H)).
Proof. split; [apply _|done..]. Qed.
#[export] Instance unscanned_down : Unscanned (λ s : kst H, k_down (k_in s)).
Proof. by repeat split. Qed.

Section Unscanned.
Context {B : Type} (g : kst H → B) `{!Unscanned g}.

#[export] Instance leaves_emit e : Leaves g (emit e).
Proof. intros s. apply unscanned_ev. Qed.
#[export] Instance leaves_set_sources v : Leaves g (upd_in (set_k_sources v)).
Proof. intros s. apply unscanned_sources. Qed.
#[export] Instance leaves_set_active v : Leaves g (upd_in (set_k_active v)).
Proof. intros s. apply unscanned_active. Qed.
#[export] Instance leaves_set_pointer_button b n d : Leaves g (exword_set_pointer_button b n d).
Proof. unfold exword_set_pointer_button, input_report_key, input_sync. cbv zeta. apply _. Qed.
#[export] Instance leaves_motion zone : Leaves g (exword_touch_report_motion zone).
Proof.
  destruct zone; unfold exword_touch_report_motion, input_report_rel, input_sync;
    cbv zeta; apply _.
Qed.
#[export] Instance leaves_activate zone : Leaves g (exword_touch_activate_zone zone).
Proof. destruct zone; apply _. Qed.
#[export] Instance leaves_release : Leaves g exword_touch_release_active.
Proof.
  unfold exword_touch_release_active.
  apply leaves_bind; [apply _|intros zone]. destruct zone; apply _.
Qed.
#[export] Instance leaves_sync d : Leaves g (input_sync d).
Proof. unfold input_sync. apply _. Qed.
#[export] Instance leaves_scan_repeat sample edge : Leaves g (scan_repeat sample edge).
Proof.
  unfold scan_repeat, exword_report_pointer_motion, input_report_rel. cbv zeta. apply _.
Qed.
#[export] Instance leaves_touch_poll : Leaves g exword_touch_poll.
Proof. unfold exword_touch_poll, poll_lifted, poll_latched, poll_settling. cbv zeta. apply _. Qed.
#[export] Instance leaves_scan_touch : Leaves g scan_touch.
Proof. unfold scan_touch. apply _. Qed.
#[local] Opaque exword_touch_prepare_hardware exword_touch_prepare_gpio_hardware
  exword_touch_release_active.
#[local] Typeclasses Opaque exword_touch_prepare_hardware exword_touch_prepare_gpio_hardware
  exword_touch_release_active.
#[export] Instance leaves_service : Leaves g exword_service_subpad_mode.
Proof. unfold exword_service_subpad_mode. cbv zeta. apply _. Qed.
End Unscanned.

#[export] Instance raw_toggle : Leaves k_raw (exword_toggle_mouse_mode : K unit).
Proof.
  unfold exword_toggle_mouse_mode, exword_release_mouse_keys_from_keyboard,
    exword_release_keypad_mouse_buttons, input_report_key, input_sync. apply _.
Qed.
#[export] Instance raw_scan_key sample j k f : Leaves k_raw (scan_key sample j k f : K scan_flags).
Proof.
  unfold scan_key, exword_report_enter_tap, input_report_key, input_sync.
  cbv zeta. apply _.
Qed.
#[export] Instance raw_scan_keys sample j ks f : Leaves k_raw (scan_keys sample j ks f : K scan_flags).
Proof. revert j f. induction ks; intros; simpl; apply _. Qed.

#[local] Opaque exword_touch_prepare_hardware exword_touch_prepare_gpio_hardware
  exword_touch_release_active.
#[local] Typeclasses Opaque exword_touch_prepare_hardware exword_touch_prepare_gpio_hardware
  exword_touch_release_active.
#[export] Instance keeps_service : Keeps inputs_ok (exword_service_subpad_mode : K unit).
Proof.
  unfold exword_service_subpad_mode. cbv zeta. apply _.
Qed.

(** The key loop as a fold over the table. *)
Lemma scan_keys_spec sample j ks f (s : kst H) :
  (∀ n k, ks !! n = Some k → exword_keys !! (j + n)%nat = Some k) →
  inputs_ok (k_in s) →
  inputs_ok (k_in (scan_keys sample j ks f s).2) ∧
  ∀ j', k_down (k_in (scan_keys sample j ks f s).2) !! j'
    = match ks !! (j' - j)%nat with
      | Some k => if bool_decide (j <= j')%nat then Some (exword_key_down sample (scan k))
                  else k_down (k_in s) !! j'
      | None => k_down (k_in s) !! j'
      end.
Proof.
  revert j f s. induction ks as [|k ks IH]; intros j f s Hks Hs; [done|].
  cbn [scan_keys]. rewrite st_bind_eq.
  assert (exword_keys !! j = Some k) as Hj by (rewrite <- (Nat.add_0_r j); by apply Hks).
  pose proof (scan_key_eq sample j k f s) as E.
  assert (inputs_ok (k_in (scan_key sample j k f s).2)) as Hs1
    by (rewrite E; by apply scan_key_in_ok).
  destruct (IH (S j) (scan_key sample j k f s).1 (scan_key sample j k f s).2) as [Hok Hd].
  { intros n k' Hn. replace (S j + n)%nat with (j + S n)%nat by lia. by apply Hks. }
  { done. }
  split; [done|]. intros j'. rewrite Hd, E.
  rewrite !(scan_key_in_down sample j k) by (done || apply Hs).
  destruct (decide (j' = j)) as [->|Hne].
  - replace (j - S j)%nat with 0%nat by lia. rewrite Nat.sub_diag.
    change ((k :: ks) !! 0%nat) with (Some k).
    rewrite (bool_decide_eq_true_2 (j = j)), (bool_decide_eq_true_2 (j <= j)%nat) by lia.
    rewrite (bool_decide_eq_false_2 (S j <= j)%nat) by lia. by case_match.
  - rewrite (bool_decide_eq_false_2 (j' = j)) by done.
    destruct (decide (j < j')%nat).
    + replace (j' - j)%nat with (S (j' - S j)) by lia.
      change ((k :: ks) !! S (j' - S j)) with (ks !! (j' - S j)%nat).
      by rewrite (bool_decide_eq_true_2 (j <= j')%nat), (bool_decide_eq_true_2 (S j <= j')%nat)
        by lia.
    + rewrite (bool_decide_eq_false_2 (j <= j')%nat), (bool_decide_eq_false_2 (S j <= j')%nat)
        by lia. by repeat case_match.
Qed.

(** The key state agrees with the last words read. *)
Definition down_current (s : kst H) : Prop :=
  k_down (k_in s) = (λ k, exword_key_down (k_raw s) (scan k)) <$> exword_keys.

Definition scanned (s : kst H) : Prop := inputs_ok (k_in s) ∧ down_current s.

Definition scan_tail (sample : list Z) (f : scan_flags) : K bool :=
  (if f_sync f then input_sync exword_input else mret tt);;
  moved ← scan_repeat sample (f_edge f);
  touched ← scan_touch;
  mret (f_activity f || moved || touched).

(** [exword_scan_once] as its key loop, run from a state with the same input
    side that holds the words just read, and the rest. *)
Lemma scan_once_run (s : kst H) :
  ∃ sample s1, k_in s1 = k_in s ∧ k_raw s1 = sample ∧
    let r := scan_keys sample 0 exword_keys (Flags false false false) s1 in
    exword_scan_once s = scan_tail sample r.1 r.2.
Proof.
  unfold exword_scan_once. rewrite st_bind_eq.
  rewrite <- (leaves (g := k_in) (m := open_keysc_gate) s).
  generalize (open_keysc_gate s).2. clear s. intros s. rewrite st_bind_eq.
  rewrite <- (leaves (g := k_in) (m := exword_read_state) s).
  generalize (exword_read_state s).1, (exword_read_state s).2. clear s. intros sample s.
  rewrite st_bind_eq. unfold st_get. cbn [fst snd]. rewrite st_bind_eq.
  match goal with |- context [((if ?c then ?m1 else ?m2) s).2] =>
    set (s1 := ((if c then m1 else m2) s).2) end.
  exists sample, s1. split; [unfold s1; by case_bool_decide|].
  split; [unfold s1; by case_bool_decide|]. cbv zeta. by rewrite st_bind_eq.
Qed.

#[export] Instance leaves_scan_tail {B} (g : kst H → B) `{!Unscanned g} sample f :
  Leaves g (scan_tail sample f).
Proof. unfold scan_tail. apply _. Qed.
#[export] Instance keeps_scan_tail sample f : Keeps inputs_ok (scan_tail sample f).
Proof. unfold scan_tail. apply _. Qed.

Lemma scan_once_ok (s : kst H) :
  inputs_ok (k_in s) → scanned (exword_scan_once s).2.
Proof.
  intros Hs. destruct (scan_once_run s) as (sample & s1 & E1 & Er1 & ->).
  rewrite <- E1 in Hs.
  destruct (scan_keys_spec sample 0 exword_keys (Flags false false false) s1) as [Hok Hd];
    [done..|].
  pose proof (leaves (g := k_raw)
    (m := scan_keys sample 0 exword_keys (Flags false false false)) s1) as Er2.
  rewrite Er1 in Er2. revert Hok Hd Er2.
  generalize (scan_keys sample 0 exword_keys (Flags false false false) s1).2,
    (scan_keys sample 0 exword_keys (Flags false false false) s1).1.
  intros s2 f Hok Hd Er2. split; [by apply (keeps (m := scan_tail sample f))|].
  unfold down_current.
  rewrite (leaves (g := λ s, k_down (k_in s)) (m := scan_tail sample f)),
    (leaves (g := k_raw) (m := scan_tail sample f)).
  apply list_eq. intros j. rewrite Hd, list_lookup_fmap, Er2.
  rewrite Nat.sub_0_r, bool_decide_eq_true_2 by lia.
  destruct (exword_keys !! j) eqn:Hj; [done|]. cbn [fmap option_fmap option_map].
  apply lookup_ge_None. apply lookup_ge_None in Hj. destruct Hs as [_ Hk].
  by rewrite (ko_down _ Hk).
Qed.

End Scan.

(** ** Reachable states *)

(** Between two turns of the polling thread the hardware and user space may
    change what the next turn reads. *)
Inductive kstep {H} `{Mmio H} : kst H * Z → kst H * Z → Prop :=
| kstep_turn s burst :
    kstep (s, burst) ((exword_scan_thread_step burst s).2, (exword_scan_thread_step burst s).1)
| kstep_hardware s burst h : kstep (s, burst) (set_k_hw h s, burst)
| kstep_user s burst mode : kstep (s, burst) (set_k_subpad_mode mode s, burst).

(** The states of a running driver. *)
Definition reachable {H} `{Mmio H} (s : kst H) (burst : Z) : Prop :=
  ∃ e h, rtc kstep ((exword_keypad_init e (exword_initial h)).2, 0) (s, burst).

Section Theorems.
Context {H : Type} `{Mmio H}.
Abbreviation K := (st (kst H)).

Lemma inputs_ok_primed (i : inputs) ds :
  k_ev i = [] → k_mouse_mode i = false → k_sources i = [0; 0; 0] →
  k_active i = EXWORD_TOUCH_NONE → length ds = length exword_keys →
  inputs_ok (set_k_down ds i).
Proof.
  intros He Hm Hs Ha Hl. split.
  - split; [cbn [k_sources set_k_down]; by rewrite Hs|]. intros b Hb.
    assert (src (set_k_down ds i) b = 0) as Hsrc.
    { unfold src. cbn [k_sources set_k_down]. rewrite Hs. by destruct Hb as [->|[->| ->]]. }
    split; rewrite ?Hsrc; [compute_dec| |done|].
    + cbn [k_ev set_k_down]. by rewrite ?He.
    + unfold touch_holds. cbn [k_active set_k_down]. rewrite Ha.
      by destruct Hb as [->|[->| ->]].
  - split; cbn [k_ev set_k_down k_down]; rewrite ?He; done.
Qed.

Lemma prime_scanned_n n (s : kst H) (h : H) :
  k_in s = k_in (exword_initial h) →
  scanned ((sample ← prime_reads n (replicate 6 0);
            st_upd (set_k_raw sample);;
            upd_in (set_k_down ((λ k, exword_key_down sample (scan k)) <$> exword_keys))) s).2.
Proof.
  intros E1. rewrite st_bind_eq.
  pose proof (leaves (g := k_in) (m := prime_reads n (replicate 6 0)) s) as E2.
  rewrite E1 in E2. revert E2.
  generalize (prime_reads n (replicate 6 0) s).2, (prime_reads n (replicate 6 0) s).1.
  intros s2 sample E2. rewrite st_bind_eq. split; [|done].
  cbn [upd_in st_upd snd k_in set_k_in set_k_raw]. rewrite E2.
  by apply inputs_ok_primed.
Qed.

Lemma prime_scanned (s : kst H) (h : H) :
  k_in s = k_in (exword_initial h) → scanned (exword_prime_scanner s).2.
Proof. exact (prime_scanned_n (Z.to_nat EXWORD_PRIME_READS) s h). Qed.

Lemma init_scanned e (h : H) :
  scanned (exword_keypad_init e (exword_initial h)).2.
Proof.
  unfold exword_keypad_init. destruct (init_clock e) as [clk calls].
  rewrite !st_bind_eq.
  destruct (init_devices e clk) as [error calls']. rewrite st_ret_snd.
  apply (prime_scanned _ h).
  rewrite (leaves (g := k_in)). rewrite (leaves (g := k_in)).
  by rewrite (leaves (g := k_in)).
Qed.

Lemma turn_scanned burst (s : kst H) :
  scanned s → scanned (exword_scan_thread_step burst s).2.
Proof.
  intros [Hs _]. unfold exword_scan_thread_step. rewrite st_bind_eq.
  apply scan_once_ok in Hs. revert Hs.
  generalize (exword_scan_once s).2, (exword_scan_once s).1. clear s.
  intros s activity Hs. destruct (_ || _)%bool; [|done].
  rewrite !st_bind_eq. cbn [mret st_mret snd].
  destruct Hs as [Hok Hd]. split.
  - rewrite (leaves (g := k_in) (m := exword_sublcd_draw_next_row)).
    by apply (keeps (m := exword_service_subpad_mode)).
  - unfold down_current in *.
    rewrite (leaves (g := k_in) (m := exword_sublcd_draw_next_row)),
      (leaves (g := k_raw) (m := exword_sublcd_draw_next_row)),
      (leaves (g := λ s, k_down (k_in s)) (m := exword_service_subpad_mode)),
      (leaves (g := k_raw) (m := exword_service_subpad_mode)). done.
Qed.

Lemma reachable_scanned (s : kst H) burst : reachable s burst → scanned s.
Proof.
  intros (e & h & Hr). change (scanned (s, burst).1).
  eapply (rtc_invariant kstep (λ p, scanned p.1)); [|exact Hr|apply init_scanned].
  intros a b Ha Hab. destruct Hab; [by apply turn_scanned|exact Ha..].
Qed.

(** C6: No key is ever left pressed.  In every state the running driver can
    reach, whatever the hardware and user space do, a key that the input core
    holds pressed is held on the keypad in the last words read, and while the
    keypad drives the pointer none of the keys that move it or click is
    reported at all. *)
Theorem no_stuck_key (s : kst H) burst j k :
  reachable s burst → exword_keys !! j = Some k →
  reported exword_input (code k) (k_ev (k_in s)) = true →
  exword_key_down (k_raw s) (scan k) = true ∧
  (k_mouse_mode (k_in s) = true → exword_mouse_action_scan (scan k) = false).
Proof.
  intros Hr Hj Hrep. destruct (reachable_scanned s burst Hr) as [[_ Hk] Hd].
  destruct (ko_key _ Hk j k Hj Hrep) as [Hdown Hm]. split; [|done].
  unfold down_current in Hd. rewrite Hd, list_lookup_fmap, Hj in Hdown. by simplify_eq/=.
Qed.

(** No pointer button is ever left pressed, and the two sources share a
    button correctly.  In every reachable state a button is reported pressed
    exactly when one of its two sources holds it; the keypad source holds it
    only in pointer mode while its key is held in the last words read, the
    panel exactly while the button's zone is the latched one. *)
Theorem no_stuck_button (s : kst H) burst b :
  reachable s burst → is_button b →
  let keypad := Z.testbit (src (k_in s) b) 0 in
  let panel := Z.testbit (src (k_in s) b) 1 in
  reported exword_pointer b (k_ev (k_in s)) = keypad || panel ∧
  (keypad = true → k_mouse_mode (k_in s) = true ∧
                   exword_key_down (k_raw s) (button_scan b) = true) ∧
  (panel = true ↔ button_zone b = Some (k_active (k_in s))).
Proof.
  intros Hr Hb keypad panel. destruct (reachable_scanned s burst Hr) as [[[_ Hbs] _] Hd].
  destruct (Hbs b Hb) as [Hrange Hlev Hkp Htb]. split; [|split].
  - rewrite Hlev. subst keypad panel. unfold is_u in Hrange.
    revert Hrange. generalize (src (k_in s) b). intros x Hx.
    assert (x = 0 ∨ x = 1 ∨ x = 2 ∨ x = 3) as Hx' by lia.
    by destruct Hx' as [->|[->|[->| ->]]].
  - intros Hk. destruct (Hkp Hk) as [Hm (j & k & Hj & Hsc & Hdown)]. split; [done|].
    unfold down_current in Hd. rewrite Hd, list_lookup_fmap, Hj in Hdown. simplify_eq/=.
    by rewrite <- Hsc.
  - subst panel. rewrite Htb. unfold touch_holds. apply bool_decide_eq_true.
Qed.
End Theorems.

(** ** A concrete device: the six key words, everything else reads 0 *)

#[export] Instance key_words_mmio : Mmio (list Z) := {
  raw_readb a w := (0, w);
  raw_readw a w :=
    (if (EXWORD_KEYPAD_BASE <=? a) && (a <? EXWORD_KEYPAD_BASE + 12)
     then w !!! Z.to_nat ((a - EXWORD_KEYPAD_BASE) / 2) else 0, w);
  raw_readl a w := (0, w);
  raw_writeb a v w := w;
  raw_writew a v w := w;
  raw_writel a v w := w;
}.

(** The six words with the keys of the given scan codes down. *)
Definition words_of (scans : list Z) : list Z :=
  foldr (λ sc w, <[Z.to_nat (scan_word sc) :=
           Z.lor (w !!! Z.to_nat (scan_word sc)) (Z.shiftl 1 (scan_bit sc))]> w)
        (replicate 6 0) scans.

(** The driver after a probe with those keys down. *)
Definition primed (w : list Z) : kst (list Z) :=
  set_k_raw w (set_k_in (set_k_down ((λ k, exword_key_down w (scan k)) <$> exword_keys)
    (k_in (exword_initial w))) (exword_initial w)).

Lemma prime_key_words n sample (s : kst (list Z)) :
  length (k_hw s) = 6%nat → prime_reads (S n) sample s = (k_hw s, s).
Proof.
  intros Hl. destruct s as [w i r n0 t l m a]. cbn [k_hw] in *.
  do 7 (destruct w as [|? w]; try discriminate Hl).
  revert sample. induction n as [|n IH]; intros sample; [reflexivity|].
  transitivity (prime_reads (S n) [z; z0; z1; z2; z3; z4]
    (KState [z; z0; z1; z2; z3; z4] i r n0 t l m a)); [reflexivity|]. by rewrite IH.
Qed.

Lemma init_key_words e w :
  length w = 6%nat → (exword_keypad_init e (exword_initial w)).2 = primed w.
Proof.
  intros Hl. unfold exword_keypad_init. destruct (init_clock e) as [clk calls].
  rewrite !st_bind_eq. destruct (init_devices e clk) as [error calls'].
  rewrite st_ret_snd. unfold exword_prime_scanner.
  replace (Z.to_nat EXWORD_PRIME_READS) with (S (Z.to_nat (EXWORD_PRIME_READS - 1)))
    by (unfold EXWORD_PRIME_READS; lia).
  rewrite st_bind_eq, prime_key_words; done.
Qed.

Definition all_ok : init_env := InitEnv true 0 true true 0 0 0.

(** The state after turns of the thread that see the given key sets. *)
Definition turn (scans : list Z) (p : kst (list Z) * Z) : kst (list Z) * Z :=
  let r := exword_scan_thread_step p.2 (set_k_hw (words_of scans) p.1) in (r.2, r.1).
Fixpoint turns (seen : list (list Z)) (p : kst (list Z) * Z) : kst (list Z) * Z :=
  match seen with
  | [] => p
  | scans :: seen' => turns seen' (turn scans p)
  end.
Definition run_scans (seen : list (list Z)) : kst (list Z) :=
  (turns seen (primed (words_of []), 0)).1.

Lemma turns_cons scans seen p : turns (scans :: seen) p = turns seen (turn scans p).
Proof. reflexivity. Qed.

Lemma turn_rtc scans p : rtc kstep p (turn scans p).
Proof.
  destruct p as [s burst].
  apply (rtc_l _ _ (set_k_hw (words_of scans) s, burst)); [apply kstep_hardware|].
  apply rtc_once. exact (kstep_turn (set_k_hw (words_of scans) s) burst).
Qed.

Lemma turns_rtc seen p : rtc kstep p (turns seen p).
Proof.
  revert p. induction seen as [|scans seen IH]; intros p; [apply rtc_refl|].
  rewrite turns_cons. etransitivity; [apply turn_rtc|apply IH].
Qed.

Lemma reachable_run seen :
  reachable (run_scans seen) (turns seen (primed (words_of []), 0)).2.
Proof.
  exists all_ok, (words_of []). rewrite init_key_words by reflexivity.
  unfold run_scans. rewrite <- surjective_pairing. apply turns_rtc.
Qed.

Lemma no_stuck_key_witness :
  let s := run_scans [[43]] in
  reported exword_input KEY_A (k_ev (k_in s)) = true ∧ exword_key_down (k_raw s) 43 = true.
Proof.
  intros s. assert (reported exword_input KEY_A (k_ev (k_in s)) = true) as Hrep
    by reflexivity.
  split; [exact Hrep|].
  exact (proj1 (no_stuck_key s _ 34 (Key 43 KEY_A) (reachable_run [[43]]) eq_refl Hrep)).
Defined.

Lemma no_stuck_button_witness :
  let s := run_scans [[10]; [10; 76]] in
  reported exword_pointer BTN_LEFT (k_ev (k_in s)) = true ∧
  (Z.testbit (src (k_in s) BTN_LEFT) 0 = true →
   k_mouse_mode (k_in s) = true ∧ exword_key_down (k_raw s) 76 = true).
Proof.
  intros s. split; [reflexivity|].
  exact (proj1 (proj2 (no_stuck_button s _ BTN_LEFT (reachable_run [[10]; [10; 76]])
    (or_introl eq_refl)))).
Defined.

(** The scan codes address the six key words.  Every key of the table has
    a word index below 6 and a bit below 16, and no two keys share a bit, so
    that [exword_key_down] reads inside [state[6]] and each key has its own
    bit of the hardware's state. *)
Theorem keys_addressable :
  Forall (λ k, 0 <= scan_word (scan k) < 6 ∧ 0 <= scan_bit (scan k) < 16) exword_keys ∧
  NoDup ((λ k, (scan_word (scan k), scan_bit (scan k))) <$> exword_keys) ∧
  NoDup (code <$> exword_keys).
Proof.
  split; [|split; [|apply keys_code_NoDup]].
  - compute_dec.
  - compute_dec.
Qed.

(** The release of a click made in pointer mode types Enter when the mode was
    left in between, although the comment on the Enter key says that the
    release following a seen press emits nothing. *)
Example enter_typed_by_click :
  let s := run_scans [[10]; [76]; [10; 76]; [76]] in
  let s' := run_scans [[10]; [76]; [10; 76]; [76]; []] in
  bool_decide (KeyEvent exword_input KEY_ENTER true ∈ k_ev (k_in s)) = false ∧
  k_ev (k_in s') = [SyncEvent exword_input; KeyEvent exword_input KEY_ENTER false;
                    SyncEvent exword_input; KeyEvent exword_input KEY_ENTER true]
                   ++ k_ev (k_in s).
Proof. split; reflexivity. Qed.

(** ** Probe: resources *)

(** What the driver holds: the clock, the devices and the thread. *)
Inductive dev_state : Type := Absent | Allocated | Registered.
Record held := Held {
  h_clk : bool;
  h_clk_enabled : bool;
  h_dev : device → dev_state;
  h_thread : bool;
}.
Definition set_dev (d : device) (v : dev_state) (h : held) : held :=
  Held (h_clk h) (h_clk_enabled h)
    (λ d', if bool_decide (d' = d) then v else h_dev h d') (h_thread h).

(** The effect of a call, [None] where the kernel forbids it: releasing what
    is not held, freeing a registered device, registering twice. *)
Definition replay_call (c : init_call) (h : held) : option held :=
  match c with
  | clk_get_sys ok =>
      if h_clk h then None else Some (Held ok (h_clk_enabled h) (h_dev h) (h_thread h))
  | clk_prepare_enable ok =>
      if h_clk h && negb (h_clk_enabled h)
      then Some (Held true ok (h_dev h) (h_thread h)) else None
  | clk_disable_unprepare =>
      if h_clk_enabled h then Some (Held (h_clk h) false (h_dev h) (h_thread h)) else None
  | clk_put =>
      if h_clk h && negb (h_clk_enabled h)
      then Some (Held false false (h_dev h) (h_thread h)) else None
  | input_allocate_device d ok =>
      match h_dev h d with
      | Absent => Some (set_dev d (if ok then Allocated else Absent) h)
      | _ => None
      end
  | input_free_device d =>
      match h_dev h d with Allocated => Some (set_dev d Absent h) | _ => None end
  | input_register_device d ok =>
      match h_dev h d with
      | Allocated => Some (set_dev d (if ok then Registered else Allocated) h)
      | _ => None
      end
  | input_unregister_device d =>
      match h_dev h d with Registered => Some (set_dev d Absent h) | _ => None end
  | kthread_run ok =>
      if h_thread h then None
      else Some (Held (h_clk h) (h_clk_enabled h) (h_dev h) ok)
  end.

Fixpoint replay (calls : list init_call) (h : held) : option held :=
  match calls with
  | [] => Some h
  | c :: calls' => replay_call c h ≫= replay calls'
  end.

Definition nothing_held : held := Held false false (λ _, Absent) false.

(** C38: Probe releases everything on failure.  Whatever the kernel answers,
    no call of [exword_keypad_init] is one the kernel forbids; if it returns an
    error nothing is held any more, and if it returns 0 both devices are
    registered and the thread runs. *)
Theorem init_releases {H} `{Mmio H} (e : init_env) (s : kst H) :
  let '(error, calls) := (exword_keypad_init e s).1 in
  ∃ h, replay calls nothing_held = Some h ∧
    if error =? 0
    then (∀ d, h_dev h d = Registered) ∧ h_thread h = true
    else h_clk h = false ∧ h_clk_enabled h = false ∧
         (∀ d, h_dev h d = Absent) ∧ h_thread h = false.
Proof.
  assert ((exword_keypad_init e s).1
    = ((init_devices e (init_clock e).1).1,
       (init_clock e).2 ++ (init_devices e (init_clock e).1).2)) as ->.
  { unfold exword_keypad_init. destruct (init_clock e) as [clk calls]. rewrite !st_bind_eq.
    cbn [fst snd]. by destruct (init_devices e clk) as [error calls']. }
  unfold init_clock, init_devices, ENOMEM.
  destruct (e_clk_get_sys e), (e_allocate_input e), (e_allocate_pointer e),
    (Z.eqb_spec (e_clk_prepare_enable e) 0),
    (Z.eqb_spec (e_register_input e) 0), (Z.eqb_spec (e_register_pointer e) 0),
    (Z.eqb_spec (e_kthread_run e) 0); cbn [negb fst snd app];
    (eexists; split; [reflexivity|]).
  all: repeat match goal with
    | E : ?x ≠ 0 |- context [?x =? 0] => rewrite (proj2 (Z.eqb_neq x 0) E)
    end.
  all: cbn [Z.eqb Z.opp]; repeat split; try (intros []); reflexivity.
Qed.

(** ** A scan reports what changed *)

(** A key that types in both modes: not the toggle, not Enter, none of the
    keys that drive the pointer. *)
Definition ordinary (k : exword_key) : Prop :=
  scan k ≠ EXWORD_MOUSE_TOGGLE_SCAN ∧ exword_mouse_action_scan (scan k) = false.

Section Reports.
Context {H : Type} `{Mmio H} (c : keycode) (v : bool).
Abbreviation K := (st (kst H)).
Abbreviation R := (λ i, reported exword_input c (k_ev i) = v).

#[local] Instance reports_emit_rel a x : Keeps R (input_report_rel a x : K unit).
Proof. by intros s. Qed.
#[local] Instance reports_emit_sync d : Keeps R (input_sync d : K unit).
Proof. by intros s. Qed.
#[local] Instance reports_emit_pointer b x : Keeps R (input_report_key exword_pointer b x : K unit).
Proof.
  intros s Hs. cbn [input_report_key emit upd_in st_upd snd k_in set_k_in k_ev set_k_ev].
  by rewrite reported_key, bool_decide_eq_false_2 by naive_solver.
Qed.
#[local] Instance reports_sources x : Keeps R (upd_in (set_k_sources x) : K unit).
Proof. by intros s. Qed.
#[local] Instance reports_active x : Keeps R (upd_in (set_k_active x) : K unit).
Proof. by intros s. Qed.
#[local] Instance reports_button b n d : Keeps R (exword_set_pointer_button b n d : K bool).
Proof. unfold exword_set_pointer_button. cbv zeta. apply _. Qed.
#[local] Instance reports_motion zone : Keeps R (exword_touch_report_motion zone : K bool).
Proof. destruct zone; apply _. Qed.
#[local] Instance reports_activate zone : Keeps R (exword_touch_activate_zone zone : K bool).
Proof. destruct zone; apply _. Qed.
#[local] Instance reports_release : Keeps R (exword_touch_release_active : K bool).
Proof.
  unfold exword_touch_release_active.
  apply keeps_bind; [apply _|intros zone]. destruct zone; apply _.
Qed.
#[local] Instance reports_poll : Keeps R (exword_touch_poll : K bool).
Proof.
  unfold exword_touch_poll, poll_lifted, poll_latched, poll_settling. cbv zeta. apply keeps_bind; [apply keeps_leaves, (leaves_read_sample k_in)|intros sample].
  apply keeps_bind; [apply _|intros active]. destruct sample; apply _.
Qed.
#[local] Instance reports_scan_touch : Keeps R (scan_touch : K bool).
Proof. unfold scan_touch. apply _. Qed.
#[local] Instance reports_repeat sample edge : Keeps R (scan_repeat sample edge : K bool).
Proof. unfold scan_repeat, exword_report_pointer_motion. cbv zeta. apply _. Qed.
Lemma reports_tail sample f :
  Keeps R (scan_tail sample f : K bool).
Proof. unfold scan_tail. apply _. Qed.
End Reports.

(** The other keys of the scan do not touch an ordinary key's report. *)
Lemma scan_key_in_other sample j k j' k' i :
  exword_keys !! j = Some k → exword_keys !! j' = Some k' → j' ≠ j → ordinary k →
  reported exword_input (code k) (k_ev (scan_key_in sample j' k' i))
  = reported exword_input (code k) (k_ev i).
Proof.
  intros Hj Hj' Hne [Ht Ha].
  assert (code k' ≠ code k) as Hc by (intros E; apply Hne; by eapply key_code_inj).
  destruct (key_entry j k Hj) as (_ & _ & Hact & _).
  assert (code k ∉ released_keys) as Hrel.
  { intros Hin. apply not_true_iff_false in Ha. apply Ha, Hact. unfold released_keys in Hin.
    set_solver. }
  unfold scan_key_in, mouse_key_in. cbv zeta.
  destruct (Bool.eqb _ _); [done|]. destruct (_ =? _).
  { destruct (exword_key_down _ _); [|done]. unfold toggle_in.
    destruct (k_mouse_mode _); [by rewrite !set_button_reports_input|].
    cbn [k_ev set_k_ev]. rewrite reported_sync, reported_released.
    by rewrite bool_decide_eq_false_2. }
  destruct (_ && _)%bool.
  { destruct (exword_mouse_button _); [by rewrite set_button_reports_input|done]. }
  case_bool_decide as Hent.
  - destruct (_ || _)%bool; [|done]. cbn [k_ev set_k_ev set_k_enter_seen app].
    rewrite reported_sync, reported_key, reported_sync, reported_key.
    rewrite !bool_decide_eq_false_2 by (intros [_ E]; congruence). done.
  - cbn [k_ev set_k_ev]. rewrite reported_key, bool_decide_eq_false_2; [done|].
    by intros [_ E].
Qed.

Lemma scan_key_in_reports sample j k i :
  exword_keys !! j = Some k → ordinary k →
  exword_key_down sample (scan k) ≠ k_down i !!! j →
  reported exword_input (code k) (k_ev (scan_key_in sample j k i))
  = exword_key_down sample (scan k).
Proof.
  intros Hj [Ht Ha] Hne. destruct (key_entry j k Hj) as (_ & _ & Hact & _).
  unfold scan_key_in, mouse_key_in. cbv zeta.
  destruct (Bool.eqb _ _) eqn:He; [by apply Bool.eqb_prop in He|].
  destruct (Z.eqb_spec (scan k) EXWORD_MOUSE_TOGGLE_SCAN); [done|].
  rewrite Ha, andb_false_r. rewrite bool_decide_eq_false_2.
  - cbn [k_ev set_k_ev]. by rewrite reported_key, bool_decide_eq_true_2.
  - intros E. apply not_true_iff_false in Ha. apply Ha, Hact. rewrite E. set_solver.
Qed.

Section ScanReports.
Context {H : Type} `{Mmio H}.

Lemma scan_keys_later sample j kt ks j' f (s : kst H) :
  exword_keys !! j = Some kt → ordinary kt →
  (∀ n k, ks !! n = Some k → exword_keys !! (j' + n)%nat = Some k) → (j < j')%nat →
  reported exword_input (code kt) (k_ev (k_in (scan_keys sample j' ks f s).2))
  = reported exword_input (code kt) (k_ev (k_in s)).
Proof.
  intros Hj Hord. revert j' f s. induction ks as [|k ks IH]; intros j' f s Hks Hlt; [done|].
  cbn [scan_keys]. rewrite st_bind_eq, IH; [|intros n k' Hn|lia].
  - rewrite scan_key_eq. apply (scan_key_in_other sample j kt j' k); [done| |lia|done].
    rewrite <- (Nat.add_0_r j'). by apply Hks.
  - replace (S j' + n)%nat with (j' + S n)%nat by lia. by apply Hks.
Qed.

Lemma scan_keys_reports sample t kt j ks f (s : kst H) :
  exword_keys !! t = Some kt → ordinary kt →
  (∀ n k, ks !! n = Some k → exword_keys !! (j + n)%nat = Some k) →
  (j <= t < j + length ks)%nat → inputs_ok (k_in s) →
  exword_key_down sample (scan kt) ≠ k_down (k_in s) !!! t →
  reported exword_input (code kt) (k_ev (k_in (scan_keys sample j ks f s).2))
  = exword_key_down sample (scan kt).
Proof.
  intros Ht Hord. revert j f s. induction ks as [|k ks IH]; intros j f s Hks Hr Hs Hne.
  { simpl in Hr. lia. }
  cbn [scan_keys]. rewrite st_bind_eq.
  assert (exword_keys !! j = Some k) as Hj by (rewrite <- (Nat.add_0_r j); by apply Hks).
  pose proof (scan_key_eq sample j k f s) as E.
  assert (∀ n k', ks !! n = Some k' → exword_keys !! (S j + n)%nat = Some k') as Hks'.
  { intros n k' Hn. replace (S j + n)%nat with (j + S n)%nat by lia. by apply Hks. }
  destruct (decide (t = j)) as [->|Hn].
  - rewrite Hj in Ht. simplify_eq.
    rewrite (scan_keys_later sample j kt) by (done || lia). rewrite E. by apply scan_key_in_reports.
  - apply IH; [done|simpl in Hr; lia|rewrite E; by apply scan_key_in_ok|].
    rewrite E. intros Hd. apply Hne. rewrite Hd.
    rewrite !list_lookup_total_alt. f_equal.
    rewrite (scan_key_in_down sample j k) by (done || apply Hs).
    by rewrite bool_decide_eq_false_2.
Qed.

(** Every change of an ordinary key is reported.  In a reachable state,
    when the words the next scan reads differ from the last ones in the bit of
    a key other than the mode toggle, Enter and the pointer keys, the scan
    leaves that key reported at its new level. *)
Theorem scan_reports_change (s : kst H) burst j k :
  reachable s burst → exword_keys !! j = Some k → ordinary k →
  let s' := (exword_scan_once s).2 in
  exword_key_down (k_raw s') (scan k) ≠ exword_key_down (k_raw s) (scan k) →
  reported exword_input (code k) (k_ev (k_in s')) = exword_key_down (k_raw s') (scan k).
Proof.
  intros Hr Hj Hord s'. destruct (reachable_scanned s burst Hr) as [Hs Hd]. subst s'.
  destruct (scan_once_run s) as (sample & s1 & E1 & Er1 & ->). cbv zeta.
  remember (Flags false false false) as f0 eqn:Hf0. clear Hf0.
  rewrite (leaves (g := k_raw) (m := scan_tail sample _)),
    (leaves (g := k_raw) (m := scan_keys sample 0 exword_keys f0)), Er1. intros Hne.
  apply (keeps (P := λ i, reported exword_input (code k) (k_ev i)
    = exword_key_down sample (scan k)) (m := scan_tail sample _)
    (Keeps := reports_tail (code k) _ sample _)).
  apply (scan_keys_reports sample j k); try done.
  - split; [lia|]. by eapply lookup_lt_Some.
  - by rewrite E1.
  - rewrite E1, Hd, list_lookup_total_alt, list_lookup_fmap, Hj. done.
Qed.
End ScanReports.

Lemma scan_reports_change_witness :
  let s := set_k_hw (words_of [43]) (run_scans []) in
  let s' := (exword_scan_once s).2 in
  exword_key_down (k_raw s') 43 ≠ exword_key_down (k_raw s) 43 ∧
  reported exword_input KEY_A (k_ev (k_in s')) = exword_key_down (k_raw s') 43.
Proof.
  intros s s'. assert (exword_key_down (k_raw s') 43 ≠ exword_key_down (k_raw s) 43) as Hne
    by discriminate.
  split; [exact Hne|].
  refine (scan_reports_change s 0 34 (Key 43 KEY_A) _ eq_refl _ Hne);
    [|split; [discriminate|reflexivity]].
  exists all_ok, (words_of []). rewrite init_key_words by reflexivity.
  apply rtc_once. apply kstep_hardware.
Defined.

(** ** The panel is debounced *)

(** What the debouncing of the panel remembers and the zone map it uses. *)
Definition touch_memory {H} (s : kst H) :=
  let t := k_touch s in
  (t_candidate t, t_candidate_samples t, t_candidate_sample t, t_release_samples t,
   t_cal t, t_cal_valid t).

Section Debounce.
Context {H : Type} `{Mmio H}.
Abbreviation K := (st (kst H)).

#[local] Instance memory_blind : BlindHw (touch_memory (H := H)).
Proof. by intros h s. Qed.
#[local] Instance memory_disable : Leaves (touch_memory (H := H)) exword_touch_disable.
Proof. by intros s. Qed.

Definition close (a b : exword_touch_sample) : Prop :=
  exword_small_abs (sample_x a - sample_x b) <= 96 ∧
  exword_small_abs (sample_y a - sample_y b) <= 96.

Lemma set_pointer_button_keeps b n d (s : kst H) :
  let s' := (exword_set_pointer_button b n d s).2 in
  k_active (k_in s') = k_active (k_in s) ∧ k_touch s' = k_touch s.
Proof.
  cbv zeta. unfold exword_set_pointer_button. destruct (_ <? 0); [done|].
  rewrite !st_bind_eq. by case_bool_decide.
Qed.

Lemma motion_keeps zone (s : kst H) :
  let s' := (exword_touch_report_motion zone s).2 in
  k_active (k_in s') = k_active (k_in s) ∧ k_touch s' = k_touch s.
Proof. by destruct zone. Qed.

Lemma activate_keeps zone (s : kst H) :
  let s' := (exword_touch_activate_zone zone s).2 in
  k_active (k_in s') = k_active (k_in s) ∧ k_touch s' = k_touch s.
Proof.
  destruct zone; first [apply set_pointer_button_keeps|apply (motion_keeps _)].
Qed.

Lemma release_keeps (s : kst H) :
  let s' := (exword_touch_release_active s).2 in
  k_active (k_in s') = EXWORD_TOUCH_NONE ∧
  k_touch s' = set_t_repeat_polls 0 (k_touch s).
Proof.
  cbv zeta. rewrite touch_release_active_in. split; [done|].
  unfold exword_touch_release_active. rewrite !st_bind_eq.
  unfold get_in, st_get, upd_in, upd_touch, st_upd. cbn [fst snd mret st_mret k_touch set_k_in set_k_touch].
  f_equal. destruct (k_active (k_in s)); try done; apply set_pointer_button_keeps.
Qed.

Lemma exword_touch_sample_zone_some t sample :
  exword_touch_sample_zone t sample ≠ EXWORD_TOUCH_NONE.
Proof. unfold exword_touch_sample_zone. cbv zeta. by repeat case_match. Qed.

Lemma lifted_effect (s : kst H) :
  let active := k_active (k_in s) in
  let s' := (poll_lifted active s).2 in
  t_candidate_samples (k_touch s') = 0 ∧
  (active = EXWORD_TOUCH_NONE → k_active (k_in s') = EXWORD_TOUCH_NONE) ∧
  (active ≠ EXWORD_TOUCH_NONE → k_active (k_in s') = EXWORD_TOUCH_NONE →
   EXWORD_TOUCH_RELEASE_DEBOUNCE <= u32 (t_release_samples (k_touch s) + 1)) ∧
  (k_active (k_in s') ≠ EXWORD_TOUCH_NONE → k_active (k_in s') = active).
Proof.
  cbv zeta. unfold poll_lifted. rewrite !st_bind_eq. unfold upd_touch, st_upd, get_touch, st_get.
  cbn [fst snd k_touch set_k_touch id]. case_bool_decide as Ha; [by repeat split|].
  rewrite !st_bind_eq. cbn [fst snd k_touch set_k_touch t_release_samples
    set_t_candidate_samples set_t_candidate].
  destruct (Z.leb_spec EXWORD_TOUCH_RELEASE_DEBOUNCE (u32 (t_release_samples (k_touch s) + 1)));
    [|by repeat split].
  rewrite st_bind_eq.
  match goal with |- context [exword_touch_release_active ?s2] =>
    destruct (release_keeps s2) as [-> ->] end.
  by repeat split.
Qed.

Lemma latched_effect active polls (s : kst H) :
  let s' := (poll_latched active polls s).2 in
  t_release_samples (k_touch s') = t_release_samples (k_touch s) ∧
  k_active (k_in s') = k_active (k_in s).
Proof.
  cbv zeta. unfold poll_latched. destruct (_ && _)%bool; [|done].
  rewrite !st_bind_eq. destruct (EXWORD_TOUCH_REPEAT_POLLS <=? _); [|done]. rewrite st_bind_eq.
  match goal with |- context [exword_touch_report_motion ?z ?s2] =>
    destruct (motion_keeps z s2) as [-> ->] end.
  done.
Qed.

Lemma settling_effect t zone sample (s : kst H) :
  zone ≠ EXWORD_TOUCH_NONE → k_active (k_in s) = EXWORD_TOUCH_NONE →
  let s' := (poll_settling t zone sample s).2 in
  t_release_samples (k_touch s') = t_release_samples (k_touch s) ∧
  (k_active (k_in s') = EXWORD_TOUCH_NONE →
   t_candidate (k_touch s') = zone ∧ t_candidate_sample (k_touch s') = sample) ∧
  (k_active (k_in s') ≠ EXWORD_TOUCH_NONE →
   k_active (k_in s') = zone ∧ t_candidate t = zone ∧ close sample (t_candidate_sample t) ∧
   EXWORD_TOUCH_DEBOUNCE <= u32 (t_candidate_samples t + 1)).
Proof.
  intros Hz Ha. cbv zeta. unfold poll_settling. rewrite !st_bind_eq.
  unfold upd_touch, st_upd. cbn [fst snd k_touch set_k_touch].
  destruct (_ <? EXWORD_TOUCH_DEBOUNCE) eqn:Hn; [by repeat split; intros|].
  rewrite !st_bind_eq.
  match goal with |- context [exword_touch_activate_zone zone ?s2] =>
    destruct (activate_keeps zone s2) as [-> ->] end.
  split; [done|]. split; [by intros|]. intros _. split; [done|]. unfold close. revert Hn.
  rewrite !Z.gtb_ltb. case_bool_decide as Hc; cbn [negb orb]; [|done].
  destruct (Z.ltb_spec 96 (exword_small_abs (sample_x sample - sample_x (t_candidate_sample t))));
    cbn [orb]; [done|].
  destruct (Z.ltb_spec 96 (exword_small_abs (sample_y sample - sample_y (t_candidate_sample t))));
    cbn [orb]; [done|].
  intros Hn%Z.ltb_ge. by repeat split.
Qed.

(** One poll, by the sample it reads from the panel. *)
Lemma poll_effect (s : kst H) :
  let t := k_touch s in
  let active := k_active (k_in s) in
  let s' := (exword_touch_poll s).2 in
  match (exword_touch_read_sample s).1 with
  | None =>
      t_candidate_samples (k_touch s') = 0 ∧
      (active = EXWORD_TOUCH_NONE → k_active (k_in s') = EXWORD_TOUCH_NONE) ∧
      (active ≠ EXWORD_TOUCH_NONE → k_active (k_in s') = EXWORD_TOUCH_NONE →
       EXWORD_TOUCH_RELEASE_DEBOUNCE <= u32 (t_release_samples t + 1)) ∧
      (k_active (k_in s') ≠ EXWORD_TOUCH_NONE → k_active (k_in s') = active)
  | Some sample =>
      let zone := exword_touch_sample_zone t sample in
      t_release_samples (k_touch s') = 0 ∧
      (active ≠ EXWORD_TOUCH_NONE → k_active (k_in s') = active) ∧
      (active = EXWORD_TOUCH_NONE →
       (k_active (k_in s') = EXWORD_TOUCH_NONE →
        t_candidate (k_touch s') = zone ∧ t_candidate_sample (k_touch s') = sample) ∧
       (k_active (k_in s') ≠ EXWORD_TOUCH_NONE →
        k_active (k_in s') = zone ∧ t_candidate t = zone ∧
        close sample (t_candidate_sample t) ∧
        EXWORD_TOUCH_DEBOUNCE <= u32 (t_candidate_samples t + 1)))
  end.
Proof.
  cbv zeta. unfold exword_touch_poll. rewrite !st_bind_eq.
  pose proof (leaves_read_sample k_in s) as Ei.
  pose proof (leaves_read_sample touch_memory s) as Et.
  revert Ei Et. generalize (exword_touch_read_sample s).1, (exword_touch_read_sample s).2.
  intros o s1 Ei Et. rewrite <- Ei. injection Et as Ec Ecs Ecl Er Hcal Hvalid.
  unfold get_in, st_get. cbn [fst snd].
  destruct o as [sample|]; [|rewrite <- Er; apply lifted_effect].
  assert (exword_touch_sample_zone (k_touch s) sample
          = exword_touch_sample_zone (set_t_release_samples 0 (k_touch s1)) sample) as ->.
  { unfold exword_touch_sample_zone. by rewrite <- Hcal, <- Hvalid. }
  rewrite <- Ec, <- Ecs, <- Ecl, !st_bind_eq. unfold upd_touch, st_upd, get_touch, st_get.
  cbn [fst snd k_touch set_k_touch id]. cbv zeta.
  match goal with |- context [exword_touch_sample_zone ?t sample] =>
    pose proof (exword_touch_sample_zone_some t sample) as Hz;
    generalize dependent (exword_touch_sample_zone t sample) end.
  intros zone Hz. case_bool_decide as Ha; cbn [negb].
  - match goal with |- context [poll_settling ?t zone sample ?s2] =>
      destruct (settling_effect t zone sample s2 Hz Ha) as (Hr & Hnone & Hsome) end.
    split; [exact Hr|]. split; [by intros|]. by intros _.
  - match goal with |- context [poll_latched ?x ?n ?s2] =>
      destruct (latched_effect x n s2) as [Hr Hsame] end.
    split; [exact Hr|]. split; [by intros|by intros].
Qed.

(** The panel is debounced and a press is latched.  Take any two successive
    polls, with any change of the hardware in between.  A zone becomes active
    only if both polls read a sample in that zone within 96 counts of each
    other; an active zone is given up only if both polls read no sample; and it
    never changes to another zone without having been given up. *)
Theorem touch_debounced (s : kst H) (h : H) :
  let s1 := (exword_touch_poll s).2 in
  let s2 := set_k_hw h s1 in
  let s3 := (exword_touch_poll s2).2 in
  let before := k_active (k_in s1) in
  let after := k_active (k_in s3) in
  (before = EXWORD_TOUCH_NONE → after ≠ EXWORD_TOUCH_NONE →
   ∃ a b, (exword_touch_read_sample s).1 = Some a ∧
     (exword_touch_read_sample s2).1 = Some b ∧
     exword_touch_sample_zone (k_touch s) a = after ∧
     exword_touch_sample_zone (k_touch s2) b = after ∧ close b a) ∧
  (before ≠ EXWORD_TOUCH_NONE → after = EXWORD_TOUCH_NONE →
   (exword_touch_read_sample s).1 = None ∧ (exword_touch_read_sample s2).1 = None) ∧
  (before ≠ EXWORD_TOUCH_NONE → after ≠ EXWORD_TOUCH_NONE → after = before).
Proof.
  cbv zeta. pose proof (poll_effect s) as P1.
  pose proof (poll_effect (set_k_hw h (exword_touch_poll s).2)) as P2.
  cbv zeta in P1, P2. cbn [k_touch k_in set_k_hw] in P2.
  destruct (exword_touch_read_sample s).1 as [a|],
    (exword_touch_read_sample (set_k_hw h (exword_touch_poll s).2)).1 as [b|];
    cbn [k_touch set_k_hw].
  - destruct P1 as (_ & Pn & Py), P2 as (_ & Qn & Qy). split; [|split].
    + intros Hb Ha. destruct (Qy Hb) as [_ Ql]. destruct (Ql Ha) as (-> & Hc & Hcl & _).
      destruct (decide (k_active (k_in s) = EXWORD_TOUCH_NONE)) as [E|E].
      * destruct (Py E) as [Pz _]. destruct (Pz Hb) as [Ez Es].
        exists a, b. rewrite <- Ez, Hc. rewrite Es in Hcl. auto.
      * specialize (Pn E). congruence.
    + intros Hb Ha. rewrite Qn in Ha by done. done.
    + intros Hb _. auto.
  - destruct P1 as (Hr & _), P2 as (_ & Qn & Qy & Qs). split; [|split].
    + intros Hb Ha. by destruct Ha; apply Qn.
    + intros Hb Ha. specialize (Qy Hb Ha). by rewrite Hr in Qy.
    + intros Hb. auto.
  - destruct P1 as (Hc & Pn & _), P2 as (_ & Qn & Qy). split; [|split].
    + intros Hb Ha. destruct (Qy Hb) as [_ Ql]. destruct (Ql Ha) as (_ & _ & _ & Hd).
      by rewrite Hc in Hd.
    + intros Hb Ha. rewrite Qn in Ha by done. done.
    + intros Hb _. auto.
  - destruct P1 as (Hc & Pn & _), P2 as (_ & Qn & Qy & Qs). split; [|split].
    + intros Hb Ha. by destruct Ha; apply Qn.
    + by split.
    + intros Hb. auto.
Qed.
End Debounce.
