(* ===== verification/DataBuffer.v ===== *)
(** * libexword: network buffers ([src/tools/libexword/src/databuffer.c])

    A buffer is one allocated block with free space in front of the data, free
    space behind it, and free space reserved for neither end.  The model holds
    the block as a byte list and the [data] pointer as its offset in the block;
    [size_t] is 64 bits and the [int] temporaries of the code are kept.  The
    allocator is a parameter: which sizes it can serve, and what a new block
    holds.  [buf_dump] only prints and is left out. *)

From S2P Require Import Prelude.

(** The C library's allocator. *)
Class Alloc := {
  malloc_ok : Z → bool;
  fresh : Z → list Z;
}.
Class AllocOk `{Alloc} := {
  fresh_length n : 0 <= n → zlen (fresh n) = n;
  fresh_bytes n : bytes_ok (fresh n);
  (** no block is larger than 1 GiB *)
  malloc_bounded n : malloc_ok n = true → n <= 2 ^ 30;
}.

Record buf_t := Buf {
  buffer : list Z;  (** the allocated block *)
  data : Z;         (** [data - buffer] *)
  head_avail : Z;
  data_avail : Z;
  tail_avail : Z;
  data_size : Z;
}.

Abbreviation M := (res buf_t).

Section DataBuffer.
Context `{Alloc}.

Definition sizeof_buf_t : Z := 48.

(** [None] is a failed [malloc]. *)
Definition buf_new (default_size : Z) : option buf_t :=
  if malloc_ok sizeof_buf_t && malloc_ok default_size
  then Some (Buf (fresh default_size) 0 0 default_size 0 0)
  else None.

Definition buf_total_size (p : buf_t) : Z :=
  u64 (head_avail p + data_avail p + tail_avail p + data_size p).

(** [realloc] of a block to [n] bytes. *)
Definition realloc (l : list Z) (n : Z) : option (list Z) :=
  if malloc_ok n then Some (take (Z.to_nat n) l ++ drop (length l) (fresh n)) else None.

(** Giving [itRem] bytes back: from the free space in the middle, behind and
    in front, then from the data.  Each step leaves what is still to give. *)
Definition give (itRem avail : Z) : Z * Z :=
  if u64 itRem >? avail then (s32 (u64 (itRem - avail)), 0)
  else (0, u64 (avail - itRem)).

Definition buf_shrink (p : buf_t) (itRem : Z) : buf_t :=
  let '(itRem, data_avail') := give itRem (data_avail p) in
  let '(itRem, tail_avail') := give itRem (tail_avail p) in
  let moved off src :=
    splice (Z.to_nat off) (slice (Z.to_nat src) (Z.to_nat (data_size p)) (buffer p))
      (buffer p) in
  let '(itRem, head_avail', buffer') :=
    if u64 itRem >? head_avail p
    then (s32 (u64 (itRem - head_avail p)), 0, moved 0 (head_avail p))
    else (0, u64 (head_avail p - itRem),
          moved (u64 (head_avail p - itRem)) (u64 (head_avail p - itRem) + itRem)) in
  let data_size' := if u64 itRem >? data_size p then 0 else u64 (data_size p - itRem) in
  Buf buffer' (data p) head_avail' data_avail' tail_avail' data_size'.

Definition buf_resize (p : buf_t) (new_size : Z) : buf_t :=
  let bSize := s32 (buf_total_size p) in
  let '(p, bSize) :=
    if new_size <? u64 bSize then (buf_shrink p (s32 (u64 (bSize - new_size))), 0)
    else (p, s32 (u64 (new_size - bSize))) in
  let tmp := realloc (buffer p) new_size in
  if new_size =? 0 then Buf [] 0 0 0 0 0
  else
    match tmp with
    | None => p
    | Some tmp =>
        Buf tmp (head_avail p) (head_avail p) (u64 (data_avail p + bSize))
          (tail_avail p) (data_size p)
    end.

Definition buf_reuse (p : buf_t) : buf_t :=
  Buf (buffer p) 0 0 (buf_total_size p) 0 0.

(** The reserved area's offset; [None] is [NULL]. *)
Definition buf_reserve_begin (n : Z) : st buf_t (option Z) := λ p,
  if n <=? head_avail p then
    let head := u64 (head_avail p - n) in
    (Some head, Buf (buffer p) head head (data_avail p) (tail_avail p)
                  (u64 (data_size p + n)))
  else
    let finish (p : buf_t) :=
      (Some 0, Buf (splice (Z.to_nat n)
                      (slice (Z.to_nat (head_avail p)) (Z.to_nat (data_size p)) (buffer p))
                      (buffer p))
                 0 0 (data_avail p) (tail_avail p) (u64 (data_size p + n))) in
    if n >? u64 (head_avail p + data_avail p) then
      let tmp := s32 (data_avail p) in
      let p' := buf_resize p
        (u64 (buf_total_size p + n - head_avail p - data_avail p)) in
      if u64 tmp =? data_avail p' then (None, p')
      else finish (Buf (buffer p') (data p') (head_avail p') 0 (tail_avail p') (data_size p'))
    else finish (Buf (buffer p) (data p) (head_avail p)
                   (u64 (data_avail p - (n - head_avail p))) (tail_avail p) (data_size p)).

Definition buf_reserve_end (n : Z) : st buf_t (option Z) := λ p,
  let finish (p : buf_t) :=
    (Some (head_avail p + data_size p),
     Buf (buffer p) (head_avail p) (head_avail p) (data_avail p) (tail_avail p)
       (u64 (data_size p + n))) in
  if n <=? tail_avail p then
    finish (Buf (buffer p) (data p) (head_avail p) (data_avail p)
              (u64 (tail_avail p - n)) (data_size p))
  else if n >? u64 (tail_avail p + data_avail p) then
    let tmp := s32 (data_avail p) in
    let p' := buf_resize p
      (u64 (buf_total_size p + n - tail_avail p - data_avail p)) in
    if u64 tmp =? data_avail p' then (None, p')
    else finish (Buf (buffer p') (data p') (head_avail p') 0 0 (data_size p'))
  else finish (Buf (buffer p) (data p) (head_avail p)
                 (u64 (data_avail p - (n - tail_avail p))) 0 (data_size p)).

(** [memcpy] into the block. *)
Definition buf_store (off : Z) (bs : list Z) : M unit := λ p,
  if off + zlen bs <=? zlen (buffer p)
  then Ok tt (Buf (splice (Z.to_nat off) bs (buffer p)) (data p) (head_avail p)
                (data_avail p) (tail_avail p) (data_size p))
  else Fault OutOfBounds.

(** [n] bytes of the block from [off] on. *)
Definition buf_load (off n : Z) : M (list Z) := λ p,
  if (0 <=? off) && (off + n <=? zlen (buffer p))
  then Ok (slice (Z.to_nat off) (Z.to_nat n) (buffer p)) p
  else Fault OutOfBounds.

Definition lift {A} (m : st buf_t A) : M A := λ p, let '(a, p') := m p in Ok a p'.

Definition buf_insert_begin (bs : list Z) : M unit :=
  dest ← lift (buf_reserve_begin (zlen bs));
  off ← res_opt AssertFailed dest;
  buf_store off bs.

Definition buf_insert_end (bs : list Z) : M unit :=
  dest ← lift (buf_reserve_end (zlen bs));
  off ← res_opt AssertFailed dest;
  buf_store off bs.

Definition buf_remove_begin (n : Z) (p : buf_t) : buf_t :=
  let k := if n <? data_size p then n else data_size p in
  let head := u64 (head_avail p + k) in
  Buf (buffer p) head head (data_avail p) (tail_avail p)
    (if n <? data_size p then u64 (data_size p - n) else 0).

Definition buf_remove_end (n : Z) (p : buf_t) : buf_t :=
  let k := if n <? data_size p then n else data_size p in
  Buf (buffer p) (data p) (head_avail p) (data_avail p) (u64 (tail_avail p + k))
    (if n <? data_size p then u64 (data_size p - n) else 0).

(** ** The abstract queue *)

(** The data in the buffer. *)
Definition content (p : buf_t) : list Z :=
  slice (Z.to_nat (head_avail p)) (Z.to_nat (data_size p)) (buffer p).

(** Well-formed: the four areas fill the block, which an [int] can measure. *)
Record buf_ok (p : buf_t) : Prop := {
  bk_head : 0 <= head_avail p;
  bk_data_avail : 0 <= data_avail p;
  bk_tail : 0 <= tail_avail p;
  bk_size : 0 <= data_size p;
  bk_total : head_avail p + data_avail p + tail_avail p + data_size p = zlen (buffer p);
  bk_int : zlen (buffer p) < 2 ^ 31;
  bk_ptr : data p = head_avail p;
  bk_bytes : bytes_ok (buffer p);
}.
End DataBuffer.

Section Facts.
Context `{AllocOk}.

Ltac fields := cbn [buffer data head_avail data_avail tail_avail data_size].
(** Sizes in range are not changed by the conversions. *)
Ltac exact_sizes :=
  repeat match goal with
  | |- context [u64 ?x] => rewrite (u64_small x) by (unfold is_u; lia)
  | |- context [s32 ?x] => rewrite (s32_small x) by lia
  end.

Lemma buf_total_size_ok p : buf_ok p → buf_total_size p = zlen (buffer p).
Proof. intros []. unfold buf_total_size. exact_sizes. done. Qed.

Lemma content_length p : buf_ok p → zlen (content p) = data_size p.
Proof. intros []. unfold content, zlen in *. rewrite slice_length; lia. Qed.

Lemma content_bytes p : buf_ok p → bytes_ok (content p).
Proof. intros []. by apply bytes_ok_slice. Qed.

Lemma buf_new_ok n p :
  0 <= n → buf_new n = Some p →
  buf_ok p ∧ content p = [] ∧ zlen (buffer p) = n ∧ data_avail p = n.
Proof.
  intros Hn. unfold buf_new. destruct (_ && _)%bool eqn:Hm; [|done].
  apply andb_prop in Hm as [_ Hm%malloc_bounded]. intros [= <-].
  pose proof (fresh_length n). split; [|split; [done|cbn; lia]].
  split; fields; try lia. apply fresh_bytes.
Qed.

Lemma buf_reuse_ok p : buf_ok p → buf_ok (buf_reuse p) ∧ content (buf_reuse p) = [].
Proof.
  intros Hp. split; [|done]. pose proof (buf_total_size_ok p Hp) as E. destruct Hp.
  pose proof (zlen_nonneg (buffer p)). unfold buf_reuse; split; fields; rewrite ?E; done || lia.
Qed.

(** Growing: the block is kept and extended. *)
Lemma buf_resize_grow p n :
  buf_ok p → zlen (buffer p) <= n < 2 ^ 31 → 0 < n → malloc_ok n = true →
  buf_resize p n
  = Buf (buffer p ++ drop (length (buffer p)) (fresh n)) (head_avail p) (head_avail p)
      (data_avail p + (n - zlen (buffer p))) (tail_avail p) (data_size p).
Proof.
  intros Hp Hn H0n Hm. unfold buf_resize, realloc. rewrite buf_total_size_ok by done.
  destruct Hp. pose proof (zlen_nonneg (buffer p)). exact_sizes.
  rewrite (proj2 (Z.ltb_ge _ _)) by lia. cbv beta iota zeta. exact_sizes.
  rewrite (proj2 (Z.eqb_neq _ _)) by lia. rewrite Hm. exact_sizes.
  rewrite take_ge by (unfold zlen in *; lia). reflexivity.
Qed.

(** A growth that fails leaves the buffer alone. *)
Lemma buf_resize_grow_fail p n :
  buf_ok p → zlen (buffer p) <= n < 2 ^ 31 → 0 < n → malloc_ok n = false →
  buf_resize p n = p.
Proof.
  intros Hp Hn H0n Hm. unfold buf_resize, realloc. rewrite buf_total_size_ok by done.
  destruct Hp. pose proof (zlen_nonneg (buffer p)). exact_sizes.
  rewrite (proj2 (Z.ltb_ge _ _)) by lia.
  rewrite (proj2 (Z.eqb_neq _ _)) by lia. by rewrite Hm.
Qed.

Lemma give_ok itRem avail :
  0 <= itRem < 2 ^ 31 → 0 <= avail < 2 ^ 31 →
  give itRem avail = (Z.max 0 (itRem - avail), Z.max 0 (avail - itRem)).
Proof.
  intros Hi Ha. unfold give. rewrite Z.gtb_ltb. exact_sizes.
  destruct (Z.ltb_spec avail itRem); exact_sizes; f_equal; lia.
Qed.

(** The data after a shrink by [itRem] bytes lies where the header says. *)
Lemma buf_shrink_ok p itRem :
  buf_ok p → 0 <= itRem <= zlen (buffer p) →
  let p' := buf_shrink p itRem in
  0 <= head_avail p' ∧ 0 <= data_avail p' ∧ 0 <= tail_avail p' ∧ 0 <= data_size p' ∧
  head_avail p' + data_avail p' + tail_avail p' + data_size p' = zlen (buffer p) - itRem ∧
  zlen (buffer p') = zlen (buffer p) ∧ bytes_ok (buffer p') ∧
  content p' = take (Z.to_nat (zlen (buffer p) - itRem)) (content p).
Proof.
  intros Hp Hi. pose proof (content_length p Hp) as Hcl. pose proof (content_bytes p Hp) as Hcb.
  destruct Hp. unfold buf_shrink. rewrite give_ok by lia. cbv beta iota.
  rewrite give_ok by lia. cbv beta iota zeta.
  set (rem := Z.max 0 (Z.max 0 (itRem - data_avail p) - tail_avail p)).
  assert (0 <= rem <= head_avail p + data_size p) as Hrem by lia.
  rewrite Z.gtb_ltb. exact_sizes.
  assert (∀ off size, 0 <= off → 0 <= size <= data_size p → off <= head_avail p →
    let l := splice (Z.to_nat off) (content p) (buffer p) in
    zlen l = zlen (buffer p) ∧ bytes_ok l ∧
    slice (Z.to_nat off) (Z.to_nat size) l = take (Z.to_nat size) (content p)) as Hmove.
  { intros off size Ho Hs Hoh l. unfold zlen in *. split; [|split].
    - subst l. rewrite splice_length; lia.
    - by apply bytes_ok_splice.
    - transitivity (take (Z.to_nat size) (slice (Z.to_nat off) (length (content p)) l)).
      + rewrite take_slice. f_equal. lia.
      + subst l. rewrite slice_splice_same; [done|lia]. }
  destruct (Z.ltb_spec (head_avail p) rem); exact_sizes; cbv beta iota.
  - rewrite Z.gtb_ltb. exact_sizes. rewrite (proj2 (Z.ltb_ge _ _)) by lia. exact_sizes.
    destruct (Hmove 0 (data_size p - (rem - head_avail p))) as (El & Eb & Ec); [lia..|].
    unfold content in *. fields. repeat split; try done; try lia.
    rewrite Ec. f_equal. lia.
  - rewrite Z.gtb_ltb. exact_sizes. rewrite (proj2 (Z.ltb_ge _ _)) by lia. exact_sizes.
    replace (head_avail p - rem + rem) with (head_avail p) by lia.
    destruct (Hmove (head_avail p - rem) (data_size p)) as (El & Eb & Ec); [lia..|].
    unfold content in *. fields. rewrite Z.sub_0_r. repeat split; try done; try lia.
    rewrite Ec, !take_ge; [done| |]; unfold zlen in *; lia.
Qed.

Lemma buf_resize_shrink p n :
  buf_ok p → 0 < n < 2 ^ 31 → n < zlen (buffer p) → malloc_ok n = true →
  buf_ok (buf_resize p n) ∧ zlen (buffer (buf_resize p n)) = n ∧
  content (buf_resize p n) = take (Z.to_nat n) (content p).
Proof.
  intros Hp Hn Hlt Hm. pose proof (content_length p Hp) as Hcl.
  unfold buf_resize. rewrite buf_total_size_ok by done. pose proof (bk_int p Hp).
  exact_sizes. rewrite (proj2 (Z.ltb_lt _ _)) by lia. exact_sizes. cbv beta iota zeta.
  destruct (buf_shrink_ok p (zlen (buffer p) - n) Hp) as
    (Hh & Hd & Ht & Hs & Htot & El & Eb & Ec); [lia|].
  revert Hh Hd Ht Hs Htot El Eb Ec. generalize (buf_shrink p (zlen (buffer p) - n)).
  intros p' Hh Hd Ht Hs Htot El Eb Ec. unfold realloc. rewrite Hm.
  rewrite (proj2 (Z.eqb_neq _ _)) by lia.
  assert (drop (length (buffer p')) (fresh n) = []) as ->.
  { apply drop_ge. pose proof (fresh_length n). unfold zlen in *. lia. }
  rewrite app_nil_r. 
  replace (zlen (buffer p) - (zlen (buffer p) - n)) with n in * by lia.
  exact_sizes. rewrite Z.add_0_r.
  assert (zlen (take (Z.to_nat n) (buffer p')) = n) as El'.
  { unfold zlen in *. rewrite length_take. lia. }
  split; [split; fields; rewrite ?El'; try done; try lia; by apply Forall_take|].
  split; [done|]. rewrite <- Ec. unfold content. fields. rewrite slice_take; [done|lia].
Qed.

Lemma grown_length (l : list Z) n :
  zlen l <= n → zlen (l ++ drop (length l) (fresh n)) = n.
Proof.
  intros Hl. pose proof (zlen_nonneg l). pose proof (fresh_length n).
  rewrite zlen_app. unfold zlen in *. rewrite length_drop. lia.
Qed.

Lemma grown_bytes (l : list Z) n : bytes_ok l → bytes_ok (l ++ drop (length l) (fresh n)).
Proof. intros Hl. apply Forall_app. split; [done|]. apply Forall_drop, fresh_bytes. Qed.

(** Space for [n] bytes is there or can be made. *)
Definition room_end (p : buf_t) (n : Z) : Prop :=
  n <= tail_avail p + data_avail p ∨
  malloc_ok (head_avail p + data_size p + n) = true.
Definition room_begin (p : buf_t) (n : Z) : Prop :=
  n <= head_avail p + data_avail p ∨
  malloc_ok (tail_avail p + data_size p + n) = true.

Lemma buf_reserve_end_ok p n :
  buf_ok p → 0 <= n → room_end p n →
  ∃ p', buf_reserve_end n p = (Some (head_avail p + data_size p), p') ∧ buf_ok p' ∧
    head_avail p' = head_avail p ∧ data_size p' = data_size p + n ∧
    slice (Z.to_nat (head_avail p)) (Z.to_nat (data_size p)) (buffer p') = content p ∧
    zlen (buffer p) <= zlen (buffer p') ∧ tail_avail p' <= tail_avail p ∧
    (n <= tail_avail p + data_avail p → buffer p' = buffer p).
Proof.
  intros Hp Hn Hroom. pose proof (buf_total_size_ok p Hp) as Et.
  pose proof Hp as [? ? ? ? Htot ? ? ?].
  unfold buf_reserve_end. destruct (Z.leb_spec n (tail_avail p)).
  { eexists. split; [reflexivity|]. fields. exact_sizes.
    repeat split; fields; exact_sizes; done || lia. }
  rewrite Z.gtb_ltb, Et. exact_sizes.
  destruct (Z.ltb_spec (tail_avail p + data_avail p) n).
  - destruct Hroom as [?|Hm]; [lia|]. pose proof (malloc_bounded _ Hm). exact_sizes.
    replace (zlen (buffer p) + n - tail_avail p - data_avail p)
      with (head_avail p + data_size p + n) by lia.
    rewrite buf_resize_grow by (done || lia). cbn [data_avail buffer head_avail data_size data].
    rewrite (proj2 (Z.eqb_neq _ _)) by lia.
    eexists. split; [reflexivity|]. fields. exact_sizes.
    pose proof (grown_length (buffer p) (head_avail p + data_size p + n)) as Hgl.
    repeat split; fields; exact_sizes; try done; try lia.
    + apply grown_bytes. done.
    + apply slice_app_l. unfold zlen in *. lia.
  - exact_sizes. eexists. split; [reflexivity|]. fields. exact_sizes.
    repeat split; fields; exact_sizes; done || lia.
Qed.

Lemma buf_reserve_end_fail p n :
  buf_ok p → tail_avail p + data_avail p < n →
  head_avail p + data_size p + n < 2 ^ 31 →
  malloc_ok (head_avail p + data_size p + n) = false →
  buf_reserve_end n p = (None, p).
Proof.
  intros Hp Hn Hb Hm. pose proof (buf_total_size_ok p Hp) as Et.
  pose proof Hp as [? ? ? ? Htot ? ? ?].
  unfold buf_reserve_end. rewrite (proj2 (Z.leb_gt _ _)) by lia.
  rewrite Z.gtb_ltb, Et. exact_sizes. rewrite (proj2 (Z.ltb_lt _ _)) by lia.
  replace (zlen (buffer p) + n - tail_avail p - data_avail p)
    with (head_avail p + data_size p + n) by lia. exact_sizes.
  rewrite buf_resize_grow_fail by (done || lia). by rewrite Z.eqb_refl.
Qed.

Lemma buf_reserve_begin_fail p n :
  buf_ok p → head_avail p + data_avail p < n →
  tail_avail p + data_size p + n < 2 ^ 31 →
  malloc_ok (tail_avail p + data_size p + n) = false →
  buf_reserve_begin n p = (None, p).
Proof.
  intros Hp Hn Hb Hm. pose proof (buf_total_size_ok p Hp) as Et.
  pose proof Hp as [? ? ? ? Htot ? ? ?].
  unfold buf_reserve_begin. rewrite (proj2 (Z.leb_gt _ _)) by lia.
  rewrite Z.gtb_ltb, Et. exact_sizes. rewrite (proj2 (Z.ltb_lt _ _)) by lia.
  replace (zlen (buffer p) + n - head_avail p - data_avail p)
    with (tail_avail p + data_size p + n) by lia. exact_sizes.
  rewrite buf_resize_grow_fail by (done || lia). by rewrite Z.eqb_refl.
Qed.

(** The [memmove] of the contents to make room in front of them. *)
Lemma content_moved p n l :
  buf_ok p → bytes_ok l → (Z.to_nat n + Z.to_nat (data_size p) <= length l)%nat →
  slice (Z.to_nat (head_avail p)) (Z.to_nat (data_size p)) l = content p →
  let l' := splice (Z.to_nat n) (slice (Z.to_nat (head_avail p)) (Z.to_nat (data_size p)) l) l in
  slice (Z.to_nat n) (Z.to_nat (data_size p)) l' = content p ∧ zlen l' = zlen l ∧ bytes_ok l'.
Proof.
  intros Hp Hb Hl E. cbv zeta. pose proof (content_length p Hp) as Hc. rewrite E.
  unfold zlen in *. split; [|split].
  - replace (Z.to_nat (data_size p)) with (length (content p)) by lia.
    apply slice_splice_same. lia.
  - rewrite splice_length; lia.
  - apply bytes_ok_splice; [by apply content_bytes|done].
Qed.

Lemma buf_reserve_begin_ok p n :
  buf_ok p → 0 <= n → room_begin p n →
  ∃ off p', buf_reserve_begin n p = (Some off, p') ∧ head_avail p' = off ∧ buf_ok p' ∧
    data_size p' = n + data_size p ∧ zlen (buffer p) <= zlen (buffer p') ∧
    slice (Z.to_nat (head_avail p' + n)) (Z.to_nat (data_size p)) (buffer p') = content p.
Proof.
  intros Hp Hn Hroom. pose proof (buf_total_size_ok p Hp) as Et.
  pose proof Hp as [? ? ? ? Htot ? ? ?].
  unfold buf_reserve_begin. destruct (Z.leb_spec n (head_avail p)).
  { exact_sizes. eexists _, _. split; [reflexivity|]. fields. exact_sizes.
    repeat split; fields; exact_sizes; try done; try lia.
    unfold content. do 2 f_equal. lia. }
  rewrite Z.gtb_ltb, Et. exact_sizes.
  destruct (Z.ltb_spec (head_avail p + data_avail p) n).
  - destruct Hroom as [?|Hm]; [lia|]. pose proof (malloc_bounded _ Hm). exact_sizes.
    replace (zlen (buffer p) + n - head_avail p - data_avail p)
      with (tail_avail p + data_size p + n) by lia.
    rewrite buf_resize_grow by (done || lia). cbn [data_avail buffer head_avail data_size data tail_avail].
    rewrite (proj2 (Z.eqb_neq _ _)) by lia.
    pose proof (grown_length (buffer p) (tail_avail p + data_size p + n)) as Hgl.
    destruct (content_moved p n (buffer p ++ drop (length (buffer p))
      (fresh (tail_avail p + data_size p + n))) Hp) as (Ec & El & Eb);
      [by apply grown_bytes|unfold zlen in *; lia|apply slice_app_l; unfold zlen in *; lia|].
    eexists _, _. split; [reflexivity|]. fields. exact_sizes.
    repeat split; fields; exact_sizes; try done; try lia.
  - exact_sizes. destruct (content_moved p n (buffer p) Hp) as (Ec & El & Eb); [done|unfold zlen in *; lia|done|].
    eexists _, _. split; [reflexivity|]. fields. exact_sizes.
    repeat split; fields; exact_sizes; try done; try lia.
Qed.

Lemma buf_store_ok off bs p :
  buf_ok p → bytes_ok bs → 0 <= off → off + zlen bs <= zlen (buffer p) →
  ∃ p', buf_store off bs p = Ok tt p' ∧ buf_ok p' ∧
    buffer p' = splice (Z.to_nat off) bs (buffer p) ∧ head_avail p' = head_avail p ∧
    data_avail p' = data_avail p ∧ tail_avail p' = tail_avail p ∧ data_size p' = data_size p.
Proof.
  intros [] Hb Hoff Hfit. unfold buf_store. rewrite (proj2 (Z.leb_le _ _)) by done.
  assert (zlen (splice (Z.to_nat off) bs (buffer p)) = zlen (buffer p)) as El.
  { unfold zlen in *. rewrite splice_length; lia. }
  eexists. split; [reflexivity|]. fields. repeat split; fields; rewrite ?El; try done.
  by apply bytes_ok_splice.
Qed.

Lemma buf_insert_end_ok p bs :
  buf_ok p → bytes_ok bs → room_end p (zlen bs) →
  ∃ p', buf_insert_end bs p = Ok tt p' ∧ buf_ok p' ∧ content p' = content p ++ bs ∧
    head_avail p' = head_avail p ∧ zlen (buffer p) <= zlen (buffer p') ∧
    tail_avail p' <= tail_avail p ∧
    (zlen bs <= tail_avail p + data_avail p → zlen (buffer p') = zlen (buffer p)).
Proof.
  intros Hp Hb Hroom. pose proof (zlen_nonneg bs) as Hn.
  destruct (buf_reserve_end_ok p (zlen bs) Hp Hn Hroom)
    as (p1 & E & Hp1 & Eh & Es & Ec & Hl & Ht & Hsame).
  unfold buf_insert_end, lift, mbind, res_mbind, res_opt, mret, res_mret. rewrite E.
  pose proof Hp1 as [? ? ? ? Htot ? ? ?]. pose proof Hp as [? ? ? ? ? ? ? ?].
  destruct (buf_store_ok (head_avail p + data_size p) bs p1)
    as (p2 & E2 & Hp2 & Eb2 & Eh2 & _ & Et2 & Es2); [done|done|lia|lia|].
  exists p2. split; [exact E2|]. split; [done|].
  assert (zlen (buffer p2) = zlen (buffer p1)) as El2.
  { rewrite Eb2. unfold zlen in *. rewrite splice_length; lia. }
  split; [|split; [congruence|split; [lia|split; [lia|]]]].
  - unfold content. rewrite Eh2, Es2, Eh, Es, Eb2.
    rewrite Z2Nat.inj_add by lia. rewrite slice_app_split.
    unfold zlen in *. f_equal.
    + rewrite slice_splice_before by lia. done.
    + replace (Z.to_nat (Z.of_nat (length bs))) with (length bs) by lia.
      replace (Z.to_nat (head_avail p + data_size p))
        with (Z.to_nat (head_avail p) + Z.to_nat (data_size p))%nat by lia.
      apply slice_splice_same. lia.
  - intros Hfit. rewrite El2. by rewrite Hsame.
Qed.

Lemma buf_insert_begin_ok p bs :
  buf_ok p → bytes_ok bs → room_begin p (zlen bs) →
  ∃ p', buf_insert_begin bs p = Ok tt p' ∧ buf_ok p' ∧ content p' = bs ++ content p ∧
    zlen (buffer p) <= zlen (buffer p').
Proof.
  intros Hp Hb Hroom. pose proof (zlen_nonneg bs) as Hn.
  destruct (buf_reserve_begin_ok p (zlen bs) Hp Hn Hroom)
    as (off & p1 & E & Eh & Hp1 & Es & Hl & Ec).
  unfold buf_insert_begin, lift, mbind, res_mbind, res_opt, mret, res_mret. rewrite E.
  pose proof Hp1 as [? ? ? ? Htot ? ? ?]. pose proof Hp as [? ? ? ? ? ? ? ?].
  destruct (buf_store_ok off bs p1)
    as (p2 & E2 & Hp2 & Eb2 & Eh2 & _ & _ & Es2); [done|done|lia|lia|].
  exists p2. split; [exact E2|]. split; [done|]. split; [|rewrite Eb2; unfold zlen in *; rewrite splice_length; lia].
  unfold content at 1. rewrite Eh2, Es2, Eh, Es, Eb2. rewrite Z2Nat.inj_add by lia.
  rewrite slice_app_split. unfold zlen in *. f_equal.
  - replace (Z.to_nat (Z.of_nat (length bs))) with (length bs) by lia.
    apply slice_splice_same. lia.
  - rewrite slice_splice_after by lia. rewrite <- Ec, Eh. f_equal. lia.
Qed.

(** Reserving space in front and filling it, as [buf_insert_begin]. *)
Lemma reserve_begin_store p n :
  buf_ok p → 0 <= n → room_begin p n →
  ∃ off p1, buf_reserve_begin n p = (Some off, p1) ∧ data_size p1 = n + data_size p ∧
    ∀ bytes, bytes_ok bytes → zlen bytes = n →
      ∃ p2, buf_store off bytes p1 = Ok tt p2 ∧ buf_ok p2 ∧
        content p2 = bytes ++ content p ∧ zlen (buffer p) <= zlen (buffer p2).
Proof.
  intros Hp Hn Hroom.
  destruct (buf_reserve_begin_ok p n Hp Hn Hroom) as (off & p1 & E & Eh & Hp1 & Es & Hl & Ec).
  exists off, p1. split; [done|]. split; [done|]. intros bytes Hb <-.
  destruct (buf_insert_begin_ok p bytes Hp Hb Hroom) as (p2 & E2 & Hp2 & Ec2 & Hl2).
  exists p2. split; [|done]. revert E2.
  unfold buf_insert_begin, lift, mbind, res_mbind. by rewrite E.
Qed.

Lemma buf_remove_begin_ok n p :
  buf_ok p → 0 <= n →
  buf_ok (buf_remove_begin n p) ∧ content (buf_remove_begin n p) = drop (Z.to_nat n) (content p) ∧
  buffer (buf_remove_begin n p) = buffer p ∧
  head_avail (buf_remove_begin n p) = head_avail p + Z.min n (data_size p).
Proof.
  intros Hp Hn. pose proof (content_length p Hp) as Hcl. destruct Hp.
  unfold buf_remove_begin, content in *. fields.
  destruct (Z.ltb_spec n (data_size p)); exact_sizes.
  - split; [split; fields; try done; try lia|]. split; [|split; [done|lia]].
    rewrite drop_slice. f_equal; lia.
  - split; [split; fields; try done; try lia|]. split; [|split; [done|lia]].
    rewrite drop_ge; [done|]. unfold zlen in *. lia.
Qed.

Lemma buf_remove_end_ok n p :
  buf_ok p → 0 <= n →
  buf_ok (buf_remove_end n p) ∧
  content (buf_remove_end n p) = take (Z.to_nat (data_size p - n)) (content p) ∧
  buffer (buf_remove_end n p) = buffer p ∧ head_avail (buf_remove_end n p) = head_avail p ∧
  data_size (buf_remove_end n p) = Z.max 0 (data_size p - n).
Proof.
  intros Hp Hn. destruct Hp. unfold buf_remove_end, content. fields.
  destruct (Z.ltb_spec n (data_size p)); exact_sizes.
  - split; [split; fields; try done; try lia|]. split; [|repeat split; lia].
    rewrite take_slice. f_equal. lia.
  - split; [split; fields; try done; try lia|]. split; [|repeat split; lia].
    replace (Z.to_nat (data_size p - n)) with 0%nat by lia. done.
Qed.

(** C35: Inserting refines appending to a byte queue.  In a well-formed buffer
    whose size fits an [int], [buf_insert_end] puts the bytes behind the data and
    [buf_insert_begin] in front of it, whether the free space suffices or the
    block grows, and keeps the buffer well-formed; the only failure of either is
    the assertion, and it fails only when the space on its side does not suffice
    and the allocator refuses the growth. *)
Theorem buf_insert_refines (p : buf_t) (bs : list Z) :
  buf_ok p → bytes_ok bs → zlen (buffer p) + zlen bs < 2 ^ 31 →
  match buf_insert_end bs p with
  | Ok _ p' => buf_ok p' ∧ content p' = content p ++ bs
  | Fault e => e = AssertFailed ∧ tail_avail p + data_avail p < zlen bs ∧
               malloc_ok (head_avail p + data_size p + zlen bs) = false
  end ∧
  match buf_insert_begin bs p with
  | Ok _ p' => buf_ok p' ∧ content p' = bs ++ content p
  | Fault e => e = AssertFailed ∧ head_avail p + data_avail p < zlen bs ∧
               malloc_ok (tail_avail p + data_size p + zlen bs) = false
  end.
Proof.
  intros Hp Hb Hbound. pose proof Hp as [? ? ? ? ? ? ? ?]. pose proof (zlen_nonneg bs). split.
  - destruct (decide (zlen bs <= tail_avail p + data_avail p)) as [Hfit|Hfit].
    { destruct (buf_insert_end_ok p bs Hp Hb (or_introl Hfit)) as (p' & -> & ? & ? & _). done. }
    destruct (malloc_ok (head_avail p + data_size p + zlen bs)) eqn:Hm.
    + destruct (buf_insert_end_ok p bs Hp Hb) as (p' & -> & ? & ? & _); [|done].
      by right.
    + unfold buf_insert_end, lift, mbind, res_mbind, res_opt.
      rewrite buf_reserve_end_fail by (done || lia). cbn. repeat split; lia.
  - destruct (decide (zlen bs <= head_avail p + data_avail p)) as [Hfit|Hfit].
    { destruct (buf_insert_begin_ok p bs Hp Hb (or_introl Hfit)) as (p' & -> & ? & ? & _). done. }
    destruct (malloc_ok (tail_avail p + data_size p + zlen bs)) eqn:Hm.
    + destruct (buf_insert_begin_ok p bs Hp Hb) as (p' & -> & ? & ? & _); [|done].
      by right.
    + unfold buf_insert_begin, lift, mbind, res_mbind, res_opt.
      rewrite buf_reserve_begin_fail by (done || lia). cbn. repeat split; lia.
Qed.

(** Removing refines dropping from the queue's ends.  [buf_remove_begin]
    drops that many bytes from the front of the data and [buf_remove_end] from
    its end, everything when asked for more than there is; [buf_reuse] empties the
    buffer; all of them keep the block and the buffer well-formed. *)
Theorem buf_remove_refines (p : buf_t) (n : Z) :
  buf_ok p → 0 <= n →
  (buf_ok (buf_remove_begin n p) ∧
   content (buf_remove_begin n p) = drop (Z.to_nat n) (content p)) ∧
  (buf_ok (buf_remove_end n p) ∧
   content (buf_remove_end n p) = take (length (content p) - Z.to_nat n) (content p)) ∧
  (buf_ok (buf_reuse p) ∧ content (buf_reuse p) = []).
Proof.
  intros Hp Hn. split; [|split; [|by apply buf_reuse_ok]].
  - destruct (buf_remove_begin_ok n p Hp Hn) as (? & ? & _). done.
  - destruct (buf_remove_end_ok n p Hp Hn) as (? & -> & _). split; [done|].
    pose proof (content_length p Hp). unfold zlen in *. f_equal. lia.
Qed.

(** Resizing keeps the data that fits.  For a positive size that the
    allocator can serve, [buf_resize] leaves a well-formed buffer of exactly that
    size that holds the first bytes of the data, all of them unless the new
    block is too small. *)
Theorem buf_resize_keeps (p : buf_t) (n : Z) :
  buf_ok p → 0 < n < 2 ^ 31 → malloc_ok n = true →
  buf_ok (buf_resize p n) ∧ zlen (buffer (buf_resize p n)) = n ∧
  content (buf_resize p n) = take (Z.to_nat n) (content p).
Proof.
  intros Hp Hn Hm. pose proof (content_length p Hp) as Hcl.
  destruct (decide (zlen (buffer p) <= n)) as [Hge|Hlt].
  - rewrite buf_resize_grow by (done || lia).
    pose proof (grown_length (buffer p) n Hge) as Hgl. destruct Hp.
    split; [split; fields; rewrite ?Hgl; try done; try lia; by apply grown_bytes|].
    split; [done|]. unfold content in *. fields.
    rewrite slice_app_l by (unfold zlen in *; lia).
    rewrite take_ge; [done|]. unfold zlen in *. lia.
  - by apply buf_resize_shrink; [| |lia|].
Qed.
End Facts.

(** ** Concrete runs *)

(** An allocator that serves requests up to 1 GiB with zeroed memory. *)
Definition ample : Alloc :=
  {| malloc_ok n := n <=? 2 ^ 30; fresh n := replicate (Z.to_nat n) 0 |}.

Lemma ample_ok : @AllocOk ample.
Proof.
  split; intros n; cbn.
  - intros Hn. unfold zlen. rewrite length_replicate. lia.
  - apply Forall_replicate. done.
  - apply Z.leb_le.
Qed.

(** Eight bytes: two in front, two reserved for neither end, one behind. *)
Definition small_buf : buf_t := Buf [9; 9; 1; 2; 3; 9; 9; 9] 2 2 2 1 3.

Lemma small_buf_ok : buf_ok small_buf.
Proof. by repeat (split || compute_dec). Qed.

Lemma buf_insert_refines_witness :
  match @buf_insert_end ample [4; 5; 6; 7] small_buf with
  | Ok _ p' => buf_ok p' ∧ content p' = [1; 2; 3; 4; 5; 6; 7]
  | Fault _ => False
  end.
Proof.
  pose proof (proj1 (@buf_insert_refines ample ample_ok small_buf [4; 5; 6; 7]
    small_buf_ok ltac:(compute_dec) eq_refl)) as Hi.
  revert Hi. vm_compute. intros [Hok _]. split; [exact Hok|reflexivity].
Defined.

Lemma buf_remove_refines_witness :
  content (buf_remove_begin 1 small_buf) = [2; 3] ∧
  content (buf_remove_end 2 small_buf) = take (3 - 2) [1; 2; 3].
Proof.
  pose proof (buf_remove_refines small_buf 1 small_buf_ok
    ltac:(done)) as [[_ E1] _].
  pose proof (buf_remove_refines small_buf 2 small_buf_ok
    ltac:(done)) as [_ [[_ E2] _]].
  split; [exact E1|exact E2].
Defined.

Lemma buf_resize_keeps_witness :
  content (@buf_resize ample small_buf 2) = take 2 [1; 2; 3].
Proof.
  exact (proj2 (proj2 (@buf_resize_keeps ample ample_ok small_buf 2 small_buf_ok
    (conj eq_refl eq_refl) eq_refl))).
Defined.

(** When a shrink moves the data and [realloc] then fails, [data] is left at
    the old place although the data is elsewhere. *)
Example data_stale_after_failed_shrink :
  let p := @buf_resize {| malloc_ok _ := false; fresh n := [] |} small_buf 3 in
  data p = 2 ∧ head_avail p = 0 ∧ content p = [1; 2; 3].
Proof. repeat split. Qed.
