(* ===== verification/Obex.v ===== *)
(** * libexword: the OBEX transport ([src/tools/libexword/src/obex.c], [obex.h])

    Requests and responses over two USB bulk endpoints.  The library's USB calls
    are the class [Usb]; each message buffer is a [buf_t] of [DataBuffer], each
    header queue a list of elements in queue order.  A dereference of [NULL] or
    an access outside a block is a [Fault].  Debug output is left out. *)

From S2P Require Import Prelude DataBuffer.

(** ** Constants *)

Definition OBEX_OBJECT_ALLOCATIONTRESHOLD : Z := 10240.
Definition OBEX_VERSION : Z := 0x11.
Definition OBEX_FL_FIT_ONE_PACKET : Z := 1.
Definition OBEX_HDR_TYPE_UNICODE : Z := 0x00.
Definition OBEX_HDR_TYPE_BYTES : Z := 0x40.
Definition OBEX_HDR_TYPE_UINT8 : Z := 0x80.
Definition OBEX_HDR_TYPE_UINT32 : Z := 0xc0.
Definition OBEX_HDR_TYPE_MASK : Z := 0xc0.
Definition OBEX_HDR_EMPTY : Z := 0x00.
Definition OBEX_HDR_NAME : Z := 0x01.
Definition OBEX_HDR_LENGTH : Z := 0xc3.
Definition OBEX_HDR_BODY : Z := 0x48.
Definition OBEX_HDR_BODY_END : Z := 0x49.
Definition OBEX_HDR_CRYPTKEY : Z := 0x71.
Definition OBEX_HDR_AUTHINFO : Z := 0x70.
Definition OBEX_CMD_CONNECT : Z := 0x00.
Definition OBEX_CMD_DISCONNECT : Z := 0x01.
Definition OBEX_CMD_PUT : Z := 0x02.
Definition OBEX_CMD_GET : Z := 0x03.
Definition OBEX_CMD_SETPATH : Z := 0x05.
Definition OBEX_FINAL : Z := 0x80.
Definition OBEX_RSP_CONTINUE : Z := 0x10.
Definition OBEX_RSP_SUCCESS : Z := 0x20.
Definition OBEX_DEFAULT_MTU : Z := 4096.
Definition OBEX_MAXIMUM_MTU : Z := 65535.

(** Sizes of the packed wire structures and of a queue element. *)
Definition sizeof_common_hdr : Z := 4.
Definition sizeof_rsp_hdr : Z := 3.
Definition sizeof_unicode_hdr : Z := 3.
Definition sizeof_header_element : Z := 48.
Definition sizeof_obex_object : Z := 112.

(** ** USB *)

(** [libusb_bulk_transfer]: a write returns its result and the number of bytes
    sent, a read its result and the bytes received. *)
Class Usb (U : Type) := {
  bulk_write : list Z → U → (Z * Z) * U;
  bulk_read : Z → U → (Z * list Z) * U;
}.
(** libusb never delivers more bytes than asked for. *)
Class UsbOk U `{Usb U} :=
  bulk_read_fits : ∀ n u, 0 <= n →
    zlen (bulk_read n u).1.2 <= n ∧ bytes_ok (bulk_read n u).1.2.

(** ** Data *)

Record obex_t (U : Type) := Obex {
  usb : U;
  version : Z;
  locale : Z;
  mtu_rx : Z;
  mtu_tx : Z;
  mtu_tx_max : Z;
  tx_msg : buf_t;
  rx_msg : buf_t;
  seq_num : Z;
}.
Arguments Obex {U}.
Arguments usb {U}.
Arguments version {U}.
Arguments locale {U}.
Arguments mtu_rx {U}.
Arguments mtu_tx {U}.
Arguments mtu_tx_max {U}.
Arguments tx_msg {U}.
Arguments rx_msg {U}.
Arguments seq_num {U}.

Definition set_usb {U} (v : U) (s : obex_t U) : obex_t U :=
  Obex v (version s) (locale s) (mtu_rx s) (mtu_tx s) (mtu_tx_max s) (tx_msg s) (rx_msg s) (seq_num s).
Definition set_mtus {U} (rx tx : Z) (s : obex_t U) : obex_t U :=
  Obex (usb s) (version s) (locale s) rx tx (mtu_tx_max s) (tx_msg s) (rx_msg s) (seq_num s).
Definition set_tx_msg {U} (v : buf_t) (s : obex_t U) : obex_t U :=
  Obex (usb s) (version s) (locale s) (mtu_rx s) (mtu_tx s) (mtu_tx_max s) v (rx_msg s) (seq_num s).
Definition set_rx_msg {U} (v : buf_t) (s : obex_t U) : obex_t U :=
  Obex (usb s) (version s) (locale s) (mtu_rx s) (mtu_tx s) (mtu_tx_max s) (tx_msg s) v (seq_num s).
Definition set_seq_num {U} (v : Z) (s : obex_t U) : obex_t U :=
  Obex (usb s) (version s) (locale s) (mtu_rx s) (mtu_tx s) (mtu_tx_max s) (tx_msg s) (rx_msg s) v.
Definition obex_set_connect_info {U} (ver loc : Z) (s : obex_t U) : obex_t U :=
  Obex (usb s) ver loc (mtu_rx s) (mtu_tx s) (mtu_tx_max s) (tx_msg s) (rx_msg s) (seq_num s).

(** [struct obex_header_element] without its link. *)
Record obex_header_element := Elem {
  e_buf : option buf_t;
  e_hi : Z;
  e_flags : Z;
  e_length : Z;
  e_body_touched : bool;
}.

Record obex_object_t := Object {
  tx_headerq : list obex_header_element;
  rx_headerq : list obex_header_element;
  rx_headerq_rm : list obex_header_element;
  rx_body : option buf_t;
  tx_nonhdr_data : option buf_t;
  rx_nonhdr_data : option buf_t;
  cmd : Z;
  opcode : Z;
  lastopcode : Z;
  headeroffset : Z;
  hinted_body_len : Z;
  totallen : Z;
}.
Definition set_tx_headerq (v : list obex_header_element) (o : obex_object_t) : obex_object_t :=
  Object v (rx_headerq o) (rx_headerq_rm o) (rx_body o) (tx_nonhdr_data o) (rx_nonhdr_data o)
    (cmd o) (opcode o) (lastopcode o) (headeroffset o) (hinted_body_len o) (totallen o).
Definition set_rx_headerq (v : list obex_header_element) (o : obex_object_t) : obex_object_t :=
  Object (tx_headerq o) v (rx_headerq_rm o) (rx_body o) (tx_nonhdr_data o) (rx_nonhdr_data o)
    (cmd o) (opcode o) (lastopcode o) (headeroffset o) (hinted_body_len o) (totallen o).
Definition set_rx_headerq_rm (v : list obex_header_element) (o : obex_object_t) : obex_object_t :=
  Object (tx_headerq o) (rx_headerq o) v (rx_body o) (tx_nonhdr_data o) (rx_nonhdr_data o)
    (cmd o) (opcode o) (lastopcode o) (headeroffset o) (hinted_body_len o) (totallen o).
Definition set_rx_body (v : option buf_t) (o : obex_object_t) : obex_object_t :=
  Object (tx_headerq o) (rx_headerq o) (rx_headerq_rm o) v (tx_nonhdr_data o) (rx_nonhdr_data o)
    (cmd o) (opcode o) (lastopcode o) (headeroffset o) (hinted_body_len o) (totallen o).
Definition set_tx_nonhdr_data (v : option buf_t) (o : obex_object_t) : obex_object_t :=
  Object (tx_headerq o) (rx_headerq o) (rx_headerq_rm o) (rx_body o) v (rx_nonhdr_data o)
    (cmd o) (opcode o) (lastopcode o) (headeroffset o) (hinted_body_len o) (totallen o).
Definition set_rx_nonhdr_data (v : option buf_t) (o : obex_object_t) : obex_object_t :=
  Object (tx_headerq o) (rx_headerq o) (rx_headerq_rm o) (rx_body o) (tx_nonhdr_data o) v
    (cmd o) (opcode o) (lastopcode o) (headeroffset o) (hinted_body_len o) (totallen o).
Definition set_headeroffset (v : Z) (o : obex_object_t) : obex_object_t :=
  Object (tx_headerq o) (rx_headerq o) (rx_headerq_rm o) (rx_body o) (tx_nonhdr_data o)
    (rx_nonhdr_data o) (cmd o) (opcode o) (lastopcode o) v (hinted_body_len o) (totallen o).
Definition set_hinted_body_len (v : Z) (o : obex_object_t) : obex_object_t :=
  Object (tx_headerq o) (rx_headerq o) (rx_headerq_rm o) (rx_body o) (tx_nonhdr_data o)
    (rx_nonhdr_data o) (cmd o) (opcode o) (lastopcode o) (headeroffset o) v (totallen o).
Definition set_totallen (v : Z) (o : obex_object_t) : obex_object_t :=
  Object (tx_headerq o) (rx_headerq o) (rx_headerq_rm o) (rx_body o) (tx_nonhdr_data o)
    (rx_nonhdr_data o) (cmd o) (opcode o) (lastopcode o) (headeroffset o) (hinted_body_len o) v.

(** The value of a header: [obex_headerdata_t]. *)
Inductive obex_headerdata_t : Type :=
| bq4 (v : Z)
| bq1 (v : Z)
| bs (v : list Z).

(** ** Sending *)

Section Obex.
Context `{Alloc} {U : Type} `{Usb U}.

(** The transport and the object a call works on. *)
Record conn := Conn { self : obex_t U; object : obex_object_t }.
Abbreviation X := (res conn).

Definition upd_self (f : obex_t U → obex_t U) : X unit :=
  res_upd (λ c, Conn (f (self c)) (object c)).
Definition upd_object (f : obex_object_t → obex_object_t) : X unit :=
  res_upd (λ c, Conn (self c) (f (object c))).
Definition get_self {A} (f : obex_t U → A) : X A := res_get (λ c, f (self c)).
Definition get_object {A} (f : obex_object_t → A) : X A := res_get (λ c, f (object c)).

(** A buffer operation on one of the message buffers. *)
Definition on_tx {A} (m : res buf_t A) : X A := λ c,
  match m (tx_msg (self c)) with
  | Ok a p => Ok a (Conn (set_tx_msg p (self c)) (object c))
  | Fault e => Fault e
  end.
Definition on_rx {A} (m : res buf_t A) : X A := λ c,
  match m (rx_msg (self c)) with
  | Ok a p => Ok a (Conn (set_rx_msg p (self c)) (object c))
  | Fault e => Fault e
  end.

(** Reserved space that the caller writes to: [NULL] faults. *)
Definition reserve_end (n : Z) : res buf_t Z :=
  dest ← lift (buf_reserve_end n); res_opt OutOfBounds dest.
Definition reserve_begin (n : Z) : res buf_t Z :=
  dest ← lift (buf_reserve_begin n); res_opt OutOfBounds dest.

(** The data of a buffer, [data_size] bytes from [data] on. *)
Definition buf_data : res buf_t (list Z) := λ p, buf_load (data p) (data_size p) p.
(** [n] bytes from [data + off] on. *)
Definition data_at (off n : Z) : res buf_t (list Z) := λ p, buf_load (data p + off) n p.

(** A computation on a buffer that is not one of the message buffers. *)
Definition on_buf {A} (p : buf_t) (m : res buf_t A) : X (A * buf_t) := λ c,
  match m p with Ok a p' => Ok (a, p') c | Fault e => Fault e end.

Definition obex_bulk_write : X Z :=
  bytes ← on_tx buf_data;
  u ← get_self usb;
  let '((retval, actual_length), u') := bulk_write bytes u in
  upd_self (set_usb u');;
  mret (if retval =? 0 then actual_length else retval).

(** A transfer into the receive buffer at [off]. *)
Definition bulk_read_at (off n : Z) : X (Z * Z) :=
  u ← get_self usb;
  let '((retval, bytes), u') := bulk_read n u in
  upd_self (set_usb u');;
  on_rx (buf_store off bytes);;
  mret (retval, zlen bytes).

Definition expected_length : X Z := b ← on_rx (data_at 1 2); mret (be_decode b).

Fixpoint bulk_read_loop (fuel : nat) : X Z :=
  match fuel with
  | O => res_fault OutOfFuel
  | S fuel' =>
      n ← get_self mtu_rx;
      buffer ← on_rx (reserve_end n);
      '(retval, actual_length) ← bulk_read_at buffer n;
      on_rx (res_upd (buf_remove_end (u64 (n - actual_length))));;
      expected ← expected_length;
      size ← get_self (λ s, data_size (rx_msg s));
      if (negb (expected =? size) && (retval =? 0)) || ((actual_length =? 0) && (retval =? 0))
      then bulk_read_loop fuel'
      else mret (if retval =? 0 then s32 size else retval)
  end.

Definition obex_bulk_read (fuel : nat) : X Z :=
  size ← get_self (λ s, data_size (rx_msg s));
  if size >? 0 then
    expected ← expected_length;
    if expected =? size then mret (s32 size) else bulk_read_loop fuel
  else bulk_read_loop fuel.

(** The polling loop of [obex_verify_seq]: at most [passes] transfers. *)
Fixpoint verify_loop (passes : nat) (off n : Z) (actual_length : Z) : X (Z * Z) :=
  match passes with
  | O => mret (0, actual_length)
  | S passes' =>
      '(retval, actual_length) ← bulk_read_at off n;
      if retval <? 0 then mret (retval, actual_length)
      else if actual_length =? 0 then
        match passes' with
        | O => mret (retval, actual_length)
        | S _ => verify_loop passes' off n actual_length
        end
      else mret (retval, actual_length)
  end.

Definition obex_verify_seq (seq : Z) : X bool :=
  n ← get_self mtu_rx;
  buffer ← on_rx (reserve_end n);
  '(retval, actual_length) ← verify_loop 100 buffer n 0;
  on_rx (res_upd (buf_remove_end (u64 (n - actual_length))));;
  if (retval <? 0) || (actual_length =? 0) then mret false
  else
    b ← on_rx (buf_load buffer 1);
    if negb (be_decode b =? seq) then mret false
    else on_rx (res_upd (buf_remove_begin 1));; mret true.

(** The result of handling the body header at the head of the queue: how much
    of the packet it filled and the header that stays queued, if any. *)
Definition send_body (h : obex_header_element) (tx_left : Z)
    : X (Z * option obex_header_element) :=
  body_txh ← on_tx (reserve_end sizeof_unicode_hdr);
  hbuf ← res_opt OutOfBounds (e_buf h);
  let hbuf := if e_body_touched h then hbuf else buf_remove_begin sizeof_unicode_hdr hbuf in
  if tx_left <? u64 (data_size hbuf + sizeof_unicode_hdr) then
    on_tx (buf_store body_txh (OBEX_HDR_BODY :: be_encode 2 (u16 tx_left)));;
    let n := u64 (tx_left - sizeof_unicode_hdr) in
    '(bytes, hbuf) ← on_buf hbuf (data_at 0 n);
    on_tx (buf_insert_end bytes);;
    mret (tx_left, Some (Elem (Some (buf_remove_begin n hbuf)) (e_hi h) (e_flags h)
                           (e_length h) true))
  else
    on_tx (buf_store body_txh
      (OBEX_HDR_BODY_END :: be_encode 2 (u16 (data_size hbuf + sizeof_unicode_hdr))));;
    '(bytes, hbuf) ← on_buf hbuf buf_data;
    on_tx (buf_insert_end bytes);;
    mret (u32 (data_size hbuf), None).

(** The packing loop: the headers left in the queue, and whether the loop ended
    without the error return. *)
Fixpoint pack_headers (q : list obex_header_element) (tx_left : Z)
    : X (bool * list obex_header_element) :=
  match q with
  | [] => mret (true, [])
  | h :: q' =>
      let continue (left : Z) := if left =? 0 then mret (true, q') else pack_headers q' left in
      if e_hi h =? OBEX_HDR_BODY then
        '(actual, kept) ← send_body h tx_left;
        match kept with
        | None => continue (u16 (tx_left - actual))
        | Some h' => if u16 (tx_left - actual) =? 0 then mret (true, h' :: q')
                     else res_fault OutOfFuel
        end
      else if e_hi h =? OBEX_HDR_EMPTY then continue tx_left
      else if e_length h <=? tx_left then
        hbuf ← res_opt OutOfBounds (e_buf h);
        '(bytes, _) ← on_buf hbuf (data_at 0 (e_length h));
        on_tx (buf_insert_end bytes);;
        continue (u16 (tx_left - e_length h))
      else
        m ← get_self mtu_tx;
        mret (negb (e_length h >? m), h :: q')
  end.

(** The packet around what was packed: its header, the bulk write and the answer. *)
Definition send_packed (q' : list obex_header_element) : X Z :=
  o ← get_object id;
  let finished := match q' with [] => true | _ => false end in
  let real_opcode := if finished then Z.lor (lastopcode o) OBEX_FINAL else opcode o in
  hdr ← on_tx (reserve_begin sizeof_common_hdr);
  seq ← get_self seq_num;
  upd_self (set_seq_num (u8 (seq + 1)));;
  size ← get_self (λ s, data_size (tx_msg s));
  on_tx (buf_store hdr ([seq; u8 real_opcode] ++ be_encode 2 (u16 (u16 size - 1))));;
  actual ← obex_bulk_write;
  if actual <? 0 then mret actual
  else
    verified ← obex_verify_seq seq;
    mret (if verified : bool then (if finished then 1 else 0) else -1).

Definition obex_object_send : X Z :=
  m ← get_self mtu_tx;
  let tx_left := u16 (m - sizeof_common_hdr) in
  on_tx (res_upd buf_reuse);;
  nonhdr ← get_object tx_nonhdr_data;
  (match nonhdr with
   | Some p =>
       '(bytes, _) ← on_buf p buf_data;
       on_tx (buf_insert_end bytes);;
       upd_object (set_tx_nonhdr_data None)
   | None => mret tt
   end);;
  q ← get_object tx_headerq;
  '(ok, q') ← pack_headers q tx_left;
  upd_object (set_tx_headerq q');;
  if negb ok then mret (-1) else send_packed q'.

(** ** Receiving *)

(** [obex_object_receive_body]; the second component of the state's receive
    buffer is read at the source's offset from [data]. *)
Definition obex_object_receive_body (hi source len : Z) : X Z :=
  size ← get_self (λ s, data_size (rx_msg s));
  if len >? size then mret (-1)
  else
    o ← get_object id;
    let alloclen := if negb (hinted_body_len o =? 0) then hinted_body_len o
                    else s32 (OBEX_OBJECT_ALLOCATIONTRESHOLD + len) in
    let body := match rx_body o with
                | Some p => Some p
                | None => buf_new (u64 alloclen)
                end in
    match body with
    | None => mret (-1)
    | Some p =>
        let t := s32 (buf_total_size p) in
        let wanted := u32 (t + OBEX_OBJECT_ALLOCATIONTRESHOLD + len) in
        let small := u64 (data_avail p + tail_avail p) <? u64 (s32 len) in
        let p := if small then buf_resize p wanted else p in
        upd_object (set_rx_body (Some p));;
        if small && negb (buf_total_size p =? wanted) then mret (-1)
        else
          bytes ← on_rx (data_at source len);
          '(_, p) ← on_buf p (buf_insert_end bytes);
          (if hi =? OBEX_HDR_BODY_END then
             (if malloc_ok sizeof_header_element then
                upd_object (λ o, set_rx_headerq
                  (rx_headerq o ++ [Elem (Some p) OBEX_HDR_BODY 0 (u32 (data_size p)) false]) o)
              else mret tt);;
             upd_object (set_rx_body None)
           else upd_object (set_rx_body (Some p)));;
          mret 1
    end.

(** Queueing a received header; [false] is a failed allocation. *)
Definition queue_header (hi source len : Z) : X bool :=
  if negb (malloc_ok sizeof_header_element) then mret false
  else
    match buf_new (if len =? 0 then 1 else len) with
    | None => mret false
    | Some p =>
        p ← (if len =? 0 then mret p
             else bytes ← on_rx (data_at source len);
                  '(_, p) ← on_buf p (buf_insert_end bytes);
                  mret p);
        upd_object (λ o, set_rx_headerq (rx_headerq o ++ [Elem (Some p) hi 0 len false]) o);;
        mret true
    end.

(** The loop's view of one header: where its value starts, the value's length
    and the header's, and the error so far. *)
Definition classify (hi : Z) : X (option Z * Z * Z * Z) :=
  let type := Z.land hi OBEX_HDR_TYPE_MASK in
  if (type =? OBEX_HDR_TYPE_BYTES) || (type =? OBEX_HDR_TYPE_UNICODE) then
    hl ← on_rx (data_at 1 2);
    let hlen := be_decode hl in
    let len := u32 (hlen - 3) in
    if (hi =? OBEX_HDR_BODY) || (hi =? OBEX_HDR_BODY_END) then
      r ← obex_object_receive_body hi 3 len;
      mret (None, len, hlen, if r <? 0 then -1 else 0)
    else mret (Some 3, len, hlen, 0)
  else if type =? OBEX_HDR_TYPE_UINT8 then mret (Some 1, 1, 2, 0)
  else if type =? OBEX_HDR_TYPE_UINT32 then mret (Some 1, 4, 5, 0)
  else mret (None, 0, 0, -1).

(** One turn of the header loop. *)
Definition handle_header : X Z :=
  size ← get_self (λ s, data_size (rx_msg s));
  b ← on_rx (data_at 0 1);
  let hi := be_decode b in
  '(source, len, hlen, err) ← classify hi;
  let '(source, err) := if len >? size then (None, -1) else (source, err) in
  err ← (match source with
         | Some source =>
             (if hi =? OBEX_HDR_LENGTH then
                v ← on_rx (data_at 1 4);
                upd_object (set_hinted_body_len (s32 (be_decode v)))
              else mret tt);;
             queued ← queue_header hi source len;
             mret (if queued : bool then err else -1)
         | None => mret err
         end);
  if negb (err =? 0) then mret err
  else on_rx (res_upd (buf_remove_begin hlen));; mret 0.

(** The header loop; the result is [err]. *)
Fixpoint parse_headers (fuel : nat) : X Z :=
  size ← get_self (λ s, data_size (rx_msg s));
  if negb (size >? 0) then mret 0
  else
    match fuel with
    | O => res_fault OutOfFuel
    | S fuel' =>
        err ← handle_header;
        if negb (err =? 0) then mret err else parse_headers fuel'
    end.

(** [fuel] bounds the reads of one message. *)
Definition obex_object_receive (fuel : nat) : X Z :=
  ret ← obex_bulk_read fuel;
  if ret <? 0 then mret ret
  else
    rsp ← on_rx (data_at 0 1);
    let rsp := be_decode rsp in
    l ← on_rx (data_at 1 2);
    size ← get_self (λ s, data_size (rx_msg s));
    if be_decode l >? size then mret (s32 size)
    else
      o ← get_object id;
      let connecting := opcode o =? OBEX_CMD_CONNECT in
      let success := rsp =? Z.lor OBEX_RSP_SUCCESS OBEX_FINAL in
      if connecting && success && negb (size >=? 7) then mret (-1)
      else
        (if connecting && success then upd_self (set_mtus OBEX_DEFAULT_MTU 0x4006)
         else mret tt);;
        (if connecting then upd_object (set_headeroffset 8) else mret tt);;
        (if opcode o =? OBEX_CMD_DISCONNECT
         then upd_self (set_mtus OBEX_DEFAULT_MTU OBEX_DEFAULT_MTU) else mret tt);;
        on_rx (res_upd (buf_remove_begin sizeof_rsp_hdr));;
        off ← get_object headeroffset;
        nonhdr_ok ←
          (if off =? 0 then mret true
           else
             match buf_new off with
             | None => upd_object (set_rx_nonhdr_data None);; mret false
             | Some p =>
                 bytes ← on_rx (data_at 0 off);
                 '(_, p) ← on_buf p (buf_insert_end bytes);
                 upd_object (set_rx_nonhdr_data (Some p));;
                 on_rx (res_upd (buf_remove_begin off));;
                 upd_object (set_headeroffset 0);;
                 mret true
             end);
        if negb nonhdr_ok then mret (-1)
        else
          size ← get_self (λ s, data_size (rx_msg s));
          err ← parse_headers (Z.to_nat size);
          if negb (err =? 0) then mret err
          else mret (Z.land rsp (Z.lnot OBEX_FINAL)).

(** ** Requests and objects *)

(** [callback] is the registered callback and [d] what its user data points to;
    [fuel] bounds the rounds. *)
Fixpoint obex_request {D} (fuel read_fuel : nat) (callback : option (D → X D)) (d : D)
    : X (Z * D) :=
  match fuel with
  | O => res_fault OutOfFuel
  | S fuel' =>
      ret ← obex_object_send;
      if ret <? 0 then mret (ret, d)
      else
        rsp ← obex_object_receive read_fuel;
        d ← match callback with Some f => f d | None => mret d end;
        if rsp =? OBEX_RSP_CONTINUE then obex_request fuel' read_fuel callback d
        else mret (rsp, d)
  end.

(** A new object; [None] is [NULL]. *)
Definition obex_object_new (self : obex_t U) (cmd : Z) : outcome unit (option obex_object_t) :=
  let o := Object [] [] [] None None None cmd cmd (Z.lor cmd OBEX_FINAL) 0 0 0 in
  if negb (malloc_ok sizeof_obex_object) then Ok None tt
  else if cmd =? OBEX_CMD_CONNECT then
    match buf_new 7 with
    | None => Ok None tt
    | Some p =>
        match (conn_hdr ← reserve_end 7;
               buf_store conn_hdr
                 ([version self; 0x40] ++ be_encode 2 (mtu_rx self) ++ [0x40; 0x00; locale self])) p
        with
        | Ok _ p => Ok (Some (set_tx_nonhdr_data (Some p) o)) tt
        | Fault e => Fault e
        end
    end
  else Ok (Some o) tt.

(** The bytes of a header as it goes on the wire, [None] where the value is
    not of the type the header's identifier calls for. *)
Definition encode_header (hi : Z) (hv : obex_headerdata_t) (hv_size : Z) : option (list Z) :=
  let type := Z.land hi OBEX_HDR_TYPE_MASK in
  if type =? OBEX_HDR_TYPE_UINT32 then
    match hv with bq4 v => Some (hi :: be_encode 4 v) | _ => None end
  else if type =? OBEX_HDR_TYPE_UINT8 then
    match hv with bq1 v => Some [hi; u8 v] | _ => None end
  else
    match hv with
    | bs l => if hv_size <=? zlen l
              then Some (hi :: be_encode 2 (u16 (hv_size + sizeof_unicode_hdr))
                         ++ take (Z.to_nat hv_size) l)
              else None
    | _ => None
    end.

Definition header_size (hi hv_size : Z) : Z :=
  let type := Z.land hi OBEX_HDR_TYPE_MASK in
  if type =? OBEX_HDR_TYPE_UINT32 then 5
  else if type =? OBEX_HDR_TYPE_UINT8 then 2
  else hv_size + sizeof_unicode_hdr.

Definition obex_object_addheader (hi : Z) (hv : obex_headerdata_t) (hv_size flags : Z) : X Z :=
  m ← get_self mtu_tx;
  total ← get_object totallen;
  let fit := negb (Z.land flags OBEX_FL_FIT_ONE_PACKET =? 0) in
  let maxlen := if fit then u32 (u64 (m - total - sizeof_common_hdr))
                else u32 (u64 (m - sizeof_common_hdr)) in
  let add (element : obex_header_element) :=
    upd_object (λ o, set_tx_headerq (tx_headerq o ++ [element]) o) in
  if negb (malloc_ok sizeof_header_element) then mret (-1)
  else if hi =? OBEX_HDR_EMPTY then
    add (Elem None hi flags 0 false);; mret 1
  else
    let size := header_size hi hv_size in
    match buf_new size with
    | None => mret (-1)
    | Some p =>
        bytes ← res_opt OutOfBounds (encode_header hi hv hv_size);
        '(_, p) ← on_buf p (off ← reserve_end size; buf_store off bytes);
        let length := u32 size in
        let ret := if (negb (hi =? OBEX_HDR_BODY) || fit) && (maxlen <? length)
                   then -1 else s32 length in
        if ret >? 0 then
          upd_object (λ o, set_totallen (s32 (totallen o + ret)) o);;
          add (Elem (Some p) hi flags length false);;
          mret 1
        else mret ret
    end.

(** The next received header: its identifier, length and value. *)
Definition obex_object_getnextheader : X (option (Z * Z * obex_headerdata_t)) :=
  q ← get_object rx_headerq;
  match q with
  | [] => mret None
  | h :: q' =>
      upd_object (λ o, set_rx_headerq_rm (rx_headerq_rm o ++ [h]) (set_rx_headerq q' o));;
      p ← res_opt OutOfBounds (e_buf h);
      let type := Z.land (e_hi h) OBEX_HDR_TYPE_MASK in
      if (type =? OBEX_HDR_TYPE_BYTES) || (type =? OBEX_HDR_TYPE_UNICODE) then
        '(l, _) ← on_buf p (data_at 0 (e_length h));
        mret (Some (e_hi h, e_length h, bs l))
      else if type =? OBEX_HDR_TYPE_UINT32 then
        '(l, _) ← on_buf p (data_at 0 4);
        mret (Some (e_hi h, e_length h, bq4 (be_decode l)))
      else
        '(l, _) ← on_buf p (data_at 0 1);
        mret (Some (e_hi h, e_length h, bq1 (be_decode l)))
  end.

Definition obex_object_set_nonhdr_data (bytes : list Z) : X Z :=
  o ← get_object id;
  match tx_nonhdr_data o with
  | Some _ => mret (-1)
  | None =>
      match buf_new (zlen bytes) with
      | None => mret (-1)
      | Some p =>
          '(_, p) ← on_buf p (buf_insert_end bytes);
          upd_object (set_tx_nonhdr_data (Some p));;
          mret 1
      end
  end.

(** ** Finding the endpoints *)

Record endpoint := Endpoint { bmAttributes : Z; bEndpointAddress : Z }.
Record altsetting := Altsetting {
  bInterfaceNumber : Z;
  bAlternateSetting : Z;
  endpoints : list endpoint;
}.
(** The endpoint addresses of the context; 0 is none. *)
Record addresses := Addresses { read_ep : Z; write_ep : Z; interrupt_ep : Z }.

Definition scan_endpoint (a : addresses) (e : endpoint) : addresses :=
  let in_dir := Z.land (bEndpointAddress e) 0x80 =? 0x80 in
  if Z.land (bmAttributes e) 3 =? 2 then
    if (read_ep a =? 0) && in_dir
    then Addresses (bEndpointAddress e) (write_ep a) (interrupt_ep a)
    else if (write_ep a =? 0) && negb in_dir
    then Addresses (read_ep a) (bEndpointAddress e) (interrupt_ep a)
    else a
  else if Z.land (bmAttributes e) 3 =? 3 then
    if (interrupt_ep a =? 0) && in_dir
    then Addresses (read_ep a) (write_ep a) (bEndpointAddress e)
    else a
  else a.

(** The search of [obex_claim_interface] over the alternate settings of all
    interfaces in order: the setting found and the addresses. *)
Fixpoint find_interface (alts : list altsetting) (a : addresses)
    : option altsetting * addresses :=
  match alts with
  | [] => (None, a)
  | alt :: alts' =>
      let a' := foldl scan_endpoint (Addresses 0 0 (interrupt_ep a)) (endpoints alt) in
      if negb (read_ep a' =? 0) && negb (write_ep a' =? 0) then (Some alt, a')
      else find_interface alts' a'
  end.

Definition LIBUSB_ERROR_NOT_FOUND : Z := -5.

(** [config] is the active configuration or the error of reading it; the other
    arguments are the results of claiming the interface and of selecting the
    setting.  The result has the return value, the interface number to keep
    and the addresses. *)
Definition obex_claim_interface (config : Z + list (list altsetting))
    (claim : Z → Z) (set_alt : Z → Z → Z) (a : addresses) : Z * option Z * addresses :=
  match config with
  | inl err => (err, None, a)
  | inr interfaces =>
      let '(found, a') := find_interface (concat interfaces) a in
      match found with
      | None => (LIBUSB_ERROR_NOT_FOUND, None, a')
      | Some alt =>
          let n := bInterfaceNumber alt in
          let ret := if claim n =? 0 then set_alt n (bAlternateSetting alt) else claim n in
          (ret, Some n, a')
      end
  end.

(** A device of the bus: its vendor and product if the descriptor can be read,
    the handle if it can be opened, the result of [obex_claim_interface]. *)
Record usb_device := UsbDevice {
  d_ids : option (Z * Z);
  d_open : option U;
  d_claim : Z;
}.

Definition open_device (vid pid : Z) (d : usb_device) : option U :=
  match d_ids d with
  | Some (v, p) =>
      if negb (v =? vid) || negb (p =? pid) then None
      else match d_open d with
           | Some u => if d_claim d =? 0 then Some u else None
           | None => None
           end
  | None => None
  end.

Fixpoint open_first (vid pid : Z) (ds : list usb_device) : option U :=
  match ds with
  | [] => None
  | d :: ds' => match open_device vid pid d with
                | Some u => Some u
                | None => open_first vid pid ds'
                end
  end.

(** [control] is the result of the vendor request that ends the set-up. *)
Definition obex_init (vid pid : Z) (devices : option (list usb_device)) (control : U → Z * U)
    : option (obex_t U) :=
  ds ← devices;
  u ← open_first vid pid ds;
  rx ← buf_new OBEX_DEFAULT_MTU;
  tx ← buf_new OBEX_MAXIMUM_MTU;
  let '(size, u') := control u in
  if size <? 0 then None
  else Some (Obex u' OBEX_VERSION 0 OBEX_DEFAULT_MTU OBEX_DEFAULT_MTU OBEX_MAXIMUM_MTU tx rx 0).
End Obex.
