(* ===== verification/ObexSend.v ===== *)
(** * libexword: what the transport sends

    Facts about [obex_object_send] of [src/tools/libexword/src/obex.c]: an
    abstract packing of the header queue into packets, and the refinement of
    the code to it. *)

From S2P Require Import Prelude DataBuffer Obex.

(** ** The abstract queue *)

(** A queued header: empty, a complete header of these wire bytes, or the part
    of the body still to send. *)
Inductive hdr : Type :=
| HEmpty
| HBytes (l : list Z)
| HBody (b : list Z).

Definition body_part (hi : Z) (b : list Z) : list Z :=
  hi :: be_encode 2 (zlen b + 3) ++ b.

(** Packing headers into [left] bytes of one packet: its bytes and what stays
    queued.  A body that does not fit is cut so that its part fills the packet;
    [None] where less than a body header's three bytes are left for it. *)
Fixpoint pack (q : list hdr) (left : Z) : option (list Z * list hdr) :=
  match q with
  | [] => Some ([], [])
  | HEmpty :: q' => if left =? 0 then Some ([], q') else pack q' left
  | HBytes l :: q' =>
      if zlen l <=? left then
        if left - zlen l =? 0 then Some (l, q')
        else '(bytes, rest) ← pack q' (left - zlen l); Some (l ++ bytes, rest)
      else Some ([], q)
  | HBody b :: q' =>
      if left <? 3 then None
      else if left <? zlen b + 3 then
        Some (body_part OBEX_HDR_BODY (take (Z.to_nat (left - 3)) b),
              HBody (drop (Z.to_nat (left - 3)) b) :: q')
      else if left - zlen b =? 0 then Some (body_part OBEX_HDR_BODY_END b, q')
      else '(bytes, rest) ← pack q' (left - zlen b);
           Some (body_part OBEX_HDR_BODY_END b ++ bytes, rest)
  end.

(** A packet is never longer than its limit and three bytes per header, the
    excess of a body that other headers follow. *)
Lemma pack_length q left bytes rest :
  pack q left = Some (bytes, rest) → zlen bytes <= Z.max 0 left + 3 * zlen q.
Proof.
  revert left bytes. induction q as [|a q IH]; intros left bytes Hp; cbn [pack] in Hp.
  { simplify_eq. unfold zlen. simpl. lia. }
  rewrite zlen_cons. pose proof (zlen_nonneg q).
  destruct a as [|l|b].
  - destruct (left =? 0); [simplify_eq; unfold zlen; simpl; lia|].
    apply IH in Hp. lia.
  - pose proof (zlen_nonneg l). destruct (Z.leb_spec (zlen l) left).
    + destruct (_ =? 0); [simplify_eq; lia|].
      destruct (pack q (left - zlen l)) as [[b1 r1]|] eqn:E; [|done]. cbn in Hp. simplify_eq.
      apply IH in E. rewrite zlen_app. lia.
    + simplify_eq. rewrite zlen_nil. lia.
  - pose proof (zlen_nonneg b).
    assert (∀ hi x, zlen (body_part hi x) = zlen x + 3) as Hbp.
    { intros hi x. unfold body_part. rewrite zlen_cons, zlen_app. unfold zlen at 1.
      rewrite be_encode_length. lia. }
    destruct (Z.ltb_spec left 3); [done|]. destruct (Z.ltb_spec left (zlen b + 3)).
    + simplify_eq. rewrite Hbp.
      assert (zlen (take (Z.to_nat (left - 3)) b) <= left - 3); [|lia].
      unfold zlen. rewrite length_take. lia.
    + destruct (_ =? 0); [simplify_eq; rewrite Hbp; lia|].
      destruct (pack q (left - zlen b)) as [[b1 r1]|] eqn:E; [|done]. apply (inj Some), (inj2 pair) in Hp as [<- <-].
      apply IH in E. rewrite zlen_app, Hbp. lia.
Qed.

Definition elem_abs (h : obex_header_element) (a : hdr) : Prop :=
  match a with
  | HEmpty => e_hi h = OBEX_HDR_EMPTY
  | HBytes l =>
      e_hi h ≠ OBEX_HDR_EMPTY ∧ e_hi h ≠ OBEX_HDR_BODY ∧ e_length h = zlen l ∧
      ∃ p, e_buf h = Some p ∧ buf_ok p ∧ content p = l
  | HBody b =>
      e_hi h = OBEX_HDR_BODY ∧
      ∃ p pre, e_buf h = Some p ∧ buf_ok p ∧ content p = pre ++ b ∧
        length pre = if e_body_touched h then 0%nat else 3%nat
  end.

(** No header is larger than a packet. *)
Definition within (m : Z) (a : hdr) : Prop :=
  match a with HBytes l => zlen l <= m | _ => True end.

Section Send.
Context `{AllocOk} {U : Type} `{Usb U}.
Abbreviation X := (res (conn (U := U))).

(** ** Running the connection monad *)

Lemma on_tx_ok {A} (m : res buf_t A) (c : conn (U := U)) a p :
  m (tx_msg (self c)) = Ok a p →
  on_tx m c = Ok a (Conn (set_tx_msg p (self c)) (object c)).
Proof. intros E. unfold on_tx. by rewrite E. Qed.

Lemma on_rx_ok {A} (m : res buf_t A) (c : conn (U := U)) a p :
  m (rx_msg (self c)) = Ok a p →
  on_rx m c = Ok a (Conn (set_rx_msg p (self c)) (object c)).
Proof. intros E. unfold on_rx. by rewrite E. Qed.

Lemma on_buf_ok {A} p (m : res buf_t A) (c : conn (U := U)) a p' :
  m p = Ok a p' → on_buf p m c = Ok (a, p') c.
Proof. intros E. unfold on_buf. by rewrite E. Qed.

Lemma set_tx_msg_twice p p' (s : obex_t U) : set_tx_msg p (set_tx_msg p' s) = set_tx_msg p s.
Proof. done. Qed.

(** ** Buffer operations of the transport *)

Lemma buf_data_ok p : buf_ok p → buf_data p = Ok (content p) p.
Proof.
  intros []. unfold buf_data, buf_load. rewrite bk_ptr.
  rewrite (proj2 (Z.leb_le _ _)), (proj2 (Z.leb_le _ _)) by lia. done.
Qed.

Lemma data_at_ok p off n :
  buf_ok p → 0 <= off → 0 <= n → off + n <= data_size p →
  data_at off n p = Ok (take (Z.to_nat n) (drop (Z.to_nat off) (content p))) p.
Proof.
  intros [] ? ? ?. unfold data_at, buf_load. rewrite bk_ptr.
  rewrite (proj2 (Z.leb_le _ _)), (proj2 (Z.leb_le _ _)) by lia. cbn [andb].
  unfold content. rewrite drop_slice, take_slice. do 2 f_equal; [|f_equal]; lia.
Qed.

(** Reserving space at the end and filling it appends, as [buf_insert_end]. *)
Lemma reserve_end_store p bytes :
  buf_ok p → bytes_ok bytes → zlen bytes <= tail_avail p + data_avail p →
  ∃ off p1 p2, reserve_end (zlen bytes) p = Ok off p1 ∧
    buf_store off bytes p1 = Ok tt p2 ∧ buf_ok p2 ∧ content p2 = content p ++ bytes ∧
    tail_avail p2 + data_avail p2 = tail_avail p + data_avail p - zlen bytes ∧
    tail_avail p2 <= tail_avail p.
Proof.
  intros Hp Hb Hfit.
  destruct (buf_insert_end_ok p bytes Hp Hb (or_introl Hfit)) as (p2 & E & Hp2 & Ec & Eh & _ & Ht & El).
  specialize (El Hfit).
  unfold buf_insert_end, reserve_end, mbind, res_mbind in *.
  destruct (lift (buf_reserve_end (zlen bytes)) p) as [dest p1|]; [|done].
  destruct dest as [off|]; [|done]. cbn in E |- *. exists off, p1, p2.
  split; [done|]. split; [done|]. split; [done|]. split; [done|].
  pose proof (content_length p2 Hp2) as Hl. rewrite Ec, zlen_app, (content_length p Hp) in Hl.
  destruct Hp, Hp2. split; lia.
Qed.

Lemma insert_end_room p bytes :
  buf_ok p → bytes_ok bytes → zlen bytes <= tail_avail p + data_avail p →
  ∃ p2, buf_insert_end bytes p = Ok tt p2 ∧ buf_ok p2 ∧ content p2 = content p ++ bytes ∧
    tail_avail p2 + data_avail p2 = tail_avail p + data_avail p - zlen bytes ∧
    tail_avail p2 <= tail_avail p.
Proof.
  intros Hp Hb Hfit. destruct (reserve_end_store p bytes Hp Hb Hfit)
    as (off & p1 & p2 & E1 & E2 & ? & ? & ? & ?).
  exists p2. split; [|done]. unfold buf_insert_end, reserve_end, mbind, res_mbind in *.
  destruct (lift (buf_reserve_end (zlen bytes)) p) as [dest p1'|]; [|done].
  destruct dest as [off'|]; [|done]. cbn in E1 |- *. injection E1 as <- <-. exact E2.
Qed.

(** The connection with another transmit buffer. *)
Definition with_tx (p : buf_t) (c : conn (U := U)) : conn (U := U) :=
  Conn (set_tx_msg p (self c)) (object c).

Definition room (p : buf_t) : Z := tail_avail p + data_avail p.

(** The transmit buffer of [c'] is that of [c] with [bytes] appended. *)
Definition sent (bytes : list Z) (c c' : conn (U := U)) : Prop :=
  ∃ p, c' = with_tx p c ∧ buf_ok p ∧ content p = content (tx_msg (self c)) ++ bytes ∧
    room p = room (tx_msg (self c)) - zlen bytes ∧
    tail_avail p <= tail_avail (tx_msg (self c)).

Lemma sent_trans b1 b2 c1 c2 c3 : sent b1 c1 c2 → sent b2 c2 c3 → sent (b1 ++ b2) c1 c3.
Proof.
  intros (p1 & -> & _ & E1 & R1 & T1) (p2 & -> & Hp2 & E2 & R2 & T2). exists p2.
  split; [done|]. split; [done|]. cbn [self with_tx tx_msg set_tx_msg] in *.
  rewrite E2, E1, R2, R1, (assoc (++)), zlen_app. split; [done|split; lia].
Qed.

Lemma sent_insert bytes (c : conn (U := U)) :
  buf_ok (tx_msg (self c)) → bytes_ok bytes → zlen bytes <= room (tx_msg (self c)) →
  ∃ c', on_tx (buf_insert_end bytes) c = Ok tt c' ∧ sent bytes c c'.
Proof.
  intros Hp Hb Hr. destruct (insert_end_room _ _ Hp Hb Hr) as (p & E & ? & ? & ? & ?).
  exists (with_tx p c). split; [by apply on_tx_ok|]. by exists p.
Qed.

(** The body header with its stripped buffer. *)
Lemma body_buffer h b :
  elem_abs h (HBody b) →
  ∃ p, e_buf h = Some p ∧
    let p' := if e_body_touched h then p else buf_remove_begin sizeof_unicode_hdr p in
    buf_ok p' ∧ content p' = b.
Proof.
  intros (_ & p & pre & E & Hp & Hc & Hpre). exists p. split; [done|].
  cbv zeta. destruct (e_body_touched h).
  - destruct pre; [|done]. done.
  - destruct (buf_remove_begin_ok sizeof_unicode_hdr p Hp) as (? & -> & _); [done|].
    split; [done|]. rewrite Hc, drop_app_length'; done.
Qed.

(** Reserving a body header, filling it and appending the body's bytes. *)
Lemma body_header_put (c : conn (U := U)) n :
  buf_ok (tx_msg (self c)) → 0 <= n → n + 3 <= room (tx_msg (self c)) →
  ∃ off p1, reserve_end sizeof_unicode_hdr (tx_msg (self c)) = Ok off p1 ∧
    ∀ hi bytes, is_u 8 hi → bytes_ok bytes → zlen bytes = n →
    ∃ c1 c2, on_tx (buf_store off (hi :: be_encode 2 (zlen bytes + 3))) (with_tx p1 c) = Ok tt c1 ∧
      on_tx (buf_insert_end bytes) c1 = Ok tt c2 ∧ sent (body_part hi bytes) c c2.
Proof.
  intros Htx Hn Hfit.
  assert (∀ hi, is_u 8 hi → ∃ off p1 p2, reserve_end sizeof_unicode_hdr (tx_msg (self c)) = Ok off p1 ∧
    buf_store off (hi :: be_encode 2 (n + 3)) p1 = Ok tt p2 ∧
    buf_ok p2 ∧ content p2 = content (tx_msg (self c)) ++ hi :: be_encode 2 (n + 3) ∧
    room p2 = room (tx_msg (self c)) - 3 ∧ tail_avail p2 <= tail_avail (tx_msg (self c))) as Hres.
  { intros hi Hhi. assert (zlen (hi :: be_encode 2 (n + 3)) = 3) as E3 by done.
    destruct (reserve_end_store (tx_msg (self c)) (hi :: be_encode 2 (n + 3)))
      as (off & p1 & p2 & E1 & E2 & Hp2 & Ec2 & Er2 & Et2); [done| |unfold room in Hfit; lia|].
    { constructor; [done|apply be_encode_bytes]. }
    rewrite E3 in E1, Er2. by exists off, p1, p2. }
  destruct (Hres 0) as (off & p1 & _ & E1 & _); [done|]. exists off, p1. split; [done|].
  intros hi bytes Hhi Hb Hbl. destruct (Hres hi Hhi) as (off' & p1' & p2 & E1' & E2 & Hp2 & Ec2 & Er2 & Et2).
  rewrite E1 in E1'. injection E1' as <- <-. rewrite Hbl.
  exists (with_tx p2 c). destruct (sent_insert bytes (with_tx p2 c)) as (c2 & Ei & Hs).
  { done. } { done. } { cbn. lia. }
  exists c2. split; [by apply (on_tx_ok _ (with_tx p1 c))|]. split; [done|].
  unfold body_part. rewrite Hbl.
  revert Hs. apply (sent_trans (hi :: be_encode 2 (n + 3))). exists p2. by rewrite Er2.
Qed.

(** The buffer of a body element that is sent: without the header that is reserved in
    it, if it was not touched yet. *)
Definition body_hbuf (h : obex_header_element) (p0 : buf_t) : buf_t :=
  if e_body_touched h then p0 else buf_remove_begin sizeof_unicode_hdr p0.

(** [send_body] after its header was reserved. *)
Lemma send_body_run h p0 (b : list Z) left (c : conn (U := U)) off p1 :
  e_buf h = Some p0 → data_size (body_hbuf h p0) = zlen b → 3 <= left < 2 ^ 16 → zlen b < 2 ^ 31 →
  reserve_end sizeof_unicode_hdr (tx_msg (self c)) = Ok off p1 →
  send_body h left c =
    (if left <? zlen b + 3 then
       on_tx (buf_store off (OBEX_HDR_BODY :: be_encode 2 (u16 left)));;
       '(bytes, hbuf) ← on_buf (body_hbuf h p0) (data_at 0 (left - 3));
       on_tx (buf_insert_end bytes);;
       mret (left, Some (Elem (Some (buf_remove_begin (left - 3) hbuf)) (e_hi h) (e_flags h)
                          (e_length h) true))
     else
       on_tx (buf_store off (OBEX_HDR_BODY_END :: be_encode 2 (u16 (zlen b + 3))));;
       '(bytes, hbuf) ← on_buf (body_hbuf h p0) buf_data;
       on_tx (buf_insert_end bytes);;
       mret (u32 (data_size hbuf), None)) (with_tx p1 c).
Proof.
  intros Eb Hsize Hleft Hb31 E1. pose proof (zlen_nonneg b) as Hbn. unfold send_body.
  rewrite (bind_ok _ _ _ off (with_tx p1 c)) by (by apply on_tx_ok). rewrite Eb.
  rewrite (bind_ok _ _ _ p0 (with_tx p1 c)) by done. cbv zeta. fold (body_hbuf h p0).
  rewrite Hsize. change sizeof_unicode_hdr with 3.
  rewrite (u64_small (zlen b + 3)) by (unfold is_u; lia).
  destruct (left <? zlen b + 3); [|done].
  by rewrite (u64_small (left - 3)) by (unfold is_u; lia).
Qed.

(** A body that does not fit: as much of it as there is room for. *)
Lemma send_body_part h b left (c : conn (U := U)) :
  elem_abs h (HBody b) → buf_ok (tx_msg (self c)) →
  3 <= left < 2 ^ 16 → left + 3 <= room (tx_msg (self c)) → left < zlen b + 3 →
  ∃ c' h', send_body h left c = Ok (left, Some h') c' ∧
    elem_abs h' (HBody (drop (Z.to_nat (left - 3)) b)) ∧
    sent (body_part OBEX_HDR_BODY (take (Z.to_nat (left - 3)) b)) c c'.
Proof.
  intros Habs Htx Hleft Hroom Hlt. pose proof (body_buffer h b Habs) as (p0 & Eb & Hp & Hc).
  cbv zeta in Hp, Hc. fold (body_hbuf h p0) in Hp, Hc.
  pose proof (content_length _ Hp) as Hsize. pose proof (content_bytes _ Hp) as Hbytes.
  rewrite Hc in Hsize, Hbytes.
  assert (zlen b < 2 ^ 31) as Hb31 by (rewrite Hsize; destruct Hp; lia).
  set (bytes := take (Z.to_nat (left - 3)) b).
  assert (zlen bytes = left - 3) as Hbl by (unfold bytes, zlen in *; rewrite length_take; lia).
  destruct (body_header_put c (left - 3)) as (off & p1 & E1 & Hput); [done|lia|lia|].
  destruct (Hput OBEX_HDR_BODY bytes) as (c1 & c2 & S1 & S2 & Hs);
    [compute_dec|by apply Forall_take|done|].
  rewrite Hbl in S1. replace (left - 3 + 3) with left in S1 by lia.
  rewrite (send_body_run h p0 b left c off p1) by done.
  rewrite (proj2 (Z.ltb_lt _ _) Hlt), (u16_small left) by (unfold is_u; lia).
  rewrite (bind_ok _ _ _ _ _ S1), (bind_ok _ _ _ (bytes, body_hbuf h p0) c1).
  2:{ apply on_buf_ok. rewrite data_at_ok, Hc by (done || lia). done. }
  rewrite (bind_ok _ _ _ _ _ S2). eexists _, _. split; [reflexivity|].
  split; [|done]. split; [exact (proj1 Habs)|].
  destruct (buf_remove_begin_ok (left - 3) (body_hbuf h p0) Hp) as (Hp' & Hc' & _); [lia|].
  exists (buf_remove_begin (left - 3) (body_hbuf h p0)), []. by rewrite Hc', Hc.
Qed.

(** One that fits. *)
Lemma send_body_whole h b left (c : conn (U := U)) :
  elem_abs h (HBody b) → buf_ok (tx_msg (self c)) →
  3 <= left < 2 ^ 16 → left + 3 <= room (tx_msg (self c)) → zlen b + 3 <= left →
  ∃ c', send_body h left c = Ok (zlen b, None) c' ∧
    sent (body_part OBEX_HDR_BODY_END b) c c'.
Proof.
  intros Habs Htx Hleft Hroom Hge. pose proof (body_buffer h b Habs) as (p0 & Eb & Hp & Hc).
  cbv zeta in Hp, Hc. fold (body_hbuf h p0) in Hp, Hc.
  pose proof (content_length _ Hp) as Hsize. pose proof (content_bytes _ Hp) as Hbytes.
  rewrite Hc in Hsize, Hbytes. pose proof (zlen_nonneg b) as Hbn.
  destruct (body_header_put c (zlen b)) as (off & p1 & E1 & Hput); [done|lia|lia|].
  destruct (Hput OBEX_HDR_BODY_END b) as (c1 & c2 & S1 & S2 & Hs); [compute_dec|done|done|].
  rewrite (send_body_run h p0 b left c off p1) by (done || lia).
  rewrite (proj2 (Z.ltb_ge _ _) Hge), (u16_small (zlen b + 3)) by (unfold is_u; lia).
  rewrite (bind_ok _ _ _ _ _ S1), (bind_ok _ _ _ (b, body_hbuf h p0) c1).
  2:{ apply on_buf_ok. rewrite buf_data_ok, Hc by done. done. }
  rewrite (bind_ok _ _ _ _ _ S2). rewrite <- Hsize.
  rewrite (u32_small (zlen b)) by (unfold is_u; lia). by exists c2.
Qed.

(** Nothing was sent. *)
Lemma sent_nothing (c : conn (U := U)) : buf_ok (tx_msg (self c)) → sent [] c c.
Proof.
  intros Hp. exists (tx_msg (self c)). split; [by destruct c as [[] ?]|].
  by rewrite app_nil_r, zlen_nil, Z.sub_0_r.
Qed.

(** *** The packing loop refines [pack] *)

(** Packing the rest of the queue where there is room, as the loop does and as [pack]. *)
Definition continue_with q left : res (conn (U := U)) (bool * list obex_header_element) :=
  if left =? 0 then mret (true, q) else pack_headers q left.
Definition pack_on (aq : list hdr) left : option (list Z * list hdr) :=
  if left =? 0 then Some ([], aq) else pack aq left.

Definition refines (m : res (conn (U := U)) (bool * list obex_header_element)) bytes rest c : Prop :=
  ∃ q' c', m c = Ok (true, q') c' ∧ Forall2 elem_abs q' rest ∧ sent bytes c c'.

(** What the induction gives of the queue [q], after up to [left] bytes and the excess of
    one body header. *)
Definition packs_on q aq left (c : conn (U := U)) : Prop :=
  ∀ left' b0 c0 b1 rest, sent b0 c c0 → zlen b0 <= left - left' + 3 → 0 <= left' <= left →
    pack_on aq left' = Some (b1, rest) →
    ∃ q' c', continue_with q left' c0 = Ok (true, q') c' ∧ Forall2 elem_abs q' rest ∧
      sent (b0 ++ b1) c c'.

(** The end of a step: [b0] was sent, the rest follows. *)
Lemma packs_rest q aq left c b0 c0 n bytes rest : packs_on q aq left c →
  sent b0 c c0 → n <= zlen b0 <= n + 3 → 0 <= n <= left →
  (if left - n =? 0 then Some (b0, aq)
   else '(b1, rest) ← pack aq (left - n); Some (b0 ++ b1, rest)) = Some (bytes, rest) →
  ∃ q' c', continue_with q (left - n) c0 = Ok (true, q') c' ∧ Forall2 elem_abs q' rest ∧
    sent bytes c c'.
Proof.
  intros Hgo Hs Hb0 Hn Hpack.
  assert (∃ b1, pack_on aq (left - n) = Some (b1, rest) ∧ bytes = b0 ++ b1) as (b1 & Hp & ->).
  { unfold pack_on. destruct (left - n =? 0).
    - simplify_eq. exists []. by rewrite app_nil_r.
    - destruct (pack aq (left - n)) as [[b1 r1]|]; [|done]. cbn in Hpack. simplify_eq. by exists b1. }
  apply (Hgo (left - n) b0 c0 b1); [done|lia|lia|done].
Qed.

(** A header that is no body. *)
Lemma pack_bytes h l q aq left (c : conn (U := U)) bytes rest :
  elem_abs h (HBytes l) → within (mtu_tx (self c)) (HBytes l) → Forall2 elem_abs q aq →
  buf_ok (tx_msg (self c)) → 0 < left < 2 ^ 16 → left <= room (tx_msg (self c)) →
  packs_on q aq left c → pack (HBytes l :: aq) left = Some (bytes, rest) →
  refines (pack_headers (h :: q) left) bytes rest c.
Proof.
  intros Hh Hw Hq Htx Hleft Hroom Hgo Hpack. cbn [pack_headers pack] in *.
  destruct Hh as (Hne & Hnb & El & p & Eb & Hp & Hc).
  rewrite (proj2 (Z.eqb_neq _ _) Hnb), (proj2 (Z.eqb_neq _ _) Hne), El.
  pose proof (zlen_nonneg l) as Hln. unfold refines. destruct (Z.leb_spec (zlen l) left).
  - rewrite Eb. rewrite (bind_ok _ _ _ p c) by done.
    pose proof (content_length p Hp) as Hcl. rewrite Hc in Hcl.
    rewrite (bind_ok _ _ _ (l, p) c).
    2:{ apply on_buf_ok. rewrite data_at_ok, Hc by (done || lia).
        rewrite drop_0, take_ge; [done|]. unfold zlen in *. lia. }
    destruct (sent_insert l c) as (c1 & E1 & Hs1).
    { done. } { rewrite <- Hc. by apply content_bytes. } { lia. }
    rewrite (bind_ok _ _ _ _ _ E1). rewrite u16_small by (unfold is_u; lia).
    apply (packs_rest q aq left c l c1); [done|done|lia|lia|done].
  - simplify_eq. rewrite (bind_ok _ _ _ (mtu_tx (self c)) c) by done.
    cbn [within] in Hw. rewrite Z.gtb_ltb, (proj2 (Z.ltb_ge _ _)) by lia.
    exists (h :: q), c. split; [done|]. split; [|by apply sent_nothing].
    constructor; [|done]. repeat split; try done. by exists p.
Qed.

(** A body. *)
Lemma packs_body h b q aq left (c : conn (U := U)) bytes rest :
  elem_abs h (HBody b) → Forall2 elem_abs q aq →
  buf_ok (tx_msg (self c)) → 0 < left < 2 ^ 16 → left + 3 <= room (tx_msg (self c)) →
  packs_on q aq left c → pack (HBody b :: aq) left = Some (bytes, rest) →
  refines (pack_headers (h :: q) left) bytes rest c.
Proof.
  intros Hh Hq Htx Hleft Hroom Hgo Hpack. cbn [pack_headers pack] in *. unfold refines.
  rewrite (proj1 Hh), Z.eqb_refl. destruct (Z.ltb_spec left 3) as [|Hl3]; [done|].
  pose proof (zlen_nonneg b) as Hbn. destruct (Z.ltb_spec left (zlen b + 3)).
  - simplify_eq. destruct (send_body_part h b left c) as (c' & h' & E & Hh' & Hs); [done || lia..|].
    rewrite (bind_ok _ _ _ _ _ E). rewrite Z.sub_diag. change (u16 0 =? 0) with true.
    exists (h' :: q), c'. split; [done|]. split; [by constructor|done].
  - destruct (send_body_whole h b left c) as (c1 & E & Hs); [done || lia..|].
    rewrite (bind_ok _ _ _ _ _ E). rewrite u16_small by (unfold is_u; lia).
    assert (zlen (body_part OBEX_HDR_BODY_END b) = zlen b + 3) as Hbl.
    { unfold body_part. rewrite zlen_cons, zlen_app. unfold zlen at 1. rewrite be_encode_length. lia. }
    apply (packs_rest q aq left c (body_part OBEX_HDR_BODY_END b) c1); [done|done|lia|lia|done].
Qed.

Lemma pack_headers_refines q aq left (c : conn (U := U)) bytes rest :
  Forall2 elem_abs q aq → Forall (within (mtu_tx (self c))) aq →
  buf_ok (tx_msg (self c)) → 0 < left < 2 ^ 16 →
  left + 3 * zlen aq <= room (tx_msg (self c)) →
  pack aq left = Some (bytes, rest) →
  ∃ q' c', pack_headers q left c = Ok (true, q') c' ∧ Forall2 elem_abs q' rest ∧
    sent bytes c c'.
Proof.
  intros Hq. revert left c bytes rest. induction Hq as [|h a q aq Hh Hq IH];
    intros left c bytes rest Hwithin Htx Hleft Hroom Hpack.
  { cbn in Hpack. simplify_eq. exists [], c. split; [done|]. split; [constructor|by apply sent_nothing]. }
  apply Forall_cons in Hwithin as [Hw Hwithin].
  rewrite zlen_cons in Hroom. pose proof (zlen_nonneg aq) as Hn.
  assert (packs_on q aq left c) as Hgo.
  { intros left' b0 c0 b1 r Hs Hb0 Hl' Hp. unfold continue_with, pack_on in *.
    destruct (Z.eqb_spec left' 0).
    - simplify_eq. exists q, c0. rewrite app_nil_r. done.
    - pose proof Hs as (p & -> & Hp0 & _ & Er & _).
      destruct (IH left' (with_tx p c) b1 r) as (q' & c' & E & Hq' & Hs'); try done; [lia| |].
      { cbn [self with_tx tx_msg set_tx_msg]. lia. }
      exists q', c'. split; [done|]. split; [done|]. by eapply sent_trans. }
  destruct a as [|l|b].
  - cbn in Hh, Hpack. cbn [pack_headers]. rewrite Hh.
    change (OBEX_HDR_EMPTY =? OBEX_HDR_BODY) with false.
    change (OBEX_HDR_EMPTY =? OBEX_HDR_EMPTY) with true. cbv beta iota.
    apply (Hgo left [] c bytes rest); [by apply sent_nothing|unfold zlen; simpl; lia|lia|done].
  - apply (pack_bytes h l q aq); done || lia.
  - apply (packs_body h b q aq); done || lia.
Qed.

(** ** One packet *)

(** The non-header data of an object. *)
Definition nonhdr (o : obex_object_t) : list Z :=
  match tx_nonhdr_data o with Some p => content p | None => [] end.

(** The object and the connection are ready to send: the queue stands for
    [aq], and the transmit buffer can hold the largest packet. *)
Record ready (aq : list hdr) (c : conn (U := U)) : Prop := {
  rd_tx : buf_ok (tx_msg (self c));
  rd_mtu : 4 < mtu_tx (self c) < 2 ^ 16;
  rd_cap : mtu_tx (self c) + zlen (nonhdr (object c)) + 3 * zlen aq + 4
           <= zlen (buffer (tx_msg (self c)));
  rd_queue : Forall2 elem_abs (tx_headerq (object c)) aq;
  rd_within : Forall (within (mtu_tx (self c))) aq;
  rd_nonhdr : match tx_nonhdr_data (object c) with Some p => buf_ok p | None => True end;
  rd_seq : is_u 8 (seq_num (self c));
}.

(** The opcode byte: the plain opcode while headers are left, the final one
    with the last packet. *)
Definition packet_opcode (o : obex_object_t) (rest : list hdr) : Z :=
  u8 match rest with [] => Z.lor (lastopcode o) OBEX_FINAL | _ => opcode o end.

Definition packet (c : conn (U := U)) (bytes : list Z) (rest : list hdr) : list Z :=
  let payload := nonhdr (object c) ++ bytes in
  [seq_num (self c); packet_opcode (object c) rest]
  ++ be_encode 2 (zlen payload + 3) ++ payload.

(** The connection once the packet is built. *)
Definition built (c : conn (U := U)) (q : list obex_header_element) (p : buf_t)
    : conn (U := U) :=
  Conn (set_seq_num (u8 (seq_num (self c) + 1)) (set_tx_msg p (self c)))
    (set_tx_headerq q (set_tx_nonhdr_data None (object c))).

Lemma send_nonhdr (c : conn (U := U)) :
  buf_ok (tx_msg (self c)) →
  match tx_nonhdr_data (object c) with Some p => buf_ok p | None => True end →
  zlen (nonhdr (object c)) <= room (tx_msg (self c)) →
  ∃ c', sent (nonhdr (object c)) c c' ∧
    (match tx_nonhdr_data (object c) with
     | Some p =>
         '(bytes, _) ← on_buf p buf_data;
         on_tx (buf_insert_end bytes);;
         upd_object (set_tx_nonhdr_data None)
     | None => mret tt
     end) c = Ok tt (Conn (self c') (set_tx_nonhdr_data None (object c))).
Proof.
  intros Htx Hn Hr. unfold nonhdr in *. destruct (tx_nonhdr_data (object c)) as [p|] eqn:E.
  - rewrite (bind_ok _ _ _ (content p, p) c) by (by apply on_buf_ok, buf_data_ok).
    destruct (sent_insert (content p) c Htx (content_bytes p Hn) Hr) as (c' & Ei & Hs).
    exists c'. split; [done|]. rewrite (bind_ok _ _ _ _ _ Ei).
    destruct Hs as (p' & -> & _). done.
  - exists c. split.
    + exists (tx_msg (self c)). split; [by destruct c as [[] ?]|].
      rewrite app_nil_r, zlen_nil, Z.sub_0_r. done.
    + destruct c as [s o]. cbn in *. destruct o; cbn in *. by subst.
Qed.

(** Once the payload is packed. *)
Definition packed (c : conn (U := U)) (q : list obex_header_element) (p : buf_t) : conn (U := U) :=
  Conn (set_tx_msg p (self c)) (set_tx_headerq q (set_tx_nonhdr_data None (object c))).

(** The first half: the message holds the payload, with room for its header. *)
Lemma obex_object_send_packs aq (c : conn (U := U)) bytes rest :
  ready aq c → pack aq (mtu_tx (self c) - 4) = Some (bytes, rest) →
  ∃ q p, Forall2 elem_abs q rest ∧ buf_ok p ∧ content p = nonhdr (object c) ++ bytes ∧
    room_begin p 4 ∧ zlen (buffer (tx_msg (self c))) <= zlen (buffer p) ∧
    obex_object_send c = send_packed q (packed c q p).
Proof.
  intros [Htx Hmtu Hcap Hq Hwithin Hnon Hseq] Hpack.
  pose proof (zlen_nonneg aq) as Haq. pose proof (zlen_nonneg (nonhdr (object c))) as Hnn.
  unfold obex_object_send.
  rewrite (bind_ok _ _ _ (mtu_tx (self c)) c) by done. cbv zeta.
  change sizeof_common_hdr with 4.
  rewrite (u16_small (mtu_tx (self c) - 4)) by (unfold is_u; lia).
  destruct (buf_reuse_ok _ Htx) as [Hru Hrc].
  pose proof (buf_total_size_ok _ Htx) as Hts.
  set (c0 := with_tx (buf_reuse (tx_msg (self c))) c).
  rewrite (bind_ok _ _ _ tt c0) by (by apply on_tx_ok).
  rewrite (bind_ok _ _ _ (tx_nonhdr_data (object c0)) c0) by done.
  assert (room (tx_msg (self c0)) = zlen (buffer (tx_msg (self c)))) as Hroom0 by (unfold room; cbn; lia).
  destruct (send_nonhdr c0) as (c1 & Hs1 & E1); [done|done|cbn [object c0 with_tx]; lia|].
  rewrite (bind_ok _ _ _ _ _ E1). set (c2 := Conn _ _).
  rewrite (bind_ok _ _ _ (tx_headerq (object c2)) c2) by done.
  pose proof Hs1 as (p1 & -> & Hp1 & Ec1 & Er1 & Et1).
  cbn [object c0 with_tx] in Er1.
  destruct (pack_headers_refines (tx_headerq (object c2)) aq (mtu_tx (self c) - 4) c2 bytes rest)
    as (q' & c3 & E3 & Hq' & Hs3); try done; [lia|cbn [self c2 with_tx tx_msg set_tx_msg]; lia|].
  rewrite (bind_ok _ _ _ _ _ E3).
  destruct Hs3 as (p3 & -> & Hp3 & Ec3 & Er3 & Et3).
  rewrite (bind_ok _ _ _ tt (packed c q' p3)) by done.
  cbn [self c2 with_tx tx_msg set_tx_msg] in Ec3, Er3, Et3.
  assert (content p3 = nonhdr (object c) ++ bytes) as Ec.
  { rewrite Ec3, Ec1. cbn [self c0 with_tx tx_msg set_tx_msg]. by rewrite Hrc. }
  pose proof (content_length p3 Hp3) as Hsize. rewrite Ec, zlen_app in Hsize.
  pose proof (pack_length _ _ _ _ Hpack) as Hpl.
  cbn [self c0 with_tx tx_msg set_tx_msg tail_avail buf_reuse] in Er1, Et1, Hroom0.
  exists q', p3. split_and!; try done; destruct Hp3; unfold room_begin, room in *; [left; lia|lia].
Qed.

(** [obex_object_send] builds the packet and hands it to the bulk write. *)
Lemma obex_object_send_run aq (c : conn (U := U)) bytes rest :
  ready aq c → pack aq (mtu_tx (self c) - 4) = Some (bytes, rest) →
  zlen (nonhdr (object c) ++ bytes) + 4 < 2 ^ 16 →
  ∃ q p, Forall2 elem_abs q rest ∧ buf_ok p ∧ content p = packet c bytes rest ∧
    zlen (buffer (tx_msg (self c))) <= zlen (buffer p) ∧
    obex_object_send c
    = (actual ← obex_bulk_write;
       if actual <? 0 then mret actual
       else
         verified ← obex_verify_seq (seq_num (self c));
         mret (if verified : bool then (match rest with [] => 1 | _ => 0 end) else -1))
      (built c q p).
Proof.
  intros Hready Hpack Hlen. pose proof (rd_seq _ _ Hready) as Hseq.
  destruct (obex_object_send_packs aq c bytes rest Hready Hpack)
    as (q' & p3 & Hq' & Hp3 & Ec & Hrb & Hcap & ->).
  pose proof (content_length p3 Hp3) as Hsize. rewrite Ec in Hsize.
  destruct (reserve_begin_store p3 4 Hp3 ltac:(lia) Hrb) as (off & p4 & E4 & Es4 & Hstore).
  unfold send_packed. change sizeof_common_hdr with 4.
  rewrite (bind_ok _ _ _ (object (packed c q' p3)) (packed c q' p3)) by done.
  cbv zeta. set (c5 := packed c q' p4).
  rewrite (bind_ok _ _ _ off c5).
  2:{ change c5 with (with_tx p4 (packed c q' p3)). apply on_tx_ok.
      unfold reserve_begin, lift, mbind, res_mbind. cbn [packed self tx_msg set_tx_msg]. by rewrite E4. }
  rewrite (bind_ok _ _ _ (seq_num (self c)) c5) by done.
  rewrite (bind_ok _ _ _ tt (built c q' p4)) by done.
  rewrite (bind_ok _ _ _ (data_size p4) (built c q' p4)) by done.
  assert (match q' with [] => true | _ :: _ => false end
          = match rest with [] => true | _ :: _ => false end) as -> by by destruct Hq'.
  set (op := u8 (if match rest with [] => true | _ :: _ => false end
                 then Z.lor (lastopcode (object (packed c q' p3))) OBEX_FINAL
                 else opcode (object (packed c q' p3)))).
  assert (op = packet_opcode (object c) rest) as Hop by (unfold packet_opcode; by destruct rest).
  assert (u16 (u16 (data_size p4) - 1) = zlen (nonhdr (object c) ++ bytes) + 3) as ->.
  { rewrite Es4, <- Hsize. pose proof (zlen_nonneg (nonhdr (object c) ++ bytes)).
    rewrite (u16_small (4 + _)) by (unfold is_u; lia). rewrite u16_small by (unfold is_u; lia). lia. }
  destruct (Hstore ([seq_num (self c); op] ++ be_encode 2 (zlen (nonhdr (object c) ++ bytes) + 3)))
    as (p5 & E5 & Hp5 & Ec5 & Hl5).
  { constructor; [exact Hseq|]. constructor; [|apply be_encode_bytes]. apply u8_range. }
  { done. }
  exists q', p5. split_and!; [done|done| |lia|].
  - by rewrite Ec5, Ec, Hop.
  - rewrite (bind_ok _ _ _ tt (built c q' p5)); [by destruct rest|].
    exact (on_tx_ok _ (built c q' p4) tt p5 E5).
Qed.
End Send.
