(* ===== verification/ObexReceive.v ===== *)
(** * libexword: what the transport receives

    Facts about [obex_object_receive] and [obex_request] of
    [src/tools/libexword/src/obex.c]: reading a response, parsing its headers,
    and whole requests on a device that follows the protocol. *)

From S2P Require Import Prelude DataBuffer Obex ObexSend.

Section Receive.
Context `{AllocOk} {U : Type} `{Usb U}.
Abbreviation X := (res (conn (U := U))).

Definition with_rx (p : buf_t) (c : conn (U := U)) : conn (U := U) :=
  Conn (set_rx_msg p (self c)) (object c).
Definition with_usb (u : U) (c : conn (U := U)) : conn (U := U) :=
  Conn (set_usb u (self c)) (object c).

(** ** Reading into the receive buffer *)

(** Reserving [n] bytes, receiving fewer into them and giving the rest back
    appends what was received. *)
Lemma read_into p n bytes :
  buf_ok p → 0 <= n → room_end p n → bytes_ok bytes → zlen bytes <= n →
  ∃ off p1 p2, reserve_end n p = Ok off p1 ∧ buf_store off bytes p1 = Ok tt p2 ∧
    let p3 := buf_remove_end (u64 (n - zlen bytes)) p2 in
    off = head_avail p + data_size p ∧
    buf_ok p3 ∧ content p3 = content p ++ bytes ∧ head_avail p3 = head_avail p ∧
    buffer p3 = buffer p2 ∧ slice (Z.to_nat off) (length bytes) (buffer p2) = bytes.
Proof.
  intros Hp Hn Hroom Hb Hfit. pose proof (zlen_nonneg bytes).
  destruct (buf_reserve_end_ok p n Hp Hn Hroom) as (p1 & E & Hp1 & Eh & Es & Ec & _).
  pose proof Hp as [? ? ? ? ? ? ? ?]. pose proof Hp1 as [? ? ? ? ? ? ? ?].
  destruct (buf_store_ok (head_avail p + data_size p) bytes p1)
    as (p2 & E2 & Hp2 & Eb2 & Eh2 & _ & _ & Es2); [done|done|lia|lia|].
  exists (head_avail p + data_size p), p1, p2. split.
  { unfold reserve_end, lift, mbind, res_mbind. by rewrite E. }
  split; [done|]. cbv zeta. rewrite u64_small by (unfold is_u; lia).
  destruct (buf_remove_end_ok (n - zlen bytes) p2 Hp2) as (Hp3 & Ec3 & Eb3 & Eh3 & Es3); [lia|].
  split; [done|]. split; [done|]. split; [|split; [congruence|split; [done|]]].
  - rewrite Ec3, Es2. unfold content. rewrite Eh2, Es2, Eh, Es, Eb2, take_slice.
    replace (Z.to_nat (data_size p + n - (n - zlen bytes)) `min` Z.to_nat (data_size p + n))%nat
      with (Z.to_nat (data_size p) + length bytes)%nat by (unfold zlen in *; lia).
    rewrite slice_app_split. unfold zlen in *. f_equal.
    + rewrite slice_splice_before by lia. done.
    + replace (Z.to_nat (head_avail p + data_size p))
        with (Z.to_nat (head_avail p) + Z.to_nat (data_size p))%nat by lia.
      apply slice_splice_same. lia.
  - rewrite Eb2. apply slice_splice_same. unfold zlen in *. lia.
Qed.

(** The allocator never refuses up to its limit. *)
Definition generous : Prop := ∀ n, n <= 2 ^ 30 → malloc_ok n = true.

(** The receive buffer is empty and has not drifted more than [k] bytes. *)
Record idle (k : Z) (c : conn (U := U)) : Prop := {
  id_ok : buf_ok (rx_msg (self c));
  id_content : content (rx_msg (self c)) = [];
  id_head : head_avail (rx_msg (self c)) <= k;
  id_mtu : 3 <= mtu_rx (self c) < 2 ^ 16;
}.

Lemma generous_room p n : generous → buf_ok p → head_avail p + data_size p + n <= 2 ^ 30 →
  room_end p n.
Proof. intros Hg Hp Hn. right. by apply Hg. Qed.

Lemma idle_size k (c : conn (U := U)) : idle k c → data_size (rx_msg (self c)) = 0.
Proof. intros []. rewrite <- content_length by done. by rewrite id_content0. Qed.

Lemma bulk_read_at_ok (c : conn (U := U)) off n r bytes u p :
  bulk_read n (usb (self c)) = ((r, bytes), u) →
  buf_store off bytes (rx_msg (self c)) = Ok tt p →
  bulk_read_at off n c = Ok (r, zlen bytes) (with_rx p (with_usb u c)).
Proof.
  intros E1 E2. unfold bulk_read_at.
  rewrite (bind_ok _ _ _ (usb (self c)) c) by done. rewrite E1.
  rewrite (bind_ok _ _ _ tt (with_usb u c)) by done.
  rewrite (bind_ok _ _ _ tt (with_rx p (with_usb u c))); [done|].
  by apply (on_rx_ok _ (with_usb u c)).
Qed.

(** The device acknowledges the packet with its sequence number. *)
Lemma obex_verify_seq_ok k (c : conn (U := U)) seq r u :
  generous → idle k c → k <= 2 ^ 29 → is_u 8 seq → 0 <= r →
  bulk_read (mtu_rx (self c)) (usb (self c)) = ((r, [seq]), u) →
  ∃ p, obex_verify_seq seq c = Ok true (with_rx p (with_usb u c)) ∧
    idle (k + 1) (with_rx p (with_usb u c)).
Proof.
  intros Hg Hi Hk Hseq Hr Hread. pose proof (idle_size k c Hi) as Hs0.
  destruct Hi as [Hok Hc Hh Hm].
  destruct (read_into (rx_msg (self c)) (mtu_rx (self c)) [seq])
    as (off & p1 & p2 & E1 & E2 & Hoff & Hp3 & Ec3 & Eh3 & Eb3 & Esl);
    [done|lia|apply generous_room; [done|done|lia]|by apply Forall_singleton
    |unfold zlen; simpl; lia|].
  set (p3 := buf_remove_end _ p2) in *. rewrite Hc in Ec3. cbn [app] in Ec3.
  destruct (buf_remove_begin_ok 1 p3 Hp3) as (Hp4 & Ec4 & Eb4 & Eh4); [lia|].
  exists (buf_remove_begin 1 p3).
  unfold obex_verify_seq. rewrite (bind_ok _ _ _ (mtu_rx (self c)) c) by done.
  set (c1 := with_rx p1 c).
  rewrite (bind_ok _ _ _ off c1) by (by apply on_rx_ok).
  set (c2 := with_rx p2 (with_usb u c)).
  rewrite (bind_ok _ _ _ (r, 1) c2).
  2:{ cbn [verify_loop].
      rewrite (bind_ok _ _ _ (r, 1) c2)
        by exact (bulk_read_at_ok c1 off _ _ _ _ p2 Hread E2).
      rewrite (proj2 (Z.ltb_ge _ _)) by lia. done. }
  set (c3 := with_rx p3 (with_usb u c)).
  rewrite (bind_ok _ _ _ tt c3) by done.
  rewrite (proj2 (Z.ltb_ge _ _)) by lia. change (1 =? 0) with false. cbn [orb].
  rewrite (bind_ok _ _ _ [seq] c3).
  2:{ apply (on_rx_ok _ c3). unfold buf_load. cbn [self c3 with_rx rx_msg set_rx_msg].
      rewrite Eb3. pose proof (bk_head _ Hok). pose proof (bk_size _ Hok).
      pose proof (f_equal length Esl) as Hl. unfold slice in Hl.
      rewrite length_take, length_drop in Hl. change (length [seq]) with 1%nat in Hl.
      rewrite (proj2 (Z.leb_le _ _)), (proj2 (Z.leb_le _ _)) by (unfold zlen; lia).
      cbn [andb]. change (Z.to_nat 1) with (length [seq]). by rewrite Esl. }
  change (be_decode [seq]) with seq. rewrite Z.eqb_refl. cbn [negb].
  split; [done|]. split; cbn [self with_rx rx_msg set_rx_msg]; [done| | |done].
  - rewrite Ec4, Ec3. done.
  - pose proof (content_length p3 Hp3) as Hl. rewrite Ec3 in Hl.
    change (zlen [seq]) with 1 in Hl. lia.
Qed.

Lemma expected_length_ok (c : conn (U := U)) :
  buf_ok (rx_msg (self c)) → 3 <= data_size (rx_msg (self c)) →
  expected_length c = Ok (be_decode (take 2 (drop 1 (content (rx_msg (self c)))))) c.
Proof.
  intros Hp Hs. unfold expected_length.
  rewrite (bind_ok _ _ _ (take 2 (drop 1 (content (rx_msg (self c))))) c); [done|].
  rewrite (on_rx_ok _ c _ _ (data_at_ok (rx_msg (self c)) 1 2 Hp ltac:(lia) ltac:(lia) ltac:(lia))).
  f_equal. by destruct c as [[] ?].
Qed.

(** A response that arrives in one transfer: its length field is right. *)
Definition whole_response (resp : list Z) : Prop :=
  bytes_ok resp ∧ 3 <= zlen resp ∧ be_decode (take 2 (drop 1 resp)) = zlen resp.

Lemma obex_bulk_read_ok k (c : conn (U := U)) resp u fuel :
  generous → idle k c → k <= 2 ^ 29 → whole_response resp → zlen resp <= mtu_rx (self c) →
  bulk_read (mtu_rx (self c)) (usb (self c)) = ((0, resp), u) →
  ∃ p, obex_bulk_read (S fuel) c = Ok (zlen resp) (with_rx p (with_usb u c)) ∧
    buf_ok p ∧ content p = resp ∧ head_avail p <= k.
Proof.
  intros Hg Hi Hk (Hb & Hl3 & Hlen) Hfit Hread. pose proof (idle_size k c Hi) as Hs0.
  destruct Hi as [Hok Hc Hh Hm].
  destruct (read_into (rx_msg (self c)) (mtu_rx (self c)) resp)
    as (off & p1 & p2 & E1 & E2 & Hoff & Hp3 & Ec3 & Eh3 & Eb3 & Esl);
    [done|lia|apply generous_room; [done|done|lia]|done|done|].
  set (p3 := buf_remove_end _ p2) in *. rewrite Hc in Ec3. cbn [app] in Ec3.
  pose proof (content_length p3 Hp3) as Hl. rewrite Ec3 in Hl.
  exists p3. split; [|split; [done|split; [done|lia]]].
  unfold obex_bulk_read. rewrite (bind_ok _ _ _ (data_size (rx_msg (self c))) c) by done.
  rewrite Hs0. change (0 >? 0) with false. cbv beta iota. cbn [bulk_read_loop].
  rewrite (bind_ok _ _ _ (mtu_rx (self c)) c) by done.
  set (c1 := with_rx p1 c).
  rewrite (bind_ok _ _ _ off c1) by (by apply on_rx_ok).
  set (c2 := with_rx p2 (with_usb u c)).
  rewrite (bind_ok _ _ _ (0, zlen resp) c2)
    by exact (bulk_read_at_ok c1 off _ _ _ _ p2 Hread E2).
  set (c3 := with_rx p3 (with_usb u c)).
  rewrite (bind_ok _ _ _ tt c3) by done.
  rewrite (bind_ok _ _ _ (zlen resp) c3).
  2:{ rewrite expected_length_ok;
        [|exact Hp3|cbn [self c3 with_rx rx_msg set_rx_msg]; lia].
      cbn [self c3 with_rx rx_msg set_rx_msg]. rewrite Ec3. by rewrite Hlen. }
  rewrite (bind_ok _ _ _ (zlen resp) c3) by (rewrite Hl; done).
  rewrite Z.eqb_refl. rewrite (proj2 (Z.eqb_neq (zlen resp) 0)) by lia. cbn [negb andb orb].
  change (0 =? 0) with true. cbv beta iota. rewrite s32_small by lia. done.
Qed.

Lemma on_rx_data_at (c : conn (U := U)) off n :
  buf_ok (rx_msg (self c)) → 0 <= off → 0 <= n → off + n <= data_size (rx_msg (self c)) →
  on_rx (data_at off n) c
  = Ok (take (Z.to_nat n) (drop (Z.to_nat off) (content (rx_msg (self c))))) c.
Proof.
  intros Hp Ho Hn Hfit. rewrite (on_rx_ok _ c _ _ (data_at_ok _ _ _ Hp Ho Hn Hfit)).
  f_equal. by destruct c as [[] ?].
Qed.

(** A response without headers to a command that needs no special treatment. *)
Lemma receive_no_headers (c c1 : conn (U := U)) p rsp fuel :
  obex_bulk_read (S fuel) c = Ok 3 c1 → p = rx_msg (self c1) → buf_ok p → content p = [rsp; 0; 3] →
  opcode (object c1) ≠ OBEX_CMD_CONNECT → opcode (object c1) ≠ OBEX_CMD_DISCONNECT →
  headeroffset (object c1) = 0 →
  obex_object_receive (S fuel) c
  = Ok (Z.land rsp (Z.lnot OBEX_FINAL)) (with_rx (buf_remove_begin 3 p) c1).
Proof.
  intros E -> Hp Hc Hnc Hnd Hho.
  pose proof (content_length _ Hp) as Hl. rewrite Hc in Hl. change (zlen [rsp; 0; 3]) with 3 in Hl.
  destruct (buf_remove_begin_ok 3 _ Hp) as (Hp2 & Ec2 & _); [lia|].
  unfold obex_object_receive. rewrite (bind_ok _ _ _ _ _ E). rewrite (proj2 (Z.ltb_ge _ _)) by lia.
  rewrite (bind_ok _ _ _ [rsp] c1).
  2:{ rewrite on_rx_data_at by (done || lia). by rewrite Hc. }
  cbv zeta. rewrite (bind_ok _ _ _ [0; 3] c1).
  2:{ rewrite on_rx_data_at by (done || lia). by rewrite Hc. }
  change (be_decode [0; 3]) with 3. change (be_decode [rsp]) with rsp.
  rewrite (bind_ok _ _ _ 3 c1) by (unfold get_self, res_get; by rewrite Hl).
  change (3 >? 3) with false. cbv beta iota.
  rewrite (bind_ok _ _ _ (object c1) c1) by done.
  rewrite (proj2 (Z.eqb_neq _ _) Hnc), (proj2 (Z.eqb_neq _ _) Hnd). cbn [andb].
  do 3 rewrite (bind_ok _ _ _ tt c1) by done.
  set (p := buf_remove_begin 3 (rx_msg (self c1))) in *. set (c2 := with_rx p c1).
  rewrite (bind_ok _ _ _ tt c2) by done.
  rewrite (bind_ok _ _ _ 0 c2) by (unfold get_object, res_get; cbn; by rewrite Hho).
  change (0 =? 0) with true. cbv beta iota.
  rewrite (bind_ok _ _ _ true c2) by done. cbn [negb].
  assert (get_self (λ c, data_size (rx_msg c)) c2 = Ok 0 c2) as Es0.
  { unfold get_self, res_get. f_equal. change (data_size p = 0).
    rewrite <- content_length by done. by rewrite Ec2, Hc. }
  rewrite (bind_ok _ _ _ _ _ Es0). change (Z.to_nat 0) with 0%nat. cbn [parse_headers].
  rewrite (bind_ok _ _ _ 0 c2); [done|]. by rewrite (bind_ok _ _ _ _ _ Es0).
Qed.

Lemma obex_object_receive_plain k (c : conn (U := U)) rsp u fuel :
  generous → idle k c → k <= 2 ^ 29 → is_u 8 rsp →
  opcode (object c) ≠ OBEX_CMD_CONNECT → opcode (object c) ≠ OBEX_CMD_DISCONNECT →
  headeroffset (object c) = 0 →
  bulk_read (mtu_rx (self c)) (usb (self c)) = ((0, [rsp; 0; 3]), u) →
  ∃ p, obex_object_receive (S fuel) c
       = Ok (Z.land rsp (Z.lnot OBEX_FINAL)) (with_rx p (with_usb u c)) ∧
    idle (k + 3) (with_rx p (with_usb u c)).
Proof.
  intros Hg Hi Hk Hrsp Hnc Hnd Hho Hread.
  destruct (obex_bulk_read_ok k c [rsp; 0; 3] u fuel) as (p & E & Hp & Hc & Hh); try done.
  { split; [|done]. constructor; [done|]. by repeat (constructor; [done|]). }
  { by destruct Hi as [_ _ _ [? _]]. }
  pose proof (content_length p Hp) as Hl. rewrite Hc in Hl.
  change (zlen [rsp; 0; 3]) with 3 in Hl, E.
  destruct (buf_remove_begin_ok 3 p Hp) as (Hp2 & Ec2 & _ & Eh2); [lia|].
  exists (buf_remove_begin 3 p). split.
  - by apply (receive_no_headers c (with_rx p (with_usb u c))).
  - split; cbn [self with_rx rx_msg set_rx_msg]; [done| |lia|].
    + rewrite Ec2, Hc. done.
    + by destruct Hi.
Qed.
End Receive.

(** ** A device that follows the protocol *)

(** It acknowledges every packet with its sequence number and then answers
    CONTINUE to a packet without the final bit and SUCCESS to one with it. *)
Record link := Link { l_sent : list (list Z); l_reads : list (list Z) }.

Definition answer (opcode : Z) : list Z :=
  [if Z.testbit opcode 7 then 0xa0 else 0x90; 0; 3].

#[export] Instance link_usb : Usb link := {
  bulk_write bytes u :=
    ((0, zlen bytes), Link (l_sent u ++ [bytes])
                        (l_reads u ++ [[bytes !!! 0%nat]; answer (bytes !!! 1%nat)]));
  bulk_read n u :=
    match l_reads u with
    | [] => ((-7, []), u)
    | b :: r => ((0, take (Z.to_nat n) b), Link (l_sent u) r)
    end;
}.

(** A packet with its common header. *)
Definition wire (seq opcode : Z) (payload : list Z) : list Z :=
  [seq; opcode] ++ be_encode 2 (zlen payload + 3) ++ payload.

(** The packets that carry the parts of a body, the first one behind [pre]:
    the last part is marked as the end of the body and sent with the final
    opcode. *)
Fixpoint body_packets (seq op lastop : Z) (pre : list Z) (parts : list (list Z))
    : list (list Z) :=
  match parts with
  | [] => []
  | [part] => [wire seq (u8 (Z.lor lastop OBEX_FINAL)) (pre ++ body_part OBEX_HDR_BODY_END part)]
  | part :: parts' =>
      wire seq (u8 op) (pre ++ body_part OBEX_HDR_BODY part)
      :: body_packets (u8 (seq + 1)) op lastop [] parts'
  end.

Lemma pack_prefix ls q left :
  zlen (concat ls) < left →
  pack (map HBytes ls ++ q) left
  = ('(bytes, rest) ← pack q (left - zlen (concat ls)); Some (concat ls ++ bytes, rest)).
Proof.
  revert left. induction ls as [|l ls IH]; intros left Hl.
  - cbn [map app concat]. rewrite zlen_nil, Z.sub_0_r. by destruct (pack q left) as [[]|].
  - cbn [concat] in *. rewrite zlen_app in *. pose proof (zlen_nonneg (concat ls)).
    cbn [map app pack]. rewrite (proj2 (Z.leb_le _ _)) by lia.
    rewrite (proj2 (Z.eqb_neq _ _)) by lia. rewrite IH by lia.
    replace (left - (zlen l + zlen (concat ls))) with (left - zlen l - zlen (concat ls)) by lia.
    destruct (pack q _) as [[bytes rest]|]; [|done]. cbn. by rewrite <- (assoc (++)).
Qed.

Lemma zlen_body_part hi b : zlen (body_part hi b) = zlen b + 3.
Proof.
  unfold body_part. rewrite zlen_cons, zlen_app. unfold zlen at 1.
  rewrite be_encode_length. lia.
Qed.

Section Requests.
Context `{AllocOk}.
Abbreviation C := (conn (U := link)).

Lemma obex_bulk_write_link (c : C) :
  buf_ok (tx_msg (self c)) →
  obex_bulk_write c
  = Ok (zlen (content (tx_msg (self c))))
      (with_usb (bulk_write (content (tx_msg (self c))) (usb (self c))).2 c).
Proof.
  intros Hp. unfold obex_bulk_write.
  rewrite (bind_ok _ _ _ (content (tx_msg (self c))) c).
  2:{ rewrite (on_tx_ok _ c _ _ (buf_data_ok _ Hp)). f_equal. by destruct c as [[] ?]. }
  rewrite (bind_ok _ _ _ (usb (self c)) c) by done. cbn [bulk_write link_usb snd].
  done.
Qed.

Lemma take_short {A} n (l : list A) : zlen l <= n → take (Z.to_nat n) l = l.
Proof. intros Hn. apply take_ge. unfold zlen in Hn. lia. Qed.

(** One packet on the device: what is sent, what comes back. *)
Lemma exchange aq (c : C) bytes rest k fuel :
  generous → ready aq c → idle k c → k + 4 <= 2 ^ 29 →
  pack aq (mtu_tx (self c) - 4) = Some (bytes, rest) →
  zlen (nonhdr (object c) ++ bytes) + 4 < 2 ^ 16 →
  l_reads (usb (self c)) = [] →
  opcode (object c) ≠ OBEX_CMD_CONNECT → opcode (object c) ≠ OBEX_CMD_DISCONNECT →
  headeroffset (object c) = 0 → is_u 7 (opcode (object c)) →
  ∃ q p r c1 v, Forall2 elem_abs q rest ∧ buf_ok p ∧
    zlen (buffer (tx_msg (self c))) <= zlen (buffer p) ∧
    let c2 := with_rx r (with_usb (Link (l_sent (usb (self c)) ++ [packet c bytes rest]) [])
                (built c q p)) in
    idle (k + 4) c2 ∧ 0 <= v ∧ obex_object_send c = Ok v c1 ∧
    obex_object_receive (S fuel) c1 = Ok (match rest with [] => 0x20 | _ => 0x10 end) c2.
Proof.
  intros Hg Hrd Hidle Hk Hpack Hlen Hreads Hnc Hnd Hho Hop.
  destruct (obex_object_send_run aq c bytes rest Hrd Hpack Hlen)
    as (q & p & Hq & Hp & Hc & Hcap & Hsend).
  set (c0 := built c q p) in *.
  set (ans := answer (packet_opcode (object c) rest)).
  set (sent' := l_sent (usb (self c)) ++ [packet c bytes rest]).
  set (c1 := with_usb (Link sent' [[seq_num (self c)]; ans]) c0).
  assert (obex_bulk_write c0 = Ok (zlen (packet c bytes rest)) c1) as Hw.
  { rewrite obex_bulk_write_link by done. cbn [self c0 built tx_msg set_seq_num set_tx_msg usb].
    rewrite Hc. cbn [bulk_write link_usb snd]. rewrite Hreads. done. }
  rewrite (bind_ok _ _ _ _ _ Hw), (proj2 (Z.ltb_ge _ _) (zlen_nonneg _)) in Hsend.
  assert (idle k c1) as Hi1 by (by destruct Hidle).
  destruct (obex_verify_seq_ok k c1 (seq_num (self c)) 0 (Link sent' [ans]) Hg Hi1)
    as (r1 & Hv & Hi2); [lia|apply Hrd|done| |].
  { cbn [bulk_read link_usb self c1 with_usb usb set_usb l_reads l_sent].
    rewrite take_short; [done|]. change (zlen [_]) with 1. destruct Hidle. cbn in *. lia. }
  rewrite (bind_ok _ _ _ _ _ Hv) in Hsend.
  set (c2 := with_rx r1 (with_usb (Link sent' [ans]) c1)) in *.
  set (rsp := if Z.testbit (packet_opcode (object c) rest) 7 then 0xa0 else 0x90).
  destruct (obex_object_receive_plain (k + 1) c2 rsp (Link sent' []) fuel)
    as (r2 & Hr & Hi3).
  { done. } { done. } { lia. } { subst rsp. by destruct (Z.testbit _ _). } { done. } { done. } { done. }
  { cbn [bulk_read link_usb self c2 with_rx with_usb usb set_usb set_rx_msg l_reads l_sent].
    rewrite take_short; [done|]. change (zlen ans) with 3. destruct Hidle. cbn in *. lia. }
  exists q, p, r2, c2, (match rest with [] => 1 | _ => 0 end).
  split; [done|]. split; [done|]. split; [done|]. cbv zeta.
  fold sent' c0. change (with_rx r2 (with_usb (Link sent' []) c0))
    with (with_rx r2 (with_usb (Link sent' []) c2)).
  split; [by replace (k + 4) with (k + 1 + 3) by lia|].
  split; [by destruct rest|]. split; [exact Hsend|]. rewrite Hr. f_equal.
  subst rsp. unfold packet_opcode. destruct rest.
  - unfold u8. rewrite Z.mod_pow2_bits_low by lia. rewrite Z.lor_spec, orb_true_r. done.
  - rewrite u8_small by (by eapply is_u_mono; [|exact Hop]).
    rewrite (is_u_above 7) by (done || lia). done.
Qed.

(** Packing headers that leave room for the body and at least one of its
    bytes. *)
Lemma pack_body ls b left :
  zlen (concat ls) + 4 <= left →
  let room := left - zlen (concat ls) in
  pack (map HBytes ls ++ [HBody b]) left
  = Some (if room <? zlen b + 3
          then (concat ls ++ body_part OBEX_HDR_BODY (take (Z.to_nat (room - 3)) b),
                [HBody (drop (Z.to_nat (room - 3)) b)])
          else (concat ls ++ body_part OBEX_HDR_BODY_END b, [])).
Proof.
  intros Hl room. pose proof (zlen_nonneg b). rewrite pack_prefix by lia. cbn [pack].
  rewrite (proj2 (Z.ltb_ge _ _)) by lia. fold room.
  destruct (Z.ltb_spec room (zlen b + 3)); [done|].
  rewrite (proj2 (Z.eqb_neq _ _)) by lia. cbn [mbind option_bind].
  by rewrite app_nil_r.
Qed.

(** An object with these headers and this body to send, on an idle link. *)
Record sendable (ls : list (list Z)) (b : list Z) (k : Z) (c : C) : Prop := {
  sn_ready : ready (map HBytes ls ++ [HBody b]) c;
  sn_idle : idle k c;
  sn_room : zlen (concat ls) + 8 <= mtu_tx (self c);
  sn_reads : l_reads (usb (self c)) = [];
  sn_nonhdr : tx_nonhdr_data (object c) = None;
  sn_connect : opcode (object c) ≠ OBEX_CMD_CONNECT;
  sn_disconnect : opcode (object c) ≠ OBEX_CMD_DISCONNECT;
  sn_offset : headeroffset (object c) = 0;
  sn_opcode : is_u 7 (opcode (object c));
}.

Lemma zlen_wire seq op payload : zlen (wire seq op payload) = zlen payload + 4.
Proof.
  unfold wire. rewrite !zlen_app. unfold zlen at 1 2. rewrite be_encode_length. simpl. lia.
Qed.

(** The space for the body behind the other headers. *)
Definition body_room (ls : list (list Z)) (c : C) : Z :=
  mtu_tx (self c) - 4 - zlen (concat ls).

Definition first_part (ls : list (list Z)) (b : list Z) (c : C) : list Z :=
  take (Z.to_nat (body_room ls c - 3)) b.
Definition other_part (ls : list (list Z)) (b : list Z) (c : C) : list Z :=
  drop (Z.to_nat (body_room ls c - 3)) b.

(** A callback that leaves the connection alone, and what is known of its data. *)
Definition harmless {D} (callback : option (D → res C D)) (op : Z) (P : D → Prop) : Prop :=
  match callback with
  | Some f => ∀ d c, P d → opcode (object c) = op → ∃ d', P d' ∧ f d c = Ok d' c
  | None => True
  end.

Lemma run_callback {D} (callback : option (D → res C D)) op P d (c : C) :
  harmless callback op P → P d → opcode (object c) = op →
  ∃ d', P d' ∧ (match callback with Some f => f d | None => mret d end) c = Ok d' c.
Proof. destruct callback as [f|]; [intros Hh; apply Hh|]. intros _ Hd _. by exists d. Qed.

(** One round of a request, whatever fits in its packet. *)
Lemma request_round {D} (callback : option (D → res C D)) P d ls b k (c : C) bytes rest fuel read_fuel :
  generous → sendable ls b k c → k + 4 <= 2 ^ 29 →
  harmless callback (opcode (object c)) P → P d →
  pack (map HBytes ls ++ [HBody b]) (mtu_tx (self c) - 4) = Some (bytes, rest) →
  zlen bytes + 4 < 2 ^ 16 →
  ∃ q p r d2, Forall2 elem_abs q rest ∧ buf_ok p ∧
    zlen (buffer (tx_msg (self c))) <= zlen (buffer p) ∧ P d2 ∧
    let c2 := with_rx r (with_usb (Link (l_sent (usb (self c)) ++
      [wire (seq_num (self c)) (packet_opcode (object c) rest) bytes]) []) (built c q p)) in
    idle (k + 4) c2 ∧
    obex_request (S fuel) (S read_fuel) callback d c
    = match rest with
      | [] => Ok (OBEX_RSP_SUCCESS, d2) c2
      | _ => obex_request fuel (S read_fuel) callback d2 c2
      end.
Proof.
  intros Hg Hs Hk Hcb Hd Hpack Hlen. destruct Hs as [Hrd Hid _ Hreads Hnon Hnc Hnd Hho Hop].
  assert (nonhdr (object c) = []) as Hn0 by (unfold nonhdr; by rewrite Hnon).
  destruct (exchange _ c bytes rest k read_fuel Hg Hrd Hid Hk Hpack)
    as (q & p & r & c1 & v & Hq & Hp & Hcap & Hid2 & Hv & Hsend & Hrecv); try done.
  { by rewrite Hn0. }
  assert (packet c bytes rest = wire (seq_num (self c)) (packet_opcode (object c) rest) bytes) as Ew
    by (unfold packet, wire; by rewrite Hn0).
  cbv zeta in Hid2, Hrecv. rewrite Ew in Hid2, Hrecv.
  match type of Hid2 with idle _ ?x => set (c2 := x) in * end.
  destruct (run_callback callback _ P d c2 Hcb Hd eq_refl) as (d2 & Hd2 & Erun).
  exists q, p, r, d2. cbv zeta. fold c2. split_and!; [done..|].
  cbn [obex_request]. rewrite (bind_ok _ _ _ _ _ Hsend), (proj2 (Z.ltb_ge _ _) Hv).
  rewrite (bind_ok _ _ _ _ _ Hrecv). destruct rest; by rewrite (bind_ok _ _ _ _ _ Erun).
Qed.

(** What is left of the body can be sent like the whole. *)
Lemma still_sendable ls b b' k (c : C) q p r link :
  sendable ls b k c → Forall2 elem_abs q [HBody b'] → buf_ok p →
  zlen (buffer (tx_msg (self c))) <= zlen (buffer p) → l_reads link = [] →
  let c2 := with_rx r (with_usb link (built c q p)) in
  idle (k + 4) c2 → sendable [] b' (k + 4) c2.
Proof.
  intros [Hrd Hid Hroom Hreads Hnon Hnc Hnd Hho Hop] Hq Hp Hcap Hl c2 Hid2.
  destruct Hrd as [_ ? Hrcap _ _ _ _]. assert (nonhdr (object c) = []) as Hn0 by (unfold nonhdr; by rewrite Hnon).
  pose proof (zlen_nonneg (concat ls)). pose proof (zlen_nonneg (map HBytes ls)). rewrite Hn0, zlen_app in Hrcap.
  assert (mtu_tx (self c2) = mtu_tx (self c)) as Em by done.
  assert (nonhdr (object c2) = []) as Hn2 by done.
  assert (tx_msg (self c2) = p) as Et by done.
  split; try done.
  - split; rewrite ?Em, ?Hn2, ?Et; [done|done| |exact Hq| |done|apply u8_range].
    + cbn [map app]. unfold zlen in *. cbn [length] in *. lia.
    + by apply Forall_singleton.
  - rewrite Em. cbn [concat]. rewrite zlen_nil. lia.
Qed.

(** One round of a request. *)
Lemma request_step {D} (callback : option (D → res C D)) P d ls b k (c : C) fuel read_fuel :
  generous → sendable ls b k c → k + 4 <= 2 ^ 29 →
  harmless callback (opcode (object c)) P → P d →
  ∃ c2 d2, P d2 ∧ mtu_tx (self c2) = mtu_tx (self c) ∧ opcode (object c2) = opcode (object c) ∧
    lastopcode (object c2) = lastopcode (object c) ∧
    seq_num (self c2) = u8 (seq_num (self c) + 1) ∧
    if body_room ls c <? zlen b + 3 then
      obex_request (S fuel) (S read_fuel) callback d c
      = obex_request fuel (S read_fuel) callback d2 c2 ∧
      sendable [] (other_part ls b c) (k + 4) c2 ∧
      l_sent (usb (self c2)) = l_sent (usb (self c)) ++
        [wire (seq_num (self c)) (u8 (opcode (object c)))
           (concat ls ++ body_part OBEX_HDR_BODY (first_part ls b c))]
    else
      obex_request (S fuel) (S read_fuel) callback d c = Ok (OBEX_RSP_SUCCESS, d2) c2 ∧
      l_sent (usb (self c2)) = l_sent (usb (self c)) ++
        [wire (seq_num (self c)) (u8 (Z.lor (lastopcode (object c)) OBEX_FINAL))
           (concat ls ++ body_part OBEX_HDR_BODY_END b)].
Proof.
  intros Hg Hs Hk Hcb Hd. pose proof Hs as [Hrd _ Hroom _ _ _ _ _ _].
  pose proof (pack_body ls b (mtu_tx (self c) - 4) ltac:(lia)) as Hpack. cbv zeta in Hpack.
  fold (body_room ls c) in Hpack. fold (first_part ls b c) in Hpack.
  fold (other_part ls b c) in Hpack.
  pose proof (rd_mtu _ _ Hrd) as Hmtu. pose proof (zlen_nonneg (concat ls)) as Hcn.
  pose proof (zlen_nonneg b) as Hbn.
  assert (zlen (first_part ls b c) <= body_room ls c - 3) as Hfp.
  { unfold first_part, body_room, zlen in *. rewrite length_take. lia. }
  destruct (Z.ltb_spec (body_room ls c) (zlen b + 3)) as [Hcut|Hlast];
    destruct (request_round callback P d ls b k c _ _ fuel read_fuel Hg Hs Hk Hcb Hd Hpack)
      as (q & p & r & d2 & Hq & Hp & Hcap & Hd2 & Hid2 & Hrun);
    try (rewrite zlen_app, zlen_body_part; unfold body_room in *; lia);
    cbv zeta in Hid2, Hrun; match type of Hid2 with idle _ ?x => exists x, d2 end;
    split_and!; try done.
  by apply (still_sendable ls b).
Qed.

Lemma request_loop {D} (callback : option (D → res C D)) P n ls b k (c : C) d read_fuel :
  generous → sendable ls b k c → (length b <= n)%nat → k + 4 * (Z.of_nat n + 1) <= 2 ^ 29 →
  harmless callback (opcode (object c)) P → P d →
  ∃ parts c' d', P d' ∧
    obex_request (S n) (S read_fuel) callback d c = Ok (OBEX_RSP_SUCCESS, d') c' ∧
    concat parts = b ∧ parts ≠ [] ∧
    let ps := body_packets (seq_num (self c)) (opcode (object c)) (lastopcode (object c))
                (concat ls) parts in
    l_sent (usb (self c')) = l_sent (usb (self c)) ++ ps ∧
    Forall (λ p, zlen p <= mtu_tx (self c)) ps.
Proof.
  intros Hg. revert ls b k c d. induction n as [|n IH]; intros ls b k c d Hs Hn Hk Hcb Hd;
    pose proof (sn_room _ _ _ _ Hs) as Hroom.
  - destruct (request_step callback P d ls b k c 0 read_fuel Hg Hs ltac:(lia) Hcb Hd)
      as (c2 & d2 & Hd2 & Em & Eo & El & Eseq & Hstep).
    rewrite (proj2 (Z.ltb_ge _ _)) in Hstep by (unfold body_room, zlen in *; lia).
    destruct Hstep as [Hrun Hsent]. exists [b], c2, d2. split; [done|]. split; [done|].
    split; [apply app_nil_r|]. split; [done|]. cbn [body_packets]. split; [done|].
    apply Forall_singleton. rewrite zlen_wire, zlen_app, zlen_body_part.
    unfold zlen in *. lia.
  - destruct (request_step callback P d ls b k c (S n) read_fuel Hg Hs ltac:(lia) Hcb Hd)
      as (c2 & d2 & Hd2 & Em & Eo & El & Eseq & Hstep).
    destruct (Z.ltb_spec (body_room ls c) (zlen b + 3)) as [Hcut|Hlast].
    + destruct Hstep as (Hrun & Hs2 & Hsent).
      destruct (IH [] (other_part ls b c) (k + 4) c2 d2 Hs2) as (parts & c' & d' & Hd' & Hr & Hb & Hne & Hsent' & Hmtu).
      { unfold other_part, body_room, zlen in *. rewrite length_drop. lia. }
      { lia. }
      { by rewrite Eo. }
      { done. }
      exists (first_part ls b c :: parts), c', d'. split; [done|]. split; [by rewrite Hrun|].
      split; [cbn [concat]; rewrite Hb; apply take_drop|]. split; [done|].
      rewrite Eo, El, Eseq, Em in *. cbn [concat] in Hsent', Hmtu.
      destruct parts as [|part parts]; [done|]. cbn [body_packets]. split.
      * rewrite Hsent', Hsent, <- (assoc (++)). done.
      * constructor; [|done]. rewrite zlen_wire, zlen_app, zlen_body_part.
        unfold first_part, body_room, zlen in *. rewrite length_take. lia.
    + destruct Hstep as [Hrun Hsent]. exists [b], c2, d2. split; [done|]. split; [done|].
      split; [apply app_nil_r|]. split; [done|]. cbn [body_packets]. split; [done|].
      apply Forall_singleton. rewrite zlen_wire, zlen_app, zlen_body_part.
      unfold body_room in *. lia.
Qed.
End Requests.

(** ** Parsing the headers of a response *)

(** A received header: identifier and value bytes. *)
Definition rx_hdr : Type := Z * list Z.

Definition is_bytes_type (hi : Z) : bool :=
  let type := Z.land hi OBEX_HDR_TYPE_MASK in
  (type =? OBEX_HDR_TYPE_BYTES) || (type =? OBEX_HDR_TYPE_UNICODE).

Definition is_body (hi : Z) : bool := (hi =? OBEX_HDR_BODY) || (hi =? OBEX_HDR_BODY_END).

Definition wire_hdr (h : rx_hdr) : list Z :=
  if is_bytes_type h.1 then h.1 :: be_encode 2 (zlen h.2 + 3) ++ h.2 else h.1 :: h.2.

(** The value has the size its type calls for, and a length header announces at
    most half of what can be allocated. *)
Record rx_hdr_ok (h : rx_hdr) : Prop := {
  rh_hi : is_u 8 h.1;
  rh_bytes : bytes_ok h.2;
  rh_size : if is_bytes_type h.1 then zlen h.2 + 3 < 2 ^ 16
            else if Z.land h.1 OBEX_HDR_TYPE_MASK =? OBEX_HDR_TYPE_UINT8 then zlen h.2 = 1
            else zlen h.2 = 4;
  rh_length : h.1 = OBEX_HDR_LENGTH → be_decode h.2 <= 2 ^ 29;
}.

(** What the object holds: the queued headers and the body collected so far. *)
Definition rx_state : Type := list rx_hdr * option (list Z).

Definition rx_step (s : rx_state) (h : rx_hdr) : rx_state :=
  if is_body h.1 then
    let body := default [] s.2 ++ h.2 in
    if h.1 =? OBEX_HDR_BODY_END then (s.1 ++ [(OBEX_HDR_BODY, body)], None)
    else (s.1, Some body)
  else (s.1 ++ [h], s.2).

Definition rx_elem (e : obex_header_element) (h : rx_hdr) : Prop :=
  e_hi e = h.1 ∧ e_length e = zlen h.2 ∧
  ∃ p, e_buf e = Some p ∧ buf_ok p ∧ content p = h.2.

(** [t] bounds the body's buffer. *)
Record rx_abs (t : Z) (s : rx_state) (o : obex_object_t) : Prop := {
  ra_queue : Forall2 rx_elem (rx_headerq o) s.1;
  ra_body : match rx_body o, s.2 with
            | Some p, Some b => buf_ok p ∧ content p = b ∧ zlen (buffer p) <= t
            | None, None => True
            | _, _ => False
            end;
  ra_hint : 0 <= hinted_body_len o <= 2 ^ 29;
}.

Section Parse.
Context `{AllocOk} {U : Type} `{Usb U}.
Abbreviation X := (res (conn (U := U))).

Definition with_object (o : obex_object_t) (c : conn (U := U)) : conn (U := U) :=
  Conn (self c) o.

Lemma buf_new_some n : generous → 0 <= n <= 2 ^ 30 →
  ∃ p, buf_new n = Some p ∧ buf_ok p ∧ content p = [] ∧ zlen (buffer p) = n ∧ data_avail p = n.
Proof.
  intros Hg Hn. destruct (buf_new n) as [p|] eqn:E.
  - exists p. split; [done|]. by apply buf_new_ok; [lia|].
  - unfold buf_new in E. rewrite !Hg in E by (unfold sizeof_buf_t; lia). done.
Qed.

(** A fresh buffer filled with a value. *)
Lemma insert_fresh p v :
  buf_ok p → content p = [] → data_avail p = zlen v → bytes_ok v →
  ∃ p', buf_insert_end v p = Ok tt p' ∧ buf_ok p' ∧ content p' = v.
Proof.
  intros Hp Hc Hd Hb. pose proof (bk_tail p Hp).
  destruct (insert_end_room p v Hp Hb) as (p' & E & Hp' & Hc' & _); [lia|].
  exists p'. split; [done|]. split; [done|]. by rewrite Hc', Hc.
Qed.

(** Queueing a header whose value lies in the message. *)
Lemma queue_header_ok (c : conn (U := U)) hi source v :
  generous → buf_ok (rx_msg (self c)) → bytes_ok v → 0 <= source → zlen v < 2 ^ 16 →
  source + zlen v <= data_size (rx_msg (self c)) →
  take (length v) (drop (Z.to_nat source) (content (rx_msg (self c)))) = v →
  ∃ e, queue_header hi source (zlen v) c
       = Ok true (with_object (set_rx_headerq (rx_headerq (object c) ++ [e]) (object c)) c) ∧
    rx_elem e (hi, v).
Proof.
  intros Hg Hp Hb Hs Hv Hfit Hv'. pose proof (zlen_nonneg v) as Hvn.
  unfold queue_header. rewrite Hg by (unfold sizeof_header_element; lia). cbn [negb].
  destruct (buf_new_some (if zlen v =? 0 then 1 else zlen v) Hg) as (p & -> & Hp0 & Hc0 & _ & Hd0);
    [case_match; lia|].
  destruct (Z.eqb_spec (zlen v) 0) as [E0|E0].
  - rewrite (bind_ok _ _ _ p c) by done. eexists. split; [reflexivity|].
    split; [done|]. split; [done|]. exists p. split; [done|]. split; [done|].
    rewrite Hc0. unfold zlen in E0. destruct v; [done|discriminate E0].
  - destruct (insert_fresh p v Hp0 Hc0 Hd0 Hb) as (p' & Ei & Hp' & Hc').
    rewrite (bind_ok _ _ _ p' c).
    2:{ rewrite (bind_ok _ _ _ v c).
        2:{ rewrite on_rx_data_at by (done || lia). f_equal. rewrite <- Hv' at 2.
            f_equal. unfold zlen. lia. }
        rewrite (bind_ok _ _ _ (tt, p') c) by (by apply on_buf_ok). done. }
    eexists. split; [reflexivity|]. split; [done|]. split; [done|]. by exists p'.
Qed.

(** Making room in the body's buffer. *)
Lemma body_room_ok p len t :
  generous → buf_ok p → 0 <= len < 2 ^ 16 → zlen (buffer p) <= t → t + 10240 + len <= 2 ^ 30 →
  let wanted := u32 (s32 (buf_total_size p) + OBEX_OBJECT_ALLOCATIONTRESHOLD + len) in
  let small := u64 (data_avail p + tail_avail p) <? u64 (s32 len) in
  let p' := if small then buf_resize p wanted else p in
  buf_ok p' ∧ content p' = content p ∧ len <= tail_avail p' + data_avail p' ∧
  zlen (buffer p') <= t + 10240 + len ∧
  small && negb (buf_total_size p' =? wanted) = false.
Proof.
  intros Hg Hp Hlen Ht Hbound. rewrite buf_total_size_ok by done.
  pose proof (zlen_nonneg (buffer p)) as Hn. pose proof Hp as [? ? ? ? ? ? ? ?].
  rewrite s32_small by lia. change OBEX_OBJECT_ALLOCATIONTRESHOLD with 10240.
  rewrite u32_small by (unfold is_u; lia). rewrite (s32_small len) by lia.
  rewrite !u64_small by (unfold is_u; lia). cbv zeta.
  destruct (Z.ltb_spec (data_avail p + tail_avail p) len) as [Hsmall|Hlarge].
  - set (wanted := zlen (buffer p) + 10240 + len).
    destruct (buf_resize_keeps p wanted Hp) as (Hok & Hz & Hc);
      [lia|by apply Hg; lia|].
    pose proof (content_length p Hp) as Hcl.
    assert (content (buf_resize p wanted) = content p) as Ec.
    { rewrite Hc. apply take_ge. unfold zlen in *. lia. }
    split; [done|]. split; [done|]. split; [|split; [lia|]].
    + rewrite buf_resize_grow by (done || lia || (apply Hg; lia)). cbn. lia.
    + rewrite buf_total_size_ok by done. by rewrite Hz, Z.eqb_refl.
  - split; [done|]. split; [done|]. split; [lia|]. split; [lia|done].
Qed.

(** The buffer of the body, found or allocated. *)
Lemma body_found t s o len :
  generous → rx_abs t s o → 0 <= len < 2 ^ 16 → 2 ^ 29 <= t → t + 10240 + len <= 2 ^ 30 →
  ∃ p, match rx_body o with
       | Some p => Some p
       | None => buf_new (u64 (if negb (hinted_body_len o =? 0) then hinted_body_len o
                               else 10240 + len))
       end = Some p ∧ buf_ok p ∧ content p = default [] s.2 ∧ zlen (buffer p) <= t.
Proof.
  intros Hg [_ Hbody Hhint] Hlen Ht29 Ht.
  destruct (rx_body o) as [p|], s.2 as [b|]; try done.
  - destruct Hbody as (? & ? & ?). by exists p.
  - assert (is_u 64 (if negb (hinted_body_len o =? 0) then hinted_body_len o else 10240 + len)) as Hu
      by (unfold is_u; case_match; lia).
    rewrite u64_small by done.
    match goal with |- context [buf_new ?n] => destruct (buf_new_some n Hg) as (p & -> & ? & ? & Hz & _) end.
    + case_match; to_prop; lia.
    + exists p. split_and!; [done..|]. rewrite Hz. case_match; lia.
Qed.

Lemma obex_object_receive_body_ok (c : conn (U := U)) hi v t s :
  generous → buf_ok (rx_msg (self c)) → rx_abs t s (object c) → is_body hi = true →
  bytes_ok v → zlen v < 2 ^ 16 → 3 + zlen v <= data_size (rx_msg (self c)) →
  take (length v) (drop 3 (content (rx_msg (self c)))) = v →
  2 ^ 29 <= t → t + 10240 + zlen v <= 2 ^ 30 →
  ∃ o, obex_object_receive_body hi 3 (zlen v) c = Ok 1 (with_object o c) ∧
    rx_abs (t + 10240 + zlen v) (rx_step s (hi, v)) o ∧ headeroffset o = headeroffset (object c).
Proof.
  intros Hg Hp Hs Hib Hb Hv Hfit Hv' Ht29 Ht. pose proof (zlen_nonneg v) as Hvn.
  unfold obex_object_receive_body.
  rewrite (bind_ok _ _ _ (data_size (rx_msg (self c))) c) by done.
  rewrite Z.gtb_ltb, (proj2 (Z.ltb_ge _ _)) by lia.
  rewrite (bind_ok _ _ _ (object c) c) by done. cbv zeta.
  change OBEX_OBJECT_ALLOCATIONTRESHOLD with 10240.
  rewrite (s32_small (10240 + zlen v)) by lia.
  destruct (body_found t s (object c) (zlen v)) as (p & -> & Hp0 & Hc0 & Ht0); [done|done|lia..|].
  pose proof (body_room_ok p (zlen v) t Hg Hp0 ltac:(lia) Ht0 Ht) as Hroom. cbv zeta in Hroom.
  change OBEX_OBJECT_ALLOCATIONTRESHOLD with 10240 in Hroom.
  set (small := u64 (data_avail p + tail_avail p) <? u64 (s32 (zlen v))) in *.
  set (wanted := u32 (s32 (buf_total_size p) + 10240 + zlen v)) in *.
  set (p1 := if small then buf_resize p wanted else p) in *.
  destruct Hroom as (Hp1 & Hc1 & Hr1 & Hz1 & ->).
  set (c1 := with_object (set_rx_body (Some p1) (object c)) c).
  rewrite (bind_ok _ _ _ tt c1) by done.
  rewrite (bind_ok _ _ _ v c1).
  2:{ rewrite on_rx_data_at by (done || lia). f_equal. rewrite <- Hv' at 2.
      cbn [self c1 with_object]. f_equal. unfold zlen. lia. }
  destruct (buf_insert_end_ok p1 v Hp1 Hb (or_introl Hr1)) as (p2 & Ei & Hp2 & Hc2 & _ & _ & _ & Hz2).
  specialize (Hz2 Hr1).
  rewrite (bind_ok _ _ _ (tt, p2) c1) by (by apply on_buf_ok).
  pose proof (content_length p2 Hp2) as Hl2. pose proof (bk_int p2 Hp2) as Hi2.
  assert (content p2 = default [] s.2 ++ v) as Hc by by rewrite Hc2, Hc1, Hc0.
  destruct Hs as [Hq _ Hhint]. unfold rx_step. cbn [fst snd]. rewrite Hib.
  destruct (hi =? OBEX_HDR_BODY_END).
  - rewrite Hg by (unfold sizeof_header_element; lia).
    eexists. split; [reflexivity|]. split; [|done]. split; cbn; [|done|done].
    apply Forall2_app; [done|]. apply Forall2_cons. split; [|constructor].
    split; [done|]. cbn. split; [|by exists p2].
    rewrite u32_small; [by rewrite <- Hl2, Hc|unfold is_u; destruct Hp2; lia].
  - eexists. split; [reflexivity|]. split; [|done]. split; cbn; [done| |done].
    rewrite Hc. split_and!; [done..|lia].
Qed.

Lemma zlen_wire_hdr h :
  rx_hdr_ok h → zlen (wire_hdr h) = zlen h.2 + (if is_bytes_type h.1 then 3 else 1).
Proof.
  intros _. unfold wire_hdr. destruct (is_bytes_type h.1); rewrite ?zlen_cons, ?zlen_app.
  - unfold zlen at 1. rewrite be_encode_length. lia.
  - lia.
Qed.

Lemma wire_hdr_hi h : take 1 (wire_hdr h) = [h.1].
Proof. unfold wire_hdr. by destruct (is_bytes_type h.1). Qed.

Lemma wire_hdr_value h tail :
  take (length h.2) (drop (if is_bytes_type h.1 then 3 else 1) (wire_hdr h ++ tail)) = h.2.
Proof.
  unfold wire_hdr. destruct (is_bytes_type h.1).
  - rewrite <- app_comm_cons, <- (assoc (++)). rewrite skipn_cons.
    rewrite drop_app_length' by (by rewrite be_encode_length). apply take_app_length.
  - rewrite <- app_comm_cons, skipn_cons, drop_0. apply take_app_length.
Qed.

Lemma hdr_type hi :
  is_u 8 hi → let type := Z.land hi OBEX_HDR_TYPE_MASK in
  type = 0 ∨ type = 0x40 ∨ type = 0x80 ∨ type = 0xc0.
Proof.
  intros Hhi. cbv zeta.
  assert (∀ n : nat, (n < 256)%nat → let type := Z.land (Z.of_nat n) OBEX_HDR_TYPE_MASK in
    type = 0 ∨ type = 0x40 ∨ type = 0x80 ∨ type = 0xc0) as Hall.
  { intros n Hn. cbv zeta.
    assert (Forall (λ n, Z.land (Z.of_nat n) OBEX_HDR_TYPE_MASK = 0 ∨
      Z.land (Z.of_nat n) OBEX_HDR_TYPE_MASK = 0x40 ∨
      Z.land (Z.of_nat n) OBEX_HDR_TYPE_MASK = 0x80 ∨
      Z.land (Z.of_nat n) OBEX_HDR_TYPE_MASK = 0xc0) (seq 0 256)) as Hf by compute_dec.
    rewrite Forall_forall in Hf. apply Hf. apply elem_of_seq. lia. }
  unfold is_u in Hhi. specialize (Hall (Z.to_nat hi) ltac:(lia)). cbv zeta in Hall.
  by rewrite Z2Nat.id in Hall by lia.
Qed.

Lemma body_is_bytes hi : is_body hi = true → is_bytes_type hi = true.
Proof.
  unfold is_body. intros [E|E]%orb_prop; apply Z.eqb_eq in E; by subst.
Qed.

(** A message that starts with a well-formed header. *)
Lemma classify_ok (c : conn (U := U)) h tail t s :
  generous → rx_hdr_ok h → buf_ok (rx_msg (self c)) →
  content (rx_msg (self c)) = wire_hdr h ++ tail → rx_abs t s (object c) →
  2 ^ 29 <= t → t + 10240 + zlen h.2 <= 2 ^ 30 →
  ∃ o source, classify h.1 c = Ok (source, zlen h.2, zlen (wire_hdr h), 0) (with_object o c) ∧
    headeroffset o = headeroffset (object c) ∧
    if is_body h.1
    then source = None ∧ rx_abs (t + 10240 + zlen h.2) (rx_step s h) o
    else source = Some (if is_bytes_type h.1 then 3 else 1) ∧ o = object c.
Proof.
  intros Hg Hh Hp Hc Hs Ht29 Ht. pose proof (zlen_wire_hdr h Hh) as Hwl.
  pose proof (content_length _ Hp) as Hl. rewrite Hc, zlen_app in Hl.
  pose proof (zlen_nonneg tail) as Htn. pose proof (zlen_nonneg h.2) as Hvn.
  pose proof (rh_size h Hh) as Hsize. unfold classify. cbv zeta.
  pose proof (hdr_type h.1 (rh_hi h Hh)) as Htype. cbv zeta in Htype.
  change ((Z.land h.1 OBEX_HDR_TYPE_MASK =? OBEX_HDR_TYPE_BYTES)
          || (Z.land h.1 OBEX_HDR_TYPE_MASK =? OBEX_HDR_TYPE_UNICODE))%bool
    with (is_bytes_type h.1).
  destruct (is_bytes_type h.1) eqn:Hbt.
  - rewrite (bind_ok _ _ _ (be_encode 2 (zlen h.2 + 3)) c).
    2:{ rewrite on_rx_data_at by (done || lia). f_equal. rewrite Hc. unfold wire_hdr.
        rewrite Hbt. done. }
    rewrite be_decode_encode, Z.mod_small by (cbn; lia).
    rewrite u32_small by (unfold is_u; lia).
    replace (zlen h.2 + 3 - 3) with (zlen h.2) by lia.
    change ((h.1 =? OBEX_HDR_BODY) || (h.1 =? OBEX_HDR_BODY_END))%bool with (is_body h.1).
    destruct (is_body h.1) eqn:Hib.
    + destruct (obex_object_receive_body_ok c h.1 h.2 t s Hg Hp Hs Hib (rh_bytes h Hh))
        as (o & E & Habs & Hho); [lia|lia| |done|done|].
      { pose proof (wire_hdr_value h tail) as Hv. rewrite Hbt in Hv. by rewrite Hc. }
      exists o, None. rewrite (bind_ok _ _ _ _ _ E). split; [by rewrite Hwl|].
      split; [done|]. split; [done|]. by destruct h.
    + exists (object c), (Some 3). split; [rewrite Hwl; by destruct c|done].
  - assert (is_body h.1 = false) as Hib.
    { apply not_true_is_false. intros Hib%body_is_bytes. congruence. }
    rewrite Hib. unfold is_bytes_type in Hbt.
    apply orb_false_elim in Hbt as [Hb1%Z.eqb_neq Hb2%Z.eqb_neq].
    change OBEX_HDR_TYPE_BYTES with 0x40 in Hb1. change OBEX_HDR_TYPE_UNICODE with 0 in Hb2.
    exists (object c), (Some 1). rewrite Hwl.
    change OBEX_HDR_TYPE_UINT8 with 0x80 in *. change OBEX_HDR_TYPE_UINT32 with 0xc0 in *.
    destruct (Z.eqb_spec (Z.land h.1 OBEX_HDR_TYPE_MASK) 0x80) as [E8|E8].
    + rewrite Hsize. split; [by destruct c|done].
    + assert (Z.land h.1 OBEX_HDR_TYPE_MASK = 0xc0) as -> by lia. rewrite Hsize.
      split; [by destruct c|done].
Qed.

Lemma parse_headers_turn fuel (c : conn (U := U)) c' :
  data_size (rx_msg (self c)) > 0 → handle_header c = Ok 0 c' →
  parse_headers (S fuel) c = parse_headers fuel c'.
Proof.
  intros Hs E. cbn [parse_headers].
  rewrite (bind_ok _ _ _ (data_size (rx_msg (self c))) c) by done.
  rewrite Z.gtb_ltb, (proj2 (Z.ltb_lt _ _)) by lia. cbn [negb].
  by rewrite (bind_ok _ _ _ _ _ E).
Qed.

Lemma rx_abs_weaken t t' s o : t <= t' → rx_abs t s o → rx_abs t' s o.
Proof.
  intros Ht [Hq Hb Hh]. split; [done| |done].
  destruct (rx_body o), s.2; try done. destruct Hb as (? & ? & ?). split; [done|]. split; [done|]. lia.
Qed.

(** The length that a header announces. *)
Definition hinted (h : rx_hdr) (o : obex_object_t) : obex_object_t :=
  if h.1 =? OBEX_HDR_LENGTH then set_hinted_body_len (be_decode h.2) o else o.

Lemma hint_ok (c : conn (U := U)) h tail :
  rx_hdr_ok h → buf_ok (rx_msg (self c)) → content (rx_msg (self c)) = wire_hdr h ++ tail →
  (if h.1 =? OBEX_HDR_LENGTH
   then v ← on_rx (data_at 1 4); upd_object (set_hinted_body_len (s32 (be_decode v)))
   else mret tt) c = Ok tt (with_object (hinted h (object c)) c).
Proof.
  intros Hh Hp Hc. unfold hinted. destruct (Z.eqb_spec h.1 OBEX_HDR_LENGTH) as [El|]; [|by destruct c].
  pose proof (rh_size h Hh) as Hsz. pose proof (rh_length h Hh El) as Hlv.
  pose proof (be_decode_range h.2 (rh_bytes h Hh)) as Hdr.
  pose proof (zlen_wire_hdr h Hh) as Hwl. pose proof (wire_hdr_value h tail) as Hv.
  pose proof (content_length _ Hp) as Hl. rewrite Hc, zlen_app in Hl.
  pose proof (zlen_nonneg tail) as Htn.
  rewrite El in Hsz, Hv, Hwl. change (is_bytes_type OBEX_HDR_LENGTH) with false in Hsz, Hv, Hwl.
  change (zlen h.2 = 4) in Hsz. cbv iota in Hv, Hwl.
  rewrite (bind_ok _ _ _ h.2 c).
  2:{ rewrite on_rx_data_at by (done || lia). f_equal. rewrite Hc. rewrite <- Hv.
      f_equal. unfold zlen in Hsz. lia. }
  rewrite s32_small by lia. done.
Qed.

Lemma hinted_abs t s h o e : rx_hdr_ok h → is_body h.1 = false → rx_abs t s o → rx_elem e h →
  rx_abs t (rx_step s h) (set_rx_headerq (rx_headerq (hinted h o) ++ [e]) (hinted h o)).
Proof.
  intros Hh Hib [Hq Hb Hhint] He. unfold rx_step. rewrite Hib.
  assert (rx_headerq (hinted h o) = rx_headerq o) as Eq by (unfold hinted; by destruct (h.1 =? OBEX_HDR_LENGTH)).
  assert (rx_body (hinted h o) = rx_body o) as Eb by (unfold hinted; by destruct (h.1 =? OBEX_HDR_LENGTH)).
  split; cbn [rx_headerq set_rx_headerq rx_body hinted_body_len fst snd].
  - rewrite Eq. apply Forall2_app; [done|]. by apply Forall2_cons.
  - by rewrite Eb.
  - unfold hinted. destruct (Z.eqb_spec h.1 OBEX_HDR_LENGTH) as [El|]; [|done].
    pose proof (rh_length h Hh El). pose proof (be_decode_range h.2 (rh_bytes h Hh)).
    change (0 <= be_decode h.2 <= 2 ^ 29). lia.
Qed.

Lemma handle_header_ok (c : conn (U := U)) h tail t s :
  generous → rx_hdr_ok h → buf_ok (rx_msg (self c)) →
  content (rx_msg (self c)) = wire_hdr h ++ tail → rx_abs t s (object c) →
  2 ^ 29 <= t → t + 10240 + zlen h.2 <= 2 ^ 30 →
  ∃ o, let p := buf_remove_begin (zlen (wire_hdr h)) (rx_msg (self c)) in
    handle_header c = Ok 0 (Conn (set_rx_msg p (self c)) o) ∧
    buf_ok p ∧ content p = tail ∧ rx_abs (t + 10240 + zlen h.2) (rx_step s h) o.
Proof.
  intros Hg Hh Hp Hc Hs Ht29 Ht. pose proof (zlen_wire_hdr h Hh) as Hwl.
  pose proof (content_length _ Hp) as Hl. rewrite Hc, zlen_app in Hl.
  pose proof (zlen_nonneg tail) as Htn. pose proof (zlen_nonneg h.2) as Hvn.
  assert (0 < zlen (wire_hdr h)) as Hw0 by (destruct (is_bytes_type h.1); lia).
  destruct (buf_remove_begin_ok (zlen (wire_hdr h)) _ Hp) as (Hp' & Hc' & _); [lia|].
  destruct (classify_ok c h tail t s Hg Hh Hp Hc Hs Ht29 Ht) as (o & source & Ecl & _ & Hcase).
  unfold handle_header. rewrite (bind_ok _ _ _ (data_size (rx_msg (self c))) c) by done.
  rewrite (bind_ok _ _ _ [h.1] c).
  2:{ rewrite on_rx_data_at by (done || lia). f_equal. rewrite Hc.
      rewrite drop_0. rewrite <- (wire_hdr_hi h). apply take_app_le.
      unfold zlen in *. change (Z.to_nat 1) with 1%nat. lia. }
  cbv zeta. change (be_decode [h.1]) with h.1. rewrite (bind_ok _ _ _ _ _ Ecl).
  rewrite Z.gtb_ltb, (proj2 (Z.ltb_ge _ _)) by (destruct (is_bytes_type h.1); lia).
  set (p := buf_remove_begin (zlen (wire_hdr h)) (rx_msg (self c))) in *.
  assert (content p = tail) as Ec.
  { rewrite Hc', Hc. apply drop_app_length'. unfold zlen. lia. }
  destruct (is_body h.1) eqn:Hib.
  { destruct Hcase as [-> Habs]. exists o. cbv zeta.
    rewrite (bind_ok _ _ _ 0 (with_object o c)) by done. cbn [Z.eqb negb].
    rewrite (bind_ok _ _ _ tt (with_rx p (with_object o c))) by done. done. }
  destruct Hcase as [-> ->].
  set (src := if is_bytes_type h.1 then 3 else 1).
  assert (zlen (wire_hdr h) = src + zlen h.2) as Hsrc by (subst src; case_match; lia).
  assert (0 <= src) as Hsrc0 by (subst src; case_match; lia).
  pose proof (hint_ok c h tail Hh Hp Hc) as Ehint.
  set (o1 := hinted h (object c)) in *. set (c1 := with_object o1 c) in *.
  assert (zlen h.2 < 2 ^ 16) as Hv16.
  { pose proof (rh_size h Hh). repeat case_match; lia. }
  destruct (queue_header_ok c1 h.1 src h.2 Hg Hp (rh_bytes h Hh) Hsrc0 Hv16 ltac:(cbn; lia))
    as (e & Eq & He).
  { cbn [self c1 with_object]. rewrite Hc. rewrite <- (wire_hdr_value h tail) at 2.
    subst src. by destruct (is_bytes_type h.1). }
  set (o2 := set_rx_headerq (rx_headerq o1 ++ [e]) o1). exists o2. cbv zeta.
  rewrite (bind_ok _ _ _ 0 (with_object o2 c)).
  2:{ replace (with_object (object c) c) with c by by destruct c.
      rewrite (bind_ok _ _ _ _ _ Ehint). by rewrite (bind_ok _ _ _ _ _ Eq). }
  cbn [Z.eqb negb]. rewrite (bind_ok _ _ _ tt (Conn (set_rx_msg p (self c)) o2)) by done.
  split_and!; [done..|]. apply (rx_abs_weaken t); [lia|]. by apply hinted_abs.
Qed.

Definition body_growth (hs : list rx_hdr) : Z := foldr (λ h n, 10240 + zlen h.2 + n) 0 hs.

Lemma body_growth_nonneg hs : 0 <= body_growth hs.
Proof.
  induction hs as [|h hs IH]; [done|]. pose proof (zlen_nonneg h.2).
  change (0 <= 10240 + zlen h.2 + body_growth hs). lia.
Qed.

Lemma parse_headers_ok hs fuel (c : conn (U := U)) t s :
  generous → Forall rx_hdr_ok hs → buf_ok (rx_msg (self c)) →
  content (rx_msg (self c)) = concat (map wire_hdr hs) → rx_abs t s (object c) →
  2 ^ 29 <= t → t + body_growth hs <= 2 ^ 30 → (length hs <= fuel)%nat →
  ∃ c', parse_headers fuel c = Ok 0 c' ∧ content (rx_msg (self c')) = [] ∧
    buf_ok (rx_msg (self c')) ∧ rx_abs (2 ^ 30) (foldl rx_step s hs) (object c').
Proof.
  intros Hg Hhs. revert fuel c t s. induction Hhs as [|h hs Hh Hhs IH];
    intros fuel c t s Hp Hc Hs Ht29 Ht Hfuel.
  - exists c. cbn [map concat] in Hc. pose proof (content_length _ Hp) as Hl. rewrite Hc in Hl.
    split; [|split; [done|split; [done|]]].
    + destruct fuel; cbn [parse_headers];
        rewrite (bind_ok _ _ _ 0 c) by (unfold get_self, res_get; by rewrite <- Hl); done.
    + cbn in Ht |- *. by apply (rx_abs_weaken t); [lia|].
  - destruct fuel as [|fuel]; [simpl in Hfuel; lia|]. cbn [map concat body_growth foldr] in *.
    fold (body_growth hs) in Ht. pose proof (body_growth_nonneg hs).
    destruct (handle_header_ok c h _ t s Hg Hh Hp Hc Hs Ht29) as (o & E & Hp' & Hc' & Ho); [lia|].
    rewrite (λ Hz, parse_headers_turn fuel c _ Hz E).
    + apply (IH fuel _ (t + 10240 + zlen h.2)); try done; simpl in Hfuel; try lia.
      pose proof (zlen_nonneg h.2). lia.
    + rewrite <- content_length by done. rewrite Hc, zlen_app, zlen_wire_hdr by done.
      pose proof (zlen_nonneg h.2). pose proof (zlen_nonneg (concat (map wire_hdr hs))).
      destruct (is_bytes_type h.1); lia.
Qed.
End Parse.
