(* ===== verification/ObexHeaders.v ===== *)
(** * libexword: the transport's header interface

    [obex_object_addheader] and [obex_object_getnextheader] of
    [src/tools/libexword/src/obex.c], between the program's values and the
    queues that [ObexSend] and [ObexReceive] describe, with the properties of
    the transport. *)

From S2P Require Import Prelude DataBuffer Obex ObexSend ObexReceive.

(** A queued header as [ObexSend] sees it: a body keeps its value only. *)
Definition queued (hi : Z) (bytes : list Z) : hdr :=
  if hi =? OBEX_HDR_BODY then HBody (drop 3 bytes) else HBytes bytes.

(** A received header as the program gets it. *)
Definition rx_value (h : rx_hdr) : Z * Z * obex_headerdata_t :=
  (h.1, zlen h.2,
   if is_bytes_type h.1 then bs h.2
   else if Z.land h.1 OBEX_HDR_TYPE_MASK =? OBEX_HDR_TYPE_UINT32 then bq4 (be_decode h.2)
   else bq1 (be_decode h.2)).

Section Headers.
Context `{AllocOk} {U : Type} `{Usb U}.
Abbreviation X := (res (conn (U := U))).

Lemma encode_header_length hi hv hv_size bytes :
  0 <= hv_size → encode_header hi hv hv_size = Some bytes →
  zlen bytes = header_size hi hv_size.
Proof.
  intros Hs. unfold encode_header, header_size. cbv zeta.
  destruct (_ =? OBEX_HDR_TYPE_UINT32).
  { destruct hv as [v| |]; [|done..]. by intros [= <-]. }
  destruct (_ =? OBEX_HDR_TYPE_UINT8); destruct hv as [|v|l]; try done; [by intros [= <-]|].
  destruct (Z.leb_spec hv_size (zlen l)); [|done]. intros E. apply (inj Some) in E as <-.
  rewrite zlen_cons, zlen_app. unfold sizeof_unicode_hdr, zlen in *.
  rewrite be_encode_length, length_take. lia.
Qed.

Lemma store_fresh p bytes :
  buf_ok p → content p = [] → data_avail p = zlen bytes → bytes_ok bytes →
  ∃ p', (off ← reserve_end (zlen bytes); buf_store off bytes) p = Ok tt p' ∧
    buf_ok p' ∧ content p' = bytes.
Proof.
  intros Hp Hc Hd Hb. destruct (insert_fresh p bytes Hp Hc Hd Hb) as (p' & E & Hp' & Hc').
  exists p'. split; [|done]. revert E.
  unfold buf_insert_end, reserve_end, lift, mbind, res_mbind.
  destruct (buf_reserve_end (zlen bytes) p) as [[off|] q]; done.
Qed.

(** The queue element of a value. *)
Lemma queued_elem hi hv hv_size flags bytes p :
  hi ≠ OBEX_HDR_EMPTY → encode_header hi hv hv_size = Some bytes → 0 <= hv_size →
  buf_ok p → content p = bytes →
  elem_abs (Elem (Some p) hi flags (header_size hi hv_size) false) (queued hi bytes).
Proof.
  intros Hne He Hs Hp Hc. pose proof (encode_header_length _ _ _ _ Hs He) as Hl.
  unfold queued. destruct (Z.eqb_spec hi OBEX_HDR_BODY) as [->|Hnb].
  - split; [done|]. exists p, (take 3 bytes). split; [done|]. split; [done|].
    split; [by rewrite take_drop|]. cbn.
    change (header_size OBEX_HDR_BODY hv_size) with (hv_size + 3) in Hl.
    unfold zlen in Hl. rewrite length_take. lia.
  - split; [done|]. split; [done|]. split; [done|]. by exists p.
Qed.

(** The room left for a header under the flags. *)
Definition room_for (flags : Z) (c : conn (U := U)) : Z :=
  if negb (Z.land flags OBEX_FL_FIT_ONE_PACKET =? 0)
  then mtu_tx (self c) - 4 - totallen (object c) else mtu_tx (self c) - 4.

(** A body may exceed the packet unless it is told to fit. *)
Definition refused (hi hv_size flags : Z) (c : conn (U := U)) : bool :=
  (negb (hi =? OBEX_HDR_BODY) || negb (Z.land flags OBEX_FL_FIT_ONE_PACKET =? 0))
  && (room_for flags c <? header_size hi hv_size).

Lemma addheader_run (c : conn (U := U)) hi hv hv_size flags bytes :
  generous → hi ≠ OBEX_HDR_EMPTY → encode_header hi hv hv_size = Some bytes → bytes_ok bytes →
  0 <= hv_size < 2 ^ 29 → 4 <= mtu_tx (self c) < 2 ^ 16 →
  0 <= totallen (object c) < 2 ^ 30 →
  (Z.land flags OBEX_FL_FIT_ONE_PACKET ≠ 0 → totallen (object c) + 4 <= mtu_tx (self c)) →
  if refused hi hv_size flags c
  then obex_object_addheader hi hv hv_size flags c = Ok (-1) c
  else ∃ e, elem_abs e (queued hi bytes) ∧
    obex_object_addheader hi hv hv_size flags c
    = Ok 1 (Conn (self c) (set_tx_headerq (tx_headerq (object c) ++ [e])
             (set_totallen (totallen (object c) + zlen bytes) (object c)))).
Proof.
  intros Hg Hne He Hb Hs Hm Ht Hfit.
  pose proof (encode_header_length _ _ _ _ (proj1 Hs) He) as Hl.
  assert (0 < header_size hi hv_size < 2 ^ 29 + 6) as Hsize.
  { unfold header_size, sizeof_unicode_hdr. repeat case_match; lia. }
  unfold obex_object_addheader.
  rewrite (bind_ok _ _ _ (mtu_tx (self c)) c) by done.
  rewrite (bind_ok _ _ _ (totallen (object c)) c) by done. cbv zeta.
  change sizeof_common_hdr with 4.
  assert ((if negb (Z.land flags OBEX_FL_FIT_ONE_PACKET =? 0)
           then u32 (u64 (mtu_tx (self c) - totallen (object c) - 4))
           else u32 (u64 (mtu_tx (self c) - 4))) = room_for flags c) as ->.
  { unfold room_for. destruct (Z.eqb_spec (Z.land flags OBEX_FL_FIT_ONE_PACKET) 0) as [|Hf]; cbn [negb].
    - rewrite u64_small, u32_small by (unfold is_u; lia). done.
    - specialize (Hfit Hf). rewrite u64_small, u32_small by (unfold is_u; lia). lia. }
  rewrite Hg by (unfold sizeof_header_element; lia). cbn [negb].
  rewrite (proj2 (Z.eqb_neq _ _) Hne).
  destruct (buf_new_some (header_size hi hv_size) Hg ltac:(lia)) as (p & -> & Hp & Hc & _ & Hd).
  rewrite (bind_ok _ _ _ bytes c) by (by rewrite He).
  destruct (store_fresh p bytes Hp Hc ltac:(lia) Hb) as (p' & Es & Hp' & Hc').
  rewrite (bind_ok _ _ _ (tt, p') c) by (apply on_buf_ok; by rewrite <- Hl).
  rewrite u32_small by (unfold is_u; lia). rewrite s32_small by lia.
  fold (refused hi hv_size flags c).
  destruct (refused hi hv_size flags c); [done|].
  rewrite Z.gtb_ltb, (proj2 (Z.ltb_lt _ _)) by lia.
  eexists. split; [apply (queued_elem hi hv hv_size flags bytes p'); try done; lia|].
  rewrite Hl. unfold upd_object, mbind, res_mbind, res_upd, mret, res_mret. cbn.
  by rewrite s32_small by lia.
Qed.

(** ** Reading the received headers *)

(** The caller's loop over the received headers. *)
Fixpoint collect (fuel : nat) : X (list (Z * Z * obex_headerdata_t)) :=
  match fuel with
  | O => res_fault OutOfFuel
  | S fuel' =>
      h ← obex_object_getnextheader;
      match h with
      | None => mret []
      | Some h => hs ← collect fuel'; mret (h :: hs)
      end
  end.

(** What the queue holds is a well-formed header. *)
Definition value_ok (h : rx_hdr) : Prop :=
  is_u 8 h.1 ∧
  if is_bytes_type h.1 then True
  else if Z.land h.1 OBEX_HDR_TYPE_MASK =? OBEX_HDR_TYPE_UINT8 then zlen h.2 = 1
  else zlen h.2 = 4.

Definition popped (e : obex_header_element) (q : list obex_header_element)
    (c : conn (U := U)) : conn (U := U) :=
  Conn (self c) (set_rx_headerq_rm (rx_headerq_rm (object c) ++ [e])
                   (set_rx_headerq q (object c))).

Lemma getnextheader_ok (c : conn (U := U)) e q h :
  rx_headerq (object c) = e :: q → rx_elem e h → value_ok h →
  obex_object_getnextheader c = Ok (Some (rx_value h)) (popped e q c).
Proof.
  intros Hq (Ehi & El & p & Ep & Hp & Hc) [Hu Hv]. pose proof (content_length p Hp) as Hl.
  rewrite Hc in Hl. pose proof (zlen_nonneg h.2) as Hn.
  unfold obex_object_getnextheader. rewrite (bind_ok _ _ _ (e :: q) c) by (by rewrite <- Hq).
  set (c1 := popped e q c). rewrite (bind_ok _ _ _ tt c1) by done.
  rewrite (bind_ok _ _ _ p c1) by (by rewrite Ep). rewrite Ehi, El. cbv zeta.
  fold (is_bytes_type h.1). unfold rx_value.
  assert (∀ n, n = zlen h.2 → on_buf p (data_at 0 n) c1 = Ok (h.2, p) c1) as Hread.
  { intros n ->. apply on_buf_ok. rewrite data_at_ok by (done || lia). f_equal.
    rewrite Hc. apply take_ge. cbn. unfold zlen. lia. }
  destruct (is_bytes_type h.1) eqn:Eb.
  - by rewrite (bind_ok _ _ _ _ _ (Hread _ eq_refl)).
  - destruct (Z.eqb_spec (Z.land h.1 OBEX_HDR_TYPE_MASK) OBEX_HDR_TYPE_UINT8) as [E8|E8].
    + rewrite E8. change (OBEX_HDR_TYPE_UINT8 =? OBEX_HDR_TYPE_UINT32) with false.
      cbv iota. by rewrite (bind_ok _ _ _ _ _ (Hread 1 ltac:(lia))).
    + pose proof (hdr_type h.1 Hu) as Ht. cbv zeta in Ht. unfold is_bytes_type in Eb.
      apply orb_false_elim in Eb as [E1%Z.eqb_neq E2%Z.eqb_neq].
      assert (Z.land h.1 OBEX_HDR_TYPE_MASK = OBEX_HDR_TYPE_UINT32) as ->.
      { change OBEX_HDR_TYPE_UINT32 with 0xc0. change OBEX_HDR_TYPE_UINT8 with 0x80 in E8.
        change OBEX_HDR_TYPE_BYTES with 0x40 in E1. change OBEX_HDR_TYPE_UNICODE with 0 in E2. lia. }
      rewrite Z.eqb_refl. by rewrite (bind_ok _ _ _ _ _ (Hread 4 ltac:(lia))).
Qed.

Lemma collect_ok q hs (c : conn (U := U)) :
  rx_headerq (object c) = q → Forall2 rx_elem q hs → Forall value_ok hs →
  ∃ c', collect (S (length hs)) c = Ok (map rx_value hs) c' ∧ rx_headerq (object c') = [].
Proof.
  intros Hq Hf. revert c Hq. induction Hf as [|e h q hs He Hf IH]; intros c Hq Hv.
  - exists c. split; [|done]. cbn [collect length map]. rewrite (bind_ok _ _ _ None c); [done|].
    unfold obex_object_getnextheader. by rewrite (bind_ok _ _ _ [] c) by (by rewrite <- Hq).
  - apply Forall_cons in Hv as [Hvh Hv].
    destruct (IH (popped e q c)) as (c' & E & Hc'); [done|done|].
    exists c'. split; [|done]. cbn [length map]. cbn [collect].
    rewrite (bind_ok _ _ _ _ _ (getnextheader_ok c e q h Hq He Hvh)).
    cbn [collect] in E. by rewrite (bind_ok _ _ _ _ _ E).
Qed.

(** Queued headers stay well-formed. *)
Lemma rx_step_value_ok hs s :
  Forall rx_hdr_ok hs → Forall value_ok s.1 → Forall value_ok (foldl rx_step s hs).1.
Proof.
  intros Hhs. revert s. induction Hhs as [|h hs Hh Hhs IH]; intros s Hs; [done|].
  cbn [foldl]. apply IH. unfold rx_step. destruct (is_body h.1).
  - destruct (h.1 =? OBEX_HDR_BODY_END); [|done]. cbn [fst]. apply Forall_app. split; [done|].
    by apply Forall_singleton.
  - cbn [fst]. apply Forall_app. split; [done|]. apply Forall_singleton.
    destruct Hh as [? _ Hsz _]. split; [done|]. by destruct (is_bytes_type h.1).
Qed.

Lemma wire_hdrs_length hs :
  Forall rx_hdr_ok hs → Z.of_nat (length hs) <= zlen (concat (map wire_hdr hs)).
Proof.
  induction 1 as [|h hs Hh Hhs IH]; [done|]. cbn [map concat length].
  rewrite zlen_app, zlen_wire_hdr by done. pose proof (zlen_nonneg h.2).
  destruct (is_bytes_type h.1); lia.
Qed.

(** A message of the protocol's size needs no more memory than there is. *)
Lemma body_growth_bound hs :
  Forall rx_hdr_ok hs → body_growth hs <= 5121 * zlen (concat (map wire_hdr hs)).
Proof.
  induction 1 as [|h hs Hh Hhs IH]; [done|]. cbn [map concat].
  change (body_growth (h :: hs)) with (10240 + zlen h.2 + body_growth hs).
  rewrite zlen_app, zlen_wire_hdr by done. pose proof (zlen_nonneg h.2) as Hn.
  pose proof (rh_size h Hh) as Hs.
  destruct (is_bytes_type h.1); [lia|]. destruct (_ =? OBEX_HDR_TYPE_UINT8); lia.
Qed.

(** ** Properties of the transport *)

(** [obex_object_addheader] refuses a header exactly when it does not fit
    the packet (a body only under FIT_ONE_PACKET), returning -1 and changing
    nothing; otherwise it returns 1, appends an element that stands for the
    header's wire bytes to the queue, and adds their number to the object's
    length. *)
Theorem addheader_encodes (c : conn (U := U)) (hi : Z) (hv : obex_headerdata_t)
    (hv_size flags : Z) (bytes : list Z) :
  generous → hi ≠ OBEX_HDR_EMPTY → encode_header hi hv hv_size = Some bytes → bytes_ok bytes →
  0 <= hv_size < 2 ^ 29 → 4 <= mtu_tx (self c) < 2 ^ 16 →
  0 <= totallen (object c) < 2 ^ 30 →
  (Z.land flags OBEX_FL_FIT_ONE_PACKET ≠ 0 → totallen (object c) + 4 <= mtu_tx (self c)) →
  if refused hi hv_size flags c
  then obex_object_addheader hi hv hv_size flags c = Ok (-1) c
  else ∃ e, elem_abs e (queued hi bytes) ∧
    obex_object_addheader hi hv hv_size flags c
    = Ok 1 (Conn (self c) (set_tx_headerq (tx_headerq (object c) ++ [e])
             (set_totallen (totallen (object c) + zlen bytes) (object c)))).
Proof. apply addheader_run. Qed.

(** [obex_object_send] refines the abstract packing: the packet it hands to
    the USB write is the sequence number, the opcode (final exactly when
    nothing stays queued), the length, the non-header data and the headers
    [pack] selects; what [pack] leaves stays queued, the packet exceeds the
    peer's limit by no more than the non-header data and three bytes for each
    header, and the result is 1 when all is sent, 0 when more follows and
    negative on an error. *)
Theorem object_send_refines_pack (aq : list hdr) (c : conn (U := U)) (bytes : list Z)
    (rest : list hdr) :
  ready aq c → pack aq (mtu_tx (self c) - 4) = Some (bytes, rest) →
  zlen (nonhdr (object c) ++ bytes) + 4 < 2 ^ 16 →
  zlen (packet c bytes rest) <= mtu_tx (self c) + zlen (nonhdr (object c)) + 3 * zlen aq ∧
  ∃ q p, Forall2 elem_abs q rest ∧ buf_ok p ∧ content p = packet c bytes rest ∧
    let '((r, n), u) := bulk_write (packet c bytes rest) (usb (self c)) in
    obex_object_send c
    = (if (if r =? 0 then n else r) <? 0 then mret (if r =? 0 then n else r)
       else
         verified ← obex_verify_seq (seq_num (self c));
         mret (if verified : bool then (match rest with [] => 1 | _ => 0 end) else -1))
      (Conn (set_usb u (self (built c q p))) (object (built c q p))).
Proof.
  intros Hr Hp Hl. split.
  - pose proof (pack_length _ _ _ _ Hp). pose proof (rd_mtu _ _ Hr). unfold packet. cbv zeta.
    rewrite !zlen_app. change (zlen (be_encode 2 _)) with 2. change (zlen [_; _]) with 2. lia.
  - destruct (obex_object_send_run aq c bytes rest Hr Hp Hl) as (q & p & Hq & Hpk & Hc & _ & E).
    exists q, p. split; [done|]. split; [done|]. split; [done|].
    destruct (bulk_write (packet c bytes rest) (usb (self c))) as [[r n] u] eqn:Ew.
    rewrite E. set (c0 := built c q p).
    rewrite (bind_ok _ _ _ (if r =? 0 then n else r) (Conn (set_usb u (self c0)) (object c0))).
    { by destruct (_ <? 0). }
    unfold obex_bulk_write. rewrite (bind_ok _ _ _ (packet c bytes rest) c0).
    2:{ rewrite (on_tx_ok _ c0 _ _ (buf_data_ok p Hpk)). rewrite Hc. done. }
    rewrite (bind_ok _ _ _ (usb (self c)) c0) by done. rewrite Ew. done.
Qed.

(** C39: parsing a message of well-formed headers consumes it and succeeds,
    within the number of turns its size allows; reading the headers back then
    gives each one's identifier, length and value in order, with the parts of a
    body joined into one body header. *)
Theorem received_headers_decode (c : conn (U := U)) (hs : list rx_hdr) :
  generous → Forall rx_hdr_ok hs → buf_ok (rx_msg (self c)) →
  content (rx_msg (self c)) = concat (map wire_hdr hs) → data_size (rx_msg (self c)) < 2 ^ 16 →
  rx_headerq (object c) = [] → rx_body (object c) = None → hinted_body_len (object c) = 0 →
  let got := (foldl rx_step ([], None) hs).1 in
  ∃ c' c'', parse_headers (Z.to_nat (data_size (rx_msg (self c)))) c = Ok 0 c' ∧
    content (rx_msg (self c')) = [] ∧ collect (S (length got)) c' = Ok (map rx_value got) c'' ∧
    rx_headerq (object c'') = [].
Proof.
  intros Hg Hhs Hp Hc Hsz Hq Hb Hh got. pose proof (content_length _ Hp) as Hl. rewrite Hc in Hl.
  pose proof (body_growth_bound hs Hhs). pose proof (wire_hdrs_length hs Hhs).
  destruct (parse_headers_ok hs (Z.to_nat (data_size (rx_msg (self c)))) c (2 ^ 29) ([], None))
    as (c' & E & Hc' & _ & Ha); try done; [|lia|lia|].
  { split; rewrite ?Hq, ?Hb, ?Hh; done. }
  destruct (collect_ok (rx_headerq (object c')) got c' eq_refl) as (c'' & Ec & Hc'').
  { apply Ha. }
  { by apply rx_step_value_ok. }
  exists c', c''. done.
Qed.
End Headers.

(** C2: sending an object on a device that acknowledges every packet delivers
    its body exactly: [obex_request] returns SUCCESS within one round per body
    byte and one more, what was sent is the other headers with the first part
    of the body and then its remaining parts in order, the last one alone
    marked as the end, and no packet exceeds the negotiated limit. *)
Theorem request_delivers_body `{AllocOk} (ls : list (list Z)) (b : list Z) (k : Z)
    (c : conn (U := link)) (read_fuel : nat) :
  generous → sendable ls b k c → k + 4 * (zlen b + 1) <= 2 ^ 29 →
  ∃ parts c', obex_request (S (length b)) (S read_fuel) None tt c
              = Ok (OBEX_RSP_SUCCESS, tt) c' ∧
    concat parts = b ∧ parts ≠ [] ∧
    let ps := body_packets (seq_num (self c)) (opcode (object c)) (lastopcode (object c))
                (concat ls) parts in
    l_sent (usb (self c')) = l_sent (usb (self c)) ++ ps ∧
    Forall (λ p, zlen p <= mtu_tx (self c)) ps.
Proof.
  intros Hg Hs Hk.
  destruct (request_loop None (λ _, True) (length b) ls b k c tt read_fuel)
    as (parts & c' & [] & _ & Hr); try done.
  by exists parts, c'.
Qed.

(** ** A small connection

    Packets of 16 bytes, a length header and a body of five bytes. *)
Definition filled (l : list Z) : buf_t := Buf l 0 0 0 0 (zlen l).
Definition empty_buf (n : nat) : buf_t := Buf (replicate n 0) 0 0 (Z.of_nat n) 0 0.
Definition small_put (rx : buf_t) : conn (U := link) :=
  Conn (Obex (Link [] []) 0x11 0 8 16 65535 (empty_buf 64) rx 0)
    (Object [Elem (Some (filled [0xc3; 0; 0; 0; 5])) 0xc3 0 5 false;
             Elem (Some (filled [0x48; 0; 8; 1; 2; 3; 4; 5])) 0x48 0 8 false]
       [] [] None None None 2 2 0x82 0 0 13).

Lemma filled_ok l : bytes_ok l → zlen l < 2 ^ 31 → buf_ok (filled l) ∧ content (filled l) = l.
Proof.
  intros Hb Hl. pose proof (zlen_nonneg l). split.
  - split; cbn; done || lia.
  - unfold content. cbn. unfold slice. rewrite drop_0. apply take_ge. unfold zlen. lia.
Qed.

Lemma empty_buf_ok n : Z.of_nat n < 2 ^ 31 → buf_ok (empty_buf n) ∧ content (empty_buf n) = [].
Proof.
  intros Hn. split; [|done]. split; cbn; try done; try lia.
  - unfold zlen. rewrite length_replicate. lia.
  - unfold zlen. rewrite length_replicate. lia.
  - by apply Forall_replicate.
Qed.

Lemma ample_generous : @generous ample.
Proof. intros n Hn. by apply Z.leb_le. Qed.

Definition small_queue : list hdr := map HBytes [[0xc3; 0; 0; 0; 5]] ++ [HBody [1; 2; 3; 4; 5]].

Lemma small_put_ready rx : ready small_queue (small_put rx).
Proof.
  destruct (filled_ok [0xc3; 0; 0; 0; 5]) as [Hf1 Hc1]; [compute_dec|done|].
  destruct (filled_ok [0x48; 0; 8; 1; 2; 3; 4; 5]) as [Hf2 Hc2]; [compute_dec|done|].
  split; try done.
  - by apply empty_buf_ok.
  - apply Forall2_cons. split; [|apply Forall2_cons; split; [|constructor]].
    + split; [done|]. split; [done|]. split; [done|]. by exists (filled [0xc3; 0; 0; 0; 5]).
    + split; [done|]. exists (filled [0x48; 0; 8; 1; 2; 3; 4; 5]), [0x48; 0; 8]. done.
  - repeat constructor; done.
Qed.

Lemma small_put_sendable :
  sendable [[0xc3; 0; 0; 0; 5]] [1; 2; 3; 4; 5] 0 (small_put (empty_buf 32)).
Proof.
  split; try done; [apply small_put_ready|]. split; try done; by apply empty_buf_ok.
Qed.

Lemma addheader_encodes_witness :
  ∃ e, elem_abs e (HBytes [0x01; 0; 7; 0; 65; 0; 0]) ∧
    @obex_object_addheader ample link OBEX_HDR_NAME (bs [0; 65; 0; 0]) 4 0
      (small_put (empty_buf 32))
    = Ok 1 (Conn (self (small_put (empty_buf 32)))
             (set_tx_headerq (tx_headerq (object (small_put (empty_buf 32))) ++ [e])
               (set_totallen (13 + 7) (object (small_put (empty_buf 32)))))).
Proof.
  apply (@addheader_encodes ample ample_ok link (small_put (empty_buf 32)) OBEX_HDR_NAME
    (bs [0; 65; 0; 0]) 4 0 [0x01; 0; 7; 0; 65; 0; 0] ample_generous); done || compute_dec.
Defined.

Lemma object_send_refines_pack_witness :
  zlen (packet (small_put (empty_buf 32))
         [0xc3; 0; 0; 0; 5; 0x48; 0; 7; 1; 2; 3; 4] [HBody [5]]) <= 16 + 0 + 3 * 2.
Proof.
  exact (proj1 (@object_send_refines_pack ample ample_ok link link_usb small_queue
    (small_put (empty_buf 32)) [0xc3; 0; 0; 0; 5; 0x48; 0; 7; 1; 2; 3; 4] [HBody [5]]
    (small_put_ready _) eq_refl eq_refl)).
Defined.

(** A name, a length and a body in two parts. *)
Definition small_response : list rx_hdr :=
  [(0x01, [0; 65; 0; 0]); (0xc3, [0; 0; 0; 5]); (0x48, [1; 2]); (0x49, [3; 4; 5])].

Definition small_rx : conn (U := link) :=
  small_put (filled (concat (map wire_hdr small_response))).

Lemma received_headers_decode_witness :
  ∃ c' c'', @parse_headers ample link 23 small_rx = Ok 0 c' ∧
    content (rx_msg (self c')) = [] ∧
    @collect link 4 c'
    = Ok [(0x01, 4, bs [0; 65; 0; 0]); (0xc3, 4, bq4 5); (0x48, 5, bs [1; 2; 3; 4; 5])] c'' ∧
    rx_headerq (object c'') = [].
Proof.
  destruct (filled_ok (concat (map wire_hdr small_response))) as [Hok Hc]; [compute_dec|done|].
  assert (Forall rx_hdr_ok small_response) as Hhs.
  { repeat (apply Forall_cons; split); [| | | |constructor]; split; done || compute_dec. }
  pose proof (@received_headers_decode ample ample_ok link small_rx small_response
    ample_generous Hhs Hok Hc eq_refl eq_refl eq_refl eq_refl) as Hw.
  cbv zeta in Hw.
  change (Z.to_nat (data_size (rx_msg (self small_rx)))) with 23%nat in Hw.
  change (foldl rx_step ([], None) small_response).1
    with [(0x01, [0; 65; 0; 0]); (0xc3, [0; 0; 0; 5]); (0x48, [1; 2; 3; 4; 5])] in Hw.
  exact Hw.
Defined.

Lemma request_delivers_body_witness :
  ∃ parts c', @obex_request ample link link_usb unit 6 1 None tt (small_put (empty_buf 32))
    = Ok (0x20, tt) c' ∧
    concat parts = [1; 2; 3; 4; 5] ∧ parts ≠ [] ∧
    let ps := body_packets 0 2 0x82 [0xc3; 0; 0; 0; 5] parts in
    l_sent (usb (self c')) = ps ∧ Forall (λ p, zlen p <= 16) ps.
Proof.
  exact (@request_delivers_body ample ample_ok [[0xc3; 0; 0; 0; 5]] [1; 2; 3; 4; 5] 0
    (small_put (empty_buf 32)) 0 ample_generous small_put_sendable ltac:(done)).
Defined.
