(* ===== verification/Crypt.v ===== *)
(** * libexword: key generation and encryption ([src/tools/libexword/src/crypt.c])

    The routines work on 32-bit words that hold IEEE single-precision numbers:
    multiplication ([sub_3a65dc]), conversion from an integer ([sub_3a6b8f]),
    addition ([sub_3a62c9]), sine and cosine from a table ([sub_3a6886],
    [sub_3a6b2c]).  Every intermediate variable keeps the width the code gives
    it.  [None] is an access outside a table or array, or a loop longer than its
    fuel; a shift of a 16-bit sign into the sign bit wraps, as compilers have
    it.  Whether plain [char] is signed is the parameter [char_signed]. *)

From S2P Require Import Prelude.

Definition table1 : list Z := [
    0x3F7EB852; 0x3F81930C; 0x3F86F34D; 0x3FC1930C; 0x40161E4F; 0x3F004EA5;
    0x3F885F07; 0x3B83126F; 0x3243f6c; 0x1921fb6; 0x3fc90fdb
  ].

Definition table2 : list Z := [
    0x31A4B7A0; 0x3BFFFF55; 0x3C7FFD55; 0x3CBFFB80; 0x3CFFF555; 0x3D1FF596;
    0x3D3FEE01; 0x3D5FE36C; 0x3D7FD557; 0x3D8FE1A2; 0x3D9FD659; 0x3DAFC890;
    0x3DBFB808; 0x3DCFA481; 0x3DDF8DBC; 0x3DEF7379; 0x3DFF5577; 0x3E0799BC;
    0x3E0F869F; 0x3E177143; 0x3E1F5989; 0x3E273F52; 0x3E2F227E; 0x3E3702EE;
    0x3E3EE081; 0x3E46BB19; 0x3E4E9297; 0x3E5666D9; 0x3E5E37C2; 0x3E660533;
    0x3E6DCF0B; 0x3E75952C; 0x3E7D5777; 0x3E828AE6; 0x3E866806; 0x3E8A430D;
    0x3E8E1BEB; 0x3E91F291; 0x3E95C6EE; 0x3E9998F5; 0x3E9D6895; 0x3EA135BF;
    0x3EA50065; 0x3EA8C876; 0x3EAC8DE5; 0x3EB050A1; 0x3EB4109C; 0x3EB7CDC7;
    0x3EBB8813; 0x3EBF3F70; 0x3EC2F3D1; 0x3EC6A525; 0x3ECA535F; 0x3ECDFE70;
    0x3ED1A649; 0x3ED54ADB; 0x3ED8EC18; 0x3EDC89F2; 0x3EE02459; 0x3EE3BB3F;
    0x3EE74E97; 0x3EEADE52; 0x3EEE6A61; 0x3EF1F2B6; 0x3EF57744; 0x3EF8F7FB;
    0x3EFC74CF; 0x3EFFEDB1; 0x3F01B14A; 0x3F0369B4; 0x3F052011; 0x3F06D459;
    0x3F088686; 0x3F0A3691; 0x3F0BE473; 0x3F0D9025; 0x3F0F39A2; 0x3F10E0E1;
    0x3F1285DD; 0x3F14288E; 0x3F15C8EF; 0x3F1766F9; 0x3F1902A6; 0x3F1A9BEE;
    0x3F1C32CC; 0x3F1DC739; 0x3F1F592F; 0x3F20E8A7; 0x3F22759C; 0x3F240007;
    0x3F2587E2; 0x3F270D27; 0x3F288FD0; 0x3F2A0FD6; 0x3F2B8D35; 0x3F2D07E5;
    0x3F2E7FE1; 0x3F2FF523; 0x3F3167A5; 0x3F32D761; 0x3F344452; 0x3F35AE73;
    0x3F3715BC; 0x3F387A29; 0x3F39DBB4; 0x3F3B3A58; 0x3F3C960F; 0x3F3DEED3;
    0x3F3F44A0; 0x3F40976F; 0x3F41E73D; 0x3F433402; 0x3F447DBB; 0x3F45C462;
    0x3F4707F2; 0x3F484866; 0x3F4985B8; 0x3F4ABFE5; 0x3F4BF6E6; 0x3F4D2AB8;
    0x3F4E5B55; 0x3F4F88B8; 0x3F50B2DE; 0x3F51D9C1; 0x3F52FD5C; 0x3F541DAB;
    0x3F553AAA; 0x3F565454; 0x3F576AA4; 0x3F587D97; 0x3F598D28; 0x3F5A9953;
    0x3F5BA214; 0x3F5CA765; 0x3F5DA945; 0x3F5EA7AD; 0x3F5FA29B; 0x3F609A0B;
    0x3F618DF8; 0x3F627E5F; 0x3F636B3C; 0x3F64548B; 0x3F653A49; 0x3F661C72;
    0x3F66FB02; 0x3F67D5F7; 0x3F68AD4C; 0x3F6980FF; 0x3F6A510B; 0x3F6B1D6F;
    0x3F6BE626; 0x3F6CAB2D; 0x3F6D6C81; 0x3F6E2A20; 0x3F6EE407; 0x3F6F9A31;
    0x3F704C9E; 0x3F70FB49; 0x3F71A630; 0x3F724D51; 0x3F72F0A8; 0x3F739034;
    0x3F742BF1; 0x3F74C3DE; 0x3F7557F7; 0x3F75E83C; 0x3F7674A8; 0x3F76FD3B;
    0x3F7781F2; 0x3F7802CB; 0x3F787FC4; 0x3F78F8DA; 0x3F796E0D; 0x3F79DF5B;
    0x3F7A4CC0; 0x3F7AB63D; 0x3F7B1BCF; 0x3F7B7D74; 0x3F7BDB2B; 0x3F7C34F3;
    0x3F7C8ACA; 0x3F7CDCAF; 0x3F7D2AA1; 0x3F7D749E; 0x3F7DBAA5; 0x3F7DFCB5;
    0x3F7E3ACD; 0x3F7E74EC; 0x3F7EAB11; 0x3F7EDD3C; 0x3F7F0B6B; 0x3F7F359F;
    0x3F7F5BD5; 0x3F7F7E0E; 0x3F7F9C49; 0x3F7FB685; 0x3F7FCCC3; 0x3F7FDF01;
    0x3F7FED40; 0x3F7FF77F; 0x3F7FFDBF; 0x3F7FFFFE; 0x3F7FFE3D; 0x3F7FF87D;
    0x3F7FEEBC; 0x3F7FE0FC; 0x3F7FCF3D; 0x3F7FB97E; 0x3F7F9FC0; 0x3F7F8204;
    0x3F7F6049; 0x3F7F3A92; 0x3F7F10DD; 0x3F7EE32C; 0x3F7EB17F; 0x3F7E7BD8;
    0x3F7E4237; 0x3F7E049D; 0x3F7DC30A; 0x3F7D7D81; 0x3F7D3402; 0x3F7CE68E;
    0x3F7C9526; 0x3F7C3FCC; 0x3F7BE681; 0x3F7B8946; 0x3F7B281D; 0x3F7AC308;
    0x3F7A5A08; 0x3F79ED1E; 0x3F797C4C; 0x3F790795; 0x3F788EF9; 0x3F78127B;
    0x3F77921D; 0x3F770DE1; 0x3F7685C8; 0x3F75F9D6; 0x3F756A0B; 0x3F74D66B;
    0x3F743EF7; 0x3F73A3B3; 0x3F7304A0; 0x3F7261C0; 0x3F71BB18; 0x3F7110A8;
    0x3F706274; 0x3F6FB07F; 0x3F6EFACB; 0x3F6E415B; 0x3F6D8432; 0x3F6CC352;
    0x3F6BFEC0; 0x3F6B367E; 0x3F6A6A8F; 0x3F699AF6; 0x3F68C7B7
  ].

(** ** Software floating point *)

(** [while ((v >> 16) & 0xff00) { e += 1; v >>= 1; }] *)
Fixpoint shift_down (fuel : nat) (e v : Z) : option (Z * Z) :=
  if Z.land (Z.shiftr v 16) 0xff00 =? 0 then Some (e, v)
  else match fuel with
       | O => None
       | S fuel' => shift_down fuel' (u16 (e + 1)) (Z.shiftr v 1)
       end.

(** [while (!((v >> 16) & 0x80)) { e -= 1; v <<= 1; }] *)
Fixpoint shift_up (fuel : nat) (e v : Z) : option (Z * Z) :=
  if negb (Z.land (Z.shiftr v 16) 0x80 =? 0) then Some (e, v)
  else match fuel with
       | O => None
       | S fuel' => shift_up fuel' (u16 (e - 1)) (u32 (Z.shiftl v 1))
       end.

(** The fuel of a normalising loop: a word has 32 bits. *)
Definition word_fuel : nat := 32.

Definition sub_3a65dc (arg_0 arg_4 : Z) : option Z :=
  let var_c := Z.land (Z.shiftr arg_0 16) 0x7f80 in
  let var_18 := Z.land (Z.shiftr arg_4 16) 0x7f80 in
  let var_14 := Z.land (Z.shiftr arg_0 16) 0x8000 in
  let var_1c := Z.land (Z.shiftr arg_4 16) 0x8000 in
  let var_24 := Z.lxor var_14 var_1c in
  let sign := u32 (Z.shiftl var_24 16) in
  if var_c =? 0x7f80 then
    let var_20 := if var_18 =? 0x7f80 then 0x7fffffff else arg_0 in
    Some (Z.lor var_20 sign)
  else if (var_c =? 0) || (var_18 =? 0) then Some sign
  else if var_18 =? 0x7f80 then Some (Z.lor arg_4 sign)
  else
    let var_c := Z.shiftr var_c 7 in
    let var_18 := Z.shiftr var_18 7 in
    let var_4 := Z.lor (Z.land arg_0 0x7fffff) 0x800000 in
    let var_10 := Z.lor (Z.land arg_4 0x7fffff) 0x800000 in
    let var_8 := u16 (var_c + var_18 - 0x84) in
    let var_4 := u32 (Z.shiftl var_4 7) in
    let var_10 := u32 (Z.shiftl var_10 7) in
    let hi x := Z.land (Z.shiftr x 16) 0xffff in
    let lo x := Z.land x 0xffff in
    let var_20 := u32 (s32 (hi var_4 * lo var_10)) in
    let var_20 := u32 (var_20 + s32 (lo var_4 * hi var_10)) in
    let var_20 := Z.shiftr var_20 16 in
    let var_20 := u32 (var_20 + s32 (hi var_4 * hi var_10)) in
    '(var_8, var_20) ← (if negb (Z.land (Z.shiftr var_20 16) 0xff80 =? 0)
                        then shift_down word_fuel var_8 var_20
                        else shift_up word_fuel var_8 var_20);
    if negb (var_8 =? 0) && (Z.land var_8 0x8000 =? 0) then
      if s16 var_8 <? 0xff
      then Some (Z.lor (Z.land var_20 0x7fffff)
                   (u32 (Z.shiftl (Z.lor var_24 (Z.shiftl var_8 7)) 16)))
      else Some (Z.lor 0x7fffffff sign)
    else Some sign.

(** The two loops of [sub_3a6b8f]; [e] is an [int16_t]. *)
Fixpoint conv_down (fuel : nat) (e v : Z) : option (Z * Z) :=
  if Z.land v 0xFF000000 =? 0 then Some (e, v)
  else match fuel with
       | O => None
       | S fuel' => conv_down fuel' (s16 (e + 1)) (Z.shiftr v 1)
       end.
Fixpoint conv_up (fuel : nat) (e v : Z) : option (Z * Z) :=
  if negb (Z.land v 0x800000 =? 0) then Some (e, v)
  else match fuel with
       | O => None
       | S fuel' => conv_up fuel' (s16 (e - 1)) (u32 (Z.shiftl v 1))
       end.

Definition sub_3a6b8f (arg_0 arg_4 : Z) : option Z :=
  if arg_0 =? 0 then Some 0
  else
    '(var_4, arg_0) ← conv_down word_fuel 0x96 arg_0;
    '(var_4, arg_0) ← conv_up word_fuel var_4 arg_0;
    let var_4 := s16 (u32 (var_4 - arg_4)) in
    if var_4 <=? 0 then Some 0
    else if var_4 >=? 0xff then Some 0x7fffffff
    else Some (Z.lor (Z.shiftl var_4 23) (Z.land arg_0 0x7fffff)).

(** The reduced angle: sign, table index and the exponent bias of the result. *)
Definition reduce (arg_0 var_28 var_4 : Z) : option (Z * Z * Z) :=
  let var_10 := Z.lor (Z.land arg_0 0x7fffff) 0x800000 in
  let var_c := u16 (var_4 - 0x7f) in
  if (var_c =? 0) || negb (Z.land var_c 0x8000 =? 0) then
    let var_20 := u32 (0x10 - s16 var_c) in
    Some (var_28, Z.shiftr var_10 (Z.land var_20 0xff), var_20)
  else
    t8 ← table1 !! 8%nat;
    t9 ← table1 !! 9%nat;
    let var_10 := u32 (Z.shiftl var_10 (Z.land var_c 0xff)) in
    let var_10 := var_10 mod t8 in
    let '(var_28, var_10) := if var_10 >? t9 then (Z.lxor var_28 0x8000, u32 (var_10 - t9))
                             else (var_28, var_10) in
    let var_10 := if Z.land (Z.shiftr var_10 16) 0xffff >? 0xff then u32 (t9 - var_10)
                  else var_10 in
    Some (var_28, Z.land (Z.shiftr var_10 16) 0xffff, 0x10).

Definition sub_3a6886 (arg_0 : Z) : option Z :=
  let var_28 := Z.land (Z.shiftr arg_0 16) 0x8000 in
  let var_4 := Z.land (Z.shiftr arg_0 16) 0x7f80 in
  if var_4 =? 0x7f80 then Some (Z.lor 0x7fffffff (u32 (Z.shiftl var_28 16)))
  else if Z.land arg_0 0x7fffffff >? 0x43fe7811 then Some 0
  else if var_4 =? 0 then Some (u32 (Z.shiftl var_28 16))
  else
    let var_4 := u16 (Z.shiftr (s16 var_4) 7) in
    if (s16 var_4 <? 0x73) || ((var_4 =? 0x73) && (Z.land arg_0 0x7fffff <? 0x689769))
    then Some arg_0
    else
      '(var_28, var_14, var_20) ← reduce arg_0 var_28 var_4;
      let var_24 := u32 (Z.shiftl 1 (Z.land var_20 0xff)) in
      var_18 ← table2 !! Z.to_nat var_14;
      var_8 ← sub_3a6b8f var_24 0;
      var_18 ← sub_3a65dc var_18 var_8;
      let var_4 := Z.land (Z.shiftr var_18 16) 0x7f80 in
      let var_4 := u16 (Z.shiftr (s16 var_4) 7) in
      let var_4 := u16 (var_4 - Z.land var_20 0xffff) in
      if (var_4 =? 0) || negb (Z.land var_4 0x8000 =? 0)
      then Some (u32 (Z.shiftl var_28 16))
      else if s16 var_4 <? 0xff
      then Some (Z.lor (Z.land var_18 0x7fffff)
                   (u32 (Z.shiftl (Z.lor var_28 (Z.shiftl var_4 7)) 16)))
      else Some (Z.lor 0x7fffffff (u32 (Z.shiftl var_28 16))).

(** The normalising loops of the addition, which can end the function: a result
    on the left is returned at once. *)
Fixpoint add_down (fuel : nat) (sign e v : Z) : option (Z + Z * Z) :=
  if Z.land (Z.shiftr v 16) 0xff00 =? 0 then Some (inr (e, v))
  else if s16 e >=? 0x7ff
  then Some (inl (Z.lor (u32 (Z.shiftl (Z.lor sign 0x7fff) 16)) 0xffff))
  else match fuel with
       | O => None
       | S fuel' => add_down fuel' sign (u16 (e + 1)) (Z.land (Z.shiftr v 1) 0x7fffffff)
       end.
Fixpoint add_up (fuel : nat) (sign e v : Z) : option (Z + Z * Z) :=
  if negb (Z.land (Z.shiftr v 16) 0x80 =? 0) then Some (inr (e, v))
  else if s16 e <=? 0 then Some (inl (u32 (Z.shiftl sign 16)))
  else match fuel with
       | O => None
       | S fuel' => add_up fuel' sign (u16 (e - 1)) (u32 (Z.shiftl v 1))
       end.

(** The end of the addition: [large] is the operand of the larger magnitude with
    its sign and exponent, [small] the other one shifted to the same exponent. *)
Definition add_aligned (sign_large sign_small e large small : Z) : option Z :=
  let small := if negb (sign_large =? sign_small) then u32 (- small) else small in
  let v := u32 (large + small) in
  if v =? 0 then Some v
  else
    r ← (if negb (Z.land (Z.shiftr v 16) 0xff80 =? 0) then add_down word_fuel sign_large e v
         else add_up word_fuel sign_large e v);
    match r with
    | inl result => Some result
    | inr (e, v) =>
        Some (Z.lor (Z.land v 0x7fffff)
                (u32 (Z.shiftl (Z.lor sign_large (Z.shiftl e 7)) 16)))
    end.

Definition sub_3a62c9 (arg_0 arg_4 : Z) : option Z :=
  let var_c := Z.land (Z.shiftr arg_0 16) 0x7f80 in
  if var_c =? 0 then Some arg_4
  else
    let var_1c := Z.land (Z.shiftr arg_4 16) 0x7f80 in
    if var_1c =? 0 then Some arg_0
    else
      let var_c := Z.shiftr var_c 7 in
      let var_1c := Z.shiftr var_1c 7 in
      let var_18 := Z.land (Z.shiftr arg_0 16) 0x8000 in
      let var_24 := Z.land (Z.shiftr arg_4 16) 0x8000 in
      let var_14 := u32 (var_c - var_1c) in
      let var_4 := Z.lor (Z.land arg_0 0x7fffff) 0x800000 in
      let var_10 := Z.lor (Z.land arg_4 0x7fffff) 0x800000 in
      if (s32 var_14 <? 0) || ((var_14 =? 0) && (var_4 <? var_10)) then
        let var_14 := u32 (- var_14) in
        if (s32 var_14 >=? 0x18) || (var_1c =? 0xff) then Some arg_4
        else add_aligned var_24 var_18 var_1c var_10 (Z.shiftr var_4 (Z.land var_14 0xff))
      else
        if (s32 var_14 >=? 0x18) || (var_c =? 0xff) then Some arg_0
        else add_aligned var_18 var_24 var_c var_4 (Z.shiftr var_10 (Z.land var_14 0xff)).

Definition sub_3a65b1 (arg_0 arg_4 : Z) : option Z :=
  sub_3a62c9 arg_0 (Z.lxor arg_4 0x80000000).

Definition sub_3a6b2c (arg_0 : Z) : option Z :=
  var_c ← table1 !! 10%nat;
  if Z.land arg_0 0x7fffffff >? 0x43fe7811 then Some 0x3f800000
  else var_4 ← sub_3a65b1 var_c arg_0; sub_3a6886 var_4.

(** ** Key generation *)

Section Key.
Variable char_signed : bool.

(** A [char] converted to [uint32_t]. *)
Definition plain_char (c : Z) : Z := u32 (if char_signed then s8 c else c).

(** [var_1c += *var_70] over the key. *)
Definition key_sum (key : list Z) : Z := foldl (λ s c, u32 (s + plain_char c)) 0 key.

(** The floating-point variables of the function; the six that depend on the
    key and do not change in its loops. *)
Record consts := Consts { v_68 : Z; v_58 : Z; v_54 : Z; v_28 : Z; v_24 : Z }.

(** One step of the generator: the two values and the byte mixed in, if any. *)
Definition var_48_of (k : consts) (var_c var_8 : Z) : option Z :=
  var_10 ← sub_3a65dc (v_28 k) var_c;
  var_20 ← sub_3a62c9 var_10 var_8;
  sub_3a62c9 var_20 (v_24 k).

Definition rotate (k : consts) (var_48 var_c var_8 : Z) : option (Z * Z) :=
  var_18 ← sub_3a6b2c var_48;
  var_14 ← sub_3a6886 var_48;
  var_10 ← sub_3a65dc var_18 var_c;
  var_20 ← sub_3a65dc var_14 var_8;
  var_30 ← sub_3a65b1 var_10 var_20;
  var_30 ← sub_3a65dc (v_68 k) var_30;
  var_4c ← sub_3a62c9 var_30 (v_58 k);
  var_10 ← sub_3a65dc var_14 var_c;
  var_20 ← sub_3a65dc var_18 var_8;
  var_30 ← sub_3a62c9 var_10 var_20;
  var_30 ← sub_3a65dc (v_68 k) var_30;
  var_50 ← sub_3a62c9 var_30 (v_54 k);
  Some (var_4c, var_50).

(** The first loop, [n] turns left; [var_44] holds the key's first bytes. *)
Fixpoint mix (n : nat) (k : consts) (var_44 : list Z) (size var_2c var_c var_8 : Z)
    : option (Z * Z) :=
  match n with
  | O => Some (var_c, var_8)
  | S n' =>
      var_48 ← var_48_of k var_c var_8;
      let var_2c := if var_2c =? size then 0 else var_2c in
      b ← var_44 !! Z.to_nat var_2c;
      let var_5c := Z.lxor (plain_char b) (Z.land var_c 0xff) in
      let var_5c := u32 (s32 var_5c * s32 (Z.land var_48 0xff)) in
      let var_2c := u32 (var_2c + 1) in
      var_4 ← sub_3a6b8f var_5c 8;
      var_48 ← sub_3a62c9 var_48 var_4;
      '(var_4c, var_50) ← rotate k var_48 var_c var_8;
      mix n' k var_44 size var_2c var_4c var_50
  end.

(** The second loop: four bytes of the key a turn. *)
Fixpoint emit (n : nat) (k : consts) (var_c var_8 : Z) : option (list Z) :=
  match n with
  | O => Some []
  | S n' =>
      var_48 ← var_48_of k var_c var_8;
      '(var_4c, var_50) ← rotate k var_48 var_c var_8;
      rest ← emit n' k var_4c var_50;
      Some ([Z.land (Z.shiftr var_4c 16) 0xff; Z.land (Z.shiftr var_4c 8) 0xff;
             Z.land (Z.shiftr var_50 16) 0xff; Z.land (Z.shiftr var_50 8) 0xff] ++ rest)
  end.

Definition get_xor_key (key : list Z) : option (list Z) :=
  var_68 ← table1 !! 0%nat;
  var_58 ← table1 !! 1%nat;
  var_54 ← table1 !! 2%nat;
  var_c ← table1 !! 3%nat;
  var_8 ← table1 !! 4%nat;
  var_28 ← table1 !! 5%nat;
  var_24 ← table1 !! 6%nat;
  let size := zlen key in
  let var_44 := splice 0 (take 16 key) (replicate 16 0) in
  let var_6c := Z.land (key_sum key) 0x1f + 0x10 in
  var_4 ← sub_3a6b8f (plain_char (var_44 !!! 0%nat)) 8;
  var_58 ← sub_3a62c9 var_58 var_4;
  var_4 ← sub_3a6b8f (plain_char (var_44 !!! 1%nat)) 8;
  var_54 ← sub_3a65b1 var_54 var_4;
  var_4 ← sub_3a6b8f (plain_char (var_44 !!! 2%nat)) 8;
  var_c ← sub_3a62c9 var_c var_4;
  var_4 ← sub_3a6b8f (plain_char (var_44 !!! 3%nat)) 8;
  var_8 ← sub_3a65b1 var_8 var_4;
  var_4 ← sub_3a6b8f (plain_char (var_44 !!! 4%nat)) 8;
  var_28 ← sub_3a62c9 var_28 var_4;
  var_4 ← sub_3a6b8f (plain_char (var_44 !!! 5%nat)) 8;
  var_24 ← sub_3a65b1 var_24 var_4;
  let k := Consts var_68 var_58 var_54 var_28 var_24 in
  '(var_c, var_8) ← mix (Z.to_nat var_6c) k var_44 size 0 var_c var_8;
  emit 4 k var_c var_8.
End Key.

(** ** Encryption *)

Definition le_encode (n : nat) (x : Z) : list Z := rev (be_encode n x).
Definition le_decode (l : list Z) : Z := be_decode (rev l).

(** [*ptr ^ ((int32_t * )key)[j]] at [ptr = data + off]. *)
Definition xor_word (key : list Z) (off j : nat) (data : list Z) : list Z :=
  splice off
    (le_encode 4 (Z.lxor (le_decode (slice off 4 data)) (le_decode (slice (4 * j) 4 key)))) data.

Definition xor_block (key : list Z) (off : nat) (data : list Z) : list Z :=
  xor_word key (off + 12) 3 (xor_word key (off + 8) 2
    (xor_word key (off + 4) 1 (xor_word key off 0 data))).

Fixpoint xor_blocks (n : nat) (key : list Z) (off : nat) (data : list Z) : list Z :=
  match n with
  | O => data
  | S n' => xor_blocks n' key (off + 16) (xor_block key off data)
  end.

(** The bytes behind the last block, [key[i]] on. *)
Fixpoint xor_tail (n : nat) (key : list Z) (i off : nat) (data : list Z) : list Z :=
  match n with
  | O => data
  | S n' =>
      xor_tail n' key (S i) (S off)
        (<[off := Z.lxor (data !!! off) (key !!! i)]> data)
  end.

(** [size] is the length of [data]. *)
Definition crypt_data (data key : list Z) : list Z :=
  let size := zlen data in
  let blks := Z.to_nat (Z.shiftr size 4) in
  let leftover := Z.to_nat (Z.rem size 16) in
  xor_tail leftover key 0 (16 * blks) (xor_blocks blks key 0 data).
