(* ===== verification/CryptFacts.v ===== *)
(** * libexword: facts about encryption and key generation

    The block cipher of [src/tools/libexword/src/crypt.c] against a byte-wise
    reference, the floating-point routines against exact arithmetic, and the
    key generator's freedom from run-time errors. *)

From S2P Require Import Prelude Crypt.

(** ** Words *)

(** Masking out [n] bits from bit [a] on. *)
Lemma land_field v a n :
  0 <= a → 0 <= n →
  Z.land v (Z.shiftl (Z.ones n) a) = (v / 2 ^ a) mod 2 ^ n * 2 ^ a.
Proof.
  intros Ha Hn. rewrite <- Z.land_ones by lia.
  rewrite <- Z.shiftr_div_pow2, <- Z.shiftl_mul_pow2 by lia.
  apply Z.bits_inj'. intros i Hi.
  rewrite Z.land_spec, !Z.shiftl_spec by lia.
  destruct (decide (a <= i)).
  - rewrite Z.land_spec, Z.shiftr_spec by lia. by replace (i - a + a) with i by lia.
  - rewrite !(Z.testbit_neg_r _ (i - a)) by lia. by rewrite andb_false_r.
Qed.

(** The parts of a single-precision number. *)
Definition mant (w : Z) : Z := w mod 2 ^ 23.
Definition expo (w : Z) : Z := (w / 2 ^ 23) mod 2 ^ 8.
Definition sgn (w : Z) : Z := (w / 2 ^ 31) mod 2.
Definition pack (s e m : Z) : Z := m mod 2 ^ 23 + (s * 2 ^ 8 + e) * 2 ^ 23.
(** The significand of a normal number. *)
Definition sig (w : Z) : Z := 2 ^ 23 + mant w.

Lemma expo_range w : 0 <= expo w < 256.
Proof. apply Z.mod_pos_bound. lia. Qed.
Lemma mant_range w : 0 <= mant w < 2 ^ 23.
Proof. apply Z.mod_pos_bound. lia. Qed.
Lemma sgn_range w : 0 <= sgn w < 2.
Proof. apply Z.mod_pos_bound. lia. Qed.

Lemma expo_field w : Z.land (Z.shiftr w 16) 0x7f80 = expo w * 2 ^ 7.
Proof.
  change 0x7f80 with (Z.shiftl (Z.ones 8) 7). rewrite land_field by lia.
  rewrite Z.shiftr_div_pow2, Z.div_div by lia. done.
Qed.
Lemma sgn_field w : Z.land (Z.shiftr w 16) 0x8000 = sgn w * 2 ^ 15.
Proof.
  change 0x8000 with (Z.shiftl (Z.ones 1) 15). rewrite land_field by lia.
  rewrite Z.shiftr_div_pow2, Z.div_div by lia. done.
Qed.
Lemma sig_field w : Z.lor (Z.land w 0x7fffff) 0x800000 = sig w.
Proof.
  change 0x7fffff with (Z.ones 23). rewrite Z.land_ones by lia.
  change 0x800000 with (1 * 2 ^ 23). rewrite lor_fields by (lia || apply mant_range).
  unfold sig, mant. lia.
Qed.
Lemma sign_word s : 0 <= s < 2 → u32 (Z.shiftl (s * 2 ^ 15) 16) = s * 2 ^ 31.
Proof. intros Hs. rewrite Z.shiftl_mul_pow2 by lia. rewrite u32_small by (unfold is_u; lia). lia. Qed.

Lemma pack_word s e v :
  0 <= s < 2 → 0 <= e < 256 →
  Z.lor (Z.land v 0x7fffff) (u32 (Z.shiftl (Z.lor (s * 2 ^ 15) (Z.shiftl e 7)) 16)) = pack s e v.
Proof.
  intros Hs He. change 0x7fffff with (Z.ones 23). rewrite Z.land_ones by lia.
  rewrite Z.lor_comm, (Z.shiftl_mul_pow2 e) by lia.
  rewrite (Z.lor_comm (s * _)), lor_fields by lia.
  rewrite Z.shiftl_mul_pow2 by lia. rewrite u32_small by (unfold is_u; lia).
  replace ((e * 2 ^ 7 + s * 2 ^ 15) * 2 ^ 16) with ((s * 2 ^ 8 + e) * 2 ^ 23) by lia.
  rewrite Z.lor_comm. apply lor_fields; [lia|]. apply Z.mod_pos_bound. lia.
Qed.

Lemma pack_range s e v : 0 <= s < 2 → 0 <= e < 256 → is_u 32 (pack s e v).
Proof.
  intros Hs He. unfold pack, is_u. pose proof (Z.mod_pos_bound v (2 ^ 23)). lia.
Qed.

(** The tests of the loops. *)
Lemma test_above v k n :
  0 <= k → 0 <= n → is_u (16 + k + n) v →
  (Z.land (Z.shiftr v 16) (Z.shiftl (Z.ones n) k) =? 0) = (v <? 2 ^ (16 + k)).
Proof.
  intros Hk Hn [Hv0 Hv]. rewrite land_field by lia.
  rewrite Z.shiftr_div_pow2, Z.div_div by lia. rewrite <- Z.pow_add_r by lia.
  rewrite Z.mod_small.
  2:{ split; [by apply Z.div_pos; lia|]. apply Z.div_lt_upper_bound; [lia|].
      rewrite <- Z.pow_add_r by lia. done. }
  destruct (Z.ltb_spec v (2 ^ (16 + k))).
  - by rewrite Z.div_small by lia.
  - apply Z.eqb_neq. assert (1 <= v / 2 ^ (16 + k)).
    { apply Z.div_le_lower_bound; lia. }
    pose proof (Z.pow_pos_nonneg 2 k). nia.
Qed.

Lemma test_ff00 v : is_u 32 v → (Z.land (Z.shiftr v 16) 0xff00 =? 0) = (v <? 2 ^ 24).
Proof. exact (test_above v 8 8 ltac:(done) ltac:(done)). Qed.
Lemma test_ff80 v : is_u 32 v → (Z.land (Z.shiftr v 16) 0xff80 =? 0) = (v <? 2 ^ 23).
Proof. exact (test_above v 7 9 ltac:(done) ltac:(done)). Qed.
Lemma test_80 v : is_u 24 v → (Z.land (Z.shiftr v 16) 0x80 =? 0) = (v <? 2 ^ 23).
Proof. exact (test_above v 7 1 ltac:(done) ltac:(done)). Qed.

Lemma test_ff000000 v : is_u 32 v → (Z.land v 0xFF000000 =? 0) = (v <? 2 ^ 24).
Proof.
  intros Hv. rewrite <- (test_ff00 v Hv). change 0xFF000000 with (Z.shiftl (Z.ones 8) 24).
  change 0xff00 with (Z.shiftl (Z.ones 8) 8). rewrite !land_field by lia.
  rewrite Z.shiftr_div_pow2, Z.div_div by lia. change (2 ^ 16 * 2 ^ 8) with (2 ^ 24).
  destruct (Z.eqb_spec ((v / 2 ^ 24) mod 2 ^ 8 * 2 ^ 24) 0) as [E|E];
    destruct (Z.eqb_spec ((v / 2 ^ 24) mod 2 ^ 8 * 2 ^ 8) 0) as [E'|E']; done || lia.
Qed.
Lemma test_800000 v : is_u 24 v → (Z.land v 0x800000 =? 0) = (v <? 2 ^ 23).
Proof.
  intros Hv. rewrite <- (test_80 v Hv). change 0x800000 with (Z.shiftl (Z.ones 1) 23).
  change 0x80 with (Z.shiftl (Z.ones 1) 7). rewrite !land_field by lia.
  rewrite Z.shiftr_div_pow2, Z.div_div by lia. change (2 ^ 16 * 2 ^ 7) with (2 ^ 23).
  destruct (Z.eqb_spec ((v / 2 ^ 23) mod 2 ^ 1 * 2 ^ 23) 0) as [E|E];
    destruct (Z.eqb_spec ((v / 2 ^ 23) mod 2 ^ 1 * 2 ^ 7) 0) as [E'|E']; done || lia.
Qed.

(** ** The loops *)

Lemma half_pow v k : 0 <= k → v / 2 / 2 ^ k = v / 2 ^ (k + 1).
Proof. intros Hk. rewrite Z.div_div by lia. f_equal. rewrite Z.pow_add_r by lia. lia. Qed.

Lemma u16_add e k : u16 (u16 e + k) = u16 (e + k).
Proof. unfold u16. apply Z.add_mod_idemp_l. lia. Qed.
Lemma s16_add e k : s16 (s16 e + k) = s16 (e + k).
Proof.
  unfold s16. f_equal.
  replace ((e + 2 ^ 15) mod 2 ^ 16 - 2 ^ 15 + k + 2 ^ 15)
    with ((e + 2 ^ 15) mod 2 ^ 16 + k) by lia.
  rewrite Z.add_mod_idemp_l by lia. f_equal. lia.
Qed.

(** A word with at most [n] bits too many is shifted down to 24 bits. *)
Definition shifts_down (n : Z) (loop : Z → Z → option (Z * Z)) (conv : Z → Z) : Prop :=
  ∀ e v, conv e = e → 2 ^ 23 <= v < 2 ^ (24 + n) → v < 2 ^ 32 →
    ∃ k, 0 <= k ∧ loop e v = Some (conv (e + k), v / 2 ^ k) ∧ 2 ^ 23 <= v / 2 ^ k < 2 ^ 24.

Lemma down_step v :
  2 ^ 24 <= v → 2 ^ 23 <= Z.shiftr v 1 ∧ Z.shiftr v 1 = v / 2 ∧ Z.shiftr v 1 <= v.
Proof.
  intros Hv. rewrite Z.shiftr_div_pow2 by lia. change (2 ^ 1) with 2.
  pose proof (Z.div_mod v 2). pose proof (Z.mod_pos_bound v 2). lia.
Qed.

Lemma shift_down_ok fuel : shifts_down (Z.of_nat fuel) (shift_down fuel) u16.
Proof.
  induction fuel as [|fuel IH]; intros e v He Hv H32;
    (assert (is_u 32 v) as Hu by (unfold is_u; lia));
    cbn [shift_down]; rewrite (test_ff00 v Hu);
    (destruct (Z.ltb_spec v (2 ^ 24)) as [Hl|Hl];
      [exists 0; rewrite Z.pow_0_r, Z.div_1_r, Z.add_0_r, He;
       split; [lia|split; [done|lia]]|]).
  - change (24 + Z.of_nat 0) with 24 in Hv. lia.
  - destruct (down_step v Hl) as (H23 & E & Hle).
    destruct (IH (u16 (e + 1)) (Z.shiftr v 1)) as (k & Hk & Er & Hb).
    { apply u16_small, u16_range. }
    { split; [done|]. rewrite E. apply Z.div_lt_upper_bound; [lia|].
      rewrite <- (Z.pow_succ_r 2) by lia. replace (Z.succ (24 + Z.of_nat fuel))
        with (24 + Z.of_nat (S fuel)) by lia. lia. }
    { lia. }
    exists (k + 1). rewrite Er, E, half_pow, u16_add in * by done.
    split; [lia|]. split; [|done]. do 3 f_equal. lia.
Qed.

Lemma conv_down_ok fuel : shifts_down (Z.of_nat fuel) (conv_down fuel) s16.
Proof.
  induction fuel as [|fuel IH]; intros e v He Hv H32;
    (assert (is_u 32 v) as Hu by (unfold is_u; lia));
    cbn [conv_down]; rewrite (test_ff000000 v Hu);
    (destruct (Z.ltb_spec v (2 ^ 24)) as [Hl|Hl];
      [exists 0; rewrite Z.pow_0_r, Z.div_1_r, Z.add_0_r, He;
       split; [lia|split; [done|lia]]|]).
  - change (24 + Z.of_nat 0) with 24 in Hv. lia.
  - destruct (down_step v Hl) as (H23 & E & Hle).
    destruct (IH (s16 (e + 1)) (Z.shiftr v 1)) as (k & Hk & Er & Hb).
    { pose proof (s16_add (e + 1) 0) as Hs. by rewrite !Z.add_0_r in Hs. }
    { split; [done|]. rewrite E. apply Z.div_lt_upper_bound; [lia|].
      rewrite <- (Z.pow_succ_r 2) by lia. replace (Z.succ (24 + Z.of_nat fuel))
        with (24 + Z.of_nat (S fuel)) by lia. lia. }
    { lia. }
    exists (k + 1). rewrite Er, E, half_pow, s16_add in * by done.
    split; [lia|]. split; [|done]. do 3 f_equal. lia.
Qed.

(** A number below 24 bits is shifted up. *)
Lemma conv_up_ok fuel e v :
  s16 e = e → 0 < v < 2 ^ 24 → 2 ^ 23 <= v * 2 ^ Z.of_nat fuel →
  ∃ k, 0 <= k ∧ conv_up fuel e v = Some (s16 (e - k), v * 2 ^ k) ∧
    2 ^ 23 <= v * 2 ^ k < 2 ^ 24.
Proof.
  revert e v. induction fuel as [|fuel IH]; intros e v He Hv Hf;
    (assert (is_u 24 v) as Hu by (unfold is_u; lia));
    cbn [conv_up]; rewrite (test_800000 v Hu);
    (destruct (Z.ltb_spec v (2 ^ 23)) as [Hl|Hl]; cbn [negb];
      [|exists 0; rewrite Z.pow_0_r, Z.mul_1_r, Z.sub_0_r, He;
        split; [lia|split; [done|lia]]]).
  - rewrite Z.pow_0_r in Hf. lia.
  - rewrite Z.shiftl_mul_pow2 by lia. rewrite u32_small by (unfold is_u; lia).
    destruct (IH (s16 (e - 1)) (v * 2 ^ 1)) as (k & Hk & Er & Hb).
    { pose proof (s16_add (e - 1) 0) as Hs. by rewrite !Z.add_0_r in Hs. }
    { lia. }
    { rewrite Nat2Z.inj_succ, Z.pow_succ_r in Hf by lia. lia. }
    exists (k + 1). rewrite Z.pow_add_r by lia.
    replace (v * (2 ^ k * 2 ^ 1)) with (v * 2 ^ 1 * 2 ^ k) by lia.
    split; [lia|]. split; [|done]. rewrite Er. do 2 f_equal.
    replace (s16 (e - 1) - k) with (s16 (e - 1) + - k) by lia. rewrite s16_add. f_equal. lia.
Qed.

(** ** Multiplication *)

(** The high half of the product of two significands, from three of the four
    16-bit partial products. *)
Definition partial (x y : Z) : Z :=
  (x / 2 ^ 9 * (y * 2 ^ 7 mod 2 ^ 16) + (x * 2 ^ 7 mod 2 ^ 16) * (y / 2 ^ 9)) / 2 ^ 16
  + x / 2 ^ 9 * (y / 2 ^ 9).

Lemma mul_bound a b A B : 0 <= a <= A → 0 <= b <= B → 0 <= a * b <= A * B.
Proof. nia. Qed.

Lemma sig_range w : 2 ^ 23 <= sig w < 2 ^ 24.
Proof. unfold sig. pose proof (mant_range w). lia. Qed.

(** The two 16-bit halves of a shifted significand. *)
Lemma halves x :
  2 ^ 23 <= x < 2 ^ 24 →
  x * 2 ^ 7 = x / 2 ^ 9 * 2 ^ 16 + x * 2 ^ 7 mod 2 ^ 16 ∧
  2 ^ 14 <= x / 2 ^ 9 < 2 ^ 15 ∧ 0 <= x * 2 ^ 7 mod 2 ^ 16 <= 2 ^ 16 - 2 ^ 7.
Proof.
  intros Hx. pose proof (Z.div_mod x (2 ^ 9) ltac:(lia)) as Hd.
  pose proof (Z.mod_pos_bound x (2 ^ 9) ltac:(lia)).
  assert (x * 2 ^ 7 mod 2 ^ 16 = (x mod 2 ^ 9) * 2 ^ 7) as ->.
  { change (2 ^ 16) with (2 ^ 9 * 2 ^ 7). by rewrite Z.mul_mod_distr_r by lia. }
  split; [lia|]. split; lia.
Qed.

Lemma partial_bound x y :
  2 ^ 23 <= x < 2 ^ 24 → 2 ^ 23 <= y < 2 ^ 24 →
  partial x y * 2 ^ 18 <= x * y < (partial x y + 2) * 2 ^ 18 ∧ 2 ^ 28 <= partial x y < 2 ^ 30.
Proof.
  intros Hx Hy. destruct (halves x Hx) as (Ex & Hhx & Hlx). destruct (halves y Hy) as (Ey & Hhy & Hly).
  unfold partial. set (hx := x / 2 ^ 9) in *. set (hy := y / 2 ^ 9) in *.
  set (lx := x * 2 ^ 7 mod 2 ^ 16) in *. set (ly := y * 2 ^ 7 mod 2 ^ 16) in *.
  pose proof (Z.div_mod (hx * ly + lx * hy) (2 ^ 16) ltac:(lia)) as Hd.
  pose proof (Z.mod_pos_bound (hx * ly + lx * hy) (2 ^ 16) ltac:(lia)) as Hm.
  set (q := (hx * ly + lx * hy) / 2 ^ 16) in *. set (r := (hx * ly + lx * hy) mod 2 ^ 16) in *.
  assert (0 <= q) by (apply Z.div_pos; [|lia]; pose proof (Z.mul_nonneg_nonneg hx ly); pose proof (Z.mul_nonneg_nonneg lx hy); lia).
  assert (x * y * 2 ^ 14 = (hx * 2 ^ 16 + lx) * (hy * 2 ^ 16 + ly)) as E by (rewrite <- Ex, <- Ey; lia).
  pose proof (mul_bound lx ly 65408 65408 ltac:(lia) ltac:(lia)) as Hl.
  pose proof (mul_bound hx ly 32767 65408 ltac:(lia) ltac:(lia)).
  pose proof (mul_bound lx hy 65408 32767 ltac:(lia) ltac:(lia)).
  assert (2 ^ 14 * 2 ^ 14 <= hx * hy) by (apply Z.mul_le_mono_nonneg; lia).
  assert (hx * hy <= 32767 * 32767) by (apply mul_bound; lia).
  assert (x * y * 2 ^ 14 = (q + hx * hy) * 2 ^ 32 + r * 2 ^ 16 + lx * ly) as E2.
  { replace ((q + hx * hy) * 2 ^ 32) with (2 ^ 16 * q * 2 ^ 16 + hx * hy * 2 ^ 32) by lia.
    replace (2 ^ 16 * q) with (hx * ly + lx * hy - r) by lia. rewrite E. ring. }
  assert (q <= 65407) by lia.
  clear E Ex Ey Hd. generalize dependent (hx * hy). generalize dependent (lx * ly).
  generalize dependent (hx * ly + lx * hy). intros. lia.
Qed.

Lemma hi_sig x :
  2 ^ 23 <= x < 2 ^ 24 → Z.land (Z.shiftr (u32 (Z.shiftl x 7)) 16) 0xffff = x / 2 ^ 9.
Proof.
  intros Hx. rewrite Z.shiftl_mul_pow2, u32_small by (unfold is_u; lia).
  change 0xffff with (Z.ones 16). rewrite Z.land_ones, Z.shiftr_div_pow2 by lia.
  destruct (halves x Hx) as (E & Hh & Hl). rewrite E.
  rewrite Z.div_add_l, (Z.div_small (_ mod _)) by (try apply Z.mod_pos_bound; lia).
  rewrite Z.mod_small; lia.
Qed.
Lemma lo_sig x :
  2 ^ 23 <= x < 2 ^ 24 → Z.land (u32 (Z.shiftl x 7)) 0xffff = x * 2 ^ 7 mod 2 ^ 16.
Proof.
  intros Hx. rewrite Z.shiftl_mul_pow2, u32_small by (unfold is_u; lia).
  change 0xffff with (Z.ones 16). by rewrite Z.land_ones by lia.
Qed.

(** None of the multiplications or additions of the code overflows. *)
Lemma partial_exact x y :
  2 ^ 23 <= x < 2 ^ 24 → 2 ^ 23 <= y < 2 ^ 24 →
  let hx := x / 2 ^ 9 in let hy := y / 2 ^ 9 in
  let lx := x * 2 ^ 7 mod 2 ^ 16 in let ly := y * 2 ^ 7 mod 2 ^ 16 in
  u32 (Z.shiftr (u32 (u32 (s32 (hx * ly)) + s32 (lx * hy))) 16 + s32 (hx * hy)) = partial x y.
Proof.
  intros Hx Hy. cbv zeta. destruct (halves x Hx) as (_ & Hhx & Hlx).
  destruct (halves y Hy) as (_ & Hhy & Hly). destruct (partial_bound x y Hx Hy) as [_ Hp].
  unfold partial in *. set (hx := x / 2 ^ 9) in *. set (hy := y / 2 ^ 9) in *.
  set (lx := x * 2 ^ 7 mod 2 ^ 16) in *. set (ly := y * 2 ^ 7 mod 2 ^ 16) in *.
  pose proof (mul_bound hx ly 32767 65408 ltac:(lia) ltac:(lia)).
  pose proof (mul_bound lx hy 65408 32767 ltac:(lia) ltac:(lia)).
  pose proof (mul_bound hx hy 32767 32767 ltac:(lia) ltac:(lia)).
  rewrite !s32_small by lia. rewrite (u32_small (hx * ly)) by (unfold is_u; lia).
  rewrite (u32_small (hx * ly + _)) by (unfold is_u; lia).
  rewrite Z.shiftr_div_pow2 by lia. rewrite u32_small by (unfold is_u; lia). done.
Qed.

(** The sign of a product. *)
Definition xsgn (a b : Z) : Z := (sgn a + sgn b) mod 2.

Lemma xsgn_range a b : 0 <= xsgn a b < 2.
Proof. apply Z.mod_pos_bound. lia. Qed.

Lemma xsgn_field a b : Z.lxor (sgn a * 2 ^ 15) (sgn b * 2 ^ 15) = xsgn a b * 2 ^ 15.
Proof.
  unfold xsgn. pose proof (sgn_range a). pose proof (sgn_range b).
  assert (sgn a = 0 ∨ sgn a = 1) as [-> | ->] by lia;
    assert (sgn b = 0 ∨ sgn b = 1) as [-> | ->] by lia; done.
Qed.

(** The number of a sign, an exponent out of range or not, and a significand. *)
Definition clamp (s e m : Z) : Z :=
  if e <=? 0 then s * 2 ^ 31
  else if e <? 255 then pack s e m else Z.lor 0x7fffffff (s * 2 ^ 31).

Lemma clamp_range s e m : 0 <= s < 2 → is_u 32 (clamp s e m).
Proof.
  intros Hs. unfold clamp. destruct (Z.leb_spec e 0); [unfold is_u; lia|].
  destruct (Z.ltb_spec e 255); [apply pack_range; lia|].
  apply lor_range; [lia|done|]. unfold is_u. lia.
Qed.

(** The exponent's tests on its 16-bit form. *)
Lemma exponent_tests e :
  - 2 ^ 15 <= e < 2 ^ 15 →
  (negb (u16 e =? 0) && (Z.land (u16 e) 0x8000 =? 0))%bool = (0 <? e) ∧
  s16 (u16 e) = e ∧ (0 <= e → u16 e = e).
Proof.
  intros He. split; [|split].
  - change 0x8000 with (Z.shiftl (Z.ones 1) 15). rewrite land_field by lia.
    destruct (Z.ltb_spec 0 e).
    + rewrite u16_small by (unfold is_u; lia). rewrite (Z.div_small e) by lia.
      rewrite (proj2 (Z.eqb_neq e 0)) by lia. done.
    + destruct (decide (e = 0)) as [->|]; [done|].
      assert (u16 e = e + 2 ^ 16) as ->.
      { unfold u16. symmetry. apply Z.mod_unique with (-1); lia. }
      assert ((e + 2 ^ 16) / 2 ^ 15 = 1) as ->; [|by rewrite andb_false_r].
      symmetry. apply Z.div_unique with (e + 2 ^ 15); lia.
  - unfold s16, u16. rewrite Z.add_mod_idemp_l by lia. rewrite Z.mod_small; lia.
  - intros. apply u16_small. unfold is_u. lia.
Qed.

Lemma finish_mul s e v :
  0 <= s < 2 → - 2 ^ 15 <= e < 2 ^ 15 →
  (if negb (u16 e =? 0) && (Z.land (u16 e) 0x8000 =? 0) then
     if s16 (u16 e) <? 0xff
     then Some (Z.lor (Z.land v 0x7fffff)
                  (u32 (Z.shiftl (Z.lor (s * 2 ^ 15) (Z.shiftl (u16 e) 7)) 16)))
     else Some (Z.lor 0x7fffffff (s * 2 ^ 31))
   else Some (s * 2 ^ 31))
  = Some (clamp s e v).
Proof.
  intros Hs He. destruct (exponent_tests e He) as (-> & Es & Eu). unfold clamp.
  destruct (Z.ltb_spec 0 e).
  - rewrite (proj2 (Z.leb_gt _ _)) by lia. rewrite Es, Eu by lia.
    destruct (Z.ltb_spec e 255); [|done]. by rewrite pack_word by lia.
  - by rewrite (proj2 (Z.leb_le _ _)) by lia.
Qed.

Lemma field_eqb e n : (e * 2 ^ 7 =? n * 2 ^ 7) = (e =? n).
Proof. destruct (Z.eqb_spec (e * 2 ^ 7) (n * 2 ^ 7)), (Z.eqb_spec e n); done || lia. Qed.

Lemma mul_normal a b :
  0 < expo a < 255 → 0 < expo b < 255 →
  ∃ k m, m = partial (sig a) (sig b) / 2 ^ k ∧ 2 ^ 23 <= m < 2 ^ 24 ∧ 0 <= k ∧
    sub_3a65dc a b = Some (clamp (xsgn a b) (expo a + expo b - 132 + k) m).
Proof.
  intros Ha Hb. pose proof (sig_range a) as Hsa. pose proof (sig_range b) as Hsb.
  destruct (partial_bound _ _ Hsa Hsb) as [_ Hp]. pose proof (xsgn_range a b) as Hx.
  destruct (shift_down_ok word_fuel (u16 (expo a + expo b - 132)) (partial (sig a) (sig b)))
    as (k & Hk & E & Hm).
  { apply u16_small, u16_range. }
  { change (Z.of_nat word_fuel) with 32. lia. }
  { lia. }
  exists k, (partial (sig a) (sig b) / 2 ^ k). split; [done|]. split; [done|]. split; [done|].
  unfold sub_3a65dc. cbv zeta. rewrite !expo_field, !sgn_field, !sig_field.
  rewrite xsgn_field, sign_word by done.
  change 0x7f80 with (255 * 2 ^ 7). change 0 with (0 * 2 ^ 7) at 1 2.
  rewrite !field_eqb, !(proj2 (Z.eqb_neq _ _)) by lia. cbn [orb].
  rewrite !hi_sig, !lo_sig by done. rewrite partial_exact by done.
  change (Z.land (Z.shiftr (partial (sig a) (sig b)) 16) 0xff80 =? 0 * 2 ^ 7)
    with (Z.land (Z.shiftr (partial (sig a) (sig b)) 16) 0xff80 =? 0).
  rewrite test_ff80 by (unfold is_u; lia). rewrite (proj2 (Z.ltb_ge _ _)) by lia. cbn [negb].
  rewrite !Z.shiftr_div_pow2, !Z.div_mul by lia.
  change 0x84 with 132. rewrite E. cbn [mbind option_bind]. rewrite u16_add.
  apply finish_mul; [done|].
  assert (k <= 7); [|lia].
  apply Z.nlt_ge. intros H7. assert (2 ^ 8 <= 2 ^ k) by (apply Z.pow_le_mono_r; lia).
  assert (partial (sig a) (sig b) / 2 ^ k <= partial (sig a) (sig b) / 2 ^ 8)
    by (apply Z.div_le_compat_l; lia).
  assert (partial (sig a) (sig b) / 2 ^ 8 < 2 ^ 23); [|lia].
  apply Z.div_lt_upper_bound; lia.
Qed.

(** ** Freedom from run-time errors *)

(** A computation that yields a word. *)
Definition word (m : option Z) : Prop := ∃ r, m = Some r ∧ is_u 32 r.

Lemma word_some r : is_u 32 r → word (Some r).
Proof. intros H. by exists r. Qed.

Lemma word_bind {B} (Q : option B → Prop) (m : option Z) f :
  word m → (∀ r, is_u 32 r → Q (f r)) → Q (m ≫= f).
Proof. intros (r & -> & Hr) H. by apply H. Qed.

Lemma sign_range s : 0 <= s < 2 → is_u 32 (s * 2 ^ 31).
Proof. unfold is_u. lia. Qed.

Lemma sub_3a65dc_word a b : is_u 32 a → is_u 32 b → word (sub_3a65dc a b).
Proof.
  intros Ha Hb. pose proof (xsgn_range a b) as Hx. pose proof (sign_range _ Hx) as Hs.
  pose proof (expo_range a). pose proof (expo_range b).
  destruct (decide (0 < expo a < 255 ∧ 0 < expo b < 255)) as [[Hna Hnb]|Hn].
  { destruct (mul_normal a b Hna Hnb) as (k & m & _ & _ & _ & ->).
    apply word_some. by apply clamp_range. }
  unfold sub_3a65dc. cbv zeta. rewrite !expo_field, !sgn_field.
  rewrite xsgn_field, sign_word by done.
  change 0x7f80 with (255 * 2 ^ 7).
  change (expo a * 2 ^ 7 =? 0) with (expo a * 2 ^ 7 =? 0 * 2 ^ 7).
  change (expo b * 2 ^ 7 =? 0) with (expo b * 2 ^ 7 =? 0 * 2 ^ 7).
  rewrite !field_eqb.
  destruct (Z.eqb_spec (expo a) 255); [apply word_some, lor_range; [lia| |done]; by case_match|].
  destruct (Z.eqb_spec (expo a) 0); [by apply word_some|].
  destruct (Z.eqb_spec (expo b) 0); [by apply word_some|]. cbn [orb].
  destruct (Z.eqb_spec (expo b) 255); [by apply word_some, lor_range|]. lia.
Qed.

(** The conversion's loops: [m] is the number's significand. *)
Lemma conv_loops v :
  0 < v < 2 ^ 32 →
  ∃ k m, 2 ^ 23 <= m < 2 ^ 24 ∧ -23 <= k <= 8 ∧
    (if decide (0 <= k) then m = v / 2 ^ k else m = v * 2 ^ (- k)) ∧
    ('(e, v') ← conv_down word_fuel 0x96 v; conv_up word_fuel e v') = Some (150 + k, m).
Proof.
  intros Hv. destruct (Z.ltb_spec v (2 ^ 24)) as [Hl|Hl].
  - assert (conv_down word_fuel 0x96 v = Some (150, v)) as ->.
    { unfold word_fuel. cbn [conv_down]. rewrite test_ff000000 by (unfold is_u; lia).
      by rewrite (proj2 (Z.ltb_lt _ _)) by lia. }
    cbn [mbind option_bind].
    destruct (conv_up_ok word_fuel 150 v) as (k & Hk & -> & Hb); [done|lia| |].
    { change (2 ^ Z.of_nat word_fuel) with (2 ^ 32). lia. }
    assert (k <= 23) as Hk23.
    { apply Z.nlt_ge. intros H23. assert (2 ^ 24 <= 2 ^ k) by (apply Z.pow_le_mono_r; lia). nia. }
    exists (- k), (v * 2 ^ k). split; [done|]. split; [lia|]. split.
    + case_decide; [|by rewrite Z.opp_involutive].
      assert (k = 0) as -> by lia. by rewrite Z.pow_0_r, Z.mul_1_r, Z.div_1_r.
    + rewrite s16_small by lia. do 2 f_equal; lia.
  - destruct (conv_down_ok word_fuel 150 v) as (k & Hk & E & Hb); [done| |lia|].
    { change (Z.of_nat word_fuel) with 32. lia. }
    change 0x96 with 150. rewrite E. cbn [mbind option_bind].
    assert (k <= 8) as Hk8.
    { apply Z.nlt_ge. intros H8. assert (2 ^ 9 <= 2 ^ k) by (apply Z.pow_le_mono_r; lia).
      assert (v / 2 ^ k <= v / 2 ^ 9) by (apply Z.div_le_compat_l; lia).
      assert (v / 2 ^ 9 < 2 ^ 23); [|lia]. apply Z.div_lt_upper_bound; lia. }
    exists k, (v / 2 ^ k). split; [done|]. split; [lia|]. split; [by rewrite decide_True by lia|].
    rewrite s16_small by lia. unfold word_fuel. cbn [conv_up].
    rewrite test_800000 by (unfold is_u; lia).
    by rewrite (proj2 (Z.ltb_ge _ _)) by lia.
Qed.

Lemma sub_3a6b8f_run v n :
  0 < v < 2 ^ 32 → 0 <= n < 2 ^ 14 →
  ∃ k m, 2 ^ 23 <= m < 2 ^ 24 ∧ -23 <= k <= 8 ∧
    (if decide (0 <= k) then m = v / 2 ^ k else m = v * 2 ^ (- k)) ∧
    sub_3a6b8f v n = Some (let e := 150 + k - n in if e <=? 0 then 0 else pack 0 e m).
Proof.
  intros Hv Hn. destruct (conv_loops v Hv) as (k & m & Hm & Hk & Hmv & E).
  exists k, m. split; [done|]. split; [done|]. split; [done|]. cbv zeta.
  unfold sub_3a6b8f. rewrite (proj2 (Z.eqb_neq v 0)) by lia.
  destruct (conv_down word_fuel 0x96 v) as [[e1 v1]|]; [|done].
  cbn [mbind option_bind] in E |- *. rewrite E. cbn [mbind option_bind].
  assert (s16 (u32 (150 + k - n)) = 150 + k - n) as ->.
  { unfold s16, u32.
    replace ((150 + k - n) mod 2 ^ 32 + 2 ^ 15)
      with (150 + k - n + 2 ^ 15 + (- ((150 + k - n) / 2 ^ 32) * 2 ^ 16) * 2 ^ 16).
    2:{ pose proof (Z.div_mod (150 + k - n) (2 ^ 32)). lia. }
    rewrite Z.mod_add by lia. rewrite Z.mod_small; lia. }
  destruct (Z.leb_spec (150 + k - n) 0); [done|].
  rewrite Z.geb_leb, (proj2 (Z.leb_gt _ _)) by lia. f_equal.
  change 0x7fffff with (Z.ones 23). rewrite Z.land_ones by lia.
  rewrite Z.lor_comm, Z.shiftl_mul_pow2, lor_fields by (lia || (apply Z.mod_pos_bound; lia)).
  done.
Qed.

Lemma sub_3a6b8f_word v n : is_u 32 v → 0 <= n < 2 ^ 14 → word (sub_3a6b8f v n).
Proof.
  intros Hv Hn. destruct (decide (v = 0)) as [->|Hne]; [by apply word_some|].
  destruct (sub_3a6b8f_run v n) as (k & m & _ & Hk & _ & ->); [unfold is_u in Hv; lia|done|].
  apply word_some. cbv zeta. case_match; [done|]. apply pack_range; lia.
Qed.

(** ** Addition *)

Lemma add_down_word s e v :
  0 <= s < 2 → 0 < e < 255 → 2 ^ 23 <= v < 2 ^ 25 →
  ∃ k, 0 <= k <= 1 ∧ 2 ^ 23 <= v / 2 ^ k < 2 ^ 24 ∧
    add_down word_fuel (s * 2 ^ 15) e v = Some (inr (e + k, v / 2 ^ k)).
Proof.
  intros Hs He Hv. unfold word_fuel. cbn [add_down].
  rewrite test_ff00 by (unfold is_u; lia).
  destruct (Z.ltb_spec v (2 ^ 24)).
  { exists 0. rewrite Z.pow_0_r, Z.div_1_r, Z.add_0_r. split; [lia|]. split; [lia|done]. }
  rewrite s16_small, Z.geb_leb, (proj2 (Z.leb_gt _ _)) by lia.
  destruct (down_step v) as (H23 & Ev & Hle); [lia|].
  assert (v / 2 < 2 ^ 24) as Hlt by (apply Z.div_lt_upper_bound; lia).
  assert (Z.land (Z.shiftr v 1) 0x7fffffff = v / 2) as ->.
  { change 0x7fffffff with (Z.ones 31). rewrite Z.land_ones by lia. rewrite Ev.
    apply Z.mod_small. lia. }
  rewrite test_ff00 by (unfold is_u; lia).
  rewrite (proj2 (Z.ltb_lt (v / 2) (2 ^ 24))) by lia. exists 1.
  rewrite u16_small by (unfold is_u; lia).
  change (2 ^ 1) with 2. split; [lia|]. split; [lia|done].
Qed.

Lemma add_up_word fuel s e v :
  0 <= s < 2 → 0 <= e < 255 → 0 < v < 2 ^ 24 → 2 ^ 23 <= v * 2 ^ Z.of_nat fuel →
  add_up fuel (s * 2 ^ 15) e v = Some (inl (s * 2 ^ 31)) ∨
  ∃ k, 0 <= k <= e ∧ 2 ^ 23 <= v * 2 ^ k < 2 ^ 24 ∧
    add_up fuel (s * 2 ^ 15) e v = Some (inr (e - k, v * 2 ^ k)).
Proof.
  intros Hs. revert e v. induction fuel as [|fuel IH]; intros e v He Hv Hf;
    (assert (is_u 24 v) as Hu by (unfold is_u; lia));
    cbn [add_up]; rewrite (test_80 v Hu);
    (destruct (Z.ltb_spec v (2 ^ 23)) as [Hl|Hl]; cbn [negb];
      [|right; exists 0; rewrite Z.pow_0_r, Z.mul_1_r, Z.sub_0_r; split; [lia|split; [lia|done]]]).
  - rewrite Z.pow_0_r in Hf. lia.
  - rewrite s16_small by lia. destruct (Z.leb_spec e 0).
    { left. by rewrite sign_word. }
    rewrite Z.shiftl_mul_pow2, !u32_small by (unfold is_u; lia).
    rewrite u16_small by (unfold is_u; lia).
    destruct (IH (e - 1) (v * 2 ^ 1)) as [Hz|(k & Hk & Hb & E)]; [lia|lia| |by left|].
    { rewrite Nat2Z.inj_succ, Z.pow_succ_r in Hf by lia. lia. }
    right. exists (k + 1). rewrite Z.pow_add_r by lia.
    replace (v * (2 ^ k * 2 ^ 1)) with (v * 2 ^ 1 * 2 ^ k) by lia.
    split; [lia|]. split; [done|]. rewrite E. do 3 f_equal. lia.
Qed.

Lemma add_aligned_word sl ss e large small :
  0 <= sl < 2 → 0 <= ss < 2 → 0 < e < 255 → 2 ^ 23 <= large < 2 ^ 24 → 0 <= small < 2 ^ 24 →
  (sl ≠ ss → small <= large) →
  word (add_aligned (sl * 2 ^ 15) (ss * 2 ^ 15) e large small).
Proof.
  intros Hsl Hss He Hl Hsm Hle. unfold add_aligned. cbv zeta.
  set (v := if decide (sl = ss) then large + small else large - small).
  assert (u32 (large + (if negb (sl * 2 ^ 15 =? ss * 2 ^ 15) then u32 (- small) else small)) = v)
    as ->.
  { subst v. destruct (Z.eqb_spec (sl * 2 ^ 15) (ss * 2 ^ 15)) as [E|E]; cbn [negb].
    - rewrite decide_True by lia. apply u32_small. unfold is_u. lia.
    - rewrite decide_False by lia. unfold u32. rewrite Z.add_mod_idemp_r by lia.
      apply Z.mod_small. lia. }
  assert (0 <= v < 2 ^ 25) as Hv by (subst v; case_decide; lia). clearbody v.
  destruct (Z.eqb_spec v 0) as [->|Hv0]; [by apply word_some|].
  rewrite test_ff80 by (unfold is_u; lia). destruct (Z.ltb_spec v (2 ^ 23)); cbn [negb].
  - destruct (add_up_word word_fuel sl e v Hsl) as [->|(k & Hk & Hb & ->)]; [lia|lia| | |].
    + change (2 ^ Z.of_nat word_fuel) with (2 ^ 32). lia.
    + cbn [mbind option_bind]. by apply word_some, sign_range.
    + cbn [mbind option_bind]. rewrite pack_word by lia. apply word_some, pack_range; lia.
  - destruct (add_down_word sl e v Hsl He) as (k & Hk & Hb & ->); [lia|].
    cbn [mbind option_bind]. rewrite pack_word by lia. apply word_some, pack_range; lia.
Qed.

Lemma shifted_sig b d : 0 <= d → 0 <= Z.shiftr (sig b) d < 2 ^ 24 ∧ Z.shiftr (sig b) d <= sig b.
Proof.
  intros Hd. pose proof (sig_range b). rewrite Z.shiftr_div_pow2 by done.
  pose proof (Z.pow_pos_nonneg 2 d ltac:(lia) Hd).
  assert (0 <= sig b / 2 ^ d) by (apply Z.div_pos; lia).
  assert (sig b / 2 ^ d <= sig b); [|lia]. apply Z.div_le_upper_bound; nia.
Qed.

Lemma halved_sig b d : 0 < d → Z.shiftr (sig b) d < 2 ^ 23.
Proof.
  intros Hd. pose proof (sig_range b). rewrite Z.shiftr_div_pow2 by lia.
  assert (sig b / 2 ^ d <= sig b / 2 ^ 1).
  { apply Z.div_le_compat_l; [lia|]. split; [lia|]. apply Z.pow_le_mono_r; lia. }
  assert (sig b / 2 ^ 1 < 2 ^ 23) by (apply Z.div_lt_upper_bound; lia). lia.
Qed.

Lemma land_byte d : 0 <= d < 256 → Z.land d 0xff = d.
Proof. intros Hd. change 0xff with (Z.ones 8). rewrite Z.land_ones, Z.mod_small; lia. Qed.

(** The difference of two exponents, as the code computes it. *)
Lemma expo_difference x y : 0 <= x < 2 ^ 31 → 0 <= y < 2 ^ 31 →
  s32 (u32 (x - y)) = x - y ∧ (u32 (x - y) =? 0) = (x =? y) ∧
  (x <= y → u32 (- u32 (x - y)) = y - x) ∧ (y <= x → u32 (x - y) = x - y).
Proof.
  intros Hx Hy. split; [|split; [|split]].
  - unfold s32, u32. rewrite Z.add_mod_idemp_l by lia. rewrite Z.mod_small; lia.
  - unfold u32. destruct (Z.eqb_spec x y) as [->|Hne]; [by rewrite Z.sub_diag|].
    apply Z.eqb_neq. destruct (decide (0 <= x - y)); [rewrite Z.mod_small; lia|].
    assert ((x - y) mod 2 ^ 32 = x - y + 2 ^ 32) as ->; [|lia].
    symmetry. apply Z.mod_unique with (-1); lia.
  - intros Hxy. unfold u32. replace (- ((x - y) mod 2 ^ 32)) with (0 - (x - y) mod 2 ^ 32) by lia.
    rewrite Zminus_mod_idemp_r, Z.mod_small; lia.
  - intros Hxy. apply u32_small. unfold is_u. lia.
Qed.

Lemma sub_3a62c9_word a b : is_u 32 a → is_u 32 b → word (sub_3a62c9 a b).
Proof.
  intros Ha Hb. pose proof (expo_range a). pose proof (expo_range b).
  pose proof (sgn_range a). pose proof (sgn_range b). pose proof (sig_range a). pose proof (sig_range b).
  unfold sub_3a62c9. cbv zeta. rewrite !expo_field, !sgn_field, !sig_field.
  rewrite !Z.shiftr_div_pow2, !Z.div_mul by lia.
  destruct (Z.eqb_spec (expo a * 2 ^ 7) 0); [by apply word_some|].
  destruct (Z.eqb_spec (expo b * 2 ^ 7) 0); [by apply word_some|].
  destruct (expo_difference (expo a) (expo b)) as (-> & -> & Hneg & Hpos); [lia..|].
  destruct ((expo a - expo b <? 0) || (expo a =? expo b) && (sig a <? sig b)) eqn:Hcmp.
  - assert (expo a <= expo b ∧ (expo a = expo b → sig a < sig b)) as [Hab Heq].
    { apply orb_prop in Hcmp as [Hc|[Hc Hc2]%andb_prop]; to_prop; lia. }
    rewrite (Hneg Hab), s32_small by lia.
    destruct (Z.geb_spec (expo b - expo a) 0x18); [by apply word_some|].
    destruct (Z.eqb_spec (expo b) 0xff); [by apply word_some|]. cbn [orb].
    rewrite land_byte by lia. destruct (shifted_sig a (expo b - expo a)) as [Hs Hle]; [lia|].
    apply add_aligned_word; try done; [lia|]. intros _.
    destruct (decide (expo a = expo b)) as [E|E]; [specialize (Heq E); lia|].
    pose proof (halved_sig a (expo b - expo a)). lia.
  - assert (expo b <= expo a ∧ (expo a = expo b → sig b <= sig a)) as [Hab Heq].
    { apply orb_false_elim in Hcmp as [Hc Hc2]. apply Z.ltb_ge in Hc. split; [lia|]. intros E.
      rewrite E, Z.eqb_refl in Hc2. cbn [andb] in Hc2. by apply Z.ltb_ge in Hc2. }
    rewrite (Hpos Hab).
    destruct (Z.geb_spec (expo a - expo b) 0x18); [by apply word_some|].
    destruct (Z.eqb_spec (expo a) 0xff); [by apply word_some|]. cbn [orb].
    rewrite land_byte by lia. destruct (shifted_sig b (expo a - expo b)) as [Hs Hle]; [lia|].
    apply add_aligned_word; try done; [lia|]. intros _.
    destruct (decide (expo a = expo b)) as [E|E]; [specialize (Heq E); lia|].
    pose proof (halved_sig b (expo a - expo b)). lia.
Qed.

Lemma sub_3a65b1_word a b : is_u 32 a → is_u 32 b → word (sub_3a65b1 a b).
Proof. intros Ha Hb. unfold sub_3a65b1. apply sub_3a62c9_word; [exact Ha|]. apply lxor_range; [lia|exact Hb|split; lia]. Qed.

(** ** Sine and cosine *)

Lemma table2_word i : (i <= 255)%nat → word (table2 !! i).
Proof.
  intros Hi. destruct (lookup_lt_is_Some_2 table2 i) as [r E].
  { change (length table2) with 257%nat. lia. }
  exists r. split; [done|].
  assert (Forall (is_u 32) table2) as Hf by compute_dec.
  by apply (Forall_lookup_1 _ _ _ _ Hf E).
Qed.

Lemma middle_field x : 0 <= x < 2 ^ 32 → Z.land (Z.shiftr x 16) 0xffff = x / 2 ^ 16.
Proof.
  intros Hx. change 0xffff with (Z.ones 16). rewrite Z.land_ones, Z.shiftr_div_pow2 by lia.
  apply Z.mod_small. split; [by apply Z.div_pos; lia|]. apply Z.div_lt_upper_bound; lia.
Qed.

(** The second half of the quarter is folded onto the first. *)
Lemma folded_index v : 0 <= v <= 26353590 →
  0 <= Z.land (Z.shiftr (if Z.land (Z.shiftr v 16) 0xffff >? 0xff then u32 (26353590 - v) else v) 16)
         0xffff <= 255.
Proof.
  intros Hv. rewrite (middle_field v) by lia. rewrite Z.gtb_ltb.
  pose proof (Z.div_mod v (2 ^ 16)). pose proof (Z.mod_pos_bound v (2 ^ 16)).
  destruct (Z.ltb_spec 0xff (v / 2 ^ 16)).
  - rewrite u32_small by (unfold is_u; lia). rewrite middle_field by lia.
    assert ((26353590 - v) / 2 ^ 16 < 256) by (apply Z.div_lt_upper_bound; lia).
    split; [apply Z.div_pos; lia|lia].
  - rewrite middle_field by lia. split; [apply Z.div_pos; lia|lia].
Qed.

(** The reduced angle's index lies in the table. *)
Lemma reduce_ok a s :
  0 < expo a <= 135 → 0x73 <= expo a → 0 <= s < 2 →
  ∃ s' i n, reduce a (s * 2 ^ 15) (expo a) = Some (s' * 2 ^ 15, i, n) ∧ 0 <= s' < 2 ∧
    0 <= i <= 255 ∧ 16 <= n <= 28.
Proof.
  intros He H73 Hs. pose proof (sig_range a) as Hsig. unfold reduce. cbv zeta. rewrite sig_field.
  change (table1 !! 8%nat) with (Some 0x3243f6c). change (table1 !! 9%nat) with (Some 0x1921fb6).
  cbn [mbind option_bind].
  destruct (Z.leb_spec (expo a) 127) as [Hsmall|Hlarge].
  - assert ((u16 (expo a - 0x7f) =? 0) || negb (Z.land (u16 (expo a - 0x7f)) 0x8000 =? 0) = true)%bool
      as ->.
    { destruct (exponent_tests (expo a - 127)) as (Ht & _); [lia|].
      rewrite (proj2 (Z.ltb_ge _ _)) in Ht by lia. change 0x7f with 127.
      destruct (u16 (expo a - 127) =? 0); [done|]. cbn in *. by rewrite Ht. }
    destruct (exponent_tests (expo a - 127)) as (_ & Es & _); [lia|]. change 0x7f with 127.
    rewrite Es, u32_small by (unfold is_u; lia). exists s. eexists _, _.
    split; [done|]. split; [done|]. change 0x10 with 16.
    rewrite land_byte by lia.
    split; [|lia]. rewrite Z.shiftr_div_pow2 by lia.
    assert (sig a / 2 ^ (16 - (expo a - 127)) <= sig a / 2 ^ 16).
    { apply Z.div_le_compat_l; [lia|]. split; [lia|]. apply Z.pow_le_mono_r; lia. }
    assert (sig a / 2 ^ 16 < 256) by (apply Z.div_lt_upper_bound; lia).
    split; [|lia]. apply Z.div_pos; [lia|]. apply Z.pow_pos_nonneg; lia.
  - destruct (exponent_tests (expo a - 127)) as (Ht & _ & Eu); [lia|].
    change 0x7f with 127. rewrite Eu in * by lia.
    rewrite (proj2 (Z.ltb_lt _ _)) in Ht by lia.
    apply andb_prop in Ht as [Ht1 Ht2]. apply negb_true_iff in Ht1. rewrite Ht1, Ht2.
    cbn [orb negb].
    match goal with |- context [if ?x >? 26353590 then _ else _] => set (r := x) end.
    assert (0 <= r < 0x3243f6c) as Hr by (exact (Z.mod_pos_bound _ 0x3243f6c eq_refl)).
    clearbody r.
    assert (∀ s' v, 0 <= s' < 2 → 0 <= v <= 26353590 →
      ∃ s'' i n, Some (s' * 2 ^ 15,
          Z.land (Z.shiftr (if Z.land (Z.shiftr v 16) 0xffff >? 0xff then u32 (26353590 - v) else v) 16)
            0xffff, 0x10)
        = Some (s'' * 2 ^ 15, i, n) ∧ 0 <= s'' < 2 ∧ 0 <= i <= 255 ∧ 16 <= n <= 28) as Hgo.
    { intros s' v Hs' Hv. exists s'. eexists _, _. split_and!; [done|lia|lia|apply folded_index; lia..|lia|lia]. }
    change 0x1921fb6 with 26353590 in *.
    destruct (Z.gtb_spec r 26353590).
    + assert (Z.lxor (s * 2 ^ 15) 0x8000 = (1 - s) * 2 ^ 15) as ->.
      { assert (s = 0 ∨ s = 1) as [-> | ->] by lia; done. }
      rewrite u32_small by (unfold is_u; lia). apply Hgo; lia.
    + apply Hgo; lia.
Qed.

Lemma expo_bound w : Z.land w 0x7fffffff <= 0x43fe7811 → expo w <= 135.
Proof.
  change 0x7fffffff with (Z.ones 31). rewrite Z.land_ones by lia. intros H.
  unfold expo. assert ((w / 2 ^ 23) mod 2 ^ 8 = w mod 2 ^ 31 / 2 ^ 23) as ->.
  { change (2 ^ 31) with (2 ^ 23 * 2 ^ 8). rewrite Z.rem_mul_r by lia.
    rewrite (Z.mul_comm (2 ^ 23)), Z.div_add by lia.
    rewrite (Z.div_small (w mod 2 ^ 23)) by (apply Z.mod_pos_bound; lia). lia. }
  assert (w mod 2 ^ 31 / 2 ^ 23 < 136); [|lia]. apply Z.div_lt_upper_bound; lia.
Qed.

Lemma sub_3a6886_word a : is_u 32 a → word (sub_3a6886 a).
Proof.
  intros Ha. pose proof (expo_range a) as He. pose proof (sgn_range a) as Hs.
  unfold sub_3a6886. cbv zeta. rewrite expo_field, sgn_field, sign_word by done.
  change 0x7f80 with (255 * 2 ^ 7).
  change (expo a * 2 ^ 7 =? 0) with (expo a * 2 ^ 7 =? 0 * 2 ^ 7). rewrite !field_eqb.
  destruct (Z.eqb_spec (expo a) 255).
  { apply word_some, lor_range; [lia|done|by apply sign_range]. }
  rewrite Z.gtb_ltb. destruct (Z.ltb_spec 0x43fe7811 (Z.land a 0x7fffffff)) as [|Hb];
    [by apply word_some|].
  destruct (Z.eqb_spec (expo a) 0); [by apply word_some, sign_range|].
  assert (u16 (Z.shiftr (s16 (expo a * 2 ^ 7)) 7) = expo a) as ->.
  { rewrite s16_small, Z.shiftr_div_pow2, Z.div_mul, u16_small by (unfold is_u; lia). done. }
  rewrite s16_small by lia.
  destruct (Z.ltb_spec (expo a) 0x73); [by apply word_some|]. cbn [orb].
  case_match; [by apply word_some|].
  pose proof (expo_bound a Hb) as Hb'.
  destruct (reduce_ok a (sgn a)) as (s' & i & q & -> & Hs' & Hi & Hn); [lia|lia|done|].
  cbn [mbind option_bind].
  assert (is_u 32 (u32 (Z.shiftl 1 (Z.land q 0xff)))) as Hw by apply u32_range.
  apply (word_bind word); [apply table2_word; lia|]. intros t Ht.
  apply (word_bind word); [by apply sub_3a6b8f_word|]. intros f Hf.
  apply (word_bind word); [by apply sub_3a65dc_word|]. intros p Hp. cbv zeta.
  rewrite expo_field. pose proof (expo_range p) as Hep.
  assert (u16 (Z.shiftr (s16 (expo p * 2 ^ 7)) 7) = expo p) as ->.
  { rewrite s16_small, Z.shiftr_div_pow2, Z.div_mul, u16_small by (unfold is_u; lia). done. }
  assert (Z.land q 0xffff = q) as ->.
  { change 0xffff with (Z.ones 16). rewrite Z.land_ones, Z.mod_small; lia. }
  rewrite sign_word by done.
  destruct (exponent_tests (expo p - q)) as (Ht1 & Es & Eu); [lia|].
  assert (((u16 (expo p - q) =? 0) || negb (Z.land (u16 (expo p - q)) 0x8000 =? 0))%bool
          = negb (0 <? expo p - q)) as ->.
  { rewrite <- Ht1. rewrite negb_andb, negb_involutive. done. }
  destruct (Z.ltb_spec 0 (expo p - q)); cbn [negb]; [|by apply word_some, sign_range].
  rewrite Es. destruct (Z.ltb_spec (expo p - q) 0xff).
  - rewrite Eu, pack_word by lia. apply word_some, pack_range; lia.
  - apply word_some, lor_range; [lia|done|by apply sign_range].
Qed.

Lemma sub_3a6b2c_word a : is_u 32 a → word (sub_3a6b2c a).
Proof.
  intros Ha. unfold sub_3a6b2c. change (table1 !! 10%nat) with (Some 0x3fc90fdb).
  cbn [mbind option_bind]. case_match; [by apply word_some|].
  apply (word_bind word); [by apply sub_3a65b1_word|]. apply sub_3a6886_word.
Qed.

(** ** The key generator *)

(** One operation of a chain of them. *)
Ltac word_op :=
  match goal with
  | |- word (sub_3a65dc _ _) => apply sub_3a65dc_word; assumption
  | |- word (sub_3a62c9 _ _) => apply sub_3a62c9_word; assumption
  | |- word (sub_3a65b1 _ _) => apply sub_3a65b1_word; assumption
  | |- word (sub_3a6886 _) => apply sub_3a6886_word; assumption
  | |- word (sub_3a6b2c _) => apply sub_3a6b2c_word; assumption
  | |- word (sub_3a6b8f _ _) => apply sub_3a6b8f_word; [first [assumption | apply u32_range]|done]
  end.
Ltac word_step :=
  match goal with |- ?Q (?m ≫= ?f) => apply (word_bind Q m f); [word_op|]; intros ? ? end.

Section Key.
Variable char_signed : bool.

Record consts_ok (k : consts) : Prop := {
  ck_68 : is_u 32 (v_68 k);
  ck_58 : is_u 32 (v_58 k);
  ck_54 : is_u 32 (v_54 k);
  ck_28 : is_u 32 (v_28 k);
  ck_24 : is_u 32 (v_24 k);
}.

Definition pair_of_words (m : option (Z * Z)) : Prop :=
  ∃ r s, m = Some (r, s) ∧ is_u 32 r ∧ is_u 32 s.

Lemma var_48_word k c v : consts_ok k → is_u 32 c → is_u 32 v → word (var_48_of k c v).
Proof.
  intros [] Hc Hv. unfold var_48_of. do 2 word_step. word_op.
Qed.

Lemma rotate_words k x c v :
  consts_ok k → is_u 32 x → is_u 32 c → is_u 32 v → pair_of_words (rotate k x c v).
Proof.
  intros [] Hx Hc Hv. unfold rotate. do 12 word_step.
  eexists _, _. split; [reflexivity|]. split; assumption.
Qed.

Lemma plain_char_range c : is_u 32 (plain_char char_signed c).
Proof. apply u32_range. Qed.

Lemma mix_words n k var_44 size j c v :
  consts_ok k → length var_44 = 16%nat → 1 <= size <= 16 → 0 <= j <= size →
  is_u 32 c → is_u 32 v → pair_of_words (mix char_signed n k var_44 size j c v).
Proof.
  intros Hk Hl Hsz. revert j c v. induction n as [|n IH]; intros j c v Hj Hc Hv; cbn [mix].
  { by exists c, v. }
  apply word_bind; [by apply var_48_word|]. intros x Hx. cbv zeta.
  set (j' := if j =? size then 0 else j).
  assert (0 <= j' < size) as Hj' by (subst j'; destruct (Z.eqb_spec j size); lia).
  destruct (lookup_lt_is_Some_2 var_44 (Z.to_nat j')) as [b ->]; [lia|].
  cbn [mbind option_bind].
  apply word_bind; [apply sub_3a6b8f_word; [apply u32_range|done]|]. intros f Hf.
  word_step. destruct (rotate_words k r c v Hk) as (c' & v' & -> & Hc' & Hv'); [assumption..|].
  cbn [mbind option_bind]. apply IH; [|assumption|assumption].
  rewrite u32_small by (unfold is_u; lia). lia.
Qed.

Lemma low_byte w n : is_u 32 w → is_u 8 (Z.land (Z.shiftr w n) 0xff).
Proof.
  intros [Hw _]. apply land_range_r; [lia|by apply Z.shiftr_nonneg|split; lia].
Qed.

Lemma emit_bytes n k c v :
  consts_ok k → is_u 32 c → is_u 32 v →
  ∃ l, emit n k c v = Some l ∧ length l = (4 * n)%nat ∧ bytes_ok l.
Proof.
  intros Hk. revert c v. induction n as [|n IH]; intros c v Hc Hv; cbn [emit].
  { exists []. split; [done|]. split; [done|constructor]. }
  apply (word_bind (λ m, ∃ l, m = Some l ∧ length l = (4 * S n)%nat ∧ bytes_ok l));
    [by apply var_48_word|]. intros x Hx.
  destruct (rotate_words k x c v Hk) as (c' & v' & -> & Hc' & Hv'); [assumption..|].
  cbn [mbind option_bind]. destruct (IH c' v' Hc' Hv') as (l & -> & Hl & Hb).
  cbn [mbind option_bind]. eexists. split; [done|]. split; [rewrite length_app, Hl; simpl; lia|].
  apply Forall_app. split; [|done].
  do 4 (apply Forall_cons; split; [by apply low_byte|]). constructor.
Qed.

Lemma get_xor_key_bytes key :
  1 <= zlen key <= 16 →
  ∃ l, get_xor_key char_signed key = Some l ∧ length l = 16%nat ∧ bytes_ok l.
Proof.
  intros Hl. unfold get_xor_key. cbv zeta. cbn [lookup list_lookup table1 mbind option_bind].
  set (var_44 := splice 0 (take 16 key) (replicate 16 0)).
  assert (length var_44 = 16%nat) as Hlen.
  { unfold var_44. rewrite splice_length; [done|]. rewrite length_take, length_replicate. lia. }
  clearbody var_44. generalize (Z.to_nat (Z.land (key_sum char_signed key) 0x1f + 0x10)) as n.
  intros n.
  pose (Q m := ∃ l : list Z, m = Some l ∧ length l = 16%nat ∧ bytes_ok l). fold (Q).
  assert (∀ x, word (sub_3a6b8f (plain_char char_signed x) 8)) as Hconv
    by (intros; apply sub_3a6b8f_word; [apply plain_char_range|done]).
  assert (is_u 32 0x3F7EB852 ∧ is_u 32 0x3F81930C ∧ is_u 32 0x3F86F34D ∧ is_u 32 0x3FC1930C ∧
    is_u 32 0x40161E4F ∧ is_u 32 0x3F004EA5 ∧ is_u 32 0x3F885F07)
    as (? & ? & ? & ? & ? & ? & ?) by compute_dec.
  do 6 (match goal with |- context [?m ≫= ?f] => apply (word_bind Q m f); [apply Hconv|] end;
        intros ? ?; word_step).
  match goal with |- Q (mix _ _ ?k _ _ _ ?c ?v ≫= _) =>
    assert (consts_ok k) as Hk by (split; assumption);
    destruct (mix_words n k var_44 (zlen key) 0 c v Hk Hlen Hl) as (c' & v' & -> & Hc & Hv);
      [lia|assumption|assumption|]
  end.
  cbn [mbind option_bind]. by apply (emit_bytes 4).
Qed.
End Key.

(** ** Properties of the arithmetic and of the generator *)

(** [sub_3a65dc] multiplies normal single-precision numbers: the result has
    the product's sign and exponent and the product's leading 24 bits, cut off
    with an error below one unit and a thirty-second; an exponent out of range gives
    a signed zero or the largest pattern.  No intermediate product overflows. *)
Theorem mul_truncates (a b : Z) :
  0 < expo a < 255 → 0 < expo b < 255 →
  ∃ m k, 2 ^ 23 <= m < 2 ^ 24 ∧ (k = 23 ∨ k = 24) ∧
    m * 2 ^ k <= sig a * sig b < (m + 1) * 2 ^ k + 2 ^ (k - 5) ∧
    sub_3a65dc a b = Some (clamp (xsgn a b) (expo a + expo b - 150 + k) m).
Proof.
  intros Ha Hb. destruct (mul_normal a b Ha Hb) as (k & m & Em & Hm & Hk & E).
  destruct (partial_bound (sig a) (sig b) (sig_range a) (sig_range b)) as [Hp Hpr].
  set (p := partial (sig a) (sig b)) in *.
  assert (5 <= k) as H5.
  { apply Z.nlt_ge. intros H5. assert (p / 2 ^ 4 <= p / 2 ^ k).
    { apply Z.div_le_compat_l; [lia|]. split; [by apply Z.pow_pos_nonneg|].
      apply Z.pow_le_mono_r; lia. }
    assert (2 ^ 24 <= p / 2 ^ 4) by (apply Z.div_le_lower_bound; lia). lia. }
  assert (k <= 6) as H6.
  { apply Z.nlt_ge. intros H6. assert (p / 2 ^ k <= p / 2 ^ 7).
    { apply Z.div_le_compat_l; [lia|]. split; [done|]. apply Z.pow_le_mono_r; lia. }
    assert (p / 2 ^ 7 < 2 ^ 23) by (apply Z.div_lt_upper_bound; lia). lia. }
  exists m, (k + 18). split; [done|]. split; [lia|].
  replace (expo a + expo b - 150 + (k + 18)) with (expo a + expo b - 132 + k) by lia.
  split; [|done]. pose proof (Z.div_mod p (2 ^ k)) as Hd. pose proof (Z.mod_pos_bound p (2 ^ k)).
  rewrite <- Em in Hd. generalize dependent (sig a * sig b). intros P Hp.
  assert (k = 5 ∨ k = 6) as [-> | ->] by lia; cbn in *; lia.
Qed.

(** [sub_3a6b8f] converts a number below 24 bits, divided by a power of
    two, to single precision without loss. *)
Theorem int_to_float_exact (v n : Z) :
  0 < v < 2 ^ 24 → 0 <= n <= 100 →
  ∃ m e, 2 ^ 23 <= m < 2 ^ 24 ∧ 0 < e < 255 ∧ m * 2 ^ (e + n) = v * 2 ^ 150 ∧
    sub_3a6b8f v n = Some (pack 0 e m).
Proof.
  intros Hv Hn. destruct (sub_3a6b8f_run v n) as (k & m & Hm & Hk & Hmv & E); [lia|lia|].
  assert (k <= 0 ∧ m = v * 2 ^ (- k)) as [Hk0 Em].
  { case_decide; [|split; [lia|done]]. destruct (decide (k = 0)) as [->|].
    { split; [done|]. by rewrite Hmv, Z.pow_0_r, Z.div_1_r, Z.mul_1_r. }
    assert (v / 2 ^ k <= v / 2 ^ 1).
    { apply Z.div_le_compat_l; [lia|]. split; [done|]. apply Z.pow_le_mono_r; lia. }
    assert (v / 2 ^ 1 < 2 ^ 23) by (apply Z.div_lt_upper_bound; lia). lia. }
  exists m, (150 + k - n). split; [done|]. split; [lia|]. split.
  - rewrite Em, <- Z.mul_assoc, <- Z.pow_add_r by lia. do 2 f_equal. lia.
  - rewrite E. cbv zeta. by rewrite (proj2 (Z.leb_gt _ _)) by lia.
Qed.

(** For a key of one to sixteen bytes, whatever they are and whether [char]
    is signed or not, [get_xor_key] ends, reads no table or array outside its
    bounds (the sine table's index among them) and yields sixteen bytes. *)
Theorem get_xor_key_total (char_signed : bool) (key : list Z) :
  1 <= zlen key <= 16 →
  ∃ l, get_xor_key char_signed key = Some l ∧ length l = 16%nat ∧ bytes_ok l.
Proof. apply get_xor_key_bytes. Qed.

(** 1.5 times 2.5. *)
Lemma mul_truncates_witness :
  ∃ m k, 2 ^ 23 <= m < 2 ^ 24 ∧ (k = 23 ∨ k = 24) ∧
    m * 2 ^ k <= 0xc00000 * 0xa00000 < (m + 1) * 2 ^ k + 2 ^ (k - 5) ∧
    sub_3a65dc 0x3fc00000 0x40200000
    = Some (clamp (xsgn 0x3fc00000 0x40200000) (127 + 128 - 150 + k) m).
Proof. exact (mul_truncates 0x3fc00000 0x40200000 ltac:(compute_dec) ltac:(compute_dec)). Defined.

Lemma int_to_float_exact_witness :
  ∃ m e, 2 ^ 23 <= m < 2 ^ 24 ∧ 0 < e < 255 ∧ m * 2 ^ (e + 8) = 200 * 2 ^ 150 ∧
    sub_3a6b8f 200 8 = Some (pack 0 e m).
Proof. exact (int_to_float_exact 200 8 ltac:(done) ltac:(done)). Defined.

Lemma get_xor_key_total_witness :
  ∃ l, get_xor_key true [1; 2; 3; 200] = Some l ∧ length l = 16%nat ∧ bytes_ok l.
Proof. exact (get_xor_key_total true [1; 2; 3; 200] ltac:(done)). Defined.

(** The key depends on whether [char] is signed. *)
Example xor_key_char_sign :
  let key := [1; 2; 3; 4; 5; 6; 7; 8; 9; 10; 11; 12; 13; 14; 15; 200] in
  get_xor_key true key ≠ get_xor_key false key.
Proof. vm_compute. discriminate. Qed.

(** Seventeen bytes: the generator reads behind its copy of the key. *)
Example xor_key_long_overreads :
  get_xor_key true [1; 1; 1; 1; 1; 1; 1; 1; 1; 1; 1; 1; 1; 1; 1; 1; 1] = None.
Proof. vm_compute. reflexivity. Qed.
