(* ===== verification/Cipher.v ===== *)
(** * libexword: encryption

    [crypt_data] of [src/tools/libexword/src/crypt.c] works on 32-bit words, in
    blocks of four and a rest of bytes; here it is related to a byte-wise
    reference. *)

From S2P Require Import Prelude Crypt.

(** The reference: byte [i] with byte [i mod 16] of the key. *)
Definition xor_stream (data key : list Z) : list Z :=
  imap (λ i b, Z.lxor b (key !!! (i mod 16)%nat)) data.

(** ** Words and bytes *)

Lemma lxor_div256 x y : Z.lxor x y / 256 = Z.lxor (x / 256) (y / 256).
Proof.
  change 256 with (2 ^ 8). rewrite <- !Z.shiftr_div_pow2 by lia. apply Z.shiftr_lxor.
Qed.
Lemma lxor_mod256 x y : Z.lxor x y mod 256 = Z.lxor (x mod 256) (y mod 256).
Proof.
  change 256 with (2 ^ 8). apply Z.bits_inj'. intros i Hi.
  rewrite Z.lxor_spec, !Z.testbit_mod_pow2, Z.lxor_spec by lia.
  by destruct (i <? 8).
Qed.

Lemma be_encode_lxor n x y :
  be_encode n (Z.lxor x y) = zip_with Z.lxor (be_encode n x) (be_encode n y).
Proof.
  revert x y. induction n as [|n IH]; intros x y; [done|]. cbn [be_encode].
  rewrite lxor_div256, lxor_mod256, IH, zip_with_app by (by rewrite !be_encode_length). done.
Qed.

Lemma zip_with_rev {A B C} (f : A → B → C) l k :
  length l = length k → rev (zip_with f l k) = zip_with f (rev l) (rev k).
Proof.
  revert k. induction l as [|x l IH]; intros [|y k] Hl; simplify_eq/=; try done.
  rewrite IH, zip_with_app by (done || by rewrite !length_rev). done.
Qed.

(** Two words of four bytes each, combined by [^]. *)
Lemma le_lxor l k :
  length l = 4%nat → length k = 4%nat → bytes_ok l → bytes_ok k →
  le_encode 4 (Z.lxor (le_decode l) (le_decode k)) = zip_with Z.lxor l k.
Proof.
  intros Hl Hk Hbl Hbk. unfold le_encode, le_decode.
  rewrite be_encode_lxor.
  assert (∀ x : list Z, length x = 4%nat → bytes_ok x → be_encode 4 (be_decode (rev x)) = rev x)
    as Hr.
  { intros x Hx Hb. rewrite <- Hx, <- length_rev. apply be_encode_decode.
    unfold bytes_ok. by rewrite rev_alt, Forall_reverse || apply Forall_rev. }
  rewrite !Hr by done. rewrite zip_with_rev by (by rewrite !length_rev, Hl, Hk).
  by rewrite !rev_involutive.
Qed.

(** ** Ranges already combined *)

(** [data'] is [data] with bytes [off] to [off + n] combined with the key. *)
Definition xored (key : list Z) (off n : nat) (data data' : list Z) : Prop :=
  length data' = length data ∧
  ∀ i, data' !! i = if decide (off <= i < off + n)%nat
                    then (λ b, Z.lxor b (key !!! (i mod 16)%nat)) <$> data !! i else data !! i.

Lemma xored_zero key off data : xored key off 0 data data.
Proof. split; [done|]. intros i. by rewrite decide_False by lia. Qed.

Lemma xored_app key off n m d d' d'' :
  xored key off n d d' → xored key (off + n) m d' d'' → xored key off (n + m) d d''.
Proof.
  intros [Hl H] [Hl' H']. split; [congruence|]. intros i. rewrite H', H.
  repeat case_decide; done || lia.
Qed.

Lemma xored_bytes key off n d d' :
  bytes_ok key → length key = 16%nat → bytes_ok d → xored key off n d d' → bytes_ok d'.
Proof.
  intros Hk Hlk Hd [_ H]. apply Forall_lookup. intros i b. rewrite H.
  assert (∀ c, d !! i = Some c → is_u 8 c) as Hc
    by (intros c; by apply Forall_lookup_1).
  case_decide; [|apply Hc]. destruct (d !! i) as [c|]; [|done]. intros [= <-].
  apply lxor_range; [lia|by apply Hc|].
  assert (i mod 16 < length key)%nat by (rewrite Hlk; apply Nat.mod_upper_bound; lia).
  destruct (lookup_lt_is_Some_2 key (i mod 16)) as [k Ek]; [done|].
  rewrite (list_lookup_total_correct _ _ _ Ek). exact (Forall_lookup_1 _ _ _ _ Hk Ek).
Qed.

Section Key.
Context (key : list Z) (Hkey : length key = 16%nat) (Hkb : bytes_ok key).

Lemma xor_word_ok b j d :
  (j < 4)%nat → (16 * b + 4 * j + 4 <= length d)%nat → bytes_ok d →
  xored key (16 * b + 4 * j) 4 d (xor_word key (16 * b + 4 * j) j d).
Proof.
  intros Hj Hl Hd. unfold xor_word.
  rewrite le_lxor; [|rewrite slice_length; lia|rewrite slice_length; lia
    |by apply bytes_ok_slice|by apply bytes_ok_slice].
  set (off := (16 * b + 4 * j)%nat) in *.
  assert (length (zip_with Z.lxor (slice off 4 d) (slice (4 * j) 4 key)) = 4%nat) as Hz.
  { rewrite length_zip_with, !slice_length; lia. }
  split; [apply splice_length; lia|]. intros i. rewrite lookup_splice by lia. rewrite Hz.
  case_decide; [by rewrite decide_False by lia|].
  case_decide; [|by rewrite decide_False by lia]. rewrite decide_True by lia.
  rewrite lookup_zip_with, !lookup_slice, !decide_True by lia.
  replace (off + (i - off))%nat with i by lia.
  assert (i mod 16 = 4 * j + (i - off))%nat as Hm.
  { symmetry. apply (Nat.mod_unique _ _ b); lia. }
  rewrite <- Hm. rewrite (list_lookup_lookup_total_lt key (i mod 16))
    by (rewrite Hkey; apply Nat.mod_upper_bound; lia).
  by destruct (d !! i).
Qed.

Lemma xor_block_ok b d :
  (16 * b + 16 <= length d)%nat → bytes_ok d →
  xored key (16 * b) 16 d (xor_block key (16 * b) d).
Proof.
  intros Hl Hd. unfold xor_block.
  set (d1 := xor_word key (16 * b) 0 d).
  assert (xored key (16 * b) 4 d d1) as H1.
  { pose proof (xor_word_ok b 0 d) as H. rewrite Nat.mul_0_r, Nat.add_0_r in H. apply H; lia || done. }
  assert (∀ n dn j, xored key (16 * b) (4 * j) d dn → (j < 4)%nat → n = (16 * b + 4 * j)%nat →
    xored key (16 * b) (4 * S j) d (xor_word key n j dn)) as Hstep.
  { intros n dn j Hx Hj ->. replace (4 * S j)%nat with (4 * j + 4)%nat by lia.
    apply (xored_app _ _ _ _ _ dn); [done|]. apply xor_word_ok; [done| |].
    - rewrite (proj1 Hx). lia.
    - exact (xored_bytes _ _ _ _ _ Hkb Hkey Hd Hx). }
  apply (Hstep _ _ 3%nat); [|lia|lia]. apply (Hstep _ _ 2%nat); [|lia|lia].
  apply (Hstep _ _ 1%nat); [exact H1|lia|lia].
Qed.

Lemma xor_blocks_ok n b d :
  (16 * b + 16 * n <= length d)%nat → bytes_ok d →
  xored key (16 * b) (16 * n) d (xor_blocks n key (16 * b) d).
Proof.
  revert b d. induction n as [|n IH]; intros b d Hl Hd.
  - rewrite Nat.mul_0_r. apply xored_zero.
  - cbn [xor_blocks]. pose proof (xor_block_ok b d ltac:(lia) Hd) as Hb.
    replace (16 * S n)%nat with (16 + 16 * n)%nat by lia.
    apply (xored_app _ _ _ _ _ _ _ Hb).
    replace (16 * b + 16)%nat with (16 * S b)%nat by lia. apply IH.
    + rewrite (proj1 Hb). lia.
    + exact (xored_bytes _ _ _ _ _ Hkb Hkey Hd Hb).
Qed.

Lemma xor_tail_ok n b i d :
  (i + n <= 16)%nat → (16 * b + i + n <= length d)%nat →
  xored key (16 * b + i) n d (xor_tail n key i (16 * b + i) d).
Proof.
  revert i d. induction n as [|n IH]; intros i d Hi Hl; [apply xored_zero|].
  cbn [xor_tail]. set (off := (16 * b + i)%nat) in *.
  assert (xored key off 1 d (<[off:=Z.lxor (d !!! off) (key !!! i)]> d)) as H1.
  { split; [apply length_insert|]. intros x. destruct (decide (x = off)) as [->|Hne].
    - rewrite list_lookup_insert_eq, decide_True by lia.
      rewrite (list_lookup_lookup_total_lt d off) by lia. cbn [fmap option_fmap option_map].
      assert (i = off mod 16)%nat as <-; [|done]. apply (Nat.mod_unique _ _ b); lia.
    - rewrite list_lookup_insert_ne, decide_False by lia. done. }
  replace (S n) with (1 + n)%nat by lia. apply (xored_app _ _ _ _ _ _ _ H1).
  replace (off + 1)%nat with (16 * b + S i)%nat by lia.
  replace (S off) with (16 * b + S i)%nat by lia. apply IH; [lia|].
  rewrite length_insert. lia.
Qed.

Lemma crypt_data_stream d : bytes_ok d → crypt_data d key = xor_stream d key.
Proof.
  intros Hd. unfold crypt_data.
  rewrite Z.shiftr_div_pow2 by lia. change (2 ^ 4) with 16.
  set (n := length d). assert (zlen d = Z.of_nat n) as -> by done.
  rewrite Z.rem_mod_nonneg by lia.
  assert (Z.to_nat (Z.of_nat n / 16) = (n / 16)%nat) as -> by (by rewrite Z2Nat.inj_div, Nat2Z.id by lia).
  assert (Z.to_nat (Z.of_nat n mod 16) = (n mod 16)%nat) as -> by (by rewrite Z2Nat.inj_mod, Nat2Z.id by lia).
  pose proof (Nat.div_mod_eq n 16) as Hn. pose proof (Nat.mod_upper_bound n 16 ltac:(lia)) as Hr.
  pose proof (xor_blocks_ok (n / 16) 0 d ltac:(fold n; lia) Hd) as Hb.
  rewrite Nat.mul_0_r in Hb.
  pose proof (xor_tail_ok (n mod 16) (n / 16) 0 (xor_blocks (n / 16) key 0 d)) as Ht.
  rewrite Nat.add_0_r in Ht.
  pose proof (xored_app _ _ _ _ _ _ _ Hb (Ht ltac:(lia) ltac:(rewrite (proj1 Hb); fold n; lia)))
    as [_ Hall].
  rewrite <- Hn in Hall. apply list_eq. intros i. rewrite Hall. unfold xor_stream.
  rewrite list_lookup_imap. case_decide; [done|].
  rewrite (lookup_ge_None_2 d) by (fold n; lia). done.
Qed.
End Key.

(** ** Properties *)

(** C31: with a key of sixteen bytes, [crypt_data], which works by blocks of four
    32-bit words and a rest of single bytes, combines every byte of the data with
    the key's byte at its position modulo sixteen. *)
Theorem crypt_data_bytewise (data key : list Z) :
  bytes_ok data → bytes_ok key → length key = 16%nat →
  crypt_data data key = xor_stream data key.
Proof. intros Hd Hk Hl. by apply crypt_data_stream. Qed.

(** Encrypting twice with the same key gives the data back. *)
Theorem crypt_data_involutive (data key : list Z) :
  bytes_ok data → bytes_ok key → length key = 16%nat →
  crypt_data (crypt_data data key) key = data.
Proof.
  intros Hd Hk Hl. rewrite (crypt_data_stream key Hl Hk data Hd).
  rewrite crypt_data_stream; [|done..|].
  - apply list_eq. intros i. unfold xor_stream. rewrite !list_lookup_imap.
    destruct (data !! i) as [b|]; [|done]. cbn.
    by rewrite Z.lxor_assoc, Z.lxor_nilpotent, Z.lxor_0_r.
  - apply (xored_bytes key 0 (length data) data _ Hk Hl Hd). split; [apply length_imap|].
    intros i. unfold xor_stream. rewrite list_lookup_imap. case_decide; [done|].
    by rewrite (lookup_ge_None_2 data) by lia.
Qed.

Definition small_key : list Z := [1; 2; 3; 4; 5; 6; 7; 8; 9; 10; 11; 12; 13; 14; 15; 255].

Lemma crypt_data_bytewise_witness :
  crypt_data (replicate 18 0) small_key = small_key ++ [1; 2].
Proof.
  rewrite (crypt_data_bytewise (replicate 18 0) small_key ltac:(compute_dec) ltac:(compute_dec)
    eq_refl). reflexivity.
Defined.

Lemma crypt_data_involutive_witness :
  crypt_data (crypt_data [104; 101; 108; 108; 111] small_key) small_key = [104; 101; 108; 108; 111].
Proof.
  exact (crypt_data_involutive [104; 101; 108; 108; 111] small_key ltac:(compute_dec)
    ltac:(compute_dec) eq_refl).
Defined.
