(* ===== verification/Exword.v ===== *)
(** * libexword: the device interface ([src/tools/libexword/src/exword.c], [exword.h])

    The handle of a dictionary and its commands, on top of the transport of
    [Obex] and the key generator of [Crypt].  [iconv] is the class [Iconv]; the
    interrupt transfer's completions that libusb delivers during a call come
    from the class [Interrupts].  The application's callbacks are a log of their
    calls.  A [NULL] context, a read past a header's value and a failed
    allocation that the code does not check are a [Fault].  [exword_deinit],
    [exword_free_list] and the releases of objects only give memory back. *)

From stdpp Require Import vector.
From S2P Require Import Prelude DataBuffer Obex Crypt.

(** ** Constants *)

Definition Model : list Z := [0; 95; 0; 77; 0; 111; 0; 100; 0; 101; 0; 108; 0; 0].
Definition List_ : list Z := [0; 95; 0; 76; 0; 105; 0; 115; 0; 116; 0; 0].
Definition Remove : list Z := [0; 95; 0; 82; 0; 101; 0; 109; 0; 111; 0; 118; 0; 101; 0; 0].
Definition Cap : list Z := [0; 95; 0; 67; 0; 97; 0; 112; 0; 0].
Definition SdFormat : list Z := [0; 95; 0; 83; 0; 100; 0; 70; 0; 111; 0; 114; 0; 109; 0; 97; 0; 116; 0; 0].
Definition UserId : list Z := [0; 95; 0; 85; 0; 115; 0; 101; 0; 114; 0; 73; 0; 100; 0; 0].
Definition Unlock : list Z := [0; 95; 0; 85; 0; 110; 0; 108; 0; 111; 0; 99; 0; 107; 0; 0].
Definition Lock : list Z := [0; 95; 0; 76; 0; 111; 0; 99; 0; 107; 0; 0].
Definition CName : list Z := [0; 95; 0; 67; 0; 78; 0; 97; 0; 109; 0; 101; 0; 0].
Definition CryptKey : list Z := [0; 95; 0; 67; 0; 114; 0; 121; 0; 112; 0; 116; 0; 75; 0; 101; 0; 121; 0; 0].
Definition AuthChallenge : list Z := [0; 95; 0; 65; 0; 117; 0; 116; 0; 104; 0; 67; 0; 104; 0; 97; 0; 108; 0; 108; 0; 101; 0; 110; 0; 103; 0; 101; 0; 0].
Definition AuthInfo : list Z := [0; 95; 0; 65; 0; 117; 0; 116; 0; 104; 0; 73; 0; 110; 0; 102; 0; 111; 0; 0].

Definition EXWORD_MODE_TEXT : Z := 0x0200.
Definition EXWORD_MODE_CD : Z := 0x0400.

Definition CAP_SW : Z := 1.
Definition CAP_P : Z := 2.
Definition CAP_F : Z := 4.
Definition CAP_C : Z := 8.
Definition CAP_C2 : Z := 16.
Definition CAP_ST : Z := 32.
Definition CAP_T : Z := 64.
Definition CAP_C3 : Z := 128.
Definition CAP_EXT : Z := 32768.

Definition EXWORD_SUCCESS : Z := 0.
Definition EXWORD_ERROR_FORBIDDEN : Z := 1.
Definition EXWORD_ERROR_NOT_FOUND : Z := 2.
Definition EXWORD_ERROR_INTERNAL : Z := 3.
Definition EXWORD_ERROR_NO_MEM : Z := 4.
Definition EXWORD_ERROR_OTHER : Z := 5.

Definition EXWORD_DISCONNECT_NORMAL : Z := 1.
Definition EXWORD_DISCONNECT_UNPLUGGED : Z := 2.
Definition EXWORD_DISCONNECT_ERROR : Z := 4.

Definition OBEX_RSP_FORBIDDEN : Z := 0x43.
Definition OBEX_RSP_NOT_FOUND : Z := 0x44.
Definition OBEX_RSP_INTERNAL_SERVER_ERROR : Z := 0x50.

(** ** Character conversion *)

Inductive iconv_result : Type := Converted | E2BIG | EINVAL | Failed.

(** A conversion descriptor and [iconv] on it: from the rest of the input and
    the room left in the output, the result, the input left and the output
    written; [iconv_reset] writes the closing shift sequence.  [iconv_open true]
    converts to the locale's encoding, [iconv_open false] from it. *)
Class Iconv := {
  iconv_t : Type;
  iconv_open : bool → option iconv_t;
  iconv : iconv_t → list Z → Z → iconv_result * list Z * list Z * iconv_t;
  iconv_reset : iconv_t → Z → list Z;
}.

(** The status of a finished interrupt transfer. *)
Inductive transfer_status : Type :=
| LIBUSB_TRANSFER_COMPLETED | LIBUSB_TRANSFER_ERROR | LIBUSB_TRANSFER_TIMED_OUT
| LIBUSB_TRANSFER_CANCELLED | LIBUSB_TRANSFER_STALL | LIBUSB_TRANSFER_NO_DEVICE
| LIBUSB_TRANSFER_OVERFLOW.

(** The completions delivered since the last call. *)
Class Interrupts (U : Type) := interrupts : U → list transfer_status * U.

(** ** The handle *)

(** A call of a file callback: upload or not, name, bytes so far, length. *)
Definition progress_call : Type := bool * option (list Z) * Z * Z.

(** The fields of the file callbacks and the log of their calls. *)
Record xfer_t := Xfer {
  put_file_cb : bool;
  get_file_cb : bool;
  cb_filename : option (list Z);
  cb_filelength : Z;
  cb_transferred : Z;
  progress : list progress_call;
}.

(** [int_urb] is [None] while no transfer is allocated, else whether it is
    submitted; [notified] logs the reasons the disconnect callback got. *)
Record exword_t (U : Type) := Exword {
  obex_ctx : option (obex_t U);
  debug : Z;
  status : Z;
  xfer : xfer_t;
  disconnect_callback : bool;
  notified : list Z;
  int_urb : option bool;
}.
Arguments Exword {U}.
Arguments obex_ctx {U}.
Arguments debug {U}.
Arguments status {U}.
Arguments xfer {U}.
Arguments disconnect_callback {U}.
Arguments notified {U}.
Arguments int_urb {U}.

Definition set_obex_ctx {U} (v : option (obex_t U)) (s : exword_t U) : exword_t U :=
  Exword v (debug s) (status s) (xfer s) (disconnect_callback s) (notified s) (int_urb s).
Definition exword_set_debug {U} (v : Z) (s : exword_t U) : exword_t U :=
  Exword (obex_ctx s) v (status s) (xfer s) (disconnect_callback s) (notified s) (int_urb s).
Definition set_status {U} (v : Z) (s : exword_t U) : exword_t U :=
  Exword (obex_ctx s) (debug s) v (xfer s) (disconnect_callback s) (notified s) (int_urb s).
Definition set_xfer {U} (v : xfer_t) (s : exword_t U) : exword_t U :=
  Exword (obex_ctx s) (debug s) (status s) v (disconnect_callback s) (notified s) (int_urb s).
Definition exword_register_disconnect_callback {U} (v : bool) (s : exword_t U) : exword_t U :=
  Exword (obex_ctx s) (debug s) (status s) (xfer s) v (notified s) (int_urb s).
Definition set_notified {U} (v : list Z) (s : exword_t U) : exword_t U :=
  Exword (obex_ctx s) (debug s) (status s) (xfer s) (disconnect_callback s) v (int_urb s).
Definition set_int_urb {U} (v : option bool) (s : exword_t U) : exword_t U :=
  Exword (obex_ctx s) (debug s) (status s) (xfer s) (disconnect_callback s) (notified s) v.

Definition exword_get_debug {U} (s : exword_t U) : Z := debug s.

Definition exword_register_xfer_callbacks {U} (get put : bool) (s : exword_t U) : exword_t U :=
  let x := xfer s in
  set_xfer (Xfer put get (cb_filename x) (cb_filelength x) (cb_transferred x) (progress x)) s.
Definition exword_register_xfer_get_callback {U} (get : bool) (s : exword_t U) : exword_t U :=
  exword_register_xfer_callbacks get (put_file_cb (xfer s)) s.
Definition exword_register_xfer_put_callback {U} (put : bool) (s : exword_t U) : exword_t U :=
  exword_register_xfer_callbacks (get_file_cb (xfer s)) put s.

(** [None] is [NULL]. *)
Definition sizeof_exword_t : Z := 136.
Definition exword_init {U} `{Alloc} : option (exword_t U) :=
  if malloc_ok sizeof_exword_t
  then Some (Exword None 0 0x80 (Xfer false false None 0 0 []) false [] None)
  else None.

Definition exword_is_connected {U} (s : exword_t U) : bool := Z.land (status s) 0x80 =? 0.

(** ** Byte order *)

(** [x.ull] and its bytes [x.c] on a host of either byte order. *)
Definition host_bytes (big : bool) (n : nat) (v : Z) : list Z :=
  if big then be_encode n v else rev (be_encode n v).
Definition host_word (big : bool) (l : list Z) : Z :=
  if big then be_decode l else be_decode (rev l).

(** [c = x.c[i]; x.c[i] = x.c[j]; x.c[j] = c] *)
Definition swap_bytes (i j : nat) (l : list Z) : list Z :=
  <[j := l !!! i]> (<[i := l !!! j]> l).

Definition ntohll (big : bool) (value : Z) : Z :=
  let typ_big := host_bytes big 8 1 !!! 7%nat =? 1 in
  if typ_big then value
  else host_word big
         (swap_bytes 3 4 (swap_bytes 2 5 (swap_bytes 1 6 (swap_bytes 0 7
           (host_bytes big 8 value))))).

(** ** Commands by name *)

Definition is_cmd (d : list Z) (length : Z) : bool :=
  let eq (c : list Z) := bool_decide (d = c) in
  if length =? 10 then eq Cap
  else if length =? 12 then eq List_ || eq Lock
  else if length =? 14 then eq Model || eq CName
  else if length =? 16 then eq Remove || eq UserId || eq Unlock
  else if length =? 20 then eq SdFormat || eq CryptKey || eq AuthInfo
  else if length =? 30 then eq AuthChallenge
  else false.

(** [exword_handle_interrupt] for one completion. *)
Definition exword_handle_interrupt {U} (t : transfer_status) (s : exword_t U) : exword_t U :=
  match t with
  | LIBUSB_TRANSFER_TIMED_OUT | LIBUSB_TRANSFER_COMPLETED => set_int_urb (Some true) s
  | LIBUSB_TRANSFER_NO_DEVICE | LIBUSB_TRANSFER_ERROR =>
      if Z.land (status s) 0x07 =? 0
      then set_status (Z.lor (status s) EXWORD_DISCONNECT_UNPLUGGED) s else s
  | _ => s
  end.

Definition send_disconnect_event {U} (reason : Z) (s : exword_t U) : exword_t U :=
  if disconnect_callback s then set_notified (notified s ++ [reason]) s else s.

Section Exword.
Context `{Alloc} `{Iconv} {U : Type} `{Usb U} `{Interrupts U}.
(** Bounds on the rounds of a request, on the reads of a response and on the
    turns of a conversion; the byte order of the host. *)
Context (fuel read_fuel conv_fuel : nat) (big_endian char_signed : bool).

Abbreviation E := (res (exword_t U)).
Abbreviation X := (res (conn (U := U))).

(** ** Conversions *)

(** The conversion loop with [output] written so far into a block of [outlen]
    bytes; [None] is a failure. *)
Fixpoint convert_loop {S} (n : nat) (cd : iconv_t) (output inbuf : list Z) (outlen : Z)
    : res S (option (list Z)) :=
  match n with
  | O => res_fault OutOfFuel
  | S n' =>
      let '(r, inbuf, written, cd) := iconv cd inbuf (outlen - zlen output) in
      let output := output ++ written in
      match r with
      | Converted | EINVAL =>
          mret (Some (output ++ iconv_reset cd (outlen - zlen output)))
      | Failed => mret None
      | E2BIG =>
          let outlen := u64 (outlen + zlen inbuf * 2) in
          if malloc_ok outlen then convert_loop n' cd output inbuf outlen else mret None
      end
  end.

Definition convert {S} (cd : iconv_t) (src : list Z) : res S (option (list Z)) :=
  if malloc_ok (zlen src) then convert_loop conv_fuel cd [] src (zlen src) else mret None.

Definition convert_to_locale {S} (src : list Z) : res S (option (list Z)) :=
  match iconv_open true with Some cd => convert cd src | None => mret None end.
Definition convert_from_locale {S} (src : list Z) : res S (option (list Z)) :=
  match iconv_open false with Some cd => convert cd src | None => mret None end.

(** ** The progress callback *)

(** The name the callbacks see: the converted one or ["Unknown"]; a negative
    size cannot be allocated. *)
Definition Unknown : list Z := [85; 110; 107; 110; 111; 119; 110].
Definition name_of_header (name : list Z) : X (option (list Z)) :=
  converted ← convert_to_locale name;
  mret (match converted with
        | Some n => Some n
        | None => if malloc_ok 8 then Some Unknown else None
        end).

(** [len] bytes behind the header at [data + off] of the packet sent. *)
Definition header_value (off len : Z) : X (list Z) :=
  if len <? 0 then mret [] else on_tx (data_at (off + 3) len).

Definition report {S} (upload : bool) (x : xfer_t) : res S xfer_t :=
  mret (Xfer (put_file_cb x) (get_file_cb x) (cb_filename x) (cb_filelength x) (cb_transferred x)
          (progress x ++ [(upload, cb_filename x, cb_transferred x, cb_filelength x)])).

Definition put_progress (x : xfer_t) : X xfer_t :=
  hi ← on_tx (data_at 4 1);
  hl ← on_tx (data_at 5 2);
  let hi := be_decode hi in
  let hl := be_decode hl in
  name ← (if hi =? OBEX_HDR_NAME then header_value 4 (hl - 3) else mret []);
  '(x, off) ←
    (if (hi =? OBEX_HDR_NAME) && negb (is_cmd name (hl - 3)) then
       filename ← (if hl - 3 <? 0 then mret (if malloc_ok 8 then Some Unknown else None)
                   else name_of_header name);
       l ← on_tx (data_at (hl + 5) 4);
       mret (Xfer (put_file_cb x) (get_file_cb x) filename (be_decode l) 0 (progress x), hl + 9)
     else mret (x, 4));
  hi ← on_tx (data_at off 1);
  let hi := be_decode hi in
  if (hi =? OBEX_HDR_BODY) || (hi =? OBEX_HDR_BODY_END) then
    hl ← on_tx (data_at (off + 1) 2);
    report true
      (Xfer (put_file_cb x) (get_file_cb x) (cb_filename x) (cb_filelength x)
         (u32 (cb_transferred x + (be_decode hl - 3))) (progress x))
  else mret x.

(** The lengths the received headers give: the file's and the transferred. *)
Fixpoint received_lengths (q : list obex_header_element) (filelength transferred : Z) : X (Z * Z) :=
  match q with
  | [] => mret (filelength, transferred)
  | h :: q' =>
      filelength ←
        (if e_hi h =? OBEX_HDR_LENGTH then
           p ← res_opt OutOfBounds (e_buf h);
           '(l, _) ← on_buf p (data_at 0 4);
           mret (be_decode l)
         else mret filelength);
      received_lengths q' filelength
        (if e_hi h =? OBEX_HDR_BODY then e_length h else transferred)
  end.

Definition get_progress (x : xfer_t) : X xfer_t :=
  hi ← on_tx (data_at 4 1);
  len ← on_tx (data_at 2 2);
  filename ←
    (if negb (be_decode len =? 3) && (be_decode hi =? OBEX_HDR_NAME) then
       hl ← on_tx (data_at 5 2);
       let hl := be_decode hl in
       name ← header_value 4 (hl - 3);
       if is_cmd name (hl - 3) then mret None
       else if hl - 3 <? 0 then mret (if malloc_ok 8 then Some Unknown else None)
       else name_of_header name
     else mret (cb_filename x));
  match filename with
  | None => mret (Xfer (put_file_cb x) (get_file_cb x) None (cb_filelength x) (cb_transferred x)
                    (progress x))
  | Some _ =>
      o ← get_object id;
      let transferred := match rx_body o with
                         | Some p => u32 (data_size p)
                         | None => cb_transferred x
                         end in
      '(filelength, transferred) ← received_lengths (rx_headerq o) (cb_filelength x) transferred;
      report false (Xfer (put_file_cb x) (get_file_cb x) filename filelength transferred (progress x))
  end.

(** The callback the handle registers with the transport. *)
Definition exword_handle_callbacks (s : exword_t U) : X (exword_t U) :=
  o ← get_object id;
  if (opcode o =? OBEX_CMD_PUT) && put_file_cb (xfer s) then
    x ← put_progress (xfer s); mret (set_xfer x s)
  else if (opcode o =? OBEX_CMD_GET) && get_file_cb (xfer s) then
    x ← get_progress (xfer s); mret (set_xfer x s)
  else mret s.

(** ** Using the transport *)

Definition get_ctx : E (obex_t U) :=
  ctx ← res_get obex_ctx; res_opt OutOfBounds ctx.

(** The interrupt transfers that completed meanwhile. *)
Definition handle_events : E unit :=
  ctx ← get_ctx;
  let '(ts, u) := interrupts (usb ctx) in
  res_upd (set_obex_ctx (Some (set_usb u ctx)));;
  res_upd (λ s, foldl (λ s t, exword_handle_interrupt t s) s ts).

Definition new_object (cmd : Z) : E (option obex_object_t) := λ s,
  match obex_ctx s with
  | Some ctx => match obex_object_new ctx cmd with
                | Ok o _ => Ok o s
                | Fault e => Fault e
                end
  | None => Fault OutOfBounds
  end.

(** A transport operation on an object, with the object it leaves. *)
Definition on_object {A} (o : obex_object_t) (m : X A) : E (A * obex_object_t) := λ s,
  match obex_ctx s with
  | Some ctx => match m (Conn ctx o) with
                | Ok a c => Ok (a, object c) (set_obex_ctx (Some (self c)) s)
                | Fault e => Fault e
                end
  | None => Fault OutOfBounds
  end.

(** The results of adding a header are not checked. *)
Definition add_header (o : obex_object_t) (hi : Z) (hv : obex_headerdata_t) (hv_size : Z)
    : E obex_object_t :=
  '(_, o) ← on_object o (obex_object_addheader hi hv hv_size 0); mret o.

(** [obex_request]; its callback works on the handle, and libusb delivers the
    interrupt transfers while it waits. *)
Definition request (o : obex_object_t) : E (Z * obex_object_t) :=
  s ← res_get id;
  '((rsp, s'), o) ← on_object o (obex_request fuel read_fuel (Some exword_handle_callbacks) s);
  res_upd (set_xfer (xfer s'));;
  handle_events;;
  mret (rsp, o).

Definition cancel_transfer : E unit :=
  t ← res_get int_urb;
  match t with
  | Some _ => res_upd (set_int_urb (Some false))
  | None => res_fault OutOfBounds
  end.

Definition obex_to_exword_error (obex_rsp : Z) : E Z :=
  if obex_rsp =? OBEX_RSP_SUCCESS then mret EXWORD_SUCCESS
  else if obex_rsp =? OBEX_RSP_FORBIDDEN then mret EXWORD_ERROR_FORBIDDEN
  else if obex_rsp =? OBEX_RSP_NOT_FOUND then mret EXWORD_ERROR_NOT_FOUND
  else if obex_rsp =? OBEX_RSP_INTERNAL_SERVER_ERROR then
    res_upd (λ s, set_status (Z.lor (status s) 0x80) s);;
    res_upd (λ s, if Z.land (status s) 0x07 =? 0
                  then set_status (Z.lor (status s) EXWORD_DISCONNECT_ERROR) s else s);;
    cancel_transfer;;
    obj ← new_object OBEX_CMD_DISCONNECT;
    (match obj with Some o => request o;; mret tt | None => mret tt end);;
    mret EXWORD_ERROR_INTERNAL
  else mret EXWORD_ERROR_OTHER.

(** The guards every command starts with; [fail] is its result for an error. *)
Definition guarded {A} (fail : Z → A) (m : E A) : E A :=
  s ← res_get id;
  if negb (Z.land (status s) 0x06 =? 0) then mret (fail EXWORD_ERROR_INTERNAL)
  else if negb (exword_is_connected s) then mret (fail EXWORD_ERROR_NOT_FOUND)
  else m.

(** A command that sends [headers] in a new object and reads the answer with
    [answer] when the request succeeded. *)
Fixpoint add_headers (o : obex_object_t) (headers : list (Z * obex_headerdata_t * Z))
    : E obex_object_t :=
  match headers with
  | [] => mret o
  | (hi, hv, size) :: hs => o ← add_header o hi hv size; add_headers o hs
  end.

Definition run_command (o : obex_object_t) (headers : list (Z * obex_headerdata_t * Z)) : E Z :=
  o ← add_headers o headers;
  '(rsp, o) ← request o;
  obex_to_exword_error rsp.

Definition send_command (cmd : Z) (headers : list (Z * obex_headerdata_t * Z)) : E Z :=
  obj ← new_object cmd;
  match obj with
  | None => mret EXWORD_ERROR_NO_MEM
  | Some o => run_command o headers
  end.

Definition is_success (rsp : Z) : bool := Z.land rsp (Z.lnot OBEX_FINAL) =? OBEX_RSP_SUCCESS.

(** The value of the first body header: the commands' loop over the received
    headers, which stops at it. *)
Fixpoint find_body (n : nat) : X (option (list Z)) :=
  match n with
  | O => res_fault OutOfFuel
  | S n' =>
      h ← obex_object_getnextheader;
      match h with
      | None => mret None
      | Some (hi, _, hv) =>
          if hi =? OBEX_HDR_BODY
          then mret (match hv with bs l => Some l | _ => None end)
          else find_body n'
      end
  end.

(** A command whose answer is in the first body header; [use] gets its value and
    what the caller's result was before, [post] ends the work on the result. *)
Definition get_command {A} (headers : list (Z * obex_headerdata_t * Z)) (init : A)
    (use : list Z → A → E A) (post : A → E A) : E (Z * A) :=
  obj ← new_object OBEX_CMD_GET;
  match obj with
  | None => mret (EXWORD_ERROR_NO_MEM, init)
  | Some o =>
      o ← add_headers o headers;
      '(rsp, o) ← request o;
      a ← (if is_success rsp then
             '(body, _) ← on_object o (find_body (S (length (rx_headerq o))));
             match body with Some l => use l init | None => mret init end
           else mret init);
      a ← post a;
      ret ← obex_to_exword_error rsp;
      mret (ret, a)
  end.

(** [memcpy] of [n] bytes out of a header's value from [off] on. *)
Definition value_bytes (l : list Z) (off n : nat) : E (list Z) :=
  if decide (off + n <= length l)%nat then mret (slice off n l) else res_fault OutOfBounds.

(** A string of the program with its terminator. *)
Definition c_string (l : list Z) : list Z := l ++ [0].

Definition name_header (l : list Z) : Z * obex_headerdata_t * Z := (OBEX_HDR_NAME, bs l, zlen l).
Definition length_header (n : Z) : Z * obex_headerdata_t * Z := (OBEX_HDR_LENGTH, bq4 (u32 n), 0).
Definition body_header (l : list Z) : Z * obex_headerdata_t * Z := (OBEX_HDR_BODY, bs l, zlen l).

(** ** Connecting *)

(** What the system gives [exword_connect]: the transfer's allocation, the bus
    and the result of the control request. *)
Record host := Host {
  h_transfer : bool;
  h_devices : option (list (usb_device (U := U)));
  h_control : U → Z * U;
}.

Definition connect_version (options : Z) : Z :=
  let locale := Z.land options 0xff in
  if negb (Z.land options EXWORD_MODE_TEXT =? 0) then locale
  else if negb (Z.land options EXWORD_MODE_CD =? 0) then 0xf0
  else u8 (locale - 0x0f).

(** [free_context] and [free_transfer]. *)
Definition abandon_connect : E Z :=
  res_upd (λ s, set_int_urb None (set_obex_ctx None s));; mret EXWORD_ERROR_OTHER.

Definition exword_connect (h : host) (options : Z) : E Z :=
  connected ← res_get exword_is_connected;
  if connected : bool then mret EXWORD_ERROR_OTHER
  else
    let locale := Z.land options 0xff in
    let ver := connect_version options in
    if negb (h_transfer h) then res_upd (set_int_urb None);; mret EXWORD_ERROR_OTHER
    else
      res_upd (set_int_urb (Some false));;
      match obex_init 0x07cf 0x6101 (h_devices h) (h_control h) with
      | None => abandon_connect
      | Some ctx =>
          res_upd (set_obex_ctx (Some (obex_set_connect_info ver locale ctx)));;
          obj ← new_object OBEX_CMD_CONNECT;
          match obj with
          | None => abandon_connect
          | Some o =>
              '(ret, _) ← request o;
              if negb (ret =? OBEX_RSP_SUCCESS) then abandon_connect
              else
                res_upd (λ s, set_status 0x00 (set_int_urb (Some true) s));;
                mret EXWORD_SUCCESS
          end
      end.

Definition exword_disconnect : E Z :=
  connected ← res_get exword_is_connected;
  if connected : bool then
    res_upd (λ s, set_status (Z.lor (status s) 0x80) s);;
    res_upd (λ s, if Z.land (status s) 0x07 =? 0
                  then set_status (Z.lor (status s) EXWORD_DISCONNECT_NORMAL) s else s);;
    obj ← new_object OBEX_CMD_DISCONNECT;
    match obj with
    | None => mret EXWORD_ERROR_NO_MEM
    | Some o =>
        cancel_transfer;;
        request o;;
        res_upd (λ s, set_int_urb None (set_obex_ctx None s));;
        mret EXWORD_SUCCESS
    end
  else mret EXWORD_SUCCESS.

Definition exword_deinit : E unit :=
  connected ← res_get exword_is_connected;
  if connected : bool then exword_disconnect;; mret tt else mret tt.

Definition exword_poll_disconnect : E unit :=
  connected ← res_get exword_is_connected;
  (if connected : bool then handle_events else mret tt);;
  st ← res_get status;
  if negb (Z.land st 0x07 =? 0) then
    res_upd (send_disconnect_event (Z.land st 0x07));;
    exword_disconnect;;
    res_upd (λ s, set_status (Z.land (status s) (Z.lnot 0x07)) s)
  else mret tt.

(** ** Commands without an answer *)

Definition exword_send_file (filename buffer : list Z) : E Z :=
  guarded id
    (unicode ← convert_from_locale (c_string filename);
     match unicode with
     | None => mret EXWORD_ERROR_OTHER
     | Some u =>
         send_command OBEX_CMD_PUT
           [name_header u; length_header (zlen buffer); body_header buffer]
     end).

Definition exword_remove_file (filename : list Z) (convert_to_unicode : bool) : E Z :=
  guarded id
    (unicode ← (if convert_to_unicode then convert_from_locale (c_string filename)
                else mret (Some (c_string filename)));
     match unicode with
     | None => mret EXWORD_ERROR_OTHER
     | Some u =>
         send_command OBEX_CMD_PUT [name_header Remove; length_header (zlen u); body_header u]
     end).

(** A command whose body is [value]. *)
Definition put_value (name value : list Z) : E Z :=
  guarded id
    (send_command OBEX_CMD_PUT [name_header name; length_header (zlen value); body_header value]).

Definition exword_sd_format : E Z := put_value SdFormat [0].
Definition exword_unlock : E Z := put_value Unlock [0].
Definition exword_lock : E Z := put_value Lock [0].

(** The name field and the challenge as the structures hold them, 17 and 20
    bytes. *)
Definition exword_userid (name : vec Z 17) : E Z := put_value UserId (vec_to_list name).
Definition exword_authchallenge (challenge : vec Z 20) : E Z :=
  put_value AuthChallenge (vec_to_list challenge).

Definition exword_cname (name dir : list Z) : E Z :=
  guarded id
    (obj ← new_object OBEX_CMD_PUT;
     match obj with
     | None => mret EXWORD_ERROR_NO_MEM
     | Some o =>
         let buffer := c_string dir ++ c_string name in
         if negb (malloc_ok (zlen buffer)) then mret EXWORD_ERROR_NO_MEM
         else run_command o [name_header CName; length_header (zlen buffer); body_header buffer]
     end).

Definition exword_setpath (path : list Z) (mkdir : bool) : E Z :=
  guarded id
    (unicode ← convert_from_locale (c_string path);
     match unicode with
     | None => mret EXWORD_ERROR_OTHER
     | Some u =>
         obj ← new_object OBEX_CMD_SETPATH;
         match obj with
         | None => mret EXWORD_ERROR_NO_MEM
         | Some o =>
             '(_, o) ← on_object o (obex_object_set_nonhdr_data [if mkdir then 0 else 2; 0]);
             run_command o [name_header (match path with [] => [] | _ => u end)]
         end
     end).

(** ** Commands with an answer *)

(** The headers up to the body: the length they announce, an [int], and the
    block allocated for it. *)
Fixpoint file_headers (n : nat) (len : Z) (buffer : option (list Z)) : X (Z * option (list Z)) :=
  match n with
  | O => res_fault OutOfFuel
  | S n' =>
      h ← obex_object_getnextheader;
      match h with
      | None => mret (len, buffer)
      | Some (hi, _, hv) =>
          if hi =? OBEX_HDR_LENGTH then
            let len := match hv with bq4 v => s32 v | _ => len end in
            file_headers n' len (if malloc_ok (u64 len) then Some (fresh (u64 len)) else None)
          else if hi =? OBEX_HDR_BODY then
            match hv with
            | bs l =>
                if len =? 0 then mret (len, buffer)
                else match buffer with
                     | Some _ => if u64 len <=? zlen l
                                 then mret (len, Some (take (Z.to_nat len) l))
                                 else res_fault OutOfBounds
                     | None => res_fault OutOfBounds
                     end
            | _ => mret (len, buffer)
            end
          else file_headers n' len buffer
      end
  end.

(** The result code, [*len] and [*buffer]. *)
Definition exword_get_file (filename : list Z) : E (Z * Z * option (list Z)) :=
  guarded (λ e, (e, 0, None))
    (unicode ← convert_from_locale (c_string filename);
     match unicode with
     | None => mret (EXWORD_ERROR_OTHER, 0, None)
     | Some u =>
         obj ← new_object OBEX_CMD_GET;
         match obj with
         | None => mret (EXWORD_ERROR_NO_MEM, 0, None)
         | Some o =>
             o ← add_headers o [name_header u];
             '(rsp, o) ← request o;
             '(len, buffer) ←
               (if is_success rsp then
                  '(r, _) ← on_object o (file_headers (S (length (rx_headerq o))) 0 None);
                  mret r
                else mret (0, None));
             ret ← obex_to_exword_error rsp;
             mret (ret, len, buffer)
         end
     end).

Record exword_model_t := ModelInfo {
  model : list Z;
  sub_model : list Z;
  ext_model : list Z;
  capabilities : Z;
}.

(** [memcmp(ptr, c, length c) == 0]; all compared bytes must be there. *)
Definition memcmp (l c : list Z) : E bool :=
  p ← value_bytes l 0 (length c); mret (bool_decide (p = c)).

Definition strlen (l : list Z) : E Z :=
  match list_find (λ b, b = 0) l with
  | Some (i, _) => mret (Z.of_nat i)
  | None => res_fault OutOfBounds
  end.

Definition add_cap (c : Z) (m : exword_model_t) : exword_model_t :=
  ModelInfo (model m) (sub_model m) (ext_model m) (s16 (Z.lor (capabilities m) c)).

(** The capability a string stands for. *)
Definition capability (l : list Z) (m : exword_model_t) : E exword_model_t :=
  b ← memcmp l [83; 87];
  if b : bool then mret (add_cap CAP_SW m)
  else
  b ← memcmp l [83; 84];
  if b : bool then mret (add_cap CAP_ST m)
  else
  b ← memcmp l [84];
  if b : bool then mret (add_cap CAP_T m)
  else
  b ← memcmp l [80];
  if b : bool then mret (add_cap CAP_P m)
  else
  b ← memcmp l [70];
  if b : bool then mret (add_cap CAP_F m)
  else
  b ← memcmp l [67; 89];
  if b : bool then
    ext ← value_bytes l 0 6;
    mret (add_cap CAP_EXT (ModelInfo (model m) (sub_model m) ext (capabilities m)))
  else
  b ← memcmp l [67];
  if b : bool then
    mret (if negb (Z.land (capabilities m) CAP_C2 =? 0) then add_cap CAP_C3 m
          else if negb (Z.land (capabilities m) CAP_C =? 0) then add_cap CAP_C2 m
          else add_cap CAP_C m)
  else mret m.

(** The loop over the strings of the answer. *)
Fixpoint parse_capabilities (n : nat) (l : list Z) (m : exword_model_t) : E exword_model_t :=
  match l with
  | [] => mret m
  | _ =>
      match n with
      | O => res_fault OutOfFuel
      | S n' =>
          m ← capability l m;
          k ← strlen l;
          parse_capabilities n' (drop (Z.to_nat (k + 1)) l) m
      end
  end.

Definition exword_get_model (m : exword_model_t) : E (Z * exword_model_t) :=
  guarded (λ e, (e, m))
    (get_command [name_header Model] m
       (λ l m,
         main ← value_bytes l 0 14;
         sub ← value_bytes l 14 6;
         parse_capabilities (length l) (drop 23 l) (ModelInfo main sub (ext_model m) 0))
       mret).

Record exword_capacity_t := Capacity { total : Z; free : Z }.

(** [*((uint64_t * )hv.bs + i)] and its 32-bit form, in network byte order. *)
Definition net_word64 (l : list Z) (i : nat) : E Z :=
  w ← value_bytes l (8 * i) 8; mret (ntohll big_endian (host_word big_endian w)).
Definition net_word32 (l : list Z) (i : nat) : E Z :=
  w ← value_bytes l (4 * i) 4; mret (be_decode w).

Definition exword_get_capacity (cap : exword_capacity_t) : E (Z * exword_capacity_t) :=
  guarded (λ e, (e, cap))
    (get_command [name_header Cap] cap
       (λ l _,
         if zlen l =? 24 then
           t ← net_word64 l 1; f ← net_word64 l 2; mret (Capacity t f)
         else
           t ← net_word32 l 0; f ← net_word32 l 1; mret (Capacity t f))
       mret).

Record exword_dirent_t := Dirent { d_size : Z; d_flags : Z; d_name : list Z }.
Definition sizeof_dirent : Z := 11.

(** [count] entries. *)
Fixpoint parse_entries (count : nat) (l : list Z) : E (list exword_dirent_t) :=
  match count with
  | O => mret []
  | S count' =>
      size ← value_bytes l 0 2;
      let size := be_decode size in
      flags ← value_bytes l 2 1;
      if (size <? 3) || negb (malloc_ok (size - 3)) then res_fault OutOfBounds
      else
        name ← value_bytes l 3 (Z.to_nat (size - 3));
        rest ← parse_entries count' (drop (Z.to_nat size) l);
        mret (Dirent size (be_decode flags) name :: rest)
  end.

Definition parse_list (l : list Z) : E (list exword_dirent_t) :=
  count ← value_bytes l 0 2;
  let count := be_decode count in
  if malloc_ok (sizeof_dirent * (count + 1)) then parse_entries (Z.to_nat count) (drop 2 l)
  else res_fault OutOfBounds.

(** [*entries]; [None] is [NULL]. *)
Definition exword_list : E (Z * option (list exword_dirent_t)) :=
  guarded (λ e, (e, None))
    (get_command [name_header List_] None
       (λ l _, entries ← parse_list l; mret (Some entries)) mret).

Record exword_cryptkey_t := Cryptkey {
  blk1 : vec Z 16;
  blk2 : vec Z 12;
  key : list Z;
  xorkey : list Z;
}.

(** The header value runs over the two adjacent blocks. *)
Definition exword_cryptkey (k : exword_cryptkey_t) : E (Z * exword_cryptkey_t) :=
  guarded (λ e, (e, k))
    (get_command
       [name_header CryptKey;
        (OBEX_HDR_CRYPTKEY, bs (vec_to_list (blk1 k) ++ vec_to_list (blk2 k)), 28)] k
       (λ l k,
         v ← value_bytes l 0 12;
         mret (Cryptkey (blk1 k) (blk2 k) (splice 0 v (key k)) (xorkey k)))
       (λ k,
         let full := splice 12 (slice 8 4 (vec_to_list (blk2 k))) (key k) in
         x ← res_opt OutOfBounds (get_xor_key char_signed full);
         mret (Cryptkey (blk1 k) (blk2 k) full x))).

Record exword_authinfo_t := Authinfo {
  a_blk1 : vec Z 16;
  a_blk2 : vec Z 24;
  a_challenge : list Z;
}.

Definition exword_authinfo (i : exword_authinfo_t) : E (Z * exword_authinfo_t) :=
  guarded (λ e, (e, i))
    (get_command
       [name_header AuthInfo;
        (OBEX_HDR_AUTHINFO, bs (vec_to_list (a_blk1 i) ++ vec_to_list (a_blk2 i)), 40)] i
       (λ l i, v ← value_bytes l 0 20; mret (Authinfo (a_blk1 i) (a_blk2 i) v))
       mret).
End Exword.

(** ** Messages *)

#[local] Open Scope string_scope.

Definition exword_error_to_string (code : Z) : string :=
  if (code =? EXWORD_SUCCESS)%Z then "OK, Success"
  else if (code =? EXWORD_ERROR_FORBIDDEN)%Z then "Forbidden"
  else if (code =? EXWORD_ERROR_NOT_FOUND)%Z then "Not found"
  else if (code =? EXWORD_ERROR_INTERNAL)%Z then "Internal server error"
  else if (code =? EXWORD_ERROR_NO_MEM)%Z then "Insufficient memory"
  else "Unknown error".
