(* ===== verification/ExwordFacts.v ===== *)
(** * libexword: facts about the device handle

    The session state of [src/tools/libexword/src/exword.c]: an invariant over
    every sequence of calls, what a poll reports, and what the commands put on
    the wire and read from an answer. *)

From stdpp Require Import vector.
From S2P Require Import Prelude DataBuffer Obex ObexSend ObexReceive ObexHeaders Crypt Exword.

(** ** The session's invariant *)

(** Connected or not, and at most one reason for a disconnection. *)
Definition valid_status (st : Z) : Prop := st ∈ [0; 2; 0x80; 0x81; 0x82; 0x84].

Lemma valid_status_cases st :
  valid_status st → st = 0 ∨ st = 2 ∨ st = 0x80 ∨ st = 0x81 ∨ st = 0x82 ∨ st = 0x84.
Proof. unfold valid_status. set_solver. Qed.

#[export] Instance valid_status_dec st : Decision (valid_status st).
Proof. unfold valid_status. apply _. Defined.

(** Case analysis on a valid status. *)
Ltac status_cases H :=
  let E := fresh "Est" in
  destruct (valid_status_cases _ H) as [E|[E|[E|[E|[E|E]]]]].

(** A connected handle has a transport and an allocated transfer. *)
Record session_ok {U} (s : exword_t U) : Prop := {
  so_status : valid_status (status s);
  so_connected : exword_is_connected s = true → is_Some (obex_ctx s) ∧ is_Some (int_urb s);
}.

Section Session.
Context `{Alloc} `{Iconv} {U : Type} `{Usb U} `{Interrupts U}.
Context (fuel read_fuel conv_fuel : nat) (big_endian char_signed : bool).
Abbreviation E := (res (exword_t U)).

(** A computation that preserves a property of the handle. *)
Definition keeps {A} (P : exword_t U → Prop) (m : E A) : Prop :=
  ∀ s a s', P s → m s = Ok a s' → P s'.

Lemma keeps_ret {A} P (a : A) : keeps P (mret a).
Proof. intros s b s' Hs [= _ <-]. done. Qed.

Lemma keeps_bind {A B} P (m : E A) (f : A → E B) :
  keeps P m → (∀ a, keeps P (f a)) → keeps P (m ≫= f).
Proof.
  intros Hm Hf s b s' Hs. unfold mbind, res_mbind.
  destruct (m s) as [a s1|] eqn:Em; [|done]. intros Ef. exact (Hf a s1 b s' (Hm s a s1 Hs Em) Ef).
Qed.

Lemma keeps_get {A} P (f : exword_t U → A) : keeps P (res_get f).
Proof. intros s a s' Hs [= _ <-]. done. Qed.

Lemma keeps_upd P (f : exword_t U → exword_t U) : (∀ s, P s → P (f s)) → keeps P (res_upd f).
Proof. intros Hf s a s' Hs [= _ <-]. by apply Hf. Qed.

Lemma keeps_fault {A} P e : keeps P (res_fault e : E A).
Proof. by intros s a s' _ E. Qed.

Lemma keeps_opt {A} P e (o : option A) : keeps P (res_opt e o : E A).
Proof. destruct o; [apply keeps_ret|apply keeps_fault]. Qed.

Create HintDb keeps.
Hint Resolve keeps_ret keeps_get keeps_fault keeps_opt : keeps.

(** Preservation by composition. *)
Ltac keep :=
  repeat match goal with
  | |- keeps _ (_ ≫= _) => apply keeps_bind; [|intros ?]
  | |- keeps _ (match ?x with _ => _ end) => destruct x
  | |- keeps _ (let '(_, _) := ?x in _) => destruct x
  | |- keeps _ _ => solve [auto with keeps]
  | |- keeps _ _ => progress cbv zeta
  end.

Lemma keeps_new_object P cmd : keeps P (new_object (U := U) cmd).
Proof.
  intros s a s' Hs. unfold new_object. destruct (obex_ctx s); [|done].
  destruct (obex_object_new _ cmd); [|done]. intros E. apply (f_equal (λ o, match o with Ok _ x => x | _ => s end)) in E. by subst.
Qed.

(** Operations of the transport only change the transport's state. *)
Definition ctx_free (P : exword_t U → Prop) : Prop :=
  ∀ s ctx, P s → is_Some (obex_ctx s) → P (set_obex_ctx (Some ctx) s).

Lemma keeps_on_object {A} P o (m : res (conn (U := U)) A) :
  ctx_free P → keeps P (on_object o m).
Proof.
  intros HP s a s' Hs. unfold on_object. destruct (obex_ctx s) as [ctx|] eqn:Ec; [|done].
  destruct (m (Conn ctx o)) as [b c|]; [|done]. intros E.
  apply (f_equal (λ o, match o with Ok _ x => x | _ => s end)) in E. subst s'.
  apply HP; [done|by rewrite Ec].
Qed.

Lemma session_interrupt t (s : exword_t U) : session_ok s → session_ok (exword_handle_interrupt t s).
Proof.
  intros [Hst Hc]. unfold exword_handle_interrupt.
  assert (session_ok (if Z.land (status s) 7 =? 0
    then set_status (Z.lor (status s) EXWORD_DISCONNECT_UNPLUGGED) s else s)) as Hu.
  { unfold exword_is_connected in Hc. status_cases Hst; rewrite Est; try (by split).
    - split; [compute_dec|]. intros _. apply Hc. by rewrite Est.
    - split; [compute_dec|]. intros Hi. discriminate Hi. }
  assert (session_ok (set_int_urb (Some true) s)) as Hr.
  { split; [done|]. intros Hi. split; [by apply Hc|done]. }
  destruct t; first [exact Hu | exact Hr | by split].
Qed.

(** What the transport, the callbacks and the interrupt transfers preserve. *)
Record stable (P : exword_t U → Prop) : Prop := {
  st_ctx : ctx_free P;
  st_xfer : ∀ x s, P s → P (set_xfer x s);
  st_interrupt : ∀ t s, P s → P (exword_handle_interrupt t s);
  st_urb : ∀ b s, P s → P (set_int_urb (Some b) s);
}.

Lemma session_stable : stable session_ok.
Proof.
  split.
  - intros s ctx [Hst Hc] _. split; [done|]. intros Hi. split; [done|]. by apply Hc.
  - intros x s [Hst Hc]. by split.
  - apply session_interrupt.
  - intros b s [Hst Hc]. split; [done|]. intros Hi. split; [by apply Hc|done].
Qed.

(** A handle that is not connected. *)
Definition closed (s : exword_t U) : Prop := session_ok s ∧ exword_is_connected s = false.

Lemma closed_stable : stable closed.
Proof.
  split.
  - intros s ctx [Hs Hd] Hc. split; [by apply (st_ctx _ session_stable)|done].
  - intros x s [Hs Hd]. split; [by apply (st_xfer _ session_stable)|done].
  - intros t s [Hs Hd]. split; [by apply session_interrupt|].
    unfold exword_is_connected in *. destruct Hs as [Hst _].
    destruct t; try exact Hd; cbn; case_match; try exact Hd; cbn;
      status_cases Hst; rewrite Est in *; try done.
  - intros b s [Hs Hd]. split; [by apply (st_urb _ session_stable)|done].
Qed.

Lemma keeps_handle_events P : stable P → keeps P (handle_events (U := U)).
Proof.
  intros HP s a s' Hs. unfold handle_events, get_ctx, mbind, res_mbind, res_get, res_opt.
  destruct (obex_ctx s) as [ctx|] eqn:Ec; [|done]. cbn.
  destruct (interrupts (usb ctx)) as [ts u]. unfold res_upd. intros [= _ <-].
  assert (P (set_obex_ctx (Some (set_usb u ctx)) s)) as Hs1
    by (apply (st_ctx _ HP); [done|by rewrite Ec]).
  generalize dependent (set_obex_ctx (Some (set_usb u ctx)) s).
  induction ts as [|t ts IH]; intros s1 Hs1; [done|]. cbn [foldl].
  apply IH. by apply (st_interrupt _ HP).
Qed.

Lemma keeps_request P o : stable P → keeps P (request fuel read_fuel conv_fuel o).
Proof.
  intros HP. unfold request. apply keeps_bind; [apply keeps_get|]. intros s.
  apply keeps_bind; [apply keeps_on_object, (st_ctx _ HP)|]. intros [[rsp s'] o'].
  apply keeps_bind; [apply keeps_upd; intros; by apply (st_xfer _ HP)|]. intros _.
  apply keeps_bind; [by apply keeps_handle_events|]. intros _. apply keeps_ret.
Qed.

Lemma keeps_cancel P : stable P → keeps P (cancel_transfer (U := U)).
Proof.
  intros HP. unfold cancel_transfer. apply keeps_bind; [apply keeps_get|].
  intros [b|]; [|apply keeps_fault]. apply keeps_upd. intros. by apply (st_urb _ HP).
Qed.

Hint Resolve session_stable closed_stable : keeps.

(** Marking a handle disconnected for a reason, unless it has one. *)
Lemma session_drop r (s : exword_t U) :
  r = EXWORD_DISCONNECT_NORMAL ∨ r = EXWORD_DISCONNECT_ERROR → session_ok s →
  session_ok (let s1 := set_status (Z.lor (status s) 0x80) s in
              if Z.land (status s1) 0x07 =? 0 then set_status (Z.lor (status s1) r) s1 else s1).
Proof.
  intros Hr [Hst _]. cbv zeta. cbn [status set_status].
  status_cases Hst; rewrite Est; destruct Hr as [-> | ->]; cbn;
    split; unfold exword_is_connected; cbn; try compute_dec; done.
Qed.

Lemma keeps_upd2 {A} P (f g : exword_t U → exword_t U) (m : E A) :
  (∀ s, P s → P (g (f s))) → keeps P m → keeps P (res_upd f;; (res_upd g;; m)).
Proof. intros Hfg Hm s a s' Hs. unfold mbind, res_mbind, res_upd. apply Hm. by apply Hfg. Qed.

Hint Resolve keeps_new_object keeps_request keeps_cancel keeps_handle_events : keeps.

Lemma keeps_to_error rsp : keeps session_ok (obex_to_exword_error fuel read_fuel conv_fuel rsp).
Proof.
  unfold obex_to_exword_error. do 3 (case_match; [keep|]). case_match; [|keep].
  apply keeps_upd2; [intros s; apply session_drop; by right|]. keep.
Qed.
Hint Resolve keeps_to_error : keeps.

Lemma keeps_on_object' {A} o (m : res (conn (U := U)) A) : keeps session_ok (on_object o m).
Proof. apply keeps_on_object, (st_ctx _ session_stable). Qed.
Hint Resolve keeps_on_object' : keeps.

Lemma keeps_add_header o hi hv n : keeps session_ok (add_header (U := U) o hi hv n).
Proof. unfold add_header. keep. Qed.
Hint Resolve keeps_add_header : keeps.

Lemma keeps_add_headers o hs : keeps session_ok (add_headers (U := U) o hs).
Proof. revert o. induction hs as [|[[hi hv] n] hs IH]; intros o; cbn [add_headers]; keep. Qed.
Hint Resolve keeps_add_headers : keeps.

Lemma keeps_run_command o hs : keeps session_ok (run_command fuel read_fuel conv_fuel o hs).
Proof. unfold run_command. keep. Qed.
Hint Resolve keeps_run_command : keeps.

Lemma keeps_send_command cmd hs : keeps session_ok (send_command fuel read_fuel conv_fuel cmd hs).
Proof. unfold send_command. keep. Qed.
Hint Resolve keeps_send_command : keeps.

Lemma keeps_get_command {A} hs (init : A) use post :
  (∀ l a, keeps session_ok (use l a)) → (∀ a, keeps session_ok (post a)) →
  keeps session_ok (get_command fuel read_fuel conv_fuel hs init use post).
Proof. intros Hu Hp. unfold get_command. keep. Qed.

Lemma keeps_guarded {A} fail (m : E A) : keeps session_ok m → keeps session_ok (guarded fail m).
Proof. intros Hm. unfold guarded. keep. Qed.

Lemma keeps_convert_loop n cd out inb outlen :
  keeps session_ok (convert_loop (S := exword_t U) n cd out inb outlen).
Proof.
  revert cd out inb outlen. induction n as [|n IH]; intros cd out inb outlen; [apply keeps_fault|].
  cbn [convert_loop]. destruct (iconv cd inb (outlen - zlen out)) as [[[r rest] w] cd'].
  destruct r; try apply keeps_ret. cbv zeta. destruct (malloc_ok _); [apply IH|apply keeps_ret].
Qed.

Lemma keeps_from_locale l : keeps session_ok (convert_from_locale (S := exword_t U) conv_fuel l).
Proof.
  unfold convert_from_locale, convert. case_match; [|keep]. case_match; [apply keeps_convert_loop|keep].
Qed.
Hint Resolve keeps_from_locale : keeps.

Lemma keeps_value_bytes l off n : keeps session_ok (value_bytes (U := U) l off n).
Proof. unfold value_bytes. case_decide; keep. Qed.
Hint Resolve keeps_value_bytes : keeps.

Lemma keeps_capabilities n l m : keeps session_ok (parse_capabilities (U := U) n l m).
Proof.
  revert l m. induction n as [|n IH]; intros [|b l] m; cbn [parse_capabilities]; [keep|keep|keep|].
  apply keeps_bind; [|intros m'; apply keeps_bind; [|intros k; apply IH]].
  - unfold capability, memcmp. keep.
  - unfold strlen. keep.
Qed.

Lemma keeps_entries n l : keeps session_ok (parse_entries (U := U) n l).
Proof. revert l. induction n as [|n IH]; intros l; cbn [parse_entries]; keep. Qed.

Lemma keeps_list l : keeps session_ok (parse_list (U := U) l).
Proof. unfold parse_list. keep. apply keeps_entries. Qed.
Hint Resolve keeps_capabilities keeps_list : keeps.

(** ** The calls of the interface *)

(** One call: any function of the interface with any arguments and answers of
    the system, when it returns, or a completed interrupt transfer. *)
Inductive call : exword_t U → exword_t U → Prop :=
| call_connect h options r s s' :
    exword_connect fuel read_fuel conv_fuel h options s = Ok r s' → call s s'
| call_disconnect r s s' : exword_disconnect fuel read_fuel conv_fuel s = Ok r s' → call s s'
| call_poll r s s' : exword_poll_disconnect fuel read_fuel conv_fuel s = Ok r s' → call s s'
| call_interrupt t s : call s (exword_handle_interrupt t s)
| call_register get put disc s :
    call s (exword_register_disconnect_callback disc (exword_register_xfer_callbacks get put s))
| call_send_file name data r s s' :
    exword_send_file fuel read_fuel conv_fuel name data s = Ok r s' → call s s'
| call_get_file name r s s' :
    exword_get_file fuel read_fuel conv_fuel name s = Ok r s' → call s s'
| call_remove_file name u r s s' :
    exword_remove_file fuel read_fuel conv_fuel name u s = Ok r s' → call s s'
| call_put_value name value r s s' :
    put_value fuel read_fuel conv_fuel name value s = Ok r s' → call s s'
| call_cname name dir r s s' :
    exword_cname fuel read_fuel conv_fuel name dir s = Ok r s' → call s s'
| call_setpath path mkdir r s s' :
    exword_setpath fuel read_fuel conv_fuel path mkdir s = Ok r s' → call s s'
| call_get_model m r s s' :
    exword_get_model fuel read_fuel conv_fuel m s = Ok r s' → call s s'
| call_get_capacity c r s s' :
    exword_get_capacity fuel read_fuel conv_fuel big_endian c s = Ok r s' → call s s'
| call_list r s s' : exword_list fuel read_fuel conv_fuel s = Ok r s' → call s s'
| call_cryptkey k r s s' :
    exword_cryptkey fuel read_fuel conv_fuel char_signed k s = Ok r s' → call s s'
| call_authinfo i r s s' :
    exword_authinfo fuel read_fuel conv_fuel i s = Ok r s' → call s s'.

(** Disconnecting leaves the handle closed. *)
Lemma disconnect_closed s r s' :
  session_ok s → exword_disconnect fuel read_fuel conv_fuel s = Ok r s' → closed s'.
Proof.
  intros Hs. unfold exword_disconnect. unfold mbind at 1, res_mbind at 1. unfold res_get at 1.
  destruct (exword_is_connected s) eqn:Ec; [|by intros [= _ <-]].
  unfold mbind at 1, res_mbind at 1. unfold res_upd at 1.
  unfold mbind at 1, res_mbind at 1. unfold res_upd at 1.
  set (s1 := if Z.land _ _ =? 0 then _ else _).
  assert (closed s1) as Hs1.
  { split; [apply (session_drop EXWORD_DISCONNECT_NORMAL); [by left|done]|].
    destruct Hs as [Hst _]. subst s1. cbn [status set_status].
    unfold exword_is_connected. status_cases Hst; rewrite Est; reflexivity. }
  clearbody s1. match goal with |- ?m s1 = _ → _ => assert (keeps closed m) as Hk end.
  { apply keeps_bind; [keep|]. intros [o|]; [|keep].
    apply keeps_bind; [by apply keeps_cancel, closed_stable|intros _].
    apply keeps_bind; [by apply keeps_request, closed_stable|intros _].
    apply keeps_bind; [|intros _; keep]. apply keeps_upd. intros s2 [[Hst _] Hd].
    split; [|done]. split; [done|]. intros Hc. unfold exword_is_connected in *.
    cbn [status set_int_urb set_obex_ctx] in Hc. congruence. }
  intros E. exact (Hk s1 r s' Hs1 E).
Qed.

Lemma stable_and P Q : stable P → stable Q → stable (λ s, P s ∧ Q s).
Proof.
  intros HP HQ. split.
  - intros s ctx [? ?] Hc. split; by apply st_ctx.
  - intros x s [? ?]. split; by apply st_xfer.
  - intros t s [? ?]. split; by apply st_interrupt.
  - intros b s [? ?]. split; by apply st_urb.
Qed.

(** Nothing takes the transport away but the two ways of closing. *)
Definition has_ctx (s : exword_t U) : Prop := is_Some (obex_ctx s).
Lemma has_ctx_stable : stable has_ctx.
Proof.
  split.
  - intros s ctx _ _. by exists ctx.
  - by intros x s Hs.
  - intros t s Hs. unfold exword_handle_interrupt.
    destruct t; first [exact Hs | destruct (_ =? _); exact Hs].
  - by intros b s Hs.
Qed.

Lemma abandon_closed s r s' : closed s → abandon_connect s = Ok r s' → closed s'.
Proof.
  intros [[Hst _] Hd]. unfold abandon_connect, mbind, res_mbind, res_upd. intros [= _ <-].
  split; [|done]. split; [done|]. intros Hc. unfold exword_is_connected in *.
  cbn [status set_int_urb set_obex_ctx] in Hc. congruence.
Qed.

Lemma connect_session h options s r s' :
  session_ok s → exword_connect fuel read_fuel conv_fuel h options s = Ok r s' → session_ok s'.
Proof.
  intros Hs. unfold exword_connect. unfold mbind at 1, res_mbind at 1. unfold res_get at 1.
  destruct (exword_is_connected s) eqn:Ec; [by intros [= _ <-]|]. cbv zeta.
  assert (∀ t s, closed s → closed (set_int_urb t s)) as Hurb.
  { intros t s1 [[Hst _] Hd]. split; [|done]. split; [done|]. intros Hi.
    unfold exword_is_connected in *. cbn [status set_int_urb] in Hi. congruence. }
  assert (∀ c s, closed s → closed (set_obex_ctx c s)) as Hctx.
  { intros c s1 [[Hst _] Hd]. split; [|done]. split; [done|]. intros Hi.
    unfold exword_is_connected in *. cbn [status set_obex_ctx] in Hi. congruence. }
  assert (closed s) as Hcl by done.
  destruct (h_transfer h); cbn [negb].
  2:{ unfold mbind, res_mbind, res_upd. intros [= _ <-]. by apply Hurb. }
  unfold mbind at 1, res_mbind at 1. unfold res_upd at 1.
  destruct (obex_init _ _ _ _) as [ctx|].
  2:{ intros E. apply (abandon_closed _ _ _ (Hurb _ _ Hcl) E). }
  unfold mbind at 1, res_mbind at 1. unfold res_upd at 1.
  set (s1 := set_obex_ctx _ _). assert (closed s1 ∧ has_ctx s1) as Hs1
    by (split; [by apply Hctx, Hurb|by eexists]). clearbody s1.
  unfold mbind at 1, res_mbind at 1.
  destruct (new_object OBEX_CMD_CONNECT s1) as [[o|] s2|] eqn:En; [| |done].
  2:{ intros E. apply (abandon_closed s2 r s'); [|done].
      exact (keeps_new_object _ _ _ _ _ (proj1 Hs1) En). }
  pose proof (keeps_new_object (λ s, closed s ∧ has_ctx s) _ _ _ _ Hs1 En) as Hs2.
  unfold mbind at 1, res_mbind at 1.
  destruct (request fuel read_fuel conv_fuel o s2) as [[ret o'] s3|] eqn:Er; [|done].
  destruct (keeps_request _ o (stable_and _ _ closed_stable has_ctx_stable) _ _ _ Hs2 Er)
    as [Hcl3 Hctx3].
  case_match; [intros E; by apply (abandon_closed s3 r s')|].
  unfold mbind, res_mbind, res_upd. intros [= _ <-].
  split; [compute_dec|]. intros _. split; [exact Hctx3|done].
Qed.

(** Removing the reason. *)
Lemma session_clear (s : exword_t U) :
  session_ok s → session_ok (set_status (Z.land (status s) (Z.lnot 0x07)) s).
Proof.
  intros [Hst Hc]. unfold exword_is_connected in Hc.
  status_cases Hst; rewrite Est in *; split; try compute_dec; unfold exword_is_connected; cbn;
    intros Hi; first [discriminate Hi | by apply Hc].
Qed.

Lemma poll_session s r s' :
  session_ok s → exword_poll_disconnect fuel read_fuel conv_fuel s = Ok r s' → session_ok s'.
Proof.
  intros Hs. apply (λ (H : keeps session_ok (exword_poll_disconnect fuel read_fuel conv_fuel)), H s r s' Hs).
  unfold exword_poll_disconnect. apply keeps_bind; [keep|]. intros c.
  apply keeps_bind; [destruct c; [by apply keeps_handle_events, session_stable|keep]|]. intros _.
  apply keeps_bind; [keep|]. intros st. case_match; [|keep].
  apply keeps_bind; [|intros _; apply keeps_bind; [|intros _]].
  - apply keeps_upd. intros s1 [Hst Hc]. unfold send_disconnect_event. by case_match; split.
  - intros s1 a s2 Hs1 E. exact (proj1 (disconnect_closed s1 a s2 Hs1 E)).
  - apply keeps_upd. apply session_clear.
Qed.

Lemma call_session s s' : call s s' → session_ok s → session_ok s'.
Proof.
  intros Hcall Hs.
  destruct Hcall as [????? E|??? E|??? E|t s|get put disc s|????? E|???? E|????? E|????? E|????? E
    |????? E|???? E|???? E|??? E|???? E|???? E].
  - by eapply connect_session.
  - exact (proj1 (disconnect_closed _ _ _ Hs E)).
  - by eapply poll_session.
  - by apply session_interrupt.
  - destruct Hs. by split.
  - revert E. apply (λ H, keeps_guarded id _ H _ _ _ Hs). keep.
  - revert E. apply (λ H, keeps_guarded _ _ H _ _ _ Hs). keep.
  - revert E. apply (λ H, keeps_guarded id _ H _ _ _ Hs). keep.
  - revert E. apply (λ H, keeps_guarded id _ H _ _ _ Hs). keep.
  - revert E. apply (λ H, keeps_guarded id _ H _ _ _ Hs). keep.
  - revert E. apply (λ H, keeps_guarded id _ H _ _ _ Hs). keep.
  - revert E. apply (λ H, keeps_guarded _ _ H _ _ _ Hs). apply keeps_get_command; intros; keep.
  - revert E. apply (λ H, keeps_guarded _ _ H _ _ _ Hs). apply keeps_get_command; intros; keep.
    all: unfold net_word64, net_word32; keep.
  - revert E. apply (λ H, keeps_guarded _ _ H _ _ _ Hs). apply keeps_get_command; intros; keep.
  - revert E. apply (λ H, keeps_guarded _ _ H _ _ _ Hs). apply keeps_get_command; intros; keep.
  - revert E. apply (λ H, keeps_guarded _ _ H _ _ _ Hs). apply keeps_get_command; intros; keep.
Qed.

(** ** Reporting a disconnection *)

Lemma log_stable n : stable (λ s, notified s = n).
Proof.
  split.
  - intros s ctx Hs _. exact Hs.
  - intros x s Hs. exact Hs.
  - intros t s Hs. unfold exword_handle_interrupt.
    destruct t; first [exact Hs | destruct (_ =? _); exact Hs].
  - intros b s Hs. exact Hs.
Qed.

Lemma keeps_disconnect_log n :
  keeps (λ s, notified s = n) (exword_disconnect fuel read_fuel conv_fuel).
Proof.
  unfold exword_disconnect. apply keeps_bind; [keep|]. intros [|]; [|keep].
  apply keeps_upd2; [intros s Hs; by case_match|].
  apply keeps_bind; [keep|]. intros [o|]; [|keep].
  apply keeps_bind; [by apply keeps_cancel, log_stable|intros _].
  apply keeps_bind; [by apply keeps_request, log_stable|intros _].
  apply keeps_bind; [by apply keeps_upd|intros _; keep].
Qed.

Lemma closed_cleared s : closed s → Z.land (status s) (Z.lnot 0x07) = 0x80.
Proof.
  intros [[Hst _] Hd]. unfold exword_is_connected in Hd.
  status_cases Hst; rewrite Est in *; done.
Qed.

(** A handle with nothing to report. *)
Lemma poll_quiet s :
  exword_is_connected s = false → Z.land (status s) 0x07 = 0 →
  exword_poll_disconnect fuel read_fuel conv_fuel s = Ok tt s.
Proof.
  intros Hc Hr. unfold exword_poll_disconnect, mbind, res_mbind, res_get. rewrite Hc.
  unfold mret, res_mret. rewrite Hr. done.
Qed.

Lemma poll_run s r s' :
  session_ok s → exword_poll_disconnect fuel read_fuel conv_fuel s = Ok r s' →
  ∃ s1, (if exword_is_connected s then handle_events s = Ok tt s1 else s1 = s) ∧
    let reason := Z.land (status s1) 0x07 in
    if reason =? 0 then s' = s1
    else status s' = 0x80 ∧
         notified s' = notified s1 ++ (if disconnect_callback s1 then [reason] else []).
Proof.
  intros Hs. unfold exword_poll_disconnect. unfold mbind at 1, res_mbind at 1. unfold res_get at 1.
  unfold mbind at 1, res_mbind at 1.
  assert (∀ s1, session_ok s1 →
    (st ← res_get status;
     if negb (Z.land st 7 =? 0)
     then res_upd (send_disconnect_event (Z.land st 7));;
          exword_disconnect fuel read_fuel conv_fuel;;
          res_upd (λ s0, set_status (Z.land (status s0) (Z.lnot 7)) s0)
     else mret tt) s1 = Ok r s' →
    let reason := Z.land (status s1) 0x07 in
    if reason =? 0 then s' = s1
    else status s' = 0x80 ∧
         notified s' = notified s1 ++ (if disconnect_callback s1 then [reason] else [])) as Hgo.
  { intros s1 Hs1. cbv zeta. unfold mbind at 1, res_mbind at 1. unfold res_get at 1.
    destruct (Z.eqb_spec (Z.land (status s1) 7) 0); cbn [negb]; [by intros [= _ <-]|].
    unfold mbind at 1, res_mbind at 1. unfold res_upd at 1. unfold mbind at 1, res_mbind at 1.
    set (s2 := send_disconnect_event _ s1).
    assert (session_ok s2) as Hs2
      by (destruct Hs1; subst s2; unfold send_disconnect_event; case_match; by split).
    assert (notified s2 = notified s1 ++ (if disconnect_callback s1
                                          then [Z.land (status s1) 7] else [])) as Hn2.
    { subst s2. unfold send_disconnect_event. case_match; [done|by rewrite app_nil_r]. }
    clearbody s2.
    destruct (exword_disconnect fuel read_fuel conv_fuel s2) as [a s3|] eqn:Ed; [|done].
    unfold res_upd. intros [= _ <-].
    pose proof (closed_cleared _ (disconnect_closed _ _ _ Hs2 Ed)) as Hst.
    pose proof (keeps_disconnect_log (notified s2) _ _ _ eq_refl Ed) as Hn3. cbv beta in Hn3.
    split; [exact Hst|]. cbn [notified set_status]. congruence. }
  destruct (exword_is_connected s).
  - destruct (handle_events s) as [[] s1|] eqn:Eh; [|done]. intros E. exists s1.
    split; [done|]. apply Hgo; [|done].
    exact (keeps_handle_events _ session_stable _ _ _ Hs Eh).
  - intros E. exists s. split; [done|]. by apply Hgo.
Qed.
End Session.

(** ** Sending a file *)

(** A device that has no interrupt to report. *)
#[export] Instance link_quiet : Interrupts link := λ u, ([], u).

Lemma set_same_ctx {U} (s : exword_t U) ctx : obex_ctx s = Some ctx → set_obex_ctx (Some ctx) s = s.
Proof. destruct s; cbn. by intros ->. Qed.

Section SendFile.
Context `{AllocOk} `{Iconv}.
Context (fuel read_fuel conv_fuel : nat).
Abbreviation S := (exword_t link).

(** A connected handle on an idle device, without a progress callback for
    uploads. *)
Record uploadable (k : Z) (ctx : obex_t link) (s : S) : Prop := {
  up_ctx : obex_ctx s = Some ctx;
  up_status : status s = 0;
  up_cb : put_file_cb (xfer s) = false;
  up_tx : buf_ok (tx_msg ctx);
  up_cap : mtu_tx ctx + 13 <= zlen (buffer (tx_msg ctx));
  up_mtu : 4 < mtu_tx ctx < 2 ^ 16;
  up_seq : is_u 8 (seq_num ctx);
  up_idle : ∀ o, idle k (Conn ctx o);
  up_reads : l_reads (usb ctx) = [];
}.

(** What adding a header does to an object that is being filled. *)
Lemma add_header_ok ctx (s : S) o hi hv n bytes :
  generous → obex_ctx s = Some ctx → hi ≠ OBEX_HDR_EMPTY → encode_header hi hv n = Some bytes →
  bytes_ok bytes → 0 <= n < 2 ^ 29 → 4 <= mtu_tx ctx < 2 ^ 16 → 0 <= totallen o < 2 ^ 30 →
  (hi = OBEX_HDR_BODY ∨ zlen bytes <= mtu_tx ctx - 4) →
  ∃ e, elem_abs e (queued hi bytes) ∧
    add_header o hi hv n s
    = Ok (set_tx_headerq (tx_headerq o ++ [e]) (set_totallen (totallen o + zlen bytes) o)) s.
Proof.
  intros Hg Hctx Hne He Hb Hn Hm Ht Hfit.
  pose proof (addheader_run (Conn ctx o) hi hv n 0 bytes Hg Hne He Hb Hn Hm Ht) as Hadd.
  assert (refused hi n 0 (Conn ctx o) = false) as Href.
  { unfold refused, room_for. change (Z.land 0 OBEX_FL_FIT_ONE_PACKET =? 0) with true.
    cbn [negb]. rewrite orb_false_r. cbn [self].
    rewrite <- (encode_header_length hi hv n bytes) by (done || lia).
    destruct Hfit as [->|Hfit]; [done|]. apply andb_false_intro2, Z.ltb_ge. lia. }
  rewrite Href in Hadd. destruct Hadd as (e & Ha & E); [done|]. exists e. split; [done|].
  unfold add_header, on_object, mbind, res_mbind. rewrite Hctx, E. cbn [object self].
  by rewrite (set_same_ctx s ctx Hctx).
Qed.

Definition name_bytes (u : list Z) : list Z := OBEX_HDR_NAME :: be_encode 2 (zlen u + 3) ++ u.
Definition length_bytes (n : Z) : list Z := OBEX_HDR_LENGTH :: be_encode 4 n.

Lemma name_bytes_length u : zlen (name_bytes u) = zlen u + 3.
Proof. unfold name_bytes. rewrite zlen_cons, zlen_app. change (zlen (be_encode 2 _)) with 2. lia. Qed.

(** The object of an upload. *)
Lemma upload_headers ctx (s : S) o u data :
  generous → obex_ctx s = Some ctx → 4 < mtu_tx ctx < 2 ^ 16 → bytes_ok u → bytes_ok data →
  zlen u + 16 <= mtu_tx ctx → zlen data < 2 ^ 29 → tx_headerq o = [] → totallen o = 0 →
  ∃ q t, add_headers o [name_header u; length_header (zlen data); body_header data] s
         = Ok (set_tx_headerq q (set_totallen t o)) s ∧
    Forall2 elem_abs q (map HBytes [name_bytes u; length_bytes (zlen data)] ++ [HBody data]).
Proof.
  intros Hg Hctx Hm Hu Hd Hfit Hdl Hq Ht. pose proof (zlen_nonneg u) as Hu0.
  pose proof (zlen_nonneg data) as Hd0. unfold name_header, length_header, body_header.
  cbn [add_headers]. rewrite u32_small by (unfold is_u; lia).
  assert (∀ l : list Z, 0 <= zlen l < 2 ^ 29 → ∀ hi : Z, Z.land hi OBEX_HDR_TYPE_MASK = 0 ∨ Z.land hi OBEX_HDR_TYPE_MASK = 0x40 →
    encode_header hi (bs l) (zlen l) = Some (hi :: be_encode 2 (u16 (zlen l + 3)) ++ l)) as Henc.
  { intros l Hl hi Hhi. unfold encode_header. cbv zeta.
    assert ((Z.land hi OBEX_HDR_TYPE_MASK =? OBEX_HDR_TYPE_UINT32) = false) as ->
      by (destruct Hhi as [-> | ->]; done).
    assert ((Z.land hi OBEX_HDR_TYPE_MASK =? OBEX_HDR_TYPE_UINT8) = false) as ->
      by (destruct Hhi as [-> | ->]; done).
    rewrite (proj2 (Z.leb_le _ _)) by lia. unfold sizeof_unicode_hdr.
    by rewrite take_short by lia. }
  assert (∀ hi l (b : Z), is_u 8 hi → bytes_ok l → bytes_ok (hi :: be_encode 2 b ++ l)) as Hbytes.
  { intros hi l b Hhi Hl. constructor; [done|]. apply Forall_app. split; [apply be_encode_bytes|done]. }
  destruct (add_header_ok ctx s o OBEX_HDR_NAME (bs u) (zlen u) (name_bytes u)) as (e1 & Ha1 & E1);
    try done; try lia.
  { rewrite Henc by (lia || by left). unfold name_bytes. by rewrite u16_small by (unfold is_u; lia). }
  { by apply Hbytes. }
  { right. rewrite name_bytes_length. lia. }
  rewrite (bind_ok _ _ _ _ _ E1). set (o1 := set_tx_headerq _ _).
  assert (totallen o1 = zlen u + 3) as Ht1 by (cbn; rewrite Ht, name_bytes_length; lia).
  destruct (add_header_ok ctx s o1 OBEX_HDR_LENGTH (bq4 (zlen data)) 0 (length_bytes (zlen data)))
    as (e2 & Ha2 & E2); try done; try lia.
  { constructor; [done|]. apply be_encode_bytes. }
  { right. change (zlen (length_bytes _)) with 5. lia. }
  rewrite (bind_ok _ _ _ _ _ E2). set (o2 := set_tx_headerq (tx_headerq o1 ++ [e2]) _).
  assert (totallen o2 = zlen u + 8) as Ht2.
  { cbn [totallen o2 set_tx_headerq set_totallen]. rewrite Ht1. change (zlen (length_bytes _)) with 5. lia. }
  destruct (add_header_ok ctx s o2 OBEX_HDR_BODY (bs data) (zlen data)
      (OBEX_HDR_BODY :: be_encode 2 (u16 (zlen data + 3)) ++ data)) as (e3 & Ha3 & E3); try done; try lia.
  { rewrite Henc by (lia || by right). done. }
  { by apply Hbytes. }
  rewrite (bind_ok _ _ _ _ _ E3).
  exists (tx_headerq o ++ [e1] ++ [e2] ++ [e3]). eexists. split.
  { unfold mret, res_mret. f_equal. cbn [o1 o2 tx_headerq set_tx_headerq set_totallen].
    rewrite <- !(assoc (++)). reflexivity. }
  rewrite Hq. cbn [app map]. repeat (apply Forall2_cons; split); [done|done| |constructor].
  exact Ha3.
Qed.

Definition silent (s : S) : Prop := put_file_cb (xfer s) = false.

Lemma callbacks_harmless :
  harmless (Some (exword_handle_callbacks conv_fuel)) OBEX_CMD_PUT silent.
Proof.
  intros s c Hs Ho. exists s. split; [done|]. unfold exword_handle_callbacks.
  rewrite (bind_ok _ _ _ (object c) c) by by destruct c. rewrite Ho. unfold silent in Hs.
  rewrite Hs. done.
Qed.

(** The guards of a connected handle. *)
Lemma guarded_ok {A} (fail : Z → A) m (s : S) : status s = 0 → guarded fail m s = m s.
Proof.
  intros Hst. unfold guarded. rewrite (bind_ok _ _ _ s s) by done.
  unfold exword_is_connected. by rewrite Hst.
Qed.

(** The object of an upload, ready to send. *)
Lemma upload_sendable k ctx (s : S) u data o q t :
  generous → uploadable k ctx s → bytes_ok u → zlen u + 16 <= mtu_tx ctx →
  o = Object [] [] [] None None None OBEX_CMD_PUT OBEX_CMD_PUT (Z.lor OBEX_CMD_PUT OBEX_FINAL) 0 0 0 →
  Forall2 elem_abs q (map HBytes [name_bytes u; length_bytes (zlen data)] ++ [HBody data]) →
  sendable [name_bytes u; length_bytes (zlen data)] data k
    (Conn ctx (set_tx_headerq q (set_totallen t o))).
Proof.
  intros Hg [? ? ? ? ? ? ? ? ?] Hu Hfit -> Hq.
  pose proof (zlen_nonneg u). pose proof (name_bytes_length u) as Hn.
  split; cbn [self object]; try done.
  - split; cbn [self object]; try done.
    + change (zlen (nonhdr _)) with 0. cbn. unfold zlen in *. simpl. lia.
    + repeat (apply Forall_cons; split); [| |done|constructor]; cbn [within].
      * lia.
      * change (zlen (length_bytes _)) with 5. lia.
  - cbn [concat]. rewrite app_nil_r, zlen_app, Hn. change (zlen (length_bytes _)) with 5. lia.
Qed.

Lemma send_file_run k ctx (s : S) name u data rf :
  generous → uploadable k ctx s → bytes_ok u → bytes_ok data → zlen u + 16 <= mtu_tx ctx →
  k + 4 * (zlen data + 1) <= 2 ^ 29 →
  convert_from_locale conv_fuel (c_string name) s = Ok (Some u) s →
  ∃ parts s' ctx', exword_send_file (Datatypes.S (length data)) (Datatypes.S rf) conv_fuel name data s
                   = Ok EXWORD_SUCCESS s' ∧
    obex_ctx s' = Some ctx' ∧ status s' = 0 ∧ concat parts = data ∧ parts ≠ [] ∧
    let ps := body_packets (seq_num ctx) OBEX_CMD_PUT (Z.lor OBEX_CMD_PUT OBEX_FINAL)
                (name_bytes u ++ length_bytes (zlen data)) parts in
    l_sent (usb ctx') = l_sent (usb ctx) ++ ps ∧ Forall (λ p, zlen p <= mtu_tx ctx) ps.
Proof.
  intros Hg Hup Hu Hd Hfit Hk Econv. pose proof Hup as [Hctx Hst Hcb ? ? Hm ? Hidle ?].
  pose proof (zlen_nonneg data) as Hdn.
  set (o := Object [] [] [] None None None OBEX_CMD_PUT OBEX_CMD_PUT
              (Z.lor OBEX_CMD_PUT OBEX_FINAL) 0 0 0).
  assert (0 <= k) as Hk0.
  { destruct (Hidle o) as [Hok _ Hh _]. pose proof (bk_head _ Hok). lia. }
  destruct (upload_headers ctx s o u data) as (q & t & Eadd & Hq); try done; [lia|].
  set (c := Conn ctx (set_tx_headerq q (set_totallen t o))).
  pose proof (upload_sendable k ctx s u data o q t Hg Hup Hu Hfit eq_refl Hq) as Hs.
  destruct (request_loop (Some (exword_handle_callbacks conv_fuel)) silent (length data) _ data k
    c s rf Hg Hs) as (parts & c' & d' & Hd' & Er & Hb & Hne & Hsent);
    [lia|unfold zlen in *; lia|apply callbacks_harmless|exact Hcb|].
  cbn [concat] in Hsent. rewrite app_nil_r in Hsent.
  exists parts, (set_obex_ctx (Some (self c')) (set_xfer (xfer d') s)), (self c').
  split; [|by rewrite <- Hst].
  unfold exword_send_file. rewrite guarded_ok, (bind_ok _ _ _ _ _ Econv) by done.
  unfold send_command. rewrite (bind_ok _ _ _ (Some o) s).
  2:{ unfold new_object. rewrite Hctx. unfold obex_object_new.
      by rewrite Hg by (unfold sizeof_obex_object; lia). }
  unfold run_command. rewrite (bind_ok _ _ _ _ _ Eadd).
  rewrite (bind_ok _ _ _ (OBEX_RSP_SUCCESS, object c')
    (set_obex_ctx (Some (self c')) (set_xfer (xfer d') s))); [done|].
  unfold request. rewrite (bind_ok _ _ _ s s) by done.
  rewrite (bind_ok _ _ _ (OBEX_RSP_SUCCESS, d', object c') (set_obex_ctx (Some (self c')) s)).
  2:{ unfold on_object. rewrite Hctx. fold c. by rewrite Er. }
  cbv iota beta. rewrite (bind_ok _ _ _ tt (set_xfer (xfer d') (set_obex_ctx (Some (self c')) s)))
    by done.
  destruct c' as [[] ?]. done.
Qed.
End SendFile.

(** ** Conversions end *)

(** A stateless encoding: every input byte becomes at most four bytes, and the
    conversion stops where the output has no room for the next one. *)
Record encodes `{Iconv} (cd : iconv_t) (enc : Z → list Z) : Prop := {
  en_size : ∀ b, zlen (enc b) <= 4;
  en_step : ∀ l room, 0 <= room → ∃ pre rest,
    l = pre ++ rest ∧ zlen (concat (map enc pre)) <= room ∧
    match rest with
    | [] => iconv cd l room = (Converted, [], concat (map enc pre), cd)
    | b :: _ => iconv cd l room = (E2BIG, rest, concat (map enc pre), cd) ∧
                room - zlen (concat (map enc pre)) < zlen (enc b)
    end;
  en_reset : ∀ room, iconv_reset cd room = [];
}.

Section Convert.
Context `{AllocOk} `{Iconv} {T : Type}.

(** A turn that converts nothing has less than four bytes of room, and the next
    turn has two more. *)
Lemma convert_loop_ok cd enc n out l outlen (s : T) :
  generous → encodes cd enc → zlen out <= outlen →
  3 * zlen l + (2 - Z.min 2 ((outlen - zlen out) / 2)) < Z.of_nat n →
  outlen + 2 * zlen l * Z.of_nat n <= 2 ^ 30 →
  convert_loop n cd out l outlen s = Ok (Some (out ++ concat (map enc l))) s.
Proof.
  intros Hg He. revert out l outlen. induction n as [|n IH]; intros out l outlen Hout Hn Hmem.
  { pose proof (zlen_nonneg l). lia. }
  cbn [convert_loop].
  destruct (en_step _ _ He l (outlen - zlen out)) as (pre & rest & -> & Hroom & Hcase); [lia|].
  pose proof (zlen_nonneg pre) as Hp. pose proof (zlen_nonneg rest) as Hr.
  pose proof (zlen_nonneg out). rewrite map_app, concat_app. rewrite zlen_app in *.
  destruct rest as [|b rest].
  - rewrite app_nil_r in Hcase |- *. rewrite Hcase. cbn [map concat].
    by rewrite (en_reset _ _ He), !app_nil_r.
  - destruct Hcase as [-> Hfull]. pose proof (en_size _ _ He b).
    rewrite zlen_cons in *. pose proof (zlen_nonneg rest).
    rewrite u64_small by (unfold is_u; nia). rewrite Hg by nia.
    rewrite IH.
    + by rewrite (assoc (++)).
    + rewrite zlen_app. lia.
    + rewrite zlen_app, zlen_cons.
      set (w := zlen (concat (map enc pre))) in *. set (r := zlen rest) in *.
      replace (outlen + (1 + r) * 2 - (zlen out + w))
        with ((outlen - zlen out - w) + (1 + r) * 2) by lia.
      rewrite Z.div_add by lia.
      destruct (Z.eq_dec (zlen pre) 0) as [E0|E0]; [|].
      * assert (w = 0) as -> by (subst w; by rewrite (nil_length_inv pre) by (unfold zlen in E0; lia)).
        rewrite Z.sub_0_r in *.
        assert ((outlen - zlen out) / 2 < 2) by (apply Z.div_lt_upper_bound; lia).
        assert (0 <= (outlen - zlen out) / 2) by (apply Z.div_pos; lia). lia.
      * assert (0 <= (outlen - zlen out - w) / 2) by (apply Z.div_pos; lia).
        assert (0 <= (outlen - zlen out) / 2) by (apply Z.div_pos; lia). lia.
    + rewrite zlen_cons. nia.
Qed.

End Convert.

(** ** Answers *)

(** A directory entry on the wire. *)
Definition entry_bytes (e : Z * list Z) : list Z :=
  be_encode 2 (zlen e.2 + 3) ++ e.1 :: e.2.
Definition entry_ok (e : Z * list Z) : Prop := is_u 8 e.1 ∧ zlen e.2 + 3 < 2 ^ 16.
Definition entry_value (e : Z * list Z) : exword_dirent_t := Dirent (zlen e.2 + 3) e.1 e.2.

Section Answers.
Context `{AllocOk} {U : Type} (big : bool).

Lemma value_bytes_ok l off n (s : exword_t U) :
  (off + n <= length l)%nat → value_bytes l off n s = Ok (slice off n l) s.
Proof. intros Hn. unfold value_bytes. by rewrite decide_True. Qed.

Lemma be_decode_two n : 0 <= n < 2 ^ 16 → be_decode (be_encode 2 n) = n.
Proof. intros Hn. rewrite be_decode_encode. by apply Z.mod_small. Qed.

Lemma parse_entries_ok es rest (s : exword_t U) :
  generous → Forall entry_ok es →
  parse_entries (length es) (concat (map entry_bytes es) ++ rest) s = Ok (map entry_value es) s.
Proof.
  intros Hg. induction 1 as [|[f name] es [Hf Hn] Hes IH]; [done|]. cbn [fst snd] in *.
  pose proof (zlen_nonneg name).
  cbn [length map concat]. rewrite <- (assoc (++)). unfold entry_bytes at 1. cbn [fst snd].
  cbn [parse_entries]. set (tl := concat (map entry_bytes es) ++ rest) in *.
  set (l := (be_encode 2 (zlen name + 3) ++ f :: name) ++ tl).
  assert (length l = (3 + length name + length tl)%nat) as Hl.
  { subst l. rewrite !length_app, be_encode_length. simpl. lia. }
  rewrite (bind_ok _ _ _ _ _ (value_bytes_ok l 0 2 s ltac:(lia))).
  change (slice 0 2 l) with (be_encode 2 (zlen name + 3)). rewrite be_decode_two by lia. cbv zeta.
  rewrite (bind_ok _ _ _ _ _ (value_bytes_ok l 2 1 s ltac:(lia))).
  change (slice 2 1 l) with [f]. change (be_decode [f]) with f.
  rewrite (proj2 (Z.ltb_ge _ _)), Hg by lia. cbn [orb negb].
  replace (zlen name + 3 - 3) with (zlen name) by lia.
  assert (Z.to_nat (zlen name) = length name) as -> by (unfold zlen; lia).
  assert (Z.to_nat (zlen name + 3) = (3 + length name)%nat) as -> by (unfold zlen; lia).
  rewrite (bind_ok _ _ _ _ _ (value_bytes_ok l 3 (length name) s ltac:(lia))).
  assert (slice 3 (length name) l = name) as -> by apply (take_app_length name tl).
  assert (drop (3 + length name) l = tl) as -> by apply (drop_app_length name tl).
  by rewrite (bind_ok _ _ _ _ _ IH).
Qed.
End Answers.

(** ** Properties of the handle *)

(** C16: after any sequence of calls of the interface and completed interrupt
    transfers, starting from a fresh handle and whatever the device, the system
    and the progress callbacks do, the status is one of the six the code
    distinguishes, with at most one reason for a disconnection, and a handle
    that says it is connected has a transport and an interrupt transfer. *)
Theorem session_invariant `{Alloc} `{Iconv} {U : Type} `{Usb U} `{Interrupts U}
    (fuel read_fuel conv_fuel : nat) (big_endian char_signed : bool) (s0 s : exword_t U) :
  exword_init = Some s0 → rtc (call fuel read_fuel conv_fuel big_endian char_signed) s0 s →
  session_ok s.
Proof.
  intros Hi Hr. assert (session_ok s0) as Hs0.
  { revert Hi. unfold exword_init. case_match; [|done]. intros [= <-]. split; [|done].
    by apply (bool_decide_unpack (valid_status 0x80)). }
  clear Hi. induction Hr as [|s0 s1 s Hc Hr IH]; [done|].
  by apply IH, (call_session _ _ _ _ _ _ _ Hc).
Qed.

(** A poll of a closed handle always returns; a poll that finds a reason for
    a disconnection, be it pending or delivered by the events it handles, tells
    the registered callback that reason exactly once and leaves the handle
    closed without a reason, so that the next poll changes nothing; without a
    reason only the events take effect. *)
Theorem poll_reports_once `{Alloc} `{Iconv} {U : Type} `{Usb U} `{Interrupts U}
    (fuel read_fuel conv_fuel : nat) (s : exword_t U) :
  session_ok s →
  let poll := exword_poll_disconnect fuel read_fuel conv_fuel in
  (exword_is_connected s = false → ∃ s', poll s = Ok tt s') ∧
  ∀ r s', poll s = Ok r s' →
    ∃ s1, (if exword_is_connected s then handle_events s = Ok tt s1 else s1 = s) ∧
      let reason := Z.land (status s1) 0x07 in
      if reason =? 0 then s' = s1
      else status s' = 0x80 ∧
           notified s' = notified s1 ++ (if disconnect_callback s1 then [reason] else []) ∧
           poll s' = Ok tt s'.
Proof.
  intros Hs poll. split.
  - intros Hc. unfold poll, exword_poll_disconnect, mbind, res_mbind, res_get. rewrite Hc.
    unfold mret, res_mret. destruct (Z.land (status s) 7 =? 0); [by exists s|]. cbn [negb].
    unfold res_upd, exword_disconnect, mbind, res_mbind, res_get.
    assert (exword_is_connected (send_disconnect_event (Z.land (status s) 7) s) = false) as ->
      by (unfold send_disconnect_event; by destruct (disconnect_callback s)).
    by eexists.
  - intros r s' E. destruct (poll_run fuel read_fuel conv_fuel s r s' Hs E) as (s1 & Hev & Hcase).
    exists s1. split; [done|]. cbv zeta in *. destruct (_ =? 0); [done|].
    destruct Hcase as [Hst Hn]. split; [done|]. split; [done|].
    apply poll_quiet; unfold exword_is_connected; by rewrite Hst.
Qed.

(** Converting a string ends, for an encoder that makes at most four bytes
    of each input byte, within three turns per byte and three more, although a
    turn may convert nothing because the output has no room for the next
    character; the result is the complete conversion. *)
Theorem convert_complete `{AllocOk} `{Iconv} {T : Type} (cd : iconv_t) (enc : Z → list Z)
    (src : list Z) (s : T) :
  generous → encodes cd enc → zlen src <= 2 ^ 13 →
  convert (3 * length src + 3) cd src s = Ok (Some (concat (map enc src))) s.
Proof.
  intros Hg He Hl. pose proof (zlen_nonneg src). unfold convert. rewrite Hg by lia.
  rewrite (convert_loop_ok cd enc); try done; rewrite ?zlen_nil, ?Z.sub_0_r; try done.
  - assert (0 <= zlen src / 2) by (apply Z.div_pos; lia). unfold zlen in *. lia.
  - unfold zlen in *. nia.
Qed.

(** Sending a file over a connected handle to a device that acknowledges
    every packet returns SUCCESS and keeps the handle connected; what went out
    is the converted name, the length and the file's bytes, cut into packets of
    at most the negotiated size of which the last alone is final. *)
Theorem send_file_delivers `{AllocOk} `{Iconv} (cd : iconv_t) (enc : Z → list Z) (k : Z)
    (ctx : obex_t link) (s : exword_t link) (name data : list Z) (read_fuel : nat) :
  generous → iconv_open false = Some cd → encodes cd enc → (∀ b, bytes_ok (enc b)) →
  uploadable k ctx s → bytes_ok data → zlen name < 2 ^ 12 →
  let u := concat (map enc (c_string name)) in
  zlen u + 16 <= mtu_tx ctx → k + 4 * (zlen data + 1) <= 2 ^ 29 →
  ∃ parts s' ctx',
    exword_send_file (S (length data)) (S read_fuel) (3 * length (c_string name) + 3) name data s
    = Ok EXWORD_SUCCESS s' ∧
    obex_ctx s' = Some ctx' ∧ status s' = 0 ∧ concat parts = data ∧ parts ≠ [] ∧
    let ps := body_packets (seq_num ctx) OBEX_CMD_PUT (Z.lor OBEX_CMD_PUT OBEX_FINAL)
                (name_bytes u ++ length_bytes (zlen data)) parts in
    l_sent (usb ctx') = l_sent (usb ctx) ++ ps ∧ Forall (λ p, zlen p <= mtu_tx ctx) ps.
Proof.
  intros Hg Ho He Hb Hup Hd Hn u Hfit Hk. apply (send_file_run _ k); try done.
  - subst u. clear Hfit. induction (c_string name) as [|b l IH]; [constructor|].
    cbn [map concat]. apply Forall_app. split; [apply Hb|exact IH].
  - unfold convert_from_locale. rewrite Ho. apply convert_complete; try done.
    unfold c_string. rewrite zlen_app. change (zlen [0]) with 1. lia.
Qed.

(** an eight-byte number of an answer is read as the big-endian number its
    bytes spell, on a host of either byte order. *)
Theorem net_word_host_independent (big : bool) (w : list Z) :
  bytes_ok w → length w = 8%nat → ntohll big (host_word big w) = be_decode w.
Proof.
  intros Hw Hl. unfold ntohll. destruct big; [done|].
  change (host_bytes false 8 1 !!! 7%nat =? 1) with false. cbv iota.
  unfold host_bytes, host_word.
  assert (be_encode 8 (be_decode (rev w)) = rev w) as ->.
  { rewrite <- Hl, <- length_rev at 1. apply be_encode_decode. unfold bytes_ok in *.
    by apply Forall_rev. }
  rewrite rev_involutive.
  do 9 (destruct w as [|? w]; try discriminate Hl). done.
Qed.

(** The directory listing of an answer decodes to the entries it encodes,
    each with its size, flags and name, whatever follows them. *)
Theorem list_decodes `{AllocOk} {U : Type} (es : list (Z * list Z)) (rest : list Z)
    (s : exword_t U) :
  generous → Forall entry_ok es → zlen es < 2 ^ 16 →
  parse_list (be_encode 2 (zlen es) ++ concat (map entry_bytes es) ++ rest) s
  = Ok (map entry_value es) s.
Proof.
  intros Hg Hes Hl. pose proof (zlen_nonneg es). unfold parse_list.
  set (tl := concat (map entry_bytes es) ++ rest).
  set (l := be_encode 2 (zlen es) ++ tl).
  assert (length l = (2 + length tl)%nat) as Hll by (subst l; by rewrite length_app, be_encode_length).
  rewrite (bind_ok _ _ _ _ _ (value_bytes_ok l 0 2 s ltac:(lia))).
  change (slice 0 2 l) with (be_encode 2 (zlen es)). rewrite be_decode_two by lia. cbv zeta.
  rewrite Hg by (unfold sizeof_dirent; lia).
  assert (Z.to_nat (zlen es) = length es) as -> by (unfold zlen; lia).
  change (drop 2 l) with tl. by apply parse_entries_ok.
Qed.

(** ** A small session

    Latin text as sixteen-bit characters, packets of 24 bytes. *)
Definition utf16_unit (b : Z) : list Z := [0; u8 b].
Definition utf16 : Iconv :=
  {| iconv_t := unit;
     iconv_open := λ _, Some tt;
     iconv := λ cd l room,
       let fit := Z.to_nat (room / 2) in
       (if (length l <=? fit)%nat then Converted else E2BIG, drop fit l,
        concat (map utf16_unit (take fit l)), cd);
     iconv_reset := λ _ _, [] |}.

Lemma utf16_unit_bytes b : bytes_ok (utf16_unit b).
Proof.
  constructor; [done|]. constructor; [|constructor]. apply Z.mod_pos_bound. lia.
Qed.

Lemma utf16_length l : zlen (concat (map utf16_unit l)) = 2 * zlen l.
Proof.
  induction l as [|b l IH]; [done|]. cbn [map concat].
  rewrite zlen_app, zlen_cons, IH. change (zlen (utf16_unit b)) with 2. lia.
Qed.

Lemma utf16_encodes : @encodes utf16 tt utf16_unit.
Proof.
  split; [done| |done]. intros l room Hroom. set (fit := Z.to_nat (room / 2)).
  assert (0 <= room / 2) by (apply Z.div_pos; lia).
  pose proof (Z.mul_div_le room 2 ltac:(lia)).
  pose proof (Z.mul_succ_div_gt room 2 ltac:(lia)).
  exists (take fit l), (drop fit l). split; [by rewrite take_drop|].
  rewrite utf16_length. unfold zlen at 1. rewrite length_take. split; [lia|].
  destruct (Nat.leb_spec (length l) fit) as [Hle|Hgt].
  - rewrite drop_ge by done. cbn. fold fit. rewrite (proj2 (Nat.leb_le _ _)) by done.
    by rewrite drop_ge.
  - destruct (drop fit l) as [|b rest] eqn:Ed.
    { apply (f_equal length) in Ed. rewrite length_drop in Ed. simpl in Ed. lia. }
    rewrite <- Ed. cbn. fold fit. rewrite (proj2 (Nat.leb_gt _ _)) by done. split; [done|].
    unfold zlen at 1. rewrite length_take. change (zlen (utf16_unit b)) with 2. lia.
Qed.

Definition closed_handle : exword_t link :=
  Exword None 0 0x84 (Xfer false false None 0 0 []) true [] None.

Definition open_handle : exword_t link :=
  Exword (Some (Obex (Link [] []) 0x11 0 8 24 65535 (empty_buf 64) (empty_buf 32) 0)) 0 0
    (Xfer false false None 0 0 []) true [] (Some true).

Lemma session_invariant_witness :
  session_ok (exword_handle_interrupt LIBUSB_TRANSFER_NO_DEVICE
    (exword_register_disconnect_callback true
      (exword_register_xfer_callbacks true false
        (Exword (U := link) None 0 0x80 (Xfer false false None 0 0 []) false [] None)))).
Proof.
  eapply (@session_invariant ample utf16 link link_usb link_quiet 1 1 1 true true); [reflexivity|].
  eapply rtc_l; [apply call_register|]. eapply rtc_l; [apply call_interrupt|]. apply rtc_refl.
Defined.

Lemma poll_reports_once_witness :
  ∃ s', @exword_poll_disconnect ample utf16 link link_usb link_quiet 1 1 1 closed_handle = Ok tt s' ∧
    status s' = 0x80 ∧ notified s' = [4] ∧
    @exword_poll_disconnect ample utf16 link link_usb link_quiet 1 1 1 s' = Ok tt s'.
Proof.
  assert (session_ok closed_handle) as Hok.
  { split; [|done]. by apply (bool_decide_unpack (valid_status 0x84)). }
  destruct (@poll_reports_once ample utf16 link link_usb link_quiet 1 1 1 closed_handle Hok)
    as [Hret Hrun].
  destruct (Hret eq_refl) as [s' E]. exists s'. split; [exact E|].
  destruct (Hrun tt s' E) as (s1 & Es1 & Hcase).
  change (s1 = closed_handle) in Es1. subst s1. exact Hcase.
Defined.

Lemma convert_complete_witness :
  @convert ample utf16 9 unit tt [65; 0] tt = Ok (Some [0; 65; 0; 0]) tt.
Proof.
  exact (@convert_complete ample ample_ok utf16 unit tt utf16_unit [65; 0] tt
    ample_generous utf16_encodes ltac:(done)).
Defined.

Lemma open_uploadable :
  @uploadable 0 (Obex (Link [] []) 0x11 0 8 24 65535 (empty_buf 64) (empty_buf 32) 0) open_handle.
Proof.
  split; try done.
  - by apply empty_buf_ok.
  - intros o. split; try done; by apply empty_buf_ok.
Qed.

Lemma send_file_delivers_witness :
  ∃ parts s' ctx',
    @exword_send_file ample utf16 link link_usb link_quiet 4 1 9 [65] [1; 2; 3] open_handle
    = Ok 0 s' ∧
    obex_ctx s' = Some ctx' ∧ status s' = 0 ∧ concat parts = [1; 2; 3] ∧ parts ≠ [] ∧
    let ps := body_packets 0 2 0x82 [1; 0; 7; 0; 65; 0; 0; 0xc3; 0; 0; 0; 3] parts in
    l_sent (usb ctx') = ps ∧ Forall (λ p, zlen p <= 24) ps.
Proof.
  refine (@send_file_delivers ample ample_ok utf16 tt utf16_unit 0
    (Obex (Link [] []) 0x11 0 8 24 65535 (empty_buf 64) (empty_buf 32) 0) open_handle [65] [1; 2; 3] 0
    ample_generous eq_refl utf16_encodes utf16_unit_bytes open_uploadable _ _ _ _);
    done || compute_dec.
Defined.

Lemma net_word_host_independent_witness :
  ntohll false (host_word false [0; 0; 0; 1; 2; 3; 4; 5]) = 4328719365.
Proof. apply (net_word_host_independent false [0; 0; 0; 1; 2; 3; 4; 5]); done || compute_dec. Defined.

Lemma list_decodes_witness :
  @parse_list ample link [0; 2; 0; 5; 1; 97; 98; 0; 3; 0; 0xff] open_handle
  = Ok [Dirent 5 1 [97; 98]; Dirent 3 0 []] open_handle.
Proof.
  refine (@list_decodes ample ample_ok link [(1, [97; 98]); (0, [])] [0xff] open_handle
    ample_generous _ ltac:(done)).
  repeat (apply Forall_cons; split); try constructor; done.
Defined.
