(* ===== verification/Text.v ===== *)
(** * Text of C programs

    The bytes of string literals and what the conversions of [printf] give. *)

From Stdlib Require Import String Ascii.
From S2P Require Import Prelude.

(** The bytes of a literal, without the terminator. *)
Definition str (s : string) : list Z := map (λ c, Z.of_nat (nat_of_ascii c)) (list_ascii_of_string s).

(** The escapes of the strings of the source. *)
Fixpoint unescape (s : list Z) : list Z :=
  match s with
  | 92 :: 110 :: s => 10 :: unescape s
  | 92 :: 116 :: s => 9 :: unescape s
  | c :: s => c :: unescape s
  | [] => []
  end.
Definition c_str (l : list string) : list Z := concat (map (λ s, unescape (str s)) l).

(** [%u], [%lu], [%llu], and [%d] of a number that is not negative: 64 bits
    have at most 20 digits. *)
Fixpoint decimal_digits (fuel : nat) (n : Z) : list Z :=
  match fuel with
  | O => []
  | S fuel => (if n <? 10 then [] else decimal_digits fuel (n / 10)) ++ [48 + n mod 10]
  end.
Definition decimal (n : Z) : list Z := decimal_digits 20 n.

Lemma decimal_digits_length fuel k n :
  0 <= n < 10 ^ Z.of_nat (S k) → (length (decimal_digits fuel n) <= S k)%nat.
Proof.
  revert k n. induction fuel as [|fuel IH]; intros k n Hn; cbn [decimal_digits]; [cbn; lia|].
  rewrite length_app. cbn [length]. destruct (Z.ltb_spec n 10); [cbn; lia|].
  destruct k as [|k]; [change (10 ^ Z.of_nat 1) with 10 in Hn; lia|].
  assert (length (decimal_digits fuel (n / 10)) <= S k)%nat; [apply IH|lia].
  rewrite (Nat2Z.inj_succ (S k)), Z.pow_succ_r in Hn by lia.
  split; [apply Z.div_pos; lia|apply Z.div_lt_upper_bound; lia].
Qed.

(** [%02x], [%04x] and [%08x] of a number of that many digits. *)
Fixpoint hex0 (width : nat) (n : Z) : list Z :=
  match width with
  | O => []
  | S width =>
      let d := n mod 16 in
      hex0 width (n / 16) ++ [if d <? 10 then 48 + d else 87 + d]
  end.
