(* ===== verification/Util.v ===== *)
(** * libexword: helpers of the command line tool ([src/tools/libexword/src/util.c])

    Paths, short names, the table of storage devices and whole files.  The
    operating system is the class [Local].  [xmalloc] and [xrealloc] end the
    program when there is no memory; a read past a block is a [Fault]. *)

From Stdlib Require Import String Ascii.
From S2P Require Import Prelude Text.

(** ** Strings of C *)

(** The string that starts a block; [None] when the block has no terminator. *)
Fixpoint cstr (l : list Z) : option (list Z) :=
  match l with
  | [] => None
  | c :: l' => if c =? 0 then Some [] else s ← cstr l'; Some (c :: s)
  end.

(** [strcmp(a, l) == 0] and [strncmp(l, a, n) == 0] for a string [a] and the
    bytes of a block. *)
Fixpoint strcmp_eq (a l : list Z) : option bool :=
  match a, l with
  | _, [] => None
  | [], c :: _ => Some (c =? 0)
  | x :: a', c :: l' => if x =? c then strcmp_eq a' l' else Some false
  end.
Fixpoint strncmp_eq (n : nat) (l a : list Z) : option bool :=
  match n with
  | O => Some true
  | S n' =>
      match a, l with
      | _, [] => None
      | [], c :: _ => Some (c =? 0)
      | x :: a', c :: l' => if x =? c then strncmp_eq n' l' a' else Some false
      end
  end.

(** [strrchr(s, c)]: the rest of the string from its last [c]. *)
Fixpoint strrchr (s : list Z) (c : Z) : option (list Z) :=
  match s with
  | [] => None
  | x :: s' =>
      match strrchr s' c with
      | Some r => Some r
      | None => if x =? c then Some s else None
      end
  end.

(** ** Short file names *)

(** The table, whose zeros are the controls and the space and these
    characters. *)
Definition valid_sfn_chars (c : Z) : bool :=
  negb ((c <=? 32) || existsb (Z.eqb c) [34; 42; 43; 46; 47; 58; 59; 60; 61; 62; 63; 91; 92; 93; 124; 127]).

Definition is_valid_sfn (filename : list Z) : bool :=
  let ext := strrchr filename 46 in
  let base := match ext with
              | Some e => take (length filename - length e) filename
              | None => filename
              end in
  let ext := match ext with Some e => drop 1 e | None => [] end in
  if (8 <? zlen base) || (zlen base =? 0) || (3 <? zlen ext) then false
  else forallb valid_sfn_chars base && forallb valid_sfn_chars ext.

(** ** Paths *)

(** [mkpath(separator, base, ...)]: the parts up to the first null pointer. *)
Fixpoint add_parts (separator path : list Z) (parts : list (option (list Z))) : list Z :=
  match parts with
  | Some p :: parts => add_parts separator (path ++ separator ++ p) parts
  | _ => path
  end.
Definition mkpath {S} (separator : list Z) (base : option (list Z)) (parts : list (option (list Z)))
    : res S (list Z) :=
  base ← res_opt OutOfBounds base; mret (add_parts separator base parts).

Definition PATH_SEP : list Z := [47].
Definition BACKSLASH : list Z := [92].
Definition PATH_MAX : Z := 4096.

Definition EXWORD_REGION_JA : Z := 0x20.
Definition EXWORD_REGION_KR : Z := 0x40.
Definition EXWORD_REGION_IT : Z := 0x48.
Definition EXWORD_REGION_CN : Z := 0x60.
Definition EXWORD_REGION_IN : Z := 0x68.
Definition EXWORD_REGION_DE : Z := 0x80.
Definition EXWORD_REGION_ES : Z := 0xa0.
Definition EXWORD_REGION_FR : Z := 0xc0.
Definition EXWORD_REGION_RU : Z := 0xe0.
Definition EXWORD_MODE_LIBRARY : Z := 0x0100.
Definition EXWORD_MODE_TEXT : Z := 0x0200.
Definition EXWORD_MODE_CD : Z := 0x0400.

Definition region_id2locale (id : Z) : list Z :=
  if id =? EXWORD_REGION_JA then str "SHIFT_JIS"
  else if id =? EXWORD_REGION_CN then str "GB2312"
  else if id =? EXWORD_REGION_KR then str "EUC-KR"
  else str "UTF-8".

Definition region_id2str (id : Z) : option (list Z) :=
  if id =? EXWORD_REGION_JA then Some (str "ja")
  else if id =? EXWORD_REGION_CN then Some (str "cn")
  else if id =? EXWORD_REGION_IN then Some (str "in")
  else if id =? EXWORD_REGION_KR then Some (str "kr")
  else if id =? EXWORD_REGION_IT then Some (str "it")
  else if id =? EXWORD_REGION_DE then Some (str "de")
  else if id =? EXWORD_REGION_ES then Some (str "es")
  else if id =? EXWORD_REGION_FR then Some (str "fr")
  else if id =? EXWORD_REGION_RU then Some (str "ru")
  else None.

Definition mode_id2str (id : Z) : option (list Z) :=
  if id =? EXWORD_MODE_TEXT then Some (str "text")
  else if id =? EXWORD_MODE_CD then Some (str "cd")
  else if id =? EXWORD_MODE_LIBRARY then Some (str "library")
  else None.

(** ** Storage devices *)

(** [dev] is the block of five bytes; the list of the table. *)
Record device_map := DeviceMap { dev : list Z; root : list Z }.

Definition dev_list_clear (head : list device_map) : list device_map := [].

(** [name[i]], which may be the terminator. *)
Definition char_at (name : list Z) (i : Z) : option Z :=
  if i <? 0 then None else (name ++ [0]) !! Z.to_nat i.

Fixpoint dev_list_scan (head : list device_map) (names : list (list Z)) : option (list device_map) :=
  match names with
  | [] => Some head
  | name :: names =>
      second ← char_at name 1;
      last ← char_at name (zlen name - 1);
      let kind := if second =? 83 then str "crd" else if second =? 73 then str "drv"
                  else [0; 0; 0] in
      dev_list_scan (head ++ [DeviceMap (kind ++ [last; 0]) (BACKSLASH ++ name)]) names
  end.

Fixpoint dev_list_search (head : list device_map) (d : list Z) : option (option device_map) :=
  match head with
  | [] => Some None
  | m :: head =>
      e ← strcmp_eq d (dev m);
      if e : bool then Some (Some m) else dev_list_search head d
  end.

(** ** The operating system *)

Definition ENOENT : Z := 2.

(** An error is [inl] of [errno]. [sys_opendir] answers the names that
    [readdir] will give; [sys_stat] the size and whether the path is a regular
    file or a directory. *)
Record file_status := Status { st_size : Z; st_reg : bool; st_dir : bool }.
Class Local (F : Type) := {
  sys_getenv : list Z → F → option (list Z);
  sys_open : list Z → bool → F → (Z + Z) * F;
  sys_fstat : Z → F → option file_status;
  sys_read : Z → Z → F → (Z + list Z) * F;
  sys_write : Z → list Z → F → (Z + Z) * F;
  sys_close : Z → F → F;
  sys_stat : list Z → F → option file_status;
  sys_opendir : list Z → F → option (list (list Z));
  sys_mkdir : list Z → F → bool * F;
}.

Section Files.
Context {F : Type} `{Local F}.
Abbreviation K := (st F).

Definition get_data_dir (f : F) : option (list Z) :=
  let fits (l : list Z) := if PATH_MAX <=? zlen l then None else Some l in
  match sys_getenv (str "EXWORD_DATA_DIR") f with
  | Some override => fits override
  | None =>
      match sys_getenv (str "XDG_DATA_HOME") f with
      | None =>
          home ← sys_getenv (str "HOME") f;
          _ ← fits home;
          fits (home ++ str "/.local/share/exword")
      | Some xdg => _ ← fits xdg; fits (xdg ++ str "/exword")
      end
  end.

(** The result is an error or the whole block and [*len]: its first bytes are
    what was read.  The size of an open file that [fstat] cannot tell is not
    initialised: [junk]. *)
Definition read_file (junk : Z) (filename : list Z) : K (Z + list Z * Z) := λ f,
  match sys_open filename false f with
  | (inl e, f) => (inl e, f)
  | (inr fd, f) =>
      let size := match sys_fstat fd f with Some s => st_size s | None => junk end in
      match sys_read fd size f with
      | (inl e, f) => (inl e, sys_close fd f)
      | (inr l, f) =>
          (inr (l ++ replicate (Z.to_nat size - length l) 0, s32 (zlen l)), sys_close fd f)
      end
  end.

(** Zero, or an error; that fewer bytes were written goes unnoticed. *)
Definition write_file (filename buffer : list Z) : K (option Z) := λ f,
  match sys_open filename true f with
  | (inl e, f) => (Some e, f)
  | (inr fd, f) =>
      match sys_write fd buffer f with
      | (inl e, f) => (Some e, sys_close fd f)
      | (inr _, f) => (None, sys_close fd f)
      end
  end.
End Files.
