(* ===== verification/Content.v ===== *)
(** * libexword: content of the dictionary ([src/tools/libexword/src/content.c])

    Installing, removing and decrypting add-ons, and registering users, over the
    interface [Device] that [Exword] implements and the operating system of
    [Util].  What is printed is left out, but for the entries of the lists. *)

From stdpp Require Import vector.
From Stdlib Require Import String Ascii.
From S2P Require Import Prelude Text DataBuffer Obex Crypt Exword Util.

(** ** The device *)

(** The commands of a connected dictionary. *)
Class Device (D : Type) := {
  dev_setpath : list Z → bool → res D Z;
  dev_get_file : list Z → res D (Z * Z * option (list Z));
  dev_send_file : list Z → list Z → res D Z;
  dev_remove_file : list Z → bool → res D Z;
  dev_list : res D (Z * option (list exword_dirent_t));
  dev_get_capacity : exword_capacity_t → res D (Z * exword_capacity_t);
  dev_unlock : res D Z;
  dev_lock : res D Z;
  dev_cname : list Z → list Z → res D Z;
  dev_cryptkey : exword_cryptkey_t → res D (Z * exword_cryptkey_t);
  dev_authchallenge : vec Z 20 → res D Z;
  dev_authinfo : exword_authinfo_t → res D (Z * exword_authinfo_t);
  dev_userid : vec Z 17 → res D Z;
}.

#[global] Instance exword_device `{Alloc} `{Iconv} {U : Type} `{Usb U} `{Interrupts U}
    (fuel read_fuel conv_fuel : nat) (big_endian char_signed : bool) : Device (exword_t U) := {
  dev_setpath := exword_setpath fuel read_fuel conv_fuel;
  dev_get_file := exword_get_file fuel read_fuel conv_fuel;
  dev_send_file := exword_send_file fuel read_fuel conv_fuel;
  dev_remove_file := exword_remove_file fuel read_fuel conv_fuel;
  dev_list := exword_list fuel read_fuel conv_fuel;
  dev_get_capacity := exword_get_capacity fuel read_fuel conv_fuel big_endian;
  dev_unlock := exword_unlock fuel read_fuel conv_fuel;
  dev_lock := exword_lock fuel read_fuel conv_fuel;
  dev_cname := exword_cname fuel read_fuel conv_fuel;
  dev_cryptkey := exword_cryptkey fuel read_fuel conv_fuel char_signed;
  dev_authchallenge := exword_authchallenge fuel read_fuel conv_fuel;
  dev_authinfo := exword_authinfo fuel read_fuel conv_fuel;
  dev_userid := exword_userid fuel read_fuel conv_fuel;
}.

(** ** Data *)

Definition key1 : list Z :=
  [0x42; 0x72; 0xb7; 0xb5; 0x9e; 0x30; 0x83; 0x45; 0xc3; 0xb5; 0x41; 0x53; 0x71; 0xc4; 0x95; 0x00].

Definition admini_list : list (list Z) :=
  map str ["admini.inf"; "adminikr.inf"; "adminicn.inf"; "adminiin.inf"; "adminiit.inf";
           "adminide.inf"; "adminies.inf"; "adminifr.inf"; "adminiru.inf"; "sound.inf"]%string.

Record admini_t := Admini { a_id : list Z; a_key : list Z; a_name : list Z }.

(** The 180 bytes of a structure. *)
Definition admini_of (l : list Z) : admini_t :=
  Admini (slice 0 32 l) (slice 32 16 l) (slice 48 132 l).

(** [strncpy] into an array of [n] bytes. *)
Definition strncpy (n : nat) (s : list Z) : vec Z n :=
  fun_to_vec (λ i, default 0 (s !! fin_to_nat i)).
Definition array (n : nat) (l : list Z) : vec Z n :=
  fun_to_vec (λ i, default 0 (l !! fin_to_nat i)).

(** The request for the key of an add-on: [ck.blk1] and [ck.blk2]. *)
Definition cryptkey_of (k : list Z) : exword_cryptkey_t :=
  Cryptkey (array 16 (slice 0 2 k ++ replicate 8 0 ++ slice 10 2 k))
           (array 12 (slice 2 8 k ++ slice 12 4 k))
           (replicate 16 0) (replicate 16 0).

(** The handle and the files. *)
Record tool (D F : Type) := Tool { device : D; files : F }.
Arguments Tool {D F}.
Arguments device {D F}.
Arguments files {D F}.

Section Content.
Context {D F : Type} `{Device D} `{Local F}.
Abbreviation C := (res (tool D F)).

(** The bytes of variables before they are set; whether [char] is signed; a
    bound on the records of the key file; [convert_to_locale], of a region's
    encoding. *)
Context (junk_size junk_byte : Z) (char_signed : bool) (fuel : nat).
Context (to_locale : list Z → list Z → option (list Z)).

Definition on_device {A} (m : res D A) : C A := λ s,
  match m (device s) with
  | Ok a d => Ok a (Tool d (files s))
  | Fault e => Fault e
  end.
Definition on_files {A} (m : st F A) : C A := λ s,
  let '(a, f) := m (files s) in Ok a (Tool (device s) f).
Definition ask_files {A} (q : F → A) : C A := res_get (λ s, q (files s)).

(** ** The index of the installed add-ons *)

(** The index of the file found, or -1, and its bytes. *)
Fixpoint read_admini_loop (i : Z) (names : list (list Z)) : C (Z * option (list Z) * Z) :=
  match names with
  | [] => mret (-1, None, 0)
  | name :: names =>
      '(rsp, length, buffer) ← on_device (dev_get_file name);
      if (rsp =? EXWORD_SUCCESS) && (0 <? length) then mret (i, buffer, length)
      else read_admini_loop (i + 1) names
  end.
Definition _read_admini : C (Z * option (list Z) * Z) := read_admini_loop 0 admini_list.

(** The structures from [i] on; the one whose id is [id]. *)
Fixpoint find_admini (n : nat) (buffer : list Z) (len i : Z) (id : list Z) : C (option admini_t) :=
  match n with
  | O => res_fault OutOfFuel
  | S n' =>
      if i <? len then
        e ← res_opt OutOfBounds (strncmp_eq 32 (drop (Z.to_nat i) buffer) id);
        if e : bool then
          if i + 180 <=? zlen buffer then mret (Some (admini_of (slice (Z.to_nat i) 180 buffer)))
          else res_fault OutOfBounds
        else find_admini n' buffer len (i + 180) id
      else mret None
  end.

Definition _find (root id : list Z) : C (option admini_t) :=
  on_device (dev_setpath root false);;
  '(rsp, buffer, len) ← _read_admini;
  if rsp <? 0 then mret None
  else
    buffer ← res_opt OutOfBounds buffer;
    find_admini (S (length buffer)) buffer len 0 id.

(** ** Transfers *)

Definition text_extensions : list (list Z) :=
  map str [".txt"; ".bmp"; ".htm"; ".TXT"; ".BMP"; ".HTM"]%string.
Definition is_text (filename : list Z) : bool :=
  match strrchr filename 46 with
  | Some ext => bool_decide (ext ∈ text_extensions)
  | None => false
  end.

(** Text files are encrypted on the way; the block may be larger than what was
    read. *)
Definition _upload_file (dir name key : list Z) : C bool :=
  filename ← mkpath PATH_SEP (Some dir) [Some name];
  r ← on_files (read_file junk_size filename);
  match r with
  | inl _ => mret false
  | inr (buffer, length) =>
      let data := take (Z.to_nat length) buffer in
      let data := if is_text filename then crypt_data data key else data in
      rsp ← on_device (dev_send_file name data);
      mret (rsp =? EXWORD_SUCCESS)
  end.

Definition _download_file (dir name key : list Z) : C bool :=
  filename ← mkpath PATH_SEP (Some dir) [Some name];
  '(rsp, length, buffer) ← on_device (dev_get_file name);
  if negb (rsp =? EXWORD_SUCCESS) then mret false
  else if length <? 0 then res_fault OutOfBounds
  else
    let data := take (Z.to_nat length) (default [] buffer) in
    let data := if is_text filename then crypt_data data key else data in
    r ← on_files (write_file filename data);
    mret (match r with None => true | Some _ => false end).

(** ** Local add-ons *)

Fixpoint get_size_loop (dir : list Z) (entries : list (list Z)) (size : Z) : C Z :=
  match entries with
  | [] => mret size
  | e :: entries =>
      filename ← mkpath PATH_SEP (Some dir) [Some e];
      fd ← on_files (sys_open filename false);
      match fd with
      | inl _ => get_size_loop dir entries size
      | inr fd =>
          s ← ask_files (sys_fstat fd);
          on_files (λ f, (tt, sys_close fd f));;
          let size := match s with
                      | Some s => if st_reg s then s32 (size + st_size s) else size
                      | None => size
                      end in
          get_size_loop dir entries size
      end
  end.
Definition _get_size (dir : list Z) : C Z :=
  entries ← ask_files (sys_opendir dir);
  match entries with
  | None => mret (-1)
  | Some entries => get_size_loop dir entries 0
  end.

(** [strchr(l, c)] and [strstr(l, pat)] in a block: the offset, if found before
    the terminator. *)
Fixpoint strchr_at (l : list Z) (c : Z) : option (option nat) :=
  match l with
  | [] => None
  | x :: l' =>
      if x =? c then Some (Some 0%nat)
      else if x =? 0 then Some None
      else r ← strchr_at l' c; Some (option_map S r)
  end.
Fixpoint strstr_at (l pat : list Z) : option (option nat) :=
  if bool_decide (take (length pat) l = pat) then Some (Some 0%nat)
  else match l with
       | [] => None
       | x :: l' => if x =? 0 then Some None else r ← strstr_at l' pat; Some (option_map S r)
       end.

Definition _get_cd_name (dir : list Z) : C (option (list Z)) :=
  filename ← mkpath PATH_SEP (Some dir) [Some (str "playlist.htm")];
  r ← on_files (read_file junk_size filename);
  match r with
  | inl _ => mret None
  | inr (buffer, _) =>
      temp ← res_opt OutOfBounds (strchr_at buffer 13);
      mret (match temp with Some n => Some (take n buffer) | None => None end)
  end.

Definition _get_dict_name (dir : list Z) : C (option (list Z)) :=
  filename ← mkpath PATH_SEP (Some dir) [Some (str "diction.htm")];
  r ← on_files (read_file junk_size filename);
  match r with
  | inl _ => mret None
  | inr (buffer, _) =>
      start ← res_opt OutOfBounds (strstr_at buffer (str "<title>"));
      stop ← res_opt OutOfBounds (strstr_at buffer (str "</title>"));
      mret (match start, stop with
            | Some a, Some b =>
                if (a + 7 <=? b)%nat then Some (slice (a + 7) (b - (a + 7)) buffer) else None
            | _, _ => None
            end)
  end.

(** ** The keys of the users *)

(** [*(buffer + i)] as an [int]. *)
Definition char_value (c : Z) : Z := if char_signed then s8 c else c.

(** The offset of the record whose name is [name]. *)
Fixpoint find_user (n : nat) (buffer : list Z) (length i : Z) (name : list Z) : C (option Z) :=
  match n with
  | O => res_fault OutOfFuel
  | S n' =>
      if i <? length then
        if i <? 0 then res_fault OutOfBounds
        else
          e ← res_opt OutOfBounds (strcmp_eq name (drop (Z.to_nat (i + 1)) buffer));
          if e : bool then mret (Some i)
          else
            c ← res_opt OutOfBounds (buffer !! Z.to_nat i);
            find_user n' buffer length (s32 (i + (21 + char_value c))) name
      else mret None
  end.

Definition users_file : C (option (list Z)) :=
  dir ← ask_files get_data_dir;
  match dir with
  | None => mret None
  | Some dir =>
      on_files (sys_mkdir dir);;
      file ← mkpath PATH_SEP (Some dir) [Some (str "users.dat")];
      mret (Some file)
  end.

Definition user_record (name key : list Z) : list Z :=
  u8 (zlen name + 1) :: name ++ [0] ++ take 20 key.

Definition _save_user_key (name key : list Z) : C bool :=
  file ← users_file;
  match file with
  | None => mret false
  | Some file =>
      r ← on_files (read_file junk_size file);
      match r with
      | inl e => if negb (e =? ENOENT) then mret false
                 else
                   r ← on_files (write_file file (user_record name key));
                   mret (match r with None => true | Some _ => false end)
      | inr (buffer, length) =>
          found ← find_user fuel buffer length 0 name;
          match found with
          | Some _ => mret true
          | None =>
              r ← on_files (write_file file (take (Z.to_nat length) buffer ++ user_record name key));
              mret (match r with None => true | Some _ => false end)
          end
      end
  end.

(** The key, when the user has one. *)
Definition _load_user_key (name : list Z) : C (option (list Z)) :=
  file ← users_file;
  match file with
  | None => mret None
  | Some file =>
      r ← on_files (read_file junk_size file);
      match r with
      | inl _ => mret None
      | inr (buffer, length) =>
          found ← find_user fuel buffer length 0 name;
          match found with
          | None => mret None
          | Some i =>
              c ← res_opt OutOfBounds (buffer !! Z.to_nat i);
              let at_ := i + 1 + char_value c in
              if (0 <=? at_) && (at_ + 20 <=? zlen buffer)
              then mret (Some (slice (Z.to_nat at_) 20 buffer))
              else res_fault OutOfBounds
          end
      end
  end.

(** ** Users *)

Definition blk1_auth : list Z := replicate 16 70.
Definition internal_path : list Z := BACKSLASH ++ str "_INTERNAL_00".
Definition sd_path : list Z := BACKSLASH ++ str "_SD_00".

(** The name of an entry and what is behind it in its block. *)
Definition name_is (e : exword_dirent_t) (s : list Z) : C bool :=
  res_opt OutOfBounds (strcmp_eq s (d_name e)).

Fixpoint auth_cards (entries : list exword_dirent_t) (challenge : vec Z 20) (ai : exword_authinfo_t)
    : C unit :=
  match entries with
  | [] => mret tt
  | e :: entries =>
      b0 ← name_is e (str "_SD_00");
      b ← (if b0 : bool then mret true else name_is e (str "_SD_01"));
      ai ← (if b : bool then
              on_device (dev_setpath sd_path false);;
              rsp ← on_device (dev_authchallenge challenge);
              if negb (rsp =? EXWORD_SUCCESS)
              then '(_, ai) ← on_device (dev_authinfo ai); mret ai else mret ai
            else mret ai);
      auth_cards entries challenge ai
  end.

(** The last byte of the user's name is sent as it was on the stack. *)
Definition content_auth (user : list Z) (auth : option (list Z)) : C bool :=
  key ← (match auth with Some k => mret (Some (take 20 k)) | None => _load_user_key user end);
  match key with
  | None => mret false
  | Some key =>
      let challenge := array 20 key in
      let ai := Authinfo (array 16 blk1_auth) (strncpy 24 user) (replicate 20 junk_byte) in
      on_device (dev_setpath internal_path false);;
      rsp ← on_device (dev_authchallenge challenge);
      if negb (rsp =? EXWORD_SUCCESS) then mret false
      else
        on_device (dev_setpath [] false);;
        '(_, entries) ← on_device dev_list;
        auth_cards (default [] entries) challenge ai;;
        on_device (dev_userid (array 17 (vec_to_list (strncpy 16 user) ++ [junk_byte])));;
        mret true
  end.

Definition content_reset (user : list Z) : C bool :=
  let info := Authinfo (array 16 blk1_auth) (strncpy 24 user) (replicate 20 0) in
  on_device (dev_setpath internal_path false);;
  '(_, info) ← on_device (dev_authinfo info);
  on_device (dev_userid (array 17 (vec_to_list (strncpy 16 user))));;
  _save_user_key user (a_challenge info);;
  content_auth user (Some (a_challenge info)).

(** ** The add-ons *)

(** The local directory of an add-on, of the mode and the region. *)
Definition local_dir (mode region : Z) (id : list Z) : C (list Z) :=
  data_dir ← ask_files get_data_dir;
  if mode =? EXWORD_MODE_CD
  then mkpath PATH_SEP data_dir [Some (str "sound"); Some id]
  else mkpath PATH_SEP data_dir [region_id2str region; Some id].

Definition remote_dir (mode : Z) (root id : list Z) : C (list Z) :=
  mkpath BACKSLASH (Some root)
    (if mode =? EXWORD_MODE_CD then [Some id] else [Some id; Some (str "_CONTENT")]).

Definition is_cjs (name : list Z) : bool :=
  match strrchr name 46 with
  | Some ext => bool_decide (ext ∈ map str [".cjs"; ".CJS"]%string)
  | None => false
  end.

Fixpoint download_all (dir key : list Z) (entries : list exword_dirent_t) : C unit :=
  match entries with
  | [] => mret tt
  | e :: entries =>
      (if d_flags e =? 0 then
         name ← res_opt OutOfBounds (cstr (d_name e));
         if is_cjs name then mret tt else _download_file dir name key;; mret tt
       else mret tt);;
      download_all dir key entries
  end.

Definition content_decrypt (mode region : Z) (root id : list Z) : C bool :=
  dir ← local_dir mode region id;
  path ← remote_dir mode root id;
  info ← _find root id;
  rsp ← (match info with Some _ => on_device (dev_setpath path false) | None => mret 0 end);
  match info with
  | None => mret false
  | Some info =>
      if negb (rsp =? EXWORD_SUCCESS) then mret false
      else
        st ← ask_files (sys_stat dir);
        if match st with Some st => st_dir st | None => false end then mret false
        else
          made ← on_files (sys_mkdir dir);
          if negb made then mret false
          else
            key ← res_opt OutOfBounds (get_xor_key char_signed (a_key info));
            '(_, entries) ← on_device dev_list;
            download_all dir key (default [] entries);;
            mret true
  end.

(** The names shown and the ids. *)
Definition shown (region : Z) (name : list Z) : list Z :=
  default name (to_locale (region_id2locale region) name).

Fixpoint list_admini (n : nat) (region : Z) (buffer : list Z) : C (list (list Z * list Z)) :=
  match n with
  | O => mret []
  | S n' =>
      name ← res_opt OutOfBounds (cstr (drop 48 buffer));
      id ← res_opt OutOfBounds (cstr buffer);
      rest ← list_admini n' region (drop 180 buffer);
      mret ((shown region name, id) :: rest)
  end.

Definition content_list_remote (region : Z) (root : list Z) : C (list (list Z * list Z)) :=
  on_device (dev_setpath root false);;
  '(rsp, info, length) ← _read_admini;
  if 0 <=? rsp then
    info ← res_opt OutOfBounds info; list_admini (Z.to_nat (length / 180)) region info
  else mret [].

Fixpoint list_local (mode region : Z) (d : list Z) (entries : list (list Z))
    : C (list (list Z * list Z)) :=
  match entries with
  | [] => mret []
  | e :: entries =>
      if match e with c :: _ => c =? 46 | [] => false end then list_local mode region d entries
      else
        path ← mkpath PATH_SEP (Some d) [Some e];
        name ← (if mode =? EXWORD_MODE_CD then _get_cd_name path else _get_dict_name path);
        rest ← list_local mode region d entries;
        mret (match name with Some name => (shown region name, e) :: rest | None => rest end)
  end.

Definition content_list_local (mode region : Z) : C (option (list (list Z * list Z))) :=
  data_dir ← ask_files get_data_dir;
  d ← mkpath PATH_SEP data_dir
        [if mode =? EXWORD_MODE_CD then Some (str "sound") else region_id2str region];
  entries ← ask_files (sys_opendir d);
  match entries with
  | None => mret None
  | Some entries => l ← list_local mode region d entries; mret (Some l)
  end.

(** The results are joined with [|=]. *)
Definition unlock_for (name id : list Z) (ck : exword_cryptkey_t) : C (Z * exword_cryptkey_t) :=
  r1 ← on_device dev_unlock;
  r2 ← on_device (dev_cname name id);
  '(r3, ck) ← on_device (dev_cryptkey ck);
  mret (Z.lor (Z.lor r1 r2) r3, ck).

Definition content_remove (root id : list Z) : C bool :=
  info ← _find root id;
  match info with
  | None => mret false
  | Some info =>
      let ck := cryptkey_of (a_key info) in
      name ← res_opt OutOfBounds (cstr (a_name info));
      '(rsp, ck) ← unlock_for name id ck;
      rsp ← (if rsp =? EXWORD_SUCCESS
             then r ← on_device (dev_remove_file id false); mret (Z.lor rsp r) else mret rsp);
      r ← on_device dev_lock;
      mret (Z.lor rsp r =? EXWORD_SUCCESS)
  end.

Fixpoint upload_all (dir key : list Z) (entries : list (list Z)) : C unit :=
  match entries with
  | [] => mret tt
  | e :: entries =>
      (if is_valid_sfn e then
         filename ← mkpath PATH_SEP (Some dir) [Some e];
         st ← ask_files (sys_stat filename);
         if match st with Some st => st_reg st | None => false end
         then _upload_file dir e key;; mret tt else mret tt
       else mret tt);;
      upload_all dir key entries
  end.

Definition content_install (mode region : Z) (root id : list Z) : C bool :=
  let ck := cryptkey_of key1 in
  info ← _find root id;
  match info with
  | Some _ => mret false
  | None =>
      dir ← local_dir mode region id;
      entries ← ask_files (sys_opendir dir);
      match entries with
      | None => mret false
      | Some entries =>
          size ← _get_size dir;
          '(rsp, cap) ← on_device (dev_get_capacity (Capacity junk_size junk_size));
          if negb (rsp =? EXWORD_SUCCESS) || (free cap <=? u64 size) || (size <? 0)
          then mret false
          else
            name ← (if mode =? EXWORD_MODE_CD then _get_cd_name dir else _get_dict_name dir);
            match name with
            | None => mret false
            | Some name =>
                '(rsp, ck) ← unlock_for name id ck;
                (if rsp =? EXWORD_SUCCESS then
                   path ← remote_dir mode root id;
                   on_device (dev_setpath path true);;
                   upload_all dir (xorkey ck) entries;;
                   if mode =? EXWORD_MODE_LIBRARY then
                     path ← mkpath BACKSLASH (Some root) [Some id; Some (str "_USER")];
                     on_device (dev_setpath path true);; mret tt
                   else mret tt
                 else mret tt);;
                r ← on_device dev_lock;
                mret (Z.lor rsp r =? EXWORD_SUCCESS)
            end
      end
  end.
End Content.
