(* ===== verification/ContentFacts.v ===== *)
(** * libexword: what the content commands respect

    A monitor over the commands a dictionary gets from [Content]: files are sent
    and removed only between a successful unlocking and the lock that always
    follows; and whatever the device keeps, every command keeps. *)

From stdpp Require Import vector.
From S2P Require Import Prelude Text DataBuffer Obex Crypt Exword ExwordFacts Util Content.

(** ** A device that logs *)

Inductive command : Type :=
| Setpath (path : list Z) (mkdir : bool) | GetFile | SendFile (name : list Z) | RemoveFile | ListFiles
| GetCapacity | Unlock | Lock | CName | CryptKey | AuthChallenge | AuthInfo | UserId.

Record logged (D : Type) := Logged { inner : D; log : list (command * Z) }.
Arguments Logged {D}.
Arguments inner {D}.
Arguments log {D}.

(** An operation and its code in the log. *)
Definition logging {D A} (c : command) (code : A → Z) (m : res D A) : res (logged D) A := λ s,
  match m (inner s) with
  | Ok a d => Ok a (Logged d (log s ++ [(c, code a)]))
  | Fault e => Fault e
  end.

#[export] Instance logged_device {D} `{Device D} : Device (logged D) := {
  dev_setpath p b := logging (Setpath p b) id (dev_setpath p b);
  dev_get_file n := logging GetFile (λ r, r.1.1) (dev_get_file n);
  dev_send_file n l := logging (SendFile n) id (dev_send_file n l);
  dev_remove_file n b := logging RemoveFile id (dev_remove_file n b);
  dev_list := logging ListFiles fst dev_list;
  dev_get_capacity c := logging GetCapacity fst (dev_get_capacity c);
  dev_unlock := logging Unlock id dev_unlock;
  dev_lock := logging Lock id dev_lock;
  dev_cname n i := logging CName id (dev_cname n i);
  dev_cryptkey k := logging CryptKey fst (dev_cryptkey k);
  dev_authchallenge c := logging AuthChallenge id (dev_authchallenge c);
  dev_authinfo i := logging AuthInfo fst (dev_authinfo i);
  dev_userid n := logging UserId id (dev_userid n);
}.

(** ** The monitor *)

(** How far the unlocking got (nothing, unlocked, named, keyed); the last path
    asked for; and every command that was refused, with that path. *)
Record monitor := Monitor {
  unlocked : bool; stage : nat; sound : bool; place : list Z; refused : list (list Z * command)
}.

Definition advance (from to_ : nat) (r : Z) (g : monitor) : nat :=
  if (stage g =? from)%nat && (r =? 0) then to_ else 0%nat.

Definition goes_to (g : monitor) (c : command) : list Z :=
  match c with Setpath p _ => p | _ => place g end.
Definition refusals (g : monitor) (c : command) (r : Z) : list (list Z * command) :=
  if r =? 0 then refused g else refused g ++ [(goes_to g c, c)].

Definition observe (g : monitor) (e : command * Z) : monitor :=
  let '(c, r) := e in
  let p := goes_to g c in
  let bad := refusals g c r in
  match c with
  | Unlock => Monitor true (if r =? 0 then 1 else 0) (sound g && negb (unlocked g)) p bad
  | CName => Monitor (unlocked g) (advance 1 2 r g) (sound g) p bad
  | CryptKey => Monitor (unlocked g) (advance 2 3 r g) (sound g) p bad
  | Lock => Monitor false 0 (sound g && unlocked g) p bad
  | SendFile name =>
      Monitor (unlocked g) (stage g) (sound g && (stage g =? 3)%nat && is_valid_sfn name) p bad
  | RemoveFile | Setpath _ true =>
      Monitor (unlocked g) (stage g) (sound g && (stage g =? 3)%nat) p bad
  | _ => Monitor (unlocked g) (stage g) (sound g) p bad
  end.

Definition start : monitor := Monitor false 0 true [] [].
Definition seen {D} (s : logged D) : monitor := foldl observe start (log s).

(** Locked, and nothing was sent but when unlocked. *)
Definition at_rest (g : monitor) : Prop := unlocked g = false ∧ sound g = true.

(** ** What a device keeps *)

Class DeviceKeeps {D} `{Device D} (P : D → Prop) : Prop := {
  keep_setpath p b : res_triple P (dev_setpath p b) (λ _, P);
  keep_get_file n : res_triple P (dev_get_file n) (λ _, P);
  keep_send_file n l : res_triple P (dev_send_file n l) (λ _, P);
  keep_remove_file n b : res_triple P (dev_remove_file n b) (λ _, P);
  keep_list : res_triple P dev_list (λ _, P);
  keep_get_capacity c : res_triple P (dev_get_capacity c) (λ _, P);
  keep_unlock : res_triple P dev_unlock (λ _, P);
  keep_lock : res_triple P dev_lock (λ _, P);
  keep_cname n i : res_triple P (dev_cname n i) (λ _, P);
  keep_cryptkey k : res_triple P (dev_cryptkey k) (λ _, P);
  keep_authchallenge c : res_triple P (dev_authchallenge c) (λ _, P);
  keep_authinfo i : res_triple P (dev_authinfo i) (λ _, P);
  keep_userid n : res_triple P (dev_userid n) (λ _, P);
}.

(** The handle of [Exword] keeps its session. *)
#[export] Instance session_kept `{Alloc} `{Iconv} {U : Type} `{Usb U} `{Interrupts U}
    fuel read_fuel conv_fuel big_endian char_signed :
  @DeviceKeeps (exword_t U)
    (exword_device fuel read_fuel conv_fuel big_endian char_signed) session_ok.
Proof.
  split; intros; intros s a s' Hs Hm;
    refine (call_session fuel read_fuel conv_fuel big_endian char_signed s s' _ Hs).
  - exact (call_setpath _ _ _ _ _ _ _ _ _ _ Hm).
  - exact (call_get_file _ _ _ _ _ _ _ _ _ Hm).
  - exact (call_send_file _ _ _ _ _ _ _ _ _ _ Hm).
  - exact (call_remove_file _ _ _ _ _ _ _ _ _ _ Hm).
  - exact (call_list _ _ _ _ _ _ _ _ Hm).
  - exact (call_get_capacity _ _ _ _ _ _ _ _ _ Hm).
  - exact (call_put_value _ _ _ _ _ _ _ _ _ _ Hm).
  - exact (call_put_value _ _ _ _ _ _ _ _ _ _ Hm).
  - exact (call_cname _ _ _ _ _ _ _ _ _ _ Hm).
  - exact (call_cryptkey _ _ _ _ _ _ _ _ _ Hm).
  - exact (call_put_value _ _ _ _ _ _ _ _ _ _ Hm).
  - exact (call_authinfo _ _ _ _ _ _ _ _ _ Hm).
  - exact (call_put_value _ _ _ _ _ _ _ _ _ _ Hm).
Qed.

(** ** Triples about the monitor *)

Section Facts.
Context {D F : Type} `{Device D} `{Local F} (P : D → Prop) `{!DeviceKeeps P}.
Context (junk_size junk_byte : Z) (char_signed : bool) (fuel : nat).
Context (to_locale : list Z → list Z → option (list Z)).
(** What an operation may have been refused, after a path, and still succeed. *)
Context (T : list Z → command → bool).
Abbreviation C := (res (tool (logged D) F)).

Definition view (φ : monitor → Prop) (s : tool (logged D) F) : Prop :=
  P (inner (device s)) ∧ φ (seen (device s)).
Definition tracks {A} (φ : monitor → Prop) (m : C A) (Q : A → monitor → Prop) : Prop :=
  res_triple (view φ) m (λ a, view (Q a)).

(** Refused what is allowed only, since [b]. *)
Definition allowed (e : list Z * command) : Prop := T e.1 e.2 = true.
Definition accepts (c : command) : Prop := ∀ p, T p c = true.
Definition tol (b : list (list Z * command)) (g : monitor) : Prop :=
  ∃ l, refused g = b ++ l ∧ Forall allowed l.

(** Of no path, and of no refusal that is allowed. *)
Definition Stable (φ : monitor → Prop) : Prop := ∀ g p l,
  φ g → Forall allowed l → φ (Monitor (unlocked g) (stage g) (sound g) p (refused g ++ l)).

(** A computation that only asks, and is refused only what is allowed. *)
Definition quiet {A} (m : C A) : Prop := ∀ φ, Stable φ → tracks φ m (λ _, φ).

Lemma tracks_ret {A} φ (a : A) Q : (∀ g, φ g → Q a g) → tracks φ (mret a) Q.
Proof. intros HQ. apply res_triple_ret. intros s [? ?]. split; auto. Qed.
Lemma tracks_bind {A B} φ (m : C A) (f : A → C B) R Q :
  tracks φ m R → (∀ a, tracks (R a) (f a) Q) → tracks φ (m ≫= f) Q.
Proof. apply res_triple_bind. Qed.
Lemma tracks_conseq {A} (φ ψ : monitor → Prop) (m : C A) (Q Q' : A → monitor → Prop) :
  tracks φ m Q → (∀ g, ψ g → φ g) → (∀ a g, Q a g → Q' a g) → tracks ψ m Q'.
Proof.
  intros Hm HP HQ. eapply res_triple_conseq; [apply Hm| |];
    [intros s [? ?]; split; auto|intros a s [? ?]; split; auto].
Qed.

(** In front of what follows. *)
Lemma tracks_quiet {A B} φ (m : C A) (f : A → C B) Q :
  Stable φ → quiet m → (∀ a, tracks φ (f a) Q) → tracks φ (m ≫= f) Q.
Proof. intros Hφ Hm Hf. apply (tracks_bind _ _ _ (λ _, φ)); auto. Qed.

Lemma tracks_device {A} φ c code (m : res D A) Q :
  res_triple P m (λ _, P) → (∀ a g, φ g → Q a (observe g (c, code a))) →
  tracks φ (on_device (logging c code m)) Q.
Proof.
  intros Hm HQ s a s' [HP Hg]. unfold on_device, logging.
  destruct (m (inner (device s))) as [b d|] eqn:Em; [|done]. intros [= <- <-].
  split; [exact (Hm _ _ _ HP Em)|]. unfold seen. cbn [device log]. rewrite foldl_app. by apply HQ.
Qed.

(** What a refusal adds. *)
Lemma refusals_app g c r :
  (r ≠ 0 → allowed (goes_to g c, c)) → ∃ l, refusals g c r = refused g ++ l ∧ Forall allowed l.
Proof.
  unfold refusals. intros Hr. destruct (Z.eqb_spec r 0); [exists []; by rewrite app_nil_r|].
  eexists. split; [done|]. constructor; auto.
Qed.
Lemma tol_refusals b g c r :
  tol b g → (r ≠ 0 → allowed (goes_to g c, c)) →
  ∃ l, refusals g c r = b ++ l ∧ Forall allowed l.
Proof.
  intros (l & Hl & Hf) Hr. destruct (refusals_app g c r Hr) as (l' & -> & Hf').
  exists (l ++ l'). rewrite Hl, (assoc_L (++)). split; [done|]. by apply Forall_app.
Qed.
Lemma tol_refl g : tol (refused g) g.
Proof. exists []. by rewrite app_nil_r. Qed.

Lemma quiet_ret {A} (a : A) : quiet (mret a).
Proof. intros φ _. by apply tracks_ret. Qed.
Lemma quiet_bind {A B} (m : C A) (f : A → C B) : quiet m → (∀ a, quiet (f a)) → quiet (m ≫= f).
Proof. intros Hm Hf φ Hφ. apply tracks_quiet; [done..|]. intros a. by apply Hf. Qed.
Lemma quiet_files {A} (m : st F A) : quiet (on_files m).
Proof. intros φ _ s a s' [? ?]. unfold on_files. destruct (m (files s)). by intros [= <- <-]. Qed.
Lemma quiet_ask {A} (q : F → A) : quiet (ask_files q).
Proof. intros φ _ s a s' [? ?]. by intros [= <- <-]. Qed.
Lemma quiet_opt {A} e (o : option A) : quiet (res_opt e o).
Proof. intros φ _. by apply res_triple_opt. Qed.
Lemma quiet_fault {A} e : quiet (res_fault e : C A).
Proof. intros φ _. apply res_triple_fault. Qed.
Lemma quiet_device {A} c code (m : res D A) :
  res_triple P m (λ _, P) → accepts c →
  (∀ g r, observe g (c, r) =
     Monitor (unlocked g) (stage g) (sound g) (goes_to g c) (refusals g c r)) →
  quiet (on_device (logging c code m)).
Proof.
  intros Hm Hc Hg φ Hφ. apply tracks_device; [done|]. intros a g Hphi. rewrite Hg.
  destruct (refusals_app g c (code a)) as (l & -> & Hl); [intros _; apply Hc|]. by apply Hφ.
Qed.

Lemma quiet_mkpath sep base parts : quiet (mkpath sep base parts).
Proof. unfold mkpath. apply quiet_bind; [apply quiet_opt|]. intros b. apply quiet_ret. Qed.

Create HintDb quiet.
Hint Resolve quiet_ret quiet_files quiet_ask quiet_opt quiet_fault quiet_mkpath : quiet.
Hint Extern 1 (quiet (on_device _)) =>
  (apply quiet_device; [first
    [ apply keep_setpath | apply keep_get_file | apply keep_list | apply keep_get_capacity
    | apply keep_authchallenge | apply keep_authinfo | apply keep_userid ]|solve [auto]|reflexivity])
  : quiet.

Ltac quiet :=
  repeat match goal with
  | |- quiet (_ ≫= _) => apply quiet_bind; [|intros ?]
  | |- quiet (match ?x with _ => _ end) => destruct x
  | |- quiet (let '(_, _) := ?x in _) => destruct x
  | |- quiet _ => solve [auto with quiet]
  | |- quiet _ => progress cbv zeta
  end.

Lemma quiet_read_loop i names : accepts GetFile → quiet (read_admini_loop i names).
Proof. intros Hg. revert i. induction names; intros i; cbn [read_admini_loop]; quiet. Qed.
Lemma quiet_read_admini : accepts GetFile → quiet _read_admini.
Proof. apply quiet_read_loop. Qed.
Lemma quiet_find_admini n b len i x : quiet (find_admini n b len i x).
Proof. revert i. induction n; intros i; cbn [find_admini]; quiet. Qed.
Hint Resolve quiet_read_admini quiet_find_admini : quiet.
Lemma quiet_find root x :
  accepts (Setpath root false) → accepts GetFile → quiet (_find root x).
Proof. intros Hp Hg. unfold _find. quiet. Qed.
Lemma quiet_download dir name k : accepts GetFile → quiet (_download_file dir name k).
Proof. intros Hg. unfold _download_file. quiet. Qed.
Lemma quiet_size_loop dir es n : quiet (get_size_loop dir es n).
Proof. revert n. induction es; intros n; cbn [get_size_loop]; quiet. Qed.
Hint Resolve quiet_find quiet_download quiet_size_loop : quiet.
Lemma quiet_size dir : quiet (_get_size dir).
Proof. unfold _get_size. quiet. Qed.
Lemma quiet_cd_name dir : quiet (_get_cd_name junk_size dir).
Proof. unfold _get_cd_name. quiet. Qed.
Lemma quiet_dict_name dir : quiet (_get_dict_name junk_size dir).
Proof. unfold _get_dict_name. quiet. Qed.
Lemma quiet_find_user n b len i x : quiet (find_user char_signed n b len i x).
Proof. revert i. induction n; intros i; cbn [find_user]; quiet. Qed.
Lemma quiet_users_file : quiet users_file.
Proof. unfold users_file. quiet. Qed.
Hint Resolve quiet_size quiet_cd_name quiet_dict_name quiet_find_user quiet_users_file : quiet.
Lemma quiet_save name k : quiet (_save_user_key junk_size char_signed fuel name k).
Proof. unfold _save_user_key. quiet. Qed.
Lemma quiet_load name : quiet (_load_user_key junk_size char_signed fuel name).
Proof. unfold _load_user_key. quiet. Qed.
Lemma quiet_local_dir mode region x : quiet (local_dir mode region x).
Proof. unfold local_dir. quiet. Qed.
Lemma quiet_remote_dir mode root x : quiet (remote_dir mode root x).
Proof. unfold remote_dir. quiet. Qed.
Lemma quiet_download_all dir k es : accepts GetFile → quiet (download_all dir k es).
Proof. intros Hg. induction es; cbn [download_all]; quiet. Qed.
Hint Resolve quiet_save quiet_load quiet_local_dir quiet_remote_dir quiet_download_all : quiet.
Lemma quiet_list_admini n region b : quiet (list_admini to_locale n region b).
Proof. revert b. induction n; intros b; cbn [list_admini]; quiet. Qed.
Hint Resolve quiet_list_admini : quiet.
Lemma quiet_list_remote region root :
  accepts (Setpath root false) → accepts GetFile →
  quiet (content_list_remote to_locale region root).
Proof. intros Hp Hg. unfold content_list_remote. quiet. Qed.
Lemma quiet_list_loop mode region d es : quiet (list_local junk_size to_locale mode region d es).
Proof. induction es; cbn [list_local]; quiet. Qed.
Hint Resolve quiet_list_loop : quiet.
Lemma quiet_list_local mode region : quiet (content_list_local junk_size to_locale mode region).
Proof. unfold content_list_local. quiet. Qed.

(** ** The ways a command ends *)

(** Unlocked for an add-on, with what was refused before. *)
Definition armed (b : list (list Z * command)) (g : monitor) : Prop :=
  unlocked g = true ∧ sound g = true ∧ stage g = 3%nat ∧ tol b g.
Definition resting (b : list (list Z * command)) (g : monitor) : Prop := at_rest g ∧ tol b g.

(** After the unlocking: armed when all of it was granted. *)
Definition asked (b : list (list Z * command)) (rsp : Z) (g : monitor) : Prop :=
  unlocked g = true ∧ sound g = true ∧ (rsp = 0 → stage g = 3%nat ∧ tol b g).

Definition ends (b : list (list Z * command)) (ok : bool) (g : monitor) : Prop :=
  at_rest g ∧ (ok = true → tol b g).

(** At rest, and tolerably so when the answer was 0. *)
Definition answered (b : list (list Z * command)) (r : Z) (g : monitor) : Prop :=
  at_rest g ∧ (r = 0 → tol b g).

Lemma tol_stable b g p l :
  tol b g → Forall allowed l →
  tol b (Monitor (unlocked g) (stage g) (sound g) p (refused g ++ l)).
Proof.
  intros (l' & Hl & Hf) Hl'. exists (l' ++ l). cbn [refused]. rewrite Hl, (assoc_L (++)).
  split; [done|]. by apply Forall_app.
Qed.
Hint Resolve tol_stable : core.
Lemma armed_stable b : Stable (armed b).
Proof. intros g p l (? & ? & ? & ?) Hl. split_and!; auto. Qed.
Lemma resting_stable b : Stable (resting b).
Proof. intros g p l [[? ?] ?] Hl. split; [by split|auto]. Qed.
Hint Resolve armed_stable resting_stable : core.

Lemma ends_quiet b (m : C bool) : quiet m → tracks (resting b) m (ends b).
Proof.
  intros Hm. eapply tracks_conseq; [by apply (Hm (resting b))|done|]. by intros ok g [? ?].
Qed.
Lemma ends_false b g : at_rest g → ends b false g.
Proof. intros Hg. by split. Qed.
Lemma tracks_false b φ : (∀ g, φ g → at_rest g) → tracks φ (mret false) (ends b).
Proof. intros Hφ. apply tracks_ret. intros g Hg. by apply ends_false, Hφ. Qed.
Lemma resting_false b : tracks (resting b) (mret false) (ends b).
Proof. apply tracks_false. by intros g [? ?]. Qed.

(** A request at rest whose answer is looked at. *)
Lemma answered_ok {A} b c code (m : res D A) :
  res_triple P m (λ _, P) →
  (∀ g r, observe g (c, r) =
     Monitor (unlocked g) (stage g) (sound g) (goes_to g c) (refusals g c r)) →
  tracks (resting b) (on_device (logging c code m)) (λ a, answered b (code a)).
Proof.
  intros Hm Hg. apply tracks_device; [done|]. intros a g [[Hu Hs] Ht]. rewrite Hg.
  split; [done|]. intros ->. unfold tol, refusals. by rewrite Z.eqb_refl.
Qed.

Lemma decrypt_ok b mode region root x :
  accepts (Setpath root false) → accepts GetFile → accepts ListFiles →
  tracks (resting b) (content_decrypt char_signed mode region root x) (ends b).
Proof.
  intros Hp Hg Hl. unfold content_decrypt. apply tracks_quiet; [auto|quiet|]. intros dir.
  apply tracks_quiet; [auto|quiet|]. intros path.
  apply tracks_quiet; [auto|quiet|]. intros [info|];
    [|apply (tracks_bind _ _ _ (λ _, resting b)); [by apply tracks_ret|intros r]; apply resting_false].
  eapply tracks_bind; [apply answered_ok; [apply keep_setpath|done]|]. intros r. cbn [id].
  destruct (Z.eqb_spec r EXWORD_SUCCESS) as [->|]; cbn [negb];
    [|apply tracks_false; by intros g [? ?]].
  apply (tracks_conseq (resting b) _ _ (ends b)); [|by intros g [? Ht]; split; [|apply Ht]|done].
  apply ends_quiet. quiet.
Qed.

(** ** Users *)

Section Users.
Context (HT : ∀ p, accepts (Setpath p false)) (HL : accepts ListFiles) (HA : accepts AuthInfo)
  (HU : accepts UserId) (HC : T sd_path AuthChallenge = true).

Lemma quiet_card c ai :
  quiet (on_device (dev_setpath (D := logged D) sd_path false);;
         rsp ← on_device (dev_authchallenge c);
         if negb (rsp =? EXWORD_SUCCESS)
         then '(_, ai) ← on_device (dev_authinfo ai); mret ai else mret ai : C exword_authinfo_t).
Proof.
  intros φ Hφ. apply (tracks_bind _ _ _ (λ _ g, φ g ∧ place g = sd_path)).
  { apply tracks_device; [apply keep_setpath|]. intros r g Hg. cbn [observe goes_to place]. split; [|done].
    destruct (refusals_app g (Setpath sd_path false) (id r)) as (l & -> & Hl);
      [intros _; apply HT|by apply Hφ]. }
  intros _. apply (tracks_bind _ _ _ (λ _, φ)).
  { apply tracks_device; [apply keep_authchallenge|]. intros r g [Hg Hp]. cbn [observe goes_to].
    destruct (refusals_app g AuthChallenge (id r)) as (l & -> & Hl); [|by apply Hφ].
    intros _. unfold allowed. cbn. by rewrite Hp. }
  intros r. revert φ Hφ.
  refine (_ : quiet (if negb _ then '(_, ai) ← on_device (dev_authinfo ai); mret ai else mret ai)).
  quiet.
Qed.

Lemma quiet_cards es c ai : quiet (auth_cards es c ai).
Proof.
  revert ai. induction es; intros ai; cbn [auth_cards]; [quiet|].
  apply quiet_bind; [unfold name_is; quiet|]. intros b0.
  apply quiet_bind; [destruct b0; unfold name_is; quiet|]. intros b.
  apply quiet_bind; [|done]. destruct b; [apply quiet_card|quiet].
Qed.
Hint Resolve quiet_cards : quiet.

Lemma auth_ok b user k :
  tracks (resting b) (content_auth junk_size junk_byte char_signed fuel user k) (ends b).
Proof.
  unfold content_auth. apply tracks_quiet; [auto|quiet|]. intros [key|]; [|apply resting_false].
  apply tracks_quiet; [auto|quiet|]. intros r0.
  eapply tracks_bind; [apply answered_ok; [apply keep_authchallenge|done]|]. intros r. cbn [id].
  destruct (Z.eqb_spec r EXWORD_SUCCESS) as [->|]; cbn [negb];
    [|apply tracks_false; by intros g [? ?]].
  apply (tracks_conseq (resting b) _ _ (ends b)); [|by intros g [? Ht]; split; [|apply Ht]|done].
  apply ends_quiet. quiet.
Qed.

Lemma reset_ok b user :
  tracks (resting b) (content_reset junk_size junk_byte char_signed fuel user) (ends b).
Proof.
  unfold content_reset. apply tracks_quiet; [auto|quiet|]. intros r0.
  apply tracks_quiet; [auto|quiet|]. intros [r1 info].
  apply tracks_quiet; [auto|quiet|]. intros r2.
  apply tracks_quiet; [auto|quiet|]. intros r3. apply auth_ok.
Qed.
End Users.

(** ** Installing and removing *)

Lemma tol_granted b g c (r : Z) : tol b g → r = 0 → ∃ l, refusals g c r = b ++ l ∧ Forall allowed l.
Proof. intros Ht ->. by apply tol_refusals. Qed.
Hint Resolve tol_granted : core.

Lemma unlock_ok b name x ck :
  tracks (resting b) (unlock_for name x ck) (λ r, asked b r.1).
Proof.
  unfold unlock_for.
  apply (tracks_bind _ _ _ (λ r g, unlocked g = true ∧ sound g = true ∧
    (r = 0 → stage g = 1%nat ∧ tol b g))).
  { apply tracks_device; [apply keep_unlock|]. intros r g [[Hu Hs] Ht]. cbn. rewrite Hu, Hs.
    split_and!; [done..|]. intros ->. split; [done|]. by apply tol_granted. }
  intros r1. apply (tracks_bind _ _ _ (λ r g, unlocked g = true ∧ sound g = true ∧
    (r1 = 0 → r = 0 → stage g = 2%nat ∧ tol b g))).
  { apply tracks_device; [apply keep_cname|]. intros r g (Hu & Hs & Hg). cbn. split_and!; [done..|].
    intros H1 ->. destruct (Hg H1) as [Hst Ht]. unfold advance. rewrite Hst.
    split; [done|]. by apply tol_granted. }
  intros r2. apply (tracks_bind _ _ _ (λ r g, unlocked g = true ∧ sound g = true ∧
    (r1 = 0 → r2 = 0 → r.1 = 0 → stage g = 3%nat ∧ tol b g))).
  { apply tracks_device; [apply keep_cryptkey|]. intros r g (Hu & Hs & Hg). cbn. split_and!; [done..|].
    intros H1 H2 Hr. rewrite Hr. destruct (Hg H1 H2) as [Hst Ht]. unfold advance. rewrite Hst.
    split; [done|]. by apply tol_granted. }
  intros [r3 ck']. apply tracks_ret. intros g (Hu & Hs & Hg). split_and!; [done..|]. cbn [fst] in *.
  intros [[H1 H2]%Z.lor_eq_0_iff H3]%Z.lor_eq_0_iff. by apply Hg.
Qed.

(** The lock at the end. *)
Lemma lock_ok b rsp φ :
  (∀ g, φ g → asked b rsp g) →
  tracks φ (r ← on_device (dev_lock (D := logged D)); mret (Z.lor rsp r =? EXWORD_SUCCESS)) (ends b).
Proof.
  intros Hφ. apply (tracks_bind _ _ _ (λ r g, at_rest g ∧ (rsp = 0 → r = 0 → tol b g))).
  { apply tracks_device; [apply keep_lock|]. intros r g Hg. destruct (Hφ g Hg) as (Hu & Hs & Hg').
    cbn. rewrite Hu, Hs. split; [done|]. intros H1 ->. destruct (Hg' H1) as [_ Ht].
    by apply tol_granted. }
  intros r. apply tracks_ret. intros g [Hr Hg]. split; [done|].
  intros [H1 H2]%Z.eqb_eq%Z.lor_eq_0_iff. by apply Hg.
Qed.

(** What is sent while unlocked may be refused. *)
Lemma armed_device {A} b c code (m : res D A) :
  res_triple P m (λ _, P) → accepts c →
  (∀ g r, stage g = 3%nat → sound g = true → observe g (c, r) =
     Monitor (unlocked g) (stage g) true (goes_to g c) (refusals g c r)) →
  tracks (armed b) (on_device (logging c code m)) (λ _, armed b).
Proof.
  intros Hm Hc Hg. apply tracks_device; [done|]. intros a g (Hu & Hs & Hst & Ht).
  rewrite Hg by done. split_and!; [done..|]. apply tol_refusals; [done|]. intros _. apply Hc.
Qed.

Lemma upload_ok b dir name k :
  is_valid_sfn name = true → accepts (SendFile name) →
  tracks (armed b) (_upload_file junk_size dir name k) (λ _, armed b).
Proof.
  intros Hv Ha. unfold _upload_file. apply tracks_quiet; [auto|quiet|]. intros filename.
  apply tracks_quiet; [auto|quiet|]. intros [e|[buffer n]]; [by apply tracks_ret|].
  apply (tracks_bind _ _ _ (λ _, armed b)); [|intros r; by apply tracks_ret].
  apply armed_device; [apply keep_send_file|done|].
  intros g r Hst Hs. cbn. by rewrite Hs, Hst, Hv.
Qed.

Lemma upload_all_ok b dir k es :
  (∀ name, accepts (SendFile name)) →
  tracks (armed b) (upload_all junk_size dir k es) (λ _, armed b).
Proof.
  intros Ha. induction es as [|e es IH]; cbn [upload_all]; [by apply tracks_ret|].
  apply (tracks_bind _ _ _ (λ _, armed b)); [|done].
  destruct (is_valid_sfn e) eqn:Hv; [|by apply tracks_ret].
  apply tracks_quiet; [auto|quiet|]. intros filename. apply tracks_quiet; [auto|quiet|]. intros st.
  destruct (match st with Some st => st_reg st | None => false end); [|by apply tracks_ret].
  apply (tracks_bind _ _ _ (λ _, armed b)); [by apply upload_ok|]. intros ok. by apply tracks_ret.
Qed.

Lemma makedir_ok b path :
  accepts (Setpath path true) →
  tracks (armed b) (on_device (dev_setpath (D := logged D) path true)) (λ _, armed b).
Proof.
  intros Ha. apply armed_device; [apply keep_setpath|done|].
  intros g r Hst Hs. cbn. by rewrite Hs, Hst.
Qed.

Lemma remove_ok b root x :
  accepts (Setpath root false) → accepts GetFile →
  tracks (resting b) (content_remove root x) (ends b).
Proof.
  intros Hp Hf. unfold content_remove.
  apply tracks_quiet; [auto|quiet|]. intros [info|]; [|apply resting_false].
  apply tracks_quiet; [auto|quiet|]. intros name.
  eapply tracks_bind; [apply unlock_ok|]. intros [rsp ck]. cbn [fst].
  apply (tracks_bind _ _ _ (asked b)); [|intros r; by apply lock_ok].
  destruct (Z.eqb_spec rsp EXWORD_SUCCESS) as [->|]; [|by apply tracks_ret].
  apply (tracks_bind _ _ _ (λ r, asked b (Z.lor 0 r))); [|intros r; by apply tracks_ret].
  apply tracks_device; [apply keep_remove_file|]. intros r g (Hu & Hs & Hg).
  destruct (Hg eq_refl) as [Hst Ht]. cbn. rewrite Hs, Hst. split_and!; [done..|].
  intros [_ ->]%Z.lor_eq_0_iff. split; [done|]. by apply tol_granted.
Qed.

Section Install.
Context (HD : ∀ path, accepts (Setpath path true)) (HS : ∀ name, accepts (SendFile name)).

Lemma install_ok b mode region root x :
  accepts (Setpath root false) → accepts GetFile →
  tracks (resting b) (content_install junk_size mode region root x) (ends b).
Proof.
  intros Hp Hf. unfold content_install.
  apply tracks_quiet; [auto|quiet|]. intros [info|]; [apply resting_false|].
  apply tracks_quiet; [auto|quiet|]. intros dir.
  apply tracks_quiet; [auto|quiet|]. intros [entries|]; [|apply resting_false].
  apply tracks_quiet; [auto|quiet|]. intros size.
  eapply tracks_bind; [apply answered_ok; [apply keep_get_capacity|done]|]. intros [rsp cap]. cbn [fst].
  destruct (Z.eqb_spec rsp EXWORD_SUCCESS) as [->|]; cbn [negb orb];
    [|apply tracks_false; by intros g [? ?]].
  destruct (_ || _); [apply tracks_false; by intros g [? ?]|].
  apply (tracks_conseq (resting b) _ _ (ends b)); [|by intros g [? Ht]; split; [|apply Ht]|done].
  apply tracks_quiet; [auto|quiet|]. intros [name|]; [|apply resting_false].
  eapply tracks_bind; [apply unlock_ok|]. intros [rsp' ck]. cbn [fst].
  apply (tracks_bind _ _ _ (λ _, asked b rsp')); [|intros u; by apply lock_ok].
  destruct (Z.eqb_spec rsp' EXWORD_SUCCESS) as [->|]; [|by apply tracks_ret].
  apply (tracks_conseq (armed b) _ _ (λ _, armed b)).
  - apply tracks_quiet; [auto|quiet|]. intros path.
    apply (tracks_bind _ _ _ (λ _, armed b)); [by apply makedir_ok|]. intros r1.
    apply (tracks_bind _ _ _ (λ _, armed b)); [by apply upload_all_ok|]. intros u.
    destruct (mode =? EXWORD_MODE_LIBRARY); [|by apply tracks_ret].
    apply tracks_quiet; [auto|quiet|]. intros path2.
    apply (tracks_bind _ _ _ (λ _, armed b)); [by apply makedir_ok|]. intros r2. by apply tracks_ret.
  - intros g (Hu & Hs & Hg). by destruct (Hg eq_refl).
  - intros u g (Hu & Hs & Hst & Hr). done.
Qed.
End Install.
End Facts.

(** ** The commands of the tool *)

Section Session.
Context {D F : Type} `{Device D} `{Local F} (P : D → Prop) `{!DeviceKeeps P}.
Context (junk_size junk_byte : Z) (char_signed : bool) (fuel : nat).
Context (to_locale : list Z → list Z → option (list Z)).
Abbreviation C := (res (tool (logged D) F)).

Inductive operation : Type :=
| Install (mode region : Z) (root id : list Z)
| Remove (root id : list Z)
| Decrypt (mode region : Z) (root id : list Z)
| Auth (user : list Z) (key : option (list Z))
| Reset (user : list Z)
| ListRemote (region : Z) (root : list Z)
| ListLocal (mode region : Z).

Definition perform (o : operation) : C bool :=
  match o with
  | Install mode region root x => content_install junk_size mode region root x
  | Remove root x => content_remove root x
  | Decrypt mode region root x => content_decrypt char_signed mode region root x
  | Auth user k => content_auth junk_size junk_byte char_signed fuel user k
  | Reset user => content_reset junk_size junk_byte char_signed fuel user
  | ListRemote region root => content_list_remote to_locale region root;; mret true
  | ListLocal mode region => content_list_local junk_size to_locale mode region;; mret true
  end.

(** What each kind ignores the refusal of: the directory of the add-ons and the
    reading of their list (which then counts as empty); when installing, the
    directories made and the files sent; when decrypting, the list and the files
    read; with a user, all but the challenge of the internal memory. *)
Definition tolerated (o : operation) (at_ : list Z) (c : command) : bool :=
  match o with
  | Install _ _ root _ =>
      match c with
      | Setpath p mkdir => mkdir || bool_decide (p = root)
      | GetFile | SendFile _ => true
      | _ => false
      end
  | Remove root _ | ListRemote _ root =>
      match c with Setpath p false => bool_decide (p = root) | GetFile => true | _ => false end
  | Decrypt _ _ root _ =>
      match c with
      | Setpath p false => bool_decide (p = root)
      | GetFile | ListFiles => true
      | _ => false
      end
  | Auth _ _ | Reset _ =>
      match c with
      | Setpath _ false | ListFiles | AuthInfo | UserId => true
      | AuthChallenge => bool_decide (at_ = sd_path)
      | _ => false
      end
  | ListLocal _ _ => false
  end.

Lemma perform_ok b o :
  tracks P (resting (tolerated o) b) (perform o) (ends (tolerated o) b).
Proof.
  assert (∀ root : list Z, bool_decide (root = root) = true) as Hr by (intros; by apply bool_decide_true).
  destruct o; cbn [perform].
  - apply install_ok; repeat intros ?; cbn; rewrite ?Hr; auto using orb_true_r.
  - apply remove_ok; repeat intros ?; cbn; auto.
  - apply decrypt_ok; repeat intros ?; cbn; auto.
  - apply auth_ok; repeat intros ?; cbn; auto.
  - apply reset_ok; repeat intros ?; cbn; auto.
  - apply ends_quiet, quiet_bind; [|intros ?; apply quiet_ret].
    apply quiet_list_remote; repeat intros ?; cbn; auto.
  - apply ends_quiet, quiet_bind; [apply quiet_list_local|intros ?; apply quiet_ret].
Qed.

(** A session: one command after the other; the results. *)
Fixpoint session (os : list operation) : C (list bool) :=
  match os with
  | [] => mret []
  | o :: os => r ← perform o; rs ← session os; mret (r :: rs)
  end.

Lemma session_rests os : tracks P at_rest (session os) (λ _, at_rest).
Proof.
  induction os as [|o os IH]; cbn [session]; [by apply tracks_ret|].
  apply (tracks_bind _ _ _ _ (λ _, at_rest)).
  - intros s a s' [HP Hr] Hm.
    destruct (perform_ok (refused (seen (device s))) o s a s') as [HP' [Hr' _]];
      [split; [done|split; [done|apply tol_refl]]|done|].
    by split.
  - intros r. apply (tracks_bind _ _ _ _ (λ _, at_rest)); [done|]. intros rs. by apply tracks_ret.
Qed.
End Session.

(** ** A sample: a device that grants everything and a disk with one file *)

Definition cabinet : Device Z := {|
  dev_setpath p b := mret 0;
  dev_get_file n := mret (EXWORD_ERROR_NOT_FOUND, 0, None);
  dev_send_file n l := λ d, Ok 0 (d + zlen l);
  dev_remove_file n b := mret 0;
  dev_list := mret (0, Some []);
  dev_get_capacity c := mret (0, Capacity 1000 1000);
  dev_unlock := mret 0;
  dev_lock := mret 0;
  dev_cname n i := mret 0;
  dev_cryptkey k := mret (0, k);
  dev_authchallenge c := mret 0;
  dev_authinfo i := mret (0, i);
  dev_userid n := mret 0;
|}.

Definition disk : Local unit := {|
  sys_getenv v f := Some (str "data");
  sys_open p w f := (inr 3, f);
  sys_fstat fd f := Some (Status 17 true false);
  sys_read fd n f := (inr (str "<title>T</title>" ++ [0]), f);
  sys_write fd l f := (inr (zlen l), f);
  sys_close fd f := f;
  sys_stat p f := Some (Status 17 true false);
  sys_opendir p f := Some [str "a.txt"; str "far-too-long.txt"];
  sys_mkdir p f := (true, f);
|}.

Definition has_room (d : Z) : Prop := 0 <= d.

Lemma cabinet_kept : @DeviceKeeps Z cabinet has_room.
Proof.
  split; intros; intros s a s' Hs Hm; cbn in Hm; injection Hm as <- <-; unfold has_room, zlen in *; lia.
Qed.

(** C3: Whatever the dictionary, the operating system and the files do, after
    any sequence of the tool's commands the dictionary has been locked again
    after every unlocking, files were sent (under short names only), removed and
    directories made only after an unlocking, a name and a key that were all
    granted; what each operation of the device keeps was kept (so the invariant
    of the handle of [Exword] was, by [session_kept]); and of all the requests of
    a further command that reports success none was refused but those whose
    refusal its kind ignores ([tolerated]): the directory and the list of the
    add-ons, the directories and files of an installation, the list and the files
    of a decryption, and for a user all but the challenge of the internal memory. *)
Theorem content_guarded {D F} `{Device D} `{Local F} (P : D → Prop) `{!DeviceKeeps P}
    junk_size junk_byte char_signed fuel to_locale os (d : D) (f : F) rs s' :
  P d →
  session junk_size junk_byte char_signed fuel to_locale os (Tool (Logged d []) f) = Ok rs s' →
  P (inner (device s')) ∧ at_rest (seen (device s')) ∧
  ∀ o s1, perform junk_size junk_byte char_signed fuel to_locale o s' = Ok true s1 →
    ∃ l, refused (seen (device s1)) = refused (seen (device s')) ++ l ∧
      Forall (λ e, tolerated o e.1 e.2 = true) l.
Proof.
  intros HP Hm.
  assert (view P at_rest (Tool (F := F) (Logged d []) f)) as Hv by done.
  destruct (session_rests P _ _ _ _ _ _ _ _ _ Hv Hm) as [HP' Hr].
  split; [done|]. split; [done|]. intros o s1 Ho.
  destruct (perform_ok P junk_size junk_byte char_signed fuel to_locale (refused (seen (device s')))
    o s' true s1) as [_ [_ Hb]]; [split; [done|split; [done|apply tol_refl]]|done|]. by apply Hb.
Qed.

Lemma content_guarded_witness :
  ∃ s', @session Z unit cabinet disk 0 0 true 10 (λ _ _, None)
      [Install EXWORD_MODE_LIBRARY EXWORD_REGION_JA (str "\root") (str "DICT1")]
      (Tool (Logged 5 []) tt) = Ok [true] s' ∧
    (SendFile (str "a.txt"), 0) ∈ log (device s') ∧
    has_room (inner (device s')) ∧ at_rest (seen (device s')).
Proof.
  eexists. split; [vm_compute; reflexivity|].
  split; [vm_compute; repeat constructor|].
  destruct (@content_guarded Z unit cabinet disk has_room cabinet_kept 0 0 true 10%nat (λ _ _, None)
    [Install EXWORD_MODE_LIBRARY EXWORD_REGION_JA (str "\root") (str "DICT1")] 5 tt [true] _
    ltac:(by unfold has_room) ltac:(vm_compute; reflexivity)) as (? & ? & _).
  by split.
Defined.
