(* ===== verification/UserKeys.v ===== *)
(** * libexword: the file of the users' keys

    [_save_user_key] and [_load_user_key] of [Content] on a disk that keeps what
    is written: the file as a list of records. *)

From stdpp Require Import vector.
From S2P Require Import Prelude Text Exword Util Content.

(** ** Records *)

Definition no_zero (s : list Z) : Prop := Forall (λ c, c ≠ 0) s.

Definition entry : Type := list Z * list Z.
Record entry_ok (e : entry) : Prop := {
  en_name : no_zero e.1;
  en_short : zlen e.1 < 127;
  en_key : length e.2 = 20%nat;
}.

(** [user_record] of each. *)
Definition users_bytes (es : list entry) : list Z := concat (map (λ e, user_record e.1 e.2) es).

(** The first key of a name. *)
Fixpoint key_of (name : list Z) (es : list entry) : option (list Z) :=
  match es with
  | [] => None
  | e :: es => if decide (e.1 = name) then Some e.2 else key_of name es
  end.

Lemma user_record_eq e :
  entry_ok e → user_record e.1 e.2 = (zlen e.1 + 1) :: e.1 ++ 0 :: e.2.
Proof.
  intros [Hn Hs Hk]. unfold user_record. rewrite u8_small.
  - rewrite take_ge by lia. done.
  - pose proof (zlen_nonneg e.1). unfold is_u. lia.
Qed.

Lemma record_length e : entry_ok e → zlen (user_record e.1 e.2) = zlen e.1 + 22.
Proof.
  intros He. rewrite user_record_eq by done. destruct He as [_ _ Hk].
  rewrite zlen_cons, zlen_app, zlen_cons. assert (zlen e.2 = 20) as -> by (unfold zlen; lia). lia.
Qed.

Lemma strcmp_eq_spec a b rest :
  no_zero a → no_zero b → strcmp_eq a (b ++ 0 :: rest) = Some (bool_decide (a = b)).
Proof.
  intros Ha. revert b. induction Ha as [|x a Hx Ha IH]; intros [|y b] Hb; cbn [strcmp_eq app].
  - done.
  - apply Forall_cons in Hb as [Hy _]. destruct (Z.eqb_spec y 0); [done|done].
  - destruct (Z.eqb_spec x 0); done.
  - apply Forall_cons in Hb as [Hy Hb]. destruct (Z.eqb_spec x y) as [->|Hne].
    + rewrite IH by done. f_equal. apply bool_decide_ext. naive_solver.
    + rewrite bool_decide_false by naive_solver. done.
Qed.

Section Keys.
Context {D F : Type} `{Device D} `{Local F}.
Context (char_signed : bool).
Abbreviation C := (res (tool D F)).

Lemma char_value_small c : 0 <= c < 128 → char_value char_signed c = c.
Proof. intros Hc. unfold char_value, s8. destruct char_signed; [|done]. rewrite Z.mod_small; lia. Qed.

(** ** Searching *)

(** The search from behind the records [es1] on. *)
Lemma find_user_stop n buffer name i (s : tool D F) :
  zlen buffer <= i → find_user char_signed (S n) buffer (zlen buffer) i name s = Ok None s.
Proof. intros Hi. cbn [find_user]. destruct (Z.ltb_spec i (zlen buffer)); [lia|done]. Qed.

Lemma find_user_record n l1 e l2 name (s : tool D F) :
  entry_ok e → no_zero name → zlen (l1 ++ user_record e.1 e.2 ++ l2) < 2 ^ 31 →
  let buffer := l1 ++ user_record e.1 e.2 ++ l2 in
  find_user char_signed (S n) buffer (zlen buffer) (zlen l1) name s =
  if decide (e.1 = name) then Ok (Some (zlen l1)) s
  else find_user char_signed n buffer (zlen buffer) (zlen (l1 ++ user_record e.1 e.2)) name s.
Proof.
  intros He Hname Hlen buffer. cbn [find_user].
  pose proof (record_length e He) as Hrec. pose proof (zlen_nonneg l1) as H1.
  pose proof (zlen_nonneg l2) as H2. pose proof (zlen_nonneg e.1) as H3.
  assert (zlen buffer = zlen l1 + (zlen e.1 + 22) + zlen l2) as Hb.
  { unfold buffer. rewrite !zlen_app. lia. }
  destruct (Z.ltb_spec (zlen l1) (zlen buffer)); [|lia].
  destruct (Z.ltb_spec (zlen l1) 0); [lia|].
  assert (drop (Z.to_nat (zlen l1)) buffer = user_record e.1 e.2 ++ l2) as Hd.
  { unfold buffer. by rewrite drop_app_length' by (unfold zlen; lia). }
  assert (drop (Z.to_nat (zlen l1 + 1)) buffer = e.1 ++ 0 :: (e.2 ++ l2)) as Hd1.
  { replace (Z.to_nat (zlen l1 + 1)) with (Z.to_nat (zlen l1) + 1)%nat by lia.
    rewrite <- drop_drop, Hd, user_record_eq by done. cbn. by rewrite <- (assoc_L (++)). }
  rewrite Hd1, strcmp_eq_spec by (done || apply He). cbn [res_opt]. rewrite (bind_ok (mret _) _ s _ s eq_refl).
  destruct (decide (e.1 = name)) as [Heq|Hne].
  { by rewrite bool_decide_true. }
  rewrite bool_decide_false by done.
  assert (buffer !! Z.to_nat (zlen l1) = Some (zlen e.1 + 1)) as Hc.
  { rewrite <- (Nat.add_0_r (Z.to_nat _)), <- lookup_drop, Hd, user_record_eq by done. done. }
  rewrite Hc. cbn [res_opt]. rewrite (bind_ok (mret _) _ s _ s eq_refl).
  rewrite char_value_small by (destruct He; lia). rewrite zlen_app, Hrec.
  rewrite s32_small by (fold buffer in Hlen; lia). do 2 f_equal. lia.
Qed.

Lemma users_bytes_app es1 es2 : users_bytes (es1 ++ es2) = users_bytes es1 ++ users_bytes es2.
Proof. unfold users_bytes. by rewrite map_app, concat_app. Qed.
Lemma users_bytes_cons e es : users_bytes (e :: es) = user_record e.1 e.2 ++ users_bytes es.
Proof. done. Qed.

(** Where the record's key is. *)
Lemma key_at es1 e es2 (b := users_bytes (es1 ++ e :: es2)) (i := zlen (users_bytes es1)) :
  entry_ok e →
  b !! Z.to_nat i = Some (zlen e.1 + 1) ∧ i + 1 + (zlen e.1 + 1) + 20 <= zlen b ∧
  slice (Z.to_nat (i + 1 + (zlen e.1 + 1))) 20 b = e.2.
Proof.
  intros He. pose proof (en_key e He) as Hk.
  assert (b = users_bytes es1 ++ ((zlen e.1 + 1) :: e.1 ++ [0]) ++ e.2 ++ users_bytes es2) as Hb.
  { unfold b. rewrite users_bytes_app, users_bytes_cons, user_record_eq by done.
    cbn. by rewrite <- !(assoc_L (++)). }
  assert (zlen e.2 = 20) as Hk' by (unfold zlen; lia).
  pose proof (zlen_nonneg (users_bytes es1)). pose proof (zlen_nonneg (users_bytes es2)).
  pose proof (zlen_nonneg e.1). split_and!.
  - rewrite Hb, lookup_app_r by (unfold i, zlen; lia).
    by replace (Z.to_nat i - length (users_bytes es1))%nat with 0%nat by (unfold i, zlen; lia).
  - rewrite Hb, !zlen_app, zlen_cons, zlen_app, Hk'. change (zlen [0]) with 1. unfold i. lia.
  - rewrite Hb, (assoc_L (++)). unfold slice. rewrite drop_app_length'.
    + by rewrite take_app_length' by lia.
    + rewrite length_app. cbn [length]. rewrite length_app. cbn [length]. unfold i, zlen. lia.
Qed.

(** What the search over the rest [es] of the records finds. *)
Definition found (done_ es : list entry) (name : list Z) (r : option Z) : Prop :=
  match key_of name es with
  | None => r = None
  | Some k => ∃ es1 e es2, es = es1 ++ e :: es2 ∧ e.2 = k ∧ r = Some (zlen (users_bytes (done_ ++ es1)))
  end.

Lemma find_user_spec es done_ n name (s : tool D F) :
  Forall entry_ok es → no_zero name → (length es < n)%nat →
  zlen (users_bytes (done_ ++ es)) < 2 ^ 31 →
  ∃ r, find_user char_signed n (users_bytes (done_ ++ es)) (zlen (users_bytes (done_ ++ es)))
         (zlen (users_bytes done_)) name s = Ok r s ∧ found done_ es name r.
Proof.
  revert done_ n. induction es as [|e es IH]; intros done_ n Hes Hname Hn Hlen;
    (destruct n as [|n]; [cbn in Hn; lia|]).
  { exists None. split; [|done]. apply find_user_stop. by rewrite app_nil_r. }
  apply Forall_cons in Hes as [He Hes]. cbn [length] in Hn.
  rewrite users_bytes_app, users_bytes_cons in *.
  rewrite find_user_record by done. unfold found. cbn [key_of].
  destruct (decide (e.1 = name)).
  { eexists. split; [done|]. exists [], e, es. by rewrite app_nil_r. }
  destruct (IH (done_ ++ [e]) n) as (r & Hr & Hf); [done|done|lia| |].
  { rewrite users_bytes_app, users_bytes_app, <- (assoc_L (++)). unfold users_bytes at 2. cbn.
    by rewrite app_nil_r. }
  rewrite !users_bytes_app, <- !(assoc_L (++)), !(users_bytes_cons e []), app_nil_r in Hr.
  exists r. split; [exact Hr|]. unfold found in Hf. destruct (key_of name es); [|done].
  destruct Hf as (es1 & e1 & es2 & -> & Hk & Hz). exists (e :: es1), e1, es2.
  split_and!; [done..|]. by rewrite <- (assoc_L (++)) in Hz.
Qed.
End Keys.

(** ** A disk that keeps files *)

Section Disk.
Context {F : Type} `{Local F} (contents : F → list Z → option (list Z)).

Definition same_disk (f f' : F) : Prop :=
  (∀ q, contents f' q = contents f q) ∧ ∀ v, sys_getenv v f' = sys_getenv v f.
Definition stored (p l : list Z) (f f' : F) : Prop :=
  (∀ q, contents f' q = if decide (q = p) then Some l else contents f q) ∧
  ∀ v, sys_getenv v f' = sys_getenv v f.
End Disk.

Class DiskKeeps {F} `{Local F} (contents : F → list Z → option (list Z)) : Prop := {
  dk_read f p c : contents f p = Some c →
    ∃ fd f1 st f2, sys_open p false f = (inr fd, f1) ∧ sys_fstat fd f1 = Some st ∧
      st_size st = zlen c ∧ sys_read fd (zlen c) f1 = (inr c, f2) ∧
      same_disk contents f (sys_close fd f2);
  dk_none f p : contents f p = None →
    ∃ f1, sys_open p false f = (inl ENOENT, f1) ∧ same_disk contents f f1;
  dk_write f p l :
    ∃ fd f1 n f2, sys_open p true f = (inr fd, f1) ∧ sys_write fd l f1 = (inr n, f2) ∧
      stored contents p l f (sys_close fd f2);
  dk_mkdir f p : same_disk contents f (sys_mkdir p f).2;
}.

Section Users.
Context {D F : Type} `{Device D} `{Local F} (contents : F → list Z → option (list Z)).
Context `{!DiskKeeps contents} (junk_size : Z) (char_signed : bool) (fuel : nat).
Abbreviation same := (same_disk contents).

Lemma same_trans f1 f2 f3 : same f1 f2 → same f2 f3 → same f1 f3.
Proof. intros [H1 H2] [H3 H4]. split; intros q; [by rewrite H3|by rewrite H4]. Qed.

Lemma data_dir_same f f' : same f f' → get_data_dir f' = get_data_dir f.
Proof. intros [_ He]. unfold get_data_dir. by rewrite !He. Qed.

Definition users_path (dir : list Z) : list Z := add_parts PATH_SEP dir [Some (str "users.dat")].

Lemma users_file_ok dir (d : D) f :
  get_data_dir f = Some dir →
  ∃ f', users_file (Tool d f) = Ok (Some (users_path dir)) (Tool d f') ∧ same f f'.
Proof.
  intros Hd. pose proof (dk_mkdir f dir) as Hs. exists (sys_mkdir dir f).2. split; [|done].
  unfold users_file. rewrite (bind_ok (ask_files get_data_dir) _ _ (Some dir) (Tool d f))
    by (unfold ask_files, res_get; cbn [files]; by rewrite Hd).
  rewrite (bind_ok (on_files (sys_mkdir dir)) _ _ (sys_mkdir dir f).1 (Tool d (sys_mkdir dir f).2))
    by (unfold on_files; cbn [files]; by destruct (sys_mkdir dir f)).
  done.
Qed.

Lemma read_ok p c (d : D) f :
  contents f p = Some c → zlen c < 2 ^ 31 →
  ∃ f', on_files (read_file junk_size p) (Tool d f) = Ok (inr (c, zlen c)) (Tool d f') ∧ same f f'.
Proof.
  intros Hc Hlen. destruct (dk_read f p c Hc) as (fd & f1 & st & f2 & Ho & Hst & Hsz & Hr & Hs).
  exists (sys_close fd f2). split; [|done].
  unfold on_files, read_file. cbn [files]. rewrite Ho, Hst, Hsz, Hr.
  pose proof (zlen_nonneg c). rewrite s32_small by lia.
  replace (Z.to_nat (zlen c) - length c)%nat with 0%nat by (unfold zlen; lia). by rewrite app_nil_r.
Qed.

Lemma read_none p (d : D) f :
  contents f p = None →
  ∃ f', on_files (read_file junk_size p) (Tool d f) = Ok (inl ENOENT) (Tool d f') ∧ same f f'.
Proof.
  intros Hc. destruct (dk_none f p Hc) as (f1 & Ho & Hs). exists f1. split; [|done].
  unfold on_files, read_file. cbn [files]. by rewrite Ho.
Qed.

Lemma write_ok p l (d : D) f :
  ∃ f', on_files (write_file p l) (Tool d f) = Ok None (Tool d f') ∧ stored contents p l f f'.
Proof.
  destruct (dk_write f p l) as (fd & f1 & n & f2 & Ho & Hw & Hs). exists (sys_close fd f2).
  split; [|done]. unfold on_files, write_file. cbn [files]. by rewrite Ho, Hw.
Qed.

(** The records of the file, which need not exist when there are none. *)
Definition has_users (dir : list Z) (es : list entry) (f : F) : Prop :=
  get_data_dir f = Some dir ∧
  (contents f (users_path dir) = Some (users_bytes es) ∨
   es = [] ∧ contents f (users_path dir) = None).

Lemma has_users_same dir es f f' : same f f' → has_users dir es f → has_users dir es f'.
Proof.
  intros Hs [Hd Hc]. split; [by rewrite (data_dir_same f)|]. destruct Hs as [Hq _]. by rewrite Hq.
Qed.

Lemma load_ok dir es name (d : D) f :
  has_users dir es f → Forall entry_ok es → no_zero name → (length es < fuel)%nat →
  zlen (users_bytes es) < 2 ^ 31 →
  ∃ f', _load_user_key junk_size char_signed fuel name (Tool d f) = Ok (key_of name es) (Tool d f') ∧
        same f f'.
Proof.
  intros Hu Hes Hname Hfuel Hlen. pose proof Hu as [Hd _].
  destruct (users_file_ok dir d f Hd) as (f1 & E1 & Hs1). unfold _load_user_key.
  rewrite (bind_ok _ _ _ _ _ E1). apply (has_users_same _ _ _ _ Hs1) in Hu as [_ [Hc|[-> Hc]]].
  - destruct (read_ok _ _ d f1 Hc Hlen) as (f2 & E2 & Hs2). rewrite (bind_ok _ _ _ _ _ E2).
    exists f2. split; [|by apply (same_trans f f1)].
    destruct (find_user_spec char_signed es [] fuel name (Tool d f2)) as (r & E3 & Hf); [done..|].
    cbn [app] in E3. change (zlen (users_bytes [])) with 0 in E3. rewrite (bind_ok _ _ _ _ _ E3).
    unfold found in Hf. destruct (key_of name es) as [k|]; [|by subst r].
    destruct Hf as (es1 & e & es2 & -> & <- & ->). cbn [app].
    assert (entry_ok e) as He by (apply Forall_app in Hes as [_ Hes]; by apply Forall_cons in Hes as [? _]).
    destruct (key_at es1 e es2 He) as (Hb & Hin & Hk). rewrite Hb. cbn [res_opt].
    rewrite (bind_ok (mret _) _ (Tool d f2) _ (Tool d f2) eq_refl).
    pose proof (zlen_nonneg (users_bytes es1)). pose proof (zlen_nonneg e.1).
    rewrite char_value_small by (destruct He; lia).
    destruct (Z.leb_spec 0 (zlen (users_bytes es1) + 1 + (zlen e.1 + 1))); [|lia].
    destruct (Z.leb_spec (zlen (users_bytes es1) + 1 + (zlen e.1 + 1) + 20)
      (zlen (users_bytes (es1 ++ e :: es2)))); [|lia].
    cbn [andb]. by rewrite Hk.
  - destruct (read_none _ d f1 Hc) as (f2 & E2 & Hs2). rewrite (bind_ok _ _ _ _ _ E2).
    exists f2. split; [done|by apply (same_trans f f1)].
Qed.

Definition with_key (name key : list Z) (es : list entry) : list entry :=
  if key_of name es then es else es ++ [(name, key)].

Lemma save_ok dir es name key (d : D) f :
  has_users dir es f → Forall entry_ok es → entry_ok (name, key) → (length es < fuel)%nat →
  zlen (users_bytes es) < 2 ^ 31 →
  ∃ f', _save_user_key junk_size char_signed fuel name key (Tool d f) = Ok true (Tool d f') ∧
        has_users dir (with_key name key es) f'.
Proof.
  intros Hu Hes Hnew Hfuel Hlen. pose proof Hu as [Hd _].
  destruct (users_file_ok dir d f Hd) as (f1 & E1 & Hs1). unfold _save_user_key.
  rewrite (bind_ok _ _ _ _ _ E1). pose proof (has_users_same _ _ _ _ Hs1 Hu) as Hu1.
  pose proof Hu1 as [Hd1 [Hc|[-> Hc]]].
  - destruct (read_ok _ _ d f1 Hc Hlen) as (f2 & E2 & Hs2). rewrite (bind_ok _ _ _ _ _ E2).
    pose proof (has_users_same _ _ _ _ Hs2 Hu1) as [Hd2 _].
    destruct (find_user_spec char_signed es [] fuel name (Tool d f2)) as (r & E3 & Hf);
      [done|apply Hnew|done..|].
    cbn [app] in E3. change (zlen (users_bytes [])) with 0 in E3. rewrite (bind_ok _ _ _ _ _ E3).
    unfold found in Hf. unfold with_key. destruct (key_of name es) as [k|].
    + destruct Hf as (es1 & e & es2 & -> & <- & ->). exists f2. split; [done|].
      apply (has_users_same _ _ f1); [done|]. exact Hu1.
    + subst r. rewrite take_ge by (unfold zlen; lia).
      destruct (write_ok (users_path dir) (users_bytes es ++ user_record name key) d f2)
        as (f3 & E4 & [Hq He]). rewrite (bind_ok _ _ _ _ _ E4). exists f3. split; [done|].
      split; [|left; rewrite Hq, decide_True, users_bytes_app by done; by rewrite users_bytes_cons, app_nil_r].
      rewrite <- Hd2. unfold get_data_dir. by rewrite !He.
  - destruct (read_none _ d f1 Hc) as (f2 & E2 & Hs2). rewrite (bind_ok _ _ _ _ _ E2).
    pose proof (has_users_same _ _ _ _ Hs2 Hu1) as [Hd2 _]. cbn [negb].
    destruct (write_ok (users_path dir) (user_record name key) d f2) as (f3 & E4 & [Hq He]).
    change (negb (ENOENT =? ENOENT)) with false. cbn iota.
    rewrite (bind_ok _ _ _ _ _ E4). exists f3. split; [done|]. split.
    + rewrite <- Hd2. unfold get_data_dir. by rewrite !He.
    + left. rewrite Hq, decide_True by done. cbn. by rewrite app_nil_r.
Qed.
End Users.

Lemma key_of_app n es e :
  key_of n (es ++ [e]) = match key_of n es with
                         | Some k => Some k
                         | None => if decide (e.1 = n) then Some e.2 else None
                         end.
Proof. induction es as [|e' es IH]; cbn; [done|]. by destruct (decide (e'.1 = n)). Qed.

(** ** A sample disk *)

Record drive := Drive { store : list (list Z * list Z); opened : list Z }.

Definition stored_at (d : drive) (p : list Z) : option (list Z) := key_of p (store d).

Definition drive_local : Local drive := {|
  sys_getenv v d := Some (str "/home/me/exword");
  sys_open p w d :=
    if w then (inr 3, Drive (store d) p)
    else match stored_at d p with
         | Some _ => (inr 3, Drive (store d) p)
         | None => (inl ENOENT, d)
         end;
  sys_fstat fd d := Some (Status (zlen (default [] (stored_at d (opened d)))) true false);
  sys_read fd n d := (inr (default [] (stored_at d (opened d))), d);
  sys_write fd l d := (inr (zlen l), Drive ((opened d, l) :: store d) (opened d));
  sys_close fd d := d;
  sys_stat p d := None;
  sys_opendir p d := None;
  sys_mkdir p d := (true, d);
|}.

Lemma drive_keeps : @DiskKeeps drive drive_local stored_at.
Proof.
  split.
  - intros d p c Hc. exists 3, (Drive (store d) p), (Status (zlen c) true false), (Drive (store d) p).
    cbn. rewrite Hc. cbn in Hc |- *. unfold stored_at in *. cbn. rewrite Hc. done.
  - intros d p Hc. exists d. cbn. by rewrite Hc.
  - intros d p l. exists 3, (Drive (store d) p), (zlen l), (Drive ((p, l) :: store d) p).
    split; [done|]. split; [done|]. split; [|done]. intros q. unfold stored_at. cbn.
    destruct (decide (p = q)), (decide (q = p)); congruence.
  - done.
Qed.

(** On a disk that keeps files, with a key file made of records of names
    shorter than 127 bytes (or no file yet), saving a user's key succeeds, and
    afterwards every user's key is loaded as it was saved: a user without a key
    before has the new one; a user who had one keeps the old one; nobody else's
    changes. *)
Theorem user_keys_roundtrip {D F} `{Local F} (contents : F → list Z → option (list Z))
    `{!DiskKeeps contents} junk_size char_signed fuel dir es name key (d : D) (f : F) :
  has_users contents dir es f → Forall entry_ok es → entry_ok (name, key) →
  (length es + 1 < fuel)%nat → zlen (users_bytes es) + zlen name + 22 < 2 ^ 31 →
  ∃ f1, _save_user_key junk_size char_signed fuel name key (Tool d f) = Ok true (Tool d f1) ∧
    ∀ n, no_zero n →
      ∃ f2, _load_user_key junk_size char_signed fuel n (Tool d f1) =
        Ok (if decide (n = name) then Some (default key (key_of name es)) else key_of n es) (Tool d f2).
Proof.
  intros Hu Hes Hnew Hfuel Hlen. pose proof (zlen_nonneg name).
  destruct (save_ok contents junk_size char_signed fuel dir es name key d f) as (f1 & E1 & Hu1);
    [done..|lia|lia|].
  exists f1. split; [done|]. intros n Hn.
  assert (key_of n (with_key name key es) =
    if decide (n = name) then Some (default key (key_of name es)) else key_of n es) as <-.
  { unfold with_key. destruct (decide (n = name)) as [->|Hne].
    - destruct (key_of name es) eqn:Hk; [done|]. rewrite key_of_app, Hk. cbn. by rewrite decide_True.
    - destruct (key_of name es); [done|]. rewrite key_of_app. cbn. rewrite decide_False by congruence.
      by destruct (key_of n es). }
  destruct (load_ok contents junk_size char_signed fuel dir (with_key name key es) n d f1)
    as (f2 & E2 & _).
  - done.
  - unfold with_key. destruct (key_of name es); [done|]. apply Forall_app. by split; [|constructor].
  - done.
  - unfold with_key. destruct (key_of name es); [lia|]. rewrite length_app. cbn [length]. lia.
  - unfold with_key. destruct (key_of name es); [lia|]. rewrite users_bytes_app, zlen_app.
    pose proof (record_length (name, key) Hnew) as Hr. cbn [fst snd] in Hr.
    rewrite users_bytes_cons. cbn [fst snd]. rewrite zlen_app. change (zlen (users_bytes [])) with 0. lia.
  - by exists f2.
Qed.

Lemma user_keys_roundtrip_witness :
  ∃ f1 f2, @_save_user_key Z drive drive_local 0 true 5 (str "bob") (replicate 20 7)
      (Tool 1 (Drive [] [])) = Ok true (Tool 1 f1) ∧
    @_load_user_key Z drive drive_local 0 true 5 (str "bob") (Tool 1 f1) =
      Ok (Some (replicate 20 7)) (Tool 1 f2).
Proof.
  destruct (@user_keys_roundtrip Z drive drive_local stored_at drive_keeps 0 true 5
    (str "/home/me/exword") [] (str "bob") (replicate 20 7) 1 (Drive [] [])) as (f1 & E1 & Hl).
  - split; [reflexivity|right; split; reflexivity].
  - constructor.
  - split; [apply (bool_decide_unpack _); vm_compute; exact I|vm_compute; reflexivity|reflexivity].
  - cbn. lia.
  - vm_compute. reflexivity.
  - destruct (Hl (str "bob")) as [f2 E2]; [apply (bool_decide_unpack _); vm_compute; exact I|].
    exists f1, f2. split; [exact E1|]. exact E2.
Defined.
