(* ===== verification/Libc.v ===== *)
(** * C library of the payload programs: strings, numbers and formatting

    [src/experiments/hello-world/src/libc] (the same files serve [sysinfo]): the
    string functions written in C, [atoi], [rand] and the formatter behind
    [sprintf], then their properties.

    A pointer to characters is the list of the bytes from it to the end of the
    object it points into; [None] is an access past that end (or an argument of
    the wrong type), and inside a result [None] is [NULL]. *)

From S2P Require Import Prelude.

(** ** Characters *)

Definition isdigit (c : Z) : Z := if (48 <=? c) && (c <=? 57) then 1 else 0.
Definition tolower (c : Z) : Z := if (0x41 <=? c) && (c <=? 0x5A) then c + 0x20 else c.

(** ** Strings *)

Fixpoint strlen (s : list Z) : option Z :=
  match s with
  | [] => None
  | c :: s' => if c =? 0 then Some 0 else n ← strlen s'; Some (n + 1)
  end.

Fixpoint strchr (s : list Z) (c : Z) : option (option (list Z)) :=
  match s with
  | [] => None
  | b :: s' =>
      if b =? u8 c then Some (Some s) else if b =? 0 then Some None else strchr s' c
  end.

Definition strchrnul (s1 : list Z) (i : Z) : option (list Z) :=
  s ← strchr s1 i;
  match s with
  | Some s => Some s
  | None => n ← strlen s1; Some (drop (Z.to_nat n) s1)
  end.

Fixpoint strrchr_loop (s : list Z) (c : Z) (p : option (list Z)) : option (option (list Z)) :=
  match s with
  | [] => None
  | b :: s' =>
      let p := if b =? u8 c then Some s else p in
      if b =? 0 then Some p else strrchr_loop s' c p
  end.
Definition strrchr (s : list Z) (c : Z) : option (option (list Z)) := strrchr_loop s c None.

(** The inner loop of [strpbrk]: is the character in the set? *)
Fixpoint in_set (c : Z) (p : list Z) : option bool :=
  match p with
  | [] => None
  | b :: p' => if b =? 0 then Some false else if b =? c then Some true else in_set c p'
  end.
Fixpoint strpbrk (s1 s2 : list Z) : option (option (list Z)) :=
  match s1 with
  | [] => None
  | c :: s =>
      if c =? 0 then Some None
      else found ← in_set c s2; if found : bool then Some (Some s1) else strpbrk s s2
  end.

Fixpoint strcmp (s1 s2 : list Z) : option Z :=
  match s1, s2 with
  | b1 :: s1', b2 :: s2' =>
      let r := b1 - b2 in
      if (r =? 0) && negb (b1 =? 0) then strcmp s1' s2' else Some r
  | _, _ => None
  end.

(** [same]: both pointers are equal, and stay so. *)
Fixpoint strcasecmp (same : bool) (s1 s2 : list Z) : option Z :=
  match s1, s2 with
  | b1 :: s1', b2 :: s2' =>
      let r := if same then 0 else tolower b1 - tolower b2 in
      if (r =? 0) && negb (b1 =? 0) then strcasecmp same s1' s2' else Some r
  | _, _ => None
  end.

Fixpoint memcmp (s1 s2 : list Z) (n : nat) : option Z :=
  match n with
  | O => Some 0
  | S n' =>
      match s1, s2 with
      | b1 :: s1', b2 :: s2' =>
          let r := b1 - b2 in if r =? 0 then memcmp s1' s2' n' else Some r
      | _, _ => None
      end
  end.

(** [*s = c] at an index of the destination. *)
Definition put (s : list Z) (i : nat) (c : Z) : option (list Z) :=
  if decide (i < length s)%nat then Some (<[i := c]> s) else None.

(** Copying up to and including the terminator. *)
Fixpoint copy_string (s1 : list Z) (i : nat) (s2 : list Z) : option (list Z) :=
  match s2 with
  | [] => None
  | c :: s2' => s1 ← put s1 i c; if c =? 0 then Some s1 else copy_string s1 (S i) s2'
  end.
Definition strcat (s1 s2 : list Z) : option (list Z) :=
  n ← strlen s1; copy_string s1 (Z.to_nat n) s2.

Fixpoint copy_at_most (s1 : list Z) (i : nat) (s2 : list Z) (n : nat) : option (list Z) :=
  match n with
  | O => put s1 i 0
  | S n' =>
      match s2 with
      | [] => None
      | c :: s2' => s1 ← put s1 i c; if c =? 0 then put s1 i 0 else copy_at_most s1 (S i) s2' n'
      end
  end.
Definition strncat (s1 s2 : list Z) (n : nat) : option (list Z) :=
  k ← strlen s1; copy_at_most s1 (Z.to_nat k) s2 n.

(** ** The end of a program

    [atexit_cb], the one callback, is a value of [C]; [exit] gives what it calls. *)

Inductive exit_call (C : Type) : Type := Callback (function : C) | Exit_syscall (status : Z).
Arguments Callback {C} function.
Arguments Exit_syscall {C} status.

Definition atexit {C} (function : option C) (atexit_cb : option C) : Z * option C := (0, function).
Definition exit {C} (status : Z) (atexit_cb : option C) : list (exit_call C) :=
  match atexit_cb with Some f => [Callback f] | None => [] end ++ [Exit_syscall (-2)].

(** ** Numbers *)

Definition srand (seed : Z) (lastrandom : Z) : Z := u32 seed.
Definition rand (lastrandom : Z) : Z * Z :=
  let lastrandom := u32 (0x41C64E6D * lastrandom + 0x3039) in
  (Z.shiftr lastrandom 16, lastrandom).

Fixpoint atoi_hex (s : list Z) (a : Z) : option Z :=
  match s with
  | [] => None
  | c :: s' =>
      if c =? 0 then Some a
      else if negb (isdigit c =? 0) then atoi_hex s' (s32 (Z.shiftl a 4 + c - 48))
      else if (65 <=? c) && (c <=? 70) then atoi_hex s' (s32 (Z.shiftl a 4 + c - 65 + 10))
      else if (97 <=? c) && (c <=? 102) then atoi_hex s' (s32 (Z.shiftl a 4 + c - 97 + 10))
      else Some a
  end.
Fixpoint atoi_oct (s : list Z) (a : Z) : option Z :=
  match s with
  | [] => None
  | c :: s' =>
      if c =? 0 then Some a
      else if (48 <=? c) && (c <=? 55) then atoi_oct s' (s32 (Z.shiftl a 3 + c - 48))
      else Some a
  end.
Fixpoint atoi_dec (s : list Z) (a : Z) : option Z :=
  match s with
  | [] => None
  | c :: s' =>
      if c =? 0 then Some a
      else if negb (isdigit c =? 0) then atoi_dec s' (s32 (a * 10 + c - 48)) else Some a
  end.

Definition atoi (s : list Z) : option Z :=
  match s with
  | [] => None
  | c :: s' =>
      if c =? 48 then
        match s' with
        | [] => None
        | x :: s'' => if (x =? 120) || (x =? 88) then atoi_hex s'' 0 else atoi_oct s' 0
        end
      else if c =? 45 then a ← atoi_dec s' 0; Some (s32 (- a))
      else atoi_dec s 0
  end.

(** ** Formatting *)

Definition PAD_RIGHT : Z := 1.
Definition PAD_ZERO : Z := 2.
Definition PRINT_BUF_LEN : Z := 12.

(** What was written ([None] for a null [out]) and the count [pc]. *)
Definition printed : Type := option (list Z) * Z.

Definition printchar (str : option (list Z)) (c : Z) : option (list Z) :=
  match str with Some l => Some (l ++ [u8 c]) | None => None end.

(** [printchar(out, c); ++pc;] *)
Definition emit (c : Z) (p : printed) : printed := (printchar p.1 c, s32 (p.2 + 1)).

(** [for ( ; width > 0; --width)] *)
Fixpoint emit_n (n : nat) (c : Z) (p : printed) : printed :=
  match n with O => p | S n' => emit_n n' c (emit c p) end.
Fixpoint emit_string (s : list Z) (p : printed) : option printed :=
  match s with
  | [] => None
  | c :: s' => if c =? 0 then Some p else emit_string s' (emit c p)
  end.

(** With the count so far added to the result. *)
Definition prints (string : list Z) (width pad : Z) (p : printed) : option printed :=
  '(width, padchar) ←
    (if 0 <? width then
       len ← strlen string;
       Some (if width <=? len then 0 else width - len,
             if negb (Z.land pad PAD_ZERO =? 0) then 48 else 32)
     else Some (width, 32));
  let '(p, width) := if Z.land pad PAD_RIGHT =? 0
                     then (emit_n (Z.to_nat width) padchar p, Z.min width 0) else (p, width) in
  p ← emit_string string p;
  Some (emit_n (Z.to_nat width) padchar p).

(** [*--s = c]: the characters before the terminator, in the twelve bytes of
    [print_buf]. *)
Definition push (c : Z) (s : list Z) : option (list Z) :=
  if zlen s <? PRINT_BUF_LEN - 1 then Some (u8 c :: s) else None.

(** [while (u)]; every turn divides by [b > 1]. *)
Fixpoint push_digits (n : nat) (u b letbase : Z) (s : list Z) : option (list Z) :=
  if u =? 0 then Some s
  else match n with
       | O => None
       | S n' =>
           let t := u mod b in
           let t := if 10 <=? t then t + (letbase - 48 - 10) else t in
           s ← push (t + 48) s;
           push_digits n' (u / b) b letbase s
       end.

Definition printi (i b : Z) (sg : bool) (width pad letbase : Z) (p : printed) : option printed :=
  if i =? 0 then prints [48; 0] width pad p
  else
    let neg := sg && (b =? 10) && (i <? 0) in
    s ← push_digits 32 (if neg then u32 (- i) else u32 i) b letbase [];
    if neg then
      if negb (width =? 0) && negb (Z.land pad PAD_ZERO =? 0)
      then prints (s ++ [0]) (s32 (width - 1)) pad (emit 45 p)
      else s ← push 45 s; prints (s ++ [0]) width pad p
    else prints (s ++ [0]) width pad p.

(** The variable arguments: [int]s and strings ([None] is [NULL]). *)
Inductive va_arg : Type := AInt (i : Z) | AStr (s : option (list Z)).

Definition next_int (args : list va_arg) : option (Z * list va_arg) :=
  match args with AInt i :: args => Some (i, args) | _ => None end.

(** [while ( *format == '0')] and the digits of the width. *)
Fixpoint skip_zeros (format : list Z) (pad : Z) : list Z * Z :=
  match format with
  | 48 :: format' => skip_zeros format' (Z.lor pad PAD_ZERO)
  | _ => (format, pad)
  end.
Fixpoint read_width (format : list Z) (width : Z) : list Z * Z :=
  match format with
  | c :: format' =>
      if (48 <=? c) && (c <=? 57) then read_width format' (s32 (s32 (width * 10) + (c - 48)))
      else (format, width)
  | [] => ([], width)
  end.

Definition null_string : list Z := [40; 110; 117; 108; 108; 41; 0].

(** The conversion character [c]; an unknown one prints nothing. *)
Definition convert_arg (c width pad : Z) (args : list va_arg) (p : printed)
    : option (printed * list va_arg) :=
  if c =? 115 then
    match args with
    | AStr s :: args => p ← prints (default null_string s) width pad p; Some (p, args)
    | _ => None
    end
  else if c =? 100 then
    '(i, args) ← next_int args; p ← printi i 10 true width pad 97 p; Some (p, args)
  else if c =? 120 then
    '(i, args) ← next_int args; p ← printi i 16 false width pad 97 p; Some (p, args)
  else if c =? 88 then
    '(i, args) ← next_int args; p ← printi i 16 false width pad 65 p; Some (p, args)
  else if c =? 117 then
    '(i, args) ← next_int args; p ← printi i 10 false width pad 97 p; Some (p, args)
  else if c =? 99 then
    '(i, args) ← next_int args; p ← prints [u8 i; 0] width pad p; Some (p, args)
  else Some (p, args).

(** The loop over the format; [None] also where [fuel] is not enough. *)
Fixpoint print_loop (fuel : nat) (format : list Z) (args : list va_arg) (p : printed)
    : option printed :=
  match fuel, format with
  | S fuel', c :: format' =>
      if c =? 0 then Some p
      else if c =? 37 then
        match format' with
        | [] => None
        | c1 :: f1 =>
            if c1 =? 0 then Some p
            else if c1 =? 37 then print_loop fuel' f1 args (emit c1 p)
            else
              let '(f, pad) := if c1 =? 45 then (f1, PAD_RIGHT) else (format', 0) in
              let '(f, pad) := skip_zeros f pad in
              let '(f, width) := read_width f 0 in
              match f with
              | [] => None
              | conv :: f =>
                  '(p, args) ← convert_arg conv width pad args p;
                  print_loop fuel' f args p
              end
        end
      else print_loop fuel' format' args (emit c p)
  | _, _ => None
  end.

(** The count and the characters written, with the terminator. *)
Definition print (out : option (list Z)) (format : list Z) (args : list va_arg)
    : option (Z * option (list Z)) :=
  '(out, pc) ← print_loop (length format) format args (out, 0);
  Some (pc, match out with Some l => Some (l ++ [0]) | None => None end).

Definition vsprintf (format : list Z) (args : list va_arg) : option (Z * option (list Z)) :=
  print (Some []) format args.
Definition sprintf (format : list Z) (args : list va_arg) : option (Z * option (list Z)) :=
  print (Some []) format args.

(** Only the last callback is called, and every program ends with the same status. *)
Lemma exit_status_lost {C} (f g : C) cb status status' :
  exit status (atexit (Some g) (atexit (Some f) cb).2).2 = [Callback g; Exit_syscall (-2)] ∧
  exit status cb = exit status' cb.
Proof. done. Qed.

Lemma put_splice s i c : (i < length s)%nat → put s i c = Some (splice i [c] s).
Proof.
  intros Hi. unfold put. rewrite decide_True by done. unfold splice.
  by rewrite insert_take_drop, Nat.add_1_r by done.
Qed.

(** ** Counting what is printed *)

Lemma s32_mul_add a b c : s32 (s32 a * b + c) = s32 (a * b + c).
Proof.
  unfold s32.
  assert (((a + 2 ^ 31) `mod` 2 ^ 32 - 2 ^ 31) * b + c + 2 ^ 31
          = a * b + c + 2 ^ 31 + (- ((a + 2 ^ 31) / 2 ^ 32) * b) * 2 ^ 32) as ->.
  { rewrite Z.mod_eq by lia. lia. }
  by rewrite Z.mod_add by lia.
Qed.

Lemma s32_add a b : s32 (s32 a + b) = s32 (a + b).
Proof. pose proof (s32_mul_add a 1 b) as E. by rewrite !Z.mul_1_r in E. Qed.

(** [q] continues [p] with the characters [w]; [normal]: the count is an [int]. *)
Definition wrote (w : list Z) (p q : printed) : Prop :=
  q.1 = option_map (λ l, l ++ w) p.1 ∧ q.2 = s32 (p.2 + zlen w).
Definition normal (p : printed) : Prop := s32 p.2 = p.2.

Lemma wrote_normal w p q : wrote w p q → normal q.
Proof.
  intros [_ H]. unfold normal. rewrite H. pose proof (s32_add (p.2 + zlen w) 0) as E.
  by rewrite !Z.add_0_r in E.
Qed.

(** The output grew by what the count grew by. *)
Definition counted (p q : printed) : Prop := normal p → ∃ w, wrote w p q.

#[export] Instance counted_refl : Reflexive counted.
Proof.
  intros p Hp. exists []. split; [destruct p.1; [|done]; cbn; by rewrite app_nil_r|].
  change (zlen []) with 0. by rewrite Z.add_0_r.
Qed.

#[export] Instance counted_trans : Transitive counted.
Proof.
  intros p q r Hpq Hqr Hp. destruct (Hpq Hp) as [w Hw].
  destruct (Hqr (wrote_normal _ _ _ Hw)) as [v [H3 H4]]. destruct Hw as [H1 H2].
  exists (w ++ v). split.
  - rewrite H3, H1. destruct p.1; [|done]. cbn. by rewrite <- (assoc (++)).
  - rewrite H4, H2, s32_add, zlen_app. f_equal. lia.
Qed.

Lemma counted_emit c p : counted p (emit c p).
Proof. exists [u8 c]. split; [by destruct p as [[] ?]|done]. Qed.

Lemma counted_emit_n n c p : counted p (emit_n n c p).
Proof.
  revert p. induction n as [|n IH]; intros p; [done|]. cbn [emit_n].
  etrans; [apply counted_emit|apply IH].
Qed.

Lemma counted_emit_string s p q : emit_string s p = Some q → counted p q.
Proof.
  revert p. induction s as [|c s IH]; intros p; [done|]. cbn [emit_string].
  destruct (c =? 0); [by intros [= ->]|]. intros E.
  etrans; [apply (counted_emit c)|by apply IH].
Qed.

Lemma counted_prints s width pad p q : prints s width pad p = Some q → counted p q.
Proof.
  unfold prints. intros ([w c] & _ & E)%bind_Some.
  destruct (if Z.land pad PAD_RIGHT =? 0 then _ else _) as [p1 w1] eqn:E1.
  apply bind_Some in E as (p2 & Es & [= <-]).
  transitivity p1; [|etrans; [by eapply counted_emit_string|apply counted_emit_n]].
  destruct (_ =? 0); injection E1 as <- _; [apply counted_emit_n|done].
Qed.

Lemma counted_printi i b sg width pad letbase p q :
  printi i b sg width pad letbase p = Some q → counted p q.
Proof.
  unfold printi. destruct (i =? 0); [apply counted_prints|]. cbv zeta.
  intros (s & _ & E)%bind_Some. destruct (sg && (b =? 10) && (i <? 0)); [|by eapply counted_prints].
  destruct (_ && _); [etrans; [apply (counted_emit 45)|by eapply counted_prints]|].
  apply bind_Some in E as (s' & _ & E). by eapply counted_prints.
Qed.

Lemma counted_convert_arg c width pad args p q args' :
  convert_arg c width pad args p = Some (q, args') → counted p q.
Proof.
  unfold convert_arg.
  destruct (c =? 115).
  { destruct args as [|[i|s] args]; try done. intros (p' & E & [= -> _])%bind_Some.
    by eapply counted_prints. }
  repeat (destruct (c =? _);
    [intros ([i args1] & _ & (p' & E & [= -> _])%bind_Some)%bind_Some;
     first [by eapply counted_printi|by eapply counted_prints]|]).
  by intros [= -> _].
Qed.

Lemma counted_print_loop n format args p q :
  print_loop n format args p = Some q → counted p q.
Proof.
  revert format args p. induction n as [|n IH]; intros format args p; [done|].
  destruct format as [|c format]; [done|]. cbn [print_loop].
  destruct (c =? 0); [by intros [= ->]|].
  destruct (c =? 37); [|intros E; etrans; [apply (counted_emit c)|by eapply IH]].
  destruct format as [|c1 f1]; [done|].
  destruct (c1 =? 0); [by intros [= ->]|].
  destruct (c1 =? 37); [intros E; etrans; [apply (counted_emit c1)|by eapply IH]|].
  destruct (if c1 =? 45 then _ else _) as [f pad].
  destruct (skip_zeros f pad) as [f' pad']. destruct (read_width f' 0) as [[|conv f2] width]; [done|].
  intros ([p' args'] & Ec & E)%bind_Some.
  etrans; [by eapply counted_convert_arg|by eapply IH].
Qed.

(** ** The loop over the format ends *)

Lemma skip_zeros_length format pad : (length (skip_zeros format pad).1 <= length format)%nat.
Proof.
  revert pad. induction format as [|c format IH]; intros pad; [done|]. cbn [skip_zeros].
  repeat case_match; cbn [fst length]; try lia. etrans; [apply IH|lia].
Qed.

Lemma read_width_length format width : (length (read_width format width).1 <= length format)%nat.
Proof.
  revert width. induction format as [|c format IH]; intros width; [done|]. cbn [read_width].
  case_match; [etrans; [apply IH|cbn; lia]|done].
Qed.

Lemma print_loop_fuel n format args p :
  (length format <= n)%nat →
  print_loop n format args p = print_loop (length format) format args p.
Proof.
  remember (length format) as k eqn:Ek. revert format args p n Ek.
  induction k as [k IH] using lt_wf_ind. intros format args p n -> Hn.
  destruct format as [|c format]; [by destruct n|].
  destruct n as [|n]; [cbn in Hn; lia|]. cbn [length] in *.
  assert (∀ f args p, (length f <= length format)%nat →
    print_loop n f args p = print_loop (length format) f args p) as Hstep.
  { intros f args' p' Hf. rewrite (IH (length f)) by (done || lia).
    symmetry. apply (IH (length f)); done || lia. }
  cbn [print_loop]. destruct (c =? 0); [done|].
  destruct (c =? 37); [|by apply Hstep].
  destruct format as [|c1 f1]; [done|].
  destruct (c1 =? 0); [done|]. destruct (c1 =? 37); [apply Hstep; cbn; lia|].
  destruct (if c1 =? 45 then _ else _) as [f pad] eqn:Ef.
  assert (length f <= S (length f1))%nat as Hf.
  { destruct (c1 =? 45); injection Ef as <- _; cbn; lia. }
  pose proof (skip_zeros_length f pad) as H1. destruct (skip_zeros f pad) as [f' pad']. cbn in H1.
  pose proof (read_width_length f' 0) as H2. destruct (read_width f' 0) as [[|conv f2] width]; [done|].
  cbn in H2. destruct (convert_arg conv width pad' args p) as [[p' args']|]; [|done].
  cbn [mbind option_bind]. apply Hstep. cbn. lia.
Qed.

(** ** The digits of a number *)

Definition digit (letbase t : Z) : Z :=
  u8 ((if 10 <=? t then t + (letbase - 48 - 10) else t) + 48).

Fixpoint digits (n : nat) (u b letbase : Z) : list Z :=
  match n with
  | O => []
  | S n' => if u =? 0 then [] else digits n' (u / b) b letbase ++ [digit letbase (u mod b)]
  end.

Lemma digits_length n u b letbase : (length (digits n u b letbase) <= n)%nat.
Proof.
  revert u. induction n as [|n IH]; intros u; [done|]. cbn [digits].
  destruct (u =? 0); [cbn; lia|]. rewrite length_app. specialize (IH (u / b)). cbn. lia.
Qed.

Lemma push_digits_ok n fuel u b letbase s :
  1 < b → 0 <= u < b ^ Z.of_nat n → (n <= fuel)%nat → Z.of_nat n + zlen s <= 11 →
  push_digits fuel u b letbase s = Some (digits n u b letbase ++ s).
Proof.
  intros Hb. revert fuel u s. induction n as [|n IH]; intros fuel u s Hu Hn Hs.
  { assert (u = 0) as -> by (cbn in Hu; lia). by destruct fuel. }
  destruct fuel as [|fuel]; [lia|]. cbn [push_digits digits].
  destruct (Z.eqb_spec u 0) as [->|Hu0]; [done|]. unfold push.
  rewrite (proj2 (Z.ltb_lt _ _)) by (unfold PRINT_BUF_LEN; lia). cbn [mbind option_bind].
  rewrite IH.
  - by rewrite <- (assoc (++)).
  - rewrite Nat2Z.inj_succ, Z.pow_succ_r in Hu by lia. split; [apply Z.div_pos; lia|].
    apply Z.div_lt_upper_bound; lia.
  - lia.
  - rewrite zlen_cons. lia.
Qed.

(** The first digit is not zero. *)
Lemma digits_head n u b letbase :
  1 < b → 0 < u < b ^ Z.of_nat n →
  ∃ t l, digits n u b letbase = digit letbase t :: l ∧ 0 < t < b.
Proof.
  intros Hb. revert u. induction n as [|n IH]; intros u Hu; [cbn in Hu; lia|].
  cbn [digits]. rewrite (proj2 (Z.eqb_neq _ _)) by lia.
  destruct (Z.eq_dec (u / b) 0) as [E|E].
  - rewrite E. exists (u mod b), [].
    assert (digits n 0 b letbase = []) as -> by by destruct n.
    split; [done|]. pose proof (Z.div_mod u b). pose proof (Z.mod_pos_bound u b). lia.
  - destruct (IH (u / b)) as (t & l & -> & Ht); [|by exists t, (l ++ [digit letbase (u mod b)])].
    rewrite Nat2Z.inj_succ, Z.pow_succ_r in Hu by lia.
    pose proof (Z.div_pos u b). split; [lia|]. apply Z.div_lt_upper_bound; lia.
Qed.

(** The digits printed for an argument, as a string of the program. *)
Definition decimal (u : Z) : list Z := digits 10 u 10 97.
Definition hexadecimal (letbase u : Z) : list Z := digits 8 u 16 letbase.

Lemma digit_small letbase t : 0 <= t < 10 → digit letbase t = 48 + t.
Proof.
  intros Ht. unfold digit. rewrite (proj2 (Z.leb_gt _ _)) by lia.
  rewrite u8_small by (unfold is_u; lia). lia.
Qed.

Lemma digit_letter letbase t : 10 <= t < 16 → 0 <= letbase < 200 → digit letbase t = letbase + t - 10.
Proof.
  intros Ht Hl. unfold digit. rewrite (proj2 (Z.leb_le _ _)) by lia.
  rewrite u8_small by (unfold is_u; lia). lia.
Qed.

Lemma isdigit_small c : 48 <= c <= 57 → isdigit c = 1.
Proof. intros Hc. unfold isdigit. by rewrite !(proj2 (Z.leb_le _ _)) by lia. Qed.

Lemma atoi_dec_digits n u tl :
  0 <= u < 10 ^ Z.of_nat n → atoi_dec (digits n u 10 97 ++ tl) 0 = atoi_dec tl (s32 u).
Proof.
  revert u tl. induction n as [|n IH]; intros u tl Hu.
  { assert (u = 0) as -> by (cbn in Hu; lia). done. }
  cbn [digits]. destruct (Z.eqb_spec u 0) as [->|Hu0]; [done|].
  rewrite <- (assoc (++)), IH.
  2:{ rewrite Nat2Z.inj_succ, Z.pow_succ_r in Hu by lia.
      split; [apply Z.div_pos; lia|]. apply Z.div_lt_upper_bound; lia. }
  pose proof (Z.mod_pos_bound u 10 ltac:(lia)). rewrite digit_small by lia.
  cbn [app atoi_dec]. rewrite (proj2 (Z.eqb_neq _ _)), isdigit_small by lia. cbn [Z.eqb negb].
  f_equal. rewrite <- Z.add_sub_assoc, s32_mul_add. f_equal.
  pose proof (Z.div_mod u 10 ltac:(lia)). lia.
Qed.

Lemma atoi_hex_digits n u letbase tl :
  letbase = 65 ∨ letbase = 97 → 0 <= u < 16 ^ Z.of_nat n →
  atoi_hex (digits n u 16 letbase ++ tl) 0 = atoi_hex tl (s32 u).
Proof.
  intros Hl. revert u tl. induction n as [|n IH]; intros u tl Hu.
  { assert (u = 0) as -> by (cbn in Hu; lia). done. }
  cbn [digits]. destruct (Z.eqb_spec u 0) as [->|Hu0]; [done|].
  rewrite <- (assoc (++)), IH.
  2:{ rewrite Nat2Z.inj_succ, Z.pow_succ_r in Hu by lia.
      split; [apply Z.div_pos; lia|]. apply Z.div_lt_upper_bound; lia. }
  pose proof (Z.mod_pos_bound u 16 ltac:(lia)) as Hm. pose proof (Z.div_mod u 16 ltac:(lia)).
  assert (∀ c k, c - k = u mod 16 → s32 (Z.shiftl (s32 (u / 16)) 4 + c - k) = s32 u) as Hstep.
  { intros c k Hc. rewrite Z.shiftl_mul_pow2 by lia. change (2 ^ 4) with 16.
    rewrite <- Z.add_sub_assoc, s32_mul_add. f_equal. lia. }
  destruct (Z.lt_ge_cases (u mod 16) 10).
  - rewrite digit_small by lia. cbn [app atoi_hex].
    rewrite (proj2 (Z.eqb_neq _ _)), isdigit_small by lia. cbn [Z.eqb negb]. by rewrite Hstep by lia.
  - rewrite digit_letter by lia. cbn [app atoi_hex].
    assert (isdigit (letbase + u mod 16 - 10) = 0) as ->.
    { unfold isdigit. destruct Hl as [-> | ->]; rewrite andb_comm, (proj2 (Z.leb_gt _ _)) by lia; done. }
    rewrite (proj2 (Z.eqb_neq _ _)) by lia. cbn [Z.eqb negb].
    assert (∀ k c, c - k + 10 = u mod 16 → s32 (Z.shiftl (s32 (u / 16)) 4 + c - k + 10) = s32 u) as Hs2.
    { intros k c Hc. rewrite <- (Hstep (c + 10) k) by lia. f_equal. lia. }
    destruct Hl as [-> | ->].
    + rewrite !(proj2 (Z.leb_le _ _)) by lia. cbn [andb]. by rewrite Hs2 by lia.
    + rewrite (proj2 (Z.leb_gt (97 + _ - _) 70)), andb_false_r by lia.
      rewrite !(proj2 (Z.leb_le _ _)) by lia. cbn [andb]. by rewrite Hs2 by lia.
Qed.

(** Strings without padding. *)
Lemma digits_nonzero n u b letbase :
  1 < b <= 16 → letbase = 65 ∨ letbase = 97 → Forall (λ c, 0 < c < 256) (digits n u b letbase).
Proof.
  intros Hb Hl. revert u. induction n as [|n IH]; intros u; cbn [digits]; [done|].
  destruct (u =? 0); [done|]. apply Forall_app. split; [apply IH|]. apply Forall_singleton.
  pose proof (Z.mod_pos_bound u b ltac:(lia)).
  destruct (Z.lt_ge_cases (u mod b) 10); [rewrite digit_small|rewrite digit_letter]; lia.
Qed.

Lemma emit_string_ok s p :
  Forall (λ c, 0 < c < 256) s → normal p →
  ∃ q, emit_string (s ++ [0]) p = Some q ∧ wrote s p q.
Proof.
  intros Hs. revert p. induction Hs as [|c s Hc Hs IH]; intros p Hp.
  - exists p. split; [done|]. split; [destruct p.1; cbn; [by rewrite app_nil_r|done]|].
    change (zlen []) with 0. by rewrite Z.add_0_r.
  - assert (wrote [c] p (emit c p)) as [H1 H2].
    { split; [|done]. unfold emit, printchar. rewrite u8_small by (unfold is_u; lia). by destruct p as [[] ?]. }
    destruct (IH (emit c p)) as (q & E & [H3 H4]); [by apply (wrote_normal [c] p)|].
    exists q. cbn [app emit_string]. rewrite (proj2 (Z.eqb_neq _ _)) by lia. split; [done|]. split.
    + rewrite H3, H1. destruct p.1; [|done]. cbn. by rewrite <- (assoc (++)).
    + rewrite H4, H2, s32_add. f_equal. rewrite !zlen_cons, zlen_nil. lia.
Qed.

Lemma prints_plain s p :
  Forall (λ c, 0 < c < 256) s → normal p →
  ∃ q, prints (s ++ [0]) 0 0 p = Some q ∧ wrote s p q.
Proof.
  intros Hs Hp. destruct (emit_string_ok s p Hs Hp) as (q & E & Hq). exists q.
  split; [|done]. transitivity (p ← emit_string (s ++ [0]) p; Some p); [done|]. by rewrite E.
Qed.

Lemma print_unsigned u b letbase p n i :
  1 < b <= 16 → letbase = 65 ∨ letbase = 97 → u32 i = u → 0 < u < b ^ Z.of_nat n → (n <= 11)%nat →
  normal p → i ≠ 0 →
  ∃ q, printi i b false 0 0 letbase p = Some q ∧ wrote (digits n u b letbase) p q.
Proof.
  intros Hb Hl Hu Hun Hn Hp Hi. unfold printi. rewrite (proj2 (Z.eqb_neq _ _)) by done.
  cbv zeta. cbn [andb]. rewrite Hu, (push_digits_ok n) by (rewrite ?zlen_nil; lia).
  cbn [mbind option_bind]. rewrite app_nil_r.
  by apply prints_plain; [apply digits_nonzero|].
Qed.

Lemma print_signed i p :
  - 2 ^ 31 <= i < 2 ^ 31 → i ≠ 0 → normal p →
  ∃ q, printi i 10 true 0 0 97 p = Some q ∧
    wrote (if i <? 0 then 45 :: decimal (- i) else decimal i) p q.
Proof.
  intros Hi Hi0 Hp. unfold printi. rewrite (proj2 (Z.eqb_neq _ _)) by done. cbv zeta.
  change (true && (10 =? 10)) with true. cbn [andb].
  assert (∀ u, Forall (λ c, 0 < c < 256) (decimal u)) as Hd by (intros u; apply digits_nonzero; lia).
  destruct (Z.ltb_spec i 0).
  - rewrite (push_digits_ok 10) by (rewrite ?zlen_nil, ?u32_small by (unfold is_u; lia); lia).
    cbn [mbind option_bind negb Z.eqb andb]. rewrite app_nil_r, u32_small by (unfold is_u; lia).
    unfold push. fold (decimal (- i)).
    pose proof (digits_length 10 (- i) 10 97) as Hlen. fold (decimal (- i)) in Hlen.
    rewrite (proj2 (Z.ltb_lt _ _)) by (unfold PRINT_BUF_LEN, zlen; lia).
    apply (prints_plain (45 :: decimal (- i))); [|done]. by constructor.
  - rewrite (push_digits_ok 10) by (rewrite ?zlen_nil, ?u32_small by (unfold is_u; lia); lia).
    cbn [mbind option_bind]. rewrite app_nil_r, u32_small by (unfold is_u; lia).
    by apply prints_plain.
Qed.

Lemma wrote_from_nothing w q : wrote w (Some [], 0) q → q.1 = Some w ∧ q.2 = s32 (zlen w).
Proof. by intros [-> ->]. Qed.

(** Formats of a single conversion. *)
Lemma sprintf_conversion c arg p :
  convert_arg c 0 0 [arg] (Some [], 0) = Some (p, []) →
  c ≠ 0 → c ≠ 37 → c ≠ 45 → ¬ 48 <= c <= 57 →
  sprintf [37; c; 0] [arg] = Some (p.2, option_map (λ l, l ++ [0]) p.1).
Proof.
  intros E H0 H37 H45 Hd. unfold sprintf, print. cbn [length print_loop Z.eqb].
  rewrite !(proj2 (Z.eqb_neq _ _)) by done.
  assert (skip_zeros [c; 0] 0 = ([c; 0], 0)) as ->.
  { cbn [skip_zeros]. repeat case_match; subst; try done; lia. }
  assert (read_width [c; 0] 0 = ([c; 0], 0)) as ->.
  { cbn [read_width]. destruct ((48 <=? c) && (c <=? 57)) eqn:E9; [|done]. to_prop. lia. }
  rewrite E. cbn [mbind option_bind]. by destruct p as [[l|] pc].
Qed.

(** ** Numbers *)

(** Decimal numbers. *)
Lemma decimal_ok (i : Z) :
  - 2 ^ 31 <= i < 2 ^ 31 →
  ∃ l, sprintf [37; 100; 0] [AInt i] = Some (zlen l, Some (l ++ [0])) ∧
    zlen l <= 11 ∧ atoi (l ++ [0]) = Some i.
Proof.
  intros Hi. destruct (Z.eq_dec i 0) as [->|Hi0]; [by exists [48]|].
  destruct (print_signed i (Some [], 0) Hi Hi0 eq_refl) as (q & E & Hq).
  set (l := if i <? 0 then _ else _) in Hq. exists l.
  assert (zlen l <= 11) as Hlen.
  { subst l. unfold decimal. destruct (i <? 0); rewrite ?zlen_cons;
      [pose proof (digits_length 10 (- i) 10 97)|pose proof (digits_length 10 i 10 97)]; unfold zlen; lia. }
  pose proof (zlen_nonneg l). destruct (wrote_from_nothing _ _ Hq) as [Hq1 Hq2].
  split; [|split; [done|]].
  - rewrite (sprintf_conversion 100 (AInt i) q); try lia.
    + by rewrite Hq1, Hq2, s32_small by lia.
    + unfold convert_arg. cbn [Z.eqb next_int mbind option_bind]. by rewrite E.
  - subst l. destruct (Z.ltb_spec i 0).
    + cbn [app atoi Z.eqb]. unfold decimal. rewrite atoi_dec_digits by (cbn; lia). cbn [atoi_dec Z.eqb mbind option_bind].
      f_equal. rewrite <- (s32_small i) at 2 by lia. rewrite <- (Z.mul_1_r i) at 2.
      replace (- s32 (- i)) with (s32 (- i) * -1 + 0) by lia. rewrite s32_mul_add. f_equal. lia.
    + destruct (digits_head 10 i 10 97) as (t & l & Ed & Ht); [lia|cbn; lia|].
      pose proof (atoi_dec_digits 10 i [0]) as Ha. unfold decimal. rewrite Ed in *.
      unfold atoi. cbn [app] in Ha |- *. rewrite digit_small in * by lia.
      rewrite !(proj2 (Z.eqb_neq _ _)) by lia. rewrite Ha by (cbn; lia). cbn [atoi_dec Z.eqb].
      by rewrite s32_small by lia.
Qed.

(** Hexadecimal numbers. *)
Lemma hexadecimal_ok (upper : bool) (i : Z) :
  - 2 ^ 31 <= i < 2 ^ 31 →
  ∃ l, sprintf [37; if upper then 88 else 120; 0] [AInt i] = Some (zlen l, Some (l ++ [0])) ∧
    zlen l <= 8 ∧ atoi ([48; 120] ++ l ++ [0]) = Some i.
Proof.
  intros Hi. destruct (Z.eq_dec i 0) as [->|Hi0]; [exists [48]; by destruct upper|].
  set (letbase := if upper then 65 else 97).
  assert (letbase = 65 ∨ letbase = 97) as Hl by (subst letbase; destruct upper; lia).
  pose proof (u32_range i) as Hu. unfold is_u in Hu.
  assert (u32 i ≠ 0) as Hu0.
  { unfold u32. intros E. apply Z.mod_divide in E as [k E]; lia. }
  destruct (print_unsigned (u32 i) 16 letbase (Some [], 0) 8 i) as (q & E & Hq); try done; try (cbn; lia).
  set (l := digits 8 (u32 i) 16 letbase) in Hq. exists l.
  pose proof (digits_length 8 (u32 i) 16 letbase) as Hlen. fold l in Hlen.
  assert (zlen l <= 8) by (unfold zlen; lia). pose proof (zlen_nonneg l).
  destruct (wrote_from_nothing _ _ Hq) as [Hq1 Hq2].
  split; [|split; [done|]].
  - rewrite (sprintf_conversion (if upper then 88 else 120) (AInt i) q);
      try (destruct upper; lia).
    + by rewrite Hq1, Hq2, s32_small by lia.
    + unfold convert_arg. subst letbase.
      destruct upper; cbn [Z.eqb next_int mbind option_bind] in *; by rewrite E.
  - cbn [app]. unfold atoi. cbn [Z.eqb orb]. subst l.
    rewrite atoi_hex_digits by (done || cbn; lia). cbn [atoi_hex Z.eqb]. f_equal.
    unfold u32, s32. rewrite Zplus_mod_idemp_l. rewrite Z.mod_small; lia.
Qed.

(** ** Properties *)

(** C40: [sprintf] with [%d] and [atoi] are inverse on every 32-bit integer, the
    smallest included, and so are [%x] or [%X] and [atoi] behind the prefix [0x];
    the text has at most eleven characters, so the scratch buffer is large
    enough, and [sprintf] returns their number. *)
Theorem numbers_roundtrip (i : Z) :
  - 2 ^ 31 <= i < 2 ^ 31 →
  (∃ l, sprintf [37; 100; 0] [AInt i] = Some (zlen l, Some (l ++ [0])) ∧
     zlen l <= 11 ∧ atoi (l ++ [0]) = Some i) ∧
  ∀ upper : bool,
    ∃ l, sprintf [37; if upper then 88 else 120; 0] [AInt i] = Some (zlen l, Some (l ++ [0])) ∧
      zlen l <= 8 ∧ atoi ([48; 120] ++ l ++ [0]) = Some i.
Proof. intros Hi. split; [by apply decimal_ok|]. intros upper. by apply hexadecimal_ok. Qed.

(** Whatever the format and the arguments, [sprintf] returns the number of
    characters it wrote before the terminator, as an [int]; and the loop over
    the format ends, any number of turns from the format's length on giving the
    same result. *)
Theorem sprintf_counts (format : list Z) (args : list va_arg) :
  (∀ pc out, sprintf format args = Some (pc, out) →
     ∃ w, out = Some (w ++ [0]) ∧ pc = s32 (zlen w)) ∧
  ∀ n p, (length format <= n)%nat →
    print_loop n format args p = print_loop (length format) format args p.
Proof.
  split; [|intros n p; apply print_loop_fuel].
  unfold sprintf, print. intros pc out ([out' pc'] & E & [= <- <-])%bind_Some.
  destruct (counted_print_loop _ _ _ _ _ E eq_refl) as [w Hw].
  destruct (wrote_from_nothing _ _ Hw) as [H1 H2]. cbn in H1, H2. rewrite H1. by exists w.
Qed.

Lemma numbers_roundtrip_witness :
  ∃ l, sprintf [37; 100; 0] [AInt (-2147483648)] = Some (zlen l, Some (l ++ [0])) ∧
    zlen l <= 11 ∧ atoi (l ++ [0]) = Some (-2147483648).
Proof. apply (numbers_roundtrip (-2147483648)). lia. Defined.

Lemma sprintf_counts_witness :
  print_loop 9 [120; 37; 53; 100; 0] [AInt 7] (Some [], 0)
  = Some (Some [120; 32; 32; 32; 32; 55], 6).
Proof. rewrite (proj2 (sprintf_counts [120; 37; 53; 100; 0] [AInt 7]) 9%nat); [reflexivity|]. simpl; lia. Defined.
