(* ===== verification/Formatted.v ===== *)
(** * How long formatted text gets

    A bound on what [vsprintf] of [Libc] writes, computed from the format and the
    lengths of the strings among the arguments.  Where it can be computed, the
    call succeeds, whatever the numbers are. *)

From S2P Require Import Prelude Libc.

(** What is known of an argument: a string of at most [n] characters, or a number. *)
Inductive arg_bound : Type := BInt | BStr (n : nat).

(** A C string: its characters and the terminator, in an object that may go on. *)
Definition c_string (s l : list Z) : Prop :=
  Forall (λ c, 0 < c < 256) s ∧ ∃ rest, l = s ++ 0 :: rest.

Inductive fits : va_arg → arg_bound → Prop :=
| fits_int i : fits (AInt i) BInt
| fits_str s l n : c_string s l → (length s <= n)%nat → fits (AStr (Some l)) (BStr n).

(** The characters of one conversion; [%d] only without a width. *)
Definition conversion_bound (c width : Z) (args : list arg_bound) : option (nat * list arg_bound) :=
  if (0 <=? width) && (width <? 1000) then
    match args with
    | BStr n :: args => if c =? 115 then Some (n `max` Z.to_nat width, args)%nat else None
    | BInt :: args =>
        if (c =? 100) && (width =? 0) then Some (11, args)%nat
        else if (c =? 120) || (c =? 88) then Some (8 `max` Z.to_nat width, args)%nat
        else if c =? 117 then Some (10 `max` Z.to_nat width, args)%nat
        else None
    | [] => None
    end
  else None.

Fixpoint bound_loop (fuel : nat) (format : list Z) (args : list arg_bound) : option nat :=
  match fuel, format with
  | S fuel, c :: format =>
      if c =? 0 then Some O
      else if c =? 37 then
        match format with
        | [] => None
        | c1 :: f1 =>
            if (c1 =? 0) || (c1 =? 37) || (c1 =? 45) then None
            else
              let '(f, pad) := skip_zeros format 0 in
              let '(f, width) := read_width f 0 in
              match f with
              | [] => None
              | conv :: f =>
                  '(n, args) ← conversion_bound conv width args;
                  k ← bound_loop fuel f args; Some (n + k)%nat
              end
        end
      else if (0 <? c) && (c <? 256) then k ← bound_loop fuel format args; Some (S k) else None
  | _, _ => None
  end.

(** Text of at most [n] characters, none of them a terminator, was appended. *)
Definition wrote_at_most (n : nat) (p q : printed) : Prop :=
  ∃ w, wrote w p q ∧ Forall (λ c, 0 < c < 256) w ∧ (length w <= n)%nat.

Lemma wrote_trans v w p q r : wrote v p q → wrote w q r → wrote (v ++ w) p r.
Proof.
  intros [H1 H2] [H3 H4]. split.
  - rewrite H3, H1. destruct p.1; [|done]. cbn. by rewrite <- (assoc (++)).
  - rewrite H4, H2, s32_add, zlen_app. f_equal. lia.
Qed.

Lemma wrote_nil p : normal p → wrote [] p p.
Proof.
  intros Hp. split; [destruct p.1; cbn; [by rewrite app_nil_r|done]|].
  change (zlen []) with 0. by rewrite Z.add_0_r.
Qed.

Lemma wrote_emit c p : 0 < c < 256 → wrote [c] p (emit c p).
Proof.
  intros Hc. split; [|done]. unfold emit, printchar. rewrite u8_small by (unfold is_u; lia).
  by destruct p as [[] ?].
Qed.

Lemma wrote_emit_n n c p : 0 < c < 256 → normal p → wrote (replicate n c) p (emit_n n c p).
Proof.
  intros Hc. revert p. induction n as [|n IH]; intros p Hp; [by apply wrote_nil|]. cbn [emit_n replicate].
  apply (wrote_trans [c] (replicate n c) p (emit c p)); [by apply wrote_emit|].
  apply IH. by eapply wrote_normal, wrote_emit.
Qed.

Lemma strlen_c_string s rest : Forall (λ c, 0 < c < 256) s → strlen (s ++ 0 :: rest) = Some (zlen s).
Proof.
  intros Hs. induction Hs as [|c s Hc Hs IH]; [done|]. cbn [app strlen].
  rewrite (proj2 (Z.eqb_neq c 0)) by lia. rewrite IH. cbn. rewrite zlen_cons. f_equal. lia.
Qed.

Lemma emit_string_c_string s rest p : Forall (λ c, 0 < c < 256) s → normal p →
  ∃ q, emit_string (s ++ 0 :: rest) p = Some q ∧ wrote s p q.
Proof.
  intros Hs. revert p. induction Hs as [|c s Hc Hs IH]; intros p Hp.
  - exists p. split; [done|by apply wrote_nil].
  - pose proof (wrote_emit c p Hc) as Hw.
    destruct (IH (emit c p) (wrote_normal _ _ _ Hw)) as (q & E & Hq). exists q.
    cbn [app emit_string]. rewrite (proj2 (Z.eqb_neq c 0)) by lia. split; [done|].
    by apply (wrote_trans [c] s p (emit c p)).
Qed.

Lemma prints_at_most s rest width pad p : Forall (λ c, 0 < c < 256) s → normal p → 0 <= width →
  ∃ q, prints (s ++ 0 :: rest) width pad p = Some q ∧
    wrote_at_most (length s `max` Z.to_nat width) p q.
Proof.
  intros Hs Hp Hw. unfold prints. rewrite strlen_c_string by done. cbn [mbind option_bind].
  assert (∃ k c, (if 0 <? width then Some (if width <=? zlen s then 0 else width - zlen s,
      if negb (Z.land pad PAD_ZERO =? 0) then 48 else 32) else Some (width, 32)) = Some (Z.of_nat k, c)
    ∧ 0 < c < 256 ∧ (length s + k <= length s `max` Z.to_nat width)%nat) as (k & c & Ek & Hc & Hk).
  { exists (Z.to_nat (width - zlen s)), (if 0 <? width then if negb (Z.land pad PAD_ZERO =? 0) then 48 else 32 else 32).
    unfold zlen. destruct (Z.ltb_spec 0 width).
    - destruct (Z.leb_spec width (Z.of_nat (length s))); (split; [do 2 f_equal; lia|]);
        (split; [case_match; lia|lia]).
    - split; [do 2 f_equal; lia|lia]. }
  rewrite Ek. cbn [mbind option_bind]. rewrite ?Nat2Z.id. destruct (Z.land pad PAD_RIGHT =? 0).
  - pose proof (wrote_emit_n k c p Hc Hp) as H1.
    destruct (emit_string_c_string s rest (emit_n k c p) Hs (wrote_normal _ _ _ H1)) as (q & Eq & H2).
    rewrite Eq. cbn [mbind option_bind]. rewrite Z.min_r by lia. cbn [Z.to_nat emit_n].
    exists q. split; [done|]. exists (replicate k c ++ s). split; [by eapply wrote_trans|].
    split; [apply Forall_app; split; [by apply Forall_replicate|done]|].
    rewrite length_app, length_replicate. lia.
  - destruct (emit_string_c_string s rest p Hs Hp) as (q & Eq & H2). rewrite Eq. cbn [mbind option_bind].
    rewrite Nat2Z.id. pose proof (wrote_emit_n k c q Hc (wrote_normal _ _ _ H2)) as H1.
    eexists. split; [done|]. exists (s ++ replicate k c). split; [by eapply wrote_trans|].
    split; [apply Forall_app; split; [done|by apply Forall_replicate]|].
    rewrite length_app, length_replicate. lia.
Qed.

Lemma wrote_weaken n m p q : wrote_at_most n p q → (n <= m)%nat → wrote_at_most m p q.
Proof. intros (w & Hw & Hc & Hl) Hm. exists w. split_and!; [done..|lia]. Qed.

(** Numbers. *)
Lemma printi_unsigned_at_most i b letbase n width pad p : 1 < b <= 16 → letbase = 65 ∨ letbase = 97 →
  2 ^ 32 <= b ^ Z.of_nat n → (1 <= n <= 11)%nat → normal p → 0 <= width →
  ∃ q, printi i b false width pad letbase p = Some q ∧ wrote_at_most (n `max` Z.to_nat width) p q.
Proof.
  intros Hb Hl Hn Hn11 Hp Hw. unfold printi. destruct (i =? 0).
  - destruct (prints_at_most [48] [] width pad p) as (q & Eq & Hq); [by repeat constructor|done..|].
    exists q. split; [done|]. eapply wrote_weaken; [done|]. cbn. lia.
  - cbv zeta. cbn [andb]. pose proof (u32_range i) as Hu. unfold is_u in Hu.
    rewrite (push_digits_ok n) by (rewrite ?zlen_nil; lia). cbn [mbind option_bind]. rewrite app_nil_r.
    destruct (prints_at_most (digits n (u32 i) b letbase) [] width pad p) as (q & Eq & Hq);
      [by apply digits_nonzero|done..|].
    exists q. split; [done|]. eapply wrote_weaken; [done|].
    pose proof (digits_length n (u32 i) b letbase). lia.
Qed.

Lemma printi_signed_at_most i pad p : normal p →
  ∃ q, printi i 10 true 0 pad 97 p = Some q ∧ wrote_at_most 11 p q.
Proof.
  intros Hp. unfold printi. destruct (i =? 0).
  { destruct (prints_at_most [48] [] 0 pad p) as (q & Eq & Hq); [by repeat constructor|done..|].
    exists q. split; [done|]. by eapply wrote_weaken; [done|cbn; lia]. }
  cbv zeta. set (neg := true && (10 =? 10) && (i <? 0)).
  set (u := if neg then u32 (- i) else u32 i).
  assert (0 <= u < 10 ^ 10) as Hu.
  { unfold u. pose proof (u32_range i). pose proof (u32_range (- i)). unfold is_u in *. destruct neg; lia. }
  rewrite (push_digits_ok 10) by (rewrite ?zlen_nil; cbn; lia). cbn [mbind option_bind]. rewrite app_nil_r.
  pose proof (digits_length 10 u 10 97) as Hlen.
  assert (Forall (λ c, 0 < c < 256) (digits 10 u 10 97)) as Hd by (apply digits_nonzero; lia).
  cbn [negb Z.eqb andb]. destruct neg.
  - unfold push. rewrite (proj2 (Z.ltb_lt _ _)) by (unfold PRINT_BUF_LEN, zlen; lia). cbn [mbind option_bind].
    destruct (prints_at_most (45 :: digits 10 u 10 97) [] 0 pad p) as (q & Eq & Hq); [by constructor|done..|].
    exists q. split; [done|]. eapply wrote_weaken; [done|]. cbn [length]. lia.
  - destruct (prints_at_most (digits 10 u 10 97) [] 0 pad p) as (q & Eq & Hq); [done..|].
    exists q. split; [done|]. eapply wrote_weaken; [done|]. lia.
Qed.

Lemma convert_at_most c width pad args bs p n bs' : Forall2 fits args bs →
  conversion_bound c width bs = Some (n, bs') → normal p →
  ∃ q args', convert_arg c width pad args p = Some (q, args') ∧ Forall2 fits args' bs' ∧
    wrote_at_most n p q.
Proof.
  intros Hf Hb Hp. unfold conversion_bound in Hb. unfold convert_arg.
  destruct ((0 <=? width) && (width <? 1000)) eqn:Ew; [|done]. to_prop.
  destruct Hf as [|a b args bs Hab Hf]; [done|]. destruct Hab as [i|s l k [Hs [rest ->]] Hk].
  - destruct ((c =? 100) && (width =? 0)) eqn:Ed; [|destruct ((c =? 120) || (c =? 88)) eqn:Ex;
      [|destruct (Z.eqb_spec c 117) as [->|]; [|done]]]; simplify_eq.
    + to_prop. subst c width. cbn [Z.eqb].
      destruct (printi_signed_at_most i pad p Hp) as (q & Eq & Hq). exists q, args.
      split; [|done]. unfold next_int. cbn. by rewrite Eq.
    + assert (c = 120 ∨ c = 88) as Hc by (apply orb_prop in Ex as [E%Z.eqb_eq|E%Z.eqb_eq]; auto).
      destruct Hc as [-> | ->]; [destruct (printi_unsigned_at_most i 16 97 8 width pad p) as (q & Eq & Hq)
                               |destruct (printi_unsigned_at_most i 16 65 8 width pad p) as (q & Eq & Hq)];
        try done; try (cbn; lia); exists q, args; (split; [|done]); unfold next_int; cbn; by rewrite Eq.
    + destruct (printi_unsigned_at_most i 10 97 10 width pad p) as (q & Eq & Hq); try done; try (cbn; lia).
      exists q, args. split; [|done]. unfold next_int. cbn. by rewrite Eq.
  - destruct (Z.eqb_spec c 115) as [->|]; [|done]. simplify_eq. cbn [Z.eqb default].
    destruct (prints_at_most s rest width pad p Hs Hp) as (q & Eq & Hq); [lia|].
    exists q, args. cbn. rewrite Eq. split; [done|]. split; [done|]. eapply wrote_weaken; [done|]. lia.
Qed.

Lemma print_loop_at_most fuel format args bs p n : Forall2 fits args bs →
  bound_loop fuel format bs = Some n → normal p →
  ∃ q, print_loop fuel format args p = Some q ∧ wrote_at_most n p q.
Proof.
  revert format args bs p n. induction fuel as [|fuel IH]; intros format args bs p n Hf; [done|].
  destruct format as [|c format]; [done|]. cbn [bound_loop print_loop].
  destruct (c =? 0).
  { intros [= <-] Hp. exists p. split; [done|]. exists []. split; [by apply wrote_nil|by split]. }
  destruct (c =? 37).
  - destruct format as [|c1 f1]; [done|]. destruct (c1 =? 0); [done|].
    destruct (c1 =? 37); [done|]. destruct (c1 =? 45); [done|]. cbn [orb].
    destruct (skip_zeros (c1 :: f1) 0) as [f pad]. destruct (read_width f 0) as [[|conv f2] width]; [done|].
    intros ([k bs'] & Hk & (m & Hm & [= <-])%bind_Some)%bind_Some Hp.
    destruct (convert_at_most _ _ pad _ _ p _ _ Hf Hk Hp) as (p' & args' & Ec & Hf' & (v & Hv & Hvc & Hvl)).
    destruct (IH _ _ _ p' _ Hf' Hm (wrote_normal _ _ _ Hv)) as (q & Eq & (w & Hw & Hwc & Hwl)).
    exists q. rewrite Ec. split; [done|]. exists (v ++ w). split; [by eapply wrote_trans|].
    rewrite length_app. split; [by apply Forall_app|lia].
  - destruct ((0 <? c) && (c <? 256)) eqn:Ec; [|done]. to_prop.
    intros (m & Hm & [= <-])%bind_Some Hp. pose proof (wrote_emit c p ltac:(lia)) as Hv.
    destruct (IH _ _ _ (emit c p) _ Hf Hm (wrote_normal _ _ _ Hv)) as (q & Eq & (w & Hw & Hwc & Hwl)).
    exists q. split; [done|]. exists (c :: w). split; [by apply (wrote_trans [c] w p (emit c p))|].
    split; [constructor; [lia|done]|cbn; lia].
Qed.

Definition text_bound (format : list Z) (bs : list arg_bound) : option nat :=
  bound_loop (length format) format bs.

(** The text, its terminator and its length. *)
Lemma vsprintf_at_most format args bs n : Forall2 fits args bs → text_bound format bs = Some n →
  ∃ w, vsprintf format args = Some (s32 (zlen w), Some (w ++ [0])) ∧
    Forall (λ c, 0 < c < 256) w ∧ (length w <= n)%nat.
Proof.
  intros Hf Hn. destruct (print_loop_at_most _ _ _ _ (Some [], 0) _ Hf Hn eq_refl)
    as (q & Eq & (w & Hw & Hwc & Hwl)).
  destruct (wrote_from_nothing _ _ Hw) as [H1 H2]. exists w. split; [|done].
  unfold vsprintf, print. rewrite Eq. cbn [mbind option_bind]. destruct q as [o pc]. cbn in *. by subst.
Qed.
