(* ===== verification/Heap.v ===== *)
(** * Memory manager of the payload programs

    [src/experiments/hello-world/src/libc/memmgr.c] ([malloc], [realloc] and
    [free] of the payload programs; [sysinfo] has the same file) on a flat memory
    of bytes, big-endian.  A header is eight bytes, [next] and [size]; a
    pointer is a 32-bit address.  [base] is the address of the static header.
    Reading a header through a null pointer is a [Fault]. *)

From S2P Require Import Prelude Libc.

(** ** Memory *)

Definition memory : Type := Z → Z.

Definition load (m : memory) (a : Z) (n : nat) : list Z :=
  map (λ i, m (a + Z.of_nat i)) (seq 0 n).
Definition load32 (m : memory) (a : Z) : Z := be_decode (load m a 4).
Definition store (m : memory) (a : Z) (l : list Z) : memory := λ x,
  if (a <=? x) && (x <? a + zlen l) then l !!! Z.to_nat (x - a) else m x.
Definition store32 (m : memory) (a v : Z) : memory := store m a (be_encode 4 v).

(** [memcpy] (written in assembler): the areas do not overlap. *)
Definition memcpy (dst src n : Z) (m : memory) : memory := λ x,
  if (dst <=? x) && (x <? dst + n) then m (src + (x - dst)) else m x.

(** ** Headers *)

Definition sizeof_header : Z := 8.
Definition next (m : memory) (p : Z) : Z := load32 m p.
Definition size (m : memory) (p : Z) : Z := load32 m (p + 4).
Definition set_next (p v : Z) (m : memory) : memory := store32 m p v.
Definition set_size (p v : Z) (m : memory) : memory := store32 m (p + 4) v.
(** [p + n] for a pointer to a header. *)
Definition advance (p n : Z) : Z := u32 (p + sizeof_header * n).

Definition MIN_POOL_ALLOC_QUANTAS : Z := 128.

(** The memory and the static variables. *)
Record heap := MkHeap {
  mem : memory;
  freep : Z;
  pool : Z;
  pool_size : Z;
  pool_free_pos : Z;
}.

Definition set_mem (v : memory) (h : heap) : heap :=
  MkHeap v (freep h) (pool h) (pool_size h) (pool_free_pos h).
Definition set_freep (v : Z) (h : heap) : heap :=
  MkHeap (mem h) v (pool h) (pool_size h) (pool_free_pos h).
Definition set_pool (p s : Z) (h : heap) : heap :=
  MkHeap (mem h) (freep h) p s (pool_free_pos h).
Definition set_pool_free_pos (v : Z) (h : heap) : heap :=
  MkHeap (mem h) (freep h) (pool h) (pool_size h) v.

Abbreviation M := (res heap).

Definition upd_mem (f : memory → memory) : M unit := res_upd (λ h, set_mem (f (mem h)) h).

Section Heap.
Context (base : Z).

(** ** Setting up *)

Definition CASIODICS : list Z := [67; 65; 83; 73; 79; 68; 73; 67; 83].

(** The ROM's header, [NULL] as [None]. *)
Definition get_r_hdr (m : memory) : option Z :=
  let hdr := 0x8001ff80 in
  match memcmp (load m hdr 12) CASIODICS 9 with
  | Some r => if r =? 0 then Some hdr else None
  | None => None
  end.

(** The model's number is read as a string, from at most [n] bytes. *)
Definition set_mem_pool (n : nat) : M unit :=
  res_upd (λ h, set_pool (pool h) 0 h);;
  m ← res_get mem;
  match get_r_hdr m with
  | None => mret tt
  | Some hdr =>
      if m (hdr + 12) =? 67 then
        model ← res_opt OutOfBounds (atoi (load m (hdr + 13) n));
        if model <? 160 then res_upd (set_pool 0x8c4be400 (3072 * 1024))
        else res_upd (set_pool 0x8c800000 (8192 * 1024))
      else mret tt
  end.

Definition memmgr_init (n : nat) : M unit :=
  upd_mem (set_next base 0);;
  upd_mem (set_size base 0);;
  res_upd (set_freep 0);;
  res_upd (set_pool_free_pos 0);;
  set_mem_pool n.

(** ** Freeing *)

(** The loop that finds the block to insert behind. *)
Fixpoint search (n : nat) (block p : Z) : M Z :=
  match n with
  | O => res_fault OutOfFuel
  | S n' =>
      if p =? 0 then res_fault OutOfBounds
      else
        m ← res_get mem;
        if (p <? block) && (block <? next m p) then mret p
        else if (next m p <=? p) && ((p <? block) || (block <? next m p)) then mret p
        else search n' block (next m p)
  end.

(** Try to combine with the higher neighbor. *)
Definition join_higher (block p : Z) (m : memory) : memory :=
  if advance block (size m block) =? next m p then
    let m := set_size block (u32 (size m block + size m (next m p))) m in
    set_next block (next m (next m p)) m
  else set_next block (next m p) m.

(** Try to combine with the lower neighbor. *)
Definition join_lower (block p : Z) (m : memory) : memory :=
  if advance p (size m p) =? block then
    let m := set_size p (u32 (size m p + size m block)) m in
    set_next p (next m block) m
  else set_next p block m.

Definition memmgr_free (n : nat) (ap : Z) : M unit :=
  if ap =? 0 then mret tt
  else
    let block := u32 (ap - sizeof_header) in
    f ← res_get freep;
    p ← search n block f;
    upd_mem (join_higher block p);;
    upd_mem (join_lower block p);;
    res_upd (set_freep p).

(** ** Allocating *)

Definition get_mem_from_pool (n : nat) (nquantas : Z) : M Z :=
  let nquantas := if nquantas <? MIN_POOL_ALLOC_QUANTAS then MIN_POOL_ALLOC_QUANTAS
                  else nquantas in
  let total_req_size := u32 (nquantas * sizeof_header) in
  h ← res_get id;
  if u32 (pool_free_pos h + total_req_size) <=? pool_size h then
    let p := u32 (pool h + pool_free_pos h) in
    upd_mem (set_size p nquantas);;
    memmgr_free n (advance p 1);;
    res_upd (λ h, set_pool_free_pos (u32 (pool_free_pos h + total_req_size)) h);;
    res_get freep
  else mret 0.

(** Use the block [p] behind [prevp]; the result is the block's header. *)
Definition take_block (nquantas prevp p : Z) (m : memory) : memory * Z :=
  if size m p =? nquantas then (set_next prevp (next m p) m, p)
  else
    let m := set_size p (u32 (size m p - nquantas)) m in
    let p := advance p (size m p) in
    (set_size p nquantas m, p).

Fixpoint alloc_loop (n fuel : nat) (nquantas prevp p : Z) : M Z :=
  match n with
  | O => res_fault OutOfFuel
  | S n' =>
      if p =? 0 then res_fault OutOfBounds
      else
        h ← res_get id;
        if nquantas <=? size (mem h) p then
          let '(m, p) := take_block nquantas prevp p (mem h) in
          res_upd (set_mem m);;
          res_upd (set_freep prevp);;
          mret (advance p 1)
        else if p =? freep h then
          p ← get_mem_from_pool fuel nquantas;
          if p =? 0 then mret 0
          else m ← res_get mem; alloc_loop n' fuel nquantas p (next m p)
        else alloc_loop n' fuel nquantas p (next (mem h) p)
  end.

Definition quantas (nbytes : Z) : Z :=
  u32 (u32 (nbytes + sizeof_header - 1) / sizeof_header + 1).

Definition memmgr_alloc (n fuel : nat) (nbytes : Z) : M Z :=
  if nbytes =? 0 then mret 0
  else
    f ← res_get freep;
    prevp ← (if f =? 0 then
               upd_mem (set_next base base);;
               res_upd (set_freep base);;
               upd_mem (set_size base 0);;
               mret base
             else mret f);
    m ← res_get mem;
    alloc_loop n fuel (quantas nbytes) prevp (next m prevp).

Definition memmgr_realloc (n fuel : nat) (ptr nbytes : Z) : M Z :=
  if ptr =? 0 then memmgr_alloc n fuel nbytes
  else if nbytes =? 0 then memmgr_free fuel ptr;; memmgr_alloc n fuel 0
  else
    newptr ← memmgr_alloc n fuel nbytes;
    if newptr =? 0 then mret 0
    else
      let block := u32 (ptr - sizeof_header) in
      m ← res_get mem;
      let old_size := u32 ((size m block - 1) * sizeof_header) in
      upd_mem (memcpy newptr ptr (if old_size <? nbytes then old_size else nbytes));;
      memmgr_free fuel ptr;;
      mret newptr.
End Heap.

(** A pool of 4 KB: two blocks, the first freed and used again. *)
Definition small_heap : heap := MkHeap (λ _, 0) 0 0x8c800000 4096 0.

Example heap_example :
  match (a ← memmgr_alloc 0x8c400000 9 9 100;
         b ← memmgr_alloc 0x8c400000 9 9 20;
         memmgr_free 9 a;;
         c ← memmgr_alloc 0x8c400000 9 9 100;
         d ← memmgr_alloc 0x8c400000 9 9 4000;
         f ← res_get freep;
         mret [a; b; c; d; f]) small_heap with
  | Ok l _ => Some l
  | Fault _ => None
  end = Some [0x8c800398; 0x8c800378; 0x8c800398; 0; 0x8c800000].
Proof. vm_compute. reflexivity. Qed.
