(* ===== verification/HeapFacts.v ===== *)
(** * Memory manager: its free list and the blocks it hands out

    The invariant of [Heap]: the pool is tiled by blocks, used or free, no two
    free ones next to each other, and the free ones form a ring through [base]
    in the order of their addresses.  Allocation and freeing refine operations
    on the list of blocks. *)

From Stdlib Require Import Sorted.
From stdpp Require Import sorting.
From S2P Require Import Prelude Libc Heap.

(** ** Bytes and headers *)

Lemma load_store_other m a b l n :
  a + Z.of_nat n <= b ∨ b + zlen l <= a → load (store m b l) a n = load m a n.
Proof.
  intros Hd. unfold load. apply map_ext_in. intros i Hi%in_seq. unfold store.
  destruct ((b <=? a + Z.of_nat i) && (a + Z.of_nat i <? b + zlen l)) eqn:E; [|done].
  apply andb_prop in E as [?%Z.leb_le ?%Z.ltb_lt]. lia.
Qed.

Lemma load_store_same m a l : load (store m a l) a (length l) = l.
Proof.
  unfold load, store. apply list_eq. intros i. rewrite list_lookup_fmap.
  destruct (decide (i < length l)%nat) as [Hi|Hi].
  - rewrite lookup_seq_lt by done. cbn [fmap option_fmap option_map].
    rewrite (proj2 (Z.leb_le _ _)), (proj2 (Z.ltb_lt _ _)) by (unfold zlen; lia).
    cbn [andb].
    replace (Z.to_nat (a + Z.of_nat (0 + i) - a)) with i by lia.
    symmetry. by apply list_lookup_lookup_total_lt.
  - rewrite lookup_seq_ge, lookup_ge_None_2 by lia. done.
Qed.

Lemma zlen_be n v : zlen (be_encode n v) = Z.of_nat n.
Proof. unfold zlen. by rewrite be_encode_length. Qed.

Lemma load32_same m a v : is_u 32 v → load32 (store32 m a v) a = v.
Proof.
  intros Hv. unfold load32, store32.
  assert (4%nat = length (be_encode 4 v)) as E by (by rewrite be_encode_length).
  rewrite E at 1. rewrite load_store_same, be_decode_encode. by apply Z.mod_small.
Qed.

Lemma load32_other m a b v : a + 4 <= b ∨ b + 4 <= a → load32 (store32 m b v) a = load32 m a.
Proof.
  intros Hd. unfold load32, store32. rewrite load_store_other; [done|]. rewrite zlen_be. lia.
Qed.

Lemma byte_other m b v x : x < b ∨ b + 4 <= x → store32 m b v x = m x.
Proof.
  intros Hd. unfold store32, store. rewrite zlen_be.
  destruct ((b <=? x) && (x <? b + Z.of_nat 4)) eqn:E; [|done].
  apply andb_prop in E as [?%Z.leb_le ?%Z.ltb_lt]. lia.
Qed.

(** Two headers are the same or apart. *)
Definition apart (p q : Z) : Prop := p + 8 <= q ∨ q + 8 <= p.

Lemma next_set_next m p v : is_u 32 v → next (set_next p v m) p = v.
Proof. apply load32_same. Qed.
Lemma size_set_size m p v : is_u 32 v → size (set_size p v m) p = v.
Proof. apply load32_same. Qed.
Lemma next_set_size_same m p v : next (set_size p v m) p = next m p.
Proof. apply load32_other. lia. Qed.
Lemma size_set_next_same m p v : size (set_next p v m) p = size m p.
Proof. apply load32_other. lia. Qed.
Lemma next_set_next_apart m p q v : apart q p → next (set_next p v m) q = next m q.
Proof. intros H. apply load32_other. unfold apart in H. lia. Qed.
Lemma size_set_size_apart m p q v : apart q p → size (set_size p v m) q = size m q.
Proof. intros H. apply load32_other. unfold apart in H. lia. Qed.
Lemma next_set_size_apart m p q v : apart q p → next (set_size p v m) q = next m q.
Proof. intros H. apply load32_other. unfold apart in H. lia. Qed.
Lemma size_set_next_apart m p q v : apart q p → size (set_next p v m) q = size m q.
Proof. intros H. apply load32_other. unfold apart in H. lia. Qed.
Lemma size_set_next m p q v : q = p ∨ apart q p → size (set_next p v m) q = size m q.
Proof. intros [->|H]; [apply size_set_next_same|by apply size_set_next_apart]. Qed.
Lemma byte_set_next m p v x : x < p ∨ p + 8 <= x → set_next p v m x = m x.
Proof. intros H. apply byte_other. lia. Qed.
Lemma byte_set_size m p v x : x < p ∨ p + 8 <= x → set_size p v m x = m x.
Proof. intros H. apply byte_other. lia. Qed.

(** A header depends on its eight bytes. *)
Lemma header_ext m m' p :
  (∀ z, p <= z < p + 8 → m' z = m z) → next m' p = next m p ∧ size m' p = size m p.
Proof.
  intros Hm. unfold next, size, load32, load.
  split; f_equal; apply map_ext_in; intros i Hi%in_seq; apply Hm; lia.
Qed.

Create HintDb headers.
#[global] Opaque next size set_next set_size.

#[export] Hint Rewrite next_set_size_same size_set_next_same : headers.
#[export] Hint Rewrite next_set_next size_set_size using (unfold is_u; lia) : headers.
#[export] Hint Rewrite next_set_next_apart size_set_size_apart next_set_size_apart
  size_set_next_apart using (unfold apart in *; lia) : headers.
#[export] Hint Rewrite byte_set_next byte_set_size using lia : headers.
Ltac headers := autorewrite with headers.

(** ** Blocks *)

(** A block: free or used, and its size in quanta. *)
Abbreviation chunk := (bool * Z)%type.

Fixpoint quanta (cs : list chunk) : Z :=
  match cs with [] => 0 | (_, n) :: cs => n + quanta cs end.

(** The addresses of the free blocks of a tiling from [a] on. *)
Fixpoint frees (a : Z) (cs : list chunk) : list Z :=
  match cs with
  | [] => []
  | (f, n) :: cs => (if f : bool then [a] else []) ++ frees (a + 8 * n) cs
  end.

(** The addresses of all blocks. *)
Fixpoint heads (a : Z) (cs : list chunk) : list Z :=
  match cs with [] => [] | (_, n) :: cs => a :: heads (a + 8 * n) cs end.

(** Every header holds its block's size. *)
Fixpoint sized (m : memory) (a : Z) (cs : list chunk) : Prop :=
  match cs with
  | [] => True
  | (_, n) :: cs => size m a = n ∧ 1 <= n ∧ sized m (a + 8 * n) cs
  end.

(** No two free blocks are neighbours. *)
Definition is_free (c : option chunk) : bool :=
  match c with Some (f, _) => f | None => false end.
Definition both_free (c d : option chunk) : bool := is_free c && is_free d.
Fixpoint coalesced (cs : list chunk) : Prop :=
  match cs with
  | c :: cs => both_free (Some c) (head cs) = false ∧ coalesced cs
  | [] => True
  end.

(** The bytes in use: those behind the headers of used blocks. *)
Fixpoint owned (a : Z) (cs : list chunk) (z : Z) : Prop :=
  match cs with
  | [] => False
  | (f, n) :: cs => (f = false ∧ a + 8 <= z < a + 8 * n) ∨ owned (a + 8 * n) cs z
  end.

(** Following [next] from [b] through [l] ends at [p]. *)
Fixpoint reach (m : memory) (b : Z) (l : list Z) (p : Z) : Prop :=
  match l with
  | [] => p = b
  | a :: l => next m b = a ∧ reach m a l p
  end.

Lemma quanta_app c1 c2 : quanta (c1 ++ c2) = quanta c1 + quanta c2.
Proof. induction c1 as [|[f n] c1 IH]; [done|]. cbn in *. lia. Qed.

Lemma frees_app a c1 c2 : frees a (c1 ++ c2) = frees a c1 ++ frees (a + 8 * quanta c1) c2.
Proof.
  revert a. induction c1 as [|[f n] c1 IH]; intros a; [cbn; by rewrite Z.add_0_r|].
  cbn [app frees quanta]. rewrite IH, <- (assoc (++)).
  by replace (a + 8 * (n + quanta c1)) with (a + 8 * n + 8 * quanta c1) by lia.
Qed.

Lemma sized_app m a c1 c2 :
  sized m a (c1 ++ c2) ↔ sized m a c1 ∧ sized m (a + 8 * quanta c1) c2.
Proof.
  revert a. induction c1 as [|[f n] c1 IH]; intros a; [cbn; rewrite Z.add_0_r; tauto|].
  cbn [app sized quanta]. rewrite IH.
  replace (a + 8 * n + 8 * quanta c1) with (a + 8 * (n + quanta c1)) by lia. tauto.
Qed.

Lemma sized_quanta m a cs : sized m a cs → Z.of_nat (length cs) <= quanta cs.
Proof.
  revert a. induction cs as [|[f n] cs IH]; intros a; [done|]. intros (_ & Hn & H).
  apply IH in H. cbn in *. lia.
Qed.

Lemma quanta_nonneg m a cs : sized m a cs → 0 <= quanta cs.
Proof. intros H%sized_quanta. lia. Qed.

Lemma frees_range m a cs p : sized m a cs → p ∈ frees a cs → a <= p ∧ p + 8 <= a + 8 * quanta cs.
Proof.
  revert a. induction cs as [|[f n] cs IH]; intros a; [by intros _ ?%elem_of_nil|].
  intros (_ & Hn & H). pose proof (quanta_nonneg _ _ _ H). cbn [frees quanta]. intros [Hp|Hp]%elem_of_app.
  - destruct f; [|by apply elem_of_nil in Hp]. apply list_elem_of_singleton in Hp as ->. lia.
  - specialize (IH _ H Hp). lia.
Qed.

Lemma coalesced_app l k :
  coalesced (l ++ k) ↔ coalesced l ∧ coalesced k ∧ both_free (last l) (head k) = false.
Proof.
  induction l as [|c l IH]; [cbn; tauto|]. cbn [app coalesced]. rewrite IH.
  destruct l as [|d l]; [|rewrite last_cons_cons; cbn [app head]; tauto].
  cbn. unfold both_free. cbn [is_free]. rewrite andb_false_r. tauto.
Qed.

Lemma sized_frame m m' a cs :
  sized m a cs →
  (∀ p, p ∈ heads a cs → a <= p → p + 8 <= a + 8 * quanta cs → size m' p = size m p) →
  sized m' a cs.
Proof.
  revert a. induction cs as [|[f n] cs IH]; intros a; [done|]. cbn [sized quanta].
  intros (Hs & Hn & H) Hm. pose proof (quanta_nonneg _ _ _ H). split; [|split; [done|]].
  - rewrite Hm; [done|left|lia|lia].
  - apply IH; [done|]. intros p Hh Hp Hq. apply Hm; [by right|lia|lia].
Qed.

Lemma heads_range m a cs p : sized m a cs → p ∈ heads a cs → a <= p ∧ p + 8 <= a + 8 * quanta cs.
Proof.
  revert a. induction cs as [|[f n] cs IH]; intros a; [by intros _ ?%elem_of_nil|].
  cbn [sized heads quanta]. intros (_ & Hn & H). pose proof (quanta_nonneg _ _ _ H).
  intros [->|Hp]%elem_of_cons; [lia|]. specialize (IH _ H Hp). lia.
Qed.

Lemma frees_heads a cs p : p ∈ frees a cs → p ∈ heads a cs.
Proof.
  revert a. induction cs as [|[[] n] cs IH]; intros a; cbn [frees heads app]; [done| |].
  - intros [->|H]%elem_of_cons; [left|right; by apply IH].
  - intros H. right. by apply IH.
Qed.

Lemma owned_range m a cs z : sized m a cs → owned a cs z → a <= z < a + 8 * quanta cs.
Proof.
  revert a. induction cs as [|[f n] cs IH]; intros a; [done|]. cbn [sized quanta owned].
  intros (_ & Hn & H). pose proof (quanta_nonneg _ _ _ H).
  intros [[_ Hz]|Hz]; [lia|]. specialize (IH _ H Hz). lia.
Qed.

Lemma owned_app a c1 c2 z : owned a (c1 ++ c2) z ↔ owned a c1 z ∨ owned (a + 8 * quanta c1) c2 z.
Proof.
  revert a. induction c1 as [|[f n] c1 IH]; intros a; [cbn; rewrite Z.add_0_r; tauto|].
  cbn [app owned quanta]. rewrite IH.
  replace (a + 8 * n + 8 * quanta c1) with (a + 8 * (n + quanta c1)) by lia. tauto.
Qed.

(** Headers are not in use. *)
Lemma heads_owned m a cs p z : sized m a cs → p ∈ heads a cs → owned a cs z → z < p ∨ p + 8 <= z.
Proof.
  revert a. induction cs as [|[f n] cs IH]; intros a; [done|]. cbn [sized heads owned].
  intros (_ & Hn & H) [->|Hp]%elem_of_cons.
  - intros [[_ Hz]|Hz]; [lia|]. pose proof (owned_range _ _ _ _ H Hz). lia.
  - pose proof (heads_range _ _ _ _ H Hp). intros [[_ Hz]|Hz]; [lia|by eapply IH].
Qed.

Lemma frees_owned m a cs p z : sized m a cs → p ∈ frees a cs → owned a cs z → z < p ∨ p + 8 <= z.
Proof. intros Hs Hp%frees_heads. by eapply heads_owned. Qed.

(** A used block of [n] quanta at [x]. *)
Fixpoint used_at (a : Z) (cs : list chunk) (x n : Z) : Prop :=
  match cs with
  | [] => False
  | (f, k) :: cs => (f = false ∧ x = a ∧ n = k) ∨ used_at (a + 8 * k) cs x n
  end.

Lemma used_at_app a c1 c2 x n :
  used_at a (c1 ++ c2) x n ↔ used_at a c1 x n ∨ used_at (a + 8 * quanta c1) c2 x n.
Proof.
  revert a. induction c1 as [|[f k] c1 IH]; intros a; [cbn; rewrite Z.add_0_r; tauto|].
  cbn [app used_at quanta]. rewrite IH.
  replace (a + 8 * k + 8 * quanta c1) with (a + 8 * (k + quanta c1)) by lia. tauto.
Qed.

Lemma used_at_split a cs x n :
  used_at a cs x n → ∃ c1 c2, cs = c1 ++ (false, n) :: c2 ∧ x = a + 8 * quanta c1.
Proof.
  revert a. induction cs as [|[f k] cs IH]; intros a; [done|]. intros [(-> & -> & ->)|Hu].
  - exists [], cs. split; [done|]. cbn. lia.
  - destruct (IH _ Hu) as (c1 & c2 & -> & ->). exists ((f, k) :: c1), c2. split; [done|]. cbn. lia.
Qed.

Lemma used_at_owned a cs x n z : used_at a cs x n → x + 8 <= z < x + 8 * n → owned a cs z.
Proof.
  revert a. induction cs as [|[f k] cs IH]; intros a; [done|]. intros [(-> & -> & ->)|Hu] Hz.
  - by left.
  - right. by apply IH.
Qed.

(** Distinct blocks are apart. *)
Lemma heads_apart m a cs p q :
  sized m a cs → p ∈ heads a cs → q ∈ heads a cs → p = q ∨ apart p q.
Proof.
  revert a. induction cs as [|[f n] cs IH]; intros a; [by intros _ ?%elem_of_nil|].
  cbn [sized heads]. intros (_ & Hn & H) Hp Hq.
  assert (∀ r, r ∈ heads (a + 8 * n) cs → a + 8 <= r) as Hr.
  { intros r Hr. pose proof (heads_range _ _ _ _ H Hr). lia. }
  unfold apart in *.
  apply elem_of_cons in Hp as [->|Hp]; apply elem_of_cons in Hq as [->|Hq]; [by left| | |].
  - specialize (Hr q Hq). lia.
  - specialize (Hr p Hp). lia.
  - by apply (IH (a + 8 * n)).
Qed.

Lemma free_size m a cs p : sized m a cs → p ∈ frees a cs →
  ∃ c1 n c2, cs = c1 ++ (true, n) :: c2 ∧ p = a + 8 * quanta c1 ∧ size m p = n ∧ 1 <= n.
Proof.
  revert a. induction cs as [|[f n] cs IH]; intros a; [by intros _ ?%elem_of_nil|].
  intros (Hs & Hn & H) [Hp|Hp]%elem_of_app.
  - destruct f; [|by apply elem_of_nil in Hp]. apply list_elem_of_singleton in Hp as ->.
    exists [], n, cs. split; [done|]. split; [cbn; lia|done].
  - destruct (IH _ H Hp) as (c1 & k & c2 & -> & -> & Hk). exists ((f, n) :: c1), k, c2.
    split; [done|]. split; [cbn; lia|done].
Qed.

Lemma reach_app m b l1 l2 q : reach m b (l1 ++ l2) q ↔ ∃ p, reach m b l1 p ∧ reach m p l2 q.
Proof.
  revert b. induction l1 as [|a l1 IH]; intros b; cbn [app reach].
  - split; [intros H; by exists b|by intros (p & -> & H)].
  - rewrite IH. naive_solver.
Qed.

Lemma reach_last m b l p : reach m b l p → p = default b (last l).
Proof.
  revert b. induction l as [|a l IH]; intros b; [done|]. intros [_ H]. apply IH in H as ->.
  destruct l as [|c l]; [done|]. rewrite last_cons_cons. by destruct (last_is_Some (c :: l)) as [_ [? ->]].
Qed.

Lemma reach_in m b l p : reach m b l p → p = b ∨ p ∈ l.
Proof.
  revert b. induction l as [|a l IH]; intros b; [by left|]. intros [_ [-> | H]%IH]; right; set_solver.
Qed.

(** Only the links before the end matter. *)
Lemma reach_frame m m' b l p :
  NoDup (b :: l) → reach m b l p → (∀ q, q ∈ b :: l → q ≠ p → next m' q = next m q) →
  reach m' b l p.
Proof.
  revert b. induction l as [|a l IH]; intros b Hd; [done|]. intros [Hn Hr] Hm.
  apply NoDup_cons in Hd as [Hb Hd]. split.
  - rewrite Hm; [done|left|]. intros ->. apply Hb. apply reach_in in Hr. set_solver.
  - apply IH; [done|done|]. intros q Hq. apply Hm. by right.
Qed.

Lemma frees_sorted m a cs : sized m a cs → StronglySorted Z.lt (frees a cs).
Proof.
  revert a. induction cs as [|[f n] cs IH]; intros a; [constructor|].
  intros (Hs & Hn & H). cbn [frees]. destruct f; [|by apply IH].
  cbn [app]. constructor; [by apply IH|]. apply Forall_forall. intros p Hp.
  pose proof (frees_range _ _ _ _ H Hp). lia.
Qed.

Lemma sorted_nodup l : StronglySorted Z.lt l → NoDup l.
Proof.
  induction 1 as [|x l Hl IH Hx]; constructor; [|done].
  rewrite Forall_forall in Hx. intros Hin. specialize (Hx x Hin). lia.
Qed.

Section Blocks.
Context (base a sz : Z).

(** Where the static header and the pool lie: apart, and the pool does not end
    where the header starts. *)
Record place : Prop := {
  pl_base : 0 < base ∧ base + 8 <= 2 ^ 32;
  pl_pool : 0 < a ∧ 0 <= sz <= 2 ^ 30 ∧ a + sz < 2 ^ 32;
  pl_apart : base + 8 <= a ∨ a + sz < base;
}.

(** The blocks [cs] tile the pool's start, and [f] is where the search starts. *)
Record blocks (m : memory) (f : Z) (cs : list chunk) : Prop := {
  bl_sized : sized m a cs;
  bl_fit : 8 * quanta cs <= sz;
  bl_ring : reach m base (frees a cs ++ [base]) base;
  bl_base : size m base = 0;
  bl_coalesced : coalesced cs;
  bl_freep : f = base ∨ f ∈ frees a cs;
}.

Context (Hpl : place).

Lemma base_not_free m cs : sized m a cs → 8 * quanta cs <= sz → base ∉ frees a cs.
Proof. intros H Hfit Hin. pose proof (frees_range _ _ _ _ H Hin). destruct Hpl. lia. Qed.

Lemma ring_nodup m cs : sized m a cs → 8 * quanta cs <= sz → NoDup (base :: frees a cs).
Proof.
  intros H Hfit. constructor; [by eapply base_not_free|]. by eapply sorted_nodup, frees_sorted.
Qed.

(** ** Finding the place of a block *)

(** The tests of the loop in [memmgr_free]. *)
Definition stops (x p q : Z) : Prop := (p < x < q) ∨ (q <= p ∧ (p < x ∨ x < q)).

#[local] Instance stops_dec x p q : Decision (stops x p q).
Proof. unfold stops. apply _. Defined.

Lemma search_turn k x p h :
  p ≠ 0 →
  search (S k) x p h
  = if decide (stops x p (next (mem h) p)) then Ok p h else search k x (next (mem h) p) h.
Proof.
  intros Hp. cbn [search]. rewrite (proj2 (Z.eqb_neq _ _)) by done.
  unfold mbind, res_mbind, res_get, mret, res_mret. set (q := next (mem h) p).
  destruct (decide (stops x p q)) as [Hs|Hs]; unfold stops in Hs.
  - destruct ((p <? x) && (x <? q)) eqn:E1; [done|].
    destruct ((q <=? p) && ((p <? x) || (x <? q))) eqn:E2; [done|].
    apply andb_false_iff in E1. apply andb_false_iff in E2.
    rewrite orb_false_iff, Z.leb_gt, !Z.ltb_ge in E2. rewrite !Z.ltb_ge in E1. lia.
  - destruct ((p <? x) && (x <? q)) eqn:E1.
    { apply andb_prop in E1 as [?%Z.ltb_lt ?%Z.ltb_lt]. lia. }
    destruct ((q <=? p) && ((p <? x) || (x <? q))) eqn:E2; [|done].
    apply andb_prop in E2 as [?%Z.leb_le [?%Z.ltb_lt|?%Z.ltb_lt]%orb_prop]; lia.
Qed.

Lemma search_walk k x p l t h :
  NoDup (p :: l) → reach (mem h) p l t →
  (∀ q, q ∈ p :: l → q ≠ t → q ≠ 0 ∧ ¬ stops x q (next (mem h) q)) →
  search (length l + k) x p h = search k x t h.
Proof.
  revert p. induction l as [|b l IH]; intros p Hd; [by intros ->|]. intros [Hn Hr] Hq.
  apply NoDup_cons in Hd as [Hp Hd]. cbn [length Nat.add].
  assert (p ≠ t) as Hpt by (intros ->; apply Hp; apply reach_in in Hr; set_solver).
  destruct (Hq p ltac:(left) Hpt) as [Hp0 Hs].
  rewrite search_turn by done. rewrite decide_False by done. rewrite Hn.
  apply IH; [done|done|]. intros q Hin. apply Hq. by right.
Qed.

(** A ring split where a block at [x] belongs. *)
Record gap (L R : list Z) (x : Z) : Prop := {
  gp_pos : 0 < x;
  gp_sorted : StronglySorted Z.lt (L ++ R);
  gp_below : ∀ q, q ∈ L → 0 < q < x;
  gp_above : ∀ q, q ∈ R → x < q;
  gp_side : (∀ q, q = x ∨ q ∈ L ++ R → base < q) ∨ (∀ q, q = x ∨ q ∈ L ++ R → q < base);
}.

Lemma gap_nodup L R x : gap L R x → NoDup (base :: L ++ R).
Proof.
  intros [_ Hs _ _ Hside]. constructor; [|by apply sorted_nodup].
  intros Hin. destruct Hside as [H|H]; specialize (H base (or_intror Hin)); lia.
Qed.

Lemma gap_stops m L R x pr :
  gap L R x → reach m base L pr → reach m pr (R ++ [base]) base → stops x pr (next m pr).
Proof.
  intros [_ _ Hb Ha Hside] HL HR. unfold stops.
  pose proof (reach_in _ _ _ _ HL) as Hin.
  assert (base < x ∨ x < base) as Hx by (destruct Hside as [H|H]; specialize (H x); naive_solver).
  destruct R as [|q R]; cbn [app reach] in HR; destruct HR as [-> _].
  - destruct Hside as [H|H]; destruct Hin as [->|Hin]; try lia;
      pose proof (Hb pr Hin); pose proof (H x ltac:(by left));
      pose proof (H pr ltac:(right; set_solver)); lia.
  - pose proof (Ha q ltac:(left)) as Hxq.
    destruct Hin as [->|Hin]; [|pose proof (Hb pr Hin); lia].
    destruct Hside as [H|H]; pose proof (H x ltac:(by left));
      pose proof (H q ltac:(right; set_solver)); lia.
Qed.

Lemma sorted_next l1 q y l2 : StronglySorted Z.lt (l1 ++ q :: y :: l2) → q < y.
Proof.
  intros Hs. assert (StronglySorted Z.lt ((l1 ++ [q]) ++ y :: l2)) as Hs' by by rewrite <- (assoc (++)).
  apply (StronglySorted_app_1_elem_of _ _ _ _ _ Hs'); set_solver.
Qed.

Lemma gap_passes m L R x pr q :
  gap L R x → reach m base L pr → reach m pr (R ++ [base]) base →
  q ∈ base :: L ++ R → q ≠ pr → ¬ stops x q (next m q).
Proof.
  intros [_ Hs Hb Ha Hside] HL HR Hq Hqp. unfold stops.
  apply elem_of_cons in Hq as [->|[Hq|Hq]%elem_of_app].
  - destruct L as [|y L]; [by cbn in HL|]. destruct HL as [-> _].
    pose proof (Hb y ltac:(left)) as Hyx. destruct Hside as [H|H]; pose proof (H y ltac:(right; set_solver));
      pose proof (H x ltac:(by left)); lia.
  - apply list_elem_of_split in Hq as (l1 & l2 & ->).
    apply reach_app in HL as (z & _ & HL). destruct HL as [_ HL].
    destruct l2 as [|y l2]; [by cbn in HL|]. destruct HL as [-> _].
    rewrite <- (assoc (++)) in Hs. pose proof (sorted_next _ _ _ _ Hs).
    pose proof (Hb y ltac:(set_solver)). pose proof (Hb q ltac:(set_solver)). lia.
  - apply list_elem_of_split in Hq as (l1 & l2 & ->). rewrite <- (assoc (++)) in HR.
    apply reach_app in HR as (z & _ & HR). destruct HR as [_ HR].
    pose proof (Ha q ltac:(set_solver)) as Hxq.
    destruct l2 as [|y l2]; destruct HR as [-> _].
    + destruct Hside as [H|H]; pose proof (H q ltac:(right; set_solver));
        pose proof (H x ltac:(by left)); lia.
    + rewrite (assoc (++)) in Hs. pose proof (sorted_next _ _ _ _ Hs).
      pose proof (Ha y ltac:(set_solver)). lia.
Qed.

Lemma search_found k m x p h :
  mem h = m → p ≠ 0 → stops x p (next m p) → search (S k) x p h = Ok p h.
Proof. intros <- Hp Hs. rewrite search_turn by done. by rewrite decide_True. Qed.

Lemma search_ok k L R x pr f h :
  gap L R x → 0 < base → reach (mem h) base L pr → reach (mem h) pr (R ++ [base]) base →
  f = base ∨ f ∈ L ++ R →
  search (length (L ++ R) + 2 + k) x f h = Ok pr h.
Proof.
  intros Hg Hb HL HR Hf. pose proof (gap_nodup L R x Hg) as Hnd.
  assert (∀ q, q ∈ base :: L ++ R → q ≠ 0) as H0.
  { destruct Hg as [Hx _ Hbel Hab _]. intros q [->|[Hq|Hq]%elem_of_app]%elem_of_cons; [lia| |].
    - specialize (Hbel q Hq). lia.
    - specialize (Hab q Hq). lia. }
  assert (pr ∈ base :: L) as Hpr by (apply reach_in in HL; set_solver).
  pose proof (gap_stops _ _ _ _ _ Hg HL HR) as Hstop.
  assert (∀ q, q ∈ base :: L ++ R → q ≠ pr → q ≠ 0 ∧ ¬ stops x q (next (mem h) q)) as Hpass.
  { intros q Hq Hqp. split; [by apply H0|by eapply gap_passes]. }
  (* from a node up to the gap *)
  assert (∀ j, search (length L + 1 + j) x base h = Ok pr h) as Hbase.
  { intros j. rewrite <- Nat.add_assoc, (search_walk _ _ _ L pr); [..|].
    - apply (search_found _ (mem h)); [done|apply H0; set_solver|done].
    - apply NoDup_cons in Hnd as [? [? _]%NoDup_app]. constructor; [set_solver|done].
    - done.
    - intros q Hq. apply Hpass. set_solver. }
  rewrite length_app. destruct Hf as [->|[Hf|Hf]%elem_of_app].
  - specialize (Hbase (length R + 1 + k)%nat). rewrite <- Hbase. f_equal. lia.
  - apply list_elem_of_split in Hf as (l1 & l2 & ->).
    apply reach_app in HL as (z & _ & HL). destruct HL as [_ HL].
    replace (length (l1 ++ f :: l2) + length R + 2 + k)%nat
      with (length l2 + S (length l1 + length R + 2 + k))%nat by (rewrite length_app; simpl; lia).
    rewrite (search_walk _ _ _ l2 pr); [..|].
    + apply (search_found _ (mem h)); [done|apply H0; set_solver|done].
    + apply NoDup_cons in Hnd as [_ Hnd]. apply NoDup_app in Hnd as [Hnd _].
      by apply NoDup_app in Hnd as (_ & _ & Hnd).
    + done.
    + intros q Hq. apply Hpass. set_solver.
  - apply list_elem_of_split in Hf as (l1 & l2 & ->). rewrite <- (assoc (++)) in HR.
    apply reach_app in HR as (z & _ & HR). destruct HR as [_ HR].
    replace (length L + length (l1 ++ f :: l2) + 2 + k)%nat
      with (length (l2 ++ [base]) + (length L + 1 + (length l1 + 1 + k)))%nat
      by (rewrite !length_app; simpl; lia).
    rewrite (search_walk _ _ _ (l2 ++ [base]) base); [apply Hbase|..].
    + apply NoDup_cons in Hnd as [Hnb Hnd]. apply NoDup_app in Hnd as (_ & _ & Hnd).
      apply NoDup_app in Hnd as (_ & _ & Hnd). rewrite app_comm_cons. apply NoDup_app.
      split; [done|]. split; [|apply NoDup_singleton]. set_solver.
    + done.
    + intros q Hq Hqb. apply Hpass; [set_solver|]. intros ->.
      apply NoDup_cons in Hnd as [Hnb Hnd]. apply NoDup_app in Hnd as (_ & Hdis & _).
      apply elem_of_cons in Hpr as [->|Hpr]; [done|]. apply (Hdis pr Hpr). set_solver.
Qed.

(** ** Freeing a block *)

(** A block in front of the free ones behind it, its link not yet made. *)
Record pending (m : memory) (c1 : list chunk) (n : Z) (c2 : list chunk) (pr : Z) : Prop := {
  pd_sized : sized m a (c1 ++ (true, n) :: c2);
  pd_fit : 8 * quanta (c1 ++ (true, n) :: c2) <= sz;
  pd_left : reach m base (frees a c1) pr;
  pd_right : let x := a + 8 * quanta c1 in reach m x (frees (x + 8 * n) c2 ++ [base]) base;
  pd_base : size m base = 0;
}.

(** Joining with a free block behind. *)
Definition higher (n : Z) (c2 : list chunk) : Z * list chunk :=
  match c2 with (true, n2) :: c2 => (n + n2, c2) | _ => (n, c2) end.

Lemma base_apart m cs p :
  sized m a cs → 8 * quanta cs <= sz → a <= p → p + 8 <= a + 8 * quanta cs → apart base p.
Proof. intros _ Hfit H1 H2. unfold apart. destruct Hpl. lia. Qed.

(** Starting the way back to [base] from another node. *)
Lemma relink m m' p x l :
  reach m p (l ++ [base]) base → NoDup (l ++ [base]) → next m' x = next m p →
  (∀ q, q ∈ l → next m' q = next m q) → reach m' x (l ++ [base]) base.
Proof.
  intros Hr Hnd Hx Hm. destruct l as [|y t]; cbn [app reach] in *.
  - by rewrite Hx.
  - destruct Hr as [<- Hr]. split; [done|]. apply (reach_frame m); [done|done|].
    intros q Hq Hqb. apply Hm. set_solver.
Qed.

Lemma advance_small p n : 0 <= p + 8 * n < 2 ^ 32 → advance p n = p + 8 * n.
Proof. intros H. by apply u32_small. Qed.

(** The link of a node in front of [c2] is the block behind it only when that
    block is free. *)
Lemma link_not_adjacent m x n c2 y t :
  a <= x → 1 <= n → sized m (x + 8 * n) c2 → x + 8 * n + 8 * quanta c2 <= a + sz →
  is_free (head c2) = false → frees (x + 8 * n) c2 ++ [base] = y :: t → y ≠ x + 8 * n.
Proof.
  intros Hx Hn Hs Hfit Hf E. destruct c2 as [|[[] n2] c2]; [|done|].
  - injection E as <- _. cbn in Hfit. destruct Hpl. lia.
  - cbn [frees app quanta sized] in *. destruct Hs as (_ & Hn2 & Hs). pose proof (quanta_nonneg _ _ _ Hs).
    destruct (frees (x + 8 * n + 8 * n2) c2) as [|p l] eqn:El; injection E as <- _.
    + destruct Hpl. lia.
    + assert (p ∈ frees (x + 8 * n + 8 * n2) c2) as Hp by (rewrite El; left).
      pose proof (frees_range _ _ _ _ Hs Hp). lia.
Qed.

Lemma link_range m p l :
  reach m p (l ++ [base]) base → (∀ q, q ∈ l → is_u 32 q) → is_u 32 (next m p).
Proof.
  destruct l as [|y t]; intros [-> _] Hl; [unfold is_u; destruct Hpl; lia|]. apply Hl. left.
Qed.

Lemma frees_u32 m b cs p :
  a <= b → b + 8 * quanta cs <= a + sz → sized m b cs → p ∈ frees b cs → is_u 32 p.
Proof. intros Ha Hb Hs Hp. pose proof (frees_range _ _ _ _ Hs Hp). unfold is_u. destruct Hpl. lia. Qed.

(** A block in use at [x] that is released behind the link [pr]. *)
Record used_block (m : memory) (c1 : list chunk) (n : Z) (c2 : list chunk) (pr : Z) : Prop := {
  ub_base1 : base ∉ frees a c1;
  ub_ring : NoDup (frees (a + 8 * quanta c1 + 8 * n) c2 ++ [base]);
  ub_sized1 : sized m a c1;
  ub_size : size m (a + 8 * quanta c1) = n;
  ub_pos : 1 <= n;
  ub_sized2 : sized m (a + 8 * quanta c1 + 8 * n) c2;
  ub_fit : 8 * (quanta c1 + (n + quanta c2)) <= sz;
  ub_q1 : 0 <= quanta c1;
  ub_q2 : 0 <= quanta c2;
  ub_base : apart base (a + 8 * quanta c1);
  ub_before : ∀ p, a <= p → p + 8 <= a + 8 * quanta c1 → apart p (a + 8 * quanta c1);
  ub_free1 : ∀ p, p ∈ frees a c1 → apart p (a + 8 * quanta c1);
  ub_free2 : ∀ p, p ∈ frees (a + 8 * quanta c1 + 8 * n) c2 → apart p (a + 8 * quanta c1);
  ub_prev : apart pr (a + 8 * quanta c1);
}.

Lemma used_block_ok m f c1 n c2 pr :
  blocks m f (c1 ++ (false, n) :: c2) → reach m base (frees a c1) pr → used_block m c1 n c2 pr.
Proof.
  set (x := a + 8 * quanta c1). intros [Hs Hfit _ _ _ _] HL. pose proof Hpl as [Hpb Hpp Hpa].
  pose proof (ring_nodup _ _ Hs Hfit) as Hnd. rewrite frees_app in Hnd. cbn [frees app] in Hnd.
  fold x in Hnd. apply NoDup_cons in Hnd as [Hnb Hnd]. apply NoDup_app in Hnd as (_ & _ & Hnd).
  apply sized_app in Hs as [Hs1 (Hsx & Hn & Hs2)]. fold x in Hsx, Hs2.
  rewrite quanta_app in Hfit. cbn [quanta] in Hfit.
  pose proof (quanta_nonneg _ _ _ Hs1) as Hq1. pose proof (quanta_nonneg _ _ _ Hs2) as Hq2.
  assert (apart base x) as Hbx by (unfold apart; lia).
  assert (∀ p, p ∈ frees a c1 → apart p x) as Hf1.
  { intros p Hp. pose proof (frees_range _ _ _ _ Hs1 Hp). unfold apart. lia. }
  split; fold x; try done.
  - set_solver.
  - apply NoDup_app. split; [done|]. split; [set_solver|apply NoDup_singleton].
  - unfold apart. lia.
  - intros p Hp. pose proof (frees_range _ _ _ _ Hs2 Hp). unfold apart. lia.
  - destruct (reach_in _ _ _ _ HL) as [->|]; [done|by apply Hf1].
Qed.

(** The block above is free: the released one takes it over. *)
Lemma join_higher_free m f c1 n n2 c2 pr (x := a + 8 * quanta c1) (y := x + 8 * n)
    (m' := set_next x (next m y) (set_size x (n + n2) m)) :
  blocks m f (c1 ++ (false, n) :: (true, n2) :: c2) →
  reach m base (frees a c1) pr → reach m pr (y :: frees (y + 8 * n2) c2 ++ [base]) base →
  size m y = n2 ∧ 0 <= n + n2 < 2 ^ 32 ∧ 8 * n2 <= sz ∧ 1 <= n2 ∧
  pending m' c1 (n + n2) c2 pr ∧ (∀ z, z < x ∨ x + 8 <= z → m' z = m z).
Proof.
  intros Hbl HL [Hy HR]. pose proof Hbl as [_ _ _ Hbase _ _]. pose proof Hpl as [Hpb Hpp Hpa].
  destruct (used_block_ok _ _ _ _ _ _ Hbl HL) as
    [Hnb Hnd2 Hs1 Hsx Hn Hs2 Hfit Hq1 Hq2 Hbx Ha1 Hf1 Hf2 Hpr].
  fold x in Hnd2, Hsx, Hs2, Hbx, Ha1, Hf1, Hf2, Hpr. fold y in Hnd2, Hs2, Hf2.
  cbn [frees app sized quanta] in *. destruct Hs2 as (Hsy & Hn2 & Hs2).
  pose proof (quanta_nonneg _ _ _ Hs2). subst m'.
  assert (is_u 32 (next m y)) as Hu.
  { apply (link_range _ _ (frees (y + 8 * n2) c2)); [done|]. intros q Hq.
    apply (frees_u32 m (y + 8 * n2) c2); by (done || lia). }
  split; [done|]. split; [lia|]. split; [lia|]. split; [done|].
  split; [|intros z Hz; by headers]. apply NoDup_cons in Hnd2 as [_ Hnd2].
  split.
  + apply sized_app. split; [|split; [|split; [lia|]]].
    * apply (sized_frame m); [done|]. intros p _ Hp1 Hp2. pose proof (Ha1 p). by headers.
    * fold x. headers. done.
    * fold x. replace (x + 8 * (n + n2)) with (y + 8 * n2) by lia.
      apply (sized_frame m); [done|]. intros p _ Hp1 Hp2. by headers.
  + rewrite quanta_app. cbn [quanta]. lia.
  + apply (reach_frame m); [constructor; [set_solver|]|done|].
    * by eapply sorted_nodup, frees_sorted.
    * intros q [->|Hq]%elem_of_cons _; [by headers|]. pose proof (Hf1 q Hq). by headers.
  + cbv zeta. fold x. replace (x + 8 * (n + n2)) with (y + 8 * n2) by lia.
    apply (relink m _ y); [done|done|by rewrite next_set_next|]. intros q Hq. pose proof (Hf2 q ltac:(set_solver)). by headers.
  + by headers.
Qed.

(** The block above is in use: the released one points to the next free one. *)
Lemma join_higher_used m f c1 n c2 pr (x := a + 8 * quanta c1) (m' := set_next x (next m pr) m) :
  is_free (head c2) = false → blocks m f (c1 ++ (false, n) :: c2) →
  reach m base (frees a c1) pr → reach m pr (frees (x + 8 * n) c2 ++ [base]) base →
  next m pr ≠ x + 8 * n ∧ pending m' c1 n c2 pr ∧ (∀ z, z < x ∨ x + 8 <= z → m' z = m z).
Proof.
  intros Ef Hbl HL HR. pose proof Hbl as [_ _ _ Hbase _ _]. pose proof Hpl as [Hpb Hpp Hpa].
  destruct (used_block_ok _ _ _ _ _ _ Hbl HL) as
    [Hnb Hnd2 Hs1 Hsx Hn Hs2 Hfit Hq1 Hq2 Hbx Ha1 Hf1 Hf2 Hpr].
  fold x in Hnd2, Hsx, Hs2, Hbx, Ha1, Hf1, Hf2, Hpr. subst m'. split.
  { destruct (frees (x + 8 * n) c2 ++ [base]) as [|y t] eqn:E; [by destruct (frees (x + 8 * n) c2)|].
    destruct HR as [-> _]. eapply link_not_adjacent; [| | | | |exact E]; try done; lia. }
  assert (is_u 32 (next m pr)) as Hu.
  { apply (link_range _ _ (frees (x + 8 * n) c2)); [done|]. intros q Hq.
    apply (frees_u32 m (x + 8 * n) c2); by (done || lia). }
  split; [|intros z Hz; by headers]. cbn [fst snd]. split.
  + apply sized_app. split; [|split; [|split; [lia|]]].
    * apply (sized_frame m); [done|]. intros p _ Hp1 Hp2. pose proof (Ha1 p). by headers.
    * fold x. headers. done.
    * fold x. apply (sized_frame m); [done|]. intros p _ Hp1 Hp2. by headers.
  + rewrite quanta_app. cbn [quanta]. lia.
  + apply (reach_frame m); [constructor; [set_solver|]|done|].
    * by eapply sorted_nodup, frees_sorted.
    * intros q [->|Hq]%elem_of_cons _; [by headers|]. pose proof (Hf1 q Hq). by headers.
  + cbv zeta. fold x.
    apply (relink m _ pr); [done|done|by rewrite next_set_next|]. intros q Hq. pose proof (Hf2 q Hq). by headers.
  + by headers.
Qed.

Lemma join_higher_ok m f c1 n c2 pr :
  blocks m f (c1 ++ (false, n) :: c2) →
  let x := a + 8 * quanta c1 in
  reach m base (frees a c1) pr → reach m pr (frees (x + 8 * n) c2 ++ [base]) base →
  let m' := join_higher x pr m in
  pending m' c1 (higher n c2).1 (higher n c2).2 pr ∧ (∀ z, z < x ∨ x + 8 <= z → m' z = m z).
Proof.
  intros Hbl x HL HR. pose proof Hpl as [Hpb Hpp Hpa].
  destruct (used_block_ok _ _ _ _ _ _ Hbl HL) as [_ _ _ Hsx Hn _ Hfit Hq1 Hq2 _ _ _ _ Hpr].
  fold x in Hsx, Hpr.
  unfold join_higher. rewrite Hsx, advance_small by lia. destruct (is_free (head c2)) eqn:Ef.
  - destruct c2 as [|[[] n2] c2]; try done. cbn [frees app higher fst snd] in *.
    destruct (join_higher_free m f c1 n n2 c2 pr Hbl HL HR) as (Hsy & Hsum & Hfit2 & Hn2 & Hp).
    destruct HR as [Hy _]. fold x in Hsy, Hp. rewrite Hy, Z.eqb_refl, Hsy, u32_small by (unfold is_u; lia).
    rewrite (next_set_size_apart _ x pr), Hy, (next_set_size_apart _ x (x + 8 * n))
      by (done || unfold apart; lia). exact Hp.
  - destruct (join_higher_used m f c1 n c2 pr Ef Hbl HL HR) as (Hna & Hp). fold x in Hna, Hp.
    rewrite (proj2 (Z.eqb_neq _ _)) by done.
    assert (higher n c2 = (n, c2)) as -> by by destruct c2 as [|[[] ?] ?]. exact Hp.
Qed.

(** Joining with a free block in front. *)
Definition lower (c1 : list chunk) (n : Z) (c2 : list chunk) : list chunk :=
  match last c1 with
  | Some (true, n1) => removelast c1 ++ (true, n1 + n) :: c2
  | _ => c1 ++ (true, n) :: c2
  end.

Lemma lower_snoc_free c1 n1 n c2 : lower (c1 ++ [(true, n1)]) n c2 = c1 ++ (true, n1 + n) :: c2.
Proof. unfold lower. by rewrite last_snoc, removelast_last. Qed.

Lemma lower_other c1 n c2 : is_free (last c1) = false → lower c1 n c2 = c1 ++ (true, n) :: c2.
Proof. unfold lower. by destruct (last c1) as [[[] ?]|]. Qed.

(** The node in front of a block, when the block before it is not free, is no
    neighbour. *)
Lemma front_not_adjacent m c1 n c2 pr :
  pending m c1 n c2 pr → is_free (last c1) = false →
  0 <= pr + 8 * size m pr < 2 ^ 32 ∧ pr + 8 * size m pr ≠ a + 8 * quanta c1.
Proof.
  intros [Hs Hfit HL _ Hb] Hf. pose proof Hpl as [Hpb Hpp Hpa].
  apply sized_app in Hs as [Hs1 (_ & Hn & Hs2)]. pose proof (quanta_nonneg _ _ _ Hs2).
  pose proof (quanta_nonneg _ _ _ Hs1). rewrite quanta_app in Hfit. cbn [quanta] in Hfit.
  destruct (reach_in _ _ _ _ HL) as [->|Hin]; [rewrite Hb; lia|].
  destruct (free_size _ _ _ _ Hs1 Hin) as (d1 & k & d2 & -> & -> & -> & Hk).
  rewrite quanta_app in *. cbn [quanta] in *.
  apply sized_app in Hs1 as [Hd1 (_ & _ & Hd2)]. pose proof (quanta_nonneg _ _ _ Hd1).
  pose proof (sized_quanta _ _ _ Hd2) as Hq2. destruct d2 as [|d d2].
  { by rewrite last_snoc in Hf. }
  cbn [length] in Hq2. lia.
Qed.

(** A released block at [x] with the link [pr] before it, seen from the ring. *)
Record pending_block (m : memory) (c1 : list chunk) (n : Z) (c2 : list chunk) : Prop := {
  pb_base : base ∉ frees a c1;
  pb_left : NoDup (frees a c1);
  pb_ring : NoDup (frees (a + 8 * quanta c1 + 8 * n) c2 ++ [base]);
  pb_apart : ∀ q, q ∈ frees a c1 → q ∉ a + 8 * quanta c1 :: frees (a + 8 * quanta c1 + 8 * n) c2;
  pb_sized1 : sized m a c1;
  pb_size : size m (a + 8 * quanta c1) = n;
  pb_pos : 1 <= n;
  pb_sized2 : sized m (a + 8 * quanta c1 + 8 * n) c2;
  pb_fit : 8 * (quanta c1 + (n + quanta c2)) <= sz;
  pb_q1 : 0 <= quanta c1;
  pb_q2 : 0 <= quanta c2;
  pb_behind : ∀ q, q ∈ frees (a + 8 * quanta c1 + 8 * n) c2 → a + 8 * quanta c1 + 8 <= q;
  pb_next : is_u 32 (next m (a + 8 * quanta c1));
}.

Lemma pending_block_ok m c1 n c2 pr : pending m c1 n c2 pr → pending_block m c1 n c2.
Proof.
  set (x := a + 8 * quanta c1). intros [Hs Hfit HL HR Hb]. cbv zeta in HR. fold x in HR.
  pose proof Hpl as [Hpb Hpp Hpa].
  pose proof (ring_nodup _ _ Hs Hfit) as Hnd. rewrite frees_app in Hnd. cbn [frees app] in Hnd.
  fold x in Hnd. apply NoDup_cons in Hnd as [Hnb Hnd]. apply NoDup_app in Hnd as (Hnd1 & Hdis & Hnd2).
  apply NoDup_cons in Hnd2 as [Hx2 Hnd2].
  apply sized_app in Hs as [Hs1 (Hsx & Hn & Hs2)]. fold x in Hsx, Hs2.
  rewrite quanta_app in Hfit. cbn [quanta] in Hfit.
  pose proof (quanta_nonneg _ _ _ Hs1) as Hq1. pose proof (quanta_nonneg _ _ _ Hs2) as Hq2.
  split; fold x; try done.
  - set_solver.
  - apply NoDup_app. split; [done|]. split; [set_solver|apply NoDup_singleton].
  - intros q Hq. pose proof (frees_range _ _ _ _ Hs2 Hq). lia.
  - apply (link_range _ _ (frees (x + 8 * n) c2)); [done|]. intros q Hq.
    apply (frees_u32 m (x + 8 * n) c2); by (done || lia).
Qed.

(** The block below is free: it takes over the released one. *)
Lemma join_lower_free m c1 n1 n c2 pr (y := a + 8 * quanta c1) (x := y + 8 * n1)
    (m' := set_next y (next m x) (set_size y (n1 + n) m)) :
  pending m (c1 ++ [(true, n1)]) n c2 pr → coalesced (c1 ++ (true, n1 + n) :: c2) →
  pr = y ∧ size m y = n1 ∧ size m x = n ∧ 0 <= n1 + n < 2 ^ 32 ∧ 0 <= x < 2 ^ 32 ∧
  blocks m' y (c1 ++ (true, n1 + n) :: c2) ∧ (∀ z, z < y ∨ y + 8 <= z → m' z = m z).
Proof.
  intros Hpd Hco. destruct (pending_block_ok _ _ _ _ _ Hpd) as
    [Hnb Hnd1 Hndr Hdis Hs1 Hsx Hn Hs2 Hfit Hq1 Hq2 Hf2 Hu].
  pose proof Hpd as [_ _ HL HR Hb]. cbv zeta in HR. pose proof Hpl as [Hpb Hpp Hpa].
  rewrite frees_app in *. cbn [frees] in *. rewrite app_nil_r in *.
  assert (a + 8 * quanta (c1 ++ [(true, n1)]) = x) as Ex
    by (subst x y; rewrite quanta_app; cbn [quanta]; lia).
  rewrite Ex in *. fold y in HL, Hnb, Hnd1, Hdis. apply sized_app in Hs1 as [Hs1 (Hsy & Hn1 & _)]. fold y in Hsy.
  assert (8 * (quanta c1 + n1 + (n + quanta c2)) <= sz) as Hfit'
    by (rewrite quanta_app in Hfit; cbn [quanta] in Hfit; lia). clear Hfit. rename Hfit' into Hfit.
  assert (x = y + 8 * n1) as Hxy by done. clearbody x. pose proof (quanta_nonneg _ _ _ Hs1).
  apply reach_app in HL as (p & HL & HL2). destruct HL2 as [Hyp Hpr]. cbn in Hpr. subst pr. subst m'.
  assert (∀ p, p ∈ base :: frees a c1 → apart p y) as Hl.
  { intros q [->|Hq]%elem_of_cons; [unfold apart; lia|].
    pose proof (frees_range _ _ _ _ Hs1 Hq). unfold apart. lia. }
  do 3 (split; [done|]). do 2 (split; [lia|]).
  split; [|intros z Hz; by headers].
  assert (frees a (c1 ++ (true, n1 + n) :: c2) = frees a c1 ++ y :: frees (x + 8 * n) c2) as Efr.
  { rewrite frees_app. cbn [frees app]. fold y. by replace (y + 8 * (n1 + n)) with (x + 8 * n) by lia. }
  split.
  + apply sized_app. fold y. split; [|split; [|split; [lia|]]].
    * apply (sized_frame m); [done|]. intros q _ Hq1' Hq2'. by headers.
    * by headers.
    * replace (y + 8 * (n1 + n)) with (x + 8 * n) by lia.
      apply (sized_frame m); [done|]. intros q _ Hq1' Hq2'. by headers.
  + rewrite quanta_app. cbn [quanta]. lia.
  + rewrite Efr, <- (assoc (++)). cbn [app]. apply reach_app. exists p. split.
    * apply (reach_frame m); [|done|].
      { apply NoDup_app in Hnd1 as [Hnd1 _]. constructor; [set_solver|done]. }
      intros q Hq _. pose proof (Hl q Hq). by headers.
    * split.
      -- assert (p ∈ base :: frees a c1) as Hp by (apply reach_in in HL; set_solver).
         pose proof (Hl p Hp). by headers.
      -- apply (relink m _ x); [done|done|by rewrite next_set_next|].
         intros q Hq. pose proof (Hf2 q Hq). by headers.
  + pose proof (Hl base ltac:(left)). by headers.
  + done.
  + right. rewrite Efr. set_solver.
Qed.

(** The block below is in use: the released one enters the ring. *)
Lemma join_lower_other m c1 n c2 pr (x := a + 8 * quanta c1) (m' := set_next pr x m) :
  pending m c1 n c2 pr → coalesced (c1 ++ (true, n) :: c2) →
  blocks m' pr (c1 ++ (true, n) :: c2) ∧ (∀ z, z < pr ∨ pr + 8 <= z → m' z = m z).
Proof.
  intros Hpd Hco. destruct (pending_block_ok _ _ _ _ _ Hpd) as
    [Hnb Hnd1 Hndr Hdis Hs1 Hsx Hn Hs2 Hfit Hq1 Hq2 Hf2 Hu].
  pose proof Hpd as [_ _ HL HR Hb]. cbv zeta in HR. pose proof Hpl as [Hpb Hpp Hpa].
  fold x in HR, Hndr, Hdis, Hsx, Hs2, Hf2, Hu. subst m'.
  assert (pr ∈ base :: frees a c1) as Hp by (apply reach_in in HL; set_solver).
  assert (apart pr x) as Hpx.
  { apply elem_of_cons in Hp as [->|Hp]; [unfold apart; lia|].
    pose proof (frees_range _ _ _ _ Hs1 Hp). unfold apart. lia. }
  assert (∀ q, x <= q → q + 8 <= a + sz → apart q pr) as Hq.
  { intros q Hq1' Hq2'. apply elem_of_cons in Hp as [->|Hp]; [unfold apart; lia|].
    pose proof (frees_range _ _ _ _ Hs1 Hp). unfold apart. lia. }
  assert (∀ q, q ∈ base :: heads a c1 → q = pr ∨ apart q pr) as Hp1.
  { intros q Hqh. apply elem_of_cons in Hqh as [->|Hqh]; apply elem_of_cons in Hp as [->|Hp].
    - by left.
    - right. pose proof (frees_range _ _ _ _ Hs1 Hp). unfold apart. lia.
    - right. pose proof (heads_range _ _ _ _ Hs1 Hqh). unfold apart. lia.
    - apply (heads_apart m a c1); [done|done|by apply frees_heads]. }
  split; [|intros z Hz; by headers].
  assert (frees a (c1 ++ (true, n) :: c2) = frees a c1 ++ x :: frees (x + 8 * n) c2) as Efr.
  { rewrite frees_app. done. }
  split.
  + apply sized_app. fold x. split; [|split; [|split; [lia|]]].
    * apply (sized_frame m); [done|]. intros q Hqh _ _. rewrite size_set_next; [done|].
      apply Hp1. by right.
    * rewrite size_set_next; [done|right]. apply Hq; lia.
    * apply (sized_frame m); [done|]. intros q _ Hq1' Hq2'. rewrite size_set_next; [done|right].
      apply Hq; lia.
  + rewrite quanta_app. cbn [quanta]. lia.
  + rewrite Efr, <- (assoc (++)). cbn [app]. apply reach_app. exists pr. split.
    * apply (reach_frame m); [constructor; [set_solver|done]|done|].
      intros q Hq' Hqp. rewrite next_set_next_apart; [done|].
      destruct (Hp1 q) as [|]; [|done|done].
      apply elem_of_cons in Hq' as [->|Hq']; [left|right; by apply frees_heads].
    * split; [rewrite next_set_next by (unfold is_u; lia); done|].
      apply (relink m _ x); [done|done| |].
      -- apply next_set_next_apart. unfold apart in *. lia.
      -- intros q Hq'. pose proof (Hf2 q Hq'). rewrite next_set_next_apart; [done|].
         pose proof (frees_range _ _ _ _ Hs2 Hq'). apply Hq; lia.
  + rewrite size_set_next; [done|]. apply Hp1. left.
  + done.
  + apply elem_of_cons in Hp as [->|Hp]; [by left|]. right. rewrite Efr. set_solver.
Qed.

Lemma join_lower_ok m c1 n c2 pr :
  pending m c1 n c2 pr → coalesced (lower c1 n c2) →
  let m' := join_lower (a + 8 * quanta c1) pr m in
  blocks m' pr (lower c1 n c2) ∧ (∀ z, z < pr ∨ pr + 8 <= z → m' z = m z).
Proof.
  intros Hpd Hco. cbv zeta. set (x := a + 8 * quanta c1).
  pose proof (front_not_adjacent _ _ _ _ _ Hpd) as Hfront. fold x in Hfront.
  unfold join_lower. destruct (is_free (last c1)) eqn:Ef.
  - destruct c1 as [|[f n1] c1 _] using rev_ind; [done|]. rewrite last_snoc in Ef. cbn in Ef. subst f.
    rewrite lower_snoc_free in *.
    destruct (join_lower_free m c1 n1 n c2 pr Hpd Hco) as (-> & Hsy & Hsx & Hsum & Hx & Hb).
    assert (x = a + 8 * quanta c1 + 8 * n1) as Hxy by (subst x; rewrite quanta_app; cbn [quanta]; lia).
    rewrite Hsy, advance_small, <- Hxy, Z.eqb_refl by lia. rewrite <- Hxy in Hb, Hsx.
    rewrite Hsx, u32_small by (unfold is_u; lia).
    rewrite (next_set_size_apart _ (a + 8 * quanta c1) x); [exact Hb|].
    destruct (pending_block_ok _ _ _ _ _ Hpd) as [_ _ _ _ Hs1 _ _ _ _ _ _ _ _].
    apply sized_app in Hs1 as [_ (_ & Hn1 & _)]. unfold apart. lia.
  - rewrite lower_other in * by done. destruct Hfront as [Hr Hne]; [done|].
    rewrite advance_small by done. rewrite (proj2 (Z.eqb_neq _ _)) by done.
    by apply join_lower_other.
Qed.

(** The blocks after a used one of [n] quanta between [c1] and [c2] is freed. *)
Definition release (c1 : list chunk) (n : Z) (c2 : list chunk) : list chunk :=
  lower c1 (higher n c2).1 (higher n c2).2.

Lemma higher_head n c2 : is_free (head c2) = false → higher n c2 = (n, c2).
Proof. by destruct c2 as [|[[] ?] ?]. Qed.

Lemma coalesced_release c1 n c2 :
  coalesced (c1 ++ (false, n) :: c2) → coalesced (release c1 n c2).
Proof.
  intros (H1 & H2 & _)%coalesced_app. cbn in H2. destruct H2 as [_ H2].
  assert (∀ k, coalesced ((true, k) :: (higher n c2).2)) as H3.
  { intros k. destruct c2 as [|[[] n2] c2]; cbn [higher snd]; [done| |done].
    cbn in H2 |- *. destruct H2 as [H2 H2']. by split. }
  unfold release. destruct (is_free (last c1)) eqn:Ef.
  - destruct c1 as [|[f n1] c1 _] using rev_ind; [done|]. rewrite last_snoc in Ef. cbn in Ef. subst f.
    rewrite lower_snoc_free. apply coalesced_app in H1 as (H1 & _ & Hb). apply coalesced_app.
    split; [done|]. split; [apply H3|]. exact Hb.
  - rewrite lower_other by done. apply coalesced_app. split; [done|]. split; [apply H3|].
    unfold both_free. by rewrite Ef.
Qed.

Lemma owned_lower c1 n c2 z : owned a (lower c1 n c2) z ↔ owned a (c1 ++ (true, n) :: c2) z.
Proof.
  destruct (is_free (last c1)) eqn:Ef; [|by rewrite lower_other].
  destruct c1 as [|[f n1] c1 _] using rev_ind; [done|]. rewrite last_snoc in Ef. cbn in Ef. subst f.
  rewrite lower_snoc_free, <- (assoc (++)), !owned_app. cbn [owned app quanta]. rewrite Z.add_0_r.
  replace (a + 8 * quanta c1 + 8 * (n1 + n)) with (a + 8 * quanta c1 + 8 * n1 + 8 * n) by lia.
  naive_solver.
Qed.

Lemma quanta_release c1 n c2 : quanta (release c1 n c2) = quanta (c1 ++ (false, n) :: c2).
Proof.
  unfold release. assert (quanta (c1 ++ (true, (higher n c2).1) :: (higher n c2).2)
                          = quanta (c1 ++ (false, n) :: c2)) as <-.
  { rewrite !quanta_app. cbn [quanta]. destruct c2 as [|[[] n2] c2]; cbn; lia. }
  generalize (higher n c2). intros [k d]. cbn [fst snd]. destruct (is_free (last c1)) eqn:Ef; [|by rewrite lower_other].
  destruct c1 as [|[f n1] c1 _] using rev_ind; [done|]. rewrite last_snoc in Ef. cbn in Ef. subst f.
  rewrite lower_snoc_free, <- (assoc (++)), !quanta_app. cbn [quanta app]. lia.
Qed.

Lemma owned_release c1 n c2 z :
  owned a (release c1 n c2) z ↔ owned a (c1 ++ (true, n) :: c2) z.
Proof.
  unfold release. rewrite owned_lower, !owned_app. cbn [owned].
  destruct c2 as [|[[] n2] c2]; cbn [higher fst snd owned]; [done| |done].
  replace (a + 8 * quanta c1 + 8 * (n + n2)) with (a + 8 * quanta c1 + 8 * n + 8 * n2) by lia.
  naive_solver.
Qed.

Lemma frees_length b cs : (length (frees b cs) <= length cs)%nat.
Proof.
  revert b. induction cs as [|[[] n] cs IH]; intros b; cbn [frees app length]; [done| |];
    specialize (IH (b + 8 * n)); lia.
Qed.

Lemma blocks_gap m f c1 n c2 :
  blocks m f (c1 ++ (false, n) :: c2) →
  let x := a + 8 * quanta c1 in gap (frees a c1) (frees (x + 8 * n) c2) x.
Proof.
  intros [Hs Hfit _ _ _ _] x. pose proof Hpl as [Hpb Hpp Hpa].
  pose proof (frees_sorted _ _ _ Hs) as Hso. rewrite frees_app in Hso.
  apply sized_app in Hs as [Hs1 (_ & Hn & Hs2)]. pose proof (quanta_nonneg _ _ _ Hs1).
  pose proof (quanta_nonneg _ _ _ Hs2). rewrite quanta_app in Hfit. cbn [quanta] in Hfit. fold x in Hs2.
  assert (∀ q, q ∈ frees a c1 → a <= q < x) as HL.
  { intros q Hq. pose proof (frees_range _ _ _ _ Hs1 Hq). lia. }
  assert (∀ q, q ∈ frees (x + 8 * n) c2 → x < q <= a + sz) as HR.
  { intros q Hq. pose proof (frees_range _ _ _ _ Hs2 Hq). lia. }
  split; [lia|done| | |].
  - intros q Hq. specialize (HL q Hq). lia.
  - intros q Hq. by apply HR.
  - destruct Hpa as [Hpa|Hpa]; [left|right]; intros q [->|[Hq|Hq]%elem_of_app]; try lia;
      first [specialize (HL q Hq); lia | specialize (HR q Hq); lia].
Qed.

Lemma free_ok k h c1 n c2 :
  let cs := c1 ++ (false, n) :: c2 in
  blocks (mem h) (freep h) cs → (length cs + 2 <= k)%nat →
  ∃ m' p, memmgr_free k (a + 8 * quanta c1 + 8) h = Ok tt (set_freep p (set_mem m' h)) ∧
    blocks m' p (release c1 n c2) ∧
    ∀ z, owned a (release c1 n c2) z → m' z = mem h z.
Proof.
  intros cs Hbl Hk. pose proof Hbl as [Hs Hfit Hring Hb Hco Hf]. pose proof Hpl as [Hpb Hpp Hpa].
  set (x := a + 8 * quanta c1). subst cs. rewrite frees_app in Hring, Hf. cbn [frees app] in Hring, Hf.
  fold x in Hring, Hf. rewrite <- (assoc (++)) in Hring. apply reach_app in Hring as (pr & HL & HR).
  pose proof (blocks_gap _ _ _ _ _ Hbl) as Hg. cbv zeta in Hg. fold x in Hg.
  set (L := frees a c1) in *. set (R := frees (x + 8 * n) c2) in *.
  assert (length L + length R + 2 <= k)%nat as Hk'.
  { pose proof (frees_length a c1). pose proof (frees_length (x + 8 * n) c2).
    subst L R. rewrite length_app in Hk. simpl in Hk. lia. }
  pose proof (search_ok (k - (length (L ++ R) + 2)) L R x pr (freep h) h Hg ltac:(lia) HL HR Hf) as Hsearch.
  replace (length (L ++ R) + 2 + (k - (length (L ++ R) + 2)))%nat with k in Hsearch
    by (rewrite length_app; lia).
  destruct (join_higher_ok _ _ _ _ _ _ Hbl HL HR) as [Hpd Hz1]. fold x in Hpd, Hz1.
  destruct (join_lower_ok _ _ _ _ _ Hpd) as [Hbl' Hz2]; [by apply coalesced_release|]. fold x in Hbl', Hz2.
  exists (join_lower x pr (join_higher x pr (mem h))), pr. split; [|split; [exact Hbl'|]].
  - apply sized_app in Hs as [Hs1 (_ & Hn & Hs2)]. pose proof (quanta_nonneg _ _ _ Hs1).
    pose proof (quanta_nonneg _ _ _ Hs2). rewrite quanta_app in Hfit. cbn [quanta] in Hfit.
    unfold memmgr_free. rewrite (proj2 (Z.eqb_neq _ _)) by lia. change sizeof_header with 8.
    rewrite u32_small by (unfold is_u; lia). replace (x + 8 - 8) with x by lia.
    unfold mbind, res_mbind at 1. unfold res_get at 1. unfold res_mbind. rewrite Hsearch. done.
  - intros z Hz%owned_lower. destruct Hpd as [Hs' _ _ _ _].
    rewrite Hz2, Hz1; [done| |].
    + apply (frees_owned _ _ _ _ _ Hs'); [|done]. rewrite frees_app. cbn [frees app]. set_solver.
    + destruct (reach_in _ _ _ _ HL) as [->|Hin].
      * pose proof (owned_range _ _ _ _ Hs' Hz).
        assert (quanta (c1 ++ (true, (higher n c2).1) :: (higher n c2).2) = quanta (c1 ++ (false, n) :: c2)) as E.
        { rewrite !quanta_app. cbn [quanta]. destruct c2 as [|[[] n2] c2]; cbn; lia. }
        rewrite E in *. lia.
      * apply (frees_owned _ _ _ _ _ Hs'); [|done]. rewrite frees_app. set_solver.
Qed.

(** ** Using a free block *)

(** The blocks after [nq] quanta of a free block of [n] are used. *)
Definition carve (c1 : list chunk) (n nq : Z) (c2 : list chunk) : list chunk :=
  if n =? nq then c1 ++ (false, nq) :: c2 else c1 ++ (true, n - nq) :: (false, nq) :: c2.

Lemma reach_next_in m b l q z : reach m b l q → z ∈ b :: l → z ≠ q → next m z ∈ l.
Proof.
  revert b. induction l as [|y l IH]; intros b; cbn [reach].
  - intros -> ->%list_elem_of_singleton. done.
  - intros [<- Hr] Hz Hzq. apply elem_of_cons in Hz as [->|Hz]; [left|]. right. by eapply IH.
Qed.

(** A node of the ring has one predecessor. *)
Lemma ring_pred m L p R pr z :
  NoDup (base :: L ++ p :: R) → reach m base L pr → reach m p (R ++ [base]) base →
  z ∈ base :: L ++ p :: R → next m z = p → z = pr.
Proof.
  intros Hnd HL HR Hz Hzp. apply NoDup_cons in Hnd as [Hnb Hnd].
  apply NoDup_app in Hnd as (_ & Hdis & [Hp _]%NoDup_cons).
  destruct (decide (z = pr)) as [|Hne]; [done|exfalso].
  assert (z ∈ base :: L ∨ z ∈ p :: R) as [Hin|Hin] by set_solver.
  - pose proof (reach_next_in _ _ _ _ _ HL Hin Hne) as Hn. rewrite Hzp in Hn.
    apply (Hdis p Hn). left.
  - assert (z ≠ base) as Hzb by (intros ->; set_solver).
    assert (z ∈ p :: R ++ [base]) as Hin2 by set_solver.
    pose proof (reach_next_in _ _ _ _ _ HR Hin2 Hzb) as Hn. rewrite Hzp in Hn. set_solver.
Qed.

Lemma coalesced_carve c1 n nq c2 :
  coalesced (c1 ++ (true, n) :: c2) → coalesced (carve c1 n nq c2).
Proof.
  intros (H1 & H2 & H3)%coalesced_app. cbn in H2. destruct H2 as [H2 H2'].
  unfold carve. destruct (n =? nq); apply coalesced_app; (split; [done|]).
  - split; [by split|]. unfold both_free. cbn. by rewrite andb_false_r.
  - split; [|exact H3]. split; [done|]. by split.
Qed.

Lemma quanta_carve c1 n nq c2 : quanta (carve c1 n nq c2) = quanta (c1 ++ (true, n) :: c2).
Proof.
  unfold carve. destruct (Z.eqb_spec n nq) as [->|]; rewrite !quanta_app; cbn [quanta]; lia.
Qed.

(** A free block at [p] of the chunks [cs], seen from the ring. *)
Record free_block (m : memory) (c1 : list chunk) (n : Z) (c2 : list chunk) : Prop := {
  fb_frees : frees a (c1 ++ (true, n) :: c2) =
    frees a c1 ++ (a + 8 * quanta c1) :: frees (a + 8 * quanta c1 + 8 * n) c2;
  fb_owned : ∀ z q, q ∈ base :: frees a (c1 ++ (true, n) :: c2) → owned a (c1 ++ (true, n) :: c2) z →
    z < q ∨ q + 8 <= z;
  fb_node : ∀ z, z ∈ base :: frees a (c1 ++ (true, n) :: c2) →
    z = a + 8 * quanta c1 ∨ apart z (a + 8 * quanta c1);
  fb_left : sized m a c1;
  fb_size : size m (a + 8 * quanta c1) = n;
  fb_pos : 1 <= n;
  fb_right : sized m (a + 8 * quanta c1 + 8 * n) c2;
  fb_ql : 0 <= quanta c1;
  fb_qr : 0 <= quanta c2;
  fb_fit : 8 * (quanta c1 + (n + quanta c2)) <= sz;
}.

Lemma free_block_ok m f c1 n c2 : blocks m f (c1 ++ (true, n) :: c2) → free_block m c1 n c2.
Proof.
  set (cs := c1 ++ (true, n) :: c2). set (p := a + 8 * quanta c1).
  intros [Hs Hfit _ _ _ _]. pose proof Hpl as [Hpb Hpp Hpa].
  assert (frees a cs = frees a c1 ++ p :: frees (p + 8 * n) c2) as Efr.
  { subst cs. by rewrite frees_app. }
  assert (p ∈ frees a cs) as Hpin by (rewrite Efr; set_solver).
  pose proof Hs as Hs'. apply sized_app in Hs' as [Hs1 (Hsp & Hn & Hs2)]. fold p in Hsp, Hs2.
  pose proof (quanta_nonneg _ _ _ Hs1). pose proof (quanta_nonneg _ _ _ Hs2).
  split; fold p cs; try done.
  - intros z q [->|Hq]%elem_of_cons Hz; [|exact (frees_owned m a cs q z Hs Hq Hz)].
    pose proof (owned_range _ _ _ _ Hs Hz). lia.
  - intros z [->|Hz]%elem_of_cons.
    + right. pose proof (frees_range _ _ _ _ Hs Hpin). unfold apart. lia.
    + apply (heads_apart m a cs); [done|by apply frees_heads..].
  - subst cs. rewrite quanta_app in Hfit. exact Hfit.
Qed.

(** A block of the size asked for leaves the ring. *)
Lemma take_whole m f c1 n c2 prevp (cs := c1 ++ (true, n) :: c2) (p := a + 8 * quanta c1)
    (m' := set_next prevp (next m p) m) :
  blocks m f cs → prevp ∈ base :: frees a cs → next m prevp = p →
  blocks m' prevp (c1 ++ (false, n) :: c2) ∧ ∀ z, owned a cs z → m' z = m z.
Proof.
  intros Hbl Hprev Hnext. pose proof Hbl as [Hs Hfit Hring Hb Hco _].
  destruct (free_block_ok _ _ _ _ _ Hbl) as [Efr Hown Hnode Hs1 Hsp Hn Hs2 ? ? Hfit'].
  fold p cs in Efr, Hown, Hnode, Hsp, Hs2. unfold m'.
  pose proof Hpl as [Hpb Hpp Hpa]. pose proof (ring_nodup _ _ Hs Hfit) as Hnd.
  split; [|intros z Hz; pose proof (Hown z prevp Hprev Hz); by headers].
  rewrite Efr in *. rewrite <- (assoc (++)) in Hring. cbn [app] in Hring.
  apply reach_app in Hring as (pr & HL & Hpr & HR).
  assert (prevp = pr) as -> by (by eapply ring_pred).
  assert (∀ z, z ∈ heads a cs → z = pr ∨ apart z pr) as Hheads.
  { intros z Hz. apply elem_of_cons in Hprev as [->|Hprev].
    - right. pose proof (heads_range _ _ _ _ Hs Hz). unfold apart. lia.
    - apply (heads_apart m a cs); [done|done|]. apply frees_heads. by rewrite Efr. }
  assert (sized (set_next pr (next m p) m) a cs) as Hsz.
  { apply (sized_frame m); [done|]. intros z Hz _ _. rewrite size_set_next; [done|by apply Hheads]. }
  assert (∀ z, z ∈ frees a c1 ++ p :: frees (p + 8 * n) c2 → z = pr ∨ apart z pr) as Hfr.
  { intros z Hz. apply Hheads, frees_heads. by rewrite Efr. }
  apply NoDup_cons in Hnd as [Hnb Hnd]. apply NoDup_app in Hnd as (Hnd1 & Hdis & [Hp2 Hnd2]%NoDup_cons).
  assert (frees a (c1 ++ (false, n) :: c2) = frees a c1 ++ frees (p + 8 * n) c2) as Efr'.
  { by rewrite frees_app. }
  split.
  + apply sized_app. apply sized_app in Hsz. exact Hsz.
  + rewrite quanta_app. cbn [quanta]. lia.
  + rewrite Efr', <- (assoc (++)). apply reach_app. exists pr. split.
    * apply (reach_frame m); [constructor; [set_solver|done]|done|].
      intros q [->|Hq]%elem_of_cons Hqp; apply next_set_next_apart.
      -- apply elem_of_cons in Hprev as [->|Hprev]; [done|].
         pose proof (frees_range m a cs pr Hs ltac:(by rewrite Efr)). unfold apart. lia.
      -- destruct (Hfr q) as [|]; [set_solver|done|done].
    * apply (relink m _ p); [done| |..].
      { apply NoDup_app. split; [done|]. split; [set_solver|apply NoDup_singleton]. }
      { rewrite next_set_next; [done|]. apply (link_range _ _ (frees (p + 8 * n) c2)); [done|].
        intros q Hq. apply (frees_u32 m a cs); try done; [lia..|]. rewrite Efr. set_solver. }
      intros q Hq. apply next_set_next_apart. destruct (Hfr q) as [->|]; [set_solver| |done].
      (* [pr] is not behind [p] *)
      exfalso. apply reach_in in HL as [->|HL]; [set_solver|]. apply (Hdis pr HL). set_solver.
  + rewrite size_set_next; [done|]. apply elem_of_cons in Hprev as [->|Hprev]; [by left|right].
    pose proof (frees_range m a cs pr Hs ltac:(by rewrite Efr)). unfold apart. lia.
  + pose proof (coalesced_carve c1 n n c2 Hco) as Hc. unfold carve in Hc. by rewrite Z.eqb_refl in Hc.
  + rewrite Efr'. apply reach_in in HL as [->|HL]; [by left|right; set_solver].
Qed.

(** The end of a larger block is cut off. *)
Lemma take_part m f c1 n c2 nq prevp (cs := c1 ++ (true, n) :: c2) (p := a + 8 * quanta c1)
    (q := p + 8 * (n - nq)) (m' := set_size q nq (set_size p (n - nq) m)) :
  blocks m f cs → 1 <= nq < n → prevp ∈ base :: frees a cs →
  blocks m' prevp (c1 ++ (true, n - nq) :: (false, nq) :: c2) ∧ ∀ z, owned a cs z → m' z = m z.
Proof.
  intros Hbl Hnq Hprev. pose proof Hbl as [Hs Hfit Hring Hb Hco _].
  destruct (free_block_ok _ _ _ _ _ Hbl) as [Efr Hown Hnode Hs1 Hsp Hn Hs2 ? ? Hfit'].
  fold p cs in Efr, Hown, Hnode, Hsp, Hs2. unfold m'. assert (n ≠ nq) as Hne by lia.
  pose proof Hpl as [Hpb Hpp Hpa]. pose proof (ring_nodup _ _ Hs Hfit) as Hnd.
  assert (p ∈ frees a cs) as Hpin by (rewrite Efr; set_solver).
  assert (∀ z, z ∈ base :: frees a cs → apart z q) as Hq.
  { intros z [->|Hz]%elem_of_cons; [unfold apart; lia|]. rewrite Efr in Hz.
    apply elem_of_app in Hz as [Hz|[->|Hz]%elem_of_cons].
    - pose proof (frees_range _ _ _ _ Hs1 Hz). unfold apart. lia.
    - unfold apart. lia.
    - pose proof (frees_range _ _ _ _ Hs2 Hz). unfold apart. lia. }
  split.
  2:{ intros z Hz. pose proof (Hown z p ltac:(by right) Hz).
      assert (z < q ∨ q + 8 <= z) as Hzq.
      { apply owned_app in Hz as [Hz|[[? _]|Hz]]; [|done|].
        - pose proof (owned_range _ _ _ _ Hs1 Hz). lia.
        - pose proof (owned_range _ _ _ _ Hs2 Hz). lia. }
      by headers. }
  assert (frees a (c1 ++ (true, n - nq) :: (false, nq) :: c2) = frees a cs) as Efr'.
  { rewrite Efr, frees_app. cbn [frees app]. fold p.
    by replace (p + 8 * (n - nq) + 8 * nq) with (p + 8 * n) by lia. }
  split.
  + apply sized_app. fold p. split; [|split; [|split; [lia|split; [|split; [lia|]]]]].
    * apply (sized_frame m); [done|]. intros z _ Hz1 Hz2. by headers.
    * by headers.
    * fold q. by headers.
    * fold q. replace (q + 8 * nq) with (p + 8 * n) by lia.
      apply (sized_frame m); [done|]. intros z _ Hz1 Hz2. by headers.
  + rewrite quanta_app. cbn [quanta]. lia.
  + rewrite Efr'. apply (relink m _ base); [done| | |].
    * apply NoDup_cons in Hnd as [Hnb Hnd]. apply NoDup_app.
      split; [done|]. split; [set_solver|apply NoDup_singleton].
    * pose proof (Hq base ltac:(left)). pose proof (Hnode base ltac:(left)) as [->|]; by headers.
    * intros z Hz. pose proof (Hq z ltac:(by right)). pose proof (Hnode z ltac:(by right)) as [->|]; by headers.
  + pose proof (Hq base ltac:(left)). pose proof (frees_range _ _ _ _ Hs Hpin).
    assert (apart base p) by (unfold apart; lia). by headers.
  + pose proof (coalesced_carve c1 n nq c2 Hco) as Hc. unfold carve in Hc.
    by rewrite (proj2 (Z.eqb_neq _ _)) in Hc.
  + rewrite Efr'. by apply elem_of_cons in Hprev.
Qed.

Lemma take_block_ok m f c1 n c2 nq prevp :
  let cs := c1 ++ (true, n) :: c2 in let p := a + 8 * quanta c1 in
  blocks m f cs → 1 <= nq <= n → prevp ∈ base :: frees a cs → next m prevp = p →
  ∃ m', take_block nq prevp p m = (m', p + 8 * (n - nq)) ∧
    blocks m' prevp (carve c1 n nq c2) ∧ ∀ z, owned a cs z → m' z = m z.
Proof.
  intros cs p Hbl Hnq Hprev Hnext.
  destruct (free_block_ok _ _ _ _ _ Hbl) as [_ _ _ _ Hsp Hn _ ? ? Hfit'].
  pose proof Hpl as [Hpb Hpp Hpa]. fold p in Hsp.
  unfold take_block, carve. rewrite Hsp. destruct (Z.eqb_spec n nq) as [<-|Hne].
  - destruct (take_whole m f c1 n c2 prevp Hbl Hprev Hnext) as [Hb Ho].
    exists (set_next prevp (next m p) m). by replace (p + 8 * (n - n)) with p by lia.
  - rewrite u32_small by (unfold is_u; lia). rewrite size_set_size by (unfold is_u; lia).
    rewrite advance_small by lia.
    destruct (take_part m f c1 n c2 nq prevp Hbl ltac:(lia) Hprev) as [Hb Ho]. by eexists.
Qed.

(** ** The search for a block that fits *)

Lemma alloc_turn k fuel nq prevp p h :
  p ≠ 0 →
  alloc_loop (S k) fuel nq prevp p h
  = if decide (nq <= size (mem h) p) then
      let '(m, p) := take_block nq prevp p (mem h) in
      Ok (advance p 1) (set_freep prevp (set_mem m h))
    else if decide (p = freep h) then
      (p ← get_mem_from_pool fuel nq;
       if p =? 0 then mret 0
       else m ← res_get mem; alloc_loop k fuel nq p (next m p)) h
    else alloc_loop k fuel nq p (next (mem h) p) h.
Proof.
  intros Hp. cbn [alloc_loop]. rewrite (proj2 (Z.eqb_neq _ _)) by done.
  unfold mbind at 1, res_mbind at 1. unfold res_get at 1. cbv beta. cbn [id].
  destruct (decide (nq <= size (mem h) p)) as [H|H].
  - rewrite (proj2 (Z.leb_le _ _)) by done. by destruct (take_block nq prevp p (mem h)).
  - rewrite (proj2 (Z.leb_gt _ _)) by lia. destruct (decide (p = freep h)) as [->|Hf].
    + rewrite Z.eqb_refl. done.
    + by rewrite (proj2 (Z.eqb_neq _ _)).
Qed.

Lemma alloc_walk k fuel nq h l prevp t :
  reach (mem h) prevp l t →
  (∀ y, y ∈ l → y ≠ 0 ∧ size (mem h) y < nq ∧ y ≠ freep h) →
  alloc_loop (length l + k) fuel nq prevp (next (mem h) prevp) h
  = alloc_loop k fuel nq t (next (mem h) t) h.
Proof.
  revert prevp. induction l as [|y l IH]; intros prevp; [by intros ->|]. intros [Hn Hr] Hl.
  cbn [length Nat.add]. destruct (Hl y ltac:(left)) as (Hy0 & Hys & Hyf).
  rewrite Hn, alloc_turn by done. rewrite decide_False by lia. rewrite decide_False by done.
  apply IH; [done|]. intros z Hz. apply Hl. by right.
Qed.

(** The ring seen from where the search starts. *)
Lemma ring_from m f fl :
  reach m base (fl ++ [base]) base → f = base ∨ f ∈ fl →
  ∃ l, reach m f (l ++ [f]) f ∧ l ++ [f] ≡ₚ fl ++ [base].
Proof.
  intros Hr [->|Hf]; [by exists fl|]. apply list_elem_of_split in Hf as (l1 & l2 & ->).
  rewrite <- (assoc (++)) in Hr. cbn [app] in Hr. apply reach_app in Hr as (p & H1 & Hp & H2).
  exists (l2 ++ base :: l1). split.
  - change (base :: l1) with ([base] ++ l1). rewrite !(assoc (++)), <- (assoc (++)).
    apply reach_app. exists base. split; [done|]. apply reach_app. by exists p.
  - transitivity (f :: base :: l1 ++ l2).
    + rewrite (Permutation_app_comm _ [f]). cbn [app]. constructor. rewrite <- Permutation_middle.
      constructor. apply Permutation_app_comm.
    + rewrite (Permutation_app_comm _ [base]), <- Permutation_middle. cbn [app]. apply perm_swap.
Qed.

Lemma split_first {A} (P : A → Prop) `{∀ x, Decision (P x)} l :
  Exists P l → ∃ l1 y l2, l = l1 ++ y :: l2 ∧ P y ∧ Forall (λ x, ¬ P x) l1.
Proof.
  induction l as [|x l IH]; [by intros ?%Exists_nil|]. intros Hex.
  destruct (decide (P x)) as [Hx|Hx]; [by exists [], x, l|].
  apply Exists_cons in Hex as [|Hex]; [done|]. destruct (IH Hex) as (l1 & y & l2 & -> & Hy & Hl).
  exists (x :: l1), y, l2. split; [done|]. split; [done|]. by constructor.
Qed.

Definition fits (nq : Z) (cs : list chunk) : Prop := Exists (λ c, c.1 = true ∧ nq <= c.2) cs.

Lemma fits_free nq m b cs : sized m b cs → fits nq cs ↔ Exists (λ p, nq <= size m p) (frees b cs).
Proof.
  revert b. induction cs as [|[f n] cs IH]; intros b; unfold fits in *.
  { intros _. by rewrite !Exists_nil. }
  cbn [sized frees]. intros (Hs & _ & H). rewrite Exists_cons, Exists_app, (IH _ H).
  destruct f; cbn [fst snd].
  - rewrite Exists_cons, Exists_nil, Hs. naive_solver.
  - rewrite Exists_nil. naive_solver.
Qed.

Lemma alloc_found k fuel nq h cs :
  blocks (mem h) (freep h) cs → 1 <= nq → fits nq cs → (length cs + 1 <= k)%nat →
  ∃ c1 n c2 m' f', cs = c1 ++ (true, n) :: c2 ∧ nq <= n ∧
    alloc_loop k fuel nq (freep h) (next (mem h) (freep h)) h
    = Ok (a + 8 * (quanta c1 + (n - nq)) + 8) (set_freep f' (set_mem m' h)) ∧
    blocks m' f' (carve c1 n nq c2) ∧ ∀ z, owned a cs z → m' z = mem h z.
Proof.
  intros Hbl Hnq Hfits Hk. pose proof Hbl as [Hs Hfit Hring Hb Hco Hf]. pose proof Hpl as [Hpb Hpp Hpa].
  destruct (ring_from _ _ _ Hring Hf) as (l & Hl & Hperm).
  pose proof (ring_nodup _ _ Hs Hfit) as Hnd.
  assert (NoDup (l ++ [freep h])) as Hndl.
  { rewrite Hperm. rewrite Permutation_app_comm. done. }
  apply (fits_free nq (mem h) a) in Hfits; [|done].
  assert (Exists (λ p, nq <= size (mem h) p) (l ++ [freep h])) as Hex.
  { rewrite Hperm, Exists_app. by left. }
  apply split_first in Hex as (l1 & p & l2 & El & Hp & Hsmall); [|apply _].
  cbv beta in Hp.
  assert (∀ y, y ∈ l1 ∨ y = p → y ∈ base :: frees a cs) as Hin.
  { intros y Hy. assert (y ∈ frees a cs ++ [base]) as Hy'; [|set_solver].
    rewrite <- Hperm, El. set_solver. }
  assert (∀ y, y ∈ base :: frees a cs → 0 < y < 2 ^ 32) as Hpos.
  { intros y [->|Hy]%elem_of_cons; [lia|]. pose proof (frees_range _ _ _ _ Hs Hy). lia. }
  rewrite El in Hl. apply reach_app in Hl as (t & Hl1 & Htp & _).
  assert (p ∈ frees a cs) as Hpf.
  { destruct (proj1 (elem_of_cons _ _ _) (Hin p (or_intror eq_refl))) as [E|]; [rewrite E, Hb in Hp; lia|done]. }
  assert (t ∈ base :: frees a cs) as Ht.
  { destruct (reach_in _ _ _ _ Hl1) as [->|]; [by apply elem_of_cons|by apply Hin; left]. }
  destruct (free_size _ _ _ _ Hs Hpf) as (c1 & n & c2 & -> & Hpa' & Hsz & Hn). revert Htp. subst p. intros Htp.
  rewrite Hsz in Hp.
  destruct (take_block_ok _ _ _ _ _ nq t Hbl) as (m' & Etake & Hbl' & Hm'); [lia|done|done|].
  exists c1, n, c2, m', t. split; [done|]. split; [done|]. split; [|done].
  assert (length l1 <= length (frees a (c1 ++ (true, n) :: c2)))%nat as Hlen.
  { apply Permutation_length in Hperm. rewrite El in Hperm. rewrite !length_app in Hperm.
    simpl in Hperm. lia. }
  pose proof (frees_length a (c1 ++ (true, n) :: c2)).
  replace k with (length l1 + S (k - length l1 - 1))%nat by lia.
  rewrite (alloc_walk _ _ _ _ l1 _ t); [|done|].
  - rewrite Htp, alloc_turn by (pose proof (frees_range _ _ _ _ Hs Hpf); lia).
    rewrite decide_True by lia. rewrite Etake. f_equal. rewrite advance_small; [lia|].
    pose proof (frees_range _ _ _ _ Hs Hpf). rewrite quanta_app in Hfit. cbn [quanta] in Hfit.
    apply sized_app in Hs as [Hs1 (_ & _ & Hs2)]. pose proof (quanta_nonneg _ _ _ Hs2). lia.
  - intros y Hy. rewrite Forall_forall in Hsmall. specialize (Hsmall y Hy).
    pose proof (Hpos y ltac:(apply Hin; by left)). split; [lia|]. split; [lia|].
    intros ->. rewrite El in Hndl. apply NoDup_app in Hndl as (_ & Hdis & _). apply (Hdis (freep h) Hy).
    apply last_Some_elem_of. rewrite <- (last_app_cons l1). rewrite <- El. apply last_snoc.
Qed.
End Blocks.
