(* ===== verification/HeapSpec.v ===== *)
(** * Memory manager: allocation, reallocation and freeing

    The operations of [Heap] as refinements of operations on the list of blocks
    ([HeapFacts]), and what a program that uses them may rely on. *)

From S2P Require Import Prelude Heap HeapFacts.

Section Spec.
Context (base a sz : Z) (Hpl : place base a sz).

(** The manager's state; nothing is allocated before the first call. *)
Record wf (h : heap) (cs : list chunk) : Prop := {
  wf_pool : pool h = a;
  wf_size : pool_size h = sz;
  wf_pos : pool_free_pos h = 8 * quanta cs;
  wf_blocks : if decide (freep h = 0) then cs = [] else blocks base a sz (mem h) (freep h) cs;
}.

(** The pool's part in use grown by a free block. *)
Definition grown (cs : list chunk) (n : Z) : list chunk := release cs n [].

(** The size the manager asks of the pool. *)
Definition pool_request (nq : Z) : Z := Z.max MIN_POOL_ALLOC_QUANTAS nq.

Lemma freep_nonzero m f cs : blocks base a sz m f cs → f ≠ 0.
Proof.
  intros [Hs _ _ _ _ Hf]. destruct Hpl as [? ? _]. destruct Hf as [->|Hf]; [lia|].
  pose proof (frees_range _ _ _ _ Hs Hf). lia.
Qed.

Lemma blocks_append m f cs n :
  blocks base a sz m f cs → 1 <= n → 8 * (quanta cs + n) <= sz → n < 2 ^ 32 →
  let p := a + 8 * quanta cs in
  blocks base a sz (set_size p n m) f (cs ++ [(false, n)]) ∧
  ∀ z, owned a cs z → set_size p n m z = m z.
Proof.
  intros Hbl Hn Hfit Hn32 p. pose proof Hbl as [Hs _ Hring Hb Hco Hf]. pose proof Hpl as [Hpb Hpp Hpa].
  pose proof (quanta_nonneg _ _ _ Hs).
  assert (∀ q, q ∈ base :: frees a cs → apart q p) as Hq.
  { intros q [->|Hq]%elem_of_cons; [unfold apart; lia|].
    pose proof (frees_range _ _ _ _ Hs Hq). unfold apart. lia. }
  assert (frees a (cs ++ [(false, n)]) = frees a cs) as Efr.
  { rewrite frees_app. cbn. by rewrite app_nil_r. }
  split; [|intros z Hz; pose proof (owned_range _ _ _ _ Hs Hz); by headers]. split.
  - apply sized_app. fold p. split; [|split; [|done]].
    + apply (sized_frame m); [done|]. intros q _ H1 H2. by headers.
    + by headers.
  - rewrite quanta_app. cbn. lia.
  - rewrite Efr. apply (relink base a sz Hpl m _ base); [done|..].
    + pose proof (ring_nodup base a sz Hpl m cs Hs ltac:(lia)) as [? ?]%NoDup_cons.
      apply NoDup_app. split; [done|]. split; [set_solver|apply NoDup_singleton].
    + pose proof (Hq base ltac:(left)). by headers.
    + intros q Hin. pose proof (Hq q ltac:(by right)). by headers.
  - pose proof (Hq base ltac:(left)). by headers.
  - apply coalesced_app. split; [done|]. split; [done|]. unfold both_free. cbn. apply andb_false_r.
  - by rewrite Efr.
Qed.

Lemma owned_grown cs n z : owned a (grown cs n) z ↔ owned a cs z.
Proof. unfold grown. rewrite owned_release, owned_app. cbn [owned]. naive_solver. Qed.

Lemma quanta_grown cs n : quanta (grown cs n) = quanta cs + n.
Proof. unfold grown. rewrite quanta_release, quanta_app. cbn. lia. Qed.

Lemma length_grown cs n : (length (grown cs n) <= S (length cs))%nat.
Proof.
  unfold grown, release. cbn [higher fst snd]. unfold lower.
  destruct cs as [|c cs _] using rev_ind; [done|]. rewrite last_snoc.
  destruct c as [[] n1]; rewrite ?removelast_last, !length_app; simpl; lia.
Qed.

Lemma fits_grown cs n nq : 1 <= nq <= n → Forall (λ c, 1 <= c.2) cs → fits nq (grown cs n).
Proof.
  intros Hn Hcs. unfold grown, release, fits. cbn [higher fst snd]. unfold lower.
  destruct cs as [|c cs _] using rev_ind; [constructor; cbn; split; [done|lia]|]. rewrite last_snoc.
  apply Forall_app in Hcs as [_ Hc%Forall_inv].
  destruct c as [[] n1]; cbn [snd] in Hc; rewrite ?removelast_last, !Exists_app; right;
    apply Exists_cons_hd; cbn; lia.
Qed.

Lemma sized_pos m b cs : sized m b cs → Forall (λ c, 1 <= c.2) cs.
Proof.
  revert b. induction cs as [|[f n] cs IH]; intros b; [constructor|]. intros (_ & Hn & H).
  constructor; [done|by eapply IH].
Qed.

Lemma get_mem_ok k nq h cs :
  blocks base a sz (mem h) (freep h) cs → pool h = a → pool_size h = sz →
  pool_free_pos h = 8 * quanta cs → 1 <= nq < 2 ^ 28 + 2 ^ 27 → (length cs + 3 <= k)%nat →
  let n := pool_request nq in
  if decide (8 * (quanta cs + n) <= sz) then
    ∃ m' p, get_mem_from_pool k nq h
            = Ok p (set_pool_free_pos (8 * (quanta cs + n)) (set_freep p (set_mem m' h))) ∧
      blocks base a sz m' p (grown cs n) ∧ ∀ z, owned a cs z → m' z = mem h z
  else get_mem_from_pool k nq h = Ok 0 h.
Proof.
  intros Hbl Hpool Hsize Hpos Hnq Hk. cbv zeta.
  pose proof Hbl as [Hs Hfit _ _ _ _]. pose proof Hpl as [Hpb Hpp Hpa]. pose proof (quanta_nonneg _ _ _ Hs).
  assert ((if nq <? MIN_POOL_ALLOC_QUANTAS then MIN_POOL_ALLOC_QUANTAS else nq) = pool_request nq) as En.
  { unfold pool_request, MIN_POOL_ALLOC_QUANTAS. destruct (Z.ltb_spec nq 128); lia. }
  assert (1 <= pool_request nq < 2 ^ 28 + 2 ^ 27) as Hn by (unfold pool_request, MIN_POOL_ALLOC_QUANTAS; lia).
  assert (nq <= pool_request nq) as Hnn by (unfold pool_request; lia).
  unfold get_mem_from_pool. rewrite En. clear En. set (n := pool_request nq) in *. cbv zeta.
  change sizeof_header with 8. rewrite (u32_small (n * 8)) by (unfold is_u; lia).
  rewrite (bind_ok _ _ _ h h) by done.
  rewrite Hpos, Hsize, Hpool, (u32_small (8 * quanta cs + n * 8)) by (unfold is_u; lia).
  rewrite (u32_small (a + 8 * quanta cs)) by (unfold is_u; lia).
  destruct (decide (8 * (quanta cs + n) <= sz)) as [Hin|Hout].
  2:{ by rewrite (proj2 (Z.leb_gt _ _)) by lia. }
  rewrite (proj2 (Z.leb_le _ _)) by lia. rewrite advance_small by lia.
  destruct (blocks_append _ _ _ n Hbl) as [Hbl1 Hz1]; [lia..|].
  set (p := a + 8 * quanta cs) in *. set (h1 := set_mem (set_size p n (mem h)) h).
  destruct (free_ok base a sz Hpl k h1 cs n []) as (m' & f' & Ef & Hbl2 & Hz2).
  { exact Hbl1. } { rewrite length_app. simpl. lia. }
  fold p in Ef. exists m', f'. split; [|split; [exact Hbl2|]].
  - rewrite (bind_ok _ _ _ tt h1) by done. replace (p + 8 * 1) with (p + 8) by lia.
    rewrite (bind_ok _ _ _ _ _ Ef). rewrite (bind_ok _ _ _ tt (set_pool_free_pos (8 * (quanta cs + n))
      (set_freep f' (set_mem m' h)))); [done|]. unfold res_upd.
    change (pool_free_pos (set_freep f' (set_mem m' h1))) with (pool_free_pos h).
    rewrite Hpos, u32_small by (unfold is_u; lia). by replace (8 * quanta cs + n * 8) with (8 * (quanta cs + n)) by lia.
  - intros z Hz. rewrite Hz2 by by apply owned_grown. by apply Hz1.
Qed.

(** ** Allocation *)

(** What [memmgr_alloc] does to the list of blocks: [None] when it fails. *)
Inductive allocated (nq : Z) (cs : list chunk) : option Z → list chunk → Prop :=
| alloc_fails :
    ¬ fits nq cs → sz < 8 * (quanta cs + pool_request nq) → allocated nq cs None cs
| alloc_in_place c1 n c2 :
    cs = c1 ++ (true, n) :: c2 → nq <= n →
    allocated nq cs (Some (a + 8 * (quanta c1 + (n - nq)) + 8)) (carve c1 n nq c2)
| alloc_grows c1 n c2 :
    ¬ fits nq cs → 8 * (quanta cs + pool_request nq) <= sz →
    grown cs (pool_request nq) = c1 ++ (true, n) :: c2 → nq <= n →
    allocated nq cs (Some (a + 8 * (quanta c1 + (n - nq)) + 8)) (carve c1 n nq c2).

(** When no block is large enough the search goes round the ring and asks the pool. *)
Lemma once_round k fuel nq h cs :
  blocks base a sz (mem h) (freep h) cs → 1 <= nq → ¬ fits nq cs → (length cs + 1 <= k)%nat →
  ∃ k', (k <= k' + length cs + 1)%nat ∧
    alloc_loop k fuel nq (freep h) (next (mem h) (freep h)) h
    = (p ← get_mem_from_pool fuel nq;
       if p =? 0 then mret 0 else m ← res_get mem; alloc_loop k' fuel nq p (next m p)) h.
Proof.
  intros Hbl Hnq Hfits Hk. pose proof (freep_nonzero _ _ _ Hbl) as Hf0.
  pose proof Hbl as [Hs Hfit Hring Hb _ Hf].
  destruct (ring_from base _ _ _ Hring Hf) as (l & Hl & Hperm).
  pose proof (ring_nodup base a sz Hpl _ _ Hs Hfit) as Hnd.
  apply reach_app in Hl as (t & Hl & Htf & _).
  assert (∀ y, y ∈ l ++ [freep h] → y ≠ 0 ∧ size (mem h) y < nq) as Hsmall.
  { intros y Hy. rewrite Hperm in Hy. apply elem_of_app in Hy as [Hy| ->%list_elem_of_singleton].
    - pose proof (frees_range _ _ _ _ Hs Hy). destruct Hpl as [? ? _]. split; [lia|].
      destruct (decide (nq <= size (mem h) y)); [|lia]. destruct Hfits.
      apply (fits_free nq (mem h) a); [done|]. apply Exists_exists. by exists y.
    - destruct Hpl as [? _ _]. rewrite Hb. lia. }
  assert (NoDup (l ++ [freep h])) as Hndl by (rewrite Hperm, Permutation_app_comm; exact Hnd).
  assert (length l <= length cs)%nat as Hlen.
  { apply Permutation_length in Hperm. rewrite !length_app in Hperm.
    pose proof (frees_length a cs). simpl in Hperm. lia. }
  exists (k - length l - 1)%nat. split; [lia|].
  replace k with (length l + S (k - length l - 1))%nat at 1 by lia.
  rewrite (alloc_walk _ _ _ _ l _ t); [|done|].
  2:{ intros y Hy. destruct (Hsmall y ltac:(set_solver)) as [? ?]. split; [done|]. split; [done|].
      intros ->. apply NoDup_app in Hndl as (_ & Hdis & _). apply (Hdis _ Hy). set_solver. }
  destruct (Hsmall (freep h) ltac:(set_solver)) as [_ Hsm].
  by rewrite Htf, alloc_turn, decide_False, decide_True by (done || lia).
Qed.

Lemma alloc_loop_ok k fuel nq h cs :
  blocks base a sz (mem h) (freep h) cs → pool h = a → pool_size h = sz →
  pool_free_pos h = 8 * quanta cs → 1 <= nq < 2 ^ 28 + 2 ^ 27 →
  (2 * length cs + 4 <= k)%nat → (length cs + 3 <= fuel)%nat →
  ∃ r cs' h', alloc_loop k fuel nq (freep h) (next (mem h) (freep h)) h = Ok (default 0 r) h' ∧
    allocated nq cs r cs' ∧ wf h' cs' ∧ ∀ z, owned a cs z → mem h' z = mem h z.
Proof.
  intros Hbl Hpool Hsize Hpos Hnq Hk Hfuel. pose proof (freep_nonzero _ _ _ Hbl) as Hf0.
  assert (∀ (h0 h1 : heap) m f cs', pool h0 = a → pool_size h0 = sz → pool_free_pos h0 = 8 * quanta cs' →
    blocks base a sz m f cs' → wf (set_freep f (set_mem m h0)) cs') as Hwf.
  { intros h0 _ m f cs' ? ? ? Hb. pose proof (freep_nonzero _ _ _ Hb).
    split; try done. cbn [freep set_freep]. by rewrite decide_False. }
  destruct (decide (Exists (λ c : chunk, c.1 = true ∧ nq <= c.2) cs)) as [Hfits|Hfits].
  { destruct (alloc_found base a sz Hpl k fuel nq h cs Hbl ltac:(lia) Hfits ltac:(lia))
      as (c1 & n & c2 & m' & f' & Ecs & Hn & E & Hbl' & Hz).
    eexists (Some _), (carve c1 n nq c2), _. split; [exact E|]. split; [by apply alloc_in_place|].
    split; [|exact Hz]. apply Hwf; try done. rewrite quanta_carve, <- Ecs. done. }
  destruct (once_round k fuel nq h cs Hbl ltac:(lia) Hfits ltac:(lia)) as (k' & Hk' & ->).
  unfold mbind, res_mbind, res_get.
  pose proof (get_mem_ok fuel nq h cs Hbl Hpool Hsize Hpos Hnq Hfuel) as Hget. cbv zeta in Hget.
  set (n := pool_request nq) in *. destruct (decide (8 * (quanta cs + n) <= sz)) as [Hroom|Hfull].
  2:{ rewrite Hget. exists None, cs, h. split; [done|]. split; [apply alloc_fails; [done|fold n; lia]|].
      split; [|done]. split; try done. by rewrite decide_False. }
  destruct Hget as (m' & p & -> & Hbl' & Hz).
  pose proof (freep_nonzero _ _ _ Hbl') as Hp0. rewrite (proj2 (Z.eqb_neq _ _)) by done.
  set (h1 := set_pool_free_pos _ _).
  pose proof (length_grown cs n) as Hlg.
  destruct (alloc_found base a sz Hpl k' fuel nq h1 (grown cs n) Hbl' ltac:(lia))
    as (c1 & N & c2 & m2 & f2 & Ecs & HN & E & Hbl2 & Hz2).
  { apply fits_grown; [subst n; unfold pool_request; lia|destruct Hbl; by eapply sized_pos]. }
  { lia. }
  eexists (Some _), (carve c1 N nq c2), _. split; [exact E|]. split; [by apply alloc_grows|].
  split.
  - apply Hwf; try done. rewrite quanta_carve, <- Ecs, quanta_grown. done.
  - intros z Ho. cbn [mem set_freep set_mem]. rewrite Hz2 by by apply owned_grown. by apply Hz.
Qed.

Lemma quantas_ok nbytes :
  0 < nbytes <= 2 ^ 31 → 1 <= quantas nbytes < 2 ^ 28 + 2 ^ 27 ∧ nbytes <= 8 * (quantas nbytes - 1).
Proof.
  intros Hn. unfold quantas, sizeof_header. rewrite (u32_small (nbytes + 8 - 1)) by (unfold is_u; lia).
  pose proof (Z.div_mod (nbytes + 8 - 1) 8 ltac:(lia)). pose proof (Z.mod_pos_bound (nbytes + 8 - 1) 8 ltac:(lia)).
  rewrite u32_small by (unfold is_u; lia). lia.
Qed.

(** The ring of a manager without blocks. *)
Lemma blocks_empty m : blocks base a sz (set_size base 0 (set_next base base m)) base [].
Proof.
  destruct Hpl as [? ? _]. split; try done; [cbn; lia| |by headers|by left].
  cbn. split; [|done]. rewrite next_set_size_same. apply next_set_next. unfold is_u. lia.
Qed.

Lemma memmgr_alloc_ok k fuel nbytes h cs :
  wf h cs → 0 < nbytes <= 2 ^ 31 →
  (2 * length cs + 4 <= k)%nat → (length cs + 3 <= fuel)%nat →
  ∃ r cs' h', memmgr_alloc base k fuel nbytes h = Ok (default 0 r) h' ∧
    allocated (quantas nbytes) cs r cs' ∧ wf h' cs' ∧ ∀ z, owned a cs z → mem h' z = mem h z.
Proof.
  intros [Hpool Hsize Hpos Hbl] Hn Hk Hfuel. destruct (quantas_ok nbytes Hn) as [Hq _].
  unfold memmgr_alloc. rewrite (proj2 (Z.eqb_neq _ _)) by lia.
  rewrite (bind_ok _ _ _ (freep h) h) by done.
  destruct (decide (freep h = 0)) as [Hf|Hf].
  - subst cs. rewrite Hf, Z.eqb_refl.
    set (m0 := set_size base 0 (set_next base base (mem h))).
    set (h0 := set_mem m0 (set_freep base h)).
    rewrite (bind_ok _ _ _ base h0) by done. rewrite (bind_ok _ _ _ m0 h0) by done.
    destruct (alloc_loop_ok k fuel (quantas nbytes) h0 []) as (r & cs' & h' & E & Ha & Hw & _);
      try done; [apply blocks_empty|].
    exists r, cs', h'. done.
  - rewrite (proj2 (Z.eqb_neq _ _)) by done.
    rewrite (bind_ok _ _ _ (freep h) h) by done. rewrite (bind_ok _ _ _ (mem h) h) by done.
    by apply alloc_loop_ok.
Qed.

Lemma memmgr_free_ok k h x n cs :
  wf h cs → used_at a cs x n → (length cs + 2 <= k)%nat →
  ∃ c1 c2 h', cs = c1 ++ (false, n) :: c2 ∧ x = a + 8 * quanta c1 ∧
    memmgr_free k (x + 8) h = Ok tt h' ∧ wf h' (release c1 n c2) ∧
    ∀ z, owned a (release c1 n c2) z → mem h' z = mem h z.
Proof.
  intros [Hpool Hsize Hpos Hbl] Hu Hk. destruct (used_at_split _ _ _ _ Hu) as (c1 & c2 & -> & ->).
  destruct (decide (freep h = 0)) as [|Hf]; [by destruct c1|].
  destruct (free_ok base a sz Hpl k h c1 n c2 Hbl Hk) as (m' & p & E & Hbl' & Hz).
  exists c1, c2, (set_freep p (set_mem m' h)). do 3 (split; [done|]). split; [|done].
  split; try done.
  - cbn [pool_free_pos set_freep set_mem]. rewrite quanta_release. done.
  - cbn [freep set_freep]. rewrite decide_False by by eapply freep_nonzero. done.
Qed.

(** ** What happens to the blocks in use *)

Lemma owned_carve c1 n nq c2 z :
  1 <= nq <= n → owned a (c1 ++ (true, n) :: c2) z → owned a (carve c1 n nq c2) z.
Proof.
  intros Hn. unfold carve. destruct (n =? nq) eqn:E; rewrite !owned_app; cbn [owned].
  - apply Z.eqb_eq in E as ->. naive_solver.
  - replace (a + 8 * quanta c1 + 8 * (n - nq) + 8 * nq) with (a + 8 * quanta c1 + 8 * n) by lia.
    naive_solver.
Qed.

Lemma used_at_carve c1 n nq c2 x k :
  1 <= nq <= n → used_at a (c1 ++ (true, n) :: c2) x k → used_at a (carve c1 n nq c2) x k.
Proof.
  intros Hn. unfold carve. destruct (n =? nq) eqn:E; rewrite !used_at_app; cbn [used_at].
  - apply Z.eqb_eq in E as ->. naive_solver.
  - replace (a + 8 * quanta c1 + 8 * (n - nq) + 8 * nq) with (a + 8 * quanta c1 + 8 * n) by lia.
    naive_solver.
Qed.

Lemma used_at_grown cs n x k : used_at a cs x k → used_at a (grown cs n) x k.
Proof.
  unfold grown, release. cbn [higher fst snd]. unfold lower.
  destruct cs as [|c cs _] using rev_ind; [done|]. rewrite last_snoc.
  destruct c as [[] n1]; rewrite ?removelast_last, !used_at_app; cbn [used_at]; naive_solver.
Qed.

(** The new block is the carved one. *)
Lemma used_at_new c1 n nq c2 :
  used_at a (carve c1 n nq c2) (a + 8 * (quanta c1 + (n - nq))) nq.
Proof.
  unfold carve. destruct (Z.eqb_spec n nq) as [->|]; rewrite used_at_app; right; cbn [used_at].
  - left. split; [done|]. split; [lia|done].
  - right. left. split; [done|]. split; [lia|done].
Qed.

Lemma carved_not_owned m c1 n nq c2 z :
  sized m a (carve c1 n nq c2) → 1 <= nq <= n →
  a + 8 * quanta c1 <= z < a + 8 * quanta c1 + 8 * n → ¬ owned a (c1 ++ (true, n) :: c2) z.
Proof.
  intros Hs Hn Hz.
  assert (sized m a c1 ∧ sized m (a + 8 * quanta c1 + 8 * n) c2) as [Hs1 Hs2].
  { unfold carve in Hs. destruct (Z.eqb_spec n nq) as [->|]; apply sized_app in Hs as [H1 H2].
    - by destruct H2 as (_ & _ & H2).
    - destruct H2 as (_ & _ & _ & _ & H2). split; [done|].
      by replace (a + 8 * quanta c1 + 8 * n)
        with (a + 8 * quanta c1 + 8 * (n - nq) + 8 * nq) by lia. }
  intros [Ho|[[? _]|Ho]]%owned_app; [|done|].
  - pose proof (owned_range _ _ _ _ Hs1 Ho). lia.
  - pose proof (owned_range _ _ _ _ Hs2 Ho). lia.
Qed.

(** What an allocation means for the blocks: those in use stay, and the new
    block was not in use. *)
Lemma allocated_facts nq cs r cs' h :
  allocated nq cs r cs' → 1 <= nq → wf h cs' → cs' ≠ [] →
  (∀ z, owned a cs z → owned a cs' z) ∧ (∀ x k, used_at a cs x k → used_at a cs' x k) ∧
  match r with
  | Some p => used_at a cs' (p - 8) nq ∧ ∀ z, p <= z < p + 8 * (nq - 1) → ¬ owned a cs z
  | None => cs' = cs
  end.
Proof.
  intros Ha Hnq [_ _ _ Hbl] Hne. destruct (decide (freep h = 0)) as [|Hf]; [done|]. destruct Hbl as [Hs _ _ _ _ _].
  destruct Ha as [H1 H2|c1 n c2 -> Hn|c1 n c2 H1 H2 Eg Hn].
  - done.
  - split; [intros z; apply owned_carve; lia|]. split; [intros x k; apply used_at_carve; lia|].
    split; [|intros z Hz; apply (carved_not_owned _ _ _ _ _ _ Hs); lia].
    replace (a + 8 * (quanta c1 + (n - nq)) + 8 - 8) with (a + 8 * (quanta c1 + (n - nq))) by lia.
    apply used_at_new.
  - split; [|split; [|split]].
    + intros z Hz. apply owned_carve; [lia|]. rewrite <- Eg. by apply owned_grown.
    + intros x k Hu. apply used_at_carve; [lia|]. rewrite <- Eg. by apply used_at_grown.
    + replace (a + 8 * (quanta c1 + (n - nq)) + 8 - 8) with (a + 8 * (quanta c1 + (n - nq))) by lia.
      apply used_at_new.
    + intros z Hz Ho. apply (carved_not_owned _ _ n nq c2 z Hs); [lia|lia|].
      rewrite <- Eg. by apply owned_grown.
Qed.

Lemma carve_nonempty c1 n nq c2 : carve c1 n nq c2 ≠ [].
Proof. unfold carve. destruct (n =? nq); by destruct c1. Qed.

Lemma used_nonzero cs x n h : wf h cs → used_at a cs x n → freep h ≠ 0.
Proof.
  intros [_ _ _ Hbl] Hu Hf. rewrite decide_True in Hbl by done. by subst cs.
Qed.

Lemma used_range m cs x n : sized m a cs → used_at a cs x n →
  a <= x ∧ 1 <= n ∧ x + 8 * n <= a + 8 * quanta cs.
Proof.
  intros Hs Hu. destruct (used_at_split _ _ _ _ Hu) as (c1 & c2 & -> & ->).
  apply sized_app in Hs as [Hs1 (_ & Hn & Hs2)]. rewrite quanta_app. cbn [quanta].
  pose proof (quanta_nonneg _ _ _ Hs1). pose proof (quanta_nonneg _ _ _ Hs2). lia.
Qed.

Lemma length_carve c1 n nq c2 :
  (length (carve c1 n nq c2) <= S (length (c1 ++ (true, n) :: c2)))%nat.
Proof. unfold carve. destruct (n =? nq); rewrite !length_app; simpl; lia. Qed.

Lemma length_allocated nq cs r cs' : allocated nq cs r cs' → (length cs' <= length cs + 2)%nat.
Proof.
  intros [H1 H2|c1 n c2 -> Hn|c1 n c2 H1 H2 Eg Hn]; [lia|pose proof (length_carve c1 n nq c2); lia|].
  pose proof (length_carve c1 n nq c2) as Hc. rewrite <- Eg in Hc.
  pose proof (length_grown cs (pool_request nq)). lia.
Qed.

Lemma wf_used h cs x n : wf h cs → used_at a cs x n → blocks base a sz (mem h) (freep h) cs.
Proof.
  intros Hw Hu. pose proof (used_nonzero _ _ _ _ Hw Hu). destruct Hw as [_ _ _ Hbl].
  by rewrite decide_False in Hbl.
Qed.

Lemma used_size m cs x n : sized m a cs → used_at a cs x n → size m x = n.
Proof.
  intros Hs Hu. destruct (used_at_split _ _ _ _ Hu) as (c1 & c2 & -> & ->).
  by apply sized_app in Hs as [_ (Hn & _)].
Qed.

(** Bytes of other blocks are in use after a block is freed. *)
Lemma owned_after_free cs x n z :
  used_at a cs x n → owned a cs z → ¬ (x + 8 <= z < x + 8 * n) →
  ∀ c1 c2, cs = c1 ++ (false, n) :: c2 → x = a + 8 * quanta c1 → owned a (release c1 n c2) z.
Proof.
  intros _ Ho Hz c1 c2 -> ->. apply owned_release. apply owned_app in Ho. apply owned_app.
  cbn [owned] in *. destruct Ho as [Ho|[[_ Ho]|Ho]]; [by left|lia|by right; right].
Qed.

(** Writing to bytes in use keeps the blocks. *)
Lemma blocks_write m m' f cs :
  blocks base a sz m f cs → (∀ z, m' z = m z ∨ owned a cs z) → blocks base a sz m' f cs.
Proof.
  intros Hbl Hm. pose proof Hbl as [Hs Hfit Hring Hb Hco Hf]. pose proof Hpl as [? ? ?].
  assert (∀ p, p ∈ base :: heads a cs → next m' p = next m p ∧ size m' p = size m p) as Hh.
  { intros p Hp. apply header_ext. intros z Hz. destruct (Hm z) as [|Ho]; [done|].
    apply elem_of_cons in Hp as [->|Hp].
    - pose proof (owned_range _ _ _ _ Hs Ho). lia.
    - pose proof (heads_owned _ _ _ _ _ Hs Hp Ho). lia. }
  split; try done.
  - apply (sized_frame m); [done|]. intros p Hp _ _. apply Hh. by right.
  - apply (relink base a sz Hpl m _ base); [done|..].
    + pose proof (ring_nodup base a sz Hpl m cs Hs ltac:(lia)) as [? ?]%NoDup_cons.
      apply NoDup_app. split; [done|]. split; [set_solver|apply NoDup_singleton].
    + apply Hh. left.
    + intros q Hq. apply Hh. right. by apply frees_heads.
  - rewrite <- Hb. apply Hh. left.
Qed.
End Spec.

(** ** Properties *)

(** [memmgr_alloc] returns, for every request of at most 2 GB on a
    well-formed pool, and refines the allocation on the list of blocks: it uses
    a free block that fits, exactly or cutting its end off; only when none fits
    it takes at least 128 quanta from the pool, joining them to a free block at
    its end; and it fails, changing no block, only when the pool has not that
    much left. *)
Theorem memmgr_alloc_refines (base a sz : Z) (k fuel : nat) (nbytes : Z) (h : heap)
    (cs : list chunk) :
  place base a sz → wf base a sz h cs → 0 < nbytes <= 2 ^ 31 →
  (2 * length cs + 4 <= k)%nat → (length cs + 3 <= fuel)%nat →
  ∃ r cs' h', memmgr_alloc base k fuel nbytes h = Ok (default 0 r) h' ∧
    allocated a sz (quantas nbytes) cs r cs' ∧ wf base a sz h' cs'.
Proof.
  intros Hpl Hw Hn Hk Hf.
  destruct (memmgr_alloc_ok base a sz Hpl k fuel nbytes h cs Hw Hn Hk Hf)
    as (r & cs' & h' & E & Ha & Hw' & _).
  by exists r, cs', h'.
Qed.

(** C4: for a request of 1 to 2^31 bytes (the sizes of larger ones may wrap
    around) the block that [memmgr_alloc] returns, if it returns one, has the
    requested size, lies in the pool and overlaps no block in use; the blocks in
    use stay in use with their contents, and the manager's state stays well-formed. *)
Theorem memmgr_alloc_fresh (base a sz : Z) (k fuel : nat) (nbytes : Z) (h : heap)
    (cs : list chunk) :
  place base a sz → wf base a sz h cs → 0 < nbytes <= 2 ^ 31 →
  (2 * length cs + 4 <= k)%nat → (length cs + 3 <= fuel)%nat →
  ∃ p h' cs', memmgr_alloc base k fuel nbytes h = Ok p h' ∧ wf base a sz h' cs' ∧
    (∀ z, owned a cs z → owned a cs' z ∧ mem h' z = mem h z) ∧
    (p = 0 ∨ ∀ z, p <= z < p + nbytes → a <= z < a + sz ∧ owned a cs' z ∧ ¬ owned a cs z).
Proof.
  intros Hpl Hw Hn Hk Hf. destruct (quantas_ok nbytes Hn) as [Hq Hqn].
  destruct (memmgr_alloc_ok base a sz Hpl k fuel nbytes h cs Hw Hn Hk Hf)
    as (r & cs' & h' & E & Ha & Hw' & Hz).
  exists (default 0 r), h', cs'. split; [done|]. split; [done|].
  destruct (decide (cs' = [])) as [->|Hne].
  { inversion Ha; subst; [split; [done|by left]|by destruct (carve_nonempty c1 n (quantas nbytes) c2)..]. }
  destruct (allocated_facts base a sz _ _ _ _ _ Ha ltac:(lia) Hw' Hne) as (Ho & _ & Hr).
  split; [by auto|]. destruct r as [p|]; [|by left]. right. intros z Hzr. cbn in Hzr.
  destruct Hr as [Hu Hno]. pose proof Hw' as [_ _ _ Hbl].
  rewrite decide_False in Hbl by by eapply used_nonzero. destruct Hbl as [Hs Hfit _ _ _ _].
  pose proof (used_range a _ _ _ _ Hs Hu). split; [lia|]. split; [|apply Hno; lia].
  eapply used_at_owned; [exact Hu|lia].
Qed.

(** C30: [memmgr_free] of a block in use returns and refines freeing on the list
    of blocks: the block becomes free and is joined with a free block behind it
    and one in front of it, and no byte of another block in use changes. *)
Theorem memmgr_free_refines (base a sz : Z) (k : nat) (h : heap) (x n : Z) (cs : list chunk) :
  place base a sz → wf base a sz h cs → used_at a cs x n → (length cs + 2 <= k)%nat →
  ∃ c1 c2 h', cs = c1 ++ (false, n) :: c2 ∧ x = a + 8 * quanta c1 ∧
    memmgr_free k (x + 8) h = Ok tt h' ∧ wf base a sz h' (release c1 n c2) ∧
    ∀ z, owned a (release c1 n c2) z → mem h' z = mem h z.
Proof. intros Hpl. by apply memmgr_free_ok. Qed.

Lemma memcpy_outside p q len m z : ¬ p <= z < p + len → memcpy p q len m z = m z.
Proof.
  intros Hz. unfold memcpy. destruct ((p <=? z) && (z <? p + len)) eqn:Eb; [to_prop; lia|done].
Qed.
Lemma memcpy_inside p q len m i : 0 <= i < len → memcpy p q len m (p + i) = m (q + i).
Proof.
  intros Hi. unfold memcpy. rewrite (proj2 (Z.leb_le _ _)), (proj2 (Z.ltb_lt _ _)) by lia. cbn [andb].
  f_equal. lia.
Qed.

(** Copying into a block in use keeps the heap. *)
Lemma wf_memcpy base a sz h cs p q len :
  place base a sz → wf base a sz h cs → (∀ z, p <= z < p + len → owned a cs z) →
  wf base a sz (set_mem (memcpy p q len (mem h)) h) cs.
Proof.
  intros Hpl [? ? ? Hb] Ho. split; try done. cbn [freep set_mem].
  destruct (decide (freep h = 0)); [done|]. apply (blocks_write base a sz Hpl (mem h)); [done|].
  intros z. destruct (decide (p <= z < p + len)); [right; by apply Ho|left; by apply memcpy_outside].
Qed.

(** [memmgr_realloc] of a block in use returns; when it finds no memory it
    returns null and the block stays in use with its contents, otherwise the
    new block holds the old contents up to the smaller of the sizes, and every
    other block in use keeps its contents. *)
Theorem memmgr_realloc_keeps (base a sz : Z) (k fuel : nat) (nbytes : Z) (h : heap) (x n : Z)
    (cs : list chunk) :
  place base a sz → wf base a sz h cs → used_at a cs x n → 0 < nbytes <= 2 ^ 31 →
  (2 * length cs + 4 <= k)%nat → (length cs + 4 <= fuel)%nat →
  ∃ p h' cs', memmgr_realloc base k fuel (x + 8) nbytes h = Ok p h' ∧ wf base a sz h' cs' ∧
    if decide (p = 0) then cs' = cs ∧ ∀ z, owned a cs z → mem h' z = mem h z
    else
      (∀ i, 0 <= i < Z.min (8 * (n - 1)) nbytes → mem h' (p + i) = mem h (x + 8 + i)) ∧
      (∀ z, p <= z < p + nbytes → owned a cs' z) ∧
      (∀ z, owned a cs z → ¬ x + 8 <= z < x + 8 * n → owned a cs' z ∧ mem h' z = mem h z).
Proof.
  intros Hpl Hw Hu Hn Hk Hfuel. destruct (quantas_ok nbytes Hn) as [Hq Hqn]. pose proof Hpl as [Hpb Hpp Hpa].
  pose proof (wf_used _ _ _ _ _ _ _ Hw Hu) as Hbl. pose proof Hbl as [Hs Hfit _ _ _ _].
  pose proof (used_range a _ _ _ _ Hs Hu) as Hxr.
  unfold memmgr_realloc. rewrite !(proj2 (Z.eqb_neq _ _)) by lia.
  destruct (memmgr_alloc_ok base a sz Hpl k fuel nbytes h cs Hw Hn Hk ltac:(lia))
    as (r & cs1 & h1 & E & Ha & Hw1 & Hz1).
  rewrite (bind_ok _ _ _ _ _ E).
  assert (cs1 ≠ []) as Hne.
  { intros ->. inversion Ha; subst; [done|by destruct (carve_nonempty c1 n0 (quantas nbytes) c2)..]. }
  destruct (allocated_facts base a sz _ _ _ _ _ Ha ltac:(lia) Hw1 Hne) as (Ho & Hused & Hr).
  destruct r as [p|]; cbn [default] in *.
  2:{ subst cs1. exists 0, h1, cs. rewrite Z.eqb_refl. done. }
  destruct Hr as [Hnew Hno]. cbn [from_option id] in *.
  pose proof (wf_used _ _ _ _ _ _ _ Hw1 Hnew) as Hbl1. pose proof Hbl1 as [Hs1 Hfit1 _ _ _ _].
  pose proof (used_range a _ _ _ _ Hs1 Hnew) as Hpr. rewrite (proj2 (Z.eqb_neq p 0)) by lia.
  change sizeof_header with 8. rewrite u32_small by (unfold is_u; lia).
  replace (x + 8 - 8) with x by lia.
  rewrite (bind_ok _ _ _ (mem h1) h1) by done.
  pose proof (Hused _ _ Hu) as Hu1. rewrite (used_size a _ _ _ _ Hs1 Hu1).
  rewrite u32_small by (unfold is_u; lia).
  set (len := if (n - 1) * 8 <? nbytes then (n - 1) * 8 else nbytes).
  assert (len = Z.min (8 * (n - 1)) nbytes) as Hlen.
  { subst len. destruct (Z.ltb_spec ((n - 1) * 8) nbytes); lia. }
  assert (∀ z, p <= z < p + nbytes → owned a cs1 z) as Hnewo.
  { intros z Hz. eapply used_at_owned; [exact Hnew|lia]. }
  set (h2 := set_mem (memcpy p (x + 8) len (mem h1)) h1). rewrite (bind_ok _ _ _ tt h2) by done.
  assert (wf base a sz h2 cs1) as Hw2.
  { apply wf_memcpy; [done..|]. intros z Hz. apply Hnewo. lia. }
  pose proof (length_allocated a sz _ _ _ _ Ha).
  destruct (memmgr_free_ok base a sz Hpl fuel h2 x n cs1 Hw2 Hu1) as (c1 & c2 & h3 & Ecs & Ex & Ef & Hw3 & Hz3);
    [lia|].
  rewrite (bind_ok _ _ _ _ _ Ef). exists p, h3, (release c1 n c2). split; [done|]. split; [done|].
  rewrite decide_False by lia.
  assert (∀ z, owned a cs z → z < p ∨ p + nbytes <= z) as Hold.
  { intros z Hz. destruct (decide (p <= z < p + nbytes)); [|lia]. destruct (Hno z); [lia|done]. }
  assert (∀ z, x + 8 <= z < x + 8 * n → owned a cs z) as Hxo.
  { intros z Hz. by eapply used_at_owned. }
  assert (∀ z, p <= z < p + nbytes → owned a (release c1 n c2) z) as Hnew3.
  { intros z Hz. eapply owned_after_free; [exact Hu1|by apply Hnewo| |done|done].
    intros Hx. specialize (Hold z (Hxo z Hx)). lia. }
  split; [|split; [exact Hnew3|]].
  - intros i Hi. rewrite Hz3 by (apply Hnew3; lia). cbn [h2 mem set_mem].
    rewrite memcpy_inside by lia. apply Hz1, Hxo. lia.
  - intros z Hz Hx. assert (owned a (release c1 n c2) z) as Hoz.
    { eapply owned_after_free; [exact Hu1|by apply Ho|done|done|done]. }
    split; [done|]. rewrite Hz3 by done. cbn [h2 mem set_mem].
    rewrite memcpy_outside by (specialize (Hold z Hz); lia). by apply Hz1.
Qed.

(** ** A small pool

    4 KB, the first block free and the second in use. *)
Definition small_base : Z := 0x8c400000.
Definition small_pool : Z := 0x8c800000.
Definition small_chunks : list chunk := [(true, 114); (false, 14)].
Definition small_memory : memory :=
  set_next small_base small_pool (set_next small_pool small_base
    (set_size small_pool 114 (set_size (small_pool + 912) 14 (set_size small_base 0 (λ z, z mod 7))))).
Definition small_state : heap := MkHeap small_memory small_base small_pool 4096 1024.

Lemma small_place : place small_base small_pool 4096.
Proof. split; [done|done|by left]. Qed.

Lemma small_wf : wf small_base small_pool 4096 small_state small_chunks.
Proof.
  split; try done. rewrite decide_False by done.
  unfold small_state, small_memory, small_chunks, small_base, small_pool. cbn [mem freep].
  split; cbn [sized quanta frees coalesced head app reach].
  - split; [by headers|]. split; [done|]. split; [|done].
    change (0x8c800000 + 8 * 114) with (0x8c800000 + 912). by headers.
  - done.
  - split; [by headers|]. split; [by headers|done].
  - by headers.
  - done.
  - by left.
Qed.

Lemma small_used : used_at small_pool small_chunks (small_pool + 912) 14.
Proof. right. left. done. Qed.

Lemma memmgr_alloc_refines_witness :
  ∃ r cs' h', memmgr_alloc small_base 8 5 100 small_state = Ok (default 0 r) h' ∧
    allocated small_pool 4096 14 small_chunks r cs' ∧ wf small_base small_pool 4096 h' cs'.
Proof.
  apply (memmgr_alloc_refines small_base small_pool 4096 8 5 100 small_state small_chunks
    small_place small_wf); done || (simpl; lia).
Defined.

Lemma memmgr_alloc_fresh_witness :
  ∃ p h' cs', memmgr_alloc small_base 8 5 100 small_state = Ok p h' ∧
    wf small_base small_pool 4096 h' cs' ∧
    (∀ z, owned small_pool small_chunks z → owned small_pool cs' z ∧ mem h' z = mem small_state z) ∧
    (p = 0 ∨ ∀ z, p <= z < p + 100 → small_pool <= z < small_pool + 4096 ∧ owned small_pool cs' z ∧
       ¬ owned small_pool small_chunks z).
Proof.
  apply (memmgr_alloc_fresh small_base small_pool 4096 8 5 100 small_state small_chunks
    small_place small_wf); done || (simpl; lia).
Defined.

Lemma memmgr_free_refines_witness :
  ∃ h', memmgr_free 4 (small_pool + 912 + 8) small_state = Ok tt h' ∧
    wf small_base small_pool 4096 h' [(true, 128)].
Proof.
  destruct (memmgr_free_refines small_base small_pool 4096 4 small_state (small_pool + 912) 14
    small_chunks small_place small_wf small_used) as (c1 & c2 & h' & Ecs & Ex & E & Hw & _);
    [simpl; lia|].
  exists h'. split; [exact E|].
  destruct c1 as [|c c1]; [discriminate Ecs|]. injection Ecs as <- Ecs.
  destruct c1 as [|d c1]; [|injection Ecs as _ Ecs; destruct c1; discriminate Ecs].
  injection Ecs as <-. exact Hw.
Defined.

Lemma memmgr_realloc_keeps_witness :
  ∃ p h' cs', memmgr_realloc small_base 8 6 (small_pool + 912 + 8) 200 small_state = Ok p h' ∧
    wf small_base small_pool 4096 h' cs' ∧
    if decide (p = 0) then cs' = small_chunks ∧
      ∀ z, owned small_pool small_chunks z → mem h' z = mem small_state z
    else
      (∀ i, 0 <= i < 104 → mem h' (p + i) = mem small_state (small_pool + 912 + 8 + i)) ∧
      (∀ z, p <= z < p + 200 → owned small_pool cs' z) ∧
      (∀ z, owned small_pool small_chunks z →
         ¬ small_pool + 912 + 8 <= z < small_pool + 912 + 8 * 14 →
         owned small_pool cs' z ∧ mem h' z = mem small_state z).
Proof.
  apply (memmgr_realloc_keeps small_base small_pool 4096 8 6 200 small_state (small_pool + 912) 14
    small_chunks small_place small_wf small_used); done || (simpl; lia).
Defined.
