(* ===== verification/Stdio.v ===== *)
(** * C library of the payload programs: files and log

    [stdio.c], [logger.c] and [strdup.c] of
    [src/experiments/hello-world/src/libc]: streams over the system calls of the
    dictionary, which are the class [Syscalls] (they are written in assembler
    outside the repository).  A stream is a pointer that [malloc] gave; what it
    points to is in the store.  [OutOfBounds] also stands for a stream that is
    not there, a division by zero and an uninitialised descriptor. *)

From Stdlib Require Import String Ascii.
From S2P Require Import Prelude Text.
From S2P Require Libc.

(** ** System calls *)

(** Paths are byte strings without the terminator; [sys_read] gives its result
    and the bytes it put into the buffer. *)
Class Syscalls (E : Type) := {
  sys_open : list Z → Z → E → Z * E;
  sys_create : list Z → Z → E → Z * E;
  sys_delete : list Z → E → Z * E;
  sys_close : Z → E → Z * E;
  sys_seek : Z → Z → Z → E → Z * E;
  sys_read : Z → Z → E → (Z * list Z) * E;
  sys_write : Z → list Z → E → Z * E;
  sys_get_filesize : Z → E → Z * E;
  sys_dict_info : E → (Z * list Z) * E;
  malloc : Z → E → Z * E;
  free : Z → E → Z * E;
  FILE_RD : Z;
  FILE_WR : Z;
}.

Definition SEEK_SET : Z := 0.
Definition SEEK_CUR : Z := 1.
Definition SEEK_END : Z := 2.

(** [struct _file]; a descriptor that was not written yet is [None]. *)
Record file := File { fd : option Z; eof : Z; pos : Z }.

Record store (E : Type) := Store { outside : E; streams : gmap Z file; log_fd : Z }.
Arguments Store {E}.
Arguments outside {E}.
Arguments streams {E}.
Arguments log_fd {E}.

Section Stdio.
Context {E : Type} `{Syscalls E}.
Abbreviation K := (res (store E)).

Definition sys {A} (f : E → A * E) : K A := λ s,
  let '(a, e) := f (outside s) in Ok a (Store e (streams s) (log_fd s)).

(** ** Streams *)

Definition stream (f : Z) : K file :=
  o ← res_get (λ s, streams s !! f); res_opt OutOfBounds o.
Definition set_stream (f : Z) (c : file) : K unit :=
  res_upd (λ s, Store (outside s) (<[f := c]> (streams s)) (log_fd s)).
(** [free(f)] *)
Definition drop_stream (f : Z) : K unit :=
  sys (free f);; res_upd (λ s, Store (outside s) (delete f (streams s)) (log_fd s)).
Definition descriptor (c : file) : K Z := res_opt OutOfBounds (fd c).

(** A null pointer is 0. *)
Definition fopen (path : option (list Z)) (mode : list Z) : K Z :=
  match path with
  | None => mret 0
  | Some path =>
      f ← sys (malloc 12);
      if f =? 0 then mret 0
      else
        set_stream f (File None 0 0);;
        m ← res_opt OutOfBounds (mode !! 0%nat);
        if m =? 119 then
          sys (sys_delete path);;
          ret ← sys (sys_create path 1);
          if 0 <=? ret then
            ret ← sys (sys_open path FILE_WR);
            set_stream f (File (Some ret) 0 0);;
            if ret <? 0 then sys (sys_delete path);; drop_stream f;; mret 0 else mret f
          else drop_stream f;; mret 0
        else if m =? 114 then
          ret ← sys (sys_open path FILE_RD);
          set_stream f (File (Some ret) 0 0);;
          if ret <? 0 then drop_stream f;; mret 0 else mret f
        else mret f
  end.

Definition fclose (fp : Z) : K Z :=
  c ← stream fp;
  d ← descriptor c;
  sys (sys_close d);;
  drop_stream fp;;
  mret 0.

Definition fseek (f : Z) (offset whence : Z) : K Z :=
  c ← stream f;
  pos ←
    (if whence =? SEEK_SET then mret (u32 offset)
     else if whence =? SEEK_CUR then mret (u32 (pos c + offset))
     else if whence =? SEEK_END then
       d ← descriptor c; n ← sys (sys_get_filesize d); mret (u32 (n + offset))
     else mret 0);
  set_stream f (File (fd c) (eof c) pos);;
  mret 0.

(** [unsigned long] division. *)
Definition quotient (a b : Z) : K Z := if b =? 0 then res_fault OutOfBounds else mret (u32 a / b).

(** The result and the bytes at [ptr]. *)
Definition fread (size nmemb : Z) (f : Z) : K (Z * list Z) :=
  c ← stream f;
  d ← descriptor c;
  let bytes := u32 (size * nmemb) in
  sys (sys_seek d (pos c) 0);;
  '(read, data) ← sys (sys_read d bytes);
  let read := if read <? 0 then 0 else read in
  n ← quotient read size;
  set_stream f (File (fd c) (if negb (nmemb =? n) then 1 else eof c) (u32 (pos c + read)));;
  mret (n, data).

Definition fwrite (data : list Z) (size nmemb : Z) (f : Z) : K Z :=
  c ← stream f;
  d ← descriptor c;
  let bytes := u32 (size * nmemb) in
  data ← res_opt OutOfBounds (if bytes <=? zlen data then Some (take (Z.to_nat bytes) data) else None);
  written ← sys (sys_write d data);
  if written <? 0 then mret 0 else quotient written size.

Definition feof (f : Z) : K Z := c ← stream f; mret (eof c).
Definition fileno (f : Z) : K Z := c ← stream f; descriptor c.

(** ** Lines *)

(** [*p++ = buffer[i]] for the bytes that were read, up to a newline; [p] is an
    index of the object [s]: what is left of the bytes after a newline, if there
    was one. *)
Fixpoint copy_line (bs s : list Z) (p : nat) : option (list Z * nat * option (list Z)) :=
  match bs with
  | [] => Some (s, p, None)
  | b :: bs =>
      s ← Libc.put s p b;
      if b =? 10 then Some (s, S p, Some bs) else copy_line bs s (S p)
  end.

(** [eol:] *)
Definition finish_line (s : list Z) (p : nat) : K (bool * list Z) :=
  if decide (0 < p)%nat then
    s ← res_opt OutOfBounds (Libc.put s p 0); mret (true, s)
  else mret (false, s).

Definition set_eof (f : Z) (v : Z) : K unit :=
  c ← stream f; set_stream f (File (fd c) v (pos c)).

(** [while (size != 0)], at most [fuel] rounds; the flag tells [s] from a null
    pointer. *)
Fixpoint fgets_loop (fuel : nat) (s : list Z) (p : nat) (size : Z) (f : Z) : K (bool * list Z) :=
  if size =? 0 then finish_line s p
  else match fuel with
  | O => res_fault OutOfFuel
  | S fuel =>
      let bytes := if size <? 512 then size else 512 in
      '(read, buffer) ← fread 1 bytes f;
      if (read =? 0) && negb (bytes =? 0) then set_eof f 1;; mret (false, s)
      else
        data ← res_opt OutOfBounds
          (if read <=? zlen buffer then Some (take (Z.to_nat read) buffer) else None);
        '(s, p', rest) ← res_opt OutOfBounds (copy_line data s p);
        match rest with
        | Some rest =>
            fseek f (- zlen rest) 1;;
            (if negb (- zlen rest =? 0) then set_eof f 0 else mret tt);;
            finish_line s p'
        | None => fgets_loop fuel s p' (s32 (size - read)) f
        end
  end.

Definition fgets (fuel : nat) (s : list Z) (size : Z) (f : Z) : K (bool * list Z) :=
  if size <=? 0 then mret (false, s) else fgets_loop fuel s 0 size f.

(** ** The log *)

Definition media : list (list Z) := [str "\\drv0\"; str "\\crd0\"]%string.

(** The characters up to the terminator. *)
Definition c_string (s : list Z) : K (list Z) :=
  n ← res_opt OutOfBounds (Libc.strlen s); mret (take (Z.to_nat n) s).

(** A formatted string in an array of [n] bytes, without its terminator. *)
Definition format_into (n : Z) (fmt : list Z) (args : list Libc.va_arg) : K (list Z) :=
  '(_, out) ← res_opt OutOfBounds (Libc.vsprintf fmt args);
  match out with
  | Some l => if zlen l <=? n then c_string l else res_fault OutOfBounds
  | None => res_fault OutOfBounds
  end.

(** The static [filename]. *)
Definition log_filename (name : list Z) : K (list Z) :=
  '(drv, id) ← sys sys_dict_info;
  m ← res_opt OutOfBounds (if drv <? 0 then None else media !! Z.to_nat drv);
  format_into 100 (str "%s%s\%s" ++ [0])
    [Libc.AStr (Some (m ++ [0])); Libc.AStr (Some id); Libc.AStr (Some (name ++ [0]))].

Definition set_log_fd (d : Z) : K unit := res_upd (λ s, Store (outside s) (streams s) d).

Definition log_init : K unit :=
  log_file ← log_filename (str "_USER\gnuboy.log");
  sys (sys_delete log_file);;
  r ← sys (sys_create log_file 1);
  if r <? 0 then mret tt
  else
    fd ← sys (sys_open log_file FILE_WR);
    if 0 <=? fd then set_log_fd fd else mret tt.

Definition log_fini : K unit :=
  d ← res_get log_fd;
  if 0 <=? d then sys (sys_close d);; set_log_fd (-1) else mret tt.

Definition log_message (n : Z) (fmt : list Z) (args : list Libc.va_arg) : K unit :=
  msg ← format_into n fmt args;
  d ← res_get log_fd;
  if 0 <=? d then sys (sys_write d msg);; mret tt else mret tt.

Definition log_write (fmt : list Z) (args : list Libc.va_arg) : K unit := log_message 1024 fmt args.

(** The argument of [exit]. *)
Definition die (fmt : list Z) (args : list Libc.va_arg) : K Z := log_message 512 fmt args;; mret (-2).

(** The pointer and what it points to. *)
Definition strdup (s1 : list Z) : K (option (Z * list Z)) :=
  n ← res_opt OutOfBounds (Libc.strlen s1);
  let l := u32 (n + 1) in
  s ← sys (malloc l);
  mret (if s =? 0 then None else Some (s, take (Z.to_nat l) s1)).
End Stdio.
