(* ===== verification/StdioFacts.v ===== *)
(** * Reading lines

    [fgets] of [Stdio] against a reference: the line of the file at the position
    of the stream.  What the system calls promise is the class [ReadOk]. *)

From S2P Require Import Prelude Stdio.
From S2P Require Libc.

(** ** The reference *)

(** At most [n] bytes, up to and with a newline. *)
Fixpoint line (n : nat) (l : list Z) : list Z :=
  match n, l with
  | S n, b :: l => b :: (if b =? 10 then [] else line n l)
  | _, _ => []
  end.
Definition ends (l : list Z) : bool := bool_decide (last l = Some 10).

Lemma line_length n l : (length (line n l) <= n)%nat.
Proof.
  revert l. induction n as [|n IH]; intros [|b l]; cbn; try lia.
  case_match; cbn; [lia|]. specialize (IH l). lia.
Qed.

Lemma ends_cons b l : ends (b :: l) = match l with [] => b =? 10 | _ => ends l end.
Proof.
  unfold ends. destruct l; cbn; [|done]. destruct (Z.eqb_spec b 10) as [->|].
  - by apply bool_decide_true.
  - apply bool_decide_false. congruence.
Qed.

(** A line that does not end in a newline is all there is, and goes on behind. *)
Lemma line_take n l : ends (line n l) = false → line n l = take n l.
Proof.
  revert l. induction n as [|n IH]; intros [|b l]; cbn [line take]; try done.
  destruct (Z.eqb_spec b 10) as [->|Hb]; [done|]. intros He. f_equal. apply IH.
  rewrite ends_cons in He. by destruct (line n l).
Qed.

Lemma line_add_ends n m l : ends (line n l) = true → line (n + m) l = line n l.
Proof.
  revert l. induction n as [|n IH]; intros [|b l]; cbn [line Nat.add]; try done.
  destruct (Z.eqb_spec b 10) as [->|Hb]; [done|]. intros He. f_equal. apply IH.
  rewrite ends_cons in He. destruct (line n l); [|done]. by apply Z.eqb_eq in He.
Qed.

Lemma line_add n m l : ends (line n l) = false → (n <= length l)%nat →
  line (n + m) l = take n l ++ line m (drop n l).
Proof.
  revert l. induction n as [|n IH]; intros l; [done|]. destruct l as [|b l]; cbn; [lia|].
  destruct (Z.eqb_spec b 10) as [->|Hb]; [done|]. intros He Hl. f_equal. apply IH; [|lia].
  change (ends (b :: line n l) = false) in He. rewrite ends_cons in He. by destruct (line n l).
Qed.

Lemma line_app_r n l k : (n <= length l)%nat → line n (l ++ k) = line n l.
Proof.
  revert l. induction n as [|n IH]; intros [|b l]; cbn; try done; [lia|]. intros Hn.
  by rewrite IH by lia.
Qed.

Lemma ends_app a b : ends a = false → ends (a ++ b) = ends b.
Proof.
  intros Ha. unfold ends. rewrite last_app. destruct (last b) eqn:Eb; [done|]. exact Ha.
Qed.

(** ** Copying *)

Lemma copy_line_spec bs s i : (i + length bs <= length s)%nat →
  let l := line (length bs) bs in
  copy_line bs s i
  = Some (splice i l s, (i + length l)%nat,
      if ends l then Some (drop (length l) bs) else None).
Proof.
  revert s i. induction bs as [|b bs IH]; intros s i Hs; cbn [copy_line line length] in *.
  { cbn. by rewrite splice_nil, Nat.add_0_r. }
  rewrite Libc.put_splice by lia. cbn [mbind option_bind].
  destruct (Z.eqb_spec b 10) as [->|Hb]; cbn.
  { by rewrite Nat.add_1_r. }
  specialize (IH (splice i [b] s) (S i)). cbv zeta in IH.
  rewrite IH by (rewrite splice_length by (cbn; lia); lia).
  pose proof (line_length (length bs) bs).
  change (b :: line (length bs) bs) with ([b] ++ line (length bs) bs).
  rewrite <- splice_splice, Nat.add_1_r by (cbn; lia).
  do 2 f_equal; [f_equal; cbn; lia|]. cbn. rewrite ends_cons.
  destruct (line (length bs) bs) eqn:El; [|done].
  by rewrite (proj2 (Z.eqb_neq b 10)).
Qed.

(** ** What the system calls promise *)

(** [reading content d o e]: the descriptor [d] reads the file [content], and is
    at the offset [o].  A read gives what is left, at most what was asked for. *)
Class ReadOk (E : Type) `{Syscalls E} := {
  reading : list Z → Z → Z → E → Prop;
  seek_ok content d o n e : reading content d o e → 0 <= n <= zlen content →
    reading content d n (sys_seek d n 0 e).2;
  read_ok content d o n e : reading content d o e → 0 <= n →
    let data := take (Z.to_nat n) (drop (Z.to_nat o) content) in
    (sys_read d n e).1 = (zlen data, data) ∧
    reading content d (o + zlen data) (sys_read d n e).2;
}.

Section Reading.
Context {E : Type} `{ReadOk E} (content : list Z) (d f : Z).
Hypothesis content_small : zlen content < 2 ^ 31.
Implicit Types (s : store E).

(** The stream is at [p]; [from]: nothing else in the store has changed. *)
Definition opened (p ef : Z) s : Prop :=
  streams s !! f = Some (File (Some d) ef p) ∧ ∃ o, reading content d o (outside s).
Definition from s s' : Prop :=
  delete f (streams s') = delete f (streams s) ∧ log_fd s' = log_fd s.

Lemma from_set s c e : from s (Store e (<[f := c]> (streams s)) (log_fd s)).
Proof. split; [|done]. apply delete_insert_eq. Qed.

#[local] Instance from_trans : Transitive from.
Proof. intros s1 s2 s3 [A B] [C D]. split; congruence. Qed.

Lemma stream_ok s c : streams s !! f = Some c → stream f s = Ok c s.
Proof. intros Hs. unfold stream. erewrite bind_ok by done. by rewrite Hs. Qed.

Lemma sys_run {A} (g : E → A * E) s :
  sys g s = Ok (g (outside s)).1 (Store (g (outside s)).2 (streams s) (log_fd s)).
Proof. unfold sys. by destruct (g (outside s)). Qed.

Lemma fread_spec s p ef n : opened p ef s → 0 <= p <= zlen content → 0 < n < 2 ^ 31 →
  let data := take (Z.to_nat n) (drop (Z.to_nat p) content) in
  ∃ s', fread 1 n f s = Ok (zlen data, data) s' ∧ from s s' ∧
    opened (p + zlen data) (if n =? zlen data then ef else 1) s'.
Proof.
  intros [Hs [o Ho]] Hp Hn data.
  assert (zlen data <= zlen content - p) as Hl.
  { unfold data, zlen in *. rewrite length_take, length_drop. lia. }
  pose proof (zlen_nonneg data). unfold fread.
  erewrite bind_ok; [|by apply stream_ok].
  erewrite bind_ok; [|done]. cbv zeta. cbn [fd pos eof].
  rewrite (Z.mul_1_l n), (u32_small n) by (unfold is_u; lia).
  pose proof (seek_ok content d o p (outside s) Ho Hp) as Hseek.
  erewrite bind_ok by apply sys_run. cbn [outside streams log_fd].
  destruct (read_ok content d p n _ Hseek ltac:(lia)) as [Hread Hafter]. fold data in Hread, Hafter.
  erewrite bind_ok by apply sys_run. cbn [outside streams log_fd]. rewrite Hread. cbv zeta.
  rewrite (proj2 (Z.ltb_ge (zlen data) 0)) by lia. unfold quotient. cbn [Z.eqb].
  erewrite bind_ok; [|done].
  rewrite !u32_small by (unfold is_u; lia). rewrite Z.div_1_r.
  eexists. split; [done|]. cbn [streams log_fd outside]. split; [apply from_set|].
  split; [|by eexists]. cbn [streams]. rewrite lookup_insert_eq. by destruct (n =? zlen data).
Qed.

Lemma set_stream_spec s p ef p' ef' : opened p ef s →
  ∃ s', set_stream f (File (Some d) ef' p') s = Ok tt s' ∧ from s s' ∧ opened p' ef' s'.
Proof.
  intros [Hs Ho]. eexists. split; [done|]. split; [apply from_set|]. split; [|done].
  cbn. apply lookup_insert_eq.
Qed.

Lemma set_eof_spec s p ef v : opened p ef s →
  ∃ s', set_eof f v s = Ok tt s' ∧ from s s' ∧ opened p v s'.
Proof.
  intros Hs. destruct (set_stream_spec s p ef p v Hs) as (s' & Es & HF).
  exists s'. split; [|done]. destruct Hs as [Hs _]. unfold set_eof.
  erewrite bind_ok; [|by apply stream_ok]. apply Es.
Qed.

Lemma fseek_cur s p ef n : opened p ef s → 0 <= p + n < 2 ^ 32 →
  ∃ s', fseek f n 1 s = Ok 0 s' ∧ from s s' ∧ opened (p + n) ef s'.
Proof.
  intros Hs Hn. destruct (set_stream_spec s p ef (p + n) ef Hs) as (s' & Es & HF).
  exists s'. split; [|done]. destruct Hs as [Hs _]. unfold fseek.
  erewrite bind_ok; [|by apply stream_ok].
  cbn [SEEK_SET SEEK_CUR Z.eqb]. unfold SEEK_SET, SEEK_CUR. cbn [Z.eqb Pos.eqb].
  erewrite bind_ok; [|done]. cbn [fd eof pos]. rewrite u32_small by done.
  by erewrite bind_ok; [|apply Es].
Qed.

(** ** The loop *)

(** What [fgets] does with the line [l] it finds, from the index [i] of [s] on. *)
Definition delivers (i : nat) (l s : list Z) (p : Z) (whole : bool) (st : store E)
    (r : outcome (store E) (bool * list Z)) : Prop :=
  if whole then
    if decide (i + length l < length s)%nat then
      ∃ st' ef, r = Ok (true, splice i (l ++ [0]) s) st' ∧ from st st' ∧ opened (p + zlen l) ef st'
    else r = Fault OutOfBounds
  else
    ∃ st', r = Ok (false, splice i l s) st' ∧ from st st' ∧ opened (p + zlen l) 1 st'.

Lemma finish_line_spec i l (s : list Z) p ef st st' : (0 < i + length l)%nat →
  (i + length l <= length s)%nat → from st st' → opened (p + zlen l) ef st' →
  delivers i l s p true st (finish_line (splice i l s) (i + length l) st').
Proof.
  intros Hpos Hlen HF HO. unfold finish_line. rewrite decide_True by lia.
  unfold delivers. case_decide.
  - rewrite Libc.put_splice by (rewrite splice_length; lia). cbn.
    rewrite splice_splice by (cbn; lia). by exists st', ef.
  - unfold Libc.put. rewrite decide_False by (rewrite splice_length; lia). done.
Qed.

(** The rest of the line is delivered behind what was copied already. *)
Lemma delivers_app i a l (s : list Z) p whole st st1 r : from st st1 →
  (i + length a + length l <= length s)%nat →
  delivers (i + length a) l (splice i a s) (p + zlen a) whole st1 r →
  delivers i (a ++ l) s p whole st r.
Proof.
  intros HF Hl. unfold delivers. rewrite splice_length, zlen_app, length_app, Z.add_assoc, Nat.add_assoc
    by lia. destruct whole.
  - case_decide; [|done]. intros (st' & ef & -> & HF' & HO). exists st', ef.
    rewrite splice_splice, (assoc (++)) by (rewrite length_app; cbn; lia). split_and!; [done|by etrans|done].
  - intros (st' & -> & HF' & HO). exists st'. rewrite splice_splice by lia.
    split_and!; [done|by etrans|done].
Qed.

Definition complete (size : Z) (l : list Z) : bool := ends l || (zlen l =? size).

(** A chunk with a newline in it: the rest of the chunk is given back. *)
Lemma newline_found i (s : list Z) p ef st st1 data l : from st st1 →
  opened (p + zlen data) ef st1 → 0 <= p → p + zlen data <= zlen content →
  l = line (length data) data → ends l = true → (i + length data <= length s)%nat →
  delivers i l s p true st
    ((fseek f (- zlen (drop (length l) data)) 1;;
      (if negb (- zlen (drop (length l) data) =? 0) then set_eof f 0 else mret tt);;
      finish_line (splice i l s) (i + length l)) st1).
Proof.
  intros HF HO Hp Hc El He Hs.
  pose proof (line_length (length data) data) as Hl. rewrite <- El in Hl.
  assert (0 < length l)%nat by (destruct l; [done|cbn; lia]).
  assert (zlen data + - zlen (drop (length l) data) = zlen l) as Ez.
  { unfold zlen. rewrite length_drop. lia. }
  destruct (fseek_cur st1 (p + zlen data) ef (- zlen (drop (length l) data)) HO) as (s2 & E2 & F2 & O2).
  { rewrite <- Z.add_assoc, Ez. unfold zlen in *. lia. }
  rewrite <- Z.add_assoc, Ez in O2. erewrite bind_ok by apply E2.
  destruct (negb _).
  - destruct (set_eof_spec s2 _ _ 0 O2) as (s3 & E3 & F3 & O3). erewrite bind_ok by apply E3.
    eapply finish_line_spec; [lia..| |exact O3]. etrans; [exact HF|]. by etrans.
  - erewrite bind_ok by done. eapply finish_line_spec; [lia..| |exact O2]. by etrans.
Qed.

Lemma fgets_full fuel i (s : list Z) p ef st : opened p ef st → (0 < i + 0)%nat →
  (i + 0 <= length s)%nat →
  delivers i [] s p (complete 0 []) st (fgets_loop fuel s i 0 f st).
Proof.
  intros HO Hi Hs. assert (fgets_loop fuel s i 0 f = finish_line (E := E) s i) as -> by (by destruct fuel).
  pose proof (finish_line_spec i [] s p ef st st) as S. cbn [length] in S.
  rewrite splice_nil, Nat.add_0_r, zlen_nil, Z.add_0_r in S. apply S; by (lia || done).
Qed.

(** The line of a file, by what was read of it. *)
Lemma line_of_chunk (n : nat) (data tail : list Z) : (length data <= n)%nat →
  line n (data ++ tail)
  = if ends (line (length data) data) then line (length data) data
    else data ++ line (n - length data) tail.
Proof.
  intros Hn. assert (line (length data) data = line (length data) (data ++ tail)) as El
    by (by rewrite line_app_r).
  replace n with (length data + (n - length data))%nat at 1 by lia.
  destruct (ends (line (length data) data)) eqn:He.
  - rewrite El. apply line_add_ends. by rewrite <- El.
  - rewrite line_add; [|by rewrite <- El|rewrite length_app; lia].
    by rewrite take_app_length, drop_app_length.
Qed.

Lemma complete_app size (data l : list Z) : ends data = false →
  complete size (data ++ l) = complete (size - zlen data) l.
Proof.
  intros He. unfold complete. rewrite ends_app, zlen_app by done. f_equal.
  destruct (Z.eqb_spec (zlen l) (size - zlen data)), (Z.eqb_spec (zlen data + zlen l) size); lia || done.
Qed.

Lemma fgets_loop_spec fuel i (s : list Z) size p ef st : opened p ef st →
  0 <= p <= zlen content → 0 <= size < 2 ^ 31 → (Z.to_nat size <= fuel)%nat →
  (i + Z.to_nat size <= length s)%nat → (0 < i + Z.to_nat size)%nat →
  let l := line (Z.to_nat size) (drop (Z.to_nat p) content) in
  delivers i l s p (complete size l) st (fgets_loop fuel s i size f st).
Proof.
  revert i s size p ef st. induction fuel as [|fuel IH]; intros i s size p ef st HO Hp Hsz Hf Hs Hi l.
  { assert (size = 0) as -> by lia. by apply (fgets_full O) with ef. }
  destruct (Z.eqb_spec size 0) as [->|Hn]; [by apply (fgets_full (S fuel)) with ef|].
  cbn [fgets_loop]. rewrite (proj2 (Z.eqb_neq size 0)) by done. cbv zeta.
  set (n := if size <? 512 then size else 512).
  assert (0 < n <= size) as Hnn by (unfold n; destruct (Z.ltb_spec size 512); lia).
  destruct (fread_spec st p ef n HO Hp ltac:(lia)) as (s1 & E1 & F1 & O1).
  set (data := take (Z.to_nat n) (drop (Z.to_nat p) content)) in *.
  set (rest := drop (Z.to_nat p) content) in *.
  assert (p + zlen data <= zlen content ∧ zlen data <= n) as [Hd1 Hd2].
  { unfold data, rest, zlen in *. rewrite length_take, length_drop. lia. }
  assert (rest = data ++ drop (Z.to_nat n) rest) as Er by (by unfold data; rewrite take_drop).
  erewrite bind_ok by apply E1. cbv beta match.
  rewrite (proj2 (Z.eqb_neq n 0)), andb_true_r by lia.
  destruct (Z.eqb_spec (zlen data) 0) as [Hz|Hz].
  { assert (data = []) as Hz0 by (destruct data; [done|rewrite zlen_cons in Hz; pose proof (zlen_nonneg data); lia]).
    assert (l = []) as ->.
    { unfold l. fold rest. destruct rest as [|b r]; [by destruct (Z.to_nat size)|].
      unfold data in Hz0. destruct (Z.to_nat n) eqn:En; [lia|done]. }
    destruct (set_eof_spec s1 _ _ 1 O1) as (s2 & E2 & F2 & O2).
    erewrite bind_ok by apply E2. unfold complete, ends. cbn [last]. rewrite zlen_nil.
    rewrite (proj2 (Z.eqb_neq 0 size)) by done. exists s2. rewrite splice_nil.
    split_and!; [done|by etrans|by rewrite zlen_nil, <- Hz]. }
  rewrite Z.leb_refl. erewrite bind_ok by (unfold zlen; by rewrite Nat2Z.id, firstn_all).
  rewrite copy_line_spec by (unfold zlen in *; lia). erewrite bind_ok by done. cbv beta match.
  set (l1 := line (length data) data).
  assert (l = if ends l1 then l1
              else data ++ line (Z.to_nat (size - zlen data)) (drop (Z.to_nat (p + zlen data)) content)) as ->.
  { unfold l. fold rest. rewrite Er, line_of_chunk by (unfold zlen in *; lia). fold l1.
    destruct (ends l1); [done|]. f_equal. f_equal; [unfold zlen; lia|].
    rewrite <- (drop_app_length data (drop (Z.to_nat n) rest)), <- Er. unfold rest.
    rewrite drop_drop. f_equal. unfold zlen in *. lia. }
  destruct (ends l1) eqn:He.
  - unfold complete. rewrite He. eapply newline_found; try done; unfold zlen in *; lia.
  - assert (l1 = data) as E2 by (unfold l1; rewrite line_take by done; apply firstn_all).
    rewrite E2, s32_small by (pose proof (zlen_nonneg data); lia).
    rewrite complete_app by (by rewrite <- E2).
    pose proof (line_length (Z.to_nat (size - zlen data)) (drop (Z.to_nat (p + zlen data)) content)) as Hl2.
    eapply delivers_app; [exact F1|unfold zlen in *; lia|].
    eapply IH; try done; unfold zlen in *; rewrite ?splice_length; lia.
Qed.

(** C20: [fgets] on a file the system calls read gives the line at the position of
    the stream: it ends, the buffer gets the line and a terminator, the stream
    moves by its length; at the end of the file an unfinished line is lost and
    the result is null; and it writes behind the buffer exactly when the line,
    newline included, fills the [size] bytes the caller has. *)
Theorem fgets_reads (s : list Z) (size p ef : Z) (fuel : nat) (st : store E) : opened p ef st →
  0 <= p <= zlen content → 0 < size < 2 ^ 31 → (Z.to_nat size <= fuel)%nat → size <= zlen s →
  let l := line (Z.to_nat size) (drop (Z.to_nat p) content) in
  let r := fgets fuel s size f st in
  if complete size l then
    if zlen l <? zlen s then
      ∃ st' ef', r = Ok (true, splice 0 (l ++ [0]) s) st' ∧ from st st' ∧ opened (p + zlen l) ef' st'
    else r = Fault OutOfBounds ∧ zlen l = size ∧ size = zlen s
  else ∃ st', r = Ok (false, splice 0 l s) st' ∧ from st st' ∧ opened (p + zlen l) 1 st'.
Proof.
  intros HO Hp Hsz Hf Hs l r.
  assert (delivers 0 l s p (complete size l) st r) as D.
  { unfold r, fgets. rewrite (proj2 (Z.leb_gt size 0)) by lia.
    eapply fgets_loop_spec; try done; unfold zlen in *; lia. }
  pose proof (line_length (Z.to_nat size) (drop (Z.to_nat p) content)) as Hl. fold l in Hl.
  unfold delivers in D. destruct (complete size l); [|done].
  destruct (Z.ltb_spec (zlen l) (zlen s)) as [Hlt|Hge], (decide (0 + length l < length s)%nat);
    try done; unfold zlen in *; try lia. split_and!; [done|lia..].
Qed.
End Reading.

(** ** A concrete file system *)

Module Disk.
Record disk := Disk { text : list Z; offset : Z }.

#[global] Instance disk_calls : Syscalls disk := {|
  sys_open _ _ e := (3, Disk (text e) 0);
  sys_create _ _ e := (0, Disk [] 0);
  sys_delete _ e := (0, e);
  sys_close _ e := (0, e);
  sys_seek _ n _ e := (n, Disk (text e) n);
  sys_read _ n e :=
    let data := take (Z.to_nat n) (drop (Z.to_nat (offset e)) (text e)) in
    ((zlen data, data), Disk (text e) (offset e + zlen data));
  sys_write _ bs e := (zlen bs, Disk (text e ++ bs) (offset e + zlen bs));
  sys_get_filesize _ e := (zlen (text e), e);
  sys_dict_info e := ((0, [65; 0]), e);
  malloc _ e := (100, e);
  free _ e := (0, e);
  FILE_RD := 1;
  FILE_WR := 2;
|}.

#[global] Program Instance disk_ok : ReadOk disk :=
  {| reading c _ o e := text e = c ∧ offset e = o |}.
Next Obligation. by intros c d o n e [<- _] _. Qed.
Next Obligation. by intros c d o n e [<- <-] _. Qed.

(** The bytes [a b \n c], and a stream at their beginning. *)
Definition content : list Z := [97; 98; 10; 99].
Definition start (p : Z) : store disk := Store (Disk content 0) {[ 100 := File (Some 3) 0 p ]} (-1).
End Disk.

(** A buffer of four bytes gets the first line; one of three is overrun. *)
Lemma fgets_reads_witness :
  (∃ st' ef', fgets 4 [0; 0; 0; 0] 4 100 (Disk.start 0) = Ok (true, [97; 98; 10; 0]) st'
     ∧ from 100 (Disk.start 0) st' ∧ opened Disk.content 3 100 3 ef' st') ∧
  fgets 3 [0; 0; 0] 3 100 (Disk.start 0) = Fault OutOfBounds ∧
  (∃ st', fgets 4 [0; 0; 0; 0] 4 100 (Disk.start 3) = Ok (false, [99; 0; 0; 0]) st'
     ∧ from 100 (Disk.start 3) st' ∧ opened Disk.content 3 100 4 1 st').
Proof.
  assert (∀ p, opened Disk.content 3 100 p 0 (Disk.start p)) as HO.
  { intros p. split; [apply lookup_singleton_eq|by exists 0]. }
  split_and!.
  - apply (fgets_reads Disk.content 3 100 eq_refl [0; 0; 0; 0] 4 0 0 4 _ (HO 0)); try done; lia.
  - apply (fgets_reads Disk.content 3 100 eq_refl [0; 0; 0] 3 0 0 3 _ (HO 0)); try done; lia.
  - apply (fgets_reads Disk.content 3 100 eq_refl [0; 0; 0; 0] 4 3 0 4 _ (HO 3)); try done; lia.
Defined.
