(* ===== verification/SysInfo.v ===== *)
(** * System information ([src/experiments/sysinfo/src/main.c])

    The add-in that collects registers and facts of the firmware as lines of
    text, saves them and shows them page by page.  Its [sprintf] is the one of
    [Libc], a copy of the same file; the system calls are those of [Stdio] and
    the class [Machine].  Writing behind an array is [OutOfBounds].  Reading a
    register has no effect, so that all of them are read before the first line;
    the delay of the loop is left out. *)

From Stdlib Require Import String Ascii.
From S2P Require Import Prelude Text.
From S2P Require Libc Stdio.
Import Stdio(Syscalls, sys_delete, sys_create, sys_open, sys_write, sys_close, sys_dict_info, FILE_WR).

Definition SCREEN_WIDTH : Z := 528.
Definition SCREEN_HEIGHT : Z := 320.
Definition MAX_LINES : nat := 72.
Definition LINE_LENGTH : Z := 64.
Definition REPORT_LENGTH : Z := 6144.
Definition LINES_PER_PAGE : Z := 16.

Inductive key : Type :=
| KEY_POWER | KEY_BACK | KEY_RIGHT | KEY_PAGE_DOWN | KEY_DOWN | KEY_LEFT | KEY_PAGE_UP | KEY_UP.

(** Registers, memory and calls that only this program uses; a call gives its
    result and what it stored. *)
Class Machine (E : Type) := {
  reg32 : Z → E → Z;
  read_sr : E → Z;
  read_vbr : E → Z;
  read_gbr : E → Z;
  little_endian : bool;
  memory : Z → nat → E → list Z;
  sys_totaldiskspace : list Z → E → (Z * Z) * E;
  sys_freediskspace : list Z → E → (Z * Z) * E;
  keypad_read : E → unit * E;
  get_key_state : key → E → Z * E;
  get_key_pressed : key → E → Z * E;
}.

(** [struct rom_header], with its address. *)
Record rom_header := RomHeader {
  address : Z; signature : list Z; model : list Z; magic : Z; nor_size : Z;
}.

(** Calls of the graphics library. *)
Inductive draw : Type :=
| SetPen (red green blue : Z) | DrawRect (x y width height : Z) | RenderText (x y : Z) (s : list Z)
| CopyVram.

Record info (E : Type) := Info {
  outside : E; lines : list (list Z); report : list Z; drawings : list draw;
}.
Arguments Info {E}.
Arguments outside {E}.
Arguments lines {E}.
Arguments report {E}.
Arguments drawings {E}.

(** ** Fields *)

(** [for (i = 0; i < length; ++i)] *)
Fixpoint copy_field (source : list Z) (length : nat) {struct length} : option (list Z) :=
  match length with
  | O => Some []
  | S length =>
      match source with
      | [] => None
      | value :: source =>
          l ← copy_field source length;
          Some ((if (32 <=? value) && (value <=? 126) then value else 46) :: l)
      end
  end.

(** [for (i = 1; i < 4; ++i)], from [model + 1] on. *)
Fixpoint parse_digits (n : nat) (model : list Z) (value : Z) : option Z :=
  match n with
  | O => Some value
  | S n =>
      match model with
      | [] => None
      | c :: model =>
          if (c <? 48) || (57 <? c) then Some value
          else parse_digits n model (u32 (value * 10 + (c - 48)))
      end
  end.
Definition parse_model_number (model : list Z) : option Z := parse_digits 3 (tail model) 0.

Definition external_ram_size (header : option rom_header) (pvr : Z) : option Z :=
  match header with
  | Some h =>
      if bool_decide (head (model h) = Some 67) then
        n ← parse_model_number (model h);
        Some (if 160 <=? n then 0x01000000 else 0x00800000)
      else Some (if pvr =? 0x10300b00 then 0x01000000 else 0x00200000)
  | None => Some (if pvr =? 0x10300b00 then 0x01000000 else 0x00200000)
  end.

Definition divisors : list Z := [2; 3; 4; 6; 8; 12; 16; 0; 24; 32; 36; 48; 0; 72; 0; 0].
Definition clock_divisor (code : Z) : Z := divisors !!! Z.to_nat (Z.land code 15).

(** ** What is reported *)

(** The variables of [main]; [addin_id], [signature] and [model] are arrays. *)
Record facts := Facts {
  header : option rom_header; entry_context : Z; dispatcher : Z; pvr : Z; cvr : Z; prr : Z;
  mmucr : Z; ccr : Z; frqcr : Z; sr : Z; vbr : Z; gbr : Z; little : bool; ram_size : Z;
  install_drive : Z; addin_id : list Z; signature_text : list Z; model_text : list Z;
  internal_total_status : Z; internal_total : Z; internal_free_status : Z; internal_free : Z;
  card_total_status : Z; card_total : Z; card_free_status : Z; card_free : Z;
}.

Abbreviation entry := (list Z * list Libc.va_arg)%type.
Definition plain (s : string) : entry := (str s ++ [0], []).
Definition nums (s : string) (l : list Z) : entry := (str s ++ [0], map Libc.AInt l).
Definition texts (s : string) (l : list (list Z)) : entry :=
  (str s ++ [0], map (λ t, Libc.AStr (Some t)) l).
Definition literal (s : string) : list Z := str s ++ [0].

Definition report_path (f : facts) : list Z :=
  if install_drive f =? 0 then literal "\\drv0\SYSINFO.TXT" else literal "\\crd0\SYSINFO.TXT".

Definition identity_lines (f : facts) : list entry :=
  [ plain "[Identity and firmware]";
    plain "Tool: System Information v1";
    plain "Retail model: Casio EX-word XD-B8600";
    texts "Add-in ID: %s" [addin_id f];
    texts "Install medium: %s" [if install_drive f =? 0 then literal "internal" else literal "microSD"];
    nums "ROM header address: 0x%08X" [match header f with Some h => address h | None => 0 end];
    texts "ROM signature: %s" [signature_text f];
    texts "Firmware model code: %s" [model_text f];
    nums "Header magic: 0x%08X" [match header f with Some h => magic h | None => 0 end];
    nums "Entry context: 0x%08X" [entry_context f];
    nums "Syscall dispatcher: 0x%08X" [dispatcher f];
    plain "" ].

Definition cpu_lines (f : facts) : list entry :=
  [ plain "[CPU and execution state]";
    texts "CPU family: %s" [if pvr f =? 0x10300b00 then literal "Renesas SH-4A" else literal "SH family"];
    nums "PVR: 0x%08X" [pvr f];
    nums "PRR: 0x%08X" [prr f];
    nums "CVR: 0x%08X" [cvr f];
    nums "SR: 0x%08X" [sr f];
    nums "VBR: 0x%08X" [vbr f];
    nums "GBR: 0x%08X" [gbr f];
    nums "MMUCR: 0x%08X" [mmucr f];
    nums "CCR: 0x%08X" [ccr f];
    texts "Byte order: %s-endian" [if little f then literal "little" else literal "big"];
    plain "" ].

Definition clock_lines (f : facts) : list entry :=
  let pll_field := Z.land (Z.shiftr (frqcr f) 24) 0x3f in
  let iclk_code := Z.land (Z.shiftr (frqcr f) 20) 0x0f in
  let shclk_code := Z.land (Z.shiftr (frqcr f) 12) 0x0f in
  let bclk_code := Z.land (Z.shiftr (frqcr f) 8) 0x0f in
  let pclk_code := Z.land (frqcr f) 0x0f in
  [ plain "[Clock generator]";
    nums "FRQCR: 0x%08X" [frqcr f];
    nums "PLL field: %u  multiplier: x%u" [pll_field; u32 ((pll_field + 1) * 2)];
    nums "ICLK divisor: /%u (code %u)" [clock_divisor iclk_code; iclk_code];
    nums "SHCLK divisor: /%u (code %u)" [clock_divisor shclk_code; shclk_code];
    nums "BCLK divisor: /%u (code %u)" [clock_divisor bclk_code; bclk_code];
    nums "PCLK divisor: /%u (code %u)" [clock_divisor pclk_code; pclk_code];
    plain "!MHz omitted: oscillator frequency is not yet verified";
    plain "" ].

Definition memory_lines (f : facts) : list entry :=
  let nor := match header f with Some h => nor_size h | None => 0 end in
  [ plain "[Memory map]";
    nums "External RAM: %u bytes (%u MiB)" [ram_size f; ram_size f / 1048576];
    nums "External RAM range: 0x8C000000-0x%08X" [u32 (0x8c000000 + ram_size f - 1)];
    nums "NOR flash: %u bytes (%u MiB)" [nor; nor / 1048576];
    nums "NOR mapping: 0x80000000-0x%08X" [if nor =? 0 then 0 else u32 (0x80000000 + nor - 1)];
    plain "Add-in code window: 0x70000080-0x7001FFFF";
    plain "Add-in RAM window: 0x7400004C-0x74007FFF";
    plain "Main VRAM: 0xAC200000, 337920 bytes, RGB565";
    plain "Main LCD: 528x320, MMIO 0xB4000000";
    plain "Sub LCD: 240x96 touch; controller not mapped yet";
    plain "Keyboard matrix: 0xA44B0000";
    plain "" ].

Definition space (total free : Z) : Z := u32 (total - free).

Definition storage_lines (f : facts) : list entry :=
  [ plain "[Storage]";
    nums "Internal status: total=%d free=%d" [internal_total_status f; internal_free_status f];
    nums "Internal total: %u bytes (%u MiB)" [internal_total f; internal_total f / 1048576];
    nums "Internal free: %u bytes (%u MiB)" [internal_free f; internal_free f / 1048576];
    nums "Internal used: %u bytes (%u MiB)"
      [space (internal_total f) (internal_free f); space (internal_total f) (internal_free f) / 1048576];
    nums "microSD status: total=%d free=%d" [card_total_status f; card_free_status f];
    nums "microSD total: %u bytes (%u MiB)" [card_total f; card_total f / 1048576];
    nums "microSD free: %u bytes (%u MiB)" [card_free f; card_free f / 1048576];
    nums "microSD used: %u bytes (%u MiB)"
      [space (card_total f) (card_free f); space (card_total f) (card_free f) / 1048576];
    texts "Text report: %s" [report_path f];
    plain "" ].

Definition notes_lines : list entry :=
  [ plain "[Interfaces and notes]";
    plain "USB protocol device: 07CF:6101 (EX-word link)";
    plain "OS: proprietary Casio firmware with syscall gateway";
    plain "All values collected using read-only register access";
    plain "Unknown fields are retained as raw hex for analysis" ].

Definition all_lines (f : facts) : list entry :=
  identity_lines f ++ cpu_lines f ++ clock_lines f ++ memory_lines f ++ storage_lines f ++ notes_lines.

Section SysInfo.
Context {E : Type} `{Syscalls E} `{Machine E}.
Abbreviation K := (res (info E)).

Definition call {A} (f : E → A * E) : K A := λ s,
  let '(a, e) := f (outside s) in Ok a (Info e (lines s) (report s) (drawings s)).
Definition draw_call (d : draw) : K unit :=
  res_upd (λ s, Info (outside s) (lines s) (report s) (drawings s ++ [d])).

(** A formatted string in an array of 64 bytes, without its terminator. *)
Definition format_line (fmt : list Z) (args : list Libc.va_arg) : K (list Z) :=
  '(_, out) ← res_opt OutOfBounds (Libc.vsprintf fmt args);
  match out with
  | Some l =>
      if zlen l <=? LINE_LENGTH then
        n ← res_opt OutOfBounds (Libc.strlen l); mret (take (Z.to_nat n) l)
      else res_fault OutOfBounds
  | None => res_fault OutOfBounds
  end.

Definition add_line (fmt : list Z) (args : list Libc.va_arg) : K unit :=
  n ← res_get (λ s, length (lines s));
  if decide (MAX_LINES <= n)%nat then mret tt
  else
    l ← format_line fmt args;
    res_upd (λ s, Info (outside s) (lines s ++ [l]) (report s) (drawings s)).

Fixpoint add_lines (l : list entry) : K unit :=
  match l with [] => mret tt | (fmt, args) :: l => add_line fmt args;; add_lines l end.

(** ** Collecting *)

Definition rom_at (a : Z) (e : E) : rom_header :=
  RomHeader a (memory a 12 e) (memory (a + 12) 4 e) (be_decode (memory (a + 16) 4 e))
    (be_decode (memory (a + 20) 4 e)).

Definition find_rom_header : K (option rom_header) :=
  e ← res_get outside;
  let h1 := rom_at 0x8000ff80 e in
  let h2 := rom_at 0x8001ff80 e in
  r1 ← res_opt OutOfBounds (Libc.memcmp (signature h1) (str "CASIODICS") 9);
  if r1 =? 0 then mret (Some h1)
  else
    r2 ← res_opt OutOfBounds (Libc.memcmp (signature h2) (str "CASIODICS") 9);
    mret (if r2 =? 0 then Some h2 else None).

(** [copy_field] into an array, or what is there at first. *)
Definition field (h : option rom_header) (f : rom_header → list Z) (n : nat) (initial : string) : K (list Z) :=
  match h with
  | Some h => l ← res_opt OutOfBounds (copy_field (f h) n); mret (l ++ [0])
  | None => mret (literal initial)
  end.

Definition collect (entry_context : Z) : K facts :=
  header ← find_rom_header;
  e ← res_get outside;
  ram_size ← res_opt OutOfBounds (external_ram_size header (reg32 0xff000030 e));
  '(install_drive, id) ← call sys_dict_info;
  addin_id ← (if decide (length id <= 10)%nat then mret (splice 0 id (replicate 10 0))
              else res_fault OutOfBounds);
  '(its, it) ← call (sys_totaldiskspace (str "drv0"));
  '(ifs, if_) ← call (sys_freediskspace (str "drv0"));
  '(cts, ct) ← call (sys_totaldiskspace (str "crd0"));
  '(cfs, cf) ← (if cts =? 0 then call (sys_freediskspace (str "crd0")) else mret (-99, 0));
  signature_text ← field header signature 12 "not found";
  model_text ← field header model 4 "none";
  mret (Facts header entry_context (reg32 0x74000000 e) (reg32 0xff000030 e) (reg32 0xff000040 e)
          (reg32 0xff000044 e) (reg32 0xff000010 e) (reg32 0xff00001c e) (reg32 0xa4150000 e)
          (read_sr e) (read_vbr e) (read_gbr e) little_endian ram_size install_drive addin_id
          signature_text model_text its it ifs if_ cts ct cfs cf).

(** ** The report *)

(** The lines that fit, from [offset] on. *)
Fixpoint report_of (ls : list (list Z)) (offset : Z) : list Z :=
  match ls with
  | [] => []
  | l :: ls =>
      if offset + zlen l + 2 >=? REPORT_LENGTH then []
      else l ++ [13; 10] ++ report_of ls (offset + zlen l + 2)
  end.

Definition make_report : K Z :=
  ls ← res_get lines;
  res_upd (λ s, Info (outside s) (lines s) (report_of ls 0) (drawings s));;
  mret (zlen (report_of ls 0)).

Definition save_report (path : list Z) (length : Z) : K Z :=
  call (sys_delete path);;
  r ← call (sys_create path 1);
  if r <? 0 then mret (-1)
  else
    descriptor ← call (sys_open path FILE_WR);
    if descriptor <? 0 then mret (-2)
    else
      text ← res_get (λ s, take (Z.to_nat length) (report s));
      written ← call (sys_write descriptor text);
      call (sys_close descriptor);;
      mret (if written =? length then 0 else written).

(** ** The pages *)

Fixpoint render_lines (n : nat) (index y : Z) : K unit :=
  match n with
  | O => mret tt
  | S n =>
      l ← res_get (λ s, lines s !! Z.to_nat index);
      match l with
      | None => mret tt
      | Some l =>
          draw_call (if bool_decide (head l = Some 91) then SetPen 86 235 176
                     else if bool_decide (head l = Some 33) then SetPen 255 193 92
                     else SetPen 226 232 240);;
          draw_call (RenderText 8 y l);;
          render_lines n (index + 1) (y + 16)
      end
  end.

Definition render_page (page page_count save_status : Z) : K unit :=
  draw_call (SetPen 7 13 23);;
  draw_call (DrawRect 0 0 SCREEN_WIDTH SCREEN_HEIGHT);;
  draw_call (SetPen 22 46 74);;
  draw_call (DrawRect 0 0 SCREEN_WIDTH 28);;
  draw_call (SetPen 116 214 255);;
  draw_call (RenderText 8 8 (str "XD-B8600 SYSTEM INFORMATION"));;
  render_lines (Z.to_nat LINES_PER_PAGE) (page * LINES_PER_PAGE) 36;;
  draw_call (SetPen 22 46 74);;
  draw_call (DrawRect 0 292 SCREEN_WIDTH 28);;
  draw_call (if save_status =? 0 then SetPen 86 235 176 else SetPen 255 193 92);;
  footer ← format_line (literal "LEFT/RIGHT: pages  BACK: exit  %u/%u  SAVE:%s")
    [Libc.AInt (page + 1); Libc.AInt page_count;
     Libc.AStr (Some (if save_status =? 0 then literal "OK" else literal "ERR"))];
  draw_call (RenderText 8 300 footer);;
  draw_call CopyVram.

(** [c1 || c2 || ...] *)
Fixpoint any (keys : list key) (f : key → E → Z * E) : K bool :=
  match keys with
  | [] => mret false
  | k :: keys => v ← call (f k); if negb (v =? 0) then mret true else any keys f
  end.

(** At most [fuel] turns; [None]: it is still running. *)
Fixpoint show (fuel : nat) (page page_count save_status : Z) : K (option Z) :=
  match fuel with
  | O => mret None
  | S fuel =>
      call keypad_read;;
      leave ← any [KEY_POWER; KEY_BACK] get_key_state;
      if leave : bool then mret (Some (-2))
      else
        forward ← any [KEY_RIGHT; KEY_PAGE_DOWN; KEY_DOWN] get_key_pressed;
        page ← (if forward : bool then
                  let page := (page + 1) mod page_count in
                  render_page page page_count save_status;; mret page
                else mret page);
        back ← any [KEY_LEFT; KEY_PAGE_UP; KEY_UP] get_key_pressed;
        page ← (if back : bool then
                  let page := if page =? 0 then page_count - 1 else page - 1 in
                  render_page page page_count save_status;; mret page
                else mret page);
        show fuel page page_count save_status
  end.

Definition main (fuel : nat) (entry_context : Z) : K (option Z) :=
  f ← collect entry_context;
  add_lines (all_lines f);;
  report_length ← make_report;
  save_status ← save_report (removelast (report_path f)) report_length;
  n ← res_get (λ s, zlen (lines s));
  let page_count := (n + LINES_PER_PAGE - 1) / LINES_PER_PAGE in
  render_page 0 page_count save_status;;
  show fuel 0 page_count save_status.
End SysInfo.
