(* ===== verification/SysInfoFacts.v ===== *)
(** * The report fits

    The lines of [SysInfo] fit their arrays, whatever the registers, the header
    in the flash and the firmware say: by the bounds of [Formatted]. *)

From Stdlib Require Import String Ascii.
From S2P Require Import Prelude Text Libc Formatted SysInfo.
From S2P Require Stdio.
Import Stdio(Syscalls, sys_dict_info).

(** ** Runs that cannot fail *)

Section Succeeds.
Context {S : Type}.

Definition succeeds {A} (P : S → Prop) (m : res S A) (Q : A → S → Prop) : Prop :=
  ∀ s, P s → ∃ a s', m s = Ok a s' ∧ Q a s'.

Lemma succeeds_ret {A} P (a : A) (Q : A → S → Prop) : (∀ s, P s → Q a s) → succeeds P (mret a) Q.
Proof. intros HQ s Hs. exists a, s. split; [done|by apply HQ]. Qed.

Lemma succeeds_bind {A B} P (m : res S A) (f : A → res S B) R Q :
  succeeds P m R → (∀ a, succeeds (R a) (f a) Q) → succeeds P (m ≫= f) Q.
Proof.
  intros Hm Hf s Hs. destruct (Hm s Hs) as (a & s1 & E1 & Ha).
  destruct (Hf a s1 Ha) as (b & s2 & E2 & Hb). exists b, s2. by erewrite bind_ok.
Qed.

(** A step that keeps [P], in front of another. *)
Lemma succeeds_then {A B} P (m : res S A) (f : A → res S B) Q :
  succeeds P m (λ _, P) → (∀ a, succeeds P (f a) Q) → succeeds P (m ≫= f) Q.
Proof. intros Hm Hf. by apply (succeeds_bind _ _ _ (λ _, P)). Qed.

Lemma succeeds_learn {A B} P P' (m : res S A) (f : A → res S B) (R : A → Prop) Q :
  succeeds P m (λ a s, R a ∧ P' s) → (∀ a, R a → succeeds P' (f a) Q) → succeeds P (m ≫= f) Q.
Proof.
  intros Hm Hf. apply (succeeds_bind _ _ _ (λ a s, R a ∧ P' s)); [done|].
  intros a s [Ha Hs]. by apply Hf.
Qed.
Lemma succeeds_know {A B} P (m : res S A) (f : A → res S B) (R : A → Prop) Q :
  succeeds P m (λ a s, R a ∧ P s) → (∀ a, R a → succeeds P (f a) Q) → succeeds P (m ≫= f) Q.
Proof. apply succeeds_learn. Qed.

Lemma succeeds_get {A} P (f : S → A) : succeeds P (res_get f) (λ a s, a = f s ∧ P s).
Proof. intros s Hs. by exists (f s), s. Qed.

Lemma succeeds_opt {A} P e (o : option A) a : o = Some a → succeeds P (res_opt e o) (λ b s, b = a ∧ P s).
Proof. intros -> s Hs. by exists a, s. Qed.

Lemma succeeds_conseq {A} P (m : res S A) (Q Q' : A → S → Prop) :
  succeeds P m Q → (∀ a s, Q a s → Q' a s) → succeeds P m Q'.
Proof. intros Hm HQ s Hs. destruct (Hm s Hs) as (a & s' & E & Ha). exists a, s'. auto. Qed.
End Succeeds.

(** ** The lines *)

(** A line for which the bound says that it fits. *)
Definition entry_ok (e : list Z * list va_arg) : Prop :=
  ∃ bs n, Forall2 fits e.2 bs ∧ text_bound e.1 bs = Some n ∧ (n < 64)%nat.

Lemma plain_ok s n : text_bound (str s ++ [0]) [] = Some n → (n < 64)%nat → entry_ok (plain s).
Proof. intros Hb Hn. by exists [], n. Qed.
Lemma nums_ok s l n : text_bound (str s ++ [0]) (map (λ _, BInt) l) = Some n → (n < 64)%nat →
  entry_ok (nums s l).
Proof.
  intros Hb Hn. exists (map (λ _, BInt) l), n. split; [|done]. cbn. clear. induction l; by repeat constructor.
Qed.
Lemma text_ok s t k n : (∃ w, c_string w t ∧ (length w <= k)%nat) →
  text_bound (str s ++ [0]) [BStr k] = Some n → (n < 64)%nat → entry_ok (texts s [t]).
Proof.
  intros (w & Hw & Hk) Hb Hn. exists [BStr k], n. split; [|done]. constructor; [by econstructor|constructor].
Qed.

(** A text of at most [n] characters. *)
Definition short (n : nat) (t : list Z) : Prop := ∃ w, c_string w t ∧ (length w <= n)%nat.

Lemma literal_short n s : forallb (λ c, (0 <? c) && (c <? 256)) (str s) = true →
  (length (str s) <=? n)%nat = true → short n (literal s).
Proof.
  intros Hc Hn%Nat.leb_le. exists (str s). split; [|done]. split; [|by exists []].
  apply Forall_forall. intros c Hin. rewrite forallb_forall in Hc. specialize (Hc c).
  apply list_elem_of_In, Hc in Hin. to_prop. lia.
Qed.

Lemma copy_field_ok src n l : copy_field src n = Some l →
  Forall (λ c, 0 < c < 256) l ∧ length l = n.
Proof.
  revert src l. induction n as [|n IH]; intros src l; cbn [copy_field]; [intros [= <-]; by split|].
  destruct src as [|v src]; [done|]. intros (l' & El & [= <-])%bind_Some. destruct (IH _ _ El) as [H1 H2].
  split; [|cbn; by f_equal]. constructor; [|done]. destruct (_ && _) eqn:E1; [to_prop; lia|lia].
Qed.

(** What the report relies on. *)
Definition good_facts (f : facts) : Prop :=
  short 9 (addin_id f) ∧ short 12 (signature_text f) ∧ short 12 (model_text f).

Ltac line_ok :=
  first
    [ eapply plain_ok; [vm_compute; reflexivity|lia]
    | eapply nums_ok; [vm_compute; reflexivity|lia]
    | eapply text_ok; [eassumption|vm_compute; reflexivity|lia]
    | eapply (text_ok _ _ 20); [repeat case_match; apply literal_short; vm_compute; reflexivity
                               |vm_compute; reflexivity|lia] ].

Lemma all_lines_ok f : good_facts f → Forall entry_ok (all_lines f).
Proof.
  intros (H1 & H2 & H3). unfold all_lines. repeat (apply Forall_app; split).
  - unfold identity_lines. repeat (apply Forall_cons; split); [line_ok..|apply Forall_nil; done].
  - unfold cpu_lines. repeat (apply Forall_cons; split); [line_ok..|apply Forall_nil; done].
  - unfold clock_lines. repeat (apply Forall_cons; split); [line_ok..|apply Forall_nil; done].
  - unfold memory_lines. repeat (apply Forall_cons; split); [line_ok..|apply Forall_nil; done].
  - unfold storage_lines, report_path. repeat (apply Forall_cons; split); [line_ok..|apply Forall_nil; done].
  - unfold notes_lines. repeat (apply Forall_cons; split); [line_ok..|apply Forall_nil; done].
Qed.

(** ** Collecting *)

(** As many bytes as are read. *)
Class MachineOk (E : Type) `{Syscalls E} `{Machine E} :=
  memory_length a n e : length (memory a n e) = n.

(** The identifier that the firmware stores fits [addin_id], with its end. *)
Definition fits_id (id : list Z) : Prop := (∃ w, c_string w id) ∧ (length id <= 10)%nat.

Lemma memcmp_total s1 s2 n : (n <= length s1)%nat → (n <= length s2)%nat → ∃ r, memcmp s1 s2 n = Some r.
Proof.
  revert s1 s2. induction n as [|n IH]; intros [|a s1] [|b s2] H1 H2; cbn in *; try lia; eauto.
  case_match; [apply IH; lia|eauto].
Qed.

Lemma parse_digits_total n l v : (n <= length l)%nat → ∃ r, parse_digits n l v = Some r.
Proof.
  revert l v. induction n as [|n IH]; intros [|c l] v Hl; cbn in *; try lia; eauto.
  case_match; [eauto|apply IH; lia].
Qed.

Lemma copy_field_total n l : (n <= length l)%nat → ∃ r, copy_field l n = Some r.
Proof.
  revert l. induction n as [|n IH]; intros l Hl; cbn [copy_field]; [eauto|].
  destruct l as [|c l]; cbn in *; [lia|]. destruct (IH l) as [r ->]; [lia|]. cbn. eauto.
Qed.

Definition header_ok (o : option rom_header) : Prop :=
  match o with Some h => length (signature h) = 12%nat ∧ length (model h) = 4%nat | None => True end.

Lemma external_ram_size_total o v : header_ok o → ∃ r, external_ram_size o v = Some r.
Proof.
  destruct o as [h|]; cbn [external_ram_size header_ok]; [|eauto].
  intros [_ Hm]. case_match; [|eauto].
  destruct (parse_digits_total 3 (tail (model h)) 0) as [r Hr].
  - destruct (model h); cbn in *; lia.
  - unfold parse_model_number. rewrite Hr. cbn [mbind option_bind]. eauto.
Qed.

Section Run.
Context {E : Type} `{MachineOk E}.
Abbreviation K := (res (info E)).
Implicit Types s : info E.

Definition state_is (ls : list (list Z)) (ds : list draw) s : Prop := lines s = ls ∧ drawings s = ds.

Lemma call_ok {A} ls ds (g : E → A * E) :
  succeeds (state_is ls ds) (call g) (λ a s, (∃ e, a = (g e).1) ∧ state_is ls ds s).
Proof.
  intros s [H4 H5]. unfold call. destruct (g (outside s)) as [a e'] eqn:Eg.
  eexists a, _. split; [done|]. split; [by exists (outside s); rewrite Eg|done].
Qed.

Lemma call_then {A B} ls ds (g : E → A * E) (f : A → K B) Q :
  (∀ e, succeeds (state_is ls ds) (f (g e).1) Q) → succeeds (state_is ls ds) (call g ≫= f) Q.
Proof. intros Hf. eapply succeeds_know; [apply call_ok|]. by intros a [e ->]. Qed.

Lemma get_then {A B} ls ds (g : info E → A) (f : A → K B) Q :
  (∀ s, state_is ls ds s → succeeds (state_is ls ds) (f (g s)) Q) →
  succeeds (state_is ls ds) (res_get g ≫= f) Q.
Proof. intros Hf s Hs. destruct (Hf s Hs s Hs) as (a & s' & Ea & Ha). by exists a, s'. Qed.

Lemma opt_then {A B} (P : info E → Prop) e o (a : A) (f : A → K B) Q : o = Some a →
  succeeds P (f a) Q → succeeds P (res_opt e o ≫= f) Q.
Proof. intros -> Hf s Hs. destruct (Hf s Hs) as (b & s' & Eb & Hb). by exists b, s'. Qed.

Lemma get_from {A B} s0 (g : info E → A) (f : A → K B) Q :
  succeeds (λ s, s = s0) (f (g s0)) Q → succeeds (λ s, s = s0) (res_get g ≫= f) Q.
Proof. intros Hf s ->. destruct (Hf s0 eq_refl) as (b & s' & Eb & Hb). by exists b, s'. Qed.

Lemma find_rom_header_ok s0 :
  succeeds (λ s, s = s0) find_rom_header (λ o s, header_ok o ∧ s = s0).
Proof.
  unfold find_rom_header. apply get_from.
  assert (∀ a, header_ok (Some (rom_at a (outside s0)))) as Hh by (intros a; cbn; by rewrite !memory_length).
  assert (∀ a, ∃ r, memcmp (signature (rom_at a (outside s0))) (str "CASIODICS") 9 = Some r) as Hm.
  { intros a. apply memcmp_total; [|cbn; lia]. destruct (Hh a) as [-> _]. lia. }
  destruct (Hm 0x8000ff80) as [r1 E1]. eapply opt_then; [exact E1|].
  case_match; [by apply succeeds_ret|]. destruct (Hm 0x8001ff80) as [r2 E2].
  eapply opt_then; [exact E2|]. apply succeeds_ret. intros s' Hs'. split; [by case_match|done].
Qed.

Lemma field_ok ls ds o (f : rom_header → list Z) n initial : short n (literal initial) →
  (∀ h, o = Some h → length (f h) = n) →
  succeeds (state_is ls ds) (field o f n initial) (λ t s, short n t ∧ state_is ls ds s).
Proof.
  intros Hi Hf. unfold field. destruct o as [h|]; [|by apply succeeds_ret].
  specialize (Hf h eq_refl). destruct (copy_field_total n (f h)) as [l El]; [lia|].
  eapply opt_then; [exact El|]. apply succeeds_ret. intros s Hs. split; [|done].
  destruct (copy_field_ok _ _ _ El) as [Hl Hn]. exists l. split; [split; [done|by exists []]|lia].
Qed.

Lemma short_mono n m t : short n t → (n <= m)%nat → short m t.
Proof. intros (w & Hw & Hl) Hm. exists w. split; [done|lia]. Qed.

Lemma addin_id_ok id : fits_id id → short 9 (splice 0 id (replicate 10 0)).
Proof.
  intros [(w & Hw & r & ->) Hl]. rewrite length_app in Hl. cbn [length] in Hl.
  exists w. split; [|lia]. split; [done|].
  unfold splice. rewrite take_0, <- app_assoc. cbn. by eexists.
Qed.

(** [call_then], from a known state. *)
Lemma call_from {A B} s0 (g : E → A * E) (f : A → K B) Q :
  succeeds (state_is (lines s0) (drawings s0)) (f (g (outside s0)).1) Q →
  succeeds (λ s, s = s0) (call g ≫= f) Q.
Proof.
  intros Hf s ->. destruct (g (outside s0)) as [a e'] eqn:Eg.
  destruct (Hf (Info e' (lines s0) (report s0) (drawings s0))) as (b & s' & Eb & Hb); [done|].
  exists b, s'. split; [|done]. unfold call, mbind, res_mbind. by rewrite Eg.
Qed.

Lemma gather_ok ctx s0 : fits_id (sys_dict_info (outside s0)).1.2 →
  succeeds (λ s, s = s0) (collect ctx) (λ f s, good_facts f ∧ state_is (lines s0) (drawings s0) s).
Proof.
  intros Hid. unfold collect. eapply succeeds_know; [apply find_rom_header_ok|]. intros o Ho.
  apply get_from. destruct (external_ram_size_total o (reg32 0xff000030 (outside s0)) Ho) as [r Er].
  eapply opt_then; [exact Er|]. apply call_from. destruct Hid as [Hc Hlen]. pose proof (addin_id_ok _ (conj Hc Hlen)) as Hs.
  destruct (sys_dict_info (outside s0)) as [[drv id] e']. cbn [fst snd] in *.
  rewrite decide_True by done. apply (succeeds_know _ _ _ (λ a, short 9 a)); [by apply succeeds_ret|].
  intros id' Hid'. do 3 (apply call_then; intros ?; destruct (_ : (Z * Z) * E).1).
  apply (succeeds_then); [case_match; [|by apply succeeds_ret];
    eapply succeeds_conseq; [apply call_ok|by intros ? ? []]|]. intros [cfs cf].
  eapply succeeds_know; [apply field_ok; [apply literal_short; done|by intros h ->; apply Ho]|]. intros t1 Ht1.
  eapply succeeds_know; [apply field_ok; [apply literal_short; done|by intros h ->; apply Ho]|]. intros t2 Ht2.
  apply succeeds_ret. intros s Hs'. split; [|done]. split_and!; [done..|apply (short_mono 4); [done|lia]].
Qed.

(** An identifier that is longer is stored behind the array. *)
Lemma long_identifier_overruns ctx s : (10 < length (sys_dict_info (outside s)).1.2)%nat →
  collect ctx s = Fault OutOfBounds.
Proof.
  intros Hlen. unfold collect. destruct (find_rom_header_ok s s eq_refl) as (o & s' & Eo & Ho & ->).
  destruct (external_ram_size_total o (reg32 0xff000030 (outside s)) Ho) as [r Er].
  unfold mbind, res_mbind. rewrite Eo. cbn. rewrite Er. cbn. unfold call.
  destruct (sys_dict_info (outside s)) as [[drv id] e']. cbn [fst snd] in *.
  by rewrite decide_False by lia.
Qed.

(** ** The lines and the report *)

Definition line_fits (l : list Z) : Prop := (length l < 64)%nat.

Lemma format_line_ok fmt args ls ds : entry_ok (fmt, args) →
  succeeds (state_is ls ds) (format_line fmt args) (λ l s, line_fits l ∧ state_is ls ds s).
Proof.
  intros (bs & n & Hf & Hb & Hn). destruct (vsprintf_at_most _ _ _ _ Hf Hb) as (w & Ew & Hw & Hl).
  cbn in Ew. unfold format_line. eapply opt_then; [exact Ew|]. cbv beta match.
  rewrite (proj2 (Z.leb_le _ _)) by (unfold zlen, LINE_LENGTH; rewrite length_app; cbn; lia).
  eapply opt_then; [by apply (strlen_c_string w [])|]. apply succeeds_ret. intros s Hs. split; [|done].
  unfold line_fits, zlen. rewrite Nat2Z.id, take_app_length. lia.
Qed.

Lemma add_lines_ok l ls ds : Forall entry_ok l → (length ls + length l <= MAX_LINES)%nat →
  succeeds (state_is ls ds) (add_lines l) (λ _ s, ∃ ws, state_is (ls ++ ws) ds s ∧
    Forall line_fits ws ∧ length ws = length l).
Proof.
  revert ls. induction l as [|[fmt args] l IH]; intros ls Hl Hn; cbn [add_lines].
  { apply succeeds_ret. intros s Hs. exists []. rewrite app_nil_r. by split_and!. }
  inversion Hl as [|? ? He Hl']; subst. cbn [length] in Hn.
  apply (succeeds_bind _ _ _ (λ _ s, ∃ w, line_fits w ∧ state_is (ls ++ [w]) ds s)).
  - unfold add_line. apply get_then. intros s [-> _]. rewrite decide_False by lia.
    eapply succeeds_know; [by apply format_line_ok|]. intros w Hw s' [<- Hds].
    eexists tt, _. split; [done|]. by exists w.
  - intros _ s (w & Hw & Hs).
    destruct (IH (ls ++ [w]) Hl') with (s := s) as (a & s' & Ea & ws & Hs' & Hws & Hlen);
      [rewrite length_app; cbn; lia|done|].
    exists a, s'. split; [done|]. exists (w :: ws). rewrite <- app_assoc in Hs'.
    split; [done|]. split; [by constructor|cbn; by f_equal].
Qed.

(** All lines, each with its end. *)
Definition whole (ls : list (list Z)) : list Z := concat (map (λ l, l ++ [13; 10]) ls).

Lemma report_whole ls offset : offset + zlen (whole ls) < REPORT_LENGTH → report_of ls offset = whole ls.
Proof.
  revert offset. induction ls as [|l ls IH]; intros offset Ho; [done|]. cbn [report_of].
  unfold whole in *. cbn [map concat] in *. rewrite !zlen_app in Ho.
  change (zlen [13; 10]) with 2 in Ho. pose proof (zlen_nonneg (concat (map (λ l, l ++ [13; 10]) ls))).
  destruct (Z.geb_spec (offset + zlen l + 2) REPORT_LENGTH); [lia|].
  rewrite IH by lia. by rewrite <- app_assoc.
Qed.

Lemma whole_length ls : Forall line_fits ls → zlen (whole ls) <= 65 * zlen ls.
Proof.
  induction 1 as [|l ls Hl Hls IH]; [done|]. unfold whole in *. cbn [map concat].
  rewrite !zlen_app. change (zlen [13; 10]) with 2. rewrite zlen_cons.
  unfold line_fits, zlen in *. lia.
Qed.

(** ** Drawing *)

(** [width]: of a character of the font, which is of 16 lines. *)
Definition on_screen (width : Z) (d : draw) : Prop :=
  match d with
  | RenderText x y t => 0 <= x ∧ 0 <= y <= SCREEN_HEIGHT - 16 ∧ x + width * zlen t <= SCREEN_WIDTH
  | DrawRect x y w h => 0 <= x ∧ 0 <= y ∧ x + w <= SCREEN_WIDTH ∧ y + h <= SCREEN_HEIGHT
  | SetPen _ _ _ | CopyVram => True
  end.

(** The lines stay, the report too, and what is drawn is on the screen. *)
Definition shown (width : Z) (ls : list (list Z)) (rp : list Z) s : Prop :=
  lines s = ls ∧ report s = rp ∧ Forall (on_screen width) (drawings s).

Section Pages.
Context (width : Z) (Hwidth : 0 <= width <= 8).
Context (ls : list (list Z)) (rp : list Z) (fit : Forall line_fits ls).

Lemma line_on_screen y t : 0 <= y <= 304 → line_fits t → on_screen width (RenderText 8 y t).
Proof.
  unfold on_screen, line_fits, zlen, SCREEN_HEIGHT, SCREEN_WIDTH. intros Hy Ht. split_and!; [lia..|].
  assert (width * Z.of_nat (length t) <= 8 * Z.of_nat (length t)) by (apply Z.mul_le_mono_nonneg_r; lia). lia.
Qed.

Lemma draw_ok d : on_screen width d → succeeds (shown width ls rp) (draw_call d) (λ _, shown width ls rp).
Proof.
  intros Hd s (H4 & H5 & H6). eexists tt, _. split; [done|]. split_and!; [done..|].
  cbn. apply Forall_app. split; [done|by apply Forall_singleton].
Qed.

Lemma shown_call {A} (g : E → A * E) : succeeds (shown width ls rp) (call g) (λ _, shown width ls rp).
Proof. intros s Hs. unfold call. destruct (g (outside s)) as [a e']. by eexists a, _. Qed.

Lemma shown_get {A B} (g : info E → A) (f : A → K B) Q :
  (∀ s, shown width ls rp s → succeeds (shown width ls rp) (f (g s)) Q) →
  succeeds (shown width ls rp) (res_get g ≫= f) Q.
Proof. intros Hf s Hs. destruct (Hf s Hs s Hs) as (a & s' & Ea & Ha). by exists a, s'. Qed.

Lemma render_lines_ok n index y : 0 <= y → y + 16 * Z.of_nat n <= 304 →
  succeeds (shown width ls rp) (render_lines n index y) (λ _, shown width ls rp).
Proof.
  revert index y. induction n as [|n IH]; intros index y Hy Hn; cbn [render_lines]; [by apply succeeds_ret|].
  apply shown_get. intros s (-> & _ & _). destruct (ls !! Z.to_nat index) as [l|] eqn:El; [|by apply succeeds_ret].
  apply succeeds_then; [apply draw_ok; by repeat case_match|]. intros _.
  apply succeeds_then; [apply draw_ok|intros _; apply IH; lia].
  apply line_on_screen; [lia|]. by eapply Forall_lookup_1.
Qed.

Lemma footer_ok page count status : entry_ok (literal "LEFT/RIGHT: pages  BACK: exit  %u/%u  SAVE:%s",
  [AInt (page + 1); AInt count; AStr (Some (if status =? 0 then literal "OK" else literal "ERR"))]).
Proof.
  exists [BInt; BInt; BStr 3], 62%nat. split; [|split; [vm_compute; reflexivity|lia]].
  repeat constructor. assert (short 3 (if status =? 0 then literal "OK" else literal "ERR")) as (w & Hw & Hl).
  { case_match; apply literal_short; vm_compute; reflexivity. }
  by econstructor.
Qed.

Lemma format_shown fmt args : entry_ok (fmt, args) →
  succeeds (shown width ls rp) (format_line fmt args) (λ l s, line_fits l ∧ shown width ls rp s).
Proof.
  intros He s (H4 & H5 & H6). destruct (format_line_ok fmt args (lines s) (drawings s) He s) as (l & s' & El & Hl & _);
    [done|]. exists l, s'. split; [done|]. split; [done|].
  revert El. unfold format_line. destruct (vsprintf fmt args) as [[k [t|]]|]; try done.
  cbn. unfold mbind, res_mbind. cbn. destruct (zlen t <=? LINE_LENGTH); [|done]. destruct (strlen t); [|done].
  by intros [= _ <-].
Qed.

Ltac on_screen :=
  first [exact I | apply line_on_screen; [lia|unfold line_fits; cbn; lia]
        | cbn [on_screen]; split_and!; first [lia | vm_compute; done | vm_compute; lia]].

Lemma render_page_ok page count status :
  succeeds (shown width ls rp) (render_page page count status) (λ _, shown width ls rp).
Proof.
  unfold render_page. do 6 (apply succeeds_then; [apply draw_ok; on_screen|intros _]).
  apply succeeds_then; [by apply render_lines_ok|]. intros _.
  do 2 (apply succeeds_then; [apply draw_ok; on_screen|intros _]).
  apply succeeds_then; [apply draw_ok; by case_match|]. intros _.
  eapply succeeds_know; [apply format_shown, footer_ok|]. intros t Ht.
  apply succeeds_then; [apply draw_ok, line_on_screen; [lia|done]|]. intros _. by apply draw_ok.
Qed.

Lemma any_ok keys (g : key → E → Z * E) : succeeds (shown width ls rp) (any keys g) (λ _, shown width ls rp).
Proof.
  induction keys as [|k keys IH]; cbn [any]; [by apply succeeds_ret|].
  apply succeeds_then; [apply shown_call|]. intros v. case_match; [by apply succeeds_ret|done].
Qed.

Lemma show_ok fuel page count status :
  succeeds (shown width ls rp) (show fuel page count status) (λ _, shown width ls rp).
Proof.
  revert page. induction fuel as [|fuel IH]; intros page; cbn [show]; [by apply succeeds_ret|].
  apply succeeds_then; [apply shown_call|]. intros _. apply succeeds_then; [apply any_ok|]. intros [].
  { by apply succeeds_ret. }
  apply succeeds_then; [apply any_ok|]. intros f. apply succeeds_then.
  { destruct f; [|by apply succeeds_ret]. apply succeeds_then; [apply render_page_ok|]. intros _. by apply succeeds_ret. }
  intros page1. apply succeeds_then; [apply any_ok|]. intros b. apply succeeds_then; [|intros; apply IH].
  destruct b; [|by apply succeeds_ret]. apply succeeds_then; [apply render_page_ok|]. intros _. by apply succeeds_ret.
Qed.

Lemma save_report_ok path length :
  succeeds (shown width ls rp) (save_report path length) (λ _, shown width ls rp).
Proof.
  unfold save_report. apply succeeds_then; [apply shown_call|]. intros _.
  apply succeeds_then; [apply shown_call|]. intros r. case_match; [by apply succeeds_ret|].
  apply succeeds_then; [apply shown_call|]. intros d. case_match; [by apply succeeds_ret|].
  apply shown_get. intros s _. apply succeeds_then; [apply shown_call|]. intros w.
  apply succeeds_then; [apply shown_call|]. intros _. by apply succeeds_ret.
Qed.
End Pages.

(** C23: The report is complete and nothing is overrun.  Whatever the registers,
    the header, the disks and the keys say, and given that the identifier the firmware
    stores fits its ten bytes ([long_identifier_overruns]: nothing else bounds it), the
    add-in never writes behind an array: all of its 61 lines are kept, each shorter
    than its 64 bytes, the report is all of them, within its 6144 bytes, and every
    rectangle and every text of every page is drawn inside the screen, with a font of
    at most 8 by 16 pixels. *)
Theorem report_complete (fuel : nat) (ctx width : Z) (s : info E) : lines s = [] → drawings s = [] →
  fits_id (sys_dict_info (outside s)).1.2 → 0 <= width <= 8 →
  ∃ r s', main fuel ctx s = Ok r s' ∧ length (lines s') = 61%nat ∧ Forall line_fits (lines s') ∧
    report s' = whole (lines s') ∧ zlen (report s') < REPORT_LENGTH ∧
    Forall (on_screen width) (drawings s').
Proof.
  intros Hl Hd Hid Hwidth.
  assert (succeeds (λ s', s' = s) (main fuel ctx) (λ _ s', length (lines s') = 61%nat ∧
    Forall line_fits (lines s') ∧ report s' = whole (lines s') ∧ zlen (report s') < REPORT_LENGTH ∧
    Forall (on_screen width) (drawings s'))) as Hm; [|exact (Hm s eq_refl)].
  unfold main. eapply succeeds_learn; [by apply gather_ok|]. intros f Hf. rewrite Hl, Hd.
  eapply succeeds_bind; [apply add_lines_ok; [by apply all_lines_ok|cbn; unfold MAX_LINES; lia]|]. cbn beta.
  intros _ s1 (ws & [Hls Hds] & Hws & Hlen). cbn in Hls, Hlen.
  assert (zlen (whole ws) < REPORT_LENGTH) as Hrep.
  { pose proof (whole_length ws Hws). unfold zlen, REPORT_LENGTH in *. lia. }
  pose proof (report_whole ws 0 Hrep) as Hw.
  assert (succeeds (shown width ws (whole ws))
    (save_status ← save_report (removelast (report_path f)) (zlen (report_of ws 0));
     n ← res_get (λ s, zlen (lines s));
     render_page 0 ((n + LINES_PER_PAGE - 1) / LINES_PER_PAGE) save_status;;
     show fuel 0 ((n + LINES_PER_PAGE - 1) / LINES_PER_PAGE) save_status) (λ _, shown width ws (whole ws))) as Hrest.
  { apply succeeds_then; [by apply save_report_ok|]. intros st. apply shown_get. intros s2 _.
    apply succeeds_then; [by apply render_page_ok|]. intros _. by apply show_ok. }
  edestruct (Hrest (Info (outside s1) (lines s1) (report_of ws 0) (drawings s1))) as (r & s' & Er & H4 & H5 & H6).
  { split_and!; [done..|]. by rewrite Hds. }
  exists r, s'. split.
  - rewrite <- Er. unfold make_report, res_get, res_upd, mbind, res_mbind. cbn. by rewrite Hls.
  - rewrite H4, H5. split_and!; done.
Qed.
End Run.

(** ** A concrete dictionary *)

Module Dictionary.
Record dictionary := Dictionary { keys : list Z }.

#[global] Instance calls : Syscalls dictionary := {|
  Stdio.sys_open _ _ e := (3, e); Stdio.sys_create _ _ e := (0, e); Stdio.sys_delete _ e := (0, e);
  Stdio.sys_close _ e := (0, e); Stdio.sys_seek _ _ _ e := (0, e); Stdio.sys_read _ _ e := ((0, []), e);
  Stdio.sys_write _ bs e := (zlen bs, e); Stdio.sys_get_filesize _ e := (0, e);
  sys_dict_info e := ((1, str "SYSINFO" ++ [0]), e);
  Stdio.malloc _ e := (0, e); Stdio.free _ e := (0, e); Stdio.FILE_RD := 1; Stdio.FILE_WR := 2;
|}.

#[global] Instance machine : Machine dictionary := {|
  reg32 a e := u32 (a * 0x9e3779b1); read_sr e := 0x400000f0; read_vbr e := 0x80000000; read_gbr e := 0;
  little_endian := false;
  memory a n e := map (λ i, default 0
    ((str "CASIODICS000" ++ str "C160") !! Z.to_nat (a - 0x8001ff80 + Z.of_nat i))) (seq 0 n);
  sys_totaldiskspace _ e := ((0, 4294967295), e); sys_freediskspace _ e := ((-2147483648, 1), e);
  keypad_read e := (tt, e);
  get_key_state k e := (match k, keys e with KEY_BACK, [] => 1 | _, _ => 0 end, e);
  get_key_pressed k e := match keys e with [] => (0, e) | v :: l => (v, Dictionary l) end;
|}.

#[global] Instance dictionary_ok : MachineOk dictionary.
Proof. intros a n e. cbn. by rewrite length_map, length_seq. Qed.
End Dictionary.

Lemma report_complete_witness :
  ∃ r s', main 20 0x12345678 (Info (Dictionary.Dictionary [0; 0; 0; 1; 1]) [] [] []) = Ok r s' ∧
    length (lines s') = 61%nat ∧ Forall line_fits (lines s') ∧ report s' = whole (lines s') ∧
    zlen (report s') < REPORT_LENGTH ∧ Forall (on_screen 8) (drawings s').
Proof.
  apply report_complete; [reflexivity|reflexivity| |lia]. split; [|cbn; lia].
  exists (str "SYSINFO"). split; [compute_dec|by exists []].
Defined.

(** There it leaves with the last key, with the report saved. *)
Example report_ends : ∃ s',
  main 20 0x12345678 (Info (Dictionary.Dictionary [0; 0; 0; 1; 1]) [] [] []) = Ok (Some (-2)) s' ∧
  zlen (report s') = 1771.
Proof. eexists. split; vm_compute; reflexivity. Qed.
