(* ===== verification/Traced.v ===== *)
(** * Programs that ask the system

    A program whose effects are requests to the system, each answered with a
    number: the answers are an arbitrary function of the state of the outside,
    and every request is logged with its answer.  A monitor reads the log; the
    triples below are about what it has seen.  The programs of the second
    display and its touch panel ([SubpadMouse], [TouchDiag], [SubLcd]) are
    written in this way, and so are [Clock], [Lcd], [Boot], [Gate] and
    [FileLite]. *)

From S2P Require Import Prelude.

(** ** Requests *)

Class Answers (R E : Type) := answer : R → E → Z * E.

(** The log has the last request first. *)
Record world (R E : Type) := World { env : E; trace : list (R * Z) }.
Arguments World {R E}.
Arguments env {R E}.
Arguments trace {R E}.

Section Requests.
Context {R E : Type} `{Answers R E}.
Abbreviation K := (st (world R E)).

Definition ask (r : R) : K Z := λ w,
  let '(v, e) := answer r (env w) in (v, World e ((r, v) :: trace w)).
Definition tell (r : R) : K unit := _ ← ask r; mret tt.

(** [c1 && c2] on questions, and a whole list of them. *)
Definition and_then (c1 c2 : K bool) : K bool := b ← c1; if b : bool then c2 else mret false.
Fixpoint for_all {A} (f : A → K bool) (l : list A) : K bool :=
  match l with [] => mret true | a :: l => and_then (f a) (for_all f l) end.

Definition equals (r : R) (v : Z) : K bool := a ← ask r; mret (a =? v).
Definition not_negative (r : R) : K bool := a ← ask r; mret (0 <=? a).
End Requests.

(** ** Monitors *)

Section Monitor.
Context {R E G : Type} `{Answers R E} {observe : G → R * Z → G} {start : G}.
Abbreviation K := (st (world R E)).
Implicit Types (P : G → Prop) (g : G).

(** What the monitor knows after the requests so far. *)
Definition seen (w : world R E) : G := foldr (λ rv g, observe g rv) start (trace w).

Definition hoare {A} P (m : K A) (Q : A → G → Prop) : Prop :=
  triple (λ w, P (seen w)) m (λ a w, Q a (seen w)).

Lemma hoare_ret {A} P (a : A) (Q : A → G → Prop) : (∀ g, P g → Q a g) → hoare P (mret a) Q.
Proof. intros HQ. apply triple_ret. intros w. apply HQ. Qed.

Lemma hoare_bind {A B} P (m : K A) (f : A → K B) S Q :
  hoare P m S → (∀ a, hoare (S a) (f a) Q) → hoare P (m ≫= f) Q.
Proof. apply triple_bind. Qed.

Lemma hoare_ask P r Q : (∀ g v, P g → Q v (observe g (r, v))) → hoare P (ask r) Q.
Proof.
  intros HQ w a w' Hw. unfold ask. destruct (answer r (env w)) as [v e]. intros [= <- <-].
  by apply HQ.
Qed.

Lemma hoare_conseq {A} P P' (m : K A) (Q Q' : A → G → Prop) :
  hoare P m Q → (∀ g, P' g → P g) → (∀ a g, Q a g → Q' a g) → hoare P' m Q'.
Proof. intros Hm HP HQ. eapply triple_conseq; [apply Hm| |]; [intros w; apply HP|intros a w; apply HQ]. Qed.

Lemma hoare_pre {A} P (m : K A) Q : (∀ g, P g → hoare (λ g', g' = g) m Q) → hoare P m Q.
Proof. intros Hm w a w' Hw. by apply (Hm (seen w)). Qed.

(** A step that ends in what the rest begins with, whatever it answers. *)
Lemma hoare_step {A B} P S (m : K A) (f : A → K B) Q :
  hoare P m (λ _, S) → (∀ a, hoare S (f a) Q) → hoare P (m ≫= f) Q.
Proof. intros Hm Hf. by apply (hoare_bind _ _ _ (λ _, S)). Qed.

Lemma hoare_tell P r Q : (∀ g v, P g → Q (observe g (r, v))) → hoare P (tell r) (λ _, Q).
Proof. intros HQ. apply (hoare_step _ Q); [by apply hoare_ask|]. intros v. by apply hoare_ret. Qed.

(** A computation the monitor does not notice, from a given state of it. *)
Definition same {A} g (m : K A) : Prop := hoare (λ g', g' = g) m (λ _ g', g' = g).

Lemma same_ret {A} g (a : A) : same g (mret a).
Proof. by apply hoare_ret. Qed.
Lemma same_bind {A B} g (m : K A) (f : A → K B) :
  same g m → (∀ a, same g (f a)) → same g (m ≫= f).
Proof. intros Hm Hf. by apply (hoare_bind _ _ _ (λ _ g', g' = g)). Qed.
Lemma same_ask g r : (∀ v, observe g (r, v) = g) → same g (ask r).
Proof. intros Hg. apply hoare_ask. by intros ? v ->. Qed.
Lemma same_for_all {A} g (f : A → K bool) l : (∀ a, same g (f a)) → same g (for_all f l).
Proof.
  intros Hf. induction l as [|a l IH]; cbn [for_all]; [apply same_ret|]. unfold and_then.
  apply same_bind; [done|]. intros [|]; [done|apply same_ret].
Qed.

(** A step that the monitor does not notice, in front of another or alone. *)
Lemma hoare_same {A B} P (m : K A) (f : A → K B) Q :
  (∀ g, P g → same g m) → (∀ a, hoare P (f a) Q) → hoare P (m ≫= f) Q.
Proof.
  intros Hm Hf. apply hoare_pre. intros g Hg. apply (hoare_bind _ _ _ (λ _ g', g' = g)); [by apply Hm|].
  intros a. eapply hoare_conseq; [apply Hf| |done]. by intros ? ->.
Qed.

Lemma same_hoare {A} P (m : K A) : (∀ g, P g → same g m) → hoare P m (λ _, P).
Proof.
  intros Hm. apply hoare_pre. intros g Hg. eapply hoare_conseq; [by apply Hm|done|]. by intros ? ? ->.
Qed.
(** A computation that preserves what the monitor knows. *)
Definition keeps {A} P (m : K A) : Prop := hoare P m (λ _, P).

Lemma log_keeps_ret {A} P (a : A) : keeps P (mret a).
Proof. by apply hoare_ret. Qed.
Lemma log_keeps_bind {A B} P (m : K A) (f : A → K B) :
  keeps P m → (∀ a, keeps P (f a)) → keeps P (m ≫= f).
Proof. intros Hm Hf. by apply (hoare_bind _ _ _ (λ _, P)). Qed.
Lemma keeps_ask P r : (∀ g v, P g → P (observe g (r, v))) → keeps P (ask r).
Proof. apply hoare_ask. Qed.
Lemma keeps_for_all {A} P (f : A → K bool) l : (∀ a, keeps P (f a)) → keeps P (for_all f l).
Proof.
  intros Hf. induction l as [|a l IH]; cbn [for_all]; [apply log_keeps_ret|]. unfold and_then.
  apply log_keeps_bind; [done|]. intros [|]; [done|apply log_keeps_ret].
Qed.

(** A preserving step, in front of another. *)
Lemma hoare_keeps {A B} P (m : K A) (f : A → K B) Q :
  keeps P m → (∀ a, hoare P (f a) Q) → hoare P (m ≫= f) Q.
Proof. apply hoare_step. Qed.

(** Stepping from a known state. *)
Lemma step_ask {A} g r (f : Z → K A) Q :
  (∀ v, hoare (λ g', g' = observe g (r, v)) (f v) Q) → hoare (λ g', g' = g) (ask r ≫= f) Q.
Proof.
  intros Hf. apply (hoare_bind _ _ _ (λ v g', g' = observe g (r, v))); [|done].
  apply hoare_ask. by intros ? v ->.
Qed.

Lemma step_tell {A} g r (f : unit → K A) Q :
  (∀ v, hoare (λ g', g' = observe g (r, v)) (f tt) Q) → hoare (λ g', g' = g) (tell r ≫= f) Q.
Proof.
  intros Hf. apply (hoare_bind _ _ _ (λ _ g', ∃ v, g' = observe g (r, v))).
  - apply hoare_tell. intros ? v ->. by exists v.
  - intros []. apply hoare_pre. intros ? [v ->]. apply Hf.
Qed.

Lemma step_ret {A} g (a : A) (Q : A → G → Prop) : Q a g →
  hoare (λ g', g' = g) (mret a : K A) Q.
Proof. intros HQ. apply hoare_ret. by intros ? ->. Qed.

(** A question the monitor does not notice. *)
Lemma step_same {A B} g (m : K A) (f : A → K B) Q :
  same g m → (∀ a, hoare (λ g', g' = g) (f a) Q) →
  hoare (λ g', g' = g) (m ≫= f) Q.
Proof. intros Hm Hf. by apply (hoare_bind _ _ _ (λ _ g', g' = g)). Qed.
End Monitor.
Arguments keeps {R E G} observe start {A} P m.
Arguments seen {R E G} observe start w.
Arguments hoare {R E G} observe start {A} P m Q.
Arguments same {R E G} observe start {A} g m.

(** Composition of computations that preserve what is known. *)
Create HintDb keeps.
#[export] Hint Resolve log_keeps_ret keeps_for_all : keeps.

Ltac keeps :=
  try match goal with |- hoare ?o ?s ?P ?m _ => change (keeps o s P m) end;
  repeat match goal with
  | |- keeps _ _ _ (_ ≫= _) => apply log_keeps_bind; [|intros ?]
  | |- keeps _ _ _ (match ?x with _ => _ end) => destruct x
  | |- keeps _ _ _ (let '(_, _) := ?x in _) => destruct x
  | |- keeps _ _ _ _ => solve [auto with keeps]
  | |- keeps _ _ _ _ => progress cbv zeta
  end.

(** Composition of computations the monitor does not notice. *)
Create HintDb same.
#[export] Hint Resolve same_ret same_for_all : same.
#[export] Hint Extern 1 (same _ _ _ (ask _)) => (apply same_ask; intros; reflexivity) : same.

Ltac same :=
  repeat match goal with
  | |- same _ _ _ (_ ≫= _) => apply same_bind; [|intros ?]
  | |- same _ _ _ (match ?x with _ => _ end) => destruct x
  | |- same _ _ _ (let '(_, _) := ?x in _) => destruct x
  | |- same _ _ _ _ => solve [auto with same]
  | |- same _ _ _ _ => progress cbv zeta
  end.
