(* ===== verification/Clock.v ===== *)
(** * The clock of the payload programs ([src/experiments/hello-world/src/libc/time.c])

    [time] reads the registers of the real time clock until none of them was
    carried over meanwhile, and converts the date to seconds.  The registers are
    requests to the system ([Traced]); [RtcOk] states what the hardware promises
    about the carry flag.  The reference is a calendar that adds up the lengths
    of years and months. *)

From S2P Require Import Prelude Traced.

(** ** The registers *)

Inductive reg : Type :=
| RTC_RCR1 | RTC_RSECCNT | RTC_RMINCNT | RTC_RHRCNT | RTC_RWKCNT | RTC_RDAYCNT | RTC_RMONCNT
| RTC_RYRCNT.
#[export] Instance reg_eq_dec : EqDecision reg.
Proof. solve_decision. Defined.

Inductive request : Type := Load (r : reg) | Store (r : reg) (v : Z).

(** The year register has 16 bits, the others 8. *)
Definition width (r : reg) (v : Z) : Z := match r with RTC_RYRCNT => u16 v | _ => u8 v end.

(** [struct tm]; the fields are [int]s. *)
Record tm := Tm {
  tm_sec : Z; tm_min : Z; tm_hour : Z; tm_mday : Z; tm_mon : Z; tm_year : Z; tm_wday : Z;
  tm_yday : Z; tm_isdst : Z;
}.

Definition bcd2bin (bcd : Z) : Z := u8 (Z.land bcd 0xf + Z.shiftr bcd 4 * 10).

(** [(bcd2bin(RTC_RYRCNT >> 8) * 100) | bcd2bin(RTC_RYRCNT & 0xff)], from two reads. *)
Definition bcd_year (high low : Z) : Z :=
  Z.lor (bcd2bin (u8 (Z.shiftr high 8)) * 100) (bcd2bin (Z.land low 0xff)).

(** [my_mktime] on [unsigned int]s. *)
Definition my_mktime (year mon day hour min sec : Z) : Z :=
  let mon := u32 (mon - 2) in
  let '(mon, year) := if s32 mon <=? 0 then (u32 (mon + 12), u32 (year - 1)) else (mon, year) in
  u32 (u32 (u32 ((year / 4 - year / 100 + year / 400 + u32 (367 * mon) / 12 + day
                  + year * 365 - 719499) * 24 + hour) * 60 + min) * 60 + sec).

Section Reading.
Context {E : Type} `{Answers request E}.
Abbreviation K := (st (world request E)).

Definition load (r : reg) : K Z := v ← ask (Load r); mret (width r v).

(** One round of the loop: what was read, and the carry flag. *)
Definition rtc_round : K (tm * bool) :=
  r ← load RTC_RCR1;
  tell (Store RTC_RCR1 (Z.land r 0x6f));;
  sec ← load RTC_RSECCNT;
  min ← load RTC_RMINCNT;
  hour ← load RTC_RHRCNT;
  wday ← load RTC_RWKCNT;
  mday ← load RTC_RDAYCNT;
  mon ← load RTC_RMONCNT;
  high ← load RTC_RYRCNT;
  low ← load RTC_RYRCNT;
  carry ← load RTC_RCR1;
  mret (Tm (bcd2bin sec) (bcd2bin min) (bcd2bin hour) (bcd2bin mday) (bcd2bin mon)
          (bcd_year high low) wday 0 (-1), negb (Z.land carry 0x80 =? 0)).

(** [fuel] rounds; [None] where all of them saw a carry. *)
Fixpoint rtc_gettime (fuel : nat) : K (option tm) :=
  match fuel with
  | O => mret None
  | S fuel => '(t, carry) ← rtc_round; if carry : bool then rtc_gettime fuel else mret (Some t)
  end.

(** The value, and what is stored where [t] is not null. *)
Definition time (fuel : nat) (t : bool) : K (option (Z * option Z)) :=
  tm ← rtc_gettime fuel;
  mret (tm ← tm;
        let val := my_mktime (tm_year tm) (tm_mon tm) (tm_mday tm) (tm_hour tm) (tm_min tm)
                     (tm_sec tm) in
        Some (val, if t then Some val else None)).
End Reading.

(** ** The calendar *)

Record date := Date { year : Z; month : Z; day : Z; hour : Z; minute : Z; second : Z }.

Definition leap (y : Z) : bool :=
  (y mod 4 =? 0) && negb (y mod 100 =? 0) || (y mod 400 =? 0).
Definition year_days (y : Z) : Z := if leap y then 366 else 365.
Definition month_days (y : Z) : list Z :=
  [31; if leap y then 29 else 28; 31; 30; 31; 30; 31; 31; 30; 31; 30; 31].

(** The days from the beginning of 1970 to the beginning of the year that is
    [n] years later. *)
Fixpoint days_before_year (n : nat) : Z :=
  match n with O => 0 | S n => days_before_year n + year_days (1970 + Z.of_nat n) end.
Definition days_before_month (y m : Z) : Z := foldr Z.add 0 (take (Z.to_nat (m - 1)) (month_days y)).

Definition seconds (d : date) : Z :=
  (days_before_year (Z.to_nat (year d - 1970)) + days_before_month (year d) (month d) + (day d - 1))
    * 86400 + hour d * 3600 + minute d * 60 + second d.

Definition valid (d : date) : Prop :=
  1970 <= year d ∧ 1 <= month d <= 12 ∧
  1 <= day d <= default 0 (month_days (year d) !! Z.to_nat (month d - 1)) ∧
  0 <= hour d < 24 ∧ 0 <= minute d < 60 ∧ 0 <= second d < 60.
#[export] Instance valid_dec d : Decision (valid d).
Proof. unfold valid. apply _. Defined.

(** ** The conversion *)

Lemma u32_mul_add a b c : u32 (u32 a * b + c) = u32 (a * b + c).
Proof.
  unfold u32. rewrite Z.add_mod, Z.mul_mod_idemp_l by lia. by rewrite <- Z.add_mod by lia.
Qed.

Lemma u32_time_of_day days h mi s :
  u32 (u32 (u32 (days * 24 + h) * 60 + mi) * 60 + s)
  = u32 (days * 86400 + h * 3600 + mi * 60 + s).
Proof.
  rewrite u32_mul_add, Z.mul_add_distr_r, <- (Z.mul_assoc _ 60 60), <- Z.add_assoc, u32_mul_add.
  f_equal. lia.
Qed.

Lemma leap_step y : 1 <= y →
  (if leap y then 1 else 0)
  = y / 4 - (y - 1) / 4 - (y / 100 - (y - 1) / 100) + (y / 400 - (y - 1) / 400).
Proof.
  intros Hy. unfold leap.
  destruct (Z.eqb_spec (y mod 4) 0), (Z.eqb_spec (y mod 100) 0), (Z.eqb_spec (y mod 400) 0);
    cbn; Z.div_mod_to_equations; lia.
Qed.

Lemma days_before_year_closed n :
  days_before_year n
  = let y := 1970 + Z.of_nat n - 1 in y * 365 + y / 4 - y / 100 + y / 400 - 719162.
Proof.
  induction n as [|n IH]; [done|]. cbn [days_before_year]. rewrite IH. unfold year_days.
  pose proof (leap_step (1970 + Z.of_nat n)) as L. rewrite Nat2Z.inj_succ. cbv zeta.
  replace (1970 + Z.succ (Z.of_nat n) - 1) with (1970 + Z.of_nat n) by lia.
  destruct (leap _); lia.
Qed.

Lemma days_before_month_closed y m : 1 <= y → 1 <= m <= 12 →
  days_before_month y m
  = if m <=? 2 then 31 * (m - 1)
    else 367 * (m - 2) / 12 + 30
         + (y / 4 - (y - 1) / 4 - (y / 100 - (y - 1) / 100) + (y / 400 - (y - 1) / 400)) - 1.
Proof.
  intros Hy Hm. rewrite <- leap_step by done. unfold days_before_month, month_days.
  assert (Z.to_nat (m - 1) ∈ seq 0 12) as Hin by (apply elem_of_seq; lia).
  assert (m = Z.of_nat (Z.to_nat (m - 1)) + 1) as -> by lia.
  rewrite Z.add_simpl_r, Nat2Z.id. cbn [seq] in Hin. generalize dependent (Z.to_nat (m - 1)).
  intros k Hk. repeat (apply elem_of_cons in Hk as [->|Hk]); [..|by apply elem_of_nil in Hk];
    destruct (leap y); reflexivity.
Qed.

Lemma mktime_seconds d : 1970 <= year d < 2 ^ 31 → 1 <= month d <= 12 →
  my_mktime (year d) (month d) (day d) (hour d) (minute d) (second d) = u32 (seconds d).
Proof.
  intros Hy Hm. destruct d as [y m dd h mi s]. cbn in *.
  unfold my_mktime, seconds. cbn [year month day hour minute second].
  rewrite days_before_year_closed, days_before_month_closed by lia. cbv zeta.
  rewrite Z2Nat.id by lia.
  replace (1970 + (y - 1970) - 1) with (y - 1) by lia.
  assert (u32 (m - 2) = if m <? 2 then m - 2 + 2 ^ 32 else m - 2) as ->.
  { destruct (Z.ltb_spec m 2); [|apply u32_small; unfold is_u; lia].
    unfold u32. rewrite <- (Z.mod_add _ 1), Z.mod_small; lia. }
  destruct (Z.leb_spec m 2).
  - assert (m = 1 ∨ m = 2) as [-> | ->] by lia; cbn [Z.ltb Z.compare Pos.compare Pos.compare_cont];
      (change (s32 _ <=? 0) with true || replace (s32 _ <=? 0) with true by done);
      cbv match; rewrite u32_time_of_day, (u32_small (y - 1)) by (unfold is_u; lia); f_equal;
      (change (u32 (367 * _) / 12) with 336 || change (u32 (367 * _) / 12) with 367); lia.
  - rewrite (proj2 (Z.ltb_ge m 2)) by lia. rewrite s32_small by lia.
    rewrite (proj2 (Z.leb_gt (m - 2) 0)) by lia. rewrite u32_time_of_day. f_equal.
    rewrite (u32_small (367 * _)) by (unfold is_u; lia). lia.
Qed.

(** C33: [my_mktime] counts the seconds since 1970: for every date of the
    calendar the result is what adding up the lengths of the years, the months
    and the days gives, modulo the 32 bits of [unsigned long]. *)
Theorem mktime_exact (d : date) : valid d → year d < 2 ^ 31 →
  my_mktime (year d) (month d) (day d) (hour d) (minute d) (second d) = u32 (seconds d).
Proof. intros (Hy & Hm & _) Hmax. by apply mktime_seconds. Qed.

Lemma mktime_exact_witness :
  my_mktime 2024 2 29 12 30 5 = 1709209805 ∧ u32 (seconds (Date 2024 2 29 12 30 5)) = 1709209805.
Proof.
  assert (u32 (seconds (Date 2024 2 29 12 30 5)) = 1709209805) as E by (vm_compute; reflexivity).
  split; [|exact E]. rewrite <- E. apply (mktime_exact (Date 2024 2 29 12 30 5)); compute_dec.
Defined.

Lemma day_small d : valid d → 1 <= day d <= 31.
Proof.
  intros (_ & _ & Hd & _). split; [lia|]. destruct Hd as [_ Hd].
  destruct (month_days (year d) !! Z.to_nat (month d - 1)) as [n|] eqn:El; cbn in Hd; [|lia].
  etrans; [exact Hd|]. eapply (Forall_lookup_1 (λ n, n <= 31)); [|exact El].
  unfold month_days. destruct (leap _); compute_dec.
Qed.

(** ** What the hardware promises *)

Definition bcd (x : Z) : Z := x / 10 * 16 + x mod 10.
Definition encode (r : reg) (d : date) : Z :=
  match r with
  | RTC_RSECCNT => bcd (second d)
  | RTC_RMINCNT => bcd (minute d)
  | RTC_RHRCNT => bcd (hour d)
  | RTC_RDAYCNT => bcd (day d)
  | RTC_RMONCNT => bcd (month d)
  | RTC_RYRCNT => bcd (year d / 100) * 256 + bcd (year d mod 100)
  | RTC_RCR1 | RTC_RWKCNT => 0
  end.

(** The registers show a date of the calendar; it may change at any request, and
    then the carry flag, bit 7 of RCR1, is set until it is written with 0.  [ticks]
    bounds the changes that are still to come. *)
Class RtcOk (E : Type) `{Answers request E} := {
  shown : E → date;
  carried : E → bool;
  ticks : E → nat;
  rtc_valid e : valid (shown e) ∧ 2000 <= year (shown e) < 2106;
  rtc_load r e : r ≠ RTC_RCR1 → r ≠ RTC_RWKCNT →
    (answer (Load r) e).1 = encode r (shown (answer (Load r) e).2);
  rtc_flag e : Z.testbit (answer (Load RTC_RCR1) e).1 7 = carried (answer (Load RTC_RCR1) e).2;
  rtc_tick r e : let e' := (answer (Load r) e).2 in
    (shown e' = shown e ∧ carried e' = carried e ∧ (ticks e' <= ticks e)%nat)
    ∨ (carried e' = true ∧ (ticks e' < ticks e)%nat);
  rtc_clear v e : Z.testbit v 7 = false → let e' := (answer (Store RTC_RCR1 v) e).2 in
    (ticks e' <= ticks e)%nat ∧ (carried e' = false ∨ (ticks e' < ticks e)%nat);
}.

(** ** Reading while the clock runs *)

Section Running.
Context {E : Type} `{RtcOk E}.

Lemma land_bit7 a : negb (Z.land (u8 a) 0x80 =? 0) = Z.testbit a 7.
Proof.
  unfold u8. destruct (Z.testbit a 7) eqn:T.
  - apply negb_true_iff, Z.eqb_neq. intros L0.
    assert (Z.testbit (Z.land (a mod 2 ^ 8) 128) 7 = false) as F by (rewrite L0; done).
    rewrite Z.land_spec, Z.mod_pow2_bits_low, T in F by lia. done.
  - apply negb_false_iff, Z.eqb_eq. apply Z.bits_inj'. intros i Hi. rewrite Z.land_spec, Z.bits_0.
    destruct (decide (i = 7)) as [->|Hn]; [by rewrite Z.mod_pow2_bits_low, T by lia|].
    change 128 with (2 ^ 7). rewrite Z.pow2_bits_false by done. by rewrite andb_false_r.
Qed.

(** What the reads between two states of the outside can have seen. *)
Definition flows (e e' : E) : Prop :=
  (carried e' = false → carried e = false ∧ shown e' = shown e) ∧ (ticks e' <= ticks e)%nat
  ∧ (carried e = false → carried e' = true → (ticks e' < ticks e)%nat).

#[local] Instance flows_refl : Reflexive flows.
Proof. intros e. split_and!; [done|done|]. by intros ->. Qed.
#[local] Instance flows_trans : Transitive flows.
Proof.
  intros e1 e2 e3 (A1 & B1 & C1) (A2 & B2 & C2). split_and!; [|lia|].
  - intros F3. destruct (A2 F3) as [F2 E2]. destruct (A1 F2) as [F1 E1]. by rewrite E2.
  - intros F1 F3. destruct (carried e2) eqn:F2; [specialize (C1 F1 eq_refl)|specialize (C2 eq_refl F3)]; lia.
Qed.

Lemma flows_load r e : flows e (answer (Load r) e).2.
Proof.
  destruct (rtc_tick r e) as [(S & F & T)|[F T]]; unfold flows; rewrite ?S, ?F;
    (split_and!; [by auto|lia|by (congruence || lia)]).
Qed.

(** [Φ] holds of the date shown, unless the flag is set. *)
Definition known (e : E) (Φ : date → Prop) (w : world request E) : Prop :=
  flows e (env w) ∧ (carried (env w) = false → Φ (shown (env w))).

Lemma width_encode r d : valid d → year d < 10000 → width r (encode r d) = encode r d.
Proof.
  intros Hv Hmax. pose proof (day_small _ Hv). destruct Hv as (Hy & Hm & _ & Hh & Hmi & Hs).
  destruct r; cbn [width encode]; unfold bcd;
    first [apply u16_small | apply u8_small]; unfold is_u; Z.div_mod_to_equations; lia.
Qed.

Lemma known_load e Φ r :
  triple (known e Φ) (load r) (λ v, known e (λ d, Φ d ∧
    (r ≠ RTC_RCR1 → r ≠ RTC_RWKCNT → v = encode r d))).
Proof.
  intros w v w' [F HΦ]. unfold load. rewrite st_bind_eq. unfold ask.
  pose proof (flows_load r (env w)) as F'. pose proof (rtc_load r (env w)) as V.
  destruct (answer (Load r) (env w)) as [a e'] eqn:Ea. cbn in *. intros [= <- <-]. cbn.
  split; [by etrans|]. cbn [env]. intros C. destruct F' as (A & _ & _). destruct (A C) as [Cw Es].
  split; [rewrite Es; by apply HΦ|]. intros R1 R2. rewrite V by done.
  pose proof (rtc_valid e') as [Hv Hy]. apply width_encode; [done|lia].
Qed.

Lemma known_flag e Φ :
  triple (known e Φ) (load RTC_RCR1) (λ v w, known e Φ w ∧
    negb (Z.land v 0x80 =? 0) = carried (env w)).
Proof.
  intros w v w' Hw El. split.
  { destruct (known_load e Φ RTC_RCR1 w v w' Hw El) as [F HΦ]. split; [done|].
    intros C. by destruct (HΦ C). }
  revert El. unfold load. rewrite st_bind_eq. unfold ask. pose proof (rtc_flag (env w)) as V.
  destruct (answer (Load RTC_RCR1) (env w)) as [a e']. cbn [fst snd] in V. intros [= <- <-].
  cbn [env width]. by rewrite <- V, land_bit7.
Qed.

(** The fields are those of the date. *)
Definition reads (t : tm) (d : date) : Prop :=
  tm_sec t = second d ∧ tm_min t = minute d ∧ tm_hour t = hour d ∧ tm_mday t = day d ∧
  tm_mon t = month d ∧ tm_year t = Z.lor (year d / 100 * 100) (year d mod 100).

Lemma bcd2bin_bcd x : 0 <= x < 100 → bcd2bin (bcd x) = x.
Proof.
  intros Hx. rewrite <- (Z2Nat.id x) by lia.
  assert (Z.to_nat x ∈ seq 0 100) as Hin by (apply elem_of_seq; lia). revert Hin.
  generalize (Z.to_nat x). apply Forall_forall. compute_dec.
Qed.

Lemma bcd_year_encode d : 2000 <= year d < 2106 →
  bcd_year (encode RTC_RYRCNT d) (encode RTC_RYRCNT d)
  = Z.lor (year d / 100 * 100) (year d mod 100).
Proof.
  intros Hy. unfold encode. replace (year d) with (Z.of_nat (Z.to_nat (year d - 2000)) + 2000) by lia.
  assert (Z.to_nat (year d - 2000) ∈ seq 0 106) as Hin by (apply elem_of_seq; lia). revert Hin.
  generalize (Z.to_nat (year d - 2000)). apply Forall_forall. compute_dec.
Qed.

Lemma known_reads e : triple (known e (λ _, True)) (
    sec ← load RTC_RSECCNT; min ← load RTC_RMINCNT; hour ← load RTC_RHRCNT;
    wday ← load RTC_RWKCNT; mday ← load RTC_RDAYCNT; mon ← load RTC_RMONCNT;
    high ← load RTC_RYRCNT; low ← load RTC_RYRCNT; carry ← load RTC_RCR1;
    mret (Tm (bcd2bin sec) (bcd2bin min) (bcd2bin hour) (bcd2bin mday) (bcd2bin mon)
            (bcd_year high low) wday 0 (-1), negb (Z.land carry 0x80 =? 0)))
  (λ '(t, c) w, flows e (env w) ∧ c = carried (env w) ∧ (c = false → reads t (shown (env w)))).
Proof.
  do 8 (eapply triple_bind; [apply known_load|intros ?]).
  eapply triple_bind; [apply known_flag|intros ?]. apply triple_ret.
  intros w [[F HΦ] ->]. split_and!; [done..|]. intros C. specialize (HΦ C).
  destruct (rtc_valid (env w)) as [Hv Hy]. pose proof (day_small _ Hv).
  destruct Hv as (? & ? & _ & ? & ? & ?).
  destruct HΦ as ((((((((_ & ->) & ->) & ->) & _) & ->) & ->) & ->) & ->); try done.
  unfold reads. cbn [tm_sec tm_min tm_hour tm_mday tm_mon tm_year].
  rewrite bcd_year_encode by done. cbn [encode]. rewrite !bcd2bin_bcd by lia. done.
Qed.

(** One round: the fields are those of the date that is shown at its end, or the
    clock has changed during it. *)
Lemma rtc_round_spec e : triple (λ w, env w = e) rtc_round (λ '(t, c) w,
  (ticks (env w) <= ticks e)%nat ∧
  (if c : bool then (ticks (env w) < ticks e)%nat else reads t (shown (env w)))).
Proof.
  unfold rtc_round. eapply (triple_bind _ _ _ (λ _ w, flows e (env w))).
  { eapply triple_conseq; [apply (known_load e (λ _, True))| |by intros ? w []].
    intros w Hw. split; [by rewrite Hw|done]. }
  intros r. apply triple_pre. intros w0 F0.
  eapply (triple_bind _ _ _ (λ _ w, (ticks (env w) <= ticks e)%nat ∧
    (carried (env w) = false ∨ (ticks (env w) < ticks e)%nat))).
  { intros w u w' <-. unfold tell, ask. rewrite st_bind_eq.
    assert (Z.testbit (Z.land r 111) 7 = false) as T by (by rewrite Z.land_spec, andb_false_r).
    pose proof (rtc_clear _ (env w0) T) as Hc. cbv zeta in Hc.
    destruct (answer _ _) as [v e']. intros [= _ <-]. destruct F0 as (_ & ? & _).
    cbn [env fst snd] in *. split; [lia|]. destruct Hc as [_ [?|?]]; [by left|right; lia]. }
  intros _. apply triple_pre. intros w1 [Ht Hc].
  eapply triple_conseq; [apply (known_reads (env w1))| |].
  { by intros ? <-. }
  intros [t c] w' ((_ & T1 & T2) & -> & HR). split; [lia|]. destruct (carried (env w')); [|auto].
  destruct Hc as [Hc|Hc]; [specialize (T2 Hc eq_refl)|]; lia.
Qed.

Lemma rtc_gettime_spec fuel w : (ticks (env w) < fuel)%nat →
  ∃ t w', rtc_gettime fuel w = (Some t, w') ∧ reads t (shown (env w')).
Proof.
  revert w. induction fuel as [|fuel IH]; intros w Hf; [lia|]. cbn [rtc_gettime].
  rewrite st_bind_eq. pose proof (rtc_round_spec (env w) w) as S.
  destruct (rtc_round w) as [[t c] w1]. specialize (S _ _ eq_refl eq_refl). cbn in *.
  destruct S as [S1 S2]. destruct c; [apply IH; lia|]. by exists t, w1.
Qed.

(** ** The year *)

(** The years whose two digits share no bit with the century. *)
Definition exact_year (y : Z) : bool :=
  (2000 <=? y) && (y <? 2016) || (2032 <=? y) && (y <? 2048) || (2100 <=? y) && (y <? 2104).

Lemma lor_year y : 2000 <= y < 2106 →
  2000 <= Z.lor (y / 100 * 100) (y mod 100) <= y ∧
  (Z.lor (y / 100 * 100) (y mod 100) = y ↔ exact_year y = true).
Proof.
  intros Hy. replace y with (Z.of_nat (Z.to_nat (y - 2000)) + 2000) by lia.
  assert (Z.to_nat (y - 2000) ∈ seq 0 106) as Hin by (apply elem_of_seq; lia). revert Hin.
  generalize (Z.to_nat (y - 2000)). apply Forall_forall. compute_dec.
Qed.

Lemma seconds_range d : valid d → year d < 2106 → 0 <= seconds d < 2 ^ 32.
Proof.
  intros Hv Hmax. pose proof (day_small _ Hv). destruct Hv as (Hy & Hm & _ & Hh & Hmi & Hs).
  unfold seconds. rewrite days_before_year_closed, days_before_month_closed by lia. cbv zeta.
  rewrite Z2Nat.id by lia. destruct (Z.leb_spec (month d) 2); Z.div_mod_to_equations; lia.
Qed.

(** The same day and time of an earlier year. *)
Lemma seconds_earlier d y : valid d → 1970 <= y < year d →
  0 <= seconds (Date y (month d) (day d) (hour d) (minute d) (second d)) < seconds d.
Proof.
  intros Hv Hy'. pose proof (day_small _ Hv). destruct Hv as (Hy & Hm & _ & Hh & Hmi & Hs).
  unfold seconds. cbn [year month day hour minute second].
  rewrite !days_before_year_closed, !days_before_month_closed by lia. cbv zeta.
  rewrite !Z2Nat.id by lia. destruct (Z.leb_spec (month d) 2); Z.div_mod_to_equations; lia.
Qed.

(** C24: A [time] that may see the clock change ends, after at most one round more
    than there are changes, with the date that the registers show when it ends,
    never a mixture of two; the value is the seconds of that date exactly in the
    years 2000 to 2015, 2032 to 2047 and 2100 to 2103, because century and
    year are joined with [|] instead of [+]. *)
Theorem time_right (t : bool) (fuel : nat) (w : world request E) : (ticks (env w) < fuel)%nat →
  ∃ v w', time fuel t w = (Some (v, if t then Some v else None), w') ∧
    (v = seconds (shown (env w')) ↔ exact_year (year (shown (env w'))) = true).
Proof.
  intros Hf. destruct (rtc_gettime_spec fuel w Hf) as (tm & w' & Et & HR).
  unfold time. rewrite st_bind_eq, Et. cbn [fst snd]. eexists _, w'. split; [done|].
  destruct (rtc_valid (env w')) as [Hv Hy]. set (d := shown (env w')) in *.
  destruct HR as (-> & -> & -> & -> & -> & ->). destruct (lor_year _ Hy) as [Hl Hx].
  set (y := Z.lor _ _) in *. rewrite <- Hx.
  pose proof (mktime_seconds (Date y (month d) (day d) (hour d) (minute d) (second d))) as M.
  destruct (proj1 (proj2 Hv)). cbn in M. rewrite M by lia. clear M.
  pose proof (seconds_range d Hv ltac:(lia)).
  destruct (decide (y = year d)) as [->|Hn].
  - split; [done|]. intros _. destruct d. cbn. apply u32_small. done.
  - pose proof (seconds_earlier d y Hv ltac:(lia)). rewrite u32_small by (unfold is_u; lia).
    split; [lia|done].
Qed.
End Running.

(** ** A concrete clock

    One second passes at the requests the script marks. *)

Module Toy.
Record clock := Clock { passed : Z; flag : bool; script : list bool }.

Definition now (e : clock) : date := Date 2016 1 1 0 0 (passed e mod 60).
Definition pass (e : clock) : clock :=
  match script e with
  | [] => e
  | b :: l => if b : bool then Clock (passed e + 1) true l else Clock (passed e) (flag e) l
  end.

#[global] Instance clock_answers : Answers request clock := λ q e,
  let e := pass e in
  match q with
  | Load RTC_RCR1 => (if flag e then 0x80 else 0, e)
  | Load r => (encode r (now e), e)
  | Store _ v => (0, Clock (passed e) (flag e && Z.testbit v 7) (script e))
  end.

Definition marks (e : clock) : nat := length (filter (λ b, b = true) (script e)).

Lemma pass_spec e :
  (passed (pass e) = passed e ∧ flag (pass e) = flag e ∧ (marks (pass e) <= marks e)%nat)
  ∨ (flag (pass e) = true ∧ (marks (pass e) < marks e)%nat).
Proof.
  unfold pass, marks. destruct (script e) as [|[] l] eqn:El; rewrite ?El; cbn;
    [left|right|left]; auto.
Qed.

Lemma clock_load r e : (answer (Load r) e).2 = pass e.
Proof. by destruct r. Qed.

#[global] Program Instance clock_ok : RtcOk clock :=
  {| shown := now; carried := flag; ticks := marks |}.
Next Obligation.
  intros e. split; [|done]. unfold valid, now. cbn [year month day hour minute second].
  pose proof (Z.mod_pos_bound (passed e) 60). split_and!; try lia; vm_compute; done.
Qed.
Next Obligation. intros [] e H1 H2; try done. Qed.
Next Obligation.
  intros e. rewrite clock_load. cbn. destruct (flag (pass e)); done.
Qed.
Next Obligation.
  intros r e. cbv zeta. rewrite clock_load. unfold now. destruct (pass_spec e) as [(-> & -> & ?)|?]; auto.
Qed.
Next Obligation.
  intros v e Hv. unfold answer, clock_answers, marks. cbv zeta. cbn [snd flag script].
  rewrite Hv, andb_false_r.
  destruct (pass_spec e) as [(_ & _ & ?)|[_ ?]]; unfold marks in *; split; auto; lia.
Qed.

(** New Year of 2016, with a change of the second in the middle of the reading. *)
Definition start : world request clock :=
  World (Clock 58 false [false; false; false; false; true]) [].
End Toy.

Lemma time_right_witness :
  ∃ v w', time 2 true Toy.start = (Some (v, Some v), w') ∧
    (v = seconds (shown (env w')) ↔ exact_year (year (shown (env w'))) = true).
Proof. apply (time_right true 2 Toy.start). vm_compute. lia. Defined.

(** There the result is sixteen years too small. *)
Lemma time_2016 : ∃ w', time 2 true Toy.start = (Some (946684859, Some 946684859), w') ∧
  seconds (shown (env w')) = 1451606459.
Proof. eexists. split; [vm_compute; reflexivity|vm_compute; reflexivity]. Qed.
