(* ===== verification/SubpadMouse.v ===== *)
(** * Touch pad as a mouse ([src/x11/apps/subpad-mouse.c])

    The user-space driver of the six-button pad: port and ADC registers through
    [/dev/mem], pointer events through XTEST.  The registers, the system calls
    and the X server answer requests ([Traced]).  Barriers, delay loops and messages
    have no effect and are left out. *)

From S2P Require Import Prelude Traced.

(** ** Constants *)

Definition PGCR_OFF : Z := 0x10c.
Definition PHCR_OFF : Z := 0x10e.
Definition PLCR_OFF : Z := 0x114.
Definition PGDR_OFF : Z := 0x12c.
Definition PHDR_OFF : Z := 0x12e.
Definition PLDR_OFF : Z := 0x134.
Definition PSELE_OFF : Z := 0x156.
Definition MSELCRA_OFF : Z := 0x180.
Definition PFC_A_OFF : Z := 0x1d6.
Definition FRQCRA_OFF : Z := 0x000.
Definition MSTPCR2_OFF : Z := 0x038.
Definition ADC_CLOCK_BIT : Z := 0x08000000.
Definition ADDRA_OFF : Z := 0x080.
Definition ADDRB_OFF : Z := 0x082.
Definition ADDRC_OFF : Z := 0x084.
Definition ADDRD_OFF : Z := 0x086.
Definition ADCSR_OFF : Z := 0x088.
Definition ADCCSR_OFF : Z := 0x08a.
Definition ADCUST_OFF : Z := 0x08c.
Definition ADPCTL_OFF : Z := 0x08e.
Definition ADC_TIMEOUT : nat := Z.to_nat 8192.
Definition YIELD_TURNS : nat := 1.
Definition MOVE_STEP : Z := 6.
Definition MOVE_REPEAT_POLLS : Z := 3.
Definition DEBOUNCE_POLLS : Z := 2.
Definition RELEASE_POLLS : Z := 2.
Definition RAW_JITTER_LIMIT : Z := 96.
Definition RAW_X_FIRST : Z := 349.
Definition RAW_X_SECOND : Z := 650.
Definition RAW_Y_SPLIT : Z := 522.

(** ** Data *)

Inductive zone : Type :=
| ZONE_NONE | ZONE_LEFT | ZONE_UP | ZONE_RIGHT | ZONE_BUTTON_LEFT | ZONE_DOWN | ZONE_BUTTON_RIGHT.
#[export] Instance zone_eq_dec : EqDecision zone.
Proof. solve_decision. Defined.

Inductive adc_result : Type :=
| ADC_SAMPLE_VALID | ADC_SAMPLE_INVALID | ADC_FATAL_CLEAN | ADC_FATAL_DIRTY.

Record sample := Sample { x : Z; y : Z }.

Record pfc_snapshot := Snapshot {
  pgcr : Z; phcr : Z; plcr : Z; psele : Z; mselcra : Z; pfc_a : Z; pgdr : Z; phdr : Z;
}.

(** The mapped pages. *)
Inductive page : Type := Pfc | Cpg | Adc.
#[export] Instance page_eq_dec : EqDecision page.
Proof. solve_decision. Defined.

(** The local variables of [main] that the loop changes. *)
Record mouse := Mouse {
  candidate : zone;
  active : zone;
  candidate_sample : sample;
  candidate_polls : Z;
  release_polls : Z;
  repeat_polls : Z;
  hardware_safe : bool;
  fatal_error : bool;
  stopping_blocked : bool;
}.

Definition set_candidate (v : zone) (m : mouse) : mouse :=
  Mouse v (active m) (candidate_sample m) (candidate_polls m) (release_polls m) (repeat_polls m)
    (hardware_safe m) (fatal_error m) (stopping_blocked m).
Definition set_active (v : zone) (m : mouse) : mouse :=
  Mouse (candidate m) v (candidate_sample m) (candidate_polls m) (release_polls m) (repeat_polls m)
    (hardware_safe m) (fatal_error m) (stopping_blocked m).
Definition set_candidate_sample (v : sample) (m : mouse) : mouse :=
  Mouse (candidate m) (active m) v (candidate_polls m) (release_polls m) (repeat_polls m)
    (hardware_safe m) (fatal_error m) (stopping_blocked m).
Definition set_candidate_polls (v : Z) (m : mouse) : mouse :=
  Mouse (candidate m) (active m) (candidate_sample m) v (release_polls m) (repeat_polls m)
    (hardware_safe m) (fatal_error m) (stopping_blocked m).
Definition set_release_polls (v : Z) (m : mouse) : mouse :=
  Mouse (candidate m) (active m) (candidate_sample m) (candidate_polls m) v (repeat_polls m)
    (hardware_safe m) (fatal_error m) (stopping_blocked m).
Definition set_repeat_polls (v : Z) (m : mouse) : mouse :=
  Mouse (candidate m) (active m) (candidate_sample m) (candidate_polls m) (release_polls m) v
    (hardware_safe m) (fatal_error m) (stopping_blocked m).
Definition set_hardware_safe (v : bool) (m : mouse) : mouse :=
  Mouse (candidate m) (active m) (candidate_sample m) (candidate_polls m) (release_polls m)
    (repeat_polls m) v (fatal_error m) (stopping_blocked m).
Definition set_fatal_error (v : bool) (m : mouse) : mouse :=
  Mouse (candidate m) (active m) (candidate_sample m) (candidate_polls m) (release_polls m)
    (repeat_polls m) (hardware_safe m) v (stopping_blocked m).
Definition set_stopping_blocked (v : bool) (m : mouse) : mouse :=
  Mouse (candidate m) (active m) (candidate_sample m) (candidate_polls m) (release_polls m)
    (repeat_polls m) (hardware_safe m) (fatal_error m) v.

(** ** The system *)

(** What the program asks.  A pointer answer is nonzero unless it is null
    ([MAP_FAILED] for [Mmap]); [FakeInput] and [WarpPointer] answer the error of
    [xcb_request_check], zero for none; [FbId] answers [strncmp]. *)
Inductive request : Type :=
| Read (w : Z) (p : page) (off : Z) | Write (w : Z) (p : page) (off v : Z)
| FakeInput (down : bool) (button : Z) | WarpPointer (dx dy : Z) | ConnectionHasError
| XConnect | XTestPresent | XTestVersion | XTestError | XFlush | XDisconnect
| SigFillSet | SigEmptySet | SigDelSet (s : Z) | SigAddSet (s : Z) | SigSetMask | SigAction (s : Z)
| SigBlock | SigRestore | StopRequested
| Geteuid | OpenFb | FbFix | FbVar | FbId | FbXres | FbYres | FbBits | CloseFb
| StatParameter | Errno
| OpenLock | Flock | CloseLock
| Sysconf | StatMem | MemIsChr | OpenMem | Mmap (p : page) | Munmap (p : page) | CloseMem
| SchedYield
| OpenMemReadOnly | MmapReadOnly (p : page)
| Isatty | KdGetMode | KdMode | FstatStdin | StdinIsChr | StdinMajor | StdinMinor | VtGetState | VtActive
| Fflush | Puts (text : list Z).

Section Mouse.
Context {E : Type} `{Answers request E}.
Abbreviation K := (st (world request E)).

Definition read8 (p : page) (off : Z) : K Z := v ← ask (Read 8 p off); mret (u8 v).
Definition read16 (p : page) (off : Z) : K Z := v ← ask (Read 16 p off); mret (u16 v).
Definition read32 (p : page) (off : Z) : K Z := v ← ask (Read 32 p off); mret (u32 v).
Definition write8 (p : page) (off v : Z) : K unit := tell (Write 8 p off v).
Definition write16 (p : page) (off v : Z) : K unit := tell (Write 16 p off v).
Definition write32 (p : page) (off v : Z) : K unit := tell (Write 32 p off v).

(** [current & ~mask | value & mask] *)
Definition masked (w current mask value : Z) : Z :=
  Z.lor (Z.land current (Z.lxor mask (2 ^ w - 1))) (Z.land value mask).

Definition rmw8 (p : page) (off mask value : Z) : K unit :=
  current ← read8 p off; write8 p off (masked 8 current mask value).
Definition rmw16 (p : page) (off mask value : Z) : K unit :=
  current ← read16 p off; write16 p off (masked 16 current mask value).

(** ** Mappings, lock and signals *)

(** The pages mapped so far, the first first. *)
Fixpoint unmap_all (ps : list page) : K unit :=
  match ps with [] => mret tt | p :: ps => unmap_all ps;; tell (Munmap p) end.
Definition close_maps (fd : bool) (ps : list page) : K unit :=
  unmap_all ps;; if fd then tell CloseMem else mret tt.

Fixpoint map_pages (ps mapped : list page) : K bool :=
  match ps with
  | [] => mret true
  | p :: ps =>
      r ← ask (Mmap p);
      if r =? 0 then close_maps true mapped;; mret false else map_pages ps (mapped ++ [p])
  end.

Definition pages : list page := [Pfc; Cpg; Adc].

Definition open_maps : K bool :=
  size ← ask Sysconf;
  if negb (size =? 4096) then mret false
  else
    s ← ask StatMem;
    c ← (if s <? 0 then mret 0 else ask MemIsChr);
    if c =? 0 then mret false
    else
      fd ← ask OpenMem;
      if fd <? 0 then mret false else map_pages pages [].

Definition expected_hardware : K bool :=
  fd ← ask OpenFb;
  matches ←
    (if 0 <=? fd then
       and_then (equals FbFix 0) (and_then (equals FbVar 0) (and_then (equals FbId 0)
         (and_then (equals FbXres 528) (and_then (equals FbYres 320) (equals FbBits 16)))))
     else mret false);
  (if 0 <=? fd then tell CloseFb else mret tt);;
  mret matches.

Definition ENOENT : Z := 2.
Definition experimental_driver_absent : K bool :=
  s ← ask StatParameter; if s =? 0 then mret false else equals Errno ENOENT.

(** [true]: the lock's descriptor is returned. *)
Definition acquire_lock : K bool :=
  fd ← ask OpenLock;
  r ← (if fd <? 0 then mret (-1) else ask Flock);
  if r <? 0 then (if 0 <=? fd then tell CloseLock else mret tt);; mret false else mret true.

(** SIGBUS, SIGSEGV, SIGILL, SIGFPE, SIGTRAP, SIGSYS; SIGTERM, SIGINT, SIGHUP,
    SIGQUIT. *)
Definition synchronous : list Z := [7; 11; 4; 8; 5; 31].
Definition stopping : list Z := [15; 2; 1; 3].

Definition configure_signals : K bool :=
  and_then (not_negative SigFillSet) (and_then (not_negative SigEmptySet)
  (and_then (for_all (λ s, not_negative (SigDelSet s)) synchronous)
  (and_then (for_all (λ s, and_then (not_negative (SigAddSet s)) (not_negative (SigDelSet s))) stopping)
  (and_then (not_negative SigSetMask)
  (and_then (not_negative SigEmptySet)
    (for_all (λ s, not_negative (SigAction s)) stopping)))))).

Definition block_stopping_signals : K bool := not_negative SigBlock.
Definition restore_signal_mask : K bool := not_negative SigRestore.

(** ** Ports and ADC *)

Definition capture_pfc : K pfc_snapshot :=
  gcr ← read16 Pfc PGCR_OFF;
  hcr ← read16 Pfc PHCR_OFF;
  lcr ← read16 Pfc PLCR_OFF;
  gdr ← read8 Pfc PGDR_OFF;
  hdr ← read8 Pfc PHDR_OFF;
  sele ← read16 Pfc PSELE_OFF;
  msel ← read16 Pfc MSELCRA_OFF;
  a ← read16 Pfc PFC_A_OFF;
  mret (Snapshot gcr hcr lcr sele msel a gdr hdr).

Definition base_pfc : K unit :=
  write8 Pfc PGDR_OFF 0;;
  rmw16 Pfc PHCR_OFF 0x0300 0x0100;;
  rmw16 Pfc PLCR_OFF 0x000c 0;;
  rmw16 Pfc PSELE_OFF 0x0c00 0.

Fixpoint wait_clear_loop (passes : nat) (off mask : Z) : K bool :=
  match passes with
  | O => mret false
  | S passes' =>
      v ← read16 Adc off;
      if Z.land v mask =? 0 then mret true else wait_clear_loop passes' off mask
  end.
Definition wait_clear (off mask : Z) : K bool := wait_clear_loop ADC_TIMEOUT off mask.

(** Clearing bits of a register. *)
Definition clear_bits (off bits : Z) : K unit :=
  value ← read16 Adc off; write16 Adc off (Z.land value (Z.lxor bits 0xffff)).

Definition emergency_abort_idle : K bool :=
  clear_bits ADCCSR_OFF 0xe000;;
  idle ← wait_clear ADCCSR_OFF 0x2000;
  if negb idle then mret false
  else
    write16 Adc ADCUST_OFF 0;;
    clear_bits ADCSR_OFF 0x2000;;
    wait_clear ADCSR_OFF 0x2000.

Definition normal_rest (high : bool) : K bool :=
  idle ← wait_clear ADCCSR_OFF 0x2000;
  if negb idle then mret false
  else
    write16 Adc ADCUST_OFF 0;;
    clear_bits ADCSR_OFF 0x2000;;
    idle ← wait_clear ADCSR_OFF 0x2000;
    if negb idle then mret false
    else
      base_pfc;;
      write16 Pfc PGCR_OFF 0xaaaa;;
      write8 Pfc PGDR_OFF 0;;
      rmw8 Pfc PHDR_OFF 0x10 (if high then 0x10 else 0);;
      mret true.

Fixpoint pen_reads (passes : nat) (contact : bool) : K bool :=
  match passes with
  | O => mret contact
  | S passes' =>
      v ← read8 Pfc PLDR_OFF;
      pen_reads passes' (if negb (Z.land v 0x02 =? 0) then false else contact)
  end.

Definition read_pen : K bool :=
  rmw16 Pfc PLCR_OFF 0x000c 0x0008;;
  contact ← pen_reads 5 true;
  base_pfc;;
  mret contact.

Definition small_abs (value : Z) : Z := if value <? 0 then u32 (- value) else u32 value.

Definition failed : K adc_result :=
  idle ← emergency_abort_idle;
  if negb idle then mret ADC_FATAL_DIRTY
  else
    rested ← normal_rest true;
    mret (if rested : bool then ADC_FATAL_CLEAN else ADC_FATAL_DIRTY).

(** The values of the four conversions as a sample, and whether it is valid. *)
Definition convert (a b c d : Z) : sample * bool :=
  (Sample (Z.land (u16 (Z.shiftr (c - d + 1023) 1)) 1023)
          (Z.land (u16 (Z.shiftr (a - b + 1023) 1)) 1023),
   (small_abs (1023 - b - a) <=? 64) && (small_abs (1023 - d - c) <=? 64)).

(** The result and the sample, zero where none was stored. *)
Definition read_adc : K (adc_result * sample) :=
  rested ← normal_rest false;
  if negb rested then mret (ADC_FATAL_DIRTY, Sample 0 0)
  else
    rmw16 Pfc PFC_A_OFF 0xf000 0x5000;;
    write16 Pfc PGCR_OFF 0;;
    rmw16 Pfc MSELCRA_OFF 0x0300 0;;
    idle ← wait_clear ADCSR_OFF 0x2000;
    if negb idle then r ← failed; mret (r, Sample 0 0)
    else
      write16 Adc ADCUST_OFF 0x8000;;
      frq ← read32 Cpg FRQCRA_OFF;
      let base := if Z.land frq 0x0f =? 3 then 0x01cf else 0x02cf in
      write16 Adc ADCCSR_OFF base;;
      write16 Adc ADPCTL_OFF 0x8000;;
      write16 Adc ADCCSR_OFF (Z.lor base 0x2000);;
      idle ← wait_clear ADCCSR_OFF 0x2000;
      if negb idle then r ← failed; mret (r, Sample 0 0)
      else
        b ← read16 Adc ADDRB_OFF;
        a ← read16 Adc ADDRA_OFF;
        d ← read16 Adc ADDRD_OFF;
        c ← read16 Adc ADDRC_OFF;
        clear_bits ADCCSR_OFF 0xc000;;
        let '(s, valid) := convert (Z.shiftr a 6) (Z.shiftr b 6) (Z.shiftr c 6) (Z.shiftr d 6) in
        rested ← normal_rest true;
        mret (if negb rested then ADC_FATAL_DIRTY
              else if valid : bool then ADC_SAMPLE_VALID else ADC_SAMPLE_INVALID, s).

Definition gated (current : Z) : bool := negb (Z.land current ADC_CLOCK_BIT =? 0).

(** Whether the clock is open, and whether it was gated before. *)
Definition open_adc_clock : K (bool * bool) :=
  current ← read32 Cpg MSTPCR2_OFF;
  let was_gated := gated current in
  (if was_gated : bool then
     current ← read32 Cpg MSTPCR2_OFF;
     write32 Cpg MSTPCR2_OFF (Z.land current (Z.lxor ADC_CLOCK_BIT (2 ^ 32 - 1)))
   else mret tt);;
  current ← read32 Cpg MSTPCR2_OFF;
  mret (negb (gated current), was_gated).

Definition restore_adc_clock (was_gated : bool) : K bool :=
  current ← read32 Cpg MSTPCR2_OFF;
  (if was_gated then write32 Cpg MSTPCR2_OFF (Z.lor current ADC_CLOCK_BIT) else mret tt);;
  current ← read32 Cpg MSTPCR2_OFF;
  mret (bool_decide (gated current = was_gated)).

(** A register agrees with a value under a mask. *)
Definition same16 (off mask value : Z) : K bool :=
  v ← read16 Pfc off; mret (Z.land v mask =? Z.land value mask).
Definition same8 (off mask value : Z) : K bool :=
  v ← read8 Pfc off; mret (Z.land v mask =? Z.land value mask).

Definition restore_pfc (s : pfc_snapshot) : K bool :=
  rmw16 Pfc PFC_A_OFF 0xf000 (pfc_a s);;
  rmw16 Pfc MSELCRA_OFF 0x0300 (mselcra s);;
  rmw16 Pfc PSELE_OFF 0x0c00 (psele s);;
  rmw16 Pfc PLCR_OFF 0x000c (plcr s);;
  rmw16 Pfc PHCR_OFF 0x0300 (phcr s);;
  write8 Pfc PGDR_OFF (pgdr s);;
  write16 Pfc PGCR_OFF (pgcr s);;
  rmw8 Pfc PHDR_OFF 0x10 (phdr s);;
  and_then (same16 PGCR_OFF 0xffff (pgcr s))
    (and_then (same8 PGDR_OFF 0xff (pgdr s))
    (and_then (same16 PHCR_OFF 0x0300 (phcr s))
    (and_then (same16 PLCR_OFF 0x000c (plcr s))
    (and_then (same16 PSELE_OFF 0x0c00 (psele s))
    (and_then (same16 MSELCRA_OFF 0x0300 (mselcra s))
    (and_then (same16 PFC_A_OFF 0xf000 (pfc_a s))
              (same8 PHDR_OFF 0x10 (phdr s)))))))).

(** ** Pointer events *)

Definition sample_zone (s : sample) : zone :=
  if y s <? RAW_Y_SPLIT then
    if x s <? RAW_X_FIRST then ZONE_LEFT
    else if x s <? RAW_X_SECOND then ZONE_UP
    else ZONE_RIGHT
  else if x s <? RAW_X_FIRST then ZONE_BUTTON_LEFT
  else if x s <? RAW_X_SECOND then ZONE_DOWN
  else ZONE_BUTTON_RIGHT.

Definition no_connection_error : K bool := equals ConnectionHasError 0.
Definition x_checked_button (down : bool) (button : Z) : K bool :=
  and_then (equals (FakeInput down button) 0) no_connection_error.
Definition emit_motion (dx dy : Z) : K bool :=
  and_then (equals (WarpPointer dx dy) 0) no_connection_error.
Definition emit_button (button : Z) (down : bool) : K bool := x_checked_button down button.

(** The second component: a connection was made. *)
Definition open_x : K (bool * bool) :=
  connection ← ask XConnect;
  if connection =? 0 then mret (false, false)
  else
    ok ← and_then no_connection_error
      (present ← ask XTestPresent;
       if present =? 0 then mret false
       else
         version ← ask XTestVersion;
         error ← ask XTestError;
         if (version <? 2) || negb (error =? 0) then mret false
         else
           released ← for_all (x_checked_button false) [1; 2; 3];
           if released : bool then (flushed ← ask XFlush; mret (0 <? flushed)) else mret false);
    mret (ok, true).

Definition direction_zone (z : zone) : bool :=
  match z with ZONE_LEFT | ZONE_UP | ZONE_RIGHT | ZONE_DOWN => true | _ => false end.

Definition emit_zone (z : zone) : K bool :=
  match z with
  | ZONE_LEFT => emit_motion (- MOVE_STEP) 0
  | ZONE_UP => emit_motion 0 (- MOVE_STEP)
  | ZONE_RIGHT => emit_motion MOVE_STEP 0
  | ZONE_DOWN => emit_motion 0 MOVE_STEP
  | ZONE_BUTTON_LEFT => emit_button 1 true
  | ZONE_BUTTON_RIGHT => emit_button 3 true
  | ZONE_NONE => mret true
  end.

Definition release_zone (z : zone) : K bool :=
  match z with
  | ZONE_BUTTON_LEFT => emit_button 1 false
  | ZONE_BUTTON_RIGHT => emit_button 3 false
  | _ => mret true
  end.

Definition is_none (z : zone) : bool := bool_decide (z = ZONE_NONE).

Fixpoint yields (n : nat) : K unit :=
  match n with O => mret tt | S n' => tell SchedYield;; yields n' end.
Definition cadence : K unit := yields YIELD_TURNS.

(** ** The loop of [main] *)

(** A poll without a usable sample; the answer is whether the loop goes on. *)
Definition no_sample (m : mouse) : K (mouse * bool) :=
  let m := set_candidate_polls 0 (set_candidate ZONE_NONE m) in
  if is_none (active m) then cadence;; mret (m, true)
  else
    let m := set_release_polls (u32 (release_polls m + 1)) m in
    if release_polls m <? RELEASE_POLLS then cadence;; mret (m, true)
    else
      ok ← release_zone (active m);
      if negb ok then mret (m, false)
      else
        cadence;;
        mret (set_repeat_polls 0 (set_release_polls 0 (set_active ZONE_NONE m)), true).

(** A poll while a zone is active. *)
Definition held_zone (m : mouse) : K (mouse * bool) :=
  if direction_zone (active m) then
    let m := set_repeat_polls (u32 (repeat_polls m + 1)) m in
    if MOVE_REPEAT_POLLS <=? repeat_polls m then
      let m := set_repeat_polls 0 m in
      ok ← emit_zone (active m);
      if negb ok then mret (m, false) else cadence;; mret (m, true)
    else cadence;; mret (m, true)
  else cadence;; mret (m, true).

(** A sample while no zone is active. *)
Definition new_sample (current : sample) (m : mouse) : K (mouse * bool) :=
  let z := sample_zone current in
  let m :=
    if negb (bool_decide (z = candidate m)) ||
       (RAW_JITTER_LIMIT <? small_abs (x current - x (candidate_sample m))) ||
       (RAW_JITTER_LIMIT <? small_abs (y current - y (candidate_sample m)))
    then set_candidate_polls 1 (set_candidate z m)
    else set_candidate_polls (u32 (candidate_polls m + 1)) m in
  let m := set_candidate_sample current m in
  if DEBOUNCE_POLLS <=? candidate_polls m then
    let m := set_repeat_polls 0 (set_candidate_polls 0 (set_candidate ZONE_NONE (set_active z m))) in
    ok ← emit_zone (active m);
    if negb ok then mret (m, false) else cadence;; mret (m, true)
  else cadence;; mret (m, true).

(** What a poll does with the pad's answer. *)
Definition react (pen_down : bool) (adc : adc_result) (current : sample) (m : mouse)
    : K (mouse * bool) :=
  if pen_down then
    match adc with
    | ADC_FATAL_CLEAN => mret (set_fatal_error true m, false)
    | ADC_FATAL_DIRTY => mret (set_fatal_error true (set_hardware_safe false m), false)
    | ADC_SAMPLE_INVALID => no_sample m
    | ADC_SAMPLE_VALID =>
        let m := set_release_polls 0 m in
        if is_none (active m) then new_sample current m else held_zone m
    end
  else no_sample m.

Definition poll (m : mouse) : K (mouse * bool) :=
  blocked ← block_stopping_signals;
  if negb blocked then mret (set_fatal_error true m, false)
  else
    let m := set_stopping_blocked true m in
    pen_down ← read_pen;
    '(adc, current) ← (if pen_down : bool then read_adc else mret (ADC_SAMPLE_INVALID, Sample 0 0));
    restored ← restore_signal_mask;
    if negb restored then mret (set_fatal_error true m, false)
    else react pen_down adc current (set_stopping_blocked false m).

(** The loop: [None] when [n] polls were not enough, else the state behind
    [if (stop_requested == 0) fatal_error = true]. *)
Definition after_loop (m : mouse) : K mouse :=
  stop ← ask StopRequested;
  mret (if stop =? 0 then set_fatal_error true m else m).

Fixpoint poll_loop (n : nat) (m : mouse) : K (option mouse) :=
  stop ← ask StopRequested;
  go ← (if stop =? 0 then no_connection_error else mret false);
  if negb go then m ← after_loop m; mret (Some m)
  else
    match n with
    | O => mret None
    | S n' =>
        '(m, again) ← poll m;
        if again : bool then poll_loop n' m else m ← after_loop m; mret (Some m)
    end.

(** ** Shutting down *)

(** The result and whether the signals are still blocked. *)
Definition shutdown_hardware (s : pfc_snapshot) (was_gated : bool) (m : mouse) : K (Z * bool) :=
  (if is_none (active m) then mret true else release_zone (active m));;
  '(safe, pfc, clock) ←
    (if hardware_safe m then
       blocked ← (if stopping_blocked m then mret true else block_stopping_signals);
       '(safe, pfc, clock) ←
         (if blocked : bool then
            rested ← normal_rest true;
            if negb rested then mret (false, false, false)
            else
              pfc ← restore_pfc s;
              if negb pfc then mret (false, false, false)
              else clock ← restore_adc_clock was_gated; mret (true, true, clock)
          else mret (false, false, false));
       (if stopping_blocked m || blocked then _ ← restore_signal_mask; mret tt else mret tt);;
       mret (safe, pfc, clock)
     else mret (false, false, false));
  mret (if negb safe then 1 else if negb pfc || negb clock then 1
        else if fatal_error m then 1 else 0,
        stopping_blocked m && negb (hardware_safe m)).

(** From [close_mmio] and from [finished]. *)
Definition close_mmio (blocked : bool) : K unit :=
  (if blocked then _ ← restore_signal_mask; mret tt else mret tt);; close_maps true pages.
Definition finished (lock connection : bool) : K unit :=
  (if lock then tell CloseLock else mret tt);;
  (if connection then tell XDisconnect else mret tt).

(** With the pages mapped; the result of [main]. *)
Definition drive (n : nat) : K (option Z) :=
  blocked ← block_stopping_signals;
  if negb blocked then close_mmio false;; mret (Some 1)
  else
    absent ← experimental_driver_absent;
    if negb absent then close_mmio true;; mret (Some 1)
    else
      snapshot ← capture_pfc;
      '(opened, was_gated) ← open_adc_clock;
      if negb opened then restore_adc_clock was_gated;; close_mmio true;; mret (Some 1)
      else
        rested ← normal_rest true;
        if negb rested then close_mmio true;; mret (Some 1)
        else
          restored ← restore_signal_mask;
          m ← (if restored : bool
               then poll_loop n (Mouse ZONE_NONE ZONE_NONE (Sample 0 0) 0 0 0 true false false)
               else mret (Some (Mouse ZONE_NONE ZONE_NONE (Sample 0 0) 0 0 0 true true true)));
          match m with
          | None => mret None
          | Some m =>
              '(result, blocked) ← shutdown_hardware snapshot was_gated m;
              close_mmio blocked;;
              mret (Some result)
          end.

(** The program; [help]: its only argument asks for help. *)
Definition main (n : nat) (argc : Z) (help : bool) : K (option Z) :=
  if (argc =? 2) && help then mret (Some 0)
  else if negb (argc =? 1) then mret (Some 2)
  else
  euid ← ask Geteuid;
  ok ← (if euid =? 0 then and_then expected_hardware experimental_driver_absent else mret false);
  if negb ok then mret (Some 1)
  else
    signals ← configure_signals;
    if negb signals then mret (Some 1)
    else
      '(x_ok, connection) ← open_x;
      if negb x_ok then finished false connection;; mret (Some 1)
      else
        lock ← acquire_lock;
        if negb lock then finished false connection;; mret (Some 1)
        else
          mapped ← open_maps;
          if negb mapped then finished true connection;; mret (Some 1)
          else
            result ← drive n;
            match result with
            | None => mret None
            | Some r => finished true connection;; mret (Some r)
            end.
End Mouse.

(** ** A bench

    A system on which the program runs: registers that keep what is written,
    except the conversion bit, which the ADC clears; a pad that is touched; and
    a stop that is requested after some questions. *)
Module Bench.
Record bench := Board { regs : page → Z → Z; patience : nat }.

Definition width (p : page) (off : Z) : Z :=
  match p with
  | Cpg => 32
  | Pfc => if (off =? PGDR_OFF) || (off =? PHDR_OFF) || (off =? PLDR_OFF) then 8 else 16
  | Adc => 16
  end.

Definition reg (e : bench) (p : page) (off : Z) : Z := regs e p off mod 2 ^ width p off.

Definition set_reg (p : page) (off v : Z) (e : bench) : bench :=
  Board (λ p' off', if bool_decide (p' = p) && (off' =? off) then v else regs e p' off') (patience e).

#[global] Instance board : Answers request bench := λ r e,
  match r with
  | Read _ p off => (reg e p off, e)
  | Write w p off v =>
      (0, if w =? width p off
          then set_reg p off (if bool_decide (p = Adc) then Z.land v 0xdfff else v) e else e)
  | StopRequested =>
      match patience e with O => (1, e) | S n => (0, Board (regs e) n) end
  | XConnect | XTestPresent | XFlush | MemIsChr | Mmap _ | MmapReadOnly _ => (1, e)
  | Isatty | StdinIsChr | StdinMinor | VtActive => (1, e)
  | StdinMajor => (4, e)
  | XTestVersion | Errno => (2, e)
  | FbXres => (528, e)
  | FbYres => (320, e)
  | FbBits => (16, e)
  | StatParameter => (-1, e)
  | Sysconf => (4096, e)
  | _ => (0, e)
  end.

(** Ports of all kinds of bits, a centred touch, the converter's clock gated. *)
Definition ready (patience : nat) : bench :=
  Board (λ p off,
    match p with
    | Pfc => if off =? PLDR_OFF then 0 else 0xa5c3
    | Cpg => if off =? MSTPCR2_OFF then 0x0a000001 else 3
    | Adc => if off <? ADCSR_OFF then Z.shiftl 512 6 else 0
    end) patience.
End Bench.
