(* ===== verification/SubpadFacts.v ===== *)
(** * Touch pad as a mouse: what every run respects

    A monitor over the requests of [SubpadMouse]: registers are touched only
    under the lock, with the pages mapped and the stopping signals blocked, and
    no pointer button is left pressed whose release was not refused. *)

From S2P Require Import Prelude Traced SubpadMouse.

(** ** The monitor *)

(** [held]: the buttons pressed; a release counts when the X server reports no
    error for it and the connection has none behind it.  [pending]: a release that
    still waits for the second; [refused]: the buttons whose release failed since
    the program last looked whether it shall stop. *)
Record monitor := Monitor {
  held : list Z;
  locked : bool;
  mapped : list page;
  blocked : bool;
  absent : bool;
  clean : bool;
  pending : option Z;
  refused : list Z;
}.

(** A register may be touched. *)
Definition permitted (p : page) (g : monitor) : bool :=
  locked g && blocked g && absent g && bool_decide (p ∈ mapped g).

Definition buttons (h : list Z) (p : option Z) (r : list Z) (g : monitor) : monitor :=
  Monitor h (locked g) (mapped g) (blocked g) (absent g) (clean g) p r.
(** No release has failed. *)
Definition untroubled (g : monitor) : bool := bool_decide (refused g = []).
Definition requires (ok : bool) (g : monitor) : monitor :=
  Monitor (held g) (locked g) (mapped g) (blocked g) (absent g) (clean g && ok) (pending g) (refused g).

Definition without (b : Z) : list Z → list Z := filter (λ c, c ≠ b).

(** The answers to a release, and to the question for the connection behind it. *)
Definition observe_release (g : monitor) (b v : Z) : monitor :=
  if bool_decide (b ∈ held g) then
    if v =? 0 then buttons (held g) (Some b) (refused g) g
    else buttons (held g) (pending g) (b :: refused g) g
  else g.
Definition observe_connection (g : monitor) (v : Z) : monitor :=
  match pending g with
  | Some b =>
      if v =? 0 then buttons (without b (held g)) None (without b (refused g)) g
      else buttons (held g) None (b :: refused g) g
  | None => g
  end.

Definition observe (g : monitor) (rv : request * Z) : monitor :=
  let '(r, v) := rv in
  match r with
  | Read _ p _ | Write _ p _ _ => requires (permitted p g) g
  | FakeInput true b => requires (untroubled g) (buttons (b :: held g) (pending g) (refused g) g)
  | FakeInput false b => observe_release g b v
  | ConnectionHasError => observe_connection g v
  | WarpPointer _ _ | SchedYield => requires (untroubled g) g
  | StopRequested => buttons (held g) (pending g) [] g
  | SigBlock =>
      Monitor (held g) (locked g) (mapped g) ((0 <=? v) || blocked g) (absent g) (clean g)
        (pending g) (refused g)
  | SigRestore =>
      Monitor (held g) (locked g) (mapped g) (negb (0 <=? v) && blocked g) (absent g) (clean g)
        (pending g) (refused g)
  | Flock =>
      Monitor (held g) (negb (v <? 0)) (mapped g) (blocked g) (absent g) (clean g) (pending g) (refused g)
  | CloseLock =>
      Monitor (held g) false (mapped g) (blocked g) (absent g) (clean g) (pending g) (refused g)
  | Mmap p =>
      Monitor (held g) (locked g) (if v =? 0 then mapped g else mapped g ++ [p]) (blocked g)
        (absent g) (clean g) (pending g) (refused g)
  | Munmap p =>
      Monitor (held g) (locked g) (filter (λ q, q ≠ p) (mapped g)) (blocked g) (absent g) (clean g)
        (pending g) (refused g)
  | StatParameter =>
      Monitor (held g) (locked g) (mapped g) (blocked g) false (clean g) (pending g) (refused g)
  | Errno =>
      Monitor (held g) (locked g) (mapped g) (blocked g) (v =? ENOENT) (clean g) (pending g) (refused g)
  | _ => g
  end.

Definition start : monitor := Monitor [] false [] false false true None [].

Abbreviation seen := (Traced.seen observe start).

Section Facts.
Context {E : Type} `{Answers request E}.
Abbreviation K := (st (world request E)).
Abbreviation hoare := (Traced.hoare observe start).
Abbreviation same := (Traced.same observe start).

(** Registers may be touched. *)
Definition open (g : monitor) : Prop :=
  clean g = true ∧ locked g = true ∧ blocked g = true ∧ absent g = true ∧
  ∀ p, p ∈ mapped g.

Lemma observe_register g p :
  open g → requires (permitted p g) g = g.
Proof.
  intros (Hc & Hl & Hb & Ha & Hm). unfold requires, permitted. rewrite Hc, Hl, Hb, Ha.
  rewrite bool_decide_true by done. destruct g. cbn in *. by subst.
Qed.

Lemma same_read g w p off : open g → same g (ask (Read w p off)).
Proof. intros Hg. apply same_ask. intros v. by apply (observe_register g p). Qed.
Lemma same_write g w p off v : open g → same g (ask (Write w p off v)).
Proof. intros Hg. apply same_ask. intros a. by apply (observe_register g p). Qed.

Hint Resolve same_read same_write : same.

Section Registers.
Context (g : monitor) (Hg : open g).

Lemma same_read8 p off : same g (read8 p off). Proof. unfold read8. same. Qed.
Lemma same_read16 p off : same g (read16 p off). Proof. unfold read16. same. Qed.
Lemma same_read32 p off : same g (read32 p off). Proof. unfold read32. same. Qed.
Lemma same_write8 p off v : same g (write8 p off v). Proof. unfold write8, tell. same. Qed.
Lemma same_write16 p off v : same g (write16 p off v). Proof. unfold write16, tell. same. Qed.
Lemma same_write32 p off v : same g (write32 p off v). Proof. unfold write32, tell. same. Qed.
Hint Resolve same_read8 same_read16 same_read32 same_write8 same_write16 same_write32 : same.
Lemma same_rmw8 p off mask v : same g (rmw8 p off mask v). Proof. unfold rmw8. same. Qed.
Lemma same_rmw16 p off mask v : same g (rmw16 p off mask v). Proof. unfold rmw16. same. Qed.
Hint Resolve same_rmw8 same_rmw16 : same.
Lemma same_base_pfc : same g base_pfc. Proof. unfold base_pfc. same. Qed.
Lemma same_wait_clear off mask : same g (wait_clear off mask).
Proof. unfold wait_clear. induction ADC_TIMEOUT; cbn [wait_clear_loop]; same. Qed.
Lemma same_clear_bits off bits : same g (clear_bits off bits). Proof. unfold clear_bits. same. Qed.
Hint Resolve same_base_pfc same_wait_clear same_clear_bits : same.
Lemma same_normal_rest high : same g (normal_rest high). Proof. unfold normal_rest. same. Qed.
Lemma same_pen_reads n c : same g (pen_reads n c).
Proof. revert c. induction n; intros c; cbn [pen_reads]; same. Qed.
Hint Resolve same_normal_rest same_pen_reads : same.
Lemma same_read_pen : same g read_pen. Proof. unfold read_pen. same. Qed.
Lemma same_emergency : same g emergency_abort_idle. Proof. unfold emergency_abort_idle. same. Qed.
Hint Resolve same_emergency : same.
Lemma same_failed : same g failed. Proof. unfold failed. same. Qed.
Hint Resolve same_failed : same.
Lemma same_read_adc : same g read_adc. Proof. unfold read_adc. same. Qed.
Lemma same_capture : same g capture_pfc. Proof. unfold capture_pfc. same. Qed.
Lemma same_open_clock : same g open_adc_clock. Proof. unfold open_adc_clock. same. Qed.
Lemma same_restore_clock b : same g (restore_adc_clock b). Proof. unfold restore_adc_clock. same. Qed.
Lemma same_restore_pfc s : same g (restore_pfc s).
Proof. unfold restore_pfc, and_then, same16, same8. same. Qed.
End Registers.

(** ** The loop *)

Definition zone_buttons (z : zone) : list Z :=
  match z with ZONE_BUTTON_LEFT => [1] | ZONE_BUTTON_RIGHT => [3] | _ => [] end.

(** Everything is set up; only the active zone's button may be pressed. *)
Record ready (g : monitor) : Prop := {
  rd_clean : clean g = true;
  rd_locked : locked g = true;
  rd_absent : absent g = true;
  rd_mapped : ∀ p, p ∈ mapped g;
}.
Definition holds (z : zone) (g : monitor) : Prop := ∀ b, b ∈ held g → b ∈ zone_buttons z.
Definition left_ (z : zone) (b : bool) (g : monitor) : Prop :=
  ready g ∧ holds z g ∧ (b = true → blocked g = true) ∧ pending g = None.
(** While the loop runs no release has failed. *)
Definition within (z : zone) (b : bool) (g : monitor) : Prop := left_ z b g ∧ refused g = [].
Definition inv (m : mouse) : monitor → Prop := within (active m) (stopping_blocked m).

Lemma within_open z g : within z true g → open g.
Proof.
  intros (([? ? ? ?] & _ & Hb & _) & _). split; [done|]. split; [done|]. split; [by apply Hb|done].
Qed.

Lemma holds_none z g : holds ZONE_NONE g → holds z g.
Proof. intros Hh c Hc. by apply Hh, elem_of_nil in Hc. Qed.
Lemma holds_nothing g : holds ZONE_NONE g → held g = [].
Proof.
  unfold holds. destruct (held g) as [|c l]; [done|]. intros Hh.
  specialize (Hh c (list_elem_of_here _ _)). by apply elem_of_nil in Hh.
Qed.
Lemma within_none z b g : within ZONE_NONE b g → within z b g.
Proof. intros [(? & Hh & ? & ?) ?]. split; [|done]. split_and!; [done|by apply holds_none|done..]. Qed.
Lemma within_left z b g : within z b g → left_ z b g.
Proof. by intros [? ?]. Qed.

Lemma requires_true b g : b = true → clean g = true → requires b g = g.
Proof. intros -> Hc. unfold requires. destruct g. cbn in *. by subst. Qed.
Lemma within_untroubled z b g : within z b g → untroubled g = true ∧ clean g = true.
Proof. intros [([] & _) Hr]. unfold untroubled. by rewrite bool_decide_true. Qed.

Lemma same_no_error g : pending g = None → same g no_connection_error.
Proof.
  intros Hp. unfold no_connection_error, equals. apply same_bind; [|intros v; apply same_ret].
  apply same_ask. intros v. cbn. unfold observe_connection. by rewrite Hp.
Qed.
Lemma within_pending z b g : within z b g → pending g = None.
Proof. by intros [(_ & _ & _ & ?) _]. Qed.

Lemma within_ask z z' b r :
  (∀ g v, within z b g → within z' b (observe g (r, v))) →
  hoare (within z b) (and_then (equals r 0) no_connection_error) (λ _, within z' b).
Proof.
  intros Hr. unfold and_then, equals. apply (hoare_bind _ _ _ (λ _, within z' b)).
  - apply (hoare_bind _ _ _ (λ _, within z' b)); [by apply hoare_ask|].
    intros v. by apply hoare_ret.
  - intros [|]; [|by apply hoare_ret]. apply same_hoare. intros g Hg.
    by eapply same_no_error, within_pending.
Qed.

Lemma press_within z b c g : c ∈ zone_buttons z → within z b g → ∀ v, within z b (observe g (FakeInput true c, v)).
Proof.
  intros Hc Hg v. pose proof (within_untroubled _ _ _ Hg) as [Hu Hcl].
  destruct Hg as [([] & Hh & Hb & Hp) Hr]. cbn [observe]. rewrite requires_true by done.
  split; [|done]. split_and!; [done| |done..].
  intros d [->|Hd]%elem_of_cons; [done|by apply Hh].
Qed.
Lemma warp_within z b dx dy g : within z b g → ∀ v, within z b (observe g (WarpPointer dx dy, v)).
Proof.
  intros Hg v. pose proof (within_untroubled _ _ _ Hg) as [Hu Hcl]. cbn [observe].
  by rewrite requires_true.
Qed.

(** What is left pressed was refused its release. *)
Definition settled (g : monitor) : Prop := ∀ b, b ∈ held g → b ∈ refused g.

(** What a release leaves, and what the question behind it. *)
Lemma release_refused z b c g v : zone_buttons z = [c] → within z b g → v ≠ 0 →
  left_ z b (observe_release g c v) ∧ settled (observe_release g c v).
Proof.
  intros Hz [([] & Hh & Hb & Hp) Hr] Hv. unfold observe_release.
  destruct (bool_decide_reflect (c ∈ held g)) as [Hc|Hc].
  - rewrite (proj2 (Z.eqb_neq v 0) Hv). split; [by split_and!|].
    intros d Hd%Hh. rewrite Hz in Hd. apply list_elem_of_singleton in Hd as ->. left.
  - split; [by split_and!|]. intros d Hd. pose proof (Hh d Hd) as Hd'. rewrite Hz in Hd'.
    by apply list_elem_of_singleton in Hd' as ->.
Qed.

Lemma release_answered z b c g w : zone_buttons z = [c] → within z b g →
  let g' := observe_connection (observe_release g c 0) w in
  if w =? 0 then within ZONE_NONE b g' else left_ z b g' ∧ settled g'.
Proof.
  intros Hz [([] & Hh & Hb & Hp) Hr] g'. subst g'. unfold observe_release.
  destruct (bool_decide_reflect (c ∈ held g)) as [Hc|Hc]; unfold observe_connection; cbn.
  - destruct (Z.eqb_spec w 0) as [->|Hw].
    + split; [|by rewrite Hr]. split_and!; [done| |done..].
      intros d Hd. cbn in Hd. apply list_elem_of_filter in Hd as [Hdc Hd].
      apply Hh in Hd. rewrite Hz in Hd. by apply list_elem_of_singleton in Hd.
    + split; [by split_and!|]. intros d Hd%Hh. rewrite Hz in Hd.
      apply list_elem_of_singleton in Hd as ->. left.
  - rewrite Hp. assert (∀ d, d ∉ held g) as Hn.
    { intros d Hd. pose proof (Hh d Hd) as Hd'. rewrite Hz in Hd'.
      by apply list_elem_of_singleton in Hd' as ->. }
    case_match; [split; [split_and!; [done| |done..]|done]|split; [by split_and!|]].
    all: intros d Hd; by apply Hn in Hd.
Qed.

(** After a release: nothing is pressed, or it failed. *)
Definition let_go (z : zone) (b ok : bool) (g : monitor) : Prop :=
  if ok then within ZONE_NONE b g else left_ z b g ∧ settled g.

Lemma emit_zone_ok z b : hoare (within z b) (emit_zone z) (λ _, within z b).
Proof.
  destruct z; cbn [emit_zone]; unfold emit_motion, emit_button, x_checked_button;
    try (by apply hoare_ret); apply within_ask; intros g v Hg; try (by apply warp_within);
    apply press_within; [left|done|left|done].
Qed.

Lemma release_button_ok z b c : zone_buttons z = [c] →
  hoare (within z b) (emit_button c false) (let_go z b).
Proof.
  intros Hz. unfold emit_button, x_checked_button, and_then, equals, no_connection_error.
  apply hoare_pre. intros g Hg.
  apply (hoare_bind _ _ _ (λ ok g', if ok : bool then g' = observe_release g c 0
    else left_ z b g' ∧ settled g')).
  - apply (hoare_bind _ _ _ (λ v g', g' = observe_release g c v)); [by apply hoare_ask; intros ? v ->|].
    intros v. apply hoare_ret. intros ? ->. destruct (Z.eqb_spec v 0) as [->|Hv]; [done|].
    by apply release_refused.
  - intros [|]; [|by apply hoare_ret].
    apply (hoare_bind _ _ _ (λ w g', g' = observe_connection (observe_release g c 0) w));
      [by apply hoare_ask; intros ? w ->|].
    intros w. apply hoare_ret. intros ? ->. by apply (release_answered z b c g w).
Qed.

Lemma release_zone_ok z b : hoare (within z b) (release_zone z) (let_go z b).
Proof.
  destruct z; cbn [release_zone];
    try (by apply hoare_ret); by apply release_button_ok.
Qed.

Lemma same_cadence z b g : within z b g → same g cadence.
Proof.
  intros Hg. pose proof (within_untroubled _ _ _ Hg) as [Hu Hc].
  unfold cadence. induction YIELD_TURNS; cbn [yields]; [apply same_ret|].
  apply same_bind; [|done]. unfold tell. apply same_bind; [|intros ?; apply same_ret].
  apply same_ask. intros v. by apply requires_true.
Qed.

(** A turn of the loop: it goes on with nothing refused, or ends. *)
Definition turn (r : mouse * bool) (g : monitor) : Prop :=
  if r.2 then inv r.1 g else left_ (active r.1) (stopping_blocked r.1) g.
Definition keeps_inv (m : mouse) (c : K (mouse * bool)) : Prop := hoare (inv m) c turn.

Lemma turn_ends m g : inv m g → turn (m, false) g.
Proof. apply within_left. Qed.

(** After a pause the loop goes on. *)
Lemma pause_ok z b (m : mouse) :
  (∀ g, within z b g → inv m g) → hoare (within z b) (cadence;; mret (m, true)) turn.
Proof.
  intros HPQ. apply hoare_same; [intros; by eapply same_cadence|]. intros _. by apply hoare_ret.
Qed.

Lemma pause_inv m m' :
  active m' = active m → stopping_blocked m' = stopping_blocked m →
  hoare (inv m) (cadence;; mret (m', true)) turn.
Proof. intros Ha Hb. apply pause_ok. intros g. unfold inv. by rewrite Ha, Hb. Qed.

Lemma no_sample_ok m : keeps_inv m (no_sample m).
Proof.
  unfold keeps_inv, no_sample. cbv zeta.
  set (m1 := set_candidate_polls 0 (set_candidate ZONE_NONE m)).
  change (active m1) with (active m). change (release_polls m1) with (release_polls m).
  destruct (is_none (active m)); [by apply pause_inv|].
  set (m2 := set_release_polls _ m1). change (active m2) with (active m).
  destruct (_ <? _); [by apply pause_inv|].
  apply (hoare_bind _ _ _ (λ ok, let_go (active m) (stopping_blocked m) ok)); [apply release_zone_ok|].
  intros [|]; cbn [negb let_go]; [by apply pause_ok|]. apply hoare_ret. by intros g [? _].
Qed.

Lemma held_zone_ok m : keeps_inv m (held_zone m).
Proof.
  unfold keeps_inv, held_zone. destruct (direction_zone (active m)); [|by apply pause_inv].
  cbv zeta. destruct (_ <=? _); [|by apply pause_inv].
  apply (hoare_bind _ _ _ (λ _, inv m)); [apply (emit_zone_ok (active m))|].
  intros [|]; cbn [negb]; [by apply pause_inv|apply hoare_ret, turn_ends].
Qed.

Lemma new_sample_ok current m :
  active m = ZONE_NONE → keeps_inv m (new_sample current m).
Proof.
  intros Ha. unfold keeps_inv, new_sample. cbv zeta.
  set (m1 := if _ || _ then _ else _).
  assert (active m1 = ZONE_NONE ∧ stopping_blocked m1 = stopping_blocked m) as [Ha1 Hb1]
    by (subst m1; by case_match). clearbody m1.
  destruct (_ <=? _); [|apply pause_inv; [by rewrite Ha, <- Ha1|done]].
  set (z := sample_zone current). set (m2 := set_repeat_polls _ _).
  change (active m2) with z.
  apply (hoare_bind _ _ _ (λ _, inv m2)).
  - eapply hoare_conseq; [apply (emit_zone_ok z (stopping_blocked m2))| |done].
    intros g Hg. apply within_none. unfold inv in Hg. rewrite Ha in Hg.
    change (stopping_blocked m2) with (stopping_blocked m1). by rewrite Hb1.
  - intros [|]; cbn [negb]; [by apply pause_inv|apply hoare_ret, turn_ends].
Qed.

Lemma react_ok pen adc current m : keeps_inv m (react pen adc current m).
Proof.
  unfold keeps_inv, react. destruct pen; [|apply no_sample_ok].
  destruct adc; [|apply no_sample_ok|..].
  2,3: apply hoare_ret; intros g Hg; by apply (within_left (active m) (stopping_blocked m)).
  cbv zeta.
  change (active (set_release_polls 0 m)) with (active m). unfold is_none.
  destruct (bool_decide_reflect (active m = ZONE_NONE)).
  - eapply hoare_conseq; [by apply (new_sample_ok current (set_release_polls 0 m))|done|done].
  - eapply hoare_conseq; [apply (held_zone_ok (set_release_polls 0 m))|done|done].
Qed.

(** The mask of the signals. *)
Definition masked_to (b : bool) (g : monitor) : monitor :=
  Monitor (held g) (locked g) (mapped g) b (absent g) (clean g) (pending g) (refused g).
Lemma within_masked z b b' c g : within z b g → (b' = true → c = true) → within z b' (masked_to c g).
Proof. intros [([] & ? & ? & ?) ?] Hc. split; [|done]. by split_and!. Qed.

(** Blocked now, or as much as before. *)
Lemma block_ok z b :
  hoare (within z b) block_stopping_signals (λ ok g, within z ok g ∧ (b = true → blocked g = true)).
Proof.
  unfold block_stopping_signals, not_negative.
  apply (hoare_bind _ _ _ (λ v g, within z (0 <=? v) g ∧ (b = true → blocked g = true))).
  - apply hoare_ask. intros g v Hg. cbn. split.
    + apply (within_masked z b _ _ g Hg). by intros ->.
    + destruct Hg as [(_ & _ & Hb & _) _]. intros ->. cbn. rewrite Hb by done. apply orb_true_r.
  - intros v. by apply hoare_ret.
Qed.

Lemma restore_ok z b :
  hoare (within z b) restore_signal_mask (λ ok g, within z (negb ok && b) g).
Proof.
  unfold restore_signal_mask, not_negative.
  apply (hoare_bind _ _ _ (λ v g, within z (negb (0 <=? v) && b) g)).
  - apply hoare_ask. intros g v Hg. cbn. apply (within_masked z b _ _ g Hg).
    intros [Hv ->]%andb_prop. destruct Hg as [(_ & _ & Hb & _) _]. by rewrite Hv, Hb.
  - intros v. by apply hoare_ret.
Qed.

Lemma poll_ok m : keeps_inv m (poll m).
Proof.
  unfold keeps_inv, poll. apply (hoare_bind _ _ _ _ _ (block_ok _ _)). intros [|]; cbn [negb].
  2:{ apply hoare_ret. intros g ([(Hr & Hh & _ & Hp) _] & Hb). by split_and!. }
  apply (hoare_conseq (within (active m) true) _ _ turn); [|by intros g [? _]|done].
  apply hoare_same; [intros g Hg%within_open; by apply same_read_pen|]. intros pen.
  apply hoare_same.
  { intros g Hg%within_open. destruct pen; [by apply same_read_adc|apply same_ret]. }
  intros [adc current].
  apply (hoare_bind _ _ _ (λ ok g, within (active m) (negb ok && true) g)); [apply restore_ok|].
  intros [|]; cbn [negb andb].
  - apply (react_ok pen adc current (set_stopping_blocked false m)).
  - apply hoare_ret. intros g. apply within_left.
Qed.

(** Behind the loop a release is owed again. *)
Lemma after_loop_ok m :
  hoare (left_ (active m) (stopping_blocked m)) (after_loop m) (λ m', inv m').
Proof.
  unfold after_loop. apply (hoare_bind _ _ _ (λ _, inv m)).
  - apply hoare_ask. intros g v ([] & ? & ? & ?). split; [by split_and!|done].
  - intros v. apply hoare_ret. by case_match.
Qed.

Lemma poll_loop_ok n m :
  hoare (inv m) (poll_loop n m)
    (λ o g, match o with Some m' => inv m' g | None => clean g = true end).
Proof.
  assert (∀ m, hoare (left_ (active m) (stopping_blocked m)) (m ← after_loop m; mret (Some m))
    (λ o g, match o with Some m' => inv m' g | None => clean g = true end)) as Hend.
  { intros m0. apply (hoare_bind _ _ _ (λ m', inv m')); [apply after_loop_ok|].
    intros m1. by apply hoare_ret. }
  revert m. induction n as [|n IH]; intros m; cbn [poll_loop].
  all: apply (hoare_bind _ _ _ (λ _, inv m));
    [apply hoare_ask; intros g v [([] & ? & ? & ?) ?]; split; [by split_and!|done]|]; intros v.
  all: apply hoare_same;
    [intros g Hg; destruct (v =? 0); [by eapply same_no_error, within_pending|apply same_ret]|];
    intros [|]; cbn [negb].
  all: try (eapply hoare_conseq; [apply Hend|intros g; apply within_left|done]).
  - apply hoare_ret. by intros g [([] & _) _].
  - apply (hoare_bind _ _ _ turn); [apply poll_ok|]. intros [m' [|]]; [apply IH|apply Hend].
Qed.

(** ** Setting up and shutting down *)

(** Set up, and what is pressed was refused its release. *)
Definition quiet (b : bool) (g : monitor) : Prop :=
  ready g ∧ settled g ∧ (b = true → blocked g = true).

Lemma let_go_quiet z b ok g : let_go z b ok g → quiet b g.
Proof.
  destruct ok; cbn.
  - intros [(? & Hh & ? & ?) ?]. split_and!; [done| |done]. intros c Hc.
    rewrite (holds_nothing g Hh) in Hc. by apply elem_of_nil in Hc.
  - intros [(? & ? & ? & ?) ?]. by split_and!.
Qed.
Lemma quiet_open g : quiet true g → open g.
Proof. intros ([] & _ & Hb). split; [done|]. split; [done|]. split; [by apply Hb|done]. Qed.
Lemma quiet_masked b b' c g : quiet b g → (b' = true → c = true) → quiet b' (masked_to c g).
Proof. intros ([] & ? & ?) Hc. by split_and!. Qed.

Lemma quiet_block b : hoare (quiet b) block_stopping_signals quiet.
Proof.
  unfold block_stopping_signals, not_negative. apply (hoare_bind _ _ _ (λ v, quiet (0 <=? v))).
  - apply hoare_ask. intros g v Hg. apply (quiet_masked b _ _ g Hg). by intros ->.
  - intros v. by apply hoare_ret.
Qed.
Lemma quiet_restore b : hoare (quiet b) restore_signal_mask (λ _, quiet false).
Proof.
  unfold restore_signal_mask, not_negative. apply (hoare_bind _ _ _ (λ v, quiet false)).
  - apply hoare_ask. intros g v Hg. by apply (quiet_masked b _ _ g Hg).
  - intros v. by apply hoare_ret.
Qed.

Lemma shutdown_ok s was_gated m :
  hoare (inv m) (shutdown_hardware s was_gated m) (λ _, quiet false).
Proof.
  assert (∀ b g, quiet b g → quiet false g) as Hfalse by (intros b g (? & ? & _); by split_and!).
  unfold shutdown_hardware.
  apply (hoare_bind _ _ _ (λ _, quiet (stopping_blocked m))).
  { unfold is_none. destruct (bool_decide_reflect (active m = ZONE_NONE)) as [Ha|_].
    - apply hoare_ret. intros g. unfold inv. rewrite Ha. apply (let_go_quiet ZONE_NONE _ true).
    - eapply hoare_conseq; [apply release_zone_ok|done|]. intros ok g. apply let_go_quiet. }
  intros _. apply (hoare_bind _ _ _ (λ _, quiet false)); [|intros [[safe pfc] clock]; by apply hoare_ret].
  destruct (hardware_safe m); [|eapply hoare_ret, Hfalse].
  apply (hoare_bind _ _ _ quiet).
  { destruct (stopping_blocked m); [by apply hoare_ret|]. apply quiet_block. }
  intros b. apply (hoare_bind _ _ _ (λ _, quiet b)).
  { destruct b; [|by apply hoare_ret]. apply same_hoare. intros g Hg%quiet_open.
    apply same_bind; [by apply same_normal_rest|]. intros [|]; cbn [negb]; [|apply same_ret].
    apply same_bind; [by apply same_restore_pfc|]. intros [|]; cbn [negb]; [|apply same_ret].
    apply same_bind; [by apply same_restore_clock|]. intros ?. apply same_ret. }
  intros [[safe pfc] clock]. apply (hoare_bind _ _ _ (λ _, quiet false)); [|intros _; by apply hoare_ret].
  destruct (stopping_blocked m || b); [|eapply hoare_ret, Hfalse].
  apply (hoare_bind _ _ _ (λ _, quiet false)); [apply quiet_restore|].
  intros ok. by apply hoare_ret.
Qed.

Section Pointer.
(** What is known of the pointer's buttons, where none is asked for. *)
Context (T : list Z → option Z → list Z → Prop).
Definition knows (g : monitor) : Prop := T (held g) (pending g) (refused g).

(** Under the lock. *)
Definition up (g : monitor) : Prop := clean g = true ∧ locked g = true ∧ knows g.

(** Nothing is mapped; [l]: the lock is held. *)
Definition closed (l : bool) (g : monitor) : Prop :=
  clean g = true ∧ knows g ∧ mapped g = [] ∧ locked g = l.

Lemma close_mmio_ok b : hoare up (close_mmio b) (λ _, closed true).
Proof.
  unfold close_mmio. apply (hoare_bind _ _ _ (λ _, up)).
  { destruct b; [|by apply hoare_ret]. unfold restore_signal_mask, not_negative.
    apply (hoare_bind _ _ _ (λ _, up)); [|intros ok; by apply hoare_ret].
    apply (hoare_bind _ _ _ (λ _, up)); [|intros v; by apply hoare_ret].
    apply hoare_ask. intros g v ?. done. }
  intros _. unfold close_maps, pages. cbn [unmap_all]. unfold tell.
  apply hoare_pre. intros g (Hc & Hl & Hh).
  assert (∀ p ms, hoare (λ g', clean g' = true ∧ knows g' ∧ locked g' = true ∧ (∀ q, q ∈ mapped g' → q ∈ p :: ms))
    (_ ← ask (Munmap p); mret tt)
    (λ _ g', clean g' = true ∧ knows g' ∧ locked g' = true ∧ (∀ q, q ∈ mapped g' → q ∈ ms))) as Hu.
  { intros p ms. apply (hoare_bind _ _ _ (λ _ g', clean g' = true ∧ knows g' ∧ locked g' = true ∧
      (∀ q, q ∈ mapped g' → q ∈ ms))); [|intros _; by apply hoare_ret].
    apply hoare_ask. intros g' v (? & ? & ? & Hm). split; [done|]. split; [done|]. split; [done|].
    intros q Hq. cbn [observe mapped] in Hq. apply list_elem_of_filter in Hq as [Hqp Hq].
    specialize (Hm q Hq). set_solver. }
  apply (hoare_bind _ _ _ (λ _, closed true)).
  2:{ intros _. apply hoare_same; [intros; same|]. intros _. by apply hoare_ret. }
  eapply hoare_conseq.
  - apply (hoare_bind _ _ _ _ _ (hoare_bind _ _ _ _ _ (hoare_bind _ _ _ _ _
      (hoare_ret (λ g', clean g' = true ∧ knows g' ∧ locked g' = true ∧
        (∀ q, q ∈ mapped g' → q ∈ [Adc; Cpg; Pfc])) tt (λ _ g', _) (λ g' Hg', Hg'))
      (λ _, Hu Adc [Cpg; Pfc])) (λ _, Hu Cpg [Pfc])) (λ _, Hu Pfc [])).
  - intros g' ->. split; [done|]. split; [done|]. split; [done|]. intros [] _; set_solver.
  - intros _ g' (? & ? & ? & Hm). split; [done|]. split; [done|]. split; [|done].
    destruct (mapped g') as [|q l]; [done|]. exfalso. specialize (Hm q (list_elem_of_here _ _)).
    by apply elem_of_nil in Hm.
Qed.

Lemma finished_ok l c : hoare (closed l) (finished l c) (λ _, closed false).
Proof.
  unfold finished. apply (hoare_bind _ _ _ (λ _, closed false)).
  - destruct l; [|by apply hoare_ret]. unfold tell.
    apply (hoare_bind _ _ _ (λ _, closed false)); [|intros _; by apply hoare_ret].
    apply hoare_ask. intros g v (? & ? & ? & _). done.
  - intros _. apply same_hoare. intros g _. destruct c; unfold tell; same.
Qed.

(** The kernel's driver was looked for. *)
Lemma driver_absent_ok (P : monitor → Prop) :
  (∀ g b, P g →
    P (Monitor (held g) (locked g) (mapped g) (blocked g) b (clean g) (pending g) (refused g))) →
  hoare P experimental_driver_absent (λ ok g, P g ∧ (ok = true → absent g = true)).
Proof.
  intros HP. unfold experimental_driver_absent, equals.
  apply (hoare_bind _ _ _ (λ _, P)); [apply hoare_ask; intros g v; apply HP|]. intros v.
  destruct (v =? 0); [by apply hoare_ret|].
  apply (hoare_bind _ _ _ (λ a g, P g ∧ absent g = (a =? ENOENT))).
  - apply hoare_ask. intros g a Hg. split; [by apply HP|done].
  - intros a. apply hoare_ret. intros g [? ->]. done.
Qed.

Lemma closed_absent l g b :
  closed l g →
  closed l (Monitor (held g) (locked g) (mapped g) (blocked g) b (clean g) (pending g) (refused g)).
Proof. done. Qed.

Lemma acquire_ok : hoare (closed false) acquire_lock (λ ok, closed ok).
Proof.
  unfold acquire_lock. apply hoare_same; [intros; same|]. intros fd.
  apply (hoare_bind _ _ _ (λ r, if fd <? 0 then λ g, r = -1 ∧ closed false g else closed (negb (r <? 0)))).
  { destruct (fd <? 0); [by apply hoare_ret|]. apply hoare_ask. by intros g v (? & ? & ? & _). }
  intros r. destruct (Z.ltb_spec r 0).
  - apply (hoare_bind _ _ _ (λ _, closed false)); [|intros _; by apply hoare_ret].
    apply (hoare_conseq (closed false) _ _ (λ _, closed false)); [|destruct (fd <? 0); naive_solver|done].
    destruct (0 <=? fd); [|by apply hoare_ret]. unfold tell.
    apply (hoare_bind _ _ _ (λ _, closed false)); [|intros _; by apply hoare_ret].
    apply hoare_ask. by intros g v (? & ? & ? & _).
  - apply hoare_ret. intros g. destruct (fd <? 0); [intros [-> _]; lia|done].
Qed.

(** Between the lock and the mappings. *)
Definition mapping (ms : list page) (g : monitor) : Prop := up g ∧ mapped g = ms.

Lemma unmap_all_ok ms : hoare (mapping ms) (unmap_all ms) (λ _, closed true).
Proof.
  assert (∀ ps ms', hoare (mapping (ms' ++ ps)) (unmap_all ps)
    (λ _ g, up g ∧ ∀ p, p ∈ mapped g → p ∈ ms')) as Hall.
  { induction ps as [|p ps IH]; intros ms'; cbn [unmap_all].
    - apply hoare_ret. intros g [? ->]. split; [done|]. by rewrite app_nil_r.
    - apply (hoare_bind _ _ _ (λ _ g, up g ∧ ∀ q, q ∈ mapped g → q ∈ ms' ++ [p])).
      + eapply hoare_conseq; [apply (IH (ms' ++ [p]))| |done]. intros g. by rewrite <- (assoc (++)).
      + intros _. unfold tell. apply (hoare_bind _ _ _ (λ _ g, up g ∧ ∀ q, q ∈ mapped g → q ∈ ms'));
          [|intros _; by apply hoare_ret].
        apply hoare_ask. intros g v [? Hm]. split; [done|]. intros q Hq. cbn [observe mapped] in Hq.
        apply list_elem_of_filter in Hq as [Hqp Hq]. specialize (Hm q Hq). set_solver. }
  eapply hoare_conseq; [apply (Hall ms [])|done|]. intros _ g [(? & ? & ?) Hm].
  split; [done|]. split; [done|]. split; [|done]. destruct (mapped g) as [|q l]; [done|].
  exfalso. specialize (Hm q (list_elem_of_here _ _)). by apply elem_of_nil in Hm.
Qed.

Lemma map_pages_ok ps ms :
  hoare (mapping ms) (map_pages ps ms)
    (λ ok g, if ok : bool then mapping (ms ++ ps) g else closed true g).
Proof.
  revert ms. induction ps as [|p ps IH]; intros ms; cbn [map_pages].
  { apply hoare_ret. intros g. by rewrite app_nil_r. }
  apply (hoare_bind _ _ _ (λ v, mapping (if v =? 0 then ms else ms ++ [p]))).
  { apply hoare_ask. intros g v [? <-]. split; [done|]. cbn. by case_match. }
  intros v. destruct (v =? 0).
  - unfold close_maps. apply (hoare_bind _ _ _ (λ _, closed true)); [|intros _; by apply hoare_ret].
    apply (hoare_bind _ _ _ (λ _, closed true)).
    + apply unmap_all_ok.
    + intros _. apply same_hoare. intros g _. unfold tell. same.
  - specialize (IH (ms ++ [p])). by rewrite <- (assoc_L (++)) in IH.
Qed.

Lemma open_maps_ok :
  hoare (closed true) open_maps (λ ok g, if ok then up g ∧ (∀ p, p ∈ mapped g) else closed true g).
Proof.
  unfold open_maps. apply hoare_same; [intros; same|]. intros sz.
  destruct (negb _); [by apply hoare_ret|].
  apply hoare_same; [intros; same|]. intros st0.
  apply hoare_same; [intros g _; destruct (st0 <? 0); same|]. intros c.
  destruct (c =? 0); [by apply hoare_ret|].
  apply hoare_same; [intros; same|]. intros fd.
  destruct (fd <? 0); [by apply hoare_ret|].
  eapply hoare_conseq; [apply (map_pages_ok pages [])| |].
  - intros g (? & ? & ? & ?). done.
  - intros [|] g; [|done]. intros [? Hm]. split; [done|]. rewrite Hm. intros []; set_solver.
Qed.

End Pointer.

(** At first nothing is pressed; at the end what is was refused its release. *)
Definition fresh (h : list Z) (p : option Z) (r : list Z) : Prop := h = [] ∧ p = None ∧ r = [].
Definition let_be (h : list Z) (p : option Z) (r : list Z) : Prop := ∀ b, b ∈ h → b ∈ r.
Lemma fresh_let_be h p r : fresh h p r → let_be h p r.
Proof. intros (-> & _ & _) b Hb. by apply elem_of_nil in Hb. Qed.
Lemma closed_let_be l g : closed fresh l g → closed let_be l g.
Proof. intros (? & ? & ? & ?). split_and!; [done|by apply fresh_let_be|done..]. Qed.

Lemma drive_ok n :
  hoare (λ g, up fresh g ∧ ∀ p, p ∈ mapped g) (drive n)
    (λ o g, if o then closed let_be true g else clean g = true).
Proof.
  assert (∀ (P : monitor → Prop) b, (∀ g, P g → up fresh g) →
    hoare P (close_mmio b;; mret (Some 1)) (λ o g, if o then closed let_be true g else clean g = true)) as Hout.
  { intros P b HP. apply (hoare_bind _ _ _ (λ _, closed fresh true));
      [|intros _; apply hoare_ret, closed_let_be].
    eapply hoare_conseq; [apply (close_mmio_ok fresh b)|exact HP|done]. }
  unfold drive.
  apply (hoare_bind _ _ _ (λ ok g, up fresh g ∧ (∀ p, p ∈ mapped g) ∧ (ok = true → blocked g = true))).
  { unfold block_stopping_signals, not_negative.
    apply (hoare_bind _ _ _ (λ v g, up fresh g ∧ (∀ p, p ∈ mapped g) ∧ ((0 <=? v) = true → blocked g = true))).
    - apply hoare_ask. intros g v [? ?]. split; [done|]. split; [done|]. cbn. by intros ->.
    - intros v. by apply hoare_ret. }
  intros [|]; cbn [negb]; [|apply Hout; naive_solver].
  apply (hoare_bind _ _ _ (λ ok g, (up fresh g ∧ (∀ p, p ∈ mapped g) ∧ blocked g = true) ∧ (ok = true → absent g = true))).
  { eapply hoare_conseq;
      [apply (driver_absent_ok (λ g, up fresh g ∧ (∀ p, p ∈ mapped g) ∧ blocked g = true))| |done].
    - by intros g b Hg.
    - naive_solver. }
  intros [|]; cbn [negb]; [|apply Hout; naive_solver].
  apply (hoare_conseq (within ZONE_NONE true) _ _
    (λ (o : option Z) g, if o then closed let_be true g else clean g = true)); [| |done].
  2:{ intros g (((? & ? & (Hh & ? & ?)) & ? & ?) & ?). split; [|done]. split_and!; [split; auto| |done..].
      intros c Hc. rewrite Hh in Hc. by apply elem_of_nil in Hc. }
  assert (∀ g, within ZONE_NONE true g → up fresh g) as Hup.
  { intros g [([] & Hh & _ & ?) ?]. split_and!; [done..|]. split; [|done]. by apply holds_nothing. }
  apply hoare_same; [intros g Hg%within_open; by apply same_capture|]. intros snapshot.
  apply hoare_same; [intros g Hg%within_open; by apply same_open_clock|]. intros [[|] was_gated]; cbn [negb].
  2:{ apply hoare_same; [intros g Hg%within_open; by apply same_restore_clock|]. intros _. by apply Hout. }
  apply hoare_same; [intros g Hg%within_open; by apply same_normal_rest|]. intros [|]; cbn [negb]; [|by apply Hout].
  apply (hoare_bind _ _ _ (λ ok g, within ZONE_NONE (negb ok && true) g)); [apply restore_ok|].
  intros restored.
  apply (hoare_bind _ _ _ (λ (o : option mouse) g, match o with Some m => inv m g | None => clean g = true end)).
  { destruct restored; cbn [negb andb].
    - apply (poll_loop_ok n (Mouse ZONE_NONE ZONE_NONE (Sample 0 0) 0 0 0 true false false)).
    - by apply hoare_ret. }
  intros [m|]; [|by apply hoare_ret].
  apply (hoare_bind _ _ _ (λ _, quiet false)); [apply shutdown_ok|]. intros [result b].
  apply (hoare_bind _ _ _ (λ _, closed let_be true)); [|intros _; by apply hoare_ret].
  eapply hoare_conseq; [apply (close_mmio_ok let_be b)|by intros g ([] & ? & ?)|done].
Qed.

Lemma same_open_x g : held g = [] → pending g = None → same g open_x.
Proof.
  intros Hh Hp. pose proof (same_no_error g Hp) as He.
  assert (∀ b, same g (x_checked_button false b)) as Hb.
  { intros b. unfold x_checked_button, and_then, equals. apply same_bind; [|intros [|]; [done|same]].
    apply same_bind; [|intros; same]. apply same_ask. intros v. cbn. unfold observe_release.
    rewrite Hh. by rewrite bool_decide_false by (by intros ?%elem_of_nil). }
  unfold open_x. apply same_bind; [same|]. intros c. destruct (c =? 0); [same|].
  apply same_bind; [|intros; same]. unfold and_then. apply same_bind; [done|]. intros [|]; [|same].
  apply same_bind; [same|]. intros present. destruct (present =? 0); [same|].
  apply same_bind; [same|]. intros version. apply same_bind; [same|]. intros error.
  destruct (_ || _); [same|]. apply same_bind; [by apply same_for_all|]. intros [|]; same.
Qed.

Lemma same_expected_hardware g : same g expected_hardware.
Proof. unfold expected_hardware, and_then, equals, tell. same. Qed.

Lemma same_configure_signals g : same g configure_signals.
Proof.
  unfold configure_signals, not_negative.
  repeat (unfold and_then; apply same_bind; [|intros [|]; [|same]]);
    try same; apply same_for_all; intros a0; unfold and_then; same.
Qed.

Lemma main_ok n argc help :
  hoare (λ g, g = start) (main n argc help)
    (λ o g, if o then closed let_be false g else clean g = true).
Proof.
  assert (∀ m : K (option Z), hoare (closed fresh false) m
      (λ (o : option Z) g, if o then closed let_be false g else clean g = true) →
    hoare (λ g, g = start) m (λ o g, if o then closed let_be false g else clean g = true)) as Hstart.
  { intros m Hm. eapply hoare_conseq; [exact Hm|by intros g ->|done]. }
  assert (∀ l c, hoare (closed fresh l) (finished l c;; mret (Some 1))
    (λ (o : option Z) g, if o then closed let_be false g else clean g = true)) as Hout.
  { intros l c. apply (hoare_bind _ _ _ (λ _, closed fresh false)); [apply finished_ok|].
    intros _. apply hoare_ret, closed_let_be. }
  apply Hstart. unfold main. destruct (_ && _); [apply hoare_ret, closed_let_be|].
  destruct (negb _); [apply hoare_ret, closed_let_be|].
  apply hoare_same; [intros; same|]. intros euid.
  apply (hoare_bind _ _ _ (λ _, closed fresh false)).
  { destruct (euid =? 0); [|by apply hoare_ret]. unfold and_then.
    apply hoare_same; [intros; apply same_expected_hardware|]. intros [|]; [|by apply hoare_ret].
    eapply hoare_conseq; [by apply (driver_absent_ok (closed fresh false))|done|naive_solver]. }
  intros [|]; cbn [negb]; [|apply hoare_ret, closed_let_be].
  apply hoare_same; [intros; apply same_configure_signals|].
  intros [|]; cbn [negb]; [|apply hoare_ret, closed_let_be].
  apply hoare_same; [intros g (_ & (? & ? & _) & _); by apply same_open_x|].
  intros [[|] c]; cbn [negb]; [|apply Hout].
  apply (hoare_bind _ _ _ (λ ok, closed fresh ok)); [apply acquire_ok|]. intros [|]; cbn [negb]; [|apply Hout].
  apply (hoare_bind _ _ _ _ _ (open_maps_ok fresh)). intros [|]; cbn [negb]; [|apply Hout].
  apply (hoare_bind _ _ _ _ _ (drive_ok n)). intros [r|]; [|by apply hoare_ret].
  apply (hoare_bind _ _ _ (λ _, closed let_be false)); [apply finished_ok|]. intros _. by apply hoare_ret.
Qed.
End Facts.

(** ** What every run respects *)

(** C9: Whatever the registers, the X server and the kernel answer, a run of
    the program touches a register only while it holds the lock, has the page
    mapped, has the stopping signals blocked and has found the kernel driver
    absent; it moves the pointer, presses a button or pauses for the next sample
    only while no release of a button has failed; and when it returns (by any of
    its exits) no page is mapped, the lock is given back, and a pointer button is
    still pressed only if its release, asked for again after the loop had ended,
    was refused by the X server or its connection. *)
Theorem subpad_guarded {E} `{Answers request E} n argc help (e : E) o w :
  main n argc help (World e []) = (o, w) →
  clean (seen w) = true ∧
  (o ≠ None → (∀ b, b ∈ held (seen w) → b ∈ refused (seen w)) ∧
     mapped (seen w) = [] ∧ locked (seen w) = false).
Proof.
  intros Hm. assert (seen (World e []) = start) as Hs by done.
  pose proof (main_ok n argc help _ _ _ Hs Hm) as Hok. destruct o as [r|]; [|done].
  destruct Hok as (? & ? & ? & ?). split; [done|]. intros _. by split_and!.
Qed.

Lemma subpad_guarded_witness :
  (main 5 1 false (World (Bench.ready 4) [])).1 = Some 0 ∧
  let w := (main 5 1 false (World (Bench.ready 4) [])).2 in
  clean (seen w) = true ∧ (∀ b, b ∈ held (seen w) → b ∈ refused (seen w)) ∧
  mapped (seen w) = [] ∧ locked (seen w) = false.
Proof.
  assert ((main 5 1 false (World (Bench.ready 4) [])).1 = Some 0) as Hr by (vm_compute; reflexivity).
  split; [exact Hr|].
  destruct (main 5 1 false (World (Bench.ready 4) [])) as [o w] eqn:Hm. cbn [fst] in Hr. subst o.
  destruct (subpad_guarded 5 1 false (Bench.ready 4) (Some 0) w Hm) as [Hc Hx].
  split; [exact Hc|]. apply Hx. discriminate.
Defined.
