(* ===== verification/SubpadPorts.v ===== *)
(** * Touch pad as a mouse: the ports are given back

    On a system whose port and clock registers keep what is written to them, a
    run of [SubpadMouse] that ends with status 0 leaves each of them as it was
    found. *)

From S2P Require Import Prelude Traced SubpadMouse.

(** ** Registers that keep what is written *)

(** The registers the program writes and gives back, with their widths. *)
Definition latches : list (Z * page * Z) :=
  [(16, Pfc, PFC_A_OFF); (16, Pfc, MSELCRA_OFF); (16, Pfc, PSELE_OFF); (16, Pfc, PLCR_OFF);
   (16, Pfc, PHCR_OFF); (8, Pfc, PGDR_OFF); (16, Pfc, PGCR_OFF); (8, Pfc, PHDR_OFF);
   (32, Cpg, MSTPCR2_OFF)].

(** The bits of a register that the program may change. *)
Definition owned (p : page) (off : Z) : Z :=
  match p with
  | Pfc =>
      if off =? PFC_A_OFF then 0xf000 else if off =? MSELCRA_OFF then 0x0300
      else if off =? PSELE_OFF then 0x0c00 else if off =? PLCR_OFF then 0x000c
      else if off =? PHCR_OFF then 0x0300 else if off =? PGDR_OFF then 0xff
      else if off =? PGCR_OFF then 0xffff else if off =? PHDR_OFF then 0x10 else 0
  | Cpg => if off =? MSTPCR2_OFF then ADC_CLOCK_BIT else 0
  | Adc => 0
  end.

Class Latched (E : Type) `{Answers request E} (get : E → page → Z → Z) : Prop := {
  get_range w p off e : (w, p, off) ∈ latches → is_u w (get e p off);
  get_read w p off e : (w, p, off) ∈ latches → (answer (Read w p off) e).1 = get e p off;
  get_write w p off v e : (w, p, off) ∈ latches →
    get (answer (Write w p off v) e).2 p off = v mod 2 ^ w;
  get_other w p off r e : (w, p, off) ∈ latches → (∀ v, r ≠ Write w p off v) →
    get (answer r e).2 p off = get e p off;
}.

(** ** Bits *)

Lemma testbit_masked w c m v i :
  0 <= i < w → Z.testbit (masked w c m v) i = if Z.testbit m i then Z.testbit v i else Z.testbit c i.
Proof.
  intros Hi. unfold masked. rewrite Z.lor_spec, !Z.land_spec, Z.lxor_spec.
  rewrite Z.sub_1_r, <- Z.ones_equiv, Z.ones_spec_low by lia.
  destruct (Z.testbit c i), (Z.testbit m i), (Z.testbit v i); done.
Qed.

Lemma mod_testbit w x i : 0 <= i < w → Z.testbit (x mod 2 ^ w) i = Z.testbit x i.
Proof. intros Hi. rewrite Z.mod_pow2_bits_low; [done|lia]. Qed.

(** ** Registers that agree with a state *)

Section Ports.
Context {E : Type} `{Answers request E} {get : E → page → Z → Z} `{!Latched E get}.
Abbreviation K := (st (world request E)).
Implicit Types (l : list (Z * page * Z)) (e : E).

(** The registers are as in [e0], but for the owned bits of those in [l]. *)
Definition kept l e0 e : Prop :=
  ∀ w p off i, (w, p, off) ∈ latches → 0 <= i < w →
  ((w, p, off) ∈ l → Z.testbit (owned p off) i = false) →
  Z.testbit (get e p off) i = Z.testbit (get e0 p off) i.

Lemma kept_mono l l' e0 e : l ⊆ l' → kept l e0 e → kept l' e0 e.
Proof. intros Hl Hk w p off i Hin Hi Hf. apply (Hk w p off i); [done..|]. intros Hin'. by apply Hf, Hl. Qed.

Lemma kept_out l e0 e w p off :
  (w, p, off) ∈ latches → (w, p, off) ∉ l → kept l e0 e → get e p off = get e0 p off.
Proof.
  intros Hin Hout Hk. apply Z.bits_inj'. intros i Hi. destruct (decide (i < w)) as [Hw|Hw].
  - by apply (Hk w p off i); [done|lia|].
  - assert (0 <= w) by (unfold latches in Hin; set_solver by lia).
    rewrite !(is_u_above w) by (try apply (get_range w); solve [done|lia]). done.
Qed.

Lemma kept_refl l e : kept l e e.
Proof. by intros w p off i. Qed.

Lemma kept_same l e0 e e' :
  (∀ w p off, (w, p, off) ∈ latches → get e' p off = get e p off) → kept l e0 e → kept l e0 e'.
Proof. intros Hs Hk w p off i Hin. rewrite (Hs w) by done. by apply (Hk w p off). Qed.

(** A computation keeps what is kept. *)
Definition stays {A} l e0 (m : K A) : Prop :=
  triple (λ w, kept l e0 (env w)) m (λ _ w, kept l e0 (env w)).

Lemma stays_ret {A} l e0 (a : A) : stays l e0 (mret a).
Proof. by apply triple_ret. Qed.
Lemma stays_bind {A B} l e0 (m : K A) (f : A → K B) :
  stays l e0 m → (∀ a, stays l e0 (f a)) → stays l e0 (m ≫= f).
Proof. intros Hm Hf. by eapply triple_bind; [apply Hm|]. Qed.

Definition latch_write (r : request) : bool :=
  match r with Write w p off _ => bool_decide ((w, p, off) ∈ latches) | _ => false end.

Lemma stays_ask l e0 r : latch_write r = false → stays l e0 (ask r).
Proof.
  intros Hr s a s' Hk. unfold ask. destruct (answer r (env s)) as [v e'] eqn:Ea. intros [= <- <-].
  cbn [env]. eapply kept_same; [|apply Hk]. intros w p off Hin.
  replace e' with (answer r (env s)).2 by by rewrite Ea. apply (get_other w); [done|].
  intros x ->. cbn in Hr. by apply bool_decide_eq_false in Hr.
Qed.

(** A register read, and a register written after it. *)
Lemma read_triple l e0 w p off :
  (w, p, off) ∈ latches →
  triple (λ s, kept l e0 (env s)) (ask (Read w p off))
    (λ v s, kept l e0 (env s) ∧ v = get (env s) p off).
Proof.
  intros Hin s a s' Hk Ha. split; [by apply (stays_ask l e0 (Read w p off) eq_refl s a)|].
  unfold ask in Ha. destruct (answer (Read w p off) (env s)) as [v e'] eqn:Ea. injection Ha as <- <-.
  cbn [env]. replace e' with (answer (Read w p off) (env s)).2 by by rewrite Ea.
  rewrite (get_other w) by done. rewrite <- (get_read w) by done. by rewrite Ea.
Qed.

(** Each bit is as in [e0], or as it was and not free. *)
Lemma write_triple l l' e0 w p off c v :
  (w, p, off) ∈ latches → (∀ x, x ∈ l → x = (w, p, off) ∨ x ∈ l') →
  (∀ i, 0 <= i < w → ((w, p, off) ∈ l' → Z.testbit (owned p off) i = false) →
    Z.testbit v i = Z.testbit (get e0 p off) i ∨
    Z.testbit v i = Z.testbit c i ∧ ((w, p, off) ∈ l → Z.testbit (owned p off) i = false)) →
  triple (λ s, kept l e0 (env s) ∧ c = get (env s) p off) (ask (Write w p off v))
    (λ _ s, kept l' e0 (env s)).
Proof.
  intros Hin Hl Hv s a s' [Hk ->] Ha. unfold ask in Ha.
  destruct (answer (Write w p off v) (env s)) as [r e'] eqn:Ea. injection Ha as <- <-. cbn [env].
  replace e' with (answer (Write w p off v) (env s)).2 by by rewrite Ea.
  intros w2 p2 off2 i Hin2 Hi Hf. destruct (decide ((w2, p2, off2) = (w, p, off))) as [[= -> -> ->]|Hne].
  - rewrite (get_write w) by done. rewrite mod_testbit by done.
    destruct (Hv i Hi Hf) as [?|[-> Hfree]]; [done|]. by apply (Hk w p off).
  - rewrite (get_other w2) by (done || (intros ? [= -> -> ->]; done)). apply (Hk w2 p2 off2); [done..|].
    intros Hl2. apply Hf. by destruct (Hl _ Hl2) as [?|?].
Qed.

(** A register of the program's width. *)
Lemma read16_triple l e0 p off :
  (16, p, off) ∈ latches →
  triple (λ s, kept l e0 (env s)) (read16 p off) (λ v s, kept l e0 (env s) ∧ v = get (env s) p off).
Proof.
  intros Hin. eapply triple_bind; [by apply read_triple|]. intros v. apply triple_ret.
  intros s [? ->]. split; [done|]. by apply u16_small, (get_range 16).
Qed.
Lemma read8_triple l e0 p off :
  (8, p, off) ∈ latches →
  triple (λ s, kept l e0 (env s)) (read8 p off) (λ v s, kept l e0 (env s) ∧ v = get (env s) p off).
Proof.
  intros Hin. eapply triple_bind; [by apply read_triple|]. intros v. apply triple_ret.
  intros s [? ->]. split; [done|]. by apply u8_small, (get_range 8).
Qed.
Lemma read32_triple l e0 p off :
  (32, p, off) ∈ latches →
  triple (λ s, kept l e0 (env s)) (read32 p off) (λ v s, kept l e0 (env s) ∧ v = get (env s) p off).
Proof.
  intros Hin. eapply triple_bind; [by apply read_triple|]. intros v. apply triple_ret.
  intros s [? ->]. split; [done|]. by apply u32_small, (get_range 32).
Qed.

(** Reading, and writing a word made of it. *)
Definition modify (w : Z) (p : page) (off : Z) (read : K Z) (f : Z → Z) : K unit :=
  c ← read; tell (Write w p off (f c)).

Lemma modify_triple l l' e0 w p off read f :
  (w, p, off) ∈ latches → (∀ x, x ∈ l → x = (w, p, off) ∨ x ∈ l') →
  triple (λ s, kept l e0 (env s)) read (λ v s, kept l e0 (env s) ∧ v = get (env s) p off) →
  (∀ c i, 0 <= i < w → ((w, p, off) ∈ l' → Z.testbit (owned p off) i = false) →
    Z.testbit (f c) i = Z.testbit (get e0 p off) i ∨
    Z.testbit (f c) i = Z.testbit c i ∧ ((w, p, off) ∈ l → Z.testbit (owned p off) i = false)) →
  triple (λ s, kept l e0 (env s)) (modify w p off read f) (λ _ s, kept l' e0 (env s)).
Proof.
  intros Hin Hl Hr Hf. eapply triple_bind; [apply Hr|]. intros c.
  eapply triple_bind; [eapply write_triple; eauto|]. intros r. by apply triple_ret.
Qed.

(** Within the owned bits, and giving a register back. *)
Lemma modify_stays l e0 w p off read m v :
  (w, p, off) ∈ latches → (w, p, off) ∈ l → Z.land m (owned p off) = m →
  triple (λ s, kept l e0 (env s)) read (λ v s, kept l e0 (env s) ∧ v = get (env s) p off) →
  stays l e0 (modify w p off read (λ c, masked w c m v)).
Proof.
  intros Hin Hinl Hm Hr. apply modify_triple; [done|by right|done|]. intros c i Hi Hf. right.
  specialize (Hf Hinl). rewrite testbit_masked by done. rewrite <- Hm, Z.land_spec, Hf, andb_false_r.
  done.
Qed.

Lemma modify_gives l e0 w p off read :
  (w, p, off) ∈ latches →
  triple (λ s, kept ((w, p, off) :: l) e0 (env s)) read
    (λ v s, kept ((w, p, off) :: l) e0 (env s) ∧ v = get (env s) p off) →
  triple (λ s, kept ((w, p, off) :: l) e0 (env s))
    (modify w p off read (λ c, masked w c (owned p off) (get e0 p off)))
    (λ _ s, kept l e0 (env s)).
Proof.
  intros Hin Hr. apply modify_triple; [done|by intros x ?%elem_of_cons|done|]. intros c i Hi _.
  rewrite testbit_masked by done. destruct (Z.testbit (owned p off) i); auto.
Qed.

(** A register the program owns as a whole. *)
Lemma tell_triple l l' e0 w p off v :
  (w, p, off) ∈ latches → owned p off = Z.ones w → (∀ x, x ∈ l → x = (w, p, off) ∨ x ∈ l') →
  (w, p, off) ∈ l' ∨ v = get e0 p off →
  triple (λ s, kept l e0 (env s)) (tell (Write w p off v)) (λ _ s, kept l' e0 (env s)).
Proof.
  intros Hin Ho Hl Hv. apply triple_pre. intros s Hs.
  apply (triple_conseq (λ s', kept l e0 (env s') ∧ get (env s) p off = get (env s') p off) _ _
           (λ _ s', kept l' e0 (env s'))); [|by intros ? <-|done].
  eapply triple_bind; [apply write_triple; [done..|]|intros r; by apply triple_ret].
  intros i Hi Hf. destruct Hv as [Hv| ->]; [|by left]. specialize (Hf Hv).
  rewrite Ho, Z.ones_spec_low in Hf by lia. done.
Qed.

End Ports.

(** ** The operations *)

Create HintDb stays.
#[export] Hint Resolve stays_ret : stays.
#[export] Hint Extern 1 (stays _ _ (ask _)) => (apply stays_ask; reflexivity) : stays.

Ltac stays :=
  repeat match goal with
  | |- stays _ _ (_ ≫= _) => apply stays_bind; [|intros ?]
  | |- stays _ _ (match ?x with _ => _ end) => destruct x
  | |- stays _ _ (let '(_, _) := ?x in _) => destruct x
  | |- stays _ _ _ => solve [auto with stays]
  | |- stays _ _ _ => progress cbv zeta
  end.

(** Decides membership of a concrete register. *)
Ltac member := apply (bool_decide_unpack _); vm_compute; exact I.

Section Operations.
Context {E : Type} `{Answers request E} {get : E → page → Z → Z} `{!Latched E get}.
Abbreviation K := (st (world request E)).
Abbreviation stays := (SubpadPorts.stays (get := get)).
Abbreviation kept := (SubpadPorts.kept (get := get)).
Implicit Types (l : list (Z * page * Z)) (e : E).

Lemma stays_read8 l e0 p off : stays l e0 (read8 p off). Proof. unfold read8. stays. Qed.
Lemma stays_read16 l e0 p off : stays l e0 (read16 p off). Proof. unfold read16. stays. Qed.
Lemma stays_read32 l e0 p off : stays l e0 (read32 p off). Proof. unfold read32. stays. Qed.
Lemma stays_adc l e0 off v : stays l e0 (write16 Adc off v).
Proof.
  unfold write16, tell. apply stays_bind; [|intros ?; stays]. apply stays_ask. cbn. apply bool_decide_false.
  unfold latches. set_solver by congruence.
Qed.
Hint Resolve stays_read8 stays_read16 stays_read32 stays_adc : stays.

Lemma stays_rmw16 e0 off m v :
  (16, Pfc, off) ∈ latches → Z.land m (owned Pfc off) = m → stays latches e0 (rmw16 Pfc off m v).
Proof. intros. by apply (modify_stays _ _ 16 Pfc off (read16 Pfc off)); [..|apply read16_triple]. Qed.
Lemma stays_rmw8 e0 off m v :
  (8, Pfc, off) ∈ latches → Z.land m (owned Pfc off) = m → stays latches e0 (rmw8 Pfc off m v).
Proof. intros. by apply (modify_stays _ _ 8 Pfc off (read8 Pfc off)); [..|apply read8_triple]. Qed.
Lemma stays_pgdr e0 v : stays latches e0 (write8 Pfc PGDR_OFF v).
Proof. apply tell_triple; [member|done|by right|left; member]. Qed.
Lemma stays_pgcr e0 v : stays latches e0 (write16 Pfc PGCR_OFF v).
Proof. apply tell_triple; [member|done|by right|left; member]. Qed.
Hint Resolve stays_pgdr stays_pgcr : stays.
Hint Extern 1 (stays latches _ (rmw16 Pfc _ _ _)) => (apply stays_rmw16; [member|reflexivity]) : stays.
Hint Extern 1 (stays latches _ (rmw8 Pfc _ _ _)) => (apply stays_rmw8; [member|reflexivity]) : stays.

Section Before.
Context (e0 : E).
Abbreviation holds := (stays latches e0).

Lemma stays_base_pfc : holds base_pfc. Proof. unfold base_pfc. stays. Qed.
Lemma stays_wait_clear l off mask : stays l e0 (wait_clear off mask).
Proof. unfold wait_clear. induction ADC_TIMEOUT; cbn [wait_clear_loop]; stays. Qed.
Lemma stays_clear_bits l off bits : stays l e0 (clear_bits off bits).
Proof. unfold clear_bits. stays. Qed.
Hint Resolve stays_base_pfc stays_wait_clear stays_clear_bits : stays.
Lemma stays_normal_rest high : holds (normal_rest high).
Proof. unfold normal_rest. stays. Qed.
Lemma stays_pen_reads n c : holds (pen_reads n c).
Proof. revert c. induction n; intros c; cbn [pen_reads]; stays. Qed.
Hint Resolve stays_normal_rest stays_pen_reads : stays.
Lemma stays_read_pen : holds read_pen. Proof. unfold read_pen. stays. Qed.
Lemma stays_emergency : holds emergency_abort_idle. Proof. unfold emergency_abort_idle. stays. Qed.
Hint Resolve stays_read_pen stays_emergency : stays.
Lemma stays_failed : holds failed. Proof. unfold failed. stays. Qed.
Hint Resolve stays_failed : stays.
Lemma stays_read_adc : holds read_adc. Proof. unfold read_adc. stays. Qed.
End Before.

(** ** Taking the state of the ports and giving it back *)

Section Giving.
Context (e0 : E).
Abbreviation keeping l := (λ w : world request E, kept l e0 (env w)).
Abbreviation clock_latch := (32, Cpg, MSTPCR2_OFF).

Definition captured : pfc_snapshot :=
  Snapshot (get e0 Pfc PGCR_OFF) (get e0 Pfc PHCR_OFF) (get e0 Pfc PLCR_OFF)
    (get e0 Pfc PSELE_OFF) (get e0 Pfc MSELCRA_OFF) (get e0 Pfc PFC_A_OFF)
    (get e0 Pfc PGDR_OFF) (get e0 Pfc PHDR_OFF).

(** A computation with a known result. *)
Lemma bind_value {A B} P R (m : K A) (f : A → K B) x Q :
  triple P m (λ a s, R s ∧ a = x) → triple R (f x) Q → triple P (m ≫= f) Q.
Proof.
  intros Hm Hf. eapply triple_bind; [apply Hm|]. intros a s b s' [Hs ->]. by apply Hf.
Qed.

Lemma value_out l w p off (m : K Z) :
  (w, p, off) ∈ latches → (w, p, off) ∉ l →
  triple (keeping l) m (λ v s, keeping l s ∧ v = get (env s) p off) →
  triple (keeping l) m (λ v s, keeping l s ∧ v = get e0 p off).
Proof.
  intros Hin Hout Hm. eapply triple_conseq; [apply Hm|done|]. intros v s [Hk ->]. split; [done|].
  by apply (kept_out l _ _ w).
Qed.

Lemma read16_out l off :
  (16, Pfc, off) ∈ latches → (16, Pfc, off) ∉ l →
  triple (keeping l) (read16 Pfc off) (λ v s, keeping l s ∧ v = get e0 Pfc off).
Proof. intros. by apply (value_out l 16), read16_triple. Qed.
Lemma read8_out l off :
  (8, Pfc, off) ∈ latches → (8, Pfc, off) ∉ l →
  triple (keeping l) (read8 Pfc off) (λ v s, keeping l s ∧ v = get e0 Pfc off).
Proof. intros. by apply (value_out l 8), read8_triple. Qed.

Lemma capture_ok : triple (keeping []) capture_pfc (λ s w, keeping [] w ∧ s = captured).
Proof.
  unfold capture_pfc.
  do 3 (eapply bind_value; [apply read16_out; member|]).
  do 2 (eapply bind_value; [apply read8_out; member|]).
  do 3 (eapply bind_value; [apply read16_out; member|]).
  by apply triple_ret.
Qed.

Lemma gives16 l off :
  (16, Pfc, off) ∈ latches →
  triple (keeping ((16, Pfc, off) :: l)) (rmw16 Pfc off (owned Pfc off) (get e0 Pfc off)) (λ _, keeping l).
Proof. intros. by apply (modify_gives l e0 16 Pfc off (read16 Pfc off)); [|apply read16_triple]. Qed.
Lemma gives8 l off :
  (8, Pfc, off) ∈ latches →
  triple (keeping ((8, Pfc, off) :: l)) (rmw8 Pfc off (owned Pfc off) (get e0 Pfc off)) (λ _, keeping l).
Proof. intros. by apply (modify_gives l e0 8 Pfc off (read8 Pfc off)); [|apply read8_triple]. Qed.
Lemma gives_tell l w p off :
  (w, p, off) ∈ latches → owned p off = Z.ones w →
  triple (keeping ((w, p, off) :: l)) (tell (Write w p off (get e0 p off))) (λ _, keeping l).
Proof. intros. apply tell_triple; [done..| |by right]. by intros x ?%elem_of_cons. Qed.

Lemma same16_true l off mask :
  (16, Pfc, off) ∈ latches → (16, Pfc, off) ∉ l →
  triple (keeping l) (same16 off mask (get e0 Pfc off)) (λ ok w, keeping l w ∧ ok = true).
Proof.
  intros. unfold same16. eapply bind_value; [by apply read16_out|].
  apply triple_ret. intros w Hw. split; [done|]. apply Z.eqb_refl.
Qed.
Lemma same8_true l off mask :
  (8, Pfc, off) ∈ latches → (8, Pfc, off) ∉ l →
  triple (keeping l) (same8 off mask (get e0 Pfc off)) (λ ok w, keeping l w ∧ ok = true).
Proof.
  intros. unfold same8. eapply bind_value; [by apply read8_out|].
  apply triple_ret. intros w Hw. split; [done|]. apply Z.eqb_refl.
Qed.

(** Giving the ports back succeeds, and leaves at most the clock to be given back. *)
Definition ports : list (Z * page * Z) :=
  [(16, Pfc, PFC_A_OFF); (16, Pfc, MSELCRA_OFF); (16, Pfc, PSELE_OFF); (16, Pfc, PLCR_OFF);
   (16, Pfc, PHCR_OFF); (8, Pfc, PGDR_OFF); (16, Pfc, PGCR_OFF); (8, Pfc, PHDR_OFF)].

Lemma restore_pfc_ok (clock : bool) :
  triple (keeping (ports ++ if clock then [clock_latch] else [])) (restore_pfc captured)
    (λ ok w, keeping (if clock then [clock_latch] else []) w ∧ ok = true).
Proof.
  destruct clock; unfold restore_pfc, ports; cbn [app pfc_a mselcra psele plcr phcr pgdr pgcr phdr captured];
  (do 5 (eapply triple_bind; [apply gives16; member|intros ?]);
   do 2 (eapply triple_bind; [apply gives_tell; [member|reflexivity]|intros ?]);
   eapply triple_bind; [apply gives8; member|intros ?]; unfold and_then;
   eapply bind_value; [apply same16_true; member|];
   eapply bind_value; [apply same8_true; member|];
   do 5 (eapply bind_value; [apply same16_true; member|]);
   apply same8_true; member).
Qed.

(** The clock bit. *)
Lemma testbit_clock i : Z.testbit ADC_CLOCK_BIT i = (27 =? i).
Proof. change ADC_CLOCK_BIT with (2 ^ 27). by apply Z.pow2_bits_eqb. Qed.

Lemma gated_bit v : gated v = Z.testbit v 27.
Proof.
  unfold gated. destruct (Z.testbit v 27) eqn:Hb.
  - apply negb_true_iff, Z.eqb_neq. intros H0. apply (f_equal (λ u, Z.testbit u 27)) in H0.
    rewrite Z.land_spec, Hb, testbit_clock in H0. done.
  - apply negb_false_iff, Z.eqb_eq, Z.bits_inj'. intros i Hi. rewrite Z.land_spec, testbit_clock, Z.bits_0.
    destruct (Z.eqb_spec 27 i) as [<-|]; [by rewrite Hb|by rewrite andb_false_r].
Qed.

Abbreviation was_found := (gated (get e0 Cpg MSTPCR2_OFF)).

(** Opening the clock leaves only its bit to be given back. *)
Lemma open_write l :
  triple (keeping l)
    (current ← read32 Cpg MSTPCR2_OFF;
     write32 Cpg MSTPCR2_OFF (Z.land current (Z.lxor ADC_CLOCK_BIT (2 ^ 32 - 1))))
    (λ _, keeping (l ++ [clock_latch])).
Proof.
  apply (modify_triple l (l ++ [clock_latch]) e0 32 Cpg MSTPCR2_OFF (read32 Cpg MSTPCR2_OFF)
    (λ c, Z.land c (Z.lxor ADC_CLOCK_BIT (2 ^ 32 - 1)))); [member|set_solver|apply read32_triple; member|].
  intros c i Hi Hf. assert (clock_latch ∈ l ++ [clock_latch]) as Hin by set_solver.
  specialize (Hf Hin). right. split; [|done]. rewrite Z.land_spec, Z.lxor_spec.
  change (Z.testbit ADC_CLOCK_BIT i = false) in Hf. rewrite Hf.
  change (2 ^ 32 - 1) with (Z.ones 32). by rewrite Z.ones_spec_low, andb_true_r by lia.
Qed.

Lemma open_clock_ok :
  triple (keeping []) open_adc_clock (λ r w, keeping [clock_latch] w ∧ r.2 = was_found).
Proof.
  unfold open_adc_clock. eapply bind_value; [apply (value_out [] 32 Cpg MSTPCR2_OFF);
    [member|member|apply read32_triple; member]|].
  cbv zeta. apply (triple_bind _ _ _ (λ _, keeping [clock_latch])).
  - destruct (gated (get e0 Cpg MSTPCR2_OFF)); [apply (open_write [])|].
    apply triple_ret. intros w. apply kept_mono. set_solver.
  - intros _. eapply triple_bind; [apply stays_read32|]. intros c. by apply triple_ret.
Qed.

(** With the clock bit as found, everything is. *)
Lemma clock_kept e :
  kept [clock_latch] e0 e →
  Z.testbit (get e Cpg MSTPCR2_OFF) 27 = Z.testbit (get e0 Cpg MSTPCR2_OFF) 27 → kept [] e0 e.
Proof.
  intros Hk Hb w p off i Hin Hi _. destruct (Z.eq_dec i 27) as [->|Hne].
  - destruct (decide ((w, p, off) = clock_latch)) as [[= -> -> ->]|Hout]; [done|].
    apply (Hk w p off); [done..|]. by intros ?%list_elem_of_singleton.
  - apply (Hk w p off); [done..|]. intros [= -> -> ->]%list_elem_of_singleton.
    change (Z.testbit ADC_CLOCK_BIT i = false). rewrite testbit_clock. lia.
Qed.

Lemma gate_ok c :
  Z.testbit (get e0 Cpg MSTPCR2_OFF) 27 = true →
  triple (λ w, keeping [clock_latch] w ∧ c = get (env w) Cpg MSTPCR2_OFF)
    (write32 Cpg MSTPCR2_OFF (Z.lor c ADC_CLOCK_BIT)) (λ _, keeping []).
Proof.
  intros Hb. apply (triple_bind _ _ _ (λ _, keeping [])); [|intros r; by apply triple_ret].
  apply (write_triple [clock_latch] [] e0 32); [member|by intros x ?%elem_of_cons|].
  intros i Hi _. rewrite Z.lor_spec, testbit_clock. destruct (Z.eqb_spec 27 i) as [<-|Hne].
  - left. by rewrite Hb, orb_true_r.
  - right. rewrite orb_false_r. split; [done|]. intros _.
    change (Z.testbit ADC_CLOCK_BIT i = false). rewrite testbit_clock. lia.
Qed.

(** Reading the clock register last tells whether it was given back. *)
Lemma clock_check l b :
  triple (keeping l) (c ← read32 Cpg MSTPCR2_OFF; mret (bool_decide (gated c = b)))
    (λ ok w, keeping l w ∧ (ok = true → gated (get (env w) Cpg MSTPCR2_OFF) = b)).
Proof.
  eapply triple_bind; [apply read32_triple; member|]. intros c. apply triple_ret.
  intros w [? ->]. split; [done|]. apply bool_decide_eq_true.
Qed.

Lemma restore_clock_ok :
  triple (keeping [clock_latch]) (restore_adc_clock was_found) (λ ok w, ok = true → keeping [] w).
Proof.
  destruct was_found eqn:Hb.
  - rewrite gated_bit in Hb. eapply triple_bind; [apply read32_triple; member|]. intros c.
    eapply triple_bind; [by apply gate_ok|]. intros u.
    apply (triple_conseq (keeping []) _ _ _ _ (clock_check [] true)); [done|].
    intros ok w [Hk Hg] _. exact Hk.
  - eapply triple_bind; [apply stays_read32|]. intros c.
    apply (triple_bind _ _ _ (λ _, keeping [clock_latch])); [by apply triple_ret|]. intros _.
    apply (triple_conseq _ _ _ _ _ (clock_check [clock_latch] false)); [done|]. intros ok w [Hk Hg] Hok.
    apply clock_kept; [done|]. rewrite <- !gated_bit. by rewrite Hb, Hg.
Qed.

(** ** The rest of the program *)

Lemma stays_emit_button l b d : stays l e0 (emit_button b d).
Proof. unfold emit_button, x_checked_button, and_then, equals, no_connection_error, equals. stays. Qed.
Lemma stays_emit_zone l z : stays l e0 (emit_zone z).
Proof.
  destruct z; cbn [emit_zone]; try apply stays_emit_button; try apply stays_ret;
    unfold emit_motion, and_then, no_connection_error, equals; stays.
Qed.
Lemma stays_release_zone l z : stays l e0 (release_zone z).
Proof. destruct z; try apply stays_emit_button; apply stays_ret. Qed.
Lemma stays_cadence l : stays l e0 cadence.
Proof. unfold cadence. induction YIELD_TURNS; cbn [yields]; unfold tell; stays. Qed.
Lemma stays_mask l : stays l e0 block_stopping_signals /\ stays l e0 restore_signal_mask.
Proof. unfold block_stopping_signals, restore_signal_mask, not_negative. split; stays. Qed.
Lemma stays_block l : stays l e0 block_stopping_signals. Proof. apply stays_mask. Qed.
Lemma stays_unblock l : stays l e0 restore_signal_mask. Proof. apply stays_mask. Qed.
Hint Resolve stays_emit_zone stays_release_zone stays_cadence stays_block stays_unblock : stays.
Hint Resolve stays_read_pen stays_read_adc stays_normal_rest : stays.

Lemma stays_no_sample l m : stays l e0 (no_sample m).
Proof. unfold no_sample. stays. Qed.
Lemma stays_held_zone l m : stays l e0 (held_zone m).
Proof. unfold held_zone. stays. Qed.
Lemma stays_new_sample l s m : stays l e0 (new_sample s m).
Proof. unfold new_sample. stays. Qed.
Hint Resolve stays_no_sample stays_held_zone stays_new_sample : stays.
Lemma stays_react l b r s m : stays l e0 (react b r s m).
Proof. unfold react. stays. Qed.
Hint Resolve stays_react : stays.
Lemma stays_poll m : stays latches e0 (poll m).
Proof. unfold poll. stays. Qed.
Hint Resolve stays_poll : stays.
Lemma stays_poll_loop n m : stays latches e0 (poll_loop n m).
Proof.
  revert m. induction n; intros m; cbn [poll_loop]; unfold after_loop, no_connection_error, equals; stays.
Qed.
Hint Resolve stays_poll_loop : stays.

Lemma stays_unmap l ps : stays l e0 (unmap_all ps).
Proof. induction ps; cbn [unmap_all]; unfold tell; stays. Qed.
Hint Resolve stays_unmap : stays.
Lemma stays_close_maps l b ps : stays l e0 (close_maps b ps).
Proof. unfold close_maps, tell. stays. Qed.
Hint Resolve stays_close_maps : stays.
Lemma stays_close_mmio l b : stays l e0 (close_mmio b).
Proof. unfold close_mmio. stays. Qed.
Lemma stays_finished l a b : stays l e0 (finished a b).
Proof. unfold finished, tell. stays. Qed.
Lemma stays_map_pages l ps ms : stays l e0 (map_pages ps ms).
Proof. revert ms. induction ps; intros ms; cbn [map_pages]; stays. Qed.
Hint Resolve stays_close_mmio stays_finished stays_map_pages : stays.
Lemma stays_open_maps l : stays l e0 open_maps.
Proof. unfold open_maps. stays. Qed.
Lemma stays_for_all {A} l (f : A → K bool) xs : (∀ a, stays l e0 (f a)) → stays l e0 (for_all f xs).
Proof. intros Hf. induction xs; cbn [for_all]; unfold and_then; stays. Qed.
Hint Resolve stays_for_all : stays.

Lemma stays_expected l : stays l e0 expected_hardware.
Proof. unfold expected_hardware, and_then, equals, tell. stays. Qed.
Lemma stays_absent l : stays l e0 experimental_driver_absent.
Proof. unfold experimental_driver_absent, equals. stays. Qed.
Lemma stays_not_negative l r : latch_write r = false → stays l e0 (not_negative r).
Proof. intros Hr. unfold not_negative. apply stays_bind; [by apply stays_ask|]. intros ?. stays. Qed.
Lemma stays_and_then l c1 c2 : stays l e0 c1 → stays l e0 c2 → stays l e0 (and_then c1 c2).
Proof. intros. unfold and_then. stays. Qed.
Lemma stays_configure l : stays l e0 configure_signals.
Proof.
  unfold configure_signals. repeat first
    [ by apply stays_not_negative | apply stays_ret | apply stays_and_then | apply stays_for_all; intros ? ].
Qed.
Lemma stays_open_x l : stays l e0 open_x.
Proof.
  unfold open_x, no_connection_error, equals. stays; apply stays_and_then; [stays|].
  stays. apply stays_for_all. intros b. apply stays_emit_button.
Qed.
Lemma stays_acquire l : stays l e0 acquire_lock.
Proof. unfold acquire_lock, tell. stays. Qed.
Hint Resolve stays_expected stays_absent stays_configure stays_open_x stays_acquire stays_open_maps : stays.

(** [keeping []] is what status 0 promises; another status promises nothing. *)
Abbreviation promise r := (λ w, r = Some 0 → keeping [] w).

Lemma triple_any {A} P (m : K A) : triple P m (λ _ _, True).
Proof. by intros w a w' _ _. Qed.

Lemma stays_step {A B} l (m : K A) (f : A → K B) Q :
  stays l e0 m → (∀ a, triple (keeping l) (f a) Q) → triple (keeping l) (m ≫= f) Q.
Proof. intros Hm Hf. by apply (triple_bind _ _ _ (λ _, keeping l)). Qed.

(** Status 0 under a condition is not undone by what only stays. *)
Lemma stays_under {A B} (C : Prop) (m : K A) (b : B) :
  (∀ l, stays l e0 m) → triple (λ w, C → keeping [] w) (m;; mret b) (λ b' w, b' = b ∧ (C → keeping [] w)).
Proof.
  intros Hm w b' w' Hw E1. unfold mbind, st_mbind in E1. destruct (m w) as [a w1] eqn:Em.
  injection E1 as <- <-. split; [done|]. intros HC. exact (Hm [] w a w1 (Hw HC) Em).
Qed.

Lemma quits P (m : K unit) :
  triple P (m;; mret (Some 1)) (λ r, promise r).
Proof. eapply triple_bind; [apply triple_any|]. intros u. by apply triple_ret. Qed.

Lemma shutdown_ports m :
  triple (keeping latches) (shutdown_hardware captured was_found m) (λ r w, r.1 = 0 → keeping [] w).
Proof.
  unfold shutdown_hardware. apply stays_step; [stays|]. intros u.
  apply (triple_bind _ _ _ (λ '(safe, pfc, clock) w, safe && pfc && clock = true → keeping [] w)).
  - destruct (hardware_safe m); [|by apply triple_ret].
    apply stays_step; [stays|]. intros blocked.
    apply (triple_bind _ _ _ (λ '(safe, pfc, clock) w, safe && pfc && clock = true → keeping [] w)).
    + destruct blocked; [|by apply triple_ret].
      eapply triple_bind; [apply stays_normal_rest|]. intros [|]; [|by apply triple_ret].
      eapply bind_value; [apply (restore_pfc_ok true)|]. cbn [negb].
      eapply triple_bind; [apply restore_clock_ok|]. intros clock. by apply triple_ret.
    + intros [[safe pfc] clock].
      refine (triple_conseq _ _ _ _ _ (stays_under (safe && pfc && clock = true) _ _ _) _ _);
        [intros l; stays|done|]. intros r w [-> Hk]. exact Hk.
  - intros [[safe pfc] clock]. apply triple_ret. intros w Hw Hr. apply Hw. cbn [fst] in Hr.
    by destruct safe, pfc, clock.
Qed.

Lemma drive_ports n : triple (keeping []) (drive n) (λ r, promise r).
Proof.
  unfold drive. apply stays_step; [stays|]. intros [|]; cbn [negb]; [|apply quits].
  apply stays_step; [stays|]. intros [|]; cbn [negb]; [|apply quits].
  eapply bind_value; [apply capture_ok|].
  eapply triple_bind; [apply open_clock_ok|]. intros [opened was].
  apply triple_pre. intros w0 [Hw0 Hwas]. cbn [snd] in Hwas. subst was.
  apply (triple_conseq (keeping [clock_latch]) _ _ (λ r, promise r)); [|by intros ? <-|done].
  destruct opened; cbn [negb].
  2: { eapply triple_bind; [apply triple_any|]. intros u. apply quits. }
  apply (triple_conseq (keeping latches) _ _ (λ r, promise r));
    [|intros w; apply kept_mono; unfold latches; set_solver|done].
  apply stays_step; [stays|]. intros [|]; cbn [negb]; [|apply quits].
  apply stays_step; [stays|]. intros b.
  apply stays_step; [stays|]. intros [m|]; [|by apply triple_ret].
  eapply triple_bind; [apply shutdown_ports|]. intros [r blocked]. cbn [fst].
  refine (triple_conseq _ _ _ _ _ (stays_under (r = 0) _ _ _) _ _);
    [intros l; apply stays_close_mmio|done|]. intros o w [-> Hk] [= ->]. by apply Hk.
Qed.

Lemma main_ports n argc help : triple (keeping []) (main n argc help) (λ r, promise r).
Proof.
  unfold main. destruct (_ && _); [by apply triple_ret|]. destruct (negb _); [by apply triple_ret|].
  apply stays_step; [stays|]. intros euid.
  apply stays_step; [unfold and_then; stays|]. intros [|]; cbn [negb]; [|by apply triple_ret].
  apply stays_step; [stays|]. intros [|]; cbn [negb]; [|by apply triple_ret].
  apply stays_step; [stays|]. intros [[|] connection]; cbn [negb]; [|apply quits].
  apply stays_step; [stays|]. intros [|]; cbn [negb]; [|apply quits].
  apply stays_step; [stays|]. intros [|]; cbn [negb]; [|apply quits].
  eapply triple_bind; [apply drive_ports|]. intros [r|]; [|by apply triple_ret].
  refine (triple_conseq _ _ _ _ _ (stays_under (Some r = Some 0) _ _ _) _ _);
    [intros l; apply stays_finished|done|]. intros o w [-> Hk]. exact Hk.
Qed.
End Giving.
End Operations.
#[export] Hint Resolve stays_read8 stays_read16 stays_read32 stays_adc : stays.

(** ** The ports are given back *)

(** C28: On a system whose port registers and clock register keep what is
    written to them, a run that ends with status 0 leaves every bit of each of
    the nine registers it writes as it was when the program started, whatever
    the pad, the ADC, the X server and the kernel answered and however often
    the pad was sampled. *)
Theorem ports_given_back {E} `{Answers request E} (get : E → page → Z → Z) `{!Latched E get}
    n argc help (e : E) w :
  main n argc help (World e []) = (Some 0, w) →
  ∀ width p off, (width, p, off) ∈ latches → get (env w) p off = get e p off.
Proof.
  intros Hm width p off Hin.
  pose proof (main_ports e n argc help _ _ _ (kept_refl [] e) Hm eq_refl) as Hk.
  apply (kept_out [] e (env w) width); [done|apply not_elem_of_nil|done].
Qed.

(** The bench is such a system. *)
Ltac each_latch Hin :=
  unfold latches in Hin; repeat (apply elem_of_cons in Hin as [[= -> -> ->]|Hin]; [reflexivity|]);
  by apply not_elem_of_nil in Hin.

Lemma latch_width w p off : (w, p, off) ∈ latches → Bench.width p off = w.
Proof. intros Hin. each_latch Hin. Qed.

Lemma board_write w p off v e :
  (w, p, off) ∈ latches → Bench.reg (answer (Write w p off v) e).2 p off = v mod 2 ^ w.
Proof. intros Hin. each_latch Hin. Qed.

Lemma board_other w p off r e :
  (w, p, off) ∈ latches → (∀ v, r ≠ Write w p off v) →
  Bench.reg (answer r e).2 p off = Bench.reg e p off.
Proof.
  intros Hin Hr. destruct r; try reflexivity; [|cbn; by destruct (Bench.patience e)].
  cbn. destruct (Z.eqb_spec w0 (Bench.width p0 off0)) as [->|]; [|done].
  unfold Bench.reg, Bench.set_reg. cbn. destruct (bool_decide _ && _) eqn:Hb; [|done].
  apply andb_true_iff in Hb as [<-%bool_decide_eq_true <-%Z.eqb_eq].
  exfalso. apply (Hr v). by rewrite (latch_width w).
Qed.

#[export] Instance board_latched : Latched Bench.bench Bench.reg.
Proof.
  split; [|done|apply board_write|apply board_other].
  intros w p off e Hin. unfold Bench.reg. rewrite (latch_width w) by done.
  apply Z.mod_pos_bound. unfold latches in Hin. set_solver by lia.
Qed.

Lemma ports_given_back_witness :
  (main 5 1 false (World (Bench.ready 4) [])).1 = Some 0 ∧
  ∀ width p off, (width, p, off) ∈ latches →
    Bench.reg (env (main 5 1 false (World (Bench.ready 4) [])).2) p off =
    Bench.reg (Bench.ready 4) p off.
Proof.
  assert ((main 5 1 false (World (Bench.ready 4) [])).1 = Some 0) as Hr by (vm_compute; reflexivity).
  split; [exact Hr|].
  destruct (main 5 1 false (World (Bench.ready 4) [])) as [o w] eqn:Hm. cbn [fst] in Hr. subst o.
  exact (ports_given_back Bench.reg 5 1 false (Bench.ready 4) w Hm).
Defined.
