(* ===== verification/TouchDiag.v ===== *)
(** * Diagnosis of the touch panel ([src/x11/apps/touchdiag.c])

    The program that reads, and with [--yes] exercises, the registers of the
    touch panel.  Its register sequences are those of the driver in user space
    where the source repeats them: such a definition is the one of
    [SubpadMouse].  What it prints on the standard output is a request ([Puts]);
    its messages on errors, barriers and the delay loops of [settle] are left
    out. *)

From Stdlib Require Import String Ascii.
From S2P Require Import Prelude Text Traced SubpadMouse.

(** ** Constants and data *)

Definition ADC_TIMEOUT : nat := Z.to_nat 65536.
Definition MAP_PFC : Z := 1.
Definition MAP_CPG : Z := 2.
Definition MAP_ADC : Z := 4.

Inductive command : Type :=
| CMD_INFO | CMD_PFC_LIVE | CMD_PEN | CMD_CLOCK_LIVE | CMD_CLOCK_TEST | CMD_ADC_ONCE.

Inductive adc_status : Type :=
| ADC_OK | ADC_NO_CONTACT | ADC_CLOCK_FAILED | ADC_IDLE_TIMEOUT | ADC_GENERIC_TIMEOUT
| ADC_CONVERSION_TIMEOUT.
#[export] Instance adc_status_eq_dec : EqDecision adc_status.
Proof. solve_decision. Defined.

(** [struct sample]; [raw] holds [x] and [y]. *)
Record sample := Sample { b : Z; a : Z; d : Z; c : Z; raw : SubpadMouse.sample; valid : bool }.
Definition no_sample : sample := Sample 0 0 0 0 (SubpadMouse.Sample 0 0) false.

Definition usage : list Z :=
  c_str ["XD-B8600 secondary touch diagnostic\n\n"; "Usage:\n"; "  touchdiag info\n";
         "  touchdiag pfc --live\n"; "  touchdiag pen --yes\n"; "  touchdiag clock --live\n";
         "  touchdiag clock-on --yes\n"; "  touchdiag adc-once --yes\n\n";
         "Run only on an XD-B8600 text console before startx. Test pen first.\n";
         "ADC access is experimental and may require a hardware reset.\n"]%string.

(** The arguments, the name of the program first; [1] asks for help, [-1] is an error. *)
Definition parse_command (argv : list (list Z)) : Z * option command :=
  match argv with
  | [_] => (0, Some CMD_INFO)
  | [_; x] =>
      if bool_decide (x = str "info") then (0, Some CMD_INFO)
      else if bool_decide (x = str "--help") || bool_decide (x = str "-h") then (1, None)
      else (-1, None)
  | [_; x; y] =>
      if bool_decide (x = str "pfc") && bool_decide (y = str "--live") then (0, Some CMD_PFC_LIVE)
      else if bool_decide (x = str "pen") && bool_decide (y = str "--yes") then (0, Some CMD_PEN)
      else if bool_decide (x = str "clock") && bool_decide (y = str "--live") then (0, Some CMD_CLOCK_LIVE)
      else if bool_decide (x = str "clock-on") && bool_decide (y = str "--yes") then (0, Some CMD_CLOCK_TEST)
      else if bool_decide (x = str "adc-once") && bool_decide (y = str "--yes") then (0, Some CMD_ADC_ONCE)
      else (-1, None)
  | _ => (-1, None)
  end.

Section Diag.
Context {E : Type} `{Answers request E}.
Abbreviation K := (st (world request E)).

Definition puts (s : list Z) : K unit := tell (Puts (s ++ [10])).

(** ** Mappings, signals and checks *)

(** The pages that [wanted] names, in the order in which they are mapped. *)
Definition wanted_pages (wanted : Z) : list page :=
  (if negb (Z.land wanted MAP_PFC =? 0) then [Pfc] else []) ++
  (if negb (Z.land wanted MAP_CPG =? 0) then [Cpg] else []) ++
  (if negb (Z.land wanted MAP_ADC =? 0) then [Adc] else []).

(** The pages mapped, the first first. *)
Definition close_maps (ps : list page) : K unit := SubpadMouse.close_maps true ps.

Definition map_page (p : page) (writable : bool) : K bool :=
  r ← ask (if writable then Mmap p else MmapReadOnly p); mret (negb (r =? 0)).

Fixpoint map_pages (ps mapped : list page) (writable : bool) : K bool :=
  match ps with
  | [] => mret true
  | p :: ps =>
      ok ← map_page p writable;
      if ok : bool then map_pages ps (mapped ++ [p]) writable else close_maps mapped;; mret false
  end.

Definition open_maps (wanted : Z) (writable : bool) : K bool :=
  size ← ask Sysconf;
  if negb (size =? 4096) then mret false
  else
    s ← ask StatMem;
    chr ← (if s <? 0 then mret 0 else ask MemIsChr);
    if chr =? 0 then mret false
    else
      fd ← ask (if writable then OpenMem else OpenMemReadOnly);
      if fd <? 0 then mret false else map_pages (wanted_pages wanted) [] writable.

Definition block_async_signals : K bool :=
  and_then (not_negative SigFillSet)
    (and_then (for_all (λ s, not_negative (SigDelSet s)) synchronous) (not_negative SigBlock)).
Definition restore_signals : K unit := tell SigRestore.

Definition experimental_driver_absent : K bool := SubpadMouse.experimental_driver_absent.
Definition expected_hardware : K bool := SubpadMouse.expected_hardware.

Definition KD_TEXT : Z := 0.
Definition active_text_vt : K bool :=
  tty ← ask Isatty;
  if tty =? 0 then mret false
  else
    and_then (not_negative KdGetMode) (and_then (equals KdMode KD_TEXT)
    (and_then (not_negative FstatStdin)
      (chr ← ask StdinIsChr;
       if chr =? 0 then mret false
       else and_then (equals StdinMajor 4)
         (minor ← ask StdinMinor;
          if minor =? 0 then mret false
          else and_then (not_negative VtGetState) (equals VtActive minor))))).

Definition preflight_write : K bool :=
  and_then (equals Geteuid 0)
    (and_then expected_hardware (and_then active_text_vt experimental_driver_absent)).

Definition acquire_lock : K bool := SubpadMouse.acquire_lock.

(** ** Ports and ADC *)

Definition capture_pfc : K pfc_snapshot := SubpadMouse.capture_pfc.
Definition base_pfc : K unit := SubpadMouse.base_pfc.

Definition force_rest_high : K unit :=
  base_pfc;;
  write16 Pfc PGCR_OFF 0xaaaa;;
  write8 Pfc PGDR_OFF 0;;
  rmw8 Pfc PHDR_OFF 0x10 0x10.

Fixpoint pen_reads (passes : nat) (contact : bool) (observed : Z) : K (bool * Z) :=
  match passes with
  | O => mret (contact, observed)
  | S passes =>
      value ← read8 Pfc PLDR_OFF;
      pen_reads passes (if negb (Z.land value 0x02 =? 0) then false else contact)
        (u8 (Z.lor observed value))
  end.

(** Whether there is contact, and the value observed. *)
Definition read_pen : K (bool * Z) :=
  rmw16 Pfc PLCR_OFF 0x000c 0x0008;;
  r ← pen_reads 5 true 0;
  base_pfc;;
  mret r.

Definition restore_pfc (s : pfc_snapshot) : K bool := force_rest_high;; SubpadMouse.restore_pfc s.

Definition wait_clear (off mask : Z) : K bool := wait_clear_loop ADC_TIMEOUT off mask.

(** Whether the clock runs, whether it was gated, and its register afterwards. *)
Definition open_adc_clock : K (bool * bool * Z) :=
  current ← read32 Cpg MSTPCR2_OFF;
  let was_gated := gated current in
  (if was_gated : bool then
     current ← read32 Cpg MSTPCR2_OFF;
     write32 Cpg MSTPCR2_OFF (Z.land current (Z.lxor ADC_CLOCK_BIT (2 ^ 32 - 1)))
   else mret tt);;
  after ← read32 Cpg MSTPCR2_OFF;
  mret (negb (gated after), was_gated, after).

Definition restore_adc_clock (was_gated : bool) : K bool := SubpadMouse.restore_adc_clock was_gated.

Definition adc_cleanup : K bool :=
  clear_bits ADCCSR_OFF 0xe000;;
  idle ← wait_clear ADCCSR_OFF 0x2000;
  if negb idle then mret false
  else
    write16 Adc ADCUST_OFF 0;;
    clear_bits ADCSR_OFF 0x2000;;
    wait_clear ADCSR_OFF 0x2000.

(** The conversion, with the clock open; the sample is stored on success only. *)
Definition adc_convert : K (adc_status * sample) :=
  idle ← wait_clear ADCCSR_OFF 0x2000;
  if negb idle then mret (ADC_IDLE_TIMEOUT, no_sample)
  else
    write16 Adc ADCUST_OFF 0;;
    clear_bits ADCSR_OFF 0x2000;;
    write16 Pfc PGCR_OFF 0xaaaa;;
    write8 Pfc PGDR_OFF 0;;
    rmw8 Pfc PHDR_OFF 0x10 0;;
    rmw16 Pfc PFC_A_OFF 0xf000 0x5000;;
    write16 Pfc PGCR_OFF 0;;
    rmw16 Pfc MSELCRA_OFF 0x0300 0;;
    idle ← wait_clear ADCSR_OFF 0x2000;
    if negb idle then mret (ADC_GENERIC_TIMEOUT, no_sample)
    else
      write16 Adc ADCUST_OFF 0x8000;;
      frq ← read32 Cpg FRQCRA_OFF;
      let base := if Z.land frq 0x0f =? 3 then 0x01cf else 0x02cf in
      write16 Adc ADCCSR_OFF base;;
      write16 Adc ADPCTL_OFF 0x8000;;
      write16 Adc ADCCSR_OFF (Z.lor base 0x2000);;
      idle ← wait_clear ADCCSR_OFF 0x2000;
      if negb idle then mret (ADC_CONVERSION_TIMEOUT, no_sample)
      else
        vb ← read16 Adc ADDRB_OFF;
        va ← read16 Adc ADDRA_OFF;
        vd ← read16 Adc ADDRD_OFF;
        vc ← read16 Adc ADDRC_OFF;
        clear_bits ADCCSR_OFF 0xc000;;
        let '(vb, va, vd, vc) := (Z.shiftr vb 6, Z.shiftr va 6, Z.shiftr vd 6, Z.shiftr vc 6) in
        let '(xy, ok) := convert va vb vc vd in
        mret (ADC_OK, Sample vb va vd vc xy ok).

(** The status, the sample, whether the clock was gated and its register. *)
Definition adc_once : K (adc_status * sample * bool * Z) :=
  '(opened, was_gated, after) ← open_adc_clock;
  if negb opened then mret (ADC_CLOCK_FAILED, no_sample, was_gated, after)
  else
    '(status, s) ← adc_convert;
    mret (status, s, was_gated, after).

(** ** Commands *)

Definition show_info : K Z :=
  puts (str "XD-B8600 secondary touch diagnostic");;
  puts (str "Target: big-endian Renesas SH-4A; XD-B8600 only");;
  puts (str "PFC page: 0x04050000  CPG page: 0x04150000  ADC page: 0x04610000");;
  puts (str "Factory touch calibration is NOT retained by this exact kernel.");;
  puts (str "No MMIO was performed. Next: touchdiag pfc --live");;
  mret 0.

(** What [show_pfc] and [show_clock] share: [body] reads, [report] prints. *)
Definition look {A} (wanted : Z) (body : K A) (report : A → K Z) : K Z :=
  ok ← and_then preflight_write (open_maps wanted false);
  if negb ok then mret 1
  else
    r ← body;
    close_maps (wanted_pages wanted);;
    report r.

Definition show_pfc : K Z :=
  look MAP_PFC
    (s ← capture_pfc;
     pldr ← read8 Pfc PLDR_OFF;
     mret (s, pldr))
    (λ '(s, pldr),
     puts (str "PGCR=" ++ hex0 4 (pgcr s) ++ str " PHCR=" ++ hex0 4 (phcr s) ++ str " PLCR=" ++
           hex0 4 (plcr s) ++ str " PGDR=" ++ hex0 2 (pgdr s) ++ str " PHDR=" ++ hex0 2 (phdr s) ++
           str " PLDR=" ++ hex0 2 pldr);;
     puts (str "PSELE=" ++ hex0 4 (psele s) ++ str " MSELCRA=" ++ hex0 4 (mselcra s) ++
           str " PFC_A=" ++ hex0 4 (pfc_a s) ++ str " (read-only snapshot)");;
     mret 0).

Definition show_clock : K Z :=
  look MAP_CPG
    (frqcra ← read32 Cpg FRQCRA_OFF;
     mstpcr2 ← read32 Cpg MSTPCR2_OFF;
     mret (frqcra, mstpcr2))
    (λ '(frqcra, mstpcr2),
     puts (str "FRQCRA=0x" ++ hex0 8 frqcra ++ str " MSTPCR2=0x" ++ hex0 8 mstpcr2 ++
           str " ADC-clock-bit27=" ++ (if gated mstpcr2 then str "stopped" else str "running"));;
     puts (str "Read-only CPG snapshot; no clock was changed.");;
     mret 0).

(** The start and the exits that [run_pen], [run_clock_test] and [run_adc]
    share: [announce] is printed, [body] runs with the pages mapped and the
    signals blocked, [report] gives the result. *)
Definition failed_maps (ps : list page) (blocked : bool) : K Z :=
  close_maps ps;;
  tell CloseLock;;
  (if blocked then restore_signals else mret tt);;
  mret 1.

Definition exercise {A} (wanted : Z) (announce : K unit) (body : K A) (report : A → K Z) : K Z :=
  ok ← preflight_write;
  if negb ok then mret 1
  else
    lock ← acquire_lock;
    if negb lock then mret 1
    else
      mapped ← open_maps wanted true;
      if negb mapped then tell CloseLock;; mret 1
      else
        announce;;
        blocked ← and_then (equals Fflush 0) block_async_signals;
        if negb blocked then failed_maps (wanted_pages wanted) false
        else
          absent ← experimental_driver_absent;
          if negb absent then failed_maps (wanted_pages wanted) true
          else
            r ← body;
            close_maps (wanted_pages wanted);;
            tell CloseLock;;
            restore_signals;;
            report r.

Definition ok_failed (ok : bool) : list Z := if ok then str "OK" else str "FAILED".
Definition down_up (contact : bool) : list Z := if contact then str "DOWN" else str "UP".

Definition run_pen : K Z :=
  exercise MAP_PFC
    (puts (str "PFC-only pen check: no ADC or clock access. Hold the panel if testing DOWN."))
    (snapshot ← capture_pfc;
     force_rest_high;;
     '(contact, pldr) ← read_pen;
     restored ← restore_pfc snapshot;
     mret (contact, pldr, restored))
    (λ '(contact, pldr, restored),
     puts (str "PLDR-or=0x" ++ hex0 2 pldr ++ str " bit1=" ++ decimal (Z.land (Z.shiftr pldr 1) 1) ++
           str " PEN=" ++ down_up contact ++ str " restore=" ++ ok_failed restored);;
     mret (if restored : bool then 0 else 1)).

Definition run_clock_test : K Z :=
  exercise MAP_CPG
    (puts (str "Testing only MSTPCR2 bit 27; the original clock state will be restored."))
    (initial ← read32 Cpg MSTPCR2_OFF;
     '(opened, was_gated, after) ← open_adc_clock;
     restore_ok ← restore_adc_clock was_gated;
     restored_value ← read32 Cpg MSTPCR2_OFF;
     mret (initial, after, restored_value, opened && restore_ok))
    (λ '(initial, after, restored_value, ok),
     puts (str "MSTPCR2 initial=" ++ hex0 8 initial ++ str " opened=" ++ hex0 8 after ++
           str " restored=" ++ hex0 8 restored_value ++ str " result=" ++ ok_failed ok);;
     mret (if ok : bool then 0 else 1)).

Definition adc_status_name (s : adc_status) : list Z :=
  match s with
  | ADC_OK => str "conversion completed"
  | ADC_NO_CONTACT => str "no pen contact; ADC was not accessed"
  | ADC_CLOCK_FAILED => str "ADC clock did not open"
  | ADC_IDLE_TIMEOUT => str "ADCCSR was busy before conversion"
  | ADC_GENERIC_TIMEOUT => str "ADCSR stayed busy"
  | ADC_CONVERSION_TIMEOUT => str "ADCCSR conversion timeout"
  end.

(** What [run_adc] knows when the hardware is closed. *)
Record adc_run := AdcRun {
  contact : bool;
  pldr : Z;
  status : adc_status;
  taken : sample;
  clock_after : Z;
  clock_attempted : bool;
  adc_accessed : bool;
  cleanup_ok : bool;
  pfc_restored : bool;
  clock_restored : bool;
}.

(** The conversion and its cleaning up: the status, the sample, the clock's
    state and register, whether the clock was attempted, the ADC accessed, the
    cleaning up in order. *)
Definition adc_attempt (contact : bool) : K (adc_status * sample * bool * Z * bool * bool * bool) :=
  if negb contact then mret (ADC_NO_CONTACT, no_sample, false, 0, false, false, true)
  else
    '(status, s, was_gated, after) ← adc_once;
    let accessed := negb (bool_decide (status = ADC_CLOCK_FAILED)) in
    ok ← (if accessed then adc_cleanup else mret true);
    mret (status, s, was_gated, after, true, accessed, ok).

Definition adc_body : K adc_run :=
  snapshot ← capture_pfc;
  force_rest_high;;
  '(contact, pldr) ← read_pen;
  '(status, s, was_gated, after, attempted, accessed, cleanup) ← adc_attempt contact;
  '(pfc, clock) ←
    (if cleanup : bool then
       force_rest_high;;
       pfc ← restore_pfc snapshot;
       clock ← (if attempted : bool then restore_adc_clock was_gated else mret true);
       mret (pfc, clock)
     else mret (false, true));
  mret (AdcRun contact pldr status s after attempted accessed cleanup pfc clock).

Definition reset_required : list Z :=
  str "RESET REQUIRED: ADC did not become idle; its active routing and clock were deliberately left in place.".

Definition adc_report (r : adc_run) : K Z :=
  puts (str "PEN=" ++ down_up (contact r) ++ str " PLDR-or=0x" ++ hex0 2 (pldr r) ++ str ": " ++
        adc_status_name (status r));;
  puts (str "cleanup=" ++ (if adc_accessed r then ok_failed (cleanup_ok r) else str "not-needed") ++
        str " pfc-restore=" ++ (if cleanup_ok r then ok_failed (pfc_restored r) else str "SKIPPED") ++
        str " clock-restore=" ++
        (if clock_attempted r then if cleanup_ok r then ok_failed (clock_restored r) else str "left-running"
         else str "not-needed"));;
  (if cleanup_ok r then mret tt else puts reset_required);;
  (if bool_decide (status r = ADC_OK) then
     puts (str "B=" ++ decimal (b (taken r)) ++ str " A=" ++ decimal (a (taken r)) ++
           str " D=" ++ decimal (d (taken r)) ++ str " C=" ++ decimal (c (taken r)) ++
           str " raw-x=" ++ decimal (x (raw (taken r))) ++ str " raw-y=" ++ decimal (y (raw (taken r))) ++
           str " pairs=" ++ (if valid (taken r) then str "valid" else str "INVALID") ++
           str " clock=" ++ hex0 8 (clock_after r))
   else mret tt);;
  mret (if bool_decide (status r = ADC_OK) && cleanup_ok r && pfc_restored r && clock_restored r
        then 0 else 1).

Definition run_adc : K Z :=
  exercise (Z.lor MAP_PFC (Z.lor MAP_CPG MAP_ADC))
    (puts (str "Hold the secondary panel now. If contact is detected, one ADC access follows.");;
     puts (str "If the machine freezes during ADC MMIO, reset it; no boot files are changed."))
    adc_body adc_report.

(** The usage goes to the standard error on an error. *)
Definition main (argv : list (list Z)) : K Z :=
  match parse_command argv with
  | (_, Some command) =>
      match command with
      | CMD_INFO => show_info
      | CMD_PFC_LIVE => show_pfc
      | CMD_PEN => run_pen
      | CMD_CLOCK_LIVE => show_clock
      | CMD_CLOCK_TEST => run_clock_test
      | CMD_ADC_ONCE => run_adc
      end
  | (parsed, None) => if 0 <? parsed then tell (Puts usage);; mret 0 else mret 2
  end.
End Diag.
