(* ===== verification/TouchFacts.v ===== *)
(** * Diagnosis of the touch panel: what every run respects

    A monitor over the requests of [TouchDiag]: which registers each command
    maps and touches, under which conditions, and what it leaves behind. *)

From Stdlib Require Import String Ascii.
From S2P Require Import Prelude Text Traced SubpadMouse TouchDiag.

(** ** The monitor *)

(** The checks that have passed, what is held, and the state of the panel: the
    clock of the converter was last seen running, the pen line is selected, and how
    many of the last reads of it in a row, selected, found the pen down. *)
Record monitor := Monitor {
  root : bool;
  text : bool;
  minor : Z;
  active : bool;
  absent : bool;
  locked : bool;
  blocked : bool;
  mapped : list (page * bool);
  running : bool;
  selected : bool;
  downs : nat;
  clean : bool;
}.

Definition start : monitor := Monitor false false 0 false false false false [] false false 0 true.

Definition set_checks (r t : bool) (n : Z) (c b : bool) (g : monitor) : monitor :=
  Monitor r t n c b (locked g) (blocked g) (mapped g) (running g) (selected g) (downs g) (clean g).
Definition set_locked (v : bool) (g : monitor) : monitor :=
  Monitor (root g) (text g) (minor g) (active g) (absent g) v (blocked g) (mapped g) (running g)
    (selected g) (downs g) (clean g).
Definition set_blocked (v : bool) (g : monitor) : monitor :=
  Monitor (root g) (text g) (minor g) (active g) (absent g) (locked g) v (mapped g) (running g)
    (selected g) (downs g) (clean g).
Definition set_mapped (v : list (page * bool)) (ok : bool) (g : monitor) : monitor :=
  Monitor (root g) (text g) (minor g) (active g) (absent g) (locked g) (blocked g) v (running g)
    (selected g) (downs g) (clean g && ok).
Definition set_panel (run sel : bool) (n : nat) (ok : bool) (g : monitor) : monitor :=
  Monitor (root g) (text g) (minor g) (active g) (absent g) (locked g) (blocked g) (mapped g) run sel
    n (clean g && ok).

(** A register may be read, and may be written; one of the converter only behind
    five reads that found the pen down. *)
Definition may_read (p : page) (g : monitor) : bool :=
  root g && text g && active g && absent g && bool_decide (p ∈ (mapped g).*1) &&
  (if bool_decide (p = Adc) then running g && bool_decide (5 <= downs g)%nat else true).
Definition may_write (p : page) (g : monitor) : bool :=
  may_read p g && locked g && blocked g && bool_decide ((p, true) ∈ mapped g).

Definition is_clock (p : page) (off : Z) : bool := bool_decide (p = Cpg) && (off =? MSTPCR2_OFF).
Definition is_pen (p : page) (off : Z) : bool := bool_decide (p = Pfc) && (off =? PLDR_OFF).
Definition selects (p : page) (off : Z) : bool := bool_decide (p = Pfc) && (off =? PLCR_OFF).
Definition selects_pen (v : Z) : bool := Z.land v 0x000c =? 0x0008.
Definition is_down (v : Z) : bool := Z.land (u8 v) 0x02 =? 0.

(** [scope]: the pages the command may map, and whether for writing. *)
Definition observe (scope : list (page * bool)) (g : monitor) (rv : request * Z) : monitor :=
  let '(r, v) := rv in
  match r with
  | Read _ p off =>
      set_panel (if is_clock p off then negb (gated (u32 v)) else running g) (selected g)
        (if is_pen p off then if selected g && is_down v then S (downs g) else 0%nat else downs g)
        (may_read p g) g
  | Write _ p off value =>
      set_panel (running g && negb (is_clock p off && gated value))
        (if selects p off then selects_pen value else selected g) (downs g) (may_write p g) g
  | Geteuid => set_checks (v =? 0) (text g) (minor g) (active g) (absent g) g
  | KdMode => set_checks (root g) (v =? KD_TEXT) (minor g) (active g) (absent g) g
  | StdinMinor => set_checks (root g) (text g) v (active g) (absent g) g
  | VtActive => set_checks (root g) (text g) (minor g) (v =? minor g) (absent g) g
  | StatParameter => set_checks (root g) (text g) (minor g) (active g) false g
  | Errno => set_checks (root g) (text g) (minor g) (active g) (v =? ENOENT) g
  | Flock => set_locked (negb (v <? 0)) g
  | CloseLock => set_locked false g
  | SigBlock => set_blocked ((0 <=? v) || blocked g) g
  | SigRestore => set_blocked false g
  | Mmap p =>
      set_mapped (if v =? 0 then mapped g else mapped g ++ [(p, true)])
        (bool_decide ((p, true) ∈ scope)) g
  | MmapReadOnly p =>
      set_mapped (if v =? 0 then mapped g else mapped g ++ [(p, false)])
        (bool_decide ((p, false) ∈ scope)) g
  | Munmap p => set_mapped (filter (λ q, q.1 ≠ p) (mapped g)) true g
  | _ => g
  end.

(** The pages of a command, and whether it writes to them. *)
Definition command_scope (c : option command) : list (page * bool) :=
  match c with
  | Some CMD_PFC_LIVE => [(Pfc, false)]
  | Some CMD_CLOCK_LIVE => [(Cpg, false)]
  | Some CMD_PEN => [(Pfc, true)]
  | Some CMD_CLOCK_TEST => [(Cpg, true)]
  | Some CMD_ADC_ONCE => [(Pfc, true); (Cpg, true); (Adc, true)]
  | _ => []
  end.

(** ** What is known between the requests *)

(** The pages mapped, the lock, the signals; the checks passed ([c] all but the
    driver's absence, [a]); [p]: the pen is down; [r]: the clock runs. *)
Record knows (ps : list (page * bool)) (l s c a p r : bool) (g : monitor) : Prop := {
  k_clean : clean g = true;
  k_mapped : mapped g = ps;
  k_locked : locked g = l;
  k_blocked : blocked g = s;
  k_checks : c = true → root g = true ∧ text g = true ∧ active g = true;
  k_absent : a = true → absent g = true;
  k_down : p = true → (5 <= downs g)%nat;
  k_running : r = true → running g = true;
}.

Section Facts.
Context {E : Type} `{Answers request E} (scope : list (page * bool)).
Abbreviation K := (st (world request E)).
Abbreviation hoare := (Traced.hoare (observe scope) start).
Abbreviation keeps := (Traced.keeps (observe scope) start).

Lemma touch_knows_mono ps l s c a p r c' a' p' r' g :
  implb c' c && implb a' a && implb p' p && implb r' r = true →
  knows ps l s c a p r g → knows ps l s c' a' p' r' g.
Proof.
  intros Hi []. split; try done; intros ->; cbn in Hi;
    repeat match goal with H : _ && _ = true |- _ => apply andb_prop in H as [? ?] end; auto;
    match goal with H : implb true ?b = true |- _ => cbn in H; subst; auto end.
Qed.

(** Requests the monitor ignores. *)
Lemma touch_keeps_ignored P r : (∀ g v, observe scope g (r, v) = g) → keeps P (ask r).
Proof. intros Hr. apply keeps_ask. intros g v. by rewrite Hr. Qed.
Hint Extern 1 (Traced.keeps _ _ _ (ask _)) => (apply touch_keeps_ignored; reflexivity) : keeps.

(** *** Registers *)

Lemma touch_read_ok ps l s p q r w pg off g v :
  pg ∈ ps.*1 → (pg = Adc → p = true ∧ r = true) →
  (r = true → is_clock pg off = false) → (q = true → is_pen pg off = false ∧ p = true) →
  knows ps l s true true p r g → knows ps l s true true q r (observe scope g (Read w pg off, v)).
Proof.
  intros Hpg Hadc Hclk Hpen [Hc Hm Hl Hs Hchk Ha Hd Hr]. destruct Hchk as (Hroot & Htext & Hact); [done|].
  split; cbn [observe set_panel clean mapped locked blocked root text active absent downs running]; try done.
  - rewrite Hc. unfold may_read. rewrite Hroot, Htext, Hact, Ha, Hm by done.
    rewrite (bool_decide_true (pg ∈ _)) by done.
    destruct (bool_decide_reflect (pg = Adc)) as [Hx|]; [|done].
    destruct (Hadc Hx) as [-> ->]. by rewrite Hr, bool_decide_true by auto.
  - intros Hq. destruct (Hpen Hq) as [-> ?]. auto.
  - intros Hrt. rewrite (Hclk Hrt). auto.
Qed.

Lemma touch_write_ok ps p r w pg off value g v :
  (pg, true) ∈ ps → (pg = Adc → p = true ∧ r = true) → (r = true → is_clock pg off = false) →
  knows ps true true true true p r g →
  knows ps true true true true p r (observe scope g (Write w pg off value, v)).
Proof.
  intros Hpg Hadc Hclk [Hc Hm Hl Hs Hchk Ha Hd Hr]. destruct Hchk as (Hroot & Htext & Hact); [done|].
  split; cbn [observe set_panel clean mapped locked blocked root text active absent downs running]; try done.
  - rewrite Hc. unfold may_write, may_read. rewrite Hroot, Htext, Hact, Ha, Hm, Hl, Hs by done.
    rewrite (bool_decide_true (pg ∈ _)) by by apply (list_elem_of_fmap_2 fst _ (pg, true)).
    rewrite (bool_decide_true ((pg, true) ∈ ps)) by done.
    destruct (bool_decide_reflect (pg = Adc)) as [Hx|]; [|done]. destruct (Hadc Hx) as [-> ->].
    by rewrite Hr, bool_decide_true by auto.
  - intros Hrt. rewrite (Hclk Hrt), (Hr Hrt). done.
Qed.

(** The pages [ps] are mapped, for reading or, under the lock and with the
    signals blocked, for writing. *)
Abbreviation looking ps := (knows ps false false true true).
Abbreviation working ps := (knows ps true true true true).

Lemma keeps_read ps l s p r w pg off :
  pg ∈ ps.*1 → (pg = Adc → p = true ∧ r = true) →
  (r = true → is_clock pg off = false) → (p = true → is_pen pg off = false) →
  keeps (knows ps l s true true p r) (ask (Read w pg off)).
Proof. intros. apply keeps_ask. intros g v. apply touch_read_ok; auto. Qed.

Lemma keeps_write ps p r w pg off value :
  (pg, true) ∈ ps → (pg = Adc → p = true ∧ r = true) → (r = true → is_clock pg off = false) →
  keeps (working ps p r) (ask (Write w pg off value)).
Proof.
  intros. apply keeps_ask. intros g v Hg. by apply touch_write_ok.
Qed.
Hint Extern 1 (Traced.keeps _ _ _ (ask (Read _ _ _))) =>
  (apply keeps_read; [apply (bool_decide_unpack _); vm_compute; exact I|naive_solver|naive_solver|naive_solver]) : keeps.
Hint Extern 1 (Traced.keeps _ _ _ (ask (Write _ _ _ _))) =>
  (apply keeps_write; [apply (bool_decide_unpack _); vm_compute; exact I|naive_solver|naive_solver]) : keeps.

(** The port sequences, with the port page of a command that writes. *)
Section Ports.
Context (ps : list (page * bool)) (p r : bool) (Hps : (Pfc, true) ∈ ps).

Lemma pfc_write w off v : keeps (working ps p r) (ask (Write w Pfc off v)).
Proof. by apply keeps_write. Qed.
Lemma pfc_read w off : off ≠ PLDR_OFF → keeps (working ps p r) (ask (Read w Pfc off)).
Proof.
  intros Hoff. apply keeps_read; [by apply (list_elem_of_fmap_2 fst _ (Pfc, true))|done|done|].
  intros _. unfold is_pen. by rewrite (proj2 (Z.eqb_neq _ _) Hoff), andb_false_r.
Qed.
Hint Resolve pfc_write : keeps.
Hint Extern 1 (Traced.keeps _ _ _ (ask (Read _ Pfc _))) => (apply pfc_read; discriminate) : keeps.

Lemma keeps_base_pfc : keeps (working ps p r) base_pfc.
Proof. unfold base_pfc, SubpadMouse.base_pfc, rmw16, read16, write16, write8, tell. keeps. Qed.
Hint Resolve keeps_base_pfc : keeps.
Lemma keeps_rest_high : keeps (working ps p r) force_rest_high.
Proof. unfold force_rest_high, rmw8, read8, write16, write8, tell. keeps. Qed.
Hint Resolve keeps_rest_high : keeps.
Lemma keeps_restore_pfc s : keeps (working ps p r) (restore_pfc s).
Proof.
  unfold restore_pfc, SubpadMouse.restore_pfc, same8, same16, and_then, rmw8, rmw16, read8, read16,
    write16, write8, tell. keeps.
Qed.
Lemma keeps_capture : keeps (working ps p r) capture_pfc.
Proof. unfold capture_pfc, SubpadMouse.capture_pfc, read8, read16. keeps. Qed.
End Ports.
Hint Extern 1 (Traced.keeps _ _ _ force_rest_high) =>
  (apply keeps_rest_high; apply (bool_decide_unpack _); vm_compute; exact I) : keeps.
Hint Extern 1 (Traced.keeps _ _ _ (restore_pfc _)) =>
  (apply keeps_restore_pfc; apply (bool_decide_unpack _); vm_compute; exact I) : keeps.
Hint Extern 1 (Traced.keeps _ _ _ capture_pfc) =>
  (apply keeps_capture; apply (bool_decide_unpack _); vm_compute; exact I) : keeps.

(** Selecting the pen line. *)
Lemma masked_land w c m v : 0 <= w → Z.land m (Z.ones w) = m → Z.land (masked w c m v) m = Z.land v m.
Proof.
  intros Hw Hm. apply Z.bits_inj'. intros i Hi. unfold masked.
  rewrite !Z.land_spec, Z.lor_spec, !Z.land_spec, Z.lxor_spec, Z.sub_1_r, <- Z.ones_equiv.
  destruct (Z.testbit m i) eqn:Em; [|by rewrite !andb_false_r].
  assert (Z.testbit (Z.land m (Z.ones w)) i = true) as Ho by by rewrite Hm.
  rewrite Z.land_spec, Em in Ho. cbn in Ho. rewrite Ho. by destruct (Z.testbit c i), (Z.testbit v i).
Qed.

Lemma pen_reads_ok ps n contact seen_value k :
  (Pfc, true) ∈ ps →
  hoare (λ g, working ps false false g ∧ selected g = true ∧ (contact = true → (k <= downs g)%nat))
    (pen_reads n contact seen_value)
    (λ o g, working ps false false g ∧ (o.1 = true → (k + n <= downs g)%nat)).
Proof.
  intros Hps. revert contact seen_value k.
  induction n as [|n IH]; intros contact observed k; cbn [pen_reads].
  { apply hoare_ret. intros g (? & ? & Hk). split; [done|]. intros Hc. specialize (Hk Hc). lia. }
  unfold read8. eapply hoare_bind.
  - apply (hoare_bind _ _ _ (λ v g, working ps false false g ∧ selected g = true ∧
      (contact && is_down v = true → (S k <= downs g)%nat))).
    + apply hoare_ask. intros g v (Hw & Hsel & Hk). split; [|split; [done|]].
      * eapply touch_read_ok; [by apply (list_elem_of_fmap_2 fst _ (Pfc, true))|done..|exact Hw].
      * intros [Hct Hdn]%andb_prop. cbn [observe set_panel downs].
        change (is_pen Pfc PLDR_OFF) with true. rewrite Hsel, Hdn. cbn. specialize (Hk Hct). lia.
    + intros v. by apply (hoare_ret _ _ (λ v g, working ps false false g ∧ selected g = true ∧
        (contact && (Z.land v 0x02 =? 0) = true → (S k <= downs g)%nat))).
  - intros v. cbv beta. replace (k + S n)%nat with (S k + n)%nat by lia.
    destruct (Z.land v 0x02 =? 0); rewrite ?andb_true_r, ?andb_false_r; apply IH.
Qed.

Lemma select_ok ps p off v w :
  (Pfc, true) ∈ ps → off = PLCR_OFF → selects_pen v = true →
  hoare (working ps p false) (tell (Write w Pfc off v))
    (λ _ g, working ps p false g ∧ selected g = true).
Proof.
  intros Hps -> Hv. apply hoare_tell. intros g a Hg. split; [by apply touch_write_ok|].
  cbn [observe set_panel selected]. by change (selects Pfc PLCR_OFF) with true.
Qed.

Lemma read_pen_ok ps p :
  (Pfc, true) ∈ ps → hoare (working ps p false) read_pen (λ o, working ps o.1 false).
Proof.
  intros Hps. unfold read_pen, rmw16, read16.
  apply (hoare_step _ (λ g, working ps false false g ∧ selected g = true ∧ (true = true → (0 <= downs g)%nat))).
  { apply hoare_keeps; [apply log_keeps_bind; [by apply pfc_read|intros; apply log_keeps_ret]|]. intros v.
    eapply hoare_conseq; [apply (select_ok ps p); [done|done|]|done|].
    - unfold selects_pen. by rewrite masked_land.
    - intros u g [Hg Hsel]. split; [|split; [done|lia]]. revert Hg. apply touch_knows_mono. by destruct p. }
  intros _. eapply hoare_bind; [by apply pen_reads_ok|]. intros o.
  apply (hoare_conseq (working ps o.1 false) _ _ (λ o, working ps o.1 false)); [| |done].
  - apply hoare_keeps; [by apply keeps_base_pfc|]. intros _. by apply hoare_ret.
  - intros g [[] Hn]. split; try done.
Qed.

(** *** The clock and the converter *)

Abbreviation adc_pages := [(Pfc, true); (Cpg, true); (Adc, true)].

Lemma clock_read ps l p r :
  Cpg ∈ ps.*1 →
  hoare (knows ps l l true true p r) (read32 Cpg MSTPCR2_OFF)
    (λ v, knows ps l l true true p (negb (gated v))).
Proof.
  intros Hps. unfold read32. eapply hoare_bind.
  - apply hoare_ask. intros g v [Hc Hm Hl Hs Hchk Ha Hd Hr]. destruct Hchk as (Hroot & Htext & Hact); [done|].
    instantiate (1 := λ v, knows ps l l true true p (negb (gated (u32 v)))).
    split; cbn [observe set_panel clean mapped locked blocked root text active absent downs running]; try done.
    + rewrite Hc. unfold may_read. rewrite Hroot, Htext, Hact, Ha, Hm by done. by rewrite (bool_decide_true (Cpg ∈ _)).
  - intros v. by apply (hoare_ret _ _ (λ v, knows ps l l true true p (negb (gated v)))).
Qed.

Lemma clock_forget ps l p r (m : K Z) :
  hoare (knows ps l l true true p r) m (λ v, knows ps l l true true p (negb (gated v))) →
  hoare (knows ps l l true true p r) m (λ _, knows ps l l true true p false).
Proof.
  intros Hm. eapply hoare_conseq; [apply Hm|done|]. intros v g. apply touch_knows_mono.
  by destruct p, (negb (gated v)).
Qed.

Lemma touch_open_clock_ok ps p :
  (Cpg, true) ∈ ps → hoare (working ps p false) open_adc_clock (λ o, working ps p o.1.1).
Proof.
  intros Hps. assert (Cpg ∈ ps.*1) by by apply (list_elem_of_fmap_2 fst _ (Cpg, true)).
  unfold open_adc_clock. eapply hoare_step; [by apply clock_forget, clock_read|]. intros current. cbv zeta.
  apply (hoare_step _ (working ps p false)).
  { destruct (gated current); [|by apply hoare_ret].
    eapply hoare_step; [by apply clock_forget, clock_read|]. intros v. apply hoare_keeps; [|intros; by apply hoare_ret].
    by apply keeps_write. }
  intros _. eapply hoare_bind; [by apply clock_read|]. intros v. by apply hoare_ret.
Qed.

Lemma touch_restore_clock_ok ps p r b :
  (Cpg, true) ∈ ps → hoare (working ps p r) (restore_adc_clock b) (λ _, working ps p false).
Proof.
  intros Hps. assert (Cpg ∈ ps.*1) by by apply (list_elem_of_fmap_2 fst _ (Cpg, true)).
  unfold restore_adc_clock, SubpadMouse.restore_adc_clock.
  eapply hoare_step; [by apply clock_forget, clock_read|]. intros current.
  apply (hoare_step _ (working ps p false)).
  { destruct b; [|by apply hoare_ret]. apply hoare_tell. intros g v Hg.
    by apply touch_write_ok. }
  intros _. eapply hoare_step; [by apply clock_forget, clock_read|]. intros v. by apply hoare_ret.
Qed.

Lemma keeps_wait_clear off mask : keeps (working adc_pages true true) (wait_clear off mask).
Proof. unfold wait_clear. induction ADC_TIMEOUT; cbn [wait_clear_loop]; unfold read16; keeps. Qed.
Lemma keeps_clear_bits off bits : keeps (working adc_pages true true) (clear_bits off bits).
Proof. unfold clear_bits, read16, write16, tell. keeps. Qed.
Hint Resolve keeps_wait_clear keeps_clear_bits : keeps.

Lemma keeps_convert : keeps (working adc_pages true true) adc_convert.
Proof. unfold adc_convert, rmw8, rmw16, read8, read16, read32, write8, write16, tell. keeps. Qed.
Lemma keeps_cleanup : keeps (working adc_pages true true) adc_cleanup.
Proof. unfold adc_cleanup, write16, tell. keeps. Qed.

(** *** The bodies of the commands *)

(** What a body may leave: the conditions it began with, and no more. *)
Abbreviation done_with ps := (working ps false false).

Lemma forget {A} ps p r P (m : K A) :
  hoare P m (λ _, working ps p r) → hoare P m (λ _, done_with ps).
Proof. intros Hm. eapply hoare_conseq; [apply Hm|done|]. intros a g. by apply touch_knows_mono. Qed.

Lemma pen_body_ok :
  hoare (done_with [(Pfc, true)])
    (snapshot ← capture_pfc; force_rest_high;; '(contact, pldr) ← read_pen;
     restored ← restore_pfc snapshot; mret (contact, pldr, restored))
    (λ _, done_with [(Pfc, true)]).
Proof.
  apply hoare_keeps; [keeps|]. intros s. apply hoare_keeps; [keeps|]. intros _.
  eapply hoare_step; [eapply hoare_conseq; [apply read_pen_ok; left|done|]|].
  { intros o g. apply (touch_knows_mono _ _ _ _ _ _ _ true true false false). done. }
  intros [contact pldr]. apply hoare_keeps; [keeps|]. intros restored. by apply hoare_ret.
Qed.

Lemma clock_body_ok :
  hoare (done_with [(Cpg, true)])
    (initial ← read32 Cpg MSTPCR2_OFF; '(opened, was_gated, after) ← open_adc_clock;
     restore_ok ← restore_adc_clock was_gated; restored_value ← read32 Cpg MSTPCR2_OFF;
     mret (initial, after, restored_value, opened && restore_ok))
    (λ _, done_with [(Cpg, true)]).
Proof.
  eapply hoare_step; [apply clock_forget, clock_read; left|]. intros initial.
  eapply hoare_bind; [apply touch_open_clock_ok; left|]. intros [[opened was] after].
  eapply hoare_step; [apply touch_restore_clock_ok; left|]. intros ok.
  eapply hoare_step; [apply clock_forget, clock_read; left|]. intros v. by apply hoare_ret.
Qed.

Lemma adc_once_ok p :
  p = true →
  hoare (working adc_pages p false) adc_once
    (λ o, working adc_pages true (negb (bool_decide (o.1.1.1 = ADC_CLOCK_FAILED)))).
Proof.
  intros ->. unfold adc_once. eapply hoare_bind; [apply touch_open_clock_ok; right; left|].
  intros [[[|] was] after]; cbn [fst snd negb].
  - apply hoare_keeps; [apply keeps_convert|]. intros [status s]. apply hoare_ret. intros g.
    apply touch_knows_mono. cbn. by case_bool_decide.
  - apply hoare_ret. intros g Hg. by rewrite bool_decide_true.
Qed.

Lemma adc_attempt_ok contact :
  hoare (working adc_pages contact false) (adc_attempt contact) (λ _, done_with adc_pages).
Proof.
  unfold adc_attempt. destruct contact; cbn [negb]; [|by apply hoare_ret].
  eapply hoare_bind; [by apply adc_once_ok|]. intros [[[status s] was] after]. cbn [fst]. cbv zeta.
  apply (hoare_step _ (done_with adc_pages)); [|intros; by apply hoare_ret].
  destruct (negb _).
  - eapply forget, keeps_cleanup.
  - apply hoare_ret. intros g. by apply touch_knows_mono.
Qed.

Lemma adc_body_ok : hoare (done_with adc_pages) adc_body (λ _, done_with adc_pages).
Proof.
  unfold adc_body. apply hoare_keeps; [keeps|]. intros s. apply hoare_keeps; [keeps|]. intros _.
  eapply hoare_bind; [apply read_pen_ok; left|]. intros [contact pldr].
  eapply hoare_step; [apply adc_attempt_ok|]. intros [[[[[[status sm] was] after] attempted] accessed] cleanup].
  apply (hoare_step _ (done_with adc_pages)); [|intros []; by apply hoare_ret].
  destruct cleanup; [|by apply hoare_ret].
  apply hoare_keeps; [keeps|]. intros _. apply hoare_keeps; [keeps|]. intros pfc.
  apply (hoare_step _ (done_with adc_pages)); [|intros; by apply hoare_ret].
  destruct attempted; [|by apply hoare_ret]. apply touch_restore_clock_ok. right; left.
Qed.

(** ** Before and after *)

Abbreviation passed ps l s c a := (knows ps l s c a false false).

Lemma puts_ok ps l s c a text : keeps (passed ps l s c a) (puts text).
Proof. unfold puts, tell. keeps. Qed.
Hint Resolve puts_ok : keeps.

Lemma absent_ok ps l s c a :
  hoare (passed ps l s c a) experimental_driver_absent (λ ok, passed ps l s c ok).
Proof.
  unfold experimental_driver_absent, SubpadMouse.experimental_driver_absent, equals.
  apply (hoare_step _ (passed ps l s c false)).
  { apply hoare_ask. intros g v []. by split. }
  intros v. destruct (v =? 0); [by apply hoare_ret|].
  apply (hoare_bind _ _ _ (λ v, passed ps l s c (v =? ENOENT))).
  { apply hoare_ask. intros g e []. by split. }
  intros e. by apply hoare_ret.
Qed.

Lemma expected_ok P : keeps P expected_hardware.
Proof. unfold expected_hardware, SubpadMouse.expected_hardware, and_then, equals, tell. keeps. Qed.

(** Two checks of which the second is made when the first passes. *)
Lemma and_then_ok (P Q : monitor → Prop) (R : bool → monitor → Prop) (c1 c2 : K bool) :
  hoare P c1 (λ ok g, if ok then Q g else R false g) → hoare Q c2 R → hoare P (and_then c1 c2) R.
Proof.
  intros H1 H2. unfold and_then. eapply hoare_bind; [apply H1|]. intros [|]; [done|by apply hoare_ret].
Qed.

(** What the checks of the console and of the user find. *)
Definition checked (r t c : bool) (g : monitor) : Prop :=
  knows [] false false false false false false g ∧
  (r = true → root g = true) ∧ (t = true → text g = true) ∧ (c = true → active g = true).

Lemma checked_mono r t c r' t' c' g :
  implb r' r && implb t' t && implb c' c = true → checked r t c g → checked r' t' c' g.
Proof.
  intros Hi (Hk & Hr & Ht & Hc). split; [done|]. destruct r, t, c, r', t', c'; try done; split_and!; auto.
Qed.

Lemma text_vt_ok : hoare (checked true false false) active_text_vt (λ ok, checked true ok ok).
Proof.
  unfold active_text_vt, not_negative, equals.
  apply hoare_keeps; [keeps|]. intros tty.
  assert (∀ t, hoare (checked true t false) (mret false : K bool) (λ ok, checked true ok ok)) as Hno.
  { intros t. apply hoare_ret. intros g. apply checked_mono. by destruct t. }
  destruct (tty =? 0); [apply Hno|].
  apply (and_then_ok _ (checked true false false)).
  { apply hoare_keeps; [keeps|]. intros v. apply hoare_ret. intros g Hg. by destruct (0 <=? v). }
  apply (and_then_ok _ (checked true true false)).
  { eapply (hoare_bind _ _ _ (λ v, checked true (v =? KD_TEXT) false)).
    - apply hoare_ask. intros g v ([] & ? & _ & _). split_and!; [by split|done|by cbn|done].
    - intros v. apply hoare_ret. intros g. by destruct (v =? KD_TEXT). }
  apply (and_then_ok _ (checked true true false)).
  { apply hoare_keeps; [keeps|]. intros v. apply hoare_ret. intros g. destruct (0 <=? v); [done|].
    by apply checked_mono. }
  apply hoare_keeps; [keeps|]. intros chr. destruct (chr =? 0); [apply Hno|].
  apply (and_then_ok _ (checked true true false)).
  { apply hoare_keeps; [keeps|]. intros v. apply hoare_ret. intros g. destruct (v =? 4); [done|].
    by apply checked_mono. }
  apply (hoare_bind _ _ _ (λ m g, checked true true false g ∧ minor g = m)).
  { apply hoare_ask. intros g v ([] & ? & ? & ?). split; [|done]. split_and!; [by split|done..]. }
  intros m. destruct (m =? 0).
  { apply hoare_ret. intros g [Hg _]. revert Hg. by apply checked_mono. }
  apply (and_then_ok _ (λ g, checked true true false g ∧ minor g = m)).
  { apply (hoare_step _ (λ g, checked true true false g ∧ minor g = m)); [by apply hoare_ask|].
    intros v. apply hoare_ret. intros g Hg. destruct (0 <=? v); [done|]. destruct Hg as [Hg _].
    revert Hg. by apply checked_mono. }
  eapply (hoare_bind _ _ _ (λ v, checked true (v =? m) (v =? m))).
  - apply hoare_ask. intros g v [([] & ? & Ht & ?) <-]. split_and!; [by split|done|auto|by cbn].
  - intros v. by apply hoare_ret.
Qed.

Lemma preflight_ok :
  hoare (passed [] false false false false) preflight_write (λ ok, passed [] false false ok ok).
Proof.
  assert (∀ r t c g, checked r t c g → passed [] false false false false g) as Hweak by (by intros r t c g []).
  unfold preflight_write. apply (and_then_ok _ (checked true false false)).
  { unfold equals. eapply (hoare_bind _ _ _ (λ v, checked (v =? 0) false false)).
    - apply hoare_ask. intros g v []. split_and!; [by split|by cbn|done|done].
    - intros v. apply hoare_ret. intros g. destruct (v =? 0); [done|by apply Hweak]. }
  apply (and_then_ok _ (checked true false false)).
  { eapply hoare_conseq; [apply expected_ok|done|]. intros [] g; [done|by apply Hweak]. }
  apply (and_then_ok _ (passed [] false false true false)).
  { eapply hoare_conseq; [apply text_vt_ok|done|]. intros [] g; [|by apply Hweak].
    intros ([] & ? & ? & ?). split; try done. intros _. split_and!; auto. }
  eapply hoare_conseq; [apply absent_ok|done|]. intros ok g. apply touch_knows_mono. by destruct ok.
Qed.

(** *** The lock, the mappings and the signals *)

Lemma locked_ok ps l v s c a :
  ∀ g, passed ps l s c a g → passed ps v s c a (set_locked v g).
Proof. intros g []. by split. Qed.

Lemma touch_acquire_ok c a :
  hoare (passed [] false false c a) acquire_lock (λ ok, passed [] ok false c a).
Proof.
  unfold acquire_lock, SubpadMouse.acquire_lock. apply hoare_keeps; [keeps|]. intros fd.
  apply (hoare_bind _ _ _ (λ r, passed [] (negb (r <? 0)) false c a)).
  { destruct (fd <? 0); [by apply hoare_ret|]. apply hoare_ask. intros g v. apply locked_ok. }
  intros r. destruct (r <? 0); [|by apply hoare_ret].
  apply (hoare_step _ (passed [] false false c a)); [|intros; by apply hoare_ret].
  destruct (0 <=? fd); [|by apply hoare_ret]. apply hoare_tell. intros g v. apply locked_ok.
Qed.

Lemma touch_close_lock_ok ps l s c a :
  hoare (passed ps l s c a) (tell CloseLock) (λ _, passed ps false s c a).
Proof. apply hoare_tell. intros g v. apply locked_ok. Qed.

Lemma restore_signals_ok ps l s c a :
  hoare (passed ps l s c a) restore_signals (λ _, passed ps l false c a).
Proof. apply hoare_tell. intros g v []. by split. Qed.

Lemma touch_block_ok ps l c a :
  hoare (passed ps l false c a) block_async_signals (λ ok, passed ps l ok c a).
Proof.
  unfold block_async_signals, not_negative.
  apply (and_then_ok _ (passed ps l false c a)).
  { apply hoare_keeps; [keeps|]. intros v. apply hoare_ret. intros g. by destruct (0 <=? v). }
  apply (and_then_ok _ (passed ps l false c a)).
  { eapply hoare_conseq; [apply keeps_for_all; intros x; keeps|done|]. by intros [] g. }
  apply (hoare_bind _ _ _ (λ v, passed ps l (0 <=? v) c a)); [|intros v; by apply hoare_ret].
  apply hoare_ask. intros g v []. split; try done. cbn [observe set_blocked blocked].
  by rewrite k_blocked0, orb_false_r.
Qed.

(** Pages mapped in one way. *)
Abbreviation in_mode w ps := ((λ p : page, (p, w)) <$> ps).

Lemma touch_close_maps_ok w ps l s c a :
  hoare (passed (in_mode w ps) l s c a) (close_maps ps) (λ _, passed [] l s c a).
Proof.
  unfold close_maps, SubpadMouse.close_maps.
  assert (∀ qs ms, hoare (λ g, ∃ xs, passed xs l s c a g ∧ ∀ q, q ∈ xs → q.1 ∈ ms ++ qs) (unmap_all qs)
    (λ _ g, ∃ xs, passed xs l s c a g ∧ ∀ q, q ∈ xs → q.1 ∈ ms)) as Hall.
  { induction qs as [|p qs IH]; intros ms; cbn [unmap_all].
    - apply hoare_ret. intros g. by rewrite app_nil_r.
    - eapply hoare_step; [eapply hoare_conseq; [apply (IH (ms ++ [p]))| |by intros ? g Hg; exact Hg]|].
      { intros g. by rewrite <- (assoc_L (++)). }
      intros _. apply hoare_tell. intros g v (xs & [] & Hxs). exists (filter (λ q, q.1 ≠ p) xs). split.
      + split; try done; cbn [observe set_mapped clean mapped]; [by rewrite k_clean0|by subst].
      + intros q [Hq1 Hq2]%list_elem_of_filter. specialize (Hxs q Hq2). set_solver. }
  eapply hoare_step; [eapply hoare_conseq; [apply (Hall ps [])| |]|].
  - intros g Hg. eexists. split; [exact Hg|]. intros q (p & -> & Hp)%list_elem_of_fmap. done.
  - intros u g (xs & Hg & Hxs). destruct xs as [|x xs]; [exact Hg|].
    by specialize (Hxs x (list_elem_of_here _ _)) as ?%elem_of_nil.
  - intros _. by apply hoare_tell.
Qed.

Lemma touch_map_pages_ok w ps ms l s c a :
  (∀ p, p ∈ ps → (p, w) ∈ scope) →
  hoare (passed (in_mode w ms) l s c a) (map_pages ps ms w)
    (λ ok, passed (if ok then in_mode w (ms ++ ps) else []) l s c a).
Proof.
  revert ms. induction ps as [|p ps IH]; intros ms Hps; cbn [map_pages].
  { apply hoare_ret. intros g. by rewrite app_nil_r. }
  eapply (hoare_bind _ _ _ (λ ok : bool, passed (in_mode w (if ok then ms ++ [p] else ms)) l s c a)).
  - unfold map_page. apply (hoare_bind _ _ _ (λ v, passed (in_mode w (if v =? 0 then ms else ms ++ [p])) l s c a)).
    + assert ((p, w) ∈ scope) as Hp by (apply Hps; left).
      apply hoare_ask. intros g v []. destruct w; (split; try done;
        cbn [observe set_mapped clean mapped]; [by rewrite k_clean0, bool_decide_true|];
        rewrite k_mapped0; destruct (v =? 0); [done|by rewrite fmap_app]).
    + intros v. apply hoare_ret. intros g. by destruct (v =? 0).
  - intros [|].
    + rewrite (cons_middle p ms ps), (assoc_L (++)). apply IH. set_solver.
    + eapply hoare_step; [apply touch_close_maps_ok|]. intros _. by apply hoare_ret.
Qed.

Lemma touch_open_maps_ok w wanted l s c a :
  (∀ p, p ∈ wanted_pages wanted → (p, w) ∈ scope) →
  hoare (passed [] l s c a) (open_maps wanted w)
    (λ ok, passed (if ok then in_mode w (wanted_pages wanted) else []) l s c a).
Proof.
  intros Hw. unfold open_maps. apply hoare_keeps; [keeps|]. intros size.
  destruct (negb _); [by apply hoare_ret|].
  apply hoare_keeps; [keeps|]. intros status. apply hoare_keeps; [destruct (status <? 0); keeps|]. intros chr.
  destruct (chr =? 0); [by apply hoare_ret|]. apply hoare_keeps; [destruct w; keeps|]. intros fd.
  destruct (fd <? 0); [by apply hoare_ret|]. by apply (touch_map_pages_ok w _ []).
Qed.

(** *** Commands *)

(** Nothing is held, and nothing was touched that should not have been. *)
Definition closed (g : monitor) : Prop :=
  clean g = true ∧ mapped g = [] ∧ locked g = false ∧ blocked g = false.

Lemma passed_closed c a g : passed [] false false c a g → closed g.
Proof. by intros []. Qed.

Lemma closing {A} P c a (m : K A) :
  hoare P m (λ _, passed [] false false c a) → hoare P m (λ _, closed).
Proof. intros Hm. eapply hoare_conseq; [apply Hm|done|]. intros v g. apply passed_closed. Qed.

Lemma closing_keeps {A} c a (m : K A) :
  keeps (passed [] false false c a) m → hoare (passed [] false false c a) m (λ _, closed).
Proof. apply closing. Qed.

Lemma failed_maps_ok w ps l (s : bool) c a :
  hoare (passed (in_mode w ps) l s c a) (failed_maps ps s) (λ _, closed).
Proof.
  unfold failed_maps. eapply hoare_step; [apply touch_close_maps_ok|]. intros _.
  eapply hoare_step; [apply touch_close_lock_ok|]. intros _.
  apply (closing _ c a), (hoare_step _ (passed [] false false c a)); [|intros; by apply hoare_ret].
  destruct s; [apply restore_signals_ok|by apply hoare_ret].
Qed.

Lemma exercise_ok {A} wanted announce (body : K A) report :
  (∀ p, p ∈ wanted_pages wanted → (p, true) ∈ scope) →
  (∀ ps l s c a, keeps (passed ps l s c a) announce) →
  hoare (done_with (in_mode true (wanted_pages wanted))) body
    (λ _, done_with (in_mode true (wanted_pages wanted))) →
  (∀ r ps l s c a, keeps (passed ps l s c a) (report r)) →
  hoare (passed [] false false false false) (exercise wanted announce body report) (λ _, closed).
Proof.
  intros Hw Ha Hbody Hr. unfold exercise.
  assert (∀ c a, hoare (passed [] false false c a) (mret 1 : K Z) (λ _, closed)) as Hout.
  { intros c a. apply hoare_ret. intros g. apply passed_closed. }
  eapply hoare_bind; [apply preflight_ok|]. intros [|]; cbn [negb]; [|apply Hout].
  eapply hoare_bind; [apply touch_acquire_ok|]. intros [|]; cbn [negb]; [|apply Hout].
  eapply hoare_bind; [by apply (touch_open_maps_ok true)|]. intros [|]; cbn [negb].
  2:{ eapply hoare_step; [apply touch_close_lock_ok|]. intros _. apply Hout. }
  eapply hoare_keeps; [apply Ha|]. intros _.
  set (ps := in_mode true (wanted_pages wanted)).
  apply (hoare_bind _ _ _ (λ ok, passed ps true ok true true)).
  { apply (and_then_ok _ (passed ps true false true true)); [|apply touch_block_ok]. unfold equals.
    apply hoare_keeps; [keeps|]. intros v. apply hoare_ret. intros g. by destruct (v =? 0). }
  intros [|]; cbn [negb]; [|apply failed_maps_ok].
  eapply hoare_bind; [apply absent_ok|]. intros [|]; cbn [negb]; [|apply failed_maps_ok].
  eapply hoare_step; [apply Hbody|]. intros r.
  eapply hoare_step; [apply touch_close_maps_ok|]. intros _.
  eapply hoare_step; [apply touch_close_lock_ok|]. intros _.
  eapply hoare_step; [apply restore_signals_ok|]. intros _.
  eapply closing. apply Hr.
Qed.

(** A command that only looks. *)
Lemma look_ok {A} wanted (body : K A) report :
  (∀ p, p ∈ wanted_pages wanted → (p, false) ∈ scope) →
  hoare (looking (in_mode false (wanted_pages wanted)) false false) body
    (λ _, looking (in_mode false (wanted_pages wanted)) false false) →
  (∀ r ps l s c a, keeps (passed ps l s c a) (report r)) →
  hoare (passed [] false false false false) (look wanted body report) (λ _, closed).
Proof.
  intros Hw Hbody Hr. unfold look. set (ps := in_mode false (wanted_pages wanted)).
  apply (hoare_bind _ _ _ (λ (ok : bool) g, if ok then looking ps false false g else closed g)).
  { unfold and_then. eapply hoare_bind; [apply preflight_ok|]. intros [|].
    2:{ apply hoare_ret. intros g. apply passed_closed. }
    eapply hoare_conseq; [by apply (touch_open_maps_ok false)|done|]. intros [] g; [done|]. apply passed_closed. }
  intros [|]; cbn [negb]; [|by apply hoare_ret].
  eapply hoare_step; [apply Hbody|]. intros r.
  eapply hoare_step; [apply touch_close_maps_ok|]. intros _. eapply closing. apply Hr.
Qed.

Lemma show_pfc_ok :
  (Pfc, false) ∈ scope → hoare (passed [] false false false false) show_pfc (λ _, closed).
Proof.
  intros Hs. apply look_ok.
  - by intros p ->%list_elem_of_singleton.
  - unfold capture_pfc, SubpadMouse.capture_pfc, read8, read16. keeps.
  - intros [s pldr] ps l sg c a. keeps.
Qed.

Lemma show_clock_ok :
  (Cpg, false) ∈ scope → hoare (passed [] false false false false) show_clock (λ _, closed).
Proof.
  intros Hs. apply look_ok.
  - by intros p ->%list_elem_of_singleton.
  - unfold read32. keeps.
  - intros [f m] ps l sg c a. keeps.
Qed.

Lemma run_pen_ok :
  (Pfc, true) ∈ scope → hoare (passed [] false false false false) run_pen (λ _, closed).
Proof.
  intros Hs. apply exercise_ok.
  - by intros p ->%list_elem_of_singleton.
  - intros. keeps.
  - apply pen_body_ok.
  - intros [[contact pldr] restored] ps l sg c a. keeps.
Qed.

Lemma run_clock_ok :
  (Cpg, true) ∈ scope → hoare (passed [] false false false false) run_clock_test (λ _, closed).
Proof.
  intros Hs. apply exercise_ok.
  - by intros p ->%list_elem_of_singleton.
  - intros. keeps.
  - apply clock_body_ok.
  - intros [[[initial after] restored] ok] ps l sg c a. keeps.
Qed.

Lemma run_adc_ok :
  (∀ p, (p, true) ∈ scope) → hoare (passed [] false false false false) run_adc (λ _, closed).
Proof.
  intros Hs. apply exercise_ok; [by intros p _|intros; keeps|apply adc_body_ok|].
  intros r ps l sg c a. unfold adc_report. keeps.
Qed.

Lemma touch_main_ok argv :
  scope = command_scope (parse_command argv).2 → hoare (λ g, g = start) (main argv) (λ _, closed).
Proof.
  intros Es. apply (hoare_conseq (knows [] false false false false false false) _ _ (λ _, closed));
    [|by intros g ->|done].
  unfold main. destruct (parse_command argv) as [parsed [c|]]; cbn [snd] in Es.
  - destruct c; cbn [command_scope] in Es.
    + apply closing_keeps. unfold show_info. keeps.
    + apply show_pfc_ok. rewrite Es. left.
    + apply run_pen_ok. rewrite Es. left.
    + apply show_clock_ok. rewrite Es. left.
    + apply run_clock_ok. rewrite Es. left.
    + apply run_adc_ok. intros []; rewrite Es; set_solver.
  - apply closing_keeps. unfold tell. keeps.
Qed.
End Facts.

(** ** What every run respects *)

(** C12: whatever the registers and the kernel answer, a run of the diagnosis
    maps only the pages of its command, for writing only when the command says
    [--yes]; it reads a register only as root, from the active text console and
    with the driver of the kernel found absent; it writes one only with, besides,
    the lock and with the signals blocked; it touches the converter only after
    five reads in a row of the pen's port, with the pen line selected, all of which
    found the pen down, and after it saw the converter's clock running; and when it
    ends, by any of its exits, no page is mapped, the lock is given back and the
    signals are given back. *)
Theorem touch_guarded {E} `{Answers request E} argv (e : E) :
  let w := (main argv (World e [])).2 in
  let g := seen (observe (command_scope (parse_command argv).2)) start w in
  clean g = true ∧ mapped g = [] ∧ locked g = false ∧ blocked g = false.
Proof.
  intros w g. destruct (main argv (World e [])) as [r w'] eqn:Hm.
  exact (touch_main_ok (command_scope (parse_command argv).2) argv eq_refl (World e []) r w' eq_refl Hm).
Qed.
