(* ===== verification/TouchReads.v ===== *)
(** * Diagnosis of the touch panel: what is read back

    A monitor over the requests of [TouchDiag] that keeps, for each register, its
    first value read and the value last read behind the last write.  Nothing is
    assumed of the registers: a run that ends with status 0 has read back what it
    found, in all the bits that it may change. *)

From S2P Require Import Prelude Text Traced SubpadMouse SubpadPorts TouchDiag.

(** ** The monitor *)

Record reads := Reads { first : page → Z → option Z; last : page → Z → option Z }.

Definition record (p : page) (off : Z) (v : option Z) (f : page → Z → option Z)
    : page → Z → option Z :=
  λ p' off', if bool_decide (p' = p) && (off' =? off) then v else f p' off'.

Definition observe (g : reads) (rv : request * Z) : reads :=
  let '(r, v) := rv in
  match r with
  | Read w p off =>
      let v := Some (v mod 2 ^ w) in
      Reads (match first g p off with Some _ => first g | None => record p off v (first g) end)
        (record p off v (last g))
  | Write _ p off _ => Reads (first g) (record p off None (last g))
  | _ => g
  end.
Definition start : reads := Reads (λ _ _, None) (λ _ _, None).

(** The register was read before and, behind the last write to it, again, with the
    same value in the bits the program may change. *)
Definition read_back (l : list (page * Z)) (g : reads) : Prop := ∀ p off, (p, off) ∈ l →
  ∃ v0 v, first g p off = Some v0 ∧ last g p off = Some v ∧
    Z.land v (owned p off) = Z.land v0 (owned p off).

Definition port_registers : list (page * Z) :=
  (λ off, (Pfc, off)) <$> [PGCR_OFF; PGDR_OFF; PHCR_OFF; PLCR_OFF; PSELE_OFF; MSELCRA_OFF; PFC_A_OFF; PHDR_OFF].

(** What a command has to read back. *)
Definition given_back (c : option command) : list (page * Z) :=
  match c with
  | Some CMD_PEN => port_registers
  | Some CMD_ADC_ONCE => port_registers ++ [(Cpg, MSTPCR2_OFF)]
  | _ => []
  end.

Lemma record_same p off v f : record p off v f p off = v.
Proof. unfold record. by rewrite bool_decide_true, Z.eqb_refl. Qed.
Lemma record_other p off v f p' off' : (p', off') ≠ (p, off) → record p off v f p' off' = f p' off'.
Proof.
  intros Hne. unfold record. destruct (bool_decide_reflect (p' = p)) as [->|]; [|done].
  by destruct (Z.eqb_spec off' off) as [->|].
Qed.

(** What was read first stays. *)
Lemma first_stays g e p off v : first g p off = Some v → first (observe g e) p off = Some v.
Proof.
  destruct e as [[] x]; cbn; try done. intros Hf. destruct (first g p0 off0) eqn:E0; [done|].
  rewrite record_other; [done|]. intros [= -> ->]. congruence.
Qed.

Section Facts.
Context {E : Type} `{Answers request E}.
Abbreviation K := (st (world request E)).
Abbreviation hoare := (Traced.hoare observe start).
Abbreviation keeps := (Traced.keeps observe start).

Definition touches (r : request) : bool := match r with Read _ _ _ | Write _ _ _ _ => true | _ => false end.
Lemma keeps_other P r : touches r = false → keeps P (ask r).
Proof. intros Hr. apply keeps_ask. intros g v. by destruct r. Qed.
Hint Extern 1 (Traced.keeps _ _ _ (ask _)) => (apply keeps_other; reflexivity) : keeps.

(** What no request ends. *)
Definition lasting (Φ : reads → Prop) : Prop := ∀ g e, Φ g → Φ (observe g e).
Lemma lasting_ask Φ r : lasting Φ → keeps Φ (ask r).
Proof. intros HΦ. apply keeps_ask. intros g v. apply HΦ. Qed.
Hint Extern 2 (Traced.keeps _ _ _ (ask _)) => (apply lasting_ask; assumption) : keeps.

(** ** What was found *)

Definition fields (s : pfc_snapshot) : list (Z * Z) :=
  [(PGCR_OFF, pgcr s); (PGDR_OFF, pgdr s); (PHCR_OFF, phcr s); (PLCR_OFF, plcr s);
   (PSELE_OFF, psele s); (MSELCRA_OFF, mselcra s); (PFC_A_OFF, pfc_a s); (PHDR_OFF, phdr s)].
Definition found (s : pfc_snapshot) (g : reads) : Prop :=
  ∀ off v, (off, v) ∈ fields s → first g Pfc off = Some v.
Lemma found_lasting s : lasting (found s).
Proof. intros g e Hf off v Hin. by apply first_stays, Hf. Qed.

(** The registers read so far, in the beginning; those of the clock are not. *)
Definition only (l : list (Z * Z)) (g : reads) : Prop :=
  (∀ off, off ∉ l.*1 → first g Pfc off = None) ∧ (∀ off v, (off, v) ∈ l → first g Pfc off = Some v) ∧
  ∀ off, first g Cpg off = None.

Lemma only_read l w off : off ∉ l.*1 →
  hoare (only l) (ask (Read w Pfc off)) (λ v, only (l ++ [(off, v mod 2 ^ w)])).
Proof.
  intros Hoff. apply hoare_ask. intros g v (Hn & Hs & Hc). unfold only. cbn. rewrite (Hn off Hoff).
  split; [|split].
  - intros off' Hin. rewrite fmap_app, not_elem_of_app in Hin. destruct Hin as [Hin Hne].
    rewrite record_other; [by apply Hn|]. intros [= ->]. apply Hne. left.
  - intros off' v' [Hin|Hin]%elem_of_app.
    + rewrite record_other; [by apply Hs|]. intros [= ->]. apply Hoff.
      by apply (list_elem_of_fmap_2 fst _ (off, v')).
    + apply list_elem_of_singleton in Hin as [= -> ->]. apply record_same.
  - intros off'. by rewrite record_other.
Qed.
Lemma only_read16 l off : off ∉ l.*1 →
  hoare (only l) (read16 Pfc off) (λ v, only (l ++ [(off, v)])).
Proof.
  intros Hoff. unfold read16. eapply hoare_bind; [by apply only_read|]. intros v.
  by apply (hoare_ret _ _ (λ v, only (l ++ [(off, v)]))).
Qed.
Lemma only_read8 l off : off ∉ l.*1 →
  hoare (only l) (read8 Pfc off) (λ v, only (l ++ [(off, v)])).
Proof.
  intros Hoff. unfold read8. eapply hoare_bind; [by apply only_read|]. intros v.
  by apply (hoare_ret _ _ (λ v, only (l ++ [(off, v)]))).
Qed.

(** Before the clock is looked at. *)
Definition unclocked (s : pfc_snapshot) (g : reads) : Prop :=
  found s g ∧ first g Cpg MSTPCR2_OFF = None.

Lemma capture_found : hoare (only []) capture_pfc unclocked.
Proof.
  unfold capture_pfc, SubpadMouse.capture_pfc.
  do 3 (eapply hoare_bind; [apply only_read16; apply (bool_decide_unpack _); vm_compute; exact I|intros ?]).
  do 2 (eapply hoare_bind; [apply only_read8; apply (bool_decide_unpack _); vm_compute; exact I|intros ?]).
  do 3 (eapply hoare_bind; [apply only_read16; apply (bool_decide_unpack _); vm_compute; exact I|intros ?]).
  apply hoare_ret. intros g (_ & Hs & Hc). split; [|apply Hc].
  intros off v Hin. apply Hs. revert Hin. unfold fields. cbn [app]. rewrite !elem_of_cons. tauto.
Qed.

(** ** Reading back *)

(** These have been read back. *)
Definition matches (l : list (Z * Z)) (g : reads) : Prop := ∀ off v, (off, v) ∈ l →
  ∃ v', last g Pfc off = Some v' ∧ Z.land v' (owned Pfc off) = Z.land v (owned Pfc off).

Lemma check_ok (Φ : reads → Prop) l w off v (f : Z → Z) : lasting Φ → off ∉ l.*1 →
  (∀ x, f x = x mod 2 ^ w) →
  hoare (λ g, Φ g ∧ matches l g)
    (x ← (y ← ask (Read w Pfc off); mret (f y)); mret (Z.land x (owned Pfc off) =? Z.land v (owned Pfc off)))
    (λ ok g, Φ g ∧ (ok = true → matches (l ++ [(off, v)]) g)).
Proof.
  intros HΦ Hoff Hf.
  apply (hoare_bind _ _ _ (λ x g, Φ g ∧ matches l g ∧ last g Pfc off = Some x)).
  - apply (hoare_bind _ _ _ (λ y g, Φ g ∧ matches l g ∧ last g Pfc off = Some (f y))); [|intros y; by apply hoare_ret].
    apply hoare_ask. intros g y [Hp Hm]. rewrite Hf. split; [by apply HΦ|]. split; [|apply record_same].
    intros off' v' Hin. cbn [observe last]. rewrite record_other; [by apply Hm|]. intros [= ->]. apply Hoff.
    by apply (list_elem_of_fmap_2 fst _ (off, v')).
  - intros x. apply hoare_ret. intros g (? & Hm & Hx). split; [done|]. intros Heq%Z.eqb_eq off' v'.
    intros [Hin|Hin]%elem_of_app; [by apply Hm|]. apply list_elem_of_singleton in Hin as [= -> ->]. by exists x.
Qed.

Lemma check_chain (Φ : reads → Prop) l l' l'' (c : K bool) (rest : K bool) :
  hoare (λ g, Φ g ∧ matches l g) c (λ ok g, Φ g ∧ (ok = true → matches l' g)) →
  hoare (λ g, Φ g ∧ matches l' g) rest (λ ok g, Φ g ∧ (ok = true → matches l'' g)) →
  hoare (λ g, Φ g ∧ matches l g) (and_then c rest) (λ ok g, Φ g ∧ (ok = true → matches l'' g)).
Proof.
  intros Hc Hr. unfold and_then. eapply hoare_bind; [apply Hc|]. intros [|].
  - eapply hoare_conseq; [apply Hr| |done]. intros g [? Hm]. split; [done|by apply Hm].
  - apply hoare_ret. by intros g [? _].
Qed.

Lemma restore_back Φ s : lasting Φ →
  hoare Φ (restore_pfc s) (λ ok g, Φ g ∧ (ok = true → matches (fields s) g)).
Proof.
  intros HΦ. unfold restore_pfc, SubpadMouse.restore_pfc, force_rest_high, base_pfc, SubpadMouse.base_pfc.
  apply hoare_keeps; [unfold rmw8, rmw16, read8, read16, write8, write16, tell; keeps|]. intros u.
  do 8 (apply hoare_keeps; [unfold rmw8, rmw16, read8, read16, write8, write16, tell; keeps|intros _]).
  apply (hoare_conseq (λ g, Φ g ∧ matches [] g) _ _ (λ ok g, Φ g ∧ (ok = true → matches (fields s) g)));
    [|intros g Hg; split; [done|by intros off v ?%elem_of_nil]|done].
  assert (∀ l off v, off ∉ l.*1 → hoare (λ g, Φ g ∧ matches l g) (same16 off (owned Pfc off) v)
    (λ ok g, Φ g ∧ (ok = true → matches (l ++ [(off, v)]) g))) as H16.
  { intros l off v Hoff. unfold same16, read16. by apply (check_ok Φ l 16 off v u16). }
  assert (∀ l off v, off ∉ l.*1 → hoare (λ g, Φ g ∧ matches l g) (same8 off (owned Pfc off) v)
    (λ ok g, Φ g ∧ (ok = true → matches (l ++ [(off, v)]) g))) as H8.
  { intros l off v Hoff. unfold same8, read8. by apply (check_ok Φ l 8 off v u8). }
  eapply check_chain; [apply (H16 []); member|].
  eapply check_chain; [apply H8; member|].
  do 5 (eapply check_chain; [apply H16; member|]).
  apply H8; member.
Qed.

(** ** The clock *)

(** Looked at first with its bit as [b], and read back so. *)
Definition clocked (b : bool) (g : reads) : Prop :=
  ∃ c, first g Cpg MSTPCR2_OFF = Some c ∧ gated c = b.
Definition clock_back (b : bool) (g : reads) : Prop :=
  ∃ c, last g Cpg MSTPCR2_OFF = Some c ∧ gated c = b.
Lemma clocked_lasting b : lasting (clocked b).
Proof. intros g e (c & Hc & Hb). exists c. split; [by apply first_stays|done]. Qed.

Lemma lasting_and Φ Ψ : lasting Φ → lasting Ψ → lasting (λ g, Φ g ∧ Ψ g).
Proof. intros HΦ HΨ g e [? ?]. split; [by apply HΦ|by apply HΨ]. Qed.

Definition opened (s : pfc_snapshot) (b : bool) (g : reads) : Prop := found s g ∧ clocked b g.
Lemma opened_lasting s b : lasting (opened s b).
Proof. apply lasting_and; [apply found_lasting|apply clocked_lasting]. Qed.

Lemma open_back s : hoare (unclocked s) open_adc_clock (λ o, opened s o.1.2).
Proof.
  unfold open_adc_clock. apply (hoare_bind _ _ _ (λ c, opened s (gated c))).
  - unfold read32. apply (hoare_bind _ _ _ (λ v, opened s (gated (u32 v))));
      [|intros v; by apply (hoare_ret _ _ (λ v, opened s (gated v)))].
    apply hoare_ask. intros g v [Hf Hc]. split; [by apply found_lasting|].
    exists (u32 v). split; [|done]. cbn. rewrite Hc. apply record_same.
  - intros current. cbv zeta. pose proof (opened_lasting s (gated current)) as Hl.
    apply hoare_keeps; [destruct (gated current); unfold read32, write32, tell; keeps|]. intros _.
    apply hoare_keeps; [unfold read32; keeps|]. intros after. by apply hoare_ret.
Qed.

Lemma restore_clock_back Φ l b : lasting Φ →
  hoare (λ g, Φ g ∧ matches l g) (restore_adc_clock b)
    (λ ok g, Φ g ∧ matches l g ∧ (ok = true → clock_back b g)).
Proof.
  intros HΦ.
  assert (∀ w v, keeps (λ g, Φ g ∧ matches l g) (ask (Write w Cpg MSTPCR2_OFF v))) as Hw.
  { intros w v. apply keeps_ask. intros g x [? Hm]. split; [by apply HΦ|]. intros off v' Hin.
    cbn [observe last]. rewrite record_other by done. by apply Hm. }
  assert (hoare (λ g, Φ g ∧ matches l g) (read32 Cpg MSTPCR2_OFF)
    (λ c g, Φ g ∧ matches l g ∧ last g Cpg MSTPCR2_OFF = Some c)) as Hr.
  { unfold read32. apply (hoare_bind _ _ _ (λ v g, Φ g ∧ matches l g ∧ last g Cpg MSTPCR2_OFF = Some (u32 v)));
      [|intros v; by apply (hoare_ret _ _ (λ v g, Φ g ∧ matches l g ∧ last g Cpg MSTPCR2_OFF = Some v))].
    apply hoare_ask. intros g x [? Hm]. split; [by apply HΦ|]. split; [|apply record_same].
    intros off v' Hin. cbn [observe last]. rewrite record_other by done. by apply Hm. }
  unfold restore_adc_clock, SubpadMouse.restore_adc_clock.
  apply (hoare_step _ (λ g, Φ g ∧ matches l g)).
  { eapply hoare_conseq; [apply Hr|done|]. by intros c g (? & ? & _). }
  intros current. apply hoare_keeps; [destruct b; unfold write32, tell; auto with keeps; keeps|]. intros _.
  eapply hoare_bind; [apply Hr|]. intros c. apply hoare_ret. intros g (? & ? & Hc).
  split_and!; [done..|]. intros Hb%bool_decide_eq_true. by exists c.
Qed.

(** ** The bodies of the commands *)

Lemma fields_registers s off : (Pfc, off) ∈ port_registers → ∃ v, (off, v) ∈ fields s.
Proof.
  unfold port_registers, fields. rewrite list_elem_of_fmap. intros (o & [= ->] & Hin). revert Hin.
  rewrite !elem_of_cons, elem_of_nil. intros Hin.
  repeat (destruct Hin as [->|Hin]; [eexists; rewrite !elem_of_cons; eauto 10|]). done.
Qed.
Lemma ports_back s g : found s g → matches (fields s) g → read_back port_registers g.
Proof.
  intros Hf Hm p off Hin.
  assert (p = Pfc) as -> by (apply list_elem_of_fmap in Hin as (? & [= -> _] & _); done).
  destruct (fields_registers s off Hin) as [v Hv]. destruct (Hm off v Hv) as (v' & ? & ?).
  exists v, v'. split; [by apply Hf|done].
Qed.

Lemma gated_land u v : gated u = gated v → Z.land u ADC_CLOCK_BIT = Z.land v ADC_CLOCK_BIT.
Proof.
  rewrite !gated_bit. intros Hb. apply Z.bits_inj'. intros i Hi. rewrite !Z.land_spec, testbit_clock.
  destruct (Z.eqb_spec 27 i) as [<-|]; [by rewrite Hb|by rewrite !andb_false_r].
Qed.
Lemma clock_read_back b g : clocked b g → clock_back b g → read_back [(Cpg, MSTPCR2_OFF)] g.
Proof.
  intros (c & Hc & Hb) (c' & Hc' & Hb') p off [= -> ->]%list_elem_of_singleton. exists c, c'.
  split_and!; [done..|]. change (owned Cpg MSTPCR2_OFF) with ADC_CLOCK_BIT. apply gated_land. congruence.
Qed.
Lemma read_back_app l l' g : read_back l g → read_back l' g → read_back (l ++ l') g.
Proof. intros H1 H2 p off [?|?]%elem_of_app; auto. Qed.

(** The ports do not look at the clock. *)
Lemma unclocked_port s r :
  match r with Read _ Cpg _ => false | _ => true end = true → keeps (unclocked s) (ask r).
Proof.
  intros Hr. apply keeps_ask. intros g v [Hf Hc]. split; [by apply found_lasting|].
  destruct r; cbn; try done. destruct (first g p off); [done|]. rewrite record_other; [done|].
  by intros [= <- <-].
Qed.

Hint Extern 1 (Traced.keeps _ _ (unclocked _) (ask _)) => (apply unclocked_port; reflexivity) : keeps.

Lemma keeps_ports s : keeps (unclocked s) force_rest_high.
Proof.
  unfold force_rest_high, base_pfc, SubpadMouse.base_pfc, rmw8, rmw16, read8, read16, write8, write16, tell.
  keeps.
Qed.
Lemma keeps_touch_pen_reads s n contact observed : keeps (unclocked s) (pen_reads n contact observed).
Proof. revert contact observed. induction n; intros; cbn [pen_reads]; unfold read8; keeps. Qed.
Hint Resolve keeps_touch_pen_reads : keeps.
Lemma keeps_read_pen s : keeps (unclocked s) read_pen.
Proof.
  unfold read_pen, base_pfc, SubpadMouse.base_pfc, rmw8, rmw16, read8, read16, write8, write16, tell. keeps.
Qed.
Lemma unclocked_found s g : unclocked s g → found s g.
Proof. by intros [? _]. Qed.

(** Up to the pen, both commands do the same. *)
Lemma pen_back :
  hoare (only [])
    (snapshot ← capture_pfc; force_rest_high;; '(contact, pldr) ← read_pen;
     restored ← restore_pfc snapshot; mret (contact, pldr, restored))
    (λ r g, r.2 = true → read_back port_registers g).
Proof.
  eapply hoare_bind; [apply capture_found|]. intros s.
  apply hoare_keeps; [apply keeps_ports|]. intros _.
  apply hoare_keeps; [apply keeps_read_pen|]. intros [contact pldr].
  apply (hoare_bind _ _ _ (λ ok g, ok = true → read_back port_registers g)); [|intros ok; by apply hoare_ret].
  eapply hoare_conseq; [apply (restore_back (found s)), found_lasting|apply unclocked_found|].
  intros ok g [Hf Hm] Hok. by apply (ports_back s), Hm.
Qed.

(** After the attempt: what is known when it was a conversion. *)
Definition converted (s : pfc_snapshot) (r : adc_status * sample * bool * Z * bool * bool * bool)
    (g : reads) : Prop :=
  let '(status, _, was_gated, _, tried, _, _) := r in
  found s g ∧ (status = ADC_OK → tried = true ∧ clocked was_gated g).

Lemma attempt_back s contact : hoare (unclocked s) (adc_attempt contact) (converted s).
Proof.
  unfold adc_attempt. destruct contact; cbn [negb].
  2:{ apply hoare_ret. by intros g [? _]. }
  apply (hoare_bind _ _ _ (λ o, opened s o.1.2)).
  - unfold adc_once. eapply hoare_bind; [apply open_back|]. intros [[ok was] after]. cbn [fst snd].
    pose proof (opened_lasting s was) as Hl. destruct ok; cbn [negb]; [|by apply hoare_ret].
    apply hoare_keeps; [|intros [status sm]; by apply hoare_ret].
    unfold adc_convert, rmw8, rmw16, clear_bits, read8, read16, read32, write8, write16, tell, wait_clear.
    assert (∀ n off mask, keeps (opened s was) (wait_clear_loop n off mask)) as Hw
      by (induction n; intros; cbn [wait_clear_loop]; unfold read16; keeps).
    keeps; apply Hw.
  - intros [[[status sm] was] after]. cbn [fst snd]. cbv zeta. pose proof (opened_lasting s was) as Hl.
    apply hoare_keeps.
    + destruct (negb _); [|keeps]. unfold adc_cleanup, clear_bits, read16, write16, tell, wait_clear.
      assert (∀ n off mask, keeps (opened s was) (wait_clear_loop n off mask)) as Hw
        by (induction n; intros; cbn [wait_clear_loop]; unfold read16; keeps).
      keeps; apply Hw.
    + intros ok. apply hoare_ret. by intros g [? ?].
Qed.

Definition adc_registers : list (page * Z) := port_registers ++ [(Cpg, MSTPCR2_OFF)].
Definition read_back_adc (r : adc_run) (g : reads) : Prop :=
  status r = ADC_OK → cleanup_ok r = true → pfc_restored r = true → clock_restored r = true →
  read_back adc_registers g.

Lemma adc_back : hoare (only []) adc_body read_back_adc.
Proof.
  unfold adc_body. eapply hoare_bind; [apply capture_found|]. intros s.
  apply hoare_keeps; [apply keeps_ports|]. intros _.
  apply hoare_keeps; [apply keeps_read_pen|]. intros [contact pldr].
  eapply hoare_bind; [apply attempt_back|]. intros [[[[[[st sm] was] after] tried] accessed] cleanup].
  apply (hoare_bind _ _ _ (λ r g, st = ADC_OK → cleanup = true → r.1 = true → r.2 = true →
    read_back adc_registers g)); [|intros [pfc clock]; by apply hoare_ret].
  destruct cleanup; [|by apply hoare_ret]. cbn [converted].
  assert (lasting (λ g, found s g ∧ (st = ADC_OK → tried = true ∧ clocked was g))) as Hl.
  { intros g e [Hf Hc]. split; [by apply found_lasting|]. intros Hst. destruct (Hc Hst).
    split; [done|by apply clocked_lasting]. }
  set (Φ := λ g, found s g ∧ (st = ADC_OK → tried = true ∧ clocked was g)) in *.
  apply hoare_keeps; [unfold force_rest_high, base_pfc, SubpadMouse.base_pfc, rmw8, rmw16, read8, read16,
    write8, write16, tell; keeps|]. intros _.
  eapply hoare_bind; [by apply (restore_back Φ)|]. intros pfc. apply hoare_pre. intros g0 [HΦ Hm].
  apply (hoare_bind _ _ _ (λ clock g, Φ g ∧ (pfc = true → matches (fields s) g) ∧
    (tried = true → clock = true → clock_back was g))).
  - destruct tried; [|apply hoare_ret; by intros g ->].
    destruct pfc.
    + eapply hoare_conseq; [by apply (restore_clock_back Φ (fields s))| |].
      * intros g ->. split; [done|by apply Hm].
      * intros clock g (? & ? & ?). by split_and!.
    + eapply hoare_conseq; [by apply (restore_clock_back Φ [])| |].
      * intros g ->. split; [done|by intros off v ?%elem_of_nil].
      * intros clock g (? & ? & ?). by split_and!.
  - intros clock. apply hoare_ret. cbn [fst snd]. intros g ([Hf Hc] & Hp & Hb) Hst _ Hpfc Hclock.
    destruct (Hc Hst) as [Ht Hcl]. apply read_back_app; [by apply (ports_back s), Hp|].
    apply (clock_read_back was); [done|by apply Hb].
Qed.

(** ** Whole runs *)

Lemma keeps_puts P t : keeps P (puts t).
Proof. unfold puts, tell. keeps. Qed.
Hint Resolve keeps_puts : keeps.
Lemma reads_unmap P ps : keeps P (unmap_all ps).
Proof. induction ps; cbn [unmap_all]; unfold tell; keeps. Qed.
Hint Resolve reads_unmap : keeps.
Lemma reads_close_maps P ps : keeps P (close_maps ps).
Proof. unfold close_maps, SubpadMouse.close_maps, tell. keeps. Qed.
Hint Resolve reads_close_maps : keeps.
Lemma keeps_map_pages P ps ms b : keeps P (map_pages ps ms b).
Proof. destruct b; revert ms; induction ps; intros; cbn [map_pages]; unfold map_page; keeps. Qed.
Hint Resolve keeps_map_pages : keeps.
Lemma reads_open_maps P wanted b : keeps P (open_maps wanted b).
Proof. destruct b; unfold open_maps; keeps. Qed.
Lemma keeps_absent P : keeps P experimental_driver_absent.
Proof. unfold experimental_driver_absent, SubpadMouse.experimental_driver_absent, equals. keeps. Qed.
Hint Resolve reads_open_maps keeps_absent : keeps.
Lemma keeps_preflight P : keeps P preflight_write.
Proof.
  unfold preflight_write, active_text_vt, expected_hardware, SubpadMouse.expected_hardware, and_then,
    not_negative, equals, tell. keeps.
Qed.
Lemma keeps_acquire P : keeps P acquire_lock.
Proof. unfold acquire_lock, SubpadMouse.acquire_lock, tell. keeps. Qed.
Lemma reads_block P : keeps P block_async_signals.
Proof.
  unfold block_async_signals, and_then, not_negative.
  apply log_keeps_bind; [keeps|]. intros [|]; [|keeps].
  apply log_keeps_bind; [apply keeps_for_all; intros; keeps|]. intros [|]; keeps.
Qed.
Hint Resolve keeps_preflight keeps_acquire reads_block : keeps.

(** A run that ends with status 0 has given [F]. *)
Definition gives (F : reads → Prop) (z : Z) (g : reads) : Prop := z = 0 → F g.

Lemma exercise_back {A} F wanted announce (body : K A) report (R : A → reads → Prop) :
  keeps (only []) announce → hoare (only []) body R →
  (∀ r, hoare (R r) (report r) (gives F)) →
  hoare (only []) (exercise wanted announce body report) (gives F).
Proof.
  intros Ha Hbody Hr. unfold exercise.
  assert (hoare (only []) (mret 1 : K Z) (gives F)) as Hout by by apply hoare_ret.
  apply hoare_keeps; [keeps|]. intros [|]; cbn [negb]; [|done].
  apply hoare_keeps; [keeps|]. intros [|]; cbn [negb]; [|done].
  apply hoare_keeps; [keeps|]. intros [|]; cbn [negb].
  2:{ apply hoare_keeps; [unfold tell; keeps|done]. }
  apply hoare_keeps; [done|]. intros u.
  assert (∀ b, hoare (only []) (failed_maps (wanted_pages wanted) b) (gives F)) as Hfail.
  { intros b. unfold failed_maps, restore_signals, tell.
    apply hoare_keeps; [keeps|]. intros _. apply hoare_keeps; [keeps|]. intros _.
    apply hoare_keeps; [destruct b; keeps|done]. }
  apply hoare_keeps; [unfold and_then, equals; keeps|]. intros [|]; cbn [negb]; [|done].
  apply hoare_keeps; [keeps|]. intros [|]; cbn [negb]; [|done].
  eapply hoare_bind; [apply Hbody|]. intros r. unfold restore_signals, tell.
  apply hoare_keeps; [keeps|]. intros _. apply hoare_keeps; [keeps|]. intros _.
  apply hoare_keeps; [keeps|]. intros _. apply Hr.
Qed.

Lemma report_back r : hoare (read_back_adc r) (adc_report r) (gives (read_back adc_registers)).
Proof.
  unfold adc_report. do 4 (apply hoare_keeps; [keeps|intros _]).
  apply hoare_ret. intros g Hg.
  destruct (bool_decide_reflect (status r = ADC_OK)) as [Hst|]; [|done].
  unfold gives. destruct (cleanup_ok r) eqn:?; [|done]. destruct (pfc_restored r) eqn:?; [|done].
  destruct (clock_restored r) eqn:?; [|done]. intros _. by apply Hg.
Qed.

Lemma main_back argv :
  hoare (only []) (main argv) (gives (read_back (given_back (parse_command argv).2))).
Proof.
  assert (∀ (m : K Z) c, given_back c = [] → hoare (only []) m (gives (read_back (given_back c)))) as Hno.
  { intros m c -> w a w' _ _ _ p off Hin. by apply elem_of_nil in Hin. }
  unfold main. destruct (parse_command argv) as [parsed [[]|]]; cbn [snd]; try by apply Hno.
  - apply (exercise_back _ _ _ _ _ (λ r g, r.2 = true → read_back port_registers g));
      [keeps|apply pen_back|].
    intros [[contact pldr] [|]]; (apply hoare_keeps; [keeps|]); intros _; apply hoare_ret; [|done].
    intros g Hg _. by apply Hg.
  - apply (exercise_back _ _ _ _ _ read_back_adc); [keeps|apply adc_back|apply report_back].
Qed.
End Facts.

(** Whatever the registers, the panel and the kernel answer. *)
Lemma status_0_read_back {E} `{Answers request E} argv (e : E) w :
  main argv (World e []) = (0, w) →
  read_back (given_back (parse_command argv).2) (seen observe start w).
Proof.
  intros Hm. refine (main_back argv (World e []) 0 w _ Hm eq_refl).
  by split_and!; [intros|intros off v ?%elem_of_nil|intros].
Qed.
