(* ===== verification/TouchPorts.v ===== *)
(** * Diagnosis of the touch panel: the ports are given back

    On a system whose port and clock registers keep what is written to them,
    every run of [TouchDiag] leaves them as it found them, or says that the
    machine has to be reset.  That a restoration fails, and the program says so, is
    for registers that do not: there [TouchReads] says what a status of 0 means. *)

From S2P Require Import Prelude Text Traced SubpadMouse SubpadPorts TouchDiag TouchReads.

Section Ports.
Context {E : Type} `{Answers request E} {get : E → page → Z → Z} `{!Latched E get} (e0 : E).
Abbreviation K := (st (world request E)).
Abbreviation keeping l := (λ w : world request E, kept (get := get) l e0 (env w)).
Abbreviation stays l := (SubpadPorts.stays (get := get) l e0).
Abbreviation captured := (SubpadPorts.captured (get := get) e0).
Abbreviation clock_latch := (32, Cpg, MSTPCR2_OFF).
Abbreviation was_found := (gated (get e0 Cpg MSTPCR2_OFF)).

(** The registers that may differ while the clock is held open. *)
Definition held_open (b : bool) : list (Z * page * Z) := if b then [clock_latch] else [].

(** ** The operations *)

Section Kept.
Context (clock : bool).
Abbreviation free := (ports ++ held_open clock).

Lemma stays_port8 off m v :
  (8, Pfc, off) ∈ ports → Z.land m (owned Pfc off) = m → stays free (rmw8 Pfc off m v).
Proof.
  intros Hin Hm. assert ((8, Pfc, off) ∈ latches) by (unfold ports, latches in *; set_solver).
  apply (modify_stays free e0 8 Pfc off (read8 Pfc off)); [done|set_solver|done|by apply read8_triple].
Qed.
Lemma stays_port16 off m v :
  (16, Pfc, off) ∈ ports → Z.land m (owned Pfc off) = m → stays free (rmw16 Pfc off m v).
Proof.
  intros Hin Hm. assert ((16, Pfc, off) ∈ latches) by (unfold ports, latches in *; set_solver).
  apply (modify_stays free e0 16 Pfc off (read16 Pfc off)); [done|set_solver|done|by apply read16_triple].
Qed.
Lemma stays_whole w off v :
  (w, Pfc, off) ∈ ports → owned Pfc off = Z.ones w → stays free (tell (Write w Pfc off v)).
Proof.
  intros Hin Ho. assert ((w, Pfc, off) ∈ latches) by (unfold ports, latches in *; set_solver).
  apply (tell_triple free free e0 w Pfc off); [done..|by right|left; set_solver].
Qed.
Hint Extern 1 (SubpadPorts.stays _ _ (rmw8 _ _ _ _)) => (apply stays_port8; [member|reflexivity]) : stays.
Hint Extern 1 (SubpadPorts.stays _ _ (rmw16 _ _ _ _)) => (apply stays_port16; [member|reflexivity]) : stays.
Hint Extern 1 (SubpadPorts.stays _ _ (write8 _ _ _)) => (apply stays_whole; [member|reflexivity]) : stays.
Hint Extern 1 (SubpadPorts.stays _ _ (write16 Pfc _ _)) => (apply stays_whole; [member|reflexivity]) : stays.

Lemma stays_rest_high : stays free force_rest_high.
Proof. unfold force_rest_high, base_pfc, SubpadMouse.base_pfc. stays. Qed.
Lemma touch_stays_pen_reads n contact observed : stays free (pen_reads n contact observed).
Proof. revert contact observed. induction n; intros; cbn [pen_reads]; unfold read8; stays. Qed.
Hint Resolve touch_stays_pen_reads : stays.
Lemma touch_stays_read_pen : stays free read_pen.
Proof. unfold read_pen, base_pfc, SubpadMouse.base_pfc. stays. Qed.

Lemma touch_restore_ok :
  triple (keeping free) (restore_pfc captured) (λ ok w, keeping (held_open clock) w ∧ ok = true).
Proof.
  unfold restore_pfc. eapply triple_bind; [apply stays_rest_high|]. intros u. apply restore_pfc_ok.
Qed.
End Kept.

(** The clock: what is not opened is not held open. *)
Lemma open_exact l :
  clock_latch ∉ l →
  triple (keeping l) open_adc_clock (λ r w, keeping (l ++ held_open was_found) w ∧ r.1.2 = was_found).
Proof.
  intros Hl. unfold open_adc_clock. eapply bind_value; [apply (value_out e0 l 32 Cpg MSTPCR2_OFF);
    [member|done|apply read32_triple; member]|].
  cbv zeta. apply (triple_bind _ _ _ (λ _, keeping (l ++ held_open was_found))).
  - destruct was_found; [apply open_write|]. apply triple_ret. intros w. by rewrite app_nil_r.
  - intros _. eapply triple_bind; [apply stays_read32|]. intros c. by apply triple_ret.
Qed.

Lemma restore_exact :
  triple (keeping (held_open was_found)) (restore_adc_clock was_found) (λ _, keeping []).
Proof.
  unfold restore_adc_clock, SubpadMouse.restore_adc_clock.
  destruct was_found eqn:Hb; cbn [held_open].
  - rewrite gated_bit in Hb. eapply triple_bind; [apply read32_triple; member|]. intros c.
    eapply triple_bind; [by apply gate_ok|]. intros u.
    eapply triple_bind; [apply stays_read32|]. intros v. by apply triple_ret.
  - change (stays [] (current ← read32 Cpg MSTPCR2_OFF; mret tt;; current ← read32 Cpg MSTPCR2_OFF;
      mret (bool_decide (gated current = false)))). stays.
Qed.

(** The converter changes no port but those that are given back. *)
Abbreviation used := (ports ++ held_open was_found).

Lemma touch_stays_wait_clear l off mask : stays l (wait_clear off mask).
Proof. unfold wait_clear. induction ADC_TIMEOUT; cbn [wait_clear_loop]; stays. Qed.
Lemma touch_stays_clear_bits l off bits : stays l (clear_bits off bits).
Proof. unfold clear_bits. stays. Qed.
Hint Resolve touch_stays_wait_clear touch_stays_clear_bits stays_rest_high touch_stays_read_pen : stays.
Hint Extern 1 (SubpadPorts.stays _ _ (rmw8 _ _ _ _)) => (apply stays_port8; [member|reflexivity]) : stays.
Hint Extern 1 (SubpadPorts.stays _ _ (rmw16 _ _ _ _)) => (apply stays_port16; [member|reflexivity]) : stays.
Hint Extern 1 (SubpadPorts.stays _ _ (write8 Pfc _ _)) => (apply stays_whole; [member|reflexivity]) : stays.
Hint Extern 1 (SubpadPorts.stays _ _ (write16 Pfc _ _)) => (apply stays_whole; [member|reflexivity]) : stays.

Lemma stays_convert : stays used adc_convert.
Proof. unfold adc_convert. stays. Qed.
Lemma stays_cleanup l : stays l adc_cleanup.
Proof. unfold adc_cleanup. stays. Qed.


(** The bodies: what they have to give back, they have given back. *)
Lemma pen_ports :
  triple (keeping [])
    (snapshot ← capture_pfc; force_rest_high;; '(contact, pldr) ← read_pen;
     restored ← restore_pfc snapshot; mret (contact, pldr, restored))
    (λ _, keeping []).
Proof.
  eapply bind_value; [apply capture_ok|].
  apply (triple_conseq (keeping (ports ++ held_open false)) _ _ (λ _, keeping []));
    [|intros w; apply kept_mono; set_solver|done].
  eapply triple_bind; [apply stays_rest_high|]. intros u.
  eapply triple_bind; [apply touch_stays_read_pen|]. intros [contact pldr].
  eapply bind_value; [apply (touch_restore_ok false)|]. by apply triple_ret.
Qed.

Lemma clock_ports :
  triple (keeping [])
    (initial ← read32 Cpg MSTPCR2_OFF; '(opened, was_gated, after) ← open_adc_clock;
     touch_restore_ok ← restore_adc_clock was_gated; restored_value ← read32 Cpg MSTPCR2_OFF;
     mret (initial, after, restored_value, opened && touch_restore_ok))
    (λ _, keeping []).
Proof.
  eapply triple_bind; [apply stays_read32|]. intros initial.
  eapply triple_bind; [apply (open_exact []), not_elem_of_nil|]. intros [[opened was] after].
  apply triple_pre. intros s [Hs Hwas]. cbn [fst snd] in Hwas. subst was.
  apply (triple_conseq (keeping (held_open was_found)) _ _ (λ _, keeping [])); [|by intros ? <-|done].
  eapply triple_bind; [apply restore_exact|]. intros ok.
  eapply triple_bind; [apply stays_read32|]. intros v. by apply triple_ret.
Qed.

(** After the conversion: what is held open, and what is known of the clock. *)
Definition attempted (r : adc_status * sample * bool * Z * bool * bool * bool) (w : world request E) : Prop :=
  let '(_, _, was_gated, _, tried, _, _) := r in
  keeping (ports ++ held_open (tried && was_found)) w ∧ (tried = true → was_gated = was_found).

Lemma attempt_ok contact :
  triple (keeping (ports ++ held_open false)) (adc_attempt contact) attempted.
Proof.
  unfold adc_attempt. destruct contact; cbn [negb]; [|by apply triple_ret].
  apply (triple_bind _ _ _ (λ r w, keeping used w ∧ r.1.2 = was_found)).
  - unfold adc_once. rewrite app_nil_r. eapply triple_bind; [apply open_exact; member|].
    intros [[opened was] after]. cbn [fst snd]. apply triple_pre. intros s [Hs ->].
    apply (triple_conseq (keeping used) _ _ (λ r w, keeping used w ∧ r.1.2 = was_found));
      [|by intros ? <-|done].
    destruct opened; cbn [negb]; [|by apply triple_ret].
    eapply triple_bind; [apply stays_convert|]. intros [status sm]. by apply triple_ret.
  - intros [[[status sm] was] after]. cbn [fst snd]. cbv zeta. apply triple_pre. intros s [Hs ->].
    apply (triple_conseq (keeping used) _ _ attempted); [|by intros ? <-|done].
    apply (triple_bind _ _ _ (λ _, keeping used)); [|intros ok; by apply triple_ret].
    destruct (negb _); [apply stays_cleanup|by apply triple_ret].
Qed.

Lemma adc_ports :
  triple (keeping []) adc_body (λ r w, cleanup_ok r = true → keeping [] w).
Proof.
  unfold adc_body. eapply bind_value; [apply capture_ok|].
  apply (triple_conseq (keeping (ports ++ held_open false)) _ _ (λ r w, cleanup_ok r = true → keeping [] w));
    [|intros w; apply kept_mono; set_solver|done].
  eapply triple_bind; [apply stays_rest_high|]. intros u.
  eapply triple_bind; [apply touch_stays_read_pen|]. intros [contact pldr].
  eapply triple_bind; [apply attempt_ok|]. intros [[[[[[status sm] was] after] tried] accessed] cleanup].
  apply (triple_bind _ _ _ (λ _ w, cleanup = true → keeping [] w)); [|intros []; by apply triple_ret].
  destruct cleanup; [|by apply triple_ret].
  apply triple_pre. intros s [Hs Hwas].
  apply (triple_conseq (keeping (ports ++ held_open (tried && was_found))) _ _ (λ _ w, true = true → keeping [] w));
    [|by intros ? <-|done].
  eapply triple_bind; [apply stays_rest_high|]. intros v.
  eapply bind_value; [apply touch_restore_ok|].
  apply (triple_bind _ _ _ (λ _, keeping [])); [|intros c; by apply triple_ret].
  destruct tried; cbn [andb]; [rewrite (Hwas eq_refl); apply restore_exact|by apply triple_ret].
Qed.

(** ** Whole runs *)

(** What the run has said. *)
Definition said (t : list Z) (w : world request E) : Prop := ∃ v, (Puts (t ++ [10]), v) ∈ trace w.

Lemma puts_said t P : triple P (puts t) (λ _, said t).
Proof.
  unfold puts, tell. apply (triple_bind _ _ _ (λ _, said t)); [|intros v; by apply triple_ret].
  intros w v w' _. unfold ask. destruct (answer _ _) as [x e']. intros [= <- <-]. exists x. cbn [trace].
  set_solver.
Qed.
Lemma said_puts t t' : triple (said t) (puts t') (λ _, said t).
Proof.
  unfold puts, tell. apply (triple_bind _ _ _ (λ _, said t)); [|intros v; by apply triple_ret].
  intros w v w' [x Hx]. unfold ask. destruct (answer _ _) as [y e']. intros [= <- <-]. exists x. cbn [trace].
  set_solver.
Qed.

Definition restored (r : Z) (w : world request E) : Prop :=
  keeping [] w ∨ (r = 1 ∧ said reset_required w).

Lemma stays_puts l t : stays l (puts t).
Proof. unfold puts, tell. stays. Qed.
Hint Resolve stays_puts : stays.

Lemma report_ok r : stays [] (adc_report r).
Proof. unfold adc_report. stays. Qed.
Lemma report_reset P r : cleanup_ok r = false → triple P (adc_report r) (λ z w, z = 1 ∧ said reset_required w).
Proof.
  intros Hr. unfold adc_report. rewrite Hr. eapply triple_bind; [apply puts_said|]. intros u1.
  eapply triple_bind; [apply puts_said|]. intros u2. eapply triple_bind; [apply puts_said|]. intros u3.
  apply (triple_bind _ _ _ (λ _, said reset_required)).
  - case_bool_decide; [apply said_puts|by apply triple_ret].
  - intros u4. apply triple_ret. intros w Hw. split; [|done]. by rewrite andb_false_r.
Qed.

Lemma touch_stays_unmap l ps : stays l (unmap_all ps).
Proof. induction ps; cbn [unmap_all]; unfold tell; stays. Qed.
Hint Resolve touch_stays_unmap : stays.
Lemma touch_stays_close_maps l ps : stays l (close_maps ps).
Proof. unfold close_maps, SubpadMouse.close_maps, tell. stays. Qed.
Hint Resolve touch_stays_close_maps : stays.
Lemma touch_stays_map_pages l ps ms b : stays l (map_pages ps ms b).
Proof. destruct b; revert ms; induction ps; intros; cbn [map_pages]; unfold map_page; stays. Qed.
Hint Resolve touch_stays_map_pages : stays.
Lemma touch_stays_open_maps l wanted b : stays l (open_maps wanted b).
Proof. destruct b; unfold open_maps; stays. Qed.
Lemma touch_stays_absent l : stays l experimental_driver_absent.
Proof. unfold experimental_driver_absent, SubpadMouse.experimental_driver_absent, equals. stays. Qed.
Hint Resolve touch_stays_open_maps touch_stays_absent : stays.
Lemma stays_preflight l : stays l preflight_write.
Proof.
  unfold preflight_write, active_text_vt, expected_hardware, SubpadMouse.expected_hardware, and_then,
    not_negative, equals, tell. stays.
Qed.
Lemma touch_stays_acquire l : stays l acquire_lock.
Proof. unfold acquire_lock, SubpadMouse.acquire_lock, tell. stays. Qed.
Lemma touch_stays_for_all {A} l (f : A → K bool) xs : (∀ a, stays l (f a)) → stays l (for_all f xs).
Proof. intros Hf. induction xs; cbn [for_all]; unfold and_then; [stays|]. apply stays_bind; [done|]. intros [|]; [done|stays]. Qed.
Lemma touch_stays_block l : stays l block_async_signals.
Proof.
  unfold block_async_signals, and_then, not_negative. apply stays_bind; [stays|]. intros [|]; [|stays].
  apply stays_bind; [apply touch_stays_for_all; intros; stays|]. intros [|]; stays.
Qed.
Hint Resolve stays_preflight touch_stays_acquire touch_stays_block : stays.

(** Steps that change no port keep a promise about them. *)
Lemma keep_promise {A B} (C : Prop) (m : K A) (f : A → K B) Q :
  stays [] m → (∀ a, triple (λ w, C → keeping [] w) (f a) Q) →
  triple (λ w, C → keeping [] w) (m ≫= f) Q.
Proof.
  intros Hm Hf. apply (triple_bind _ _ _ (λ _ w, C → keeping [] w)); [|done].
  intros w a w' Hw Ha HC. exact (Hm w a w' (Hw HC) Ha).
Qed.

Lemma exercise_ports {A} wanted announce (body : K A) report (ok : A → bool) :
  stays [] announce → triple (keeping []) body (λ r w, ok r = true → keeping [] w) →
  (∀ r, stays [] (report r)) →
  (∀ r P, ok r = false → triple P (report r) (λ z w, z = 1 ∧ said reset_required w)) →
  triple (keeping []) (exercise wanted announce body report) restored.
Proof.
  intros Ha Hbody Hr Hreset. unfold exercise.
  assert (∀ m : K Z, stays [] m → triple (keeping []) m restored) as Hstay.
  { intros m Hm. eapply triple_conseq; [apply Hm|done|]. by left. }
  apply stays_step; [stays|]. intros [|]; cbn [negb]; [|apply Hstay; stays].
  apply stays_step; [stays|]. intros [|]; cbn [negb]; [|apply Hstay; stays].
  apply stays_step; [stays|]. intros [|]; cbn [negb]; [|apply Hstay; unfold tell; stays].
  apply stays_step; [done|]. intros u.
  apply stays_step; [unfold and_then, equals; stays|]. intros [|]; cbn [negb].
  2:{ apply Hstay. unfold failed_maps, restore_signals, tell. stays. }
  apply stays_step; [stays|]. intros [|]; cbn [negb].
  2:{ apply Hstay. unfold failed_maps, restore_signals, tell. stays. }
  eapply triple_bind; [apply Hbody|]. intros r. unfold restore_signals, tell.
  apply (keep_promise (ok r = true)); [stays|]. intros _.
  apply (keep_promise (ok r = true)); [stays|]. intros _.
  apply (keep_promise (ok r = true)); [stays|]. intros _. destruct (ok r) eqn:Hok.
  - apply (triple_conseq (keeping []) _ _ restored); [by apply Hstay| |done].
    intros w Hw. by apply Hw.
  - eapply triple_conseq; [by apply (Hreset r)|intros w Hw; exact Hw|]. intros z w ?. by right.
Qed.

Lemma look_ports {A} wanted (body : K A) report :
  stays [] body → (∀ r, stays [] (report r)) → stays [] (look wanted body report).
Proof.
  intros Hb Hr. unfold look, and_then. apply stays_bind; [stays|]. intros [|]; cbn [negb]; [|stays].
  apply stays_bind; [done|]. intros r. apply stays_bind; [stays|]. intros _. apply Hr.
Qed.

Lemma touch_main_ports argv : triple (keeping []) (main argv) restored.
Proof.
  assert (∀ m : K Z, stays [] m → triple (keeping []) m restored) as Hstay.
  { intros m Hm. eapply triple_conseq; [apply Hm|done|]. by left. }
  unfold main. destruct (parse_command argv) as [parsed [[]|]].
  - apply Hstay. unfold show_info. stays.
  - apply Hstay, look_ports; [unfold capture_pfc, SubpadMouse.capture_pfc|intros []]; stays.
  - apply (exercise_ports _ _ _ _ (λ _, true)); [stays| |intros [[] ?]; stays|done].
    eapply triple_conseq; [apply pen_ports|done|]. by intros.
  - apply Hstay, look_ports; [|intros []]; stays.
  - apply (exercise_ports _ _ _ _ (λ _, true)); [stays| |intros [[[] ?] ?]; stays|done].
    eapply triple_conseq; [apply clock_ports|done|]. by intros.
  - apply (exercise_ports _ _ _ _ cleanup_ok); [stays|apply adc_ports|apply report_ok|].
    intros r P. apply report_reset.
  - apply Hstay. unfold tell. stays.
Qed.
End Ports.

(** ** The ports are given back *)

(** C29: whatever the registers, the panel and the kernel answer, a run of the
    pen's check or of the single conversion that ends with status 0 has read back
    every port register it writes, behind its last write, with the value that it
    found there in all the bits it may change, and the conversion so the bit of the
    converter's clock (reading anything else it ends with another status).  And on a
    system whose port registers and clock register keep what is written to them,
    every run of any command leaves every bit of the nine registers as it was when
    the program started, unless the converter did not come to rest: then the
    program says that a reset is required and ends with status 1. *)
Theorem touch_ports_given_back {E} `{Answers request E} argv (e : E) :
  let '(r, w) := main argv (World e []) in
  (r = 0 → read_back (given_back (parse_command argv).2) (seen TouchReads.observe TouchReads.start w)) ∧
  ∀ get : E → page → Z → Z, Latched E get →
    (∀ width p off, (width, p, off) ∈ latches → get (env w) p off = get e p off) ∨
    (r = 1 ∧ ∃ v, (Puts (reset_required ++ [10]), v) ∈ trace w).
Proof.
  destruct (main argv (World e [])) as [r w] eqn:Hm. split.
  - intros ->. by apply (status_0_read_back argv e).
  - intros get Hl.
    destruct (touch_main_ports e argv (World e []) r w (kept_refl [] e) Hm) as [Hk|Hs]; [left|by right].
    intros width p off Hin. apply (kept_out [] e (env w) width); [done|apply not_elem_of_nil|done].
Qed.

(** A conversion on the bench: it ends with status 0, and the ports are as
    they were. *)
Definition converting : list (list Z) := [str "touchdiag"; str "adc-once"; str "--yes"].

Lemma touch_ports_given_back_witness :
  let '(r, w) := main converting (World (Bench.ready 0) []) in
  r = 0 ∧ read_back adc_registers (seen TouchReads.observe TouchReads.start w) ∧
  ∀ width p off, (width, p, off) ∈ latches →
    Bench.reg (env w) p off = Bench.reg (Bench.ready 0) p off.
Proof.
  assert ((main converting (World (Bench.ready 0) [])).1 = 0) as Hr by (vm_compute; reflexivity).
  pose proof (touch_ports_given_back converting (Bench.ready 0)) as Ht.
  destruct (main converting (World (Bench.ready 0) [])) as [r w]. cbn [fst] in Hr. subst r.
  destruct Ht as [Hback Ht]. split; [reflexivity|]. split; [by apply Hback|].
  destruct (Ht Bench.reg _) as [Hk|[[=] _]]. exact Hk.
Defined.
