(* ===== verification/SubLcd.v ===== *)
(** * Test of the second display ([src/x11/apps/sublcd-test.c])

    The program that draws a row or a pattern on the second display, or tells
    what it would use.  The registers and the system calls answer requests
    ([Traced]); what it prints on the standard output is a request ([Puts]).
    Messages on the standard error and barriers are left out.  A [long] has 32
    bits. *)

From Stdlib Require Import String Ascii.
From S2P Require Import Prelude Text Traced.

(** ** Constants and data *)

Definition SUBLCD_WIDTH : Z := 244.
Definition SUBLCD_HEIGHT : Z := 99.
Definition SUBLCD_UI_WIDTH : Z := 240.
Definition SUBLCD_UI_HEIGHT : Z := 96.
Definition SUBLCD_DATA_PHYS : Z := 0x18000000.
Definition SUBLCD_PRDR_PHYS : Z := 0x0405013c.
Definition SUBLCD_DC : Z := 0x04.

Inductive test_kind : Type :=
| TEST_INFO | TEST_INFO_LIVE | TEST_ROW | TEST_PATTERN_BARS | TEST_PATTERN_PAD.
#[export] Instance test_kind_eq_dec : EqDecision test_kind.
Proof. solve_decision. Defined.

Inductive touch_zone : Type :=
| ZONE_NONE | ZONE_LEFT | ZONE_UP | ZONE_RIGHT | ZONE_BUTTON_LEFT | ZONE_DOWN | ZONE_BUTTON_RIGHT.
#[export] Instance touch_zone_eq_dec : EqDecision touch_zone.
Proof. solve_decision. Defined.

Record options := Options { kind : test_kind; row : Z; color : Z }.

Definition usage : list Z :=
  c_str ["EX-word XD-B8600 secondary-LCD diagnostic\n"; "\n"; "Usage:\n"; "  sublcd-test info\n";
         "  sublcd-test info --live\n";
         "  sublcd-test row [top|middle|bottom] [white|red|green|blue] --yes\n";
         "  sublcd-test pattern [bars|pad] --yes\n"; "\n";
         "'info' performs no MMIO.  '--live' reads only PRDR.\n";
         "Run row first, from the text console after leaving X.  A bad external-\n";
         "bus assumption can hard-freeze the device; reset it if that happens.\n"]%string.

(** ** Numbers and options *)

(** [isspace]. *)
Definition is_space (c : Z) : bool := (c =? 32) || ((9 <=? c) && (c <=? 13)).
Fixpoint skip_spaces (s : list Z) : list Z :=
  match s with c :: s' => if is_space c then skip_spaces s' else s | [] => [] end.

(** The digits from here on: the number so far, whether there was a digit, the rest. *)
Fixpoint scan_digits (acc : Z) (any : bool) (s : list Z) : Z * bool * list Z :=
  match s with
  | c :: s' =>
      if (48 <=? c) && (c <=? 57) then scan_digits (acc * 10 + (c - 48)) true s' else (acc, any, s)
  | [] => (acc, any, s)
  end.

(** Blanks, a sign and digits: whether the sign is a minus, the number and the
    rest; [None] when there is no digit. *)
Definition scan_number (s : list Z) : option (bool * Z * list Z) :=
  let s := skip_spaces s in
  let '(minus, s) :=
    match s with
    | 45 :: s' => (true, s')
    | 43 :: s' => (false, s')
    | _ => (false, s)
    end in
  let '(n, any, rest) := scan_digits 0 false s in
  if any then Some (minus, n, rest) else None.

(** [strtoul] and [strtol] to base 10: the value and the end, [None] for an
    error or no number. *)
Definition strtoul (s : list Z) : option (Z * list Z) :=
  '(minus, n, rest) ← scan_number s;
  if 2 ^ 32 <=? n then None else Some (if minus : bool then u32 (- n) else n, rest).
Definition strtol (s : list Z) : option (Z * list Z) :=
  '(minus, n, rest) ← scan_number s;
  let v := if minus : bool then - n else n in
  if (v <? - 2 ^ 31) || (2 ^ 31 <=? v) then None else Some (v, rest).

Definition parse_row_name (text : list Z) : option Z :=
  if bool_decide (text = str "top") then Some 0
  else if bool_decide (text = str "middle") then Some (SUBLCD_HEIGHT / 2)
  else if bool_decide (text = str "bottom") then Some (SUBLCD_HEIGHT - 1)
  else
    '(value, rest) ← strtoul text;
    match rest with [] => if SUBLCD_HEIGHT <=? value then None else Some value | _ => None end.

Definition parse_color (text : list Z) : option Z :=
  if bool_decide (text = str "white") then Some 0xffff
  else if bool_decide (text = str "red") then Some 0xf800
  else if bool_decide (text = str "green") then Some 0x07e0
  else if bool_decide (text = str "blue") then Some 0x001f
  else None.

(** The words between [row] and [--yes]. *)
Fixpoint parse_row_words (words : list (list Z)) (row_seen color_seen : bool) (o : options) : option options :=
  match words with
  | [] => Some o
  | word :: words =>
      match parse_row_name word with
      | Some r => if row_seen then None else parse_row_words words true color_seen (Options (kind o) r (color o))
      | None =>
          match parse_color word with
          | Some c => if color_seen then None else parse_row_words words row_seen true (Options (kind o) (row o) c)
          | None => None
          end
      end
  end.

(** [0] and the options, [1] for help, [-1] for an error; [argv] has the name
    of the program first. *)
Definition parse_options (argv : list (list Z)) : Z * options :=
  let argc := zlen argv in
  let arg n := argv !!! n : list Z in
  let o := Options TEST_INFO (SUBLCD_HEIGHT / 2) 0xffff in
  let confirmed := bool_decide (last argv = Some (str "--yes")) in
  if (argc =? 1) || (argc =? 2) && bool_decide (arg 1%nat = str "info") then (0, o)
  else if (argc =? 2) && (bool_decide (arg 1%nat = str "--help") || bool_decide (arg 1%nat = str "-h")) then (1, o)
  else if (argc =? 3) && bool_decide (arg 1%nat = str "info") && bool_decide (arg 2%nat = str "--live")
  then (0, Options TEST_INFO_LIVE (row o) (color o))
  else if (3 <=? argc) && bool_decide (arg 1%nat = str "row") && confirmed then
    if 5 <? argc then (-1, o)
    else
      let o := Options TEST_ROW (row o) (color o) in
      match parse_row_words (drop 2 (take (length argv - 1) argv)) false false o with
      | Some o => (0, o)
      | None => (-1, o)
      end
  else if ((argc =? 3) || (argc =? 4)) && bool_decide (arg 1%nat = str "pattern") && confirmed then
    let name := if argc =? 4 then arg 2%nat else str "bars" in
    if bool_decide (name = str "bars") then (0, Options TEST_PATTERN_BARS (row o) (color o))
    else if bool_decide (name = str "pad") then (0, Options TEST_PATTERN_PAD (row o) (color o))
    else (-1, o)
  else (-1, o).

(** ** Pixels *)

Definition small_abs (value : Z) : Z := if value <? 0 then u32 (- value) else u32 value.

Definition arrow_pixel (zone : touch_zone) (x y : Z) : bool :=
  let ax := x - 40 in
  let ay := y - 24 in
  match zone with
  | ZONE_LEFT =>
      ((35 <=? x) && (x <=? 60) && (small_abs ay <=? 3)) ||
      ((17 <=? x) && (x <=? 40) && (small_abs ay <=? u32 (x - 17) / 2))
  | ZONE_UP =>
      ((22 <=? y) && (y <=? 40) && (small_abs ax <=? 3)) ||
      ((7 <=? y) && (y <=? 28) && (small_abs ax <=? u32 (y - 7) / 2))
  | ZONE_RIGHT =>
      ((20 <=? x) && (x <=? 45) && (small_abs ay <=? 3)) ||
      ((40 <=? x) && (x <=? 63) && (small_abs ay <=? u32 (63 - x) / 2))
  | ZONE_DOWN =>
      ((8 <=? y) && (y <=? 26) && (small_abs ax <=? 3)) ||
      ((20 <=? y) && (y <=? 41) && (small_abs ax <=? u32 (41 - y) / 2))
  | _ => false
  end.

Definition letter_l : list Z := [0x10; 0x10; 0x10; 0x10; 0x10; 0x10; 0x1f].
Definition letter_r : list Z := [0x1e; 0x11; 0x11; 0x1e; 0x14; 0x12; 0x11].

(** [None] is a read outside the letter. *)
Definition letter_pixel (zone : touch_zone) (x y : Z) : option bool :=
  if negb (bool_decide (zone = ZONE_BUTTON_LEFT)) && negb (bool_decide (zone = ZONE_BUTTON_RIGHT))
  then Some false
  else if (x <? 30) || (50 <=? x) || (y <? 10) || (38 <=? y) then Some false
  else
    let rows := if bool_decide (zone = ZONE_BUTTON_LEFT) then letter_l else letter_r in
    let column := Z.shiftr (u32 (x - 30)) 2 in
    let row := Z.shiftr (u32 (y - 10)) 2 in
    bits ← rows !! Z.to_nat row;
    Some (negb (Z.land bits (u8 (Z.shiftl 1 (4 - column))) =? 0)).

(** The zone of a pixel of the pad and the pixel's column in it. *)
Definition pad_zone (x y : Z) : touch_zone * Z :=
  if x <? 80 then (if y <? 48 then ZONE_LEFT else ZONE_BUTTON_LEFT, x)
  else if x <? 160 then (if y <? 48 then ZONE_UP else ZONE_DOWN, x - 80)
  else (if y <? 48 then ZONE_RIGHT else ZONE_BUTTON_RIGHT, x - 160).

Definition pad_pixel (x y : Z) : option Z :=
  if (SUBLCD_UI_WIDTH <=? x) || (SUBLCD_UI_HEIGHT <=? y) then Some 0
  else
    let '(zone, local_x) := pad_zone x y in
    let local_y := if y <? 48 then y else y - 48 in
    if (local_x <? 2) || (78 <=? local_x) || (local_y <? 2) || (46 <=? local_y) then Some 0xbdf7
    else
      let background :=
        if bool_decide (zone = ZONE_BUTTON_LEFT) || bool_decide (zone = ZONE_BUTTON_RIGHT)
        then 0x2448 else 0x194f in
      if arrow_pixel zone local_x local_y then Some 0xffff
      else
        letter ← letter_pixel zone local_x local_y;
        Some (if letter : bool then 0xffff else background).

Definition colors : list Z := [0xffff; 0xffe0; 0x07ff; 0x07e0; 0xf81f; 0xf800; 0x001f; 0x0000].
Definition bars_pixel (x : Z) : option Z :=
  let index := u32 (x * 8) / SUBLCD_WIDTH in
  colors !! Z.to_nat (if index <? 8 then index else 7).

(** ** The system *)

(** The registers mapped: the port of the display's command line, and its data. *)
Inductive page : Type := Prdr | Data.
#[export] Instance page_eq_dec : EqDecision page.
Proof. solve_decision. Defined.

(** What the program asks.  System calls answer what they return; [Mmap] the
    address of the page, [ParameterByte i] the byte [i] that the last
    [ReadParameter] stored, [FbId] the answer of [strncmp]; [Errno] the error
    that is reported, [ParameterErrno] that of opening the parameter. *)
Inductive request : Type :=
| ReadPrdr | WritePrdr (v : Z) | WriteData (v : Z)
| Geteuid | OpenParameter | ParameterErrno | ReadParameter | ParameterByte (i : Z) | CloseParameter
| OpenLock | Flock | CloseLock
| Sysconf | StatMem | MemIsChr | OpenMem (writable : bool) | Mmap (p : page) (writable : bool) (base : Z)
| Munmap (p : page) | CloseMem
| Fflush | Puts (text : list Z) | Errno
| SigFillSet | SigDelSet (s : Z) | SigBlock | SigRestore
| Isatty | KdGetMode | KdMode | KdSetMode (mode : Z) | FstatStdin | StdinIsChr | StdinMajor | StdinMinor
| VtGetState | VtActive
| OpenFb (writable : bool) | FbFix | FbVar | FbId | FbXres | FbYres | FbBits | FbPan | CloseFb
| SchedYield.

Definition KD_TEXT : Z := 0.
Definition KD_GRAPHICS : Z := 1.
Definition ENOENT : Z := 2.

Section Lcd.
Context {E : Type} `{Answers request E} (strerror : Z → list Z).
Abbreviation K := (st (world request E)).

Definition puts (s : list Z) : K unit := tell (Puts (s ++ [10])).
Definition put_error (s : list Z) : K unit :=
  e ← ask Errno; puts (s ++ str "unavailable (" ++ strerror e ++ str ")").

(** ** The parameter of the kernel's driver *)

Fixpoint parameter_bytes (n : nat) (i : Z) : K (list Z) :=
  match n with
  | O => mret []
  | S n => b ← ask (ParameterByte i); l ← parameter_bytes n (i + 1); mret (u8 b :: l)
  end.

(** The string that starts a buffer. *)
Fixpoint until_nul (l : list Z) : list Z :=
  match l with c :: l => if c =? 0 then [] else c :: until_nul l | [] => [] end.
Definition is_blank (c : Z) : bool := bool_decide (c ∈ [32; 9; 10; 13]).
Fixpoint skip_blanks (s : list Z) : list Z :=
  match s with c :: s' => if is_blank c then skip_blanks s' else s | [] => [] end.

(** [0]: no driver; [1]: disabled; [2]: active; [-1]: unreadable. *)
Definition subpad_mode : K Z :=
  fd ← ask OpenParameter;
  if fd <? 0 then e ← ask ParameterErrno; mret (if e =? ENOENT then 0 else -1)
  else
    count ← ask ReadParameter;
    closed ← ask CloseParameter;
    let count := if (closed <? 0) && (0 <=? count) then -1 else count in
    if count <=? 0 then mret (-1)
    else
      buffer ← parameter_bytes (Z.to_nat count) 0;
      mret match strtol (until_nul buffer) with
           | None => -1
           | Some (value, rest) =>
               match skip_blanks rest with [] => if value =? 0 then 1 else 2 | _ => -1 end
           end.

(** ** Information *)

Definition check_devmem (verbose : bool) : K bool :=
  s ← ask StatMem;
  if s <? 0 then (if verbose then put_error (str "/dev/mem: ") else mret tt);; mret false
  else
    chr ← ask MemIsChr;
    if chr =? 0 then
      (if verbose then puts (str "/dev/mem: present, but not a character device") else mret tt);; mret false
    else
      (if verbose then puts (str "/dev/mem: character device present") else mret tt);; mret true.

Definition report_framebuffer : K unit :=
  fd ← ask (OpenFb false);
  if fd <? 0 then put_error (str "Main framebuffer: ")
  else
    r ← ask FbVar;
    (if r =? 0 then
       xres ← ask FbXres;
       yres ← ask FbYres;
       bits ← ask FbBits;
       puts (str "Main framebuffer: " ++ decimal (u32 xres) ++ str "x" ++ decimal (u32 yres) ++ str ", " ++
             decimal (u32 bits) ++ str " bits/pixel")
     else
       e ← ask Errno; puts (str "Main framebuffer: query failed (" ++ strerror e ++ str ")"));;
    tell CloseFb.

Definition report_console : K unit :=
  tty ← ask Isatty;
  if tty =? 0 then puts (str "Current input: not a tty (write tests will refuse)")
  else
    r ← ask KdGetMode;
    if r <? 0 then puts (str "Current input: not a Linux VT (leave X before write tests)")
    else
      mode ← ask KdMode;
      puts (str "Current Linux VT: " ++
            if mode =? KD_TEXT then str "text mode; write tests permitted"
            else str "graphics mode; write tests will refuse").

Definition show_info : K Z :=
  mode ← subpad_mode;
  puts (str "EX-word XD-B8600 secondary-LCD diagnostic");;
  puts (str "Target: big-endian Renesas SH-4A");;
  puts (str "Panel geometry: " ++ decimal SUBLCD_WIDTH ++ str "x" ++ decimal SUBLCD_HEIGHT ++
        str " RGB565 (UI area " ++ decimal SUBLCD_UI_WIDTH ++ str "x" ++ decimal SUBLCD_UI_HEIGHT ++ str ")");;
  puts (str "Data port: P2 alias 0xb8000000 -> physical 0x" ++ hex0 8 SUBLCD_DATA_PHYS ++
        str ", 16-bit write only");;
  puts (str "DC port:   P2 alias 0xa405013c -> physical 0x" ++ hex0 8 SUBLCD_PRDR_PHYS ++
        str ", bit 0x" ++ hex0 2 SUBLCD_DC);;
  check_devmem true;;
  report_framebuffer;;
  report_console;;
  puts (if mode <? 0 then str "Kernel subpad mode: unreadable; write tests will refuse"
        else if mode =? 2 then str "Kernel subpad mode: active; write tests will refuse"
        else if mode =? 1 then
          str "Kernel subpad mode: experimental interface present; write tests will refuse"
        else str "Kernel subpad mode: absent (expected for the proven kernel)");;
  puts (str "No MMIO was performed. Next safe check: sublcd-test info --live");;
  mret 0.

(** ** Mappings, lock, signals *)

(** The pages mapped, the first first. *)
Fixpoint unmap_all (ps : list page) : K unit :=
  match ps with [] => mret tt | p :: ps => unmap_all ps;; tell (Munmap p) end.
Definition close_maps (ps : list page) : K unit := unmap_all ps;; tell CloseMem.

(** [MAP_FAILED] is the address [-1]. *)
Definition open_maps (writable : bool) : K bool :=
  size ← ask Sysconf;
  if (size <=? 0) || negb (Z.land size (size - 1) =? 0) || (65536 <? size) then mret false
  else
    let page_mask := size - 1 in
    let base phys := Z.land phys (Z.lxor page_mask (2 ^ 32 - 1)) in
    ok ← check_devmem false;
    if negb ok then mret false
    else
      fd ← ask (OpenMem writable);
      if fd <? 0 then mret false
      else
        prdr ← ask (Mmap Prdr writable (base SUBLCD_PRDR_PHYS));
        if prdr =? -1 then close_maps [];; mret false
        else if negb writable then mret true
        else
          data ← ask (Mmap Data writable (base SUBLCD_DATA_PHYS));
          if data =? -1 then close_maps [Prdr];; mret false
          else if negb (Z.land (u32 (data + Z.land SUBLCD_DATA_PHYS page_mask)) 1 =? 0)
          then close_maps [Prdr; Data];; mret false
          else mret true.

Definition acquire_lock : K bool :=
  fd ← ask OpenLock;
  if fd <? 0 then mret false
  else
    r ← ask Flock;
    if r <? 0 then tell CloseLock;; mret false else mret true.

(** SIGBUS, SIGSEGV, SIGILL, SIGFPE, SIGTRAP, SIGSYS. *)
Definition synchronous : list Z := [7; 11; 4; 8; 5; 31].
Definition block_signals : K bool :=
  and_then (not_negative SigFillSet)
    (and_then (for_all (λ s, not_negative (SigDelSet s)) synchronous) (not_negative SigBlock)).

Definition show_live_info : K Z :=
  euid ← ask Geteuid;
  if negb (euid =? 0) then mret 1
  else
    ok ← open_maps false;
    if negb ok then mret 1
    else
      value ← ask ReadPrdr;
      close_maps [Prdr];;
      puts (str "PRDR = 0x" ++ hex0 2 (u8 value) ++ str "; secondary-LCD DC is " ++
            if negb (Z.land (u8 value) SUBLCD_DC =? 0) then str "high (data)" else str "low (command)");;
      puts (str "One 8-bit PRDR read completed. The external LCD bus was not mapped or read.");;
      mret 0.

(** ** The console *)

(** The terminal is the active numbered console. *)
Definition active_vt : K bool :=
  and_then (not_negative FstatStdin)
    (chr ← ask StdinIsChr;
     if chr =? 0 then mret false
     else and_then (equals StdinMajor 4)
       (minor ← ask StdinMinor;
        if minor =? 0 then mret false
        else and_then (not_negative VtGetState) (equals VtActive minor))).

(** The frame buffer of the main display, whose worker is made to end. *)
Definition drain_framebuffer : K bool :=
  and_then (not_negative FbFix) (and_then (not_negative FbVar) (and_then (equals FbId 0)
    (and_then (equals FbXres 528) (and_then (equals FbYres 320) (and_then (equals FbBits 16)
      (not_negative FbPan)))))).

Fixpoint yields (n : nat) : K unit :=
  match n with O => mret tt | S n => tell SchedYield;; yields n end.

(** Whether the console is quiet and the frame buffer drained; the mode to go
    back to; whether the console has been made quiet. *)
Definition enter_quiet_console : K (bool * Z * bool) :=
  tty ← ask Isatty;
  got ← (if tty =? 0 then mret (-1) else ask KdGetMode);
  if got <? 0 then mret (false, KD_TEXT, false)
  else
    saved_mode ← ask KdMode;
    if negb (saved_mode =? KD_TEXT) then mret (false, saved_mode, false)
    else
      vt ← active_vt;
      if negb vt then mret (false, saved_mode, false)
      else
        quieted ← not_negative (KdSetMode KD_GRAPHICS);
        if negb quieted then mret (false, saved_mode, false)
        else
          framebuffer ← ask (OpenFb true);
          drained ← (if framebuffer <? 0 then mret false else drain_framebuffer);
          if negb drained then
            (if 0 <=? framebuffer then tell CloseFb else mret tt);;
            restored ← equals (KdSetMode saved_mode) 0;
            mret (false, saved_mode, negb restored)
          else
            tell CloseFb;;
            yields 256;;
            mret (true, saved_mode, true).

Definition leave_quiet_console (saved_mode : Z) : K bool := not_negative (KdSetMode saved_mode).

(** ** Drawing *)

Definition lcd_command (command : Z) : K unit :=
  v ← ask ReadPrdr;
  let prdr := u8 v in
  tell (WritePrdr (Z.land prdr (Z.lxor SUBLCD_DC 0xff)));;
  tell (WriteData command);;
  tell (WritePrdr (Z.lor prdr SUBLCD_DC)).

Definition lcd_data (value : Z) : K unit := tell (WriteData value).

Definition lcd_set_row (row : Z) : K unit :=
  lcd_command 0x21;; lcd_data 6;;
  lcd_command 0x52;; lcd_data 6;;
  lcd_command 0x53;; lcd_data (6 + SUBLCD_WIDTH - 1);;
  lcd_command 0x20;; lcd_data row;;
  lcd_command 0x50;; lcd_data row;;
  lcd_command 0x51;; lcd_data row;;
  lcd_command 0x22.

(** The loop over the columns, [n] of them from [x] on. *)
Fixpoint draw_columns (n : nat) (x : Z) (pixel : Z → Z) : K unit :=
  match n with
  | O => mret tt
  | S n => lcd_data (pixel x);; draw_columns n (x + 1) pixel
  end.

(** The loop over the rows. *)
Fixpoint draw_rows (n : nat) (y : Z) (pixel : Z → Z → Z) : K unit :=
  match n with
  | O => mret tt
  | S n =>
      lcd_set_row y;;
      draw_columns (Z.to_nat SUBLCD_WIDTH) 0 (λ x, pixel x y);;
      tell SchedYield;;
      draw_rows n (y + 1) pixel
  end.

(** The pixels of a pattern are defined ([SubLcdFacts]). *)
Definition pattern_pixel (k : test_kind) (x y : Z) : Z :=
  default 0 (if bool_decide (k = TEST_PATTERN_PAD) then pad_pixel x y else bars_pixel x).

Definition draw (o : options) : K unit :=
  (if bool_decide (kind o = TEST_ROW) then
     lcd_set_row (row o);;
     draw_columns (Z.to_nat SUBLCD_WIDTH) 0 (λ _, color o)
   else draw_rows (Z.to_nat SUBLCD_HEIGHT) 0 (pattern_pixel (kind o)));;
  v ← ask ReadPrdr;
  tell (WritePrdr (Z.lor (u8 v) SUBLCD_DC)).

(** ** The tests that write *)

(** From [close_mmio] to [close_lock]: what is open is closed; and what follows. *)
Definition close_mmio (quiet : bool) (saved_mode : Z) : K unit :=
  (if quiet then _ ← leave_quiet_console saved_mode; mret tt else mret tt);;
  close_maps [Prdr; Data].
Definition close_lock (signals_blocked : bool) (o : options) (result : Z) : K Z :=
  tell CloseLock;;
  (if signals_blocked then tell SigRestore else mret tt);;
  (if result =? 0 then
     puts (if bool_decide (kind o = TEST_ROW) then str "Secondary-LCD row write completed."
           else str "Secondary-LCD pattern write completed.")
   else mret tt);;
  mret result.

Definition announcement (o : options) : list Z :=
  (if bool_decide (kind o = TEST_ROW) then
     str "About to write ONE " ++ (if color o =? 0xffff then str "white" else str "colored") ++
     str " test row at y=" ++ decimal (row o) ++ str ". "
   else
     str "About to write a complete " ++ decimal SUBLCD_WIDTH ++ str "x" ++ decimal SUBLCD_HEIGHT ++ str " " ++
     (if bool_decide (kind o = TEST_PATTERN_PAD) then str "six-button" else str "color-bar") ++
     str " pattern. ") ++
  str "Reset the device if it freezes.".

(** With the pages mapped and the signals blocked. *)
Definition quiet_write (o : options) : K Z :=
  '(entered, saved_mode, quiet) ← enter_quiet_console;
  if negb entered then close_mmio quiet saved_mode;; close_lock true o 1
  else
    mode ← subpad_mode;
    if negb (mode =? 0) then close_mmio quiet saved_mode;; close_lock true o 1
    else
      draw o;;
      restored ← leave_quiet_console saved_mode;
      close_mmio (negb restored) saved_mode;;
      close_lock true o (if restored : bool then 0 else 1).

Definition perform_write (o : options) : K Z :=
  euid ← ask Geteuid;
  if negb (euid =? 0) then mret 1
  else
    mode ← subpad_mode;
    if negb (mode =? 0) then mret 1
    else
      lock ← acquire_lock;
      if negb lock then mret 1
      else
        mapped ← open_maps true;
        if negb mapped then close_lock false o 1
        else
          puts (announcement o);;
          flushed ← equals Fflush 0;
          if negb flushed then close_mmio false KD_TEXT;; close_lock false o 1
          else
            blocked ← block_signals;
            if negb blocked then close_mmio false KD_TEXT;; close_lock false o 1
            else quiet_write o.

(** The usage goes to the standard error on an error. *)
Definition main (argv : list (list Z)) : K Z :=
  let '(parsed, o) := parse_options argv in
  if 0 <? parsed then tell (Puts usage);; mret 0
  else if parsed <? 0 then mret 2
  else
    match kind o with
    | TEST_INFO => show_info
    | TEST_INFO_LIVE => show_live_info
    | _ => perform_write o
    end.
End Lcd.
