(* ===== verification/SubLcdFacts.v ===== *)
(** * Test of the second display: what the display receives, and when

    The words the display receives from [SubLcd], compared with the driver's
    ([TouchPad]), and a monitor of the conditions under which the registers are
    touched. *)

From Stdlib Require Import String Ascii.
From S2P Require Import Prelude KeypadState TouchPad Text Traced SubLcd.

(** ** Options *)

Lemma scan_digits_nonneg s acc any n any' rest :
  0 <= acc → scan_digits acc any s = (n, any', rest) → 0 <= n.
Proof.
  revert acc any. induction s as [|c s IH]; intros acc any Ha; cbn [scan_digits]; [by intros [= <- _ _]|].
  destruct ((48 <=? c) && (c <=? 57)) eqn:Hc; [|by intros [= <- _ _]].
  to_prop. apply IH. lia.
Qed.

Lemma strtoul_nonneg s v rest : strtoul s = Some (v, rest) → 0 <= v.
Proof.
  unfold strtoul, scan_number. intros Hs. apply bind_Some in Hs as ([[minus n] rest'] & Hn & Hs).
  destruct (match skip_spaces s with 45 :: _ => _ | _ => _ end) as [m s'].
  destruct (scan_digits 0 false s') as [[k any] rest''] eqn:Hd. destruct any; [|done].
  injection Hn as <- <- <-. apply scan_digits_nonneg in Hd; [|done]. destruct (2 ^ 32 <=? k); [done|].
  injection Hs as <- <-. destruct m; [|done]. apply u32_range.
Qed.

Lemma parse_row_name_range text r : parse_row_name text = Some r → 0 <= r < SUBLCD_HEIGHT.
Proof.
  unfold parse_row_name. intros Hr.
  case_bool_decide; [by injection Hr as <-|]. case_bool_decide; [by injection Hr as <-|].
  case_bool_decide; [by injection Hr as <-|].
  apply bind_Some in Hr as ([v rest] & Hv & Hr). apply strtoul_nonneg in Hv. destruct rest; [|done].
  destruct (SUBLCD_HEIGHT <=? v) eqn:Hb; [done|]. injection Hr as <-. to_prop. lia.
Qed.

Lemma parse_row_words_ok words rs cs o o' :
  0 <= row o < SUBLCD_HEIGHT → is_u 16 (color o) → parse_row_words words rs cs o = Some o' →
  kind o' = kind o ∧ 0 <= row o' < SUBLCD_HEIGHT ∧ is_u 16 (color o').
Proof.
  revert rs cs o. induction words as [|word words IH]; intros rs cs o Hr Hc; cbn [parse_row_words].
  { by intros [= <-]. }
  destruct (parse_row_name word) as [r|] eqn:Hn.
  - destruct rs; [done|]. apply parse_row_name_range in Hn. intros Ho.
    by apply (IH _ _ (Options (kind o) r (color o))) in Ho.
  - destruct (parse_color word) as [c|] eqn:Hp; [|done]. destruct cs; [done|]. intros Ho.
    apply (IH _ _ (Options (kind o) (row o) c)) in Ho; [done|done|]. cbn [color].
    unfold parse_color in Hp. repeat (case_bool_decide; [injection Hp as <-; compute_dec|]). done.
Qed.

Definition writes (k : test_kind) : bool :=
  bool_decide (k = TEST_ROW) || bool_decide (k = TEST_PATTERN_BARS) || bool_decide (k = TEST_PATTERN_PAD).

(** The options of every command line that is accepted name a row of the
    display and a colour of 16 bits, and a test that writes is accepted only
    when the last argument is [--yes]. *)
Theorem options_in_range argv o :
  parse_options argv = (0, o) →
  0 <= row o < SUBLCD_HEIGHT ∧ is_u 16 (color o) ∧
  (writes (kind o) = true → last argv = Some (str "--yes")).
Proof.
  unfold parse_options. set (o0 := Options TEST_INFO (SUBLCD_HEIGHT / 2) 0xffff).
  assert (∀ k, 0 <= row (Options k (row o0) (color o0)) < SUBLCD_HEIGHT ∧ is_u 16 (color o0)) as H0 by (intros k; split; [done|compute_dec]).
  destruct (_ || _ && _); [by intros [= <-]|].
  destruct (_ && (_ || _)); [by intros [=]|].
  destruct (_ && _ && _); [by intros [= <-]|].
  destruct (bool_decide_reflect (last argv = Some (str "--yes"))) as [Hlast|]; rewrite ?andb_true_r, ?andb_false_r; [|by intros [=]].
  destruct (_ && _).
  - destruct (5 <? zlen argv); [by intros [=]|].
    destruct (parse_row_words _ _ _ _) as [o1|] eqn:Ho; intros [= <-].
    apply parse_row_words_ok in Ho as (? & ? & ?); [done|done|done].
  - destruct (_ && _); [|by intros [=]]. destruct (bool_decide (_ = str "bars")); [by intros [= <-]|].
    destruct (bool_decide (_ = str "pad")); [by intros [= <-]|by intros [=]].
Qed.

(** The row may be given with a sign: the number is taken modulo 2^32. *)
Lemma options_in_range_witness :
  let argv := [str "sublcd-test"; str "row"; str " -4294967295"; str "red"; str "--yes"] in
  parse_options argv = (0, Options TEST_ROW 1 0xf800) ∧
  0 <= 1 < SUBLCD_HEIGHT.
Proof.
  intros argv. assert (parse_options argv = (0, Options TEST_ROW 1 0xf800)) as Ho by (vm_compute; reflexivity).
  split; [exact Ho|]. exact (proj1 (options_in_range argv _ Ho)).
Defined.

(** ** What the display receives *)

(** The level of the command line, and the words with the level at which they
    were received. *)
Record display := Display { high : bool; words : list (bool * Z) }.

Definition receive (p : display) (rv : request * Z) : display :=
  match rv.1 with
  | WritePrdr v => Display (Z.testbit v 2) (words p)
  | WriteData v => Display (high p) (words p ++ [(high p, v)])
  | _ => p
  end.

(** The words for row [y]: the window and the address of the row, commands with
    the line low and parameters with it high, and 244 pixels. *)
Definition row_words (y : Z) (pixel : Z → Z) : list (bool * Z) :=
  [(false, 0x21); (true, 6); (false, 0x52); (true, 6); (false, 0x53); (true, 249);
   (false, 0x20); (true, y); (false, 0x50); (true, y); (false, 0x51); (true, y);
   (false, 0x22)] ++
  ((λ x, (true, pixel (Z.of_nat x))) <$> seq 0 244).

Definition picture (o : options) : list (bool * Z) :=
  if bool_decide (kind o = TEST_ROW) then row_words (row o) (λ _, color o)
  else concat ((λ y, row_words (Z.of_nat y) (λ x, pattern_pixel (kind o) x (Z.of_nat y))) <$> seq 0 99).

Section Drawing.
Context {E : Type} `{Answers request E} (level : bool) (strerror : Z → list Z).
Abbreviation K := (st (world request E)).
Abbreviation hoare := (Traced.hoare receive (Display level [])).
Abbreviation keeps := (Traced.keeps receive (Display level [])).

(** The display receives [out], and the line is high afterwards; [d]: provided
    that it was before. *)
Definition sends (d : bool) (out : list (bool * Z)) {A} (m : K A) : Prop :=
  ∀ ws, hoare (λ g, words g = ws ∧ (d = true → high g = true)) m
    (λ _ g, words g = ws ++ out ∧ high g = true).

Lemma lcd_sends_bind {A B} d o1 o2 (m : K A) (f : A → K B) :
  sends d o1 m → (∀ a, sends true o2 (f a)) → sends d (o1 ++ o2) (m ≫= f).
Proof.
  intros Hm Hf ws. apply (hoare_bind _ _ _ _ _ (Hm ws)). intros a.
  eapply hoare_conseq; [apply Hf|by intros g [? ?]|]. intros b g. by rewrite (assoc_L (++)).
Qed.
Lemma lcd_sends_cons {A B} d x out (m : K A) (f : A → K B) :
  sends d [x] m → (∀ a, sends true out (f a)) → sends d (x :: out) (m ≫= f).
Proof. apply (lcd_sends_bind d [x]). Qed.
Lemma sends_ret {A} (a : A) : sends true [] (mret a).
Proof. intros ws. apply hoare_ret. intros g [<- Hh]. by rewrite app_nil_r, (Hh eq_refl). Qed.

Lemma sends_any {A} d out (m : K A) : sends false out m → sends d out m.
Proof. intros Hm ws. eapply hoare_conseq; [apply (Hm ws)| |done]. intros g [? _]. by split. Qed.

Lemma line_up v : Z.testbit (Z.lor v SUBLCD_DC) 2 = true.
Proof. rewrite Z.lor_spec. change (Z.testbit SUBLCD_DC 2) with true. apply orb_true_r. Qed.
Lemma line_down v : Z.testbit (Z.land v (Z.lxor SUBLCD_DC 0xff)) 2 = false.
Proof.
  rewrite Z.land_spec. change (Z.testbit (Z.lxor SUBLCD_DC 0xff) 2) with false. apply andb_false_r.
Qed.

Lemma lcd_sends_command c : sends false [(false, c)] (lcd_command c).
Proof.
  intros ws. unfold lcd_command. apply (hoare_step _ (λ g, words g = ws)).
  { apply hoare_ask. by intros g v [? _]. }
  intros v. cbv zeta. apply (hoare_step _ (λ g, words g = ws ∧ high g = false)).
  { apply hoare_tell. intros g r Hg. split; [done|]. apply line_down. }
  intros _. apply (hoare_step _ (λ g, words g = ws ++ [(false, c)])).
  { apply hoare_tell. intros g r [<- Hh]. unfold receive. cbn [fst words]. by rewrite Hh. }
  intros _. apply hoare_tell. intros g r Hg. split; [done|]. apply line_up.
Qed.

Lemma lcd_sends_data v : sends true [(true, v)] (lcd_data v).
Proof.
  intros ws. apply hoare_tell. intros g r [<- Hh]. unfold receive. cbn [fst words high].
  by rewrite (Hh eq_refl).
Qed.

Lemma lcd_sends_set_row y pixel : sends false (take 13 (row_words y pixel)) (lcd_set_row y).
Proof.
  unfold lcd_set_row, row_words. rewrite take_app_le by done. cbn [take].
  change (6 + SUBLCD_WIDTH - 1) with 249.
  repeat (apply lcd_sends_cons;
    [first [apply lcd_sends_data|apply sends_any, lcd_sends_command|apply lcd_sends_command]|intros ?]).
  apply sends_any, lcd_sends_command.
Qed.

Lemma sends_columns n x pixel :
  sends true ((λ i, (true, pixel (Z.of_nat i))) <$> seq x n) (draw_columns n (Z.of_nat x) pixel).
Proof.
  revert x. induction n as [|n IH]; intros x; cbn [draw_columns seq fmap list_fmap]; [apply sends_ret|].
  apply lcd_sends_cons; [apply lcd_sends_data|]. intros _. replace (Z.of_nat x + 1) with (Z.of_nat (S x)) by lia. apply IH.
Qed.

Lemma lcd_sends_row {B} d y pixel (f : unit → K B) out :
  (∀ u, sends true out (f u)) →
  sends d (row_words y pixel ++ out)
    (lcd_set_row y;; u ← draw_columns (Z.to_nat SUBLCD_WIDTH) 0 pixel; f u).
Proof.
  intros Hf. rewrite <- (take_drop 13 (row_words y pixel)), <- (assoc_L (++)).
  apply lcd_sends_bind; [apply sends_any, lcd_sends_set_row|]. intros _.
  apply lcd_sends_bind; [apply (sends_columns 244 0)|done].
Qed.

Lemma sends_silent {B} d r (f : unit → K B) out :
  (∀ p v, receive p (r, v) = p) → (∀ u, sends d out (f u)) → sends d out (u ← tell r; f u).
Proof.
  intros Hr Hf ws. eapply hoare_step; [|intros u; apply Hf]. apply hoare_tell. intros g v. by rewrite Hr.
Qed.

Lemma sends_rows n y pixel :
  (0 < n)%nat →
  sends false (concat ((λ i, row_words (Z.of_nat i) (λ x, pixel x (Z.of_nat i))) <$> seq y n))
    (draw_rows n (Z.of_nat y) pixel).
Proof.
  intros Hn. assert (∀ d, (n = 0%nat → d = true) →
    sends d (concat ((λ i, row_words (Z.of_nat i) (λ x, pixel x (Z.of_nat i))) <$> seq y n))
      (draw_rows n (Z.of_nat y) pixel)) as Hall; [|apply Hall; lia].
  clear Hn. revert y. induction n as [|n IH]; intros y d Hd; cbn [draw_rows seq fmap list_fmap concat].
  - rewrite (Hd eq_refl). apply sends_ret.
  - apply lcd_sends_row. intros _. apply sends_silent; [done|]. intros _.
    replace (Z.of_nat y + 1) with (Z.of_nat (S y)) by lia. by apply IH.
Qed.

(** The whole drawing, whatever the level of the line was. *)
Lemma sends_draw o : sends false (picture o) (draw o).
Proof.
  rewrite <- (app_nil_r (picture o)). unfold draw. apply lcd_sends_bind.
  - unfold picture. destruct (bool_decide (kind o = TEST_ROW)).
    + rewrite <- (take_drop 13 (row_words _ _)). apply lcd_sends_bind; [apply lcd_sends_set_row|]. intros _.
      apply (sends_columns 244 0).
    + apply (sends_rows 99 0 (pattern_pixel (kind o))). lia.
  - intros _ ws. apply (hoare_step _ (λ g, words g = ws ∧ (true = true → high g = true))); [by apply hoare_ask|].
    intros v.
    apply hoare_tell. intros g r [<- _]. rewrite app_nil_r. split; [done|]. apply line_up.
Qed.

(** Everything else sends nothing. *)
Lemma lcd_keeps_ignored P r : (∀ p v, receive p (r, v) = p) → keeps P (ask r).
Proof. intros Hr. apply keeps_ask. intros g v. by rewrite Hr. Qed.
Hint Extern 1 (Traced.keeps _ _ _ (ask _)) => (apply lcd_keeps_ignored; reflexivity) : keeps.
Lemma lcd_keeps_tell P r : (∀ p v, receive p (r, v) = p) → keeps P (tell r).
Proof. intros Hr. apply log_keeps_bind; [by apply lcd_keeps_ignored|]. intros v. apply log_keeps_ret. Qed.
Hint Extern 1 (Traced.keeps _ _ _ (tell _)) => (apply lcd_keeps_tell; reflexivity) : keeps.
Lemma lcd_keeps_not_negative P r : (∀ p v, receive p (r, v) = p) → keeps P (not_negative r).
Proof. intros Hr. apply log_keeps_bind; [by apply lcd_keeps_ignored|]. intros v. apply log_keeps_ret. Qed.
Hint Extern 1 (Traced.keeps _ _ _ (not_negative _)) => (apply lcd_keeps_not_negative; reflexivity) : keeps.

Section Silent.
Context (P : display → Prop).

Lemma lcd_keeps_bytes n i : keeps P (parameter_bytes n i).
Proof. revert i. induction n; intros i; cbn [parameter_bytes]; keeps. Qed.
Hint Resolve lcd_keeps_bytes : keeps.
Lemma keeps_subpad_mode : keeps P subpad_mode.
Proof. unfold subpad_mode. keeps. Qed.
Lemma lcd_keeps_devmem b : keeps P (check_devmem strerror b).
Proof. unfold check_devmem, put_error, puts. keeps. Qed.
Lemma keeps_unmap ps : keeps P (unmap_all ps).
Proof. induction ps; cbn [unmap_all]; keeps. Qed.
Hint Resolve keeps_subpad_mode lcd_keeps_devmem keeps_unmap : keeps.
Lemma keeps_close_maps ps : keeps P (close_maps ps).
Proof. unfold close_maps. keeps. Qed.
Hint Resolve keeps_close_maps : keeps.
Lemma keeps_open_maps b : keeps P (open_maps strerror b).
Proof. unfold open_maps. keeps. Qed.
Lemma keeps_lock : keeps P acquire_lock.
Proof. unfold acquire_lock. keeps. Qed.
Lemma keeps_block : keeps P block_signals.
Proof.
  unfold block_signals, and_then. apply log_keeps_bind; [keeps|]. intros [|]; [|keeps].
  apply log_keeps_bind; [apply keeps_for_all; intros; keeps|]. intros [|]; keeps.
Qed.
Lemma lcd_keeps_yields n : keeps P (yields n).
Proof. induction n; cbn [yields]; keeps. Qed.
Hint Resolve lcd_keeps_yields : keeps.
Lemma keeps_quiet : keeps P enter_quiet_console.
Proof. unfold enter_quiet_console, active_vt, drain_framebuffer, and_then, equals. keeps. Qed.
Lemma keeps_close_mmio b saved : keeps P (close_mmio b saved).
Proof. unfold close_mmio, leave_quiet_console. keeps. Qed.
Lemma keeps_info : keeps P (show_info strerror).
Proof.
  unfold show_info, report_framebuffer, report_console, put_error, puts. keeps.
Qed.
Hint Resolve keeps_open_maps : keeps.
Lemma keeps_live : keeps P (show_live_info strerror).
Proof. unfold show_live_info, puts. keeps. Qed.
Lemma close_lock_result b o r : hoare P (close_lock b o r) (λ r' g, P g ∧ r' = r).
Proof.
  unfold close_lock, puts. do 3 (apply hoare_keeps; [keeps|intros ?]). by apply hoare_ret.
Qed.
End Silent.
Hint Resolve keeps_subpad_mode keeps_open_maps keeps_lock keeps_block keeps_quiet keeps_close_mmio : keeps.

(** All or nothing. *)
Definition received (o : options) (r : Z) (g : display) : Prop :=
  words g = [] ∧ r ≠ 0 ∨ words g = picture o ∧ high g = true.

Lemma stop_early b quiet saved o :
  hoare (λ g, words g = []) (close_mmio quiet saved;; close_lock b o 1) (received o).
Proof.
  apply hoare_keeps; [keeps|]. intros _. eapply hoare_conseq; [apply (close_lock_result (λ g, words g = []))|done|].
  intros r g [Hg ->]. by left.
Qed.

Lemma lcd_quiet_write_ok o : hoare (λ g, words g = []) (quiet_write o) (received o).
Proof.
  unfold quiet_write. apply hoare_keeps; [keeps|]. intros [[entered saved] quiet].
  destruct (negb entered); [apply stop_early|]. apply hoare_keeps; [keeps|]. intros mode.
  destruct (negb _); [apply stop_early|].
  apply (hoare_step _ (λ g, words g = picture o ∧ high g = true)).
  { eapply hoare_conseq; [apply (sends_draw o [])|by intros g Hg|done]. }
  intros _. apply hoare_keeps; [unfold leave_quiet_console; keeps|]. intros restored.
  apply hoare_keeps; [keeps|]. intros _.
  eapply hoare_conseq; [apply (close_lock_result (λ g, words g = picture o ∧ high g = true))|done|]. intros r g [Hg _]. by right.
Qed.

Lemma lcd_perform_write_ok o : hoare (λ g, words g = []) (perform_write strerror o) (received o).
Proof.
  assert (hoare (λ g, words g = []) (mret 1 : K Z) (received o)) as Hno by (apply hoare_ret; intros g Hg; by left).
  unfold perform_write. apply hoare_keeps; [keeps|]. intros euid. destruct (negb _); [done|].
  apply hoare_keeps; [keeps|]. intros mode. destruct (negb _); [done|].
  apply hoare_keeps; [keeps|]. intros lock. destruct (negb _); [done|].
  apply hoare_keeps; [keeps|]. intros mapped. destruct (negb _).
  { eapply hoare_conseq; [apply (close_lock_result (λ g, words g = []))|done|]. intros r g [Hg ->]. by left. }
  apply hoare_keeps; [unfold puts; keeps|]. intros _.
  apply hoare_keeps; [unfold equals; keeps|]. intros flushed. destruct (negb _); [apply stop_early|].
  apply hoare_keeps; [keeps|]. intros blocked. destruct (negb _); [apply stop_early|apply lcd_quiet_write_ok].
Qed.

Lemma main_receives argv :
  let o := (parse_options argv).2 in
  hoare (λ g, words g = []) (main strerror argv)
    (λ r g, if (parse_options argv).1 =? 0 then if writes (kind o) then received o r g else words g = []
            else words g = []).
Proof.
  unfold main. destruct (parse_options argv) as [parsed o]. cbn [fst snd].
  destruct (Z.ltb_spec 0 parsed), (Z.ltb_spec parsed 0), (Z.eqb_spec parsed 0); try lia;
    try (by apply hoare_ret); [keeps|].
  destruct (kind o) eqn:Hk; unfold writes; cbn; try apply lcd_perform_write_ok.
  - apply keeps_info.
  - apply keeps_live.
Qed.
End Drawing.

(** C21: whatever the system answers, the display receives from a run either
    nothing or the whole picture that the options describe: for each of its rows
    the window, then the 244 pixels, commands with the command line low and
    everything else with it high, and the line left high.  Only a test that
    writes sends anything, and one that ends with status 0 has sent the
    picture. *)
Theorem picture_drawn {E} `{Answers request E} strerror argv (e : E) level :
  let '(parsed, o) := parse_options argv in
  let '(r, w) := main strerror argv (World e []) in
  let g := seen receive (Display level []) w in
  words g = [] ∧ (parsed = 0 → writes (kind o) = true → r ≠ 0) ∨
  (parsed = 0 ∧ writes (kind o) = true ∧ words g = picture o ∧ high g = true).
Proof.
  pose proof (main_receives level strerror argv (World e [])) as Hm. cbv zeta in Hm.
  destruct (parse_options argv) as [parsed o]. cbn [fst snd] in Hm.
  destruct (main strerror argv (World e [])) as [r w]. specialize (Hm r w eq_refl eq_refl). cbv beta in Hm.
  cbv zeta. destruct (Z.eqb_spec parsed 0); [|by left]. destruct (writes (kind o)); [|by left].
  destruct Hm as [[? ?]|[? ?]]; [by left|by right].
Qed.

(** ** The pad that the test draws is the pad that the driver draws *)

Definition drivers_zone (z : touch_zone) : exword_touch_zone :=
  match z with
  | ZONE_NONE => EXWORD_TOUCH_NONE
  | ZONE_LEFT => EXWORD_TOUCH_LEFT
  | ZONE_UP => EXWORD_TOUCH_UP
  | ZONE_RIGHT => EXWORD_TOUCH_RIGHT
  | ZONE_BUTTON_LEFT => EXWORD_TOUCH_BUTTON_LEFT
  | ZONE_DOWN => EXWORD_TOUCH_DOWN
  | ZONE_BUTTON_RIGHT => EXWORD_TOUCH_BUTTON_RIGHT
  end.

Lemma arrows_agree z x y : arrow_pixel z x y = exword_sublcd_arrow_pixel (drivers_zone z) x y.
Proof. by destruct z. Qed.

(** The bit of a column of a letter fits a byte. *)
Lemma letter_bit x : 0 <= x < 20 → u8 (Z.shiftl 1 (4 - Z.shiftr x 2)) = Z.shiftl 1 (4 - Z.shiftr x 2).
Proof.
  intros Hx. rewrite Z.shiftr_div_pow2 by done. change (2 ^ 2) with 4.
  pose proof (Z.div_pos x 4). pose proof (Z.div_lt_upper_bound x 4 5).
  rewrite Z.shiftl_1_l. apply u8_small. pose proof (Z.pow_le_mono_r 2 (4 - x / 4) 4).
  pose proof (Z.pow_nonneg 2 (4 - x / 4)). unfold is_u. lia.
Qed.

Lemma letters_agree z x y : letter_pixel z x y = exword_sublcd_letter_pixel (drivers_zone z) x y.
Proof.
  unfold letter_pixel, exword_sublcd_letter_pixel. rewrite !Z.geb_leb.
  destruct ((x <? 30) || (50 <=? x) || (y <? 10) || (38 <=? y)) eqn:Hb; [by destruct z|]. to_prop.
  rewrite (u32_small (x - 30)), (u32_small (y - 10)), letter_bit by (unfold is_u; lia).
  by destruct z.
Qed.

(** Each pixel is the same in both, and each is defined. *)
Lemma pads_agree x y : pad_pixel x y = exword_sublcd_pad_pixel x y.
Proof.
  unfold pad_pixel, exword_sublcd_pad_pixel, pad_zone, TouchPad.pad_zone. rewrite !Z.geb_leb.
  destruct (_ || _); [done|]. destruct (x <? 80), (x <? 160), (y <? 48); cbv beta iota zeta;
    rewrite !Z.geb_leb, arrows_agree, letters_agree; reflexivity.
Qed.

Lemma bars_defined x : 0 <= x → is_Some (bars_pixel x).
Proof.
  intros Hx. unfold bars_pixel. cbv zeta. apply lookup_lt_is_Some. change (length colors) with 8%nat.
  pose proof (Z.div_pos (u32 (x * 8)) SUBLCD_WIDTH) as Hp. pose proof (u32_range (x * 8)) as Hr. unfold is_u in Hr.
  unfold SUBLCD_WIDTH in *. destruct (Z.ltb_spec (u32 (x * 8) / 244) 8); lia.
Qed.

Lemma pad_row y : row_words y (λ x, pattern_pixel TEST_PATTERN_PAD x y) = row_stream y.
Proof.
  unfold row_words, row_stream. apply (f_equal (app _)), list_fmap_ext. intros i x Hx. apply (f_equal (pair true)).
  unfold pattern_pixel. by rewrite bool_decide_true, pads_agree.
Qed.

Lemma pad_picture r c :
  picture (Options TEST_PATTERN_PAD r c) = concat ((λ y, row_stream (Z.of_nat y)) <$> seq 0 99).
Proof.
  unfold picture. rewrite bool_decide_false by done. apply (f_equal (@concat _)), list_fmap_ext. intros i y Hy.
  apply pad_row.
Qed.

(** The test and the driver of the kernel send the display the same words:
    a run of [sublcd-test pattern pad --yes] that ends with status 0 has sent
    what the driver's 99 calls send from the state in which the display has just
    been switched on. *)
Theorem pad_matches_driver {E} `{Answers request E} strerror (e : E) level w
    {B} `{Mmio B} (s : kst (panel B)) :
  main strerror [str "sublcd-test"; str "pattern"; str "pad"; str "--yes"] (World e []) = (0, w) →
  k_lcd s = Lcd true true 0 false →
  p_stream (k_hw (TouchPad.draw_rows 99 s))
  = reverse (words (seen receive (Display level []) w)) ++ p_stream (k_hw s).
Proof.
  intros Hm Hs. set (argv := [_; _; _; _]) in Hm.
  pose proof (main_receives level strerror argv (World e []) 0 w eq_refl Hm) as Hr. cbv beta in Hr.
  assert (parse_options argv = (0, Options TEST_PATTERN_PAD (SUBLCD_HEIGHT / 2) 0xffff)) as Ho by by vm_compute.
  rewrite Ho in Hr. cbn [fst snd] in Hr. destruct Hr as [[_ []]|[-> _]]; [done|].
  rewrite pad_picture. by apply lcd_drawn_once.
Qed.

(** A console on which the tests are carried out. *)
Definition console (r : request) (_ : ()) : Z * () :=
  (match r with
   | OpenParameter => -1
   | ParameterErrno => 2
   | Sysconf | Mmap _ _ _ => 4096
   | MemIsChr | Isatty | StdinIsChr | StdinMinor | VtActive => 1
   | StdinMajor => 4
   | FbXres => 528
   | FbYres => 320
   | FbBits => 16
   | ReadPrdr => 0xa1
   | _ => 0
   end, tt).
#[export] Instance console_answers : Answers request () := console.

Definition drawing_pad : list (list Z) := [str "sublcd-test"; str "pattern"; str "pad"; str "--yes"].
Definition switched_on : kst (panel (Z → Z)) :=
  set_k_lcd (Lcd true true 0 false) (exword_initial (Panel (λ _ : Z, 0) 0 [])).

Lemma pad_matches_driver_witness :
  (main (λ _, []) drawing_pad (World tt [])).1 = 0 ∧
  p_stream (k_hw (TouchPad.draw_rows 99 switched_on))
  = reverse (words (seen receive (Display false []) (main (λ _, []) drawing_pad (World tt [])).2)) ++ [].
Proof.
  assert ((main (λ _, []) drawing_pad (World tt [])).1 = 0) as Hr by (vm_compute; reflexivity).
  split; [exact Hr|].
  destruct (main (λ _, []) drawing_pad (World tt [])) as [r w] eqn:Hm. cbn [fst] in Hr. subst r. cbn [snd].
  exact (pad_matches_driver (λ _, []) tt false w switched_on Hm eq_refl).
Defined.
