(* ===== verification/SubLcdGuard.v ===== *)
(** * Test of the second display: when the registers are touched

    A monitor over the requests of [SubLcd]: every check that has to pass before
    a register is written, and what is given back at the end. *)

From Stdlib Require Import String Ascii.
From S2P Require Import Prelude Text Traced SubLcd.

(** ** The monitor *)

(** [missing]: opening the parameter of the kernel's driver failed; [absent]:
    because there is none.  [quiet]: the console is in graphics mode; [drained]:
    since then the frame buffer was drained; [failed]: an attempt to go
    back to text mode has failed since.  [prdr]: the port as it was last read. *)
Record monitor := Monitor {
  root : bool;
  missing : bool;
  absent : bool;
  flushed : bool;
  locked : bool;
  blocked : bool;
  quiet : bool;
  drained : bool;
  failed : bool;
  mapped : list (page * bool);
  prdr : Z;
  clean : bool;
}.

Definition start : monitor := Monitor false false false false false false false false false [] 0 true.

Definition set_checks (r m a f : bool) (g : monitor) : monitor :=
  Monitor r m a f (locked g) (blocked g) (quiet g) (drained g) (failed g) (mapped g) (prdr g) (clean g).
Definition set_held (l b : bool) (ps : list (page * bool)) (g : monitor) : monitor :=
  Monitor (root g) (missing g) (absent g) (flushed g) l b (quiet g) (drained g) (failed g) ps (prdr g)
    (clean g).
Definition set_console (q d f : bool) (g : monitor) : monitor :=
  Monitor (root g) (missing g) (absent g) (flushed g) (locked g) (blocked g) q d f (mapped g) (prdr g)
    (clean g).
Definition set_port (v : Z) (ok : bool) (g : monitor) : monitor :=
  Monitor (root g) (missing g) (absent g) (flushed g) (locked g) (blocked g) (quiet g) (drained g)
    (failed g) (mapped g) v (clean g && ok).

Definition may_write (p : page) (g : monitor) : bool :=
  root g && absent g && flushed g && locked g && blocked g && quiet g && drained g &&
  bool_decide ((p, true) ∈ mapped g).

(** The bits of the port that do not belong to the display. *)
Definition others (v : Z) : Z := Z.land v (Z.lxor SUBLCD_DC 0xff).

Definition observe (g : monitor) (rv : request * Z) : monitor :=
  let '(r, v) := rv in
  match r with
  | ReadPrdr => set_port (u8 v) (root g && bool_decide (Prdr ∈ (mapped g).*1)) g
  | WritePrdr x => set_port (prdr g) (may_write Prdr g && (others x =? others (prdr g))) g
  | WriteData _ => set_port (prdr g) (may_write Data g) g
  | Geteuid => set_checks (v =? 0) (missing g) (absent g) (flushed g) g
  | OpenParameter => set_checks (root g) (v <? 0) false (flushed g) g
  | ParameterErrno => set_checks (root g) (missing g) (missing g && (v =? ENOENT)) (flushed g) g
  | Fflush => set_checks (root g) (missing g) (absent g) (v =? 0) g
  | Flock => set_held (negb (v <? 0)) (blocked g) (mapped g) g
  | CloseLock => set_held false (blocked g) (mapped g) g
  | SigBlock => set_held (locked g) ((0 <=? v) || blocked g) (mapped g) g
  | SigRestore => set_held (locked g) false (mapped g) g
  | Mmap p w _ => set_held (locked g) (blocked g) (if v =? -1 then mapped g else mapped g ++ [(p, w)]) g
  | Munmap p => set_held (locked g) (blocked g) (filter (λ q, q.1 ≠ p) (mapped g)) g
  | KdSetMode m =>
      if v <? 0 then set_console (quiet g) (drained g) (failed g || (m =? KD_TEXT)) g
      else set_console (m =? KD_GRAPHICS) false false g
  | FbPan => set_console (quiet g) (quiet g && (0 <=? v)) (failed g) g
  | _ => g
  end.

(** ** What is known between the requests *)

(** What is held; the checks that passed ([r]: root, [a]: no driver, [f]:
    flushed, [d]: console quiet and frame buffer drained); [c]: the console is
    in text mode or could not be brought back to it. *)
Record knows (ps : list (page * bool)) (l s r a f d c : bool) (g : monitor) : Prop := {
  k_clean : clean g = true;
  k_mapped : mapped g = ps;
  k_locked : locked g = l;
  k_blocked : blocked g = s;
  k_root : r = true → root g = true;
  k_absent : a = true → absent g = true;
  k_flushed : f = true → flushed g = true;
  k_drained : d = true → quiet g = true ∧ drained g = true;
  k_console : c = true → quiet g = true → failed g = true;
}.

Lemma guard_knows_mono ps l s r a f d c r' a' f' d' c' g :
  implb r' r && implb a' a && implb f' f && implb d' d && implb c' c = true →
  knows ps l s r a f d c g → knows ps l s r' a' f' d' c' g.
Proof.
  intros Hi []. destruct r, a, f, d, c, r', a', f', d', c'; try discriminate Hi; split; auto; discriminate.
Qed.

Section Facts.
Context {E : Type} `{Answers request E} (strerror : Z → list Z).
Abbreviation K := (st (world request E)).
Abbreviation hoare := (Traced.hoare observe start).
Abbreviation keeps := (Traced.keeps observe start).

Lemma guard_keeps_ignored P q : (∀ g v, observe g (q, v) = g) → keeps P (ask q).
Proof. intros Hq. apply keeps_ask. intros g v. by rewrite Hq. Qed.
Hint Extern 1 (Traced.keeps _ _ _ (ask _)) => (apply guard_keeps_ignored; reflexivity) : keeps.
Lemma guard_keeps_tell P q : (∀ g v, observe g (q, v) = g) → keeps P (tell q).
Proof. intros Hq. apply log_keeps_bind; [by apply guard_keeps_ignored|]. intros v. apply log_keeps_ret. Qed.
Hint Extern 1 (Traced.keeps _ _ _ (tell _)) => (apply guard_keeps_tell; reflexivity) : keeps.
Lemma guard_keeps_not_negative P q : (∀ g v, observe g (q, v) = g) → keeps P (not_negative q).
Proof. intros Hq. apply log_keeps_bind; [by apply guard_keeps_ignored|]. intros v. apply log_keeps_ret. Qed.
Hint Extern 1 (Traced.keeps _ _ _ (not_negative _)) => (apply guard_keeps_not_negative; reflexivity) : keeps.
Lemma keeps_equals P q x : (∀ g v, observe g (q, v) = g) → keeps P (equals q x).
Proof. intros Hq. apply log_keeps_bind; [by apply guard_keeps_ignored|]. intros v. apply log_keeps_ret. Qed.
Hint Extern 1 (Traced.keeps _ _ _ (equals _ _)) => (apply keeps_equals; reflexivity) : keeps.

(** *** Drawing *)

Abbreviation pages := [(Prdr, true); (Data, true)].
(** Everything is ready for a write. *)
Abbreviation ready := (knows pages true true true true true true false).

Lemma ready_write g p : ready g → may_write p g = true.
Proof.
  intros [? Hm Hl Hs Hr Ha Hf Hd ?]. unfold may_write. destruct (Hd eq_refl) as [-> ->].
  rewrite Hm, Hl, Hs, Hr, Ha, Hf by done. by destruct p.
Qed.
Lemma ready_port g v ok : ok = true → ready g → ready (set_port v ok g).
Proof. intros -> []. split; try done. cbn. by rewrite k_clean0. Qed.

Lemma others_lor v : others (Z.lor v SUBLCD_DC) = others v.
Proof.
  unfold others. apply Z.bits_inj'. intros i Hi. rewrite !Z.land_spec, Z.lor_spec, Z.lxor_spec.
  destruct (Z.eq_dec i 2) as [->|Hne]; [by rewrite !andb_false_r|].
  replace (Z.testbit SUBLCD_DC i) with false; [by rewrite orb_false_r|].
  change SUBLCD_DC with (2 ^ 2). rewrite Z.pow2_bits_eqb by done. symmetry. apply Z.eqb_neq. lia.
Qed.
Lemma others_land v : others (others v) = others v.
Proof. unfold others. by rewrite <- Z.land_assoc, Z.land_diag. Qed.

(** Writing back the port with only the display's bit changed. *)
Lemma port_ok x v :
  others x = others v → hoare (λ g, ready g ∧ prdr g = v) (tell (WritePrdr x)) (λ _ g, ready g ∧ prdr g = v).
Proof.
  intros Hx. apply hoare_tell. intros g r [Hg Hp]. split; [|done].
  apply ready_port; [|done]. by rewrite (ready_write g Prdr Hg), Hp, Hx, Z.eqb_refl.
Qed.

Lemma data_ok P v :
  (∀ g, P g → ready g) → (∀ g, P g → P (set_port (prdr g) true g)) →
  hoare P (tell (WriteData v)) (λ _, P).
Proof.
  intros Hr HP. apply hoare_tell. intros g w Hg. cbn [observe]. rewrite (ready_write g Data (Hr g Hg)). by apply HP.
Qed.

Lemma guard_read_ok : hoare ready (ask ReadPrdr) (λ v g, ready g ∧ prdr g = u8 v).
Proof.
  apply hoare_ask. intros g v Hg. split; [|done]. apply ready_port; [|done]. destruct Hg.
  rewrite k_mapped0, k_root0 by done. done.
Qed.

Lemma keeps_data v : keeps ready (lcd_data v).
Proof. apply data_ok; [done|]. intros g. by apply ready_port. Qed.

Lemma keeps_command c : keeps ready (lcd_command c).
Proof.
  unfold lcd_command. eapply hoare_bind; [apply guard_read_ok|]. intros v. cbv zeta.
  eapply hoare_step; [apply port_ok, others_land|]. intros _.
  eapply hoare_step.
  { apply (data_ok (λ g, ready g ∧ prdr g = u8 v)); [by intros g [? _]|].
    intros g [Hg Hp]. split; [by apply ready_port|done]. }
  intros _. eapply hoare_conseq; [apply (port_ok _ (u8 v)), others_lor|done|]. by intros ? g [? _].
Qed.
Hint Resolve keeps_data keeps_command : keeps.

Lemma keeps_set_row y : keeps ready (lcd_set_row y).
Proof. unfold lcd_set_row. keeps. Qed.
Lemma keeps_columns n x pixel : keeps ready (draw_columns n x pixel).
Proof. revert x. induction n; intros x; cbn [draw_columns]; keeps. Qed.
Hint Resolve keeps_set_row keeps_columns : keeps.
Lemma keeps_rows n y pixel : keeps ready (draw_rows n y pixel).
Proof. revert y. induction n; intros y; cbn [draw_rows]; keeps. Qed.
Hint Resolve keeps_rows : keeps.

Lemma keeps_draw o : keeps ready (draw o).
Proof.
  unfold draw. apply log_keeps_bind; [keeps|]. intros _. eapply hoare_bind; [apply guard_read_ok|]. intros v.
  eapply hoare_conseq; [apply (port_ok _ (u8 v)), others_lor|done|]. by intros ? g [? _].
Qed.

(** *** The driver, the lock, the mappings and the signals *)

Lemma hoare_pure {A} (φ : Prop) P (m : K A) Q : (φ → hoare P m Q) → hoare (λ g, φ ∧ P g) m Q.
Proof. intros Hm w a w' [Hφ HP]. by apply Hm. Qed.

Lemma guard_keeps_bytes P n i : keeps P (parameter_bytes n i).
Proof. revert i. induction n; intros i; cbn [parameter_bytes]; keeps. Qed.
Hint Resolve guard_keeps_bytes : keeps.

Lemma subpad_mode_ok ps l s r a f d c :
  hoare (knows ps l s r a f d c) subpad_mode (λ m, knows ps l s r (m =? 0) f d c).
Proof.
  unfold subpad_mode.
  apply (hoare_bind _ _ _ (λ v g, knows ps l s r false f d c g ∧ missing g = (v <? 0))).
  { apply hoare_ask. intros g v []. split; [by split|done]. }
  intros fd. destruct (fd <? 0).
  - apply (hoare_bind _ _ _ (λ e, knows ps l s r (e =? ENOENT) f d c)).
    + apply hoare_ask. intros g e [[] Hm]. split; try done. cbn. by rewrite Hm.
    + intros e. apply hoare_ret. intros g. by destruct (e =? ENOENT).
  - apply (hoare_step _ (knows ps l s r false f d c)).
    { apply hoare_ask. by intros g v [? _]. }
    intros count. apply hoare_keeps; [keeps|]. intros closed. cbv zeta.
    destruct (_ <=? 0); [by apply hoare_ret|]. apply hoare_keeps; [keeps|]. intros buffer.
    apply hoare_ret. intros g Hg. destruct (strtol _) as [[value rest]|]; [|done].
    by destruct (skip_blanks rest), (value =? 0).
Qed.

Lemma guard_lock_ok s r a f d c :
  hoare (knows [] false s r a f d c) acquire_lock (λ ok, knows [] ok s r a f d c).
Proof.
  unfold acquire_lock. apply hoare_keeps; [keeps|]. intros fd. destruct (fd <? 0); [by apply hoare_ret|].
  apply (hoare_bind _ _ _ (λ v, knows [] (negb (v <? 0)) s r a f d c)).
  { apply hoare_ask. intros g v []. by split. }
  intros v. destruct (v <? 0); [|by apply hoare_ret].
  apply (hoare_step _ (knows [] false s r a f d c)); [|intros; by apply hoare_ret].
  apply hoare_tell. intros g w []. by split.
Qed.

Lemma guard_block_ok ps l r a f d c :
  hoare (knows ps l false r a f d c) block_signals (λ ok, knows ps l ok r a f d c).
Proof.
  unfold block_signals, and_then. apply hoare_keeps; [keeps|]. intros [|]; [|by apply hoare_ret].
  apply hoare_keeps; [apply keeps_for_all; intros; keeps|]. intros [|]; [|by apply hoare_ret].
  apply (hoare_bind _ _ _ (λ v, knows ps l (0 <=? v) r a f d c)); [|intros v; by apply hoare_ret].
  apply hoare_ask. intros g v []. split; try done. cbn. by rewrite k_blocked0, orb_false_r.
Qed.

Lemma unmap_ok p ms ms' l s r a f d c :
  filter (λ q : page * bool, q.1 ≠ p) ms = ms' →
  hoare (knows ms l s r a f d c) (tell (Munmap p)) (λ _, knows ms' l s r a f d c).
Proof.
  intros Hms. apply hoare_tell. intros g v []. split; try done. cbn [observe set_held mapped].
  by rewrite k_mapped0.
Qed.

Abbreviation names := (map fst).
Lemma guard_close_maps_ok ms l s r a f d c :
  ms ∈ [[]; [(Prdr, true)]; [(Prdr, false)]; pages] →
  hoare (knows ms l s r a f d c) (close_maps (names ms)) (λ _, knows [] l s r a f d c).
Proof.
  intros Hms. unfold close_maps. apply (hoare_step _ (knows [] l s r a f d c)); [|intros; by apply hoare_tell].
  repeat (apply elem_of_cons in Hms as [->|Hms]); try (by apply elem_of_nil in Hms); cbn [names unmap_all map fst].
  - by apply hoare_ret.
  - apply hoare_keeps; [keeps|]. intros _. by apply unmap_ok.
  - apply hoare_keeps; [keeps|]. intros _. by apply unmap_ok.
  - apply (hoare_step _ (knows [(Prdr, true)] l s r a f d c)).
    + apply hoare_keeps; [keeps|]. intros _. by apply unmap_ok.
    + intros _. by apply unmap_ok.
Qed.

Lemma guard_keeps_devmem P verbose : keeps P (check_devmem strerror verbose).
Proof. unfold check_devmem, put_error, puts. keeps. Qed.

Lemma mmap_ok p w base ms l s r a f d c :
  hoare (knows ms l s r a f d c) (ask (Mmap p w base))
    (λ v, knows (if v =? -1 then ms else ms ++ [(p, w)]) l s r a f d c).
Proof. apply hoare_ask. intros g v []. split; try done. cbn. rewrite k_mapped0. by destruct (v =? -1). Qed.

Definition mappings (w : bool) : list (page * bool) := if w then pages else [(Prdr, false)].

Lemma give_up_maps ms l s r a f d c :
  ms ∈ [[]; [(Prdr, true)]; [(Prdr, false)]; pages] →
  hoare (knows ms l s r a f d c) (close_maps (names ms);; mret false)
    (λ ok : bool, knows (if ok then [(Prdr, false)] else []) l s r a f d c).
Proof. intros Hms. eapply hoare_step; [by apply guard_close_maps_ok|]. intros _. by apply hoare_ret. Qed.

Lemma guard_open_maps_ok w l s r a f d c :
  hoare (knows [] l s r a f d c) (open_maps strerror w)
    (λ ok : bool, knows (if ok then mappings w else []) l s r a f d c).
Proof.
  unfold open_maps. apply hoare_keeps; [keeps|]. intros size. destruct (_ || _); [by apply hoare_ret|]. cbv zeta.
  apply hoare_keeps; [apply guard_keeps_devmem|]. intros [|]; cbn [negb]; [|by apply hoare_ret].
  apply hoare_keeps; [keeps|]. intros fd. destruct (fd <? 0); [by apply hoare_ret|].
  eapply hoare_bind; [apply mmap_ok|]. intros v. cbn [app]. destruct (v =? -1).
  { eapply hoare_step; [apply (guard_close_maps_ok []); set_solver|]. intros _. by apply hoare_ret. }
  destruct w; cbn [negb mappings]; [|by apply hoare_ret].
  eapply hoare_bind; [apply mmap_ok|]. intros v'. cbn [app]. destruct (v' =? -1).
  { eapply hoare_step; [apply (guard_close_maps_ok [(Prdr, true)]); set_solver|]. intros _. by apply hoare_ret. }
  destruct (negb _); [|by apply hoare_ret].
  eapply hoare_step; [apply (guard_close_maps_ok pages); set_solver|]. intros _. by apply hoare_ret.
Qed.

(** *** The console *)

Lemma leave_ok ps l s r a f d c :
  hoare (knows ps l s r a f d c) (leave_quiet_console KD_TEXT) (λ _, knows ps l s r a f false true).
Proof.
  unfold leave_quiet_console, not_negative. apply (hoare_step _ (knows ps l s r a f false true));
    [|intros; by apply hoare_ret].
  apply hoare_ask. intros g v []. cbn [observe]. destruct (v <? 0); split; try done.
  intros _ _. cbn. by rewrite orb_true_r.
Qed.

Lemma and_then_keeps P Q (c1 c2 : K bool) :
  keeps P c1 → hoare P c2 Q → (∀ g, P g → Q false g) → hoare P (and_then c1 c2) Q.
Proof.
  intros H1 H2 HQ. unfold and_then. apply hoare_keeps; [done|]. intros [|]; [done|by apply hoare_ret].
Qed.

Lemma drain_ok ps l s r a f :
  hoare (λ g, knows ps l s r a f false false g ∧ quiet g = true) drain_framebuffer
    (λ ok, knows ps l s r a f ok false).
Proof.
  unfold drain_framebuffer. do 6 (apply and_then_keeps; [keeps| |by intros g [? _]]).
  unfold not_negative. apply (hoare_bind _ _ _ (λ v, knows ps l s r a f (0 <=? v) false));
    [|intros v; by apply hoare_ret].
  apply hoare_ask. intros g v [[] Hq]. split; try done. cbn. by rewrite Hq.
Qed.

Lemma keeps_active_vt P : keeps P active_vt.
Proof. unfold active_vt, and_then. keeps. Qed.
Lemma guard_keeps_yields P n : keeps P (yields n).
Proof. induction n; cbn [yields]; keeps. Qed.

(** The mode to go back to is text whenever the console was made quiet. *)
Lemma enter_ok ps r a f :
  hoare (knows ps true true r a f false true) enter_quiet_console
    (λ '(entered, saved, q) g, (entered = true → q = true) ∧ (q = true → saved = KD_TEXT) ∧
       knows ps true true r a f entered (negb entered) g).
Proof.
  set (post := λ '(entered, saved, q) g, _).
  assert (∀ saved, hoare (knows ps true true r a f false true) (mret (false, saved, false) : K _) post) as Hno.
  { intros saved. apply hoare_ret. by intros g Hg. }
  unfold enter_quiet_console. apply hoare_keeps; [keeps|]. intros tty. apply hoare_keeps; [destruct (tty =? 0); keeps|].
  intros got. destruct (got <? 0); [apply Hno|]. apply hoare_keeps; [keeps|]. intros saved.
  destruct (Z.eqb_spec saved KD_TEXT) as [->|]; cbn [negb]; [|apply Hno].
  apply hoare_keeps; [apply keeps_active_vt|]. intros [|]; cbn [negb]; [|apply Hno].
  apply (hoare_bind _ _ _ (λ (ok : bool) g, if ok then knows ps true true r a f false false g ∧ quiet g = true
                                            else knows ps true true r a f false true g)).
  { unfold not_negative. apply (hoare_bind _ _ _ (λ v g, if 0 <=? v
      then knows ps true true r a f false false g ∧ quiet g = true else knows ps true true r a f false true g));
      [|intros v; by apply hoare_ret].
    apply hoare_ask. intros g v []. cbn [observe].
    destruct (Z.ltb_spec v 0), (Z.leb_spec 0 v); try lia; [|split; [|done]]; split; try done.
    intros _ Hq. cbn. rewrite orb_false_r. auto. }
  intros [|]; cbn [negb]; [|apply Hno]. apply hoare_keeps; [keeps|]. intros fb.
  apply (hoare_bind _ _ _ (λ ok, knows ps true true r a f ok false)).
  { destruct (fb <? 0); [|apply drain_ok]. apply hoare_ret. by intros g [? _]. }
  intros [|]; cbn [negb].
  - apply hoare_keeps; [keeps|]. intros _. apply hoare_keeps; [apply guard_keeps_yields|]. intros _. by apply hoare_ret.
  - apply hoare_keeps; [destruct (0 <=? fb); keeps|]. intros _. unfold equals.
    apply (hoare_step _ (knows ps true true r a f false true)).
    + apply (hoare_step _ (knows ps true true r a f false true)); [|intros; by apply hoare_ret].
      apply hoare_ask. intros g v []. cbn [observe]. destruct (v <? 0); split; try done.
      intros _ _. cbn. by rewrite orb_true_r.
    + intros restored. by apply hoare_ret.
Qed.

(** *** The tests *)

(** Nothing is held, nothing was touched that should not have been, and the
    console is back in text mode or could not be brought back. *)
Definition closed (g : monitor) : Prop :=
  clean g = true ∧ mapped g = [] ∧ locked g = false ∧ blocked g = false ∧
  (quiet g = true → failed g = true).

Lemma knows_closed r a f d g : knows [] false false r a f d true g → closed g.
Proof. intros []. split_and!; auto. Qed.

Lemma guard_close_mmio_ok q saved l s r a f d c :
  (q = true → saved = KD_TEXT) → (q = false → c = true) →
  hoare (knows pages l s r a f d c) (close_mmio q saved) (λ _, knows [] l s r a f false true).
Proof.
  intros Hs Hc. unfold close_mmio. apply (hoare_step _ (knows pages l s r a f false true)).
  - destruct q.
    + rewrite (Hs eq_refl). eapply hoare_step; [apply leave_ok|]. intros v. by apply hoare_ret.
    + rewrite (Hc eq_refl). apply hoare_ret. intros g. apply guard_knows_mono. by destruct r, a, f, d.
  - intros _. apply (guard_close_maps_ok pages). set_solver.
Qed.

Lemma guard_close_lock_ok (b : bool) o v l r a f d :
  hoare (knows [] l b r a f d true) (close_lock b o v) (λ _, closed).
Proof.
  unfold close_lock. apply (hoare_step _ (knows [] false b r a f d true)).
  { apply hoare_tell. intros g w []. by split. }
  intros _. apply (hoare_step _ (knows [] false false r a f d true)).
  { destruct b; [|by apply hoare_ret]. apply hoare_tell. intros g w []. by split. }
  intros _. apply hoare_keeps; [unfold puts; keeps|]. intros _. apply hoare_ret. intros g. apply knows_closed.
Qed.

Lemma finish_ok q saved b o v l r a f d c :
  (q = true → saved = KD_TEXT) → (q = false → c = true) →
  hoare (knows pages l b r a f d c) (close_mmio q saved;; close_lock b o v) (λ _, closed).
Proof.
  intros Hs Hc. eapply hoare_step; [by apply guard_close_mmio_ok|]. intros _. apply guard_close_lock_ok.
Qed.

Lemma guard_quiet_write_ok o :
  hoare (knows pages true true true true true false true) (quiet_write o) (λ _, closed).
Proof.
  unfold quiet_write. eapply hoare_bind; [apply enter_ok|]. intros [[entered saved] q].
  apply hoare_pure. intros Hq. apply hoare_pure. intros Hs. destruct entered; cbn [negb].
  - eapply hoare_bind; [apply subpad_mode_ok|]. intros mode. cbv beta. destruct (mode =? 0); cbn [negb].
    + eapply hoare_step; [apply keeps_draw|]. intros _. rewrite (Hs (Hq eq_refl)).
      eapply hoare_step; [apply leave_ok|]. intros restored.
      eapply hoare_step; [by apply guard_close_mmio_ok|]. intros _. apply guard_close_lock_ok.
    + apply finish_ok; [done|]. by rewrite (Hq eq_refl).
  - by apply finish_ok.
Qed.

Lemma guard_perform_write_ok o :
  hoare (knows [] false false false false false false true) (perform_write strerror o) (λ _, closed).
Proof.
  assert (∀ r a f d, hoare (knows [] false false r a f d true) (mret 1 : K Z) (λ _, closed)) as Hno.
  { intros. apply hoare_ret. intros g. apply knows_closed. }
  unfold perform_write.
  apply (hoare_bind _ _ _ (λ v, knows [] false false (v =? 0) false false false true)).
  { apply hoare_ask. intros g v []. by split. }
  intros euid. cbv beta. destruct (euid =? 0); cbn [negb]; [|apply Hno].
  eapply hoare_bind; [apply subpad_mode_ok|]. intros mode. cbv beta. destruct (mode =? 0); cbn [negb]; [|apply Hno].
  eapply hoare_bind; [apply guard_lock_ok|]. intros [|]; cbn [negb]; [|apply Hno].
  eapply hoare_bind; [apply guard_open_maps_ok|]. intros [|]; cbn [negb mappings]; [|apply guard_close_lock_ok].
  apply hoare_keeps; [unfold puts; keeps|]. intros _.
  apply (hoare_bind _ _ _ (λ ok, knows pages true false true true ok false true)).
  { apply (hoare_bind _ _ _ (λ v, knows pages true false true true (v =? 0) false true)).
    - apply hoare_ask. intros g v []. by split.
    - intros v. by apply hoare_ret. }
  intros [|]; cbn [negb]; [|by apply finish_ok].
  eapply hoare_bind; [apply guard_block_ok|]. intros [|]; cbn [negb]; [apply guard_quiet_write_ok|by apply finish_ok].
Qed.

Lemma live_ok : hoare (knows [] false false false false false false true) (show_live_info strerror) (λ _, closed).
Proof.
  assert (∀ r a f d, hoare (knows [] false false r a f d true) (mret 1 : K Z) (λ _, closed)) as Hno.
  { intros. apply hoare_ret. intros g. apply knows_closed. }
  unfold show_live_info.
  apply (hoare_bind _ _ _ (λ v, knows [] false false (v =? 0) false false false true)).
  { apply hoare_ask. intros g v []. by split. }
  intros euid. cbv beta. destruct (euid =? 0); cbn [negb]; [|apply Hno].
  eapply hoare_bind; [apply guard_open_maps_ok|]. intros [|]; cbn [negb mappings]; [|apply Hno].
  apply (hoare_step _ (knows [(Prdr, false)] false false true false false false true)).
  { apply hoare_ask. intros g v []. split; try done. cbn. by rewrite k_clean0, k_root0, k_mapped0. }
  intros v. eapply hoare_step; [apply (guard_close_maps_ok [(Prdr, false)]); set_solver|]. intros _.
  apply hoare_keeps; [unfold puts; keeps|]. intros _. apply hoare_keeps; [unfold puts; keeps|]. intros _.
  apply hoare_ret. intros g. apply knows_closed.
Qed.

Lemma info_ok : hoare (knows [] false false false false false false true) (show_info strerror) (λ _, closed).
Proof.
  unfold show_info. eapply hoare_bind; [apply subpad_mode_ok|]. intros mode.
  eapply hoare_conseq; [|done|intros v g; apply (knows_closed false (mode =? 0) false false)].
  unfold report_framebuffer, report_console, check_devmem, put_error, puts. keeps.
Qed.

Lemma guard_main_ok argv : hoare (λ g, g = start) (main strerror argv) (λ _, closed).
Proof.
  apply (hoare_conseq (knows [] false false false false false false true) _ _ (λ _, closed));
    [|by intros g ->|done].
  assert (∀ v, hoare (knows [] false false false false false false true) (mret v : K Z) (λ _, closed)) as Hno.
  { intros. apply hoare_ret. intros g. apply knows_closed. }
  unfold main. destruct (parse_options argv) as [parsed o]. destruct (0 <? parsed).
  { apply hoare_keeps; [keeps|]. intros _. apply Hno. }
  destruct (parsed <? 0); [apply Hno|].
  destruct (kind o); [apply info_ok|apply live_ok|apply guard_perform_write_ok..].
Qed.
End Facts.

(** ** What every run respects *)

(** C11: whatever the kernel and the registers answer, a run of the test writes
    a register only as root, with the lock, with the signals blocked, after the
    output was flushed, on a console made quiet with the frame buffer of the
    main display drained since, and with no driver of the kernel in the last
    look for it; it never changes a bit of the port that is not the display's;
    and when it ends, by any of its exits, nothing is mapped, the lock and the
    signals are given back, and the console is in text mode unless bringing it
    back failed. *)
Theorem display_guarded {E} `{Answers request E} strerror argv (e : E) :
  let g := seen observe start (main strerror argv (World e [])).2 in
  clean g = true ∧ mapped g = [] ∧ locked g = false ∧ blocked g = false ∧
  (quiet g = true → failed g = true).
Proof.
  intros g. destruct (main strerror argv (World e [])) as [r w] eqn:Hm.
  exact (guard_main_ok strerror argv (World e []) r w eq_refl Hm).
Qed.
