(* ===== verification/Snake.v ===== *)
(** * Snake ([src/x11/apps/snake.c])

    The game: its state, the moves, the keys and the loop over the timer and
    the X events, with what it draws.  The generator behind [rand] is a parameter.
    The values of the colours and the set-up of the window are left out. *)

From S2P Require Import Prelude Text.

(** ** Data *)

Definition GRID_W : Z := 30.
Definition GRID_H : Z := 18.
Definition CELL : Z := 12.
Definition HEADER : Z := 25.
Definition WIDTH : Z := GRID_W * CELL.
Definition HEIGHT : Z := HEADER + GRID_H * CELL.
Definition MAX_SNAKE : nat := Z.to_nat (GRID_W * GRID_H).

Record point := Point { x : Z; y : Z }.
#[export] Instance point_eq_dec : EqDecision point.
Proof. solve_decision. Defined.
#[export] Instance point_inhabited : Inhabited point := populate (Point 0 0).

(** [body] is the whole array; the snake is its first [length] cells. *)
Record game := Game {
  body : list point;
  length : nat;
  dx : Z;
  dy : Z;
  next_dx : Z;
  next_dy : Z;
  food : point;
  score : Z;
  paused : bool;
  over : bool;
}.

Definition set_body (b : list point) (n : nat) (g : game) : game :=
  Game b n (dx g) (dy g) (next_dx g) (next_dy g) (food g) (score g) (paused g) (over g).
Definition set_direction (u v : Z) (g : game) : game :=
  Game (body g) (length g) u v (next_dx g) (next_dy g) (food g) (score g) (paused g) (over g).
Definition set_next (u v : Z) (g : game) : game :=
  Game (body g) (length g) (dx g) (dy g) u v (food g) (score g) (paused g) (over g).
Definition set_food (p : point) (g : game) : game :=
  Game (body g) (length g) (dx g) (dy g) (next_dx g) (next_dy g) p (score g) (paused g) (over g).
Definition set_score (s : Z) (g : game) : game :=
  Game (body g) (length g) (dx g) (dy g) (next_dx g) (next_dy g) (food g) s (paused g) (over g).
Definition set_paused (b : bool) (g : game) : game :=
  Game (body g) (length g) (dx g) (dy g) (next_dx g) (next_dy g) (food g) (score g) b (over g).
Definition set_over (b : bool) (g : game) : game :=
  Game (body g) (length g) (dx g) (dy g) (next_dx g) (next_dy g) (food g) (score g) (paused g) b.

(** The keys the program knows. *)
Inductive key : Type :=
| Up | Down | Left | Right | Space | Return | Quit_key | Other_key.

(** [Timeout]: [select] saw nothing for 120 ms; the others are X events. *)
Inductive input : Type :=
| Timeout | Expose (count : Z) | KeyPress (k : key) | ButtonPress | Delete | Other_event.

Inductive colour : Type := Dark | Panel | Cyan | Blue | White.
(** What is drawn: a filled rectangle, an outline (of one pixel more in width and
    height) or a text on its baseline. *)
Inductive shape : Type :=
| Filled (pixel : colour) (rx ry rw rh : Z)
| Outline (pixel : colour) (rx ry rw rh : Z)
| DrawString (pixel : colour) (tx ty : Z) (text : list Z).

(** ** Rules *)

Definition snake (g : game) : list point := take (length g) (body g).

Definition occupies (g : game) (px py : Z) : bool :=
  existsb (λ c, (x c =? px) && (y c =? py)) (snake g).

(** [for (i = n; i > 0; i--) body[i] = body[i - 1];] *)
Fixpoint shift (n : nat) (b : list point) : list point :=
  match n with O => b | S i => shift i (<[n := b !!! i]> b) end.

Section Game.
Context {R : Type} (rand : R → Z * R).

Fixpoint place_food_loop (attempts : nat) (r : R) (g : game) : game * R :=
  match attempts with
  | O => (g, r)
  | S attempts' =>
      let '(u, r) := rand r in
      let '(v, r) := rand r in
      let px := Z.rem u GRID_W in
      let py := Z.rem v GRID_H in
      if occupies g px py then place_food_loop attempts' r g
      else (set_food (Point (s16 px) (s16 py)) g, r)
  end.
Definition place_food : R → game → game * R := place_food_loop MAX_SNAKE.

(** The array after the loop over its first [n] cells. *)
Definition first_cells (n : nat) : list point :=
  map (λ i, Point (s16 (Z.quot GRID_W 2 - Z.of_nat i)) (Z.quot GRID_H 2)) (seq 0 n) ++
  replicate (MAX_SNAKE - n) (Point 0 0).

Definition reset_game (r : R) : game * R :=
  place_food r (Game (first_cells 5) 5 1 0 1 0 (Point 0 0) 0 false false).

(** The game, the generator and the score announced, if any. *)
Definition step (r : R) (g : game) : game * R * option Z :=
  if paused g || over g then (g, r, None)
  else
    let g := set_direction (next_dx g) (next_dy g) g in
    let hx := s16 (x (body g !!! 0%nat) + dx g) in
    let hy := s16 (y (body g !!! 0%nat) + dy g) in
    if (hx <? 0) || (GRID_W <=? hx) || (hy <? 0) || (GRID_H <=? hy) || occupies g hx hy
    then (set_over true g, r, Some (score g))
    else
      let ate := (hx =? x (food g)) && (hy =? y (food g)) in
      let n := if ate && (length g <? MAX_SNAKE)%nat then S (length g) else length g in
      let g := set_body (<[0%nat := Point hx hy]> (shift (n - 1) (body g))) n g in
      if ate then
        let '(g, r) := place_food r (set_score (score g + 10) g) in (g, r, None)
      else (g, r, None).

Definition direction (u v : Z) (g : game) : game :=
  if negb (u =? - dx g) || negb (v =? - dy g) then set_next u v g else g.

(** [false]: the program ends. *)
Definition handle_key (k : key) (r : R) (g : game) : game * R * bool :=
  match k with
  | Up => (direction 0 (-1) g, r, true)
  | Down => (direction 0 1 g, r, true)
  | Left => (direction (-1) 0 g, r, true)
  | Right => (direction 1 0 g, r, true)
  | Space => (set_paused (negb (paused g)) g, r, true)
  | Return => if over g then (reset_game r, true) else (g, r, true)
  | Quit_key => (g, r, false)
  | Other_key => (g, r, true)
  end.

(** [title], an array of 64 bytes. *)
Definition title (g : game) : list Z :=
  take 63 (str "SNAKE   Score " ++ decimal (score g) ++
    (if paused g then str "   PAUSED" else []) ++
    (if over g then str "   GAME OVER - ENTER restarts" else [])).

(** What is drawn, in order. *)
Definition draw (g : game) : list shape :=
  [Filled Dark 0 0 WIDTH HEIGHT; Filled Panel 0 0 WIDTH HEADER;
   Filled Cyan 0 (HEADER - 2) WIDTH 2; DrawString White 7 17 (title g);
   Filled Cyan (x (food g) * CELL + 3) (HEADER + y (food g) * CELL + 3) (CELL - 6) (CELL - 6)] ++
  map (λ i, let c := body g !!! i in
    Filled (if (i =? 0)%nat then White else Blue)
      (x c * CELL + 1) (HEADER + y c * CELL + 1) (CELL - 2) (CELL - 2))
    (reverse (seq 0 (length g))) ++
  [Outline Cyan 0 HEADER (WIDTH - 1) (GRID_H * CELL - 1)].

(** One turn of the loops of [main]: the game, the generator, whether the
    program goes on, and what it announces and draws. *)
Definition turn (i : input) (r : R) (g : game) : game * R * bool * (option Z * list shape) :=
  match i with
  | Timeout => let '(g, r, notice) := step r g in (g, r, true, (notice, draw g))
  | Expose count => (g, r, true, (None, if count =? 0 then draw g else []))
  | KeyPress k => let '(g, r, running) := handle_key k r g in (g, r, running, (None, []))
  | ButtonPress =>
      if over g then let '(g, r) := reset_game r in (g, r, true, (None, []))
      else (g, r, true, (None, []))
  | Delete => (g, r, false, (None, []))
  | Other_event => (g, r, true, (None, []))
  end.

(** The program on the inputs it sees. *)
Fixpoint play (is_ : list input) (r : R) (g : game) : game * list (option Z * list shape) :=
  match is_ with
  | [] => (g, [])
  | i :: is_ =>
      let '(g, r, running, out) := turn i r g in
      if running : bool then let '(g, outs) := play is_ r g in (g, out :: outs) else (g, [out])
  end.

Definition main (is_ : list input) (seed : R) : game * list (option Z * list shape) :=
  let '(g, r) := reset_game seed in
  let '(g', outs) := play is_ r g in (g', (None, draw g) :: outs).
End Game.
