(* ===== verification/SnakeFacts.v ===== *)
(** * Snake: what every game respects

    The invariant of [Snake]: a chain of distinct cells on the board, a
    direction that never turns back on it, food on the board and a score that
    counts what was eaten. *)

From S2P Require Import Prelude Text Snake.

(** ** Moving the cells up *)

Lemma shift_eq n b :
  (n < List.length b)%nat → shift n b = b !!! 0%nat :: take n b ++ drop (S n) b.
Proof.
  revert b. induction n as [|n IH]; intros b Hn; cbn [shift].
  - destruct b; [cbn in Hn; lia|done].
  - rewrite IH by (rewrite length_insert; lia). rewrite take_insert_ge by lia.
    rewrite list_lookup_total_insert_ne by lia.
    rewrite (drop_S _ (b !!! n)) by (rewrite list_lookup_insert_eq; [done|lia]).
    rewrite drop_insert_lt by lia.
    rewrite (take_S_r b n (b !!! n)) by (apply list_lookup_lookup_total_lt; lia).
    by rewrite <- (assoc_L (++)).
Qed.

(** The snake after a move to [h]. *)
Lemma take_move n h b :
  (0 < n ≤ List.length b)%nat → take n (<[0%nat := h]> (shift (n - 1) b)) = h :: take (n - 1) b.
Proof.
  intros Hn. rewrite shift_eq by lia. destruct n as [|n]; [lia|]. cbn [list_insert insert].
  replace (S n - 1)%nat with n by lia. cbn [take]. f_equal.
  rewrite take_app_le by (rewrite length_take; lia). rewrite take_take. f_equal. lia.
Qed.

Lemma length_move n h b :
  (0 < n ≤ List.length b)%nat → List.length (<[0%nat := h]> (shift (n - 1) b)) = List.length b.
Proof.
  intros Hn. rewrite shift_eq by lia. rewrite length_insert. cbn [List.length].
  rewrite length_app, length_take, length_drop. lia.
Qed.

(** ** The invariant *)

Definition in_grid (p : point) : Prop := 0 <= x p < GRID_W ∧ 0 <= y p < GRID_H.
Definition unit_step (u v : Z) : Prop := Z.abs u + Z.abs v = 1.
Definition linked (p q : point) : Prop := unit_step (x p - x q) (y p - y q).

Fixpoint chain (l : list point) : Prop :=
  match l with p :: (q :: _) as l' => linked p q ∧ chain l' | _ => True end.

Record good (g : game) : Prop := {
  gd_array : List.length (body g) = MAX_SNAKE;
  gd_length : (5 ≤ length g ≤ MAX_SNAKE)%nat;
  gd_grid : Forall in_grid (snake g);
  gd_distinct : NoDup (snake g);
  gd_chain : chain (snake g);
  gd_food : in_grid (food g);
  gd_dir : unit_step (dx g) (dy g);
  gd_next : unit_step (next_dx g) (next_dy g);
  gd_forward : ¬ (next_dx g = - dx g ∧ next_dy g = - dy g);
  gd_heading : over g = false →
    x (body g !!! 0%nat) - x (body g !!! 1%nat) = dx g ∧
    y (body g !!! 0%nat) - y (body g !!! 1%nat) = dy g;
  gd_score : score g = 10 * (Z.of_nat (length g) - 5);
}.

(** The board has [MAX_SNAKE] cells. *)
Definition cells : list point :=
  flat_map (λ i, map (λ j, Point (Z.of_nat i) (Z.of_nat j)) (seq 0 18)) (seq 0 30).

Lemma cells_all p : in_grid p → p ∈ cells.
Proof.
  destruct p as [px py]. unfold in_grid, GRID_W, GRID_H. cbn [x y]. intros [Hx Hy].
  unfold cells. apply list_elem_of_In, in_flat_map. exists (Z.to_nat px). split; [apply in_seq; lia|].
  apply in_map_iff. exists (Z.to_nat py). split; [f_equal; lia|apply in_seq; lia].
Qed.

Lemma distinct_bound l : NoDup l → Forall in_grid l → (List.length l ≤ MAX_SNAKE)%nat.
Proof.
  intros Hnd Hg. change MAX_SNAKE with (List.length cells). apply submseteq_length.
  apply NoDup_submseteq; [done|]. intros p Hp. apply cells_all. by eapply Forall_forall in Hg.
Qed.

Lemma occupies_spec g px py : occupies g px py = true ↔ Point px py ∈ snake g.
Proof.
  unfold occupies. rewrite existsb_exists. setoid_rewrite andb_true_iff. setoid_rewrite Z.eqb_eq.
  split.
  - intros ([u v] & Hin & Hu & Hv). cbn [x y] in Hu, Hv. subst. by apply list_elem_of_In.
  - intros Hin. exists (Point px py). by rewrite <- list_elem_of_In.
Qed.

Lemma occupies_false g px py : occupies g px py = false ↔ Point px py ∉ snake g.
Proof. rewrite <- occupies_spec. by destruct (occupies g px py). Qed.

(** ** The operations keep the invariant *)

Lemma s16_grid n : 0 <= n < 100 → s16 n = n.
Proof. intros. apply s16_small. lia. Qed.

Section Facts.
Context {R : Type} (rand : R → Z * R).
Context (rand_ok : ∀ r, 0 <= (rand r).1).

Lemma set_food_good p g : good g → in_grid p → good (set_food p g).
Proof. by intros [] Hp; split. Qed.

Lemma place_food_loop_good n r g g' r' :
  good g → place_food_loop rand n r g = (g', r') →
  good g' ∧ ∃ p, g' = set_food p g.
Proof.
  revert r. induction n as [|n IH]; intros r Hg; cbn [place_food_loop].
  { intros [= <- <-]. split; [done|]. exists (food g). by destruct g. }
  pose proof (rand_ok r) as Hu. destruct (rand r) as [u r1].
  pose proof (rand_ok r1) as Hv. destruct (rand r1) as [v r2]. cbn [fst] in Hu, Hv.
  destruct (occupies _ _ _); [apply IH; done|]. intros [= <- <-].
  split; [|by eexists]. apply set_food_good; [done|].
  assert (0 <= Z.rem u GRID_W < GRID_W) by (unfold GRID_W; apply Z.rem_bound_pos; lia).
  assert (0 <= Z.rem v GRID_H < GRID_H) by (unfold GRID_H; apply Z.rem_bound_pos; lia).
  unfold GRID_W, GRID_H in *. unfold in_grid, GRID_W, GRID_H. cbn [x y]. by rewrite !s16_grid by lia.
Qed.

Lemma first_good : good (Game (first_cells 5) 5 1 0 1 0 (Point 0 0) 0 false false).
Proof.
  split; try reflexivity.
  - unfold MAX_SNAKE, GRID_W, GRID_H. cbn [length]. lia.
  - change (Forall in_grid [Point 15 9; Point 14 9; Point 13 9; Point 12 9; Point 11 9]).
    repeat constructor; cbn; lia.
  - apply (bool_decide_unpack _). vm_compute. exact I.
  - vm_compute. done.
  - unfold in_grid, GRID_W, GRID_H. cbn. lia.
  - cbn. lia.
  - by vm_compute.
Qed.

Lemma reset_good seed g r : reset_game rand seed = (g, r) → good g ∧ over g = false.
Proof.
  intros Hr. destruct (place_food_loop_good _ _ _ _ _ first_good Hr) as [Hg [p ->]]. by split.
Qed.

(** Moving by one cell. *)
Lemma chain_take k l : chain l → chain (take k l).
Proof.
  revert l. induction k as [|k IH]; intros [|p l]; cbn; [done..|]. destruct l as [|q l]; [by destruct k|].
  intros [Hl Hc]. specialize (IH (q :: l) Hc). destruct k; [done|]. by split.
Qed.

Lemma chain_cons h l : chain l → (0 < List.length l → linked h (l !!! 0%nat))%nat → chain (h :: l).
Proof. destruct l; cbn; [done|]. intros Hc Hl. split; [apply Hl; lia|done]. Qed.

Section Move.
Context (g : game) (Hg : good g).
Abbreviation hx := (x (body g !!! 0%nat) + next_dx g).
Abbreviation hy := (y (body g !!! 0%nat) + next_dy g).
Context (Hin : in_grid (Point hx hy)) (Hout : Point hx hy ∉ snake g).
Context (n : nat) (Hn : n = length g ∨ n = S (length g)) (Hmax : (n ≤ MAX_SNAKE)%nat).

Definition moved : game :=
  set_score (10 * (Z.of_nat n - 5))
    (set_body (<[0%nat := Point hx hy]> (shift (n - 1) (body g))) n
      (set_direction (next_dx g) (next_dy g) g)).

Lemma moved_size : (5 ≤ n ≤ List.length (body g))%nat.
Proof. destruct Hg. lia. Qed.

Lemma moved_snake : snake moved = Point hx hy :: take (n - 1) (snake g).
Proof.
  pose proof moved_size. unfold snake. cbn [moved set_score set_body set_direction body length].
  rewrite take_move by lia. rewrite take_take. do 2 f_equal. lia.
Qed.

Lemma moved_first : snake g !!! 0%nat = body g !!! 0%nat.
Proof. destruct Hg. unfold snake. rewrite !list_lookup_total_alt, lookup_take_lt by lia. done. Qed.

Lemma moved_heading :
  body moved !!! 0%nat = Point hx hy ∧ body moved !!! 1%nat = body g !!! 0%nat.
Proof.
  pose proof moved_size. cbn [moved set_score set_body set_direction body]. split.
  - apply list_lookup_total_insert_eq. rewrite shift_eq by lia. cbn. lia.
  - rewrite list_lookup_total_insert_ne by done. rewrite shift_eq by lia.
    change ((take (n - 1) (body g) ++ drop (S (n - 1)) (body g)) !!! 0%nat = body g !!! 0%nat).
    rewrite lookup_total_app_l by (rewrite length_take; lia). by rewrite lookup_total_take_lt by lia.
Qed.

Lemma moved_good : good moved.
Proof.
  pose proof moved_size. destruct Hg. split; try done.
  - cbn [moved set_score set_body set_direction body]. by rewrite length_move by lia.
  - cbn [moved set_score set_body length]. lia.
  - rewrite moved_snake. constructor; [done|]. by apply Forall_take.
  - rewrite moved_snake. constructor; [|by apply (sublist_NoDup _ (snake g)); [|apply sublist_take]].
    intros Hd. apply Hout. rewrite <- (take_drop (n - 1) (snake g)). apply elem_of_app. by left.
  - rewrite moved_snake. apply chain_cons; [by apply chain_take|]. intros _.
    rewrite lookup_total_take_lt, moved_first by lia.
    unfold linked. cbn [x y]. unfold unit_step in *. lia.
  - cbn. unfold unit_step in *. lia.
  - destruct moved_heading as [-> ->]. cbn [x y moved set_score set_body set_direction dx dy]. lia.
Qed.
End Move.

(** The cell ahead is never the second cell of the snake. *)
Lemma ahead_not_neck g :
  good g → over g = false →
  Point (x (body g !!! 0%nat) + next_dx g) (y (body g !!! 0%nat) + next_dy g) ≠ body g !!! 1%nat.
Proof.
  intros [] Ho Heq. destruct (gd_heading0 Ho) as [Hx Hy]. rewrite <- Heq in Hx, Hy.
  cbn [x y] in Hx, Hy. apply gd_forward0. lia.
Qed.

Lemma room g px py :
  good g → in_grid (Point px py) → Point px py ∉ snake g → (length g < MAX_SNAKE)%nat.
Proof.
  intros [] Hin Hout. assert (List.length (Point px py :: snake g) ≤ MAX_SNAKE)%nat as Hb.
  { apply distinct_bound; by constructor. }
  cbn [List.length] in Hb. unfold snake in Hb. rewrite length_take in Hb. lia.
Qed.

Lemma head_in_grid g : good g → in_grid (body g !!! 0%nat).
Proof.
  intros Hg. pose proof (gd_length g Hg) as Hl. pose proof (gd_array g Hg) as Ha.
  pose proof (gd_grid g Hg) as Hc. rewrite Forall_lookup in Hc. apply (Hc 0%nat).
  unfold snake. rewrite lookup_take_lt by lia. apply list_lookup_lookup_total_lt. lia.
Qed.

Lemma set_score_same g : set_score (score g) g = g.
Proof. by destruct g. Qed.

Lemma stopped_good g :
  good g → good (set_over true (set_direction (next_dx g) (next_dy g) g)).
Proof.
  intros []. split; try done. cbn. unfold unit_step in *. lia.
Qed.

Lemma step_good r g g' r' notice : good g → step rand r g = (g', r', notice) → good g'.
Proof.
  intros Hg. unfold step. destruct (paused g) eqn:Hp, (over g) eqn:Ho; cbn [orb];
    [by intros [= <- <- <-]..|].
  cbn [body dx dy set_direction score food length].
  assert (in_grid (body g !!! 0%nat)) as [Hx Hy].
  { by apply head_in_grid. }
  assert (Z.abs (next_dx g) + Z.abs (next_dy g) = 1) as Hu by apply Hg.
  unfold GRID_W, GRID_H in Hx, Hy. rewrite !s16_small by lia.
  destruct (_ || _ || _ || _ || _) eqn:Hhit; [intros [= <- <- <-]; by apply stopped_good|].
  rewrite !orb_false_iff in Hhit. destruct Hhit as ((((Hb1 & Hb2) & Hb3) & Hb4) & Hocc).
  apply occupies_false in Hocc. unfold snake in Hocc. cbn [body length set_direction] in Hocc.
  set (hx := x (body g !!! 0%nat) + next_dx g) in *.
  set (hy := y (body g !!! 0%nat) + next_dy g) in *.
  assert (in_grid (Point hx hy)) as Hin by (unfold in_grid; cbn [x y]; lia).
  pose proof (room g hx hy Hg Hin Hocc) as Hroom. destruct (Nat.ltb_spec (length g) MAX_SNAKE); [|lia].
  destruct (_ && _); cbn [andb].
  - destruct (place_food _ _ _) as [g2 r2] eqn:Hf. intros [= <- <- <-].
    refine (proj1 (place_food_loop_good _ _ _ _ _ _ Hf)). cbn [score set_body set_direction].
    replace (score g + 10) with (10 * (Z.of_nat (S (length g)) - 5)) by (destruct Hg; lia).
    apply (moved_good g Hg Hin Hocc (S (length g))); [by right|lia].
  - intros [= <- <- <-]. rewrite <- set_score_same. cbn [score set_body set_direction].
    replace (score g) with (10 * (Z.of_nat (length g) - 5)) by (destruct Hg; lia).
    apply (moved_good g Hg Hin Hocc (length g)); [by left|lia].
Qed.

Lemma direction_good u v g : good g → unit_step u v → good (direction u v g).
Proof.
  intros Hg Hu. unfold direction. destruct (_ || _) eqn:Hd; [|done].
  destruct Hg. split; try done. cbn [set_next next_dx next_dy dx dy]. lia.
Qed.

Lemma key_good k r g g' r' b : good g → handle_key rand k r g = (g', r', b) → good g'.
Proof.
  intros Hg. destruct k; cbn [handle_key];
    try (intros [= <- <- <-]; solve [done|by apply direction_good|by destruct Hg]).
  destruct (over g); [|by intros [= <- <- <-]]. destruct (reset_game rand r) as [g2 r2] eqn:Hr.
  intros [= <- <- <-]. by apply reset_good in Hr as [? _].
Qed.

(** ** Drawing *)

(** Of a text, the baseline in the header and the whole width, of six pixels for a
    character of the font "fixed". *)
Definition in_window (q : shape) : Prop :=
  match q with
  | Filled _ rx ry rw rh =>
      0 <= rx ∧ rx + rw <= WIDTH ∧ 0 <= ry ∧ ry + rh <= HEIGHT ∧ 0 < rw ∧ 0 < rh
  | Outline _ rx ry rw rh =>
      0 <= rx ∧ rx + rw < WIDTH ∧ 0 <= ry ∧ ry + rh < HEIGHT ∧ 0 < rw ∧ 0 < rh
  | DrawString _ tx ty t => 0 <= tx ∧ tx + 6 * zlen t <= WIDTH ∧ 0 <= ty < HEADER
  end.

Lemma cell_in_window c p o s :
  in_grid p → 0 <= o → 0 < s → o + s <= CELL →
  in_window (Filled c (x p * CELL + o) (HEADER + y p * CELL + o) s s).
Proof.
  unfold in_grid, in_window, HEADER, CELL, WIDTH, HEIGHT, HEADER, GRID_W, GRID_H, CELL.
  lia.
Qed.

Lemma title_in_window g : good g → in_window (DrawString White 7 17 (title g)).
Proof.
  intros []. unfold in_window, title, HEADER. split; [lia|]. split; [|lia].
  assert (List.length (decimal (score g)) <= 4)%nat as Hs.
  { apply decimal_digits_length. rewrite gd_score0. unfold MAX_SNAKE, GRID_W, GRID_H in *. lia. }
  unfold zlen. rewrite length_take, !length_app.
  change WIDTH with 360. change (List.length (str "SNAKE   Score ")) with 14%nat.
  assert (List.length (if paused g then str "   PAUSED" else []) <= 9)%nat by (destruct (paused g); cbn; lia).
  assert (List.length (if over g then str "   GAME OVER - ENTER restarts" else []) <= 29)%nat
    by (destruct (over g); cbn; lia). lia.
Qed.

Lemma draw_in_window g : good g → Forall in_window (draw g).
Proof.
  intros Hg. unfold draw. apply Forall_app. split; [|apply Forall_app; split].
  - do 3 (apply Forall_cons; split; [by vm_compute|]).
    apply Forall_cons; split; [by apply title_in_window|]. apply Forall_singleton.
    apply (cell_in_window Cyan (food g) 3 (CELL - 6)); [apply Hg|by vm_compute..].
  - apply Forall_map, Forall_reverse, Forall_forall. intros i Hi.
    apply elem_of_seq in Hi. apply cell_in_window; [|by vm_compute..].
    pose proof (gd_length g Hg) as Hl. pose proof (gd_array g Hg) as Ha.
    pose proof (gd_grid g Hg) as Hc. rewrite Forall_lookup in Hc. apply (Hc i).
    unfold snake. rewrite lookup_take_lt by lia. apply list_lookup_lookup_total_lt. lia.
  - apply Forall_singleton. by vm_compute.
Qed.

(** ** The program *)

Definition well_drawn (o : option Z * list shape) : Prop := Forall in_window o.2.

Lemma turn_good i r g g' r' b o :
  good g → turn rand i r g = (g', r', b, o) → good g' ∧ well_drawn o.
Proof.
  intros Hg. destruct i; cbn [turn]; unfold well_drawn.
  - destruct (step rand r g) as [[g2 r2] notice] eqn:Hs. intros [= <- <- <- <-].
    apply step_good in Hs; [|done]. split; [done|by apply draw_in_window].
  - intros [= <- <- <- <-]. split; [done|]. destruct (count =? 0); [by apply draw_in_window|constructor].
  - destruct (handle_key rand k r g) as [[g2 r2] running] eqn:Hk. intros [= <- <- <- <-].
    apply key_good in Hk; [|done]. split; [done|constructor].
  - destruct (over g); [|intros [= <- <- <- <-]; split; [done|constructor]].
    destruct (reset_game rand r) as [g2 r2] eqn:Hr. intros [= <- <- <- <-].
    apply reset_good in Hr as [? _]. split; [done|constructor].
  - intros [= <- <- <- <-]. split; [done|constructor].
  - intros [= <- <- <- <-]. split; [done|constructor].
Qed.

Lemma play_good is_ r g g' outs :
  good g → play rand is_ r g = (g', outs) → good g' ∧ Forall well_drawn outs.
Proof.
  revert r g g' outs. induction is_ as [|i is_ IH]; intros r g g' outs Hg; cbn [play].
  { intros [= <- <-]. by split. }
  destruct (turn rand i r g) as [[[g1 r1] b] o] eqn:Ht. apply turn_good in Ht as [Hg1 Ho]; [|done].
  destruct b; [|intros [= <- <-]; split; [done|by constructor]].
  destruct (play rand is_ r1 g1) as [g2 outs2] eqn:Hp. intros [= <- <-].
  apply IH in Hp as [? ?]; [|done]. split; [done|by constructor].
Qed.
End Facts.

(** C36: Whatever the keys, the events, the timer and the generator, the snake is
    a chain of distinct cells on the board, it never turns back on itself, the
    food is on the board, the score is ten for each cell it has grown, and every
    square, outline and title drawn on the way lies in the window. *)
Theorem snake_well_formed {R} (rand : R → Z * R) (is_ : list input) seed g outs :
  (∀ r, 0 <= (rand r).1) → main rand is_ seed = (g, outs) →
  good g ∧ Forall well_drawn outs ∧
  (over g = false →
   Point (x (body g !!! 0%nat) + next_dx g) (y (body g !!! 0%nat) + next_dy g) ≠ body g !!! 1%nat).
Proof.
  intros Hrand. unfold main. destruct (reset_game rand seed) as [g0 r0] eqn:Hr.
  apply reset_good in Hr as [Hg0 _]; [|done].
  destruct (play rand is_ r0 g0) as [g1 outs1] eqn:Hp. intros [= <- <-].
  apply play_good in Hp as [Hg1 Ho]; [|done..]. split; [done|]. split; [|by apply ahead_not_neck].
  constructor; [by apply draw_in_window|done].
Qed.

Lemma snake_well_formed_witness :
  let rand := (λ r : N, (Z.of_N r, N.succ r)) in
  let inputs := replicate 12 Timeout ++ [KeyPress Up; KeyPress Left; Timeout; KeyPress Down; Timeout] in
  let g := (main rand inputs 26%N).1 in
  length g = 6%nat ∧ score g = 10 ∧ body g !!! 0%nat = Point 27 7 ∧ over g = false ∧ good g.
Proof.
  cbv zeta. do 4 (split; [by vm_compute|]).
  destruct (main _ _ _) as [g outs] eqn:Hm.
  refine (proj1 (snake_well_formed _ _ _ g outs _ Hm)). intros r. apply N2Z.is_nonneg.
Defined.
