(* ===== verification/Desktop.v ===== *)
(** * The desktop programs ([src/x11/apps/exdesk.c]): windows, drawing, menu

    What the programs draw is the list of the requests sent to the X server;
    what they acquire and release is the list of their [call]s.  The answers of
    the system and of the server are the record [answers]; the width of a text
    in the font is a parameter.  The file manager is [DesktopFiles], the clock
    and the eyes are [DesktopTimed]. *)

From Stdlib Require Import String Ascii.
From S2P Require Import Prelude Text Util.

(** ** The window *)

Definition TASKBAR_HEIGHT : Z := 19.

(** [struct ui] without the handles and the values of the colours. *)
Record ui := Ui {
  wm_delete : Z;
  ascent : Z;
  descent : Z;
  text_width : list Z → Z;
  width : Z;
  height : Z;
}.
Definition set_size (w h : Z) (u : ui) : ui :=
  Ui (wm_delete u) (ascent u) (descent u) (text_width u) w h.

(** The colours of [ui_init], by the member that holds them. *)
Inductive colour : Type :=
| Black | White | Face | Light | Shadow | Dark | Navy | Desk | Focus_text.

(** A request to draw on the window. *)
Inductive drawing : Type :=
| Fill_rectangle (c : colour) (x y w h : Z)
| Draw_rectangle (c : colour) (x y w h : Z)
| Draw_string (c : colour) (x baseline : Z) (s : list Z)
| Fill_arc (c : colour) (x y w h : Z)
| Draw_arc (c : colour) (x y w h : Z).

(** Events; the message of [ClientMessage] is its first word. *)
Inductive key : Type :=
| XK_Escape | XK_Up | XK_Down | XK_Prior | XK_Next | XK_Home | XK_End
| XK_Return | XK_KP_Enter | XK_BackSpace | XK_F5 | XK_other.
Inductive event : Type :=
| Expose (count : Z)
| MotionNotify (x y : Z)
| ButtonPress (button x y time : Z)
| KeyPress (k : key)
| ClientMessage (l0 : Z)
| VisibilityNotify (fully_obscured : bool)
| Other_event.
#[export] Instance colour_eq_dec : EqDecision colour.
Proof. solve_decision. Defined.
#[export] Instance drawing_eq_dec : EqDecision drawing.
Proof. solve_decision. Defined.
#[export] Instance key_eq_dec : EqDecision key.
Proof. solve_decision. Defined.
#[export] Instance event_eq_dec : EqDecision event.
Proof. solve_decision. Defined.

Definition Button1 : Z := 1.
Definition Button3 : Z := 3.
Definition Button4 : Z := 4.
Definition Button5 : Z := 5.

(** ** Drawing *)

Definition fill (c : colour) (x y w h : Z) : list drawing :=
  if (w <=? 0) || (h <=? 0) then [] else [Fill_rectangle c x y w h].

Definition bevel (x y w h : Z) (sunken : bool) : list drawing :=
  if (w <? 2) || (h <? 2) then []
  else [Draw_rectangle (if sunken then Light else Shadow) x y (w - 1) (h - 1)].

(** The first [length] bytes of [s]. *)
Definition text_n (c : colour) (x baseline : Z) (s : list Z) (length : Z) : list drawing :=
  if length <=? 0 then [] else [Draw_string c x baseline (take (Z.to_nat length) s)].

Definition text (c : colour) (x baseline : Z) (value : list Z) : list drawing :=
  text_n c x baseline value (zlen value).

Definition button (u : ui) (x y w h : Z) (label : list Z) (pressed : bool) : list drawing :=
  let tw := text_width u label in
  let baseline := y + Z.quot (h - (ascent u + descent u)) 2 + ascent u in
  fill (if pressed then Navy else Face) x y w h ++
  bevel x y w h pressed ++
  text (if pressed then Focus_text else White) (x + Z.quot (w - tw) 2) baseline label.

(** ** Windows and resources *)

Record window := Window {
  title : list Z;
  win_x : Z;
  win_y : Z;
  win_width : Z;
  win_height : Z;
  override_redirect : bool;
  delete_protocol : bool;
  min_max : option (Z * Z);
}.

(** What the system and the server answer. *)
Record answers := Answers {
  open_ok : bool;
  flock_ok : bool;
  display_ok : bool;
  font_ok : bool;
  grab_ok : bool;
  DisplayWidth : Z;
  DisplayHeight : Z;
  display_ui : ui;
}.

(** Successful calls that acquire or release, the commands started and what is
    drawn. *)
Inductive call : Type :=
| Lock_file (path : list Z) | Close_lock
| Open_display | Close_display
| Load_font | Free_font
| Create_gc | Free_gc
| Create_window (w : window) | Destroy_window
| Grab_pointer | Ungrab_pointer
| Grab_keyboard | Ungrab_keyboard
| Draw (d : list drawing)
| Spawn_shell (command : list Z)
| Spawn_viewer (path : list Z).

(** [None]: the program has to leave. *)
Definition ui_init (a : answers) : option ui * list call :=
  if display_ok a then
    if font_ok a then (Some (display_ui a), [Open_display; Load_font; Create_gc])
    else (None, [Open_display; Close_display])
  else (None, []).

(** The window was created. *)
Definition ui_close : list call := [Destroy_window; Free_gc; Free_font; Close_display].

Definition make_window (a : answers) (u : ui) (name : list Z) (w h : Z) (fixed menu : bool) :
    ui * list call :=
  let x := if menu then 0 else Z.quot (DisplayWidth a - w) 2 in
  let y := if menu then DisplayHeight a - TASKBAR_HEIGHT - h
           else Z.quot (DisplayHeight a - TASKBAR_HEIGHT - h) 2 in
  let x := if x <? 0 then 0 else x in
  let y := if y <? 0 then 0 else y in
  (set_size w h u,
   [Create_window (Window name x y w h menu (negb menu) (if fixed then Some (w, h) else None))]).

Definition close_event (u : ui) (e : event) : bool :=
  match e with ClientMessage l0 => l0 =? wm_delete u | _ => false end.

(** [snprintf] into [size] bytes: the string stored and the result. *)
Definition snprintf (size : Z) (s : list Z) : list Z * Z := (take (Z.to_nat (size - 1)) s, zlen s).

Definition instance_lock (a : answers) (name : list Z) : option (list call) :=
  let '(path, n) := snprintf 96 (str "/tmp/exdesk-" ++ name ++ str ".lock") in
  if 96 <=? n then None
  else if negb (open_ok a) then None
  else if negb (flock_ok a) then None
  else Some [Lock_file path].

(** ** The menu *)

Record menu_item := Item { label : list Z; command : option (list Z) }.

Definition menu_items : list menu_item := [
  Item (str "File Manager") (Some (str "exec /opt/x11/usr/bin/exfile /"));
  Item (str "Calculator") (Some (str "exec /opt/x11/usr/bin/xcalc"));
  Item (str "Text Editor") (Some (str "exec /opt/x11/usr/bin/xedit"));
  Item (str "Message Box") (Some (str "exec /opt/x11/usr/bin/xmessage -center 'Hello from EX-word Linux'"));
  Item (str "Kill Window") (Some (str "exec /opt/x11/usr/bin/xkill"));
  Item (str "Command Prompt") (Some (str "exec /opt/x11/usr/bin/xterm -T 'Command Prompt' -tn xterm -fn fixed -bg '#242424' -fg white -cr '#0099cc' -geometry 64x20 -sl 64 +sb -ut"));
  Item (str "Task Manager") (Some (str "exec /opt/x11/usr/bin/xterm -T 'Task Manager' -tn xterm -fn fixed -bg '#242424' -fg white -cr '#0099cc' -geometry 64x20 -sl 16 +sb -ut -e /usr/bin/top"));
  Item (str "System Information") (Some (str "exec /opt/x11/usr/bin/xterm -T 'System Information' -tn xterm -fn fixed -bg '#242424' -fg white -cr '#0099cc' -geometry 64x20 -sl 8 +sb -ut -e /bin/sh -c '/opt/x11/usr/bin/screenfetch; echo; echo Press ENTER to close; read answer'"));
  Item (str "Disk Information") (Some (str "exec /opt/x11/usr/bin/xterm -T 'Disk Information' -tn xterm -fn fixed -bg '#242424' -fg white -cr '#0099cc' -geometry 64x20 -sl 8 +sb -ut -e /bin/sh -c '/usr/bin/lsblk; echo; echo Press ENTER to close; read answer'"));
  Item (str "Snake") (Some (str "/opt/x11/usr/bin/notify 'Starting Snake'; exec /opt/x11/usr/bin/snake"));
  Item (str "Clock") (Some (str "exec /opt/x11/usr/bin/xclock"));
  Item (str "Eyes") (Some (str "exec /opt/x11/usr/bin/xeyes"));
  Item (str "Close Menu") None
]%string.
Definition menu_count : Z := zlen menu_items.

Definition menu_index_at (x y w : Z) : Z :=
  if (x <? 4) || (w - 4 <=? x) || (y <? 4) then -1
  else
    let index := Z.quot (y - 4) 22 in
    if (index <? 0) || (menu_count <=? index) then -1 else index.

Definition draw_menu_item (u : ui) (hover : Z) (index : Z) (item : menu_item) : list drawing :=
  let y := 4 + index * 22 in
  let selected := index =? hover in
  fill (if selected then Navy else Face) 4 y (width u - 8) 22 ++
  text (if selected then Focus_text else White) 12 (y + 15) (label item).

Definition draw_menu (u : ui) (hover : Z) : list drawing :=
  fill Face 0 0 (width u) (height u) ++
  bevel 0 0 (width u) (height u) false ++
  concat (imap (λ i, draw_menu_item u hover (Z.of_nat i)) menu_items).

(** The command of an item of the table. *)
Definition command_at (index : Z) : option (option (list Z)) :=
  if index <? 0 then None else command <$> menu_items !! Z.to_nat index.

(** [Stay hover]: the loop goes on; [Leave command]: it is left. *)
Inductive menu_next : Type :=
| Stay (hover : Z)
| Leave (command : option (list Z)).
#[export] Instance menu_next_eq_dec : EqDecision menu_next.
Proof. solve_decision. Defined.

(** One event; [None]: a read outside the table. *)
Definition menu_event (u : ui) (hover : Z) (e : event) : option (menu_next * list drawing) :=
  match e with
  | Expose count => Some (Stay hover, if count =? 0 then draw_menu u hover else [])
  | MotionNotify x y =>
      let index := menu_index_at x y (width u) in
      if index =? hover then Some (Stay hover, []) else Some (Stay index, draw_menu u index)
  | ButtonPress b x y _ =>
      let index := menu_index_at x y (width u) in
      if (b =? Button1) && (0 <=? index) then c ← command_at index; Some (Leave c, [])
      else Some (Leave None, [])
  | KeyPress XK_Escape => Some (Leave None, [])
  | KeyPress XK_Up =>
      let hover := hover - 1 in
      let hover := if hover <? 0 then menu_count - 1 else hover in
      Some (Stay hover, draw_menu u hover)
  | KeyPress XK_Down =>
      let hover := hover + 1 in
      let hover := if menu_count <=? hover then 0 else hover in
      Some (Stay hover, draw_menu u hover)
  | KeyPress XK_Return | KeyPress XK_KP_Enter =>
      if 0 <=? hover then c ← command_at hover; Some (Leave c, []) else Some (Stay hover, [])
  | _ => Some (Stay hover, [])
  end.

(** How a run ends: with a status, or waiting for the next event. *)
Inductive run_end : Type :=
| Exit (status : Z)
| Waiting.

(** The loop over the events: the command once it is left, and what was drawn. *)
Fixpoint menu_loop (u : ui) (hover : Z) (events : list event) :
    option (option (option (list Z)) * list call) :=
  match events with
  | [] => Some (None, [])
  | e :: events =>
      '(next, d) ← menu_event u hover e;
      match next with
      | Leave c => Some (Some c, [])
      | Stay hover => '(c, calls) ← menu_loop u hover events; Some (c, Draw d :: calls)
      end
  end.

Definition run_menu (a : answers) (events : list event) : option (run_end * list call) :=
  match instance_lock a (str "menu") with
  | None => Some (Exit 0, [])
  | Some lock =>
      match ui_init a with
      | (None, init) => Some (Exit 1, lock ++ init ++ [Close_lock])
      | (Some u, init) =>
          let '(u, made) := make_window a u (str "Holo Menu") 190 (menu_count * 22 + 8) true true in
          if negb (grab_ok a) then Some (Exit 0, lock ++ init ++ made ++ ui_close ++ [Close_lock])
          else
            '(chosen, drawn) ← menu_loop u 0 events;
            let calls := lock ++ init ++ made ++ [Grab_pointer; Grab_keyboard; Draw (draw_menu u 0)] ++ drawn in
            match chosen with
            | None => Some (Waiting, calls)
            | Some c =>
                Some (Exit 0, calls ++ [Ungrab_keyboard; Ungrab_pointer] ++ ui_close ++
                  match c with Some command => [Spawn_shell command] | None => [] end ++ [Close_lock])
            end
      end
  end.
