(* ===== verification/DesktopFiles.v ===== *)
(** * The file manager ([src/x11/apps/exdesk.c])

    The directory shown, its selection and scrolling, the actions of the mouse
    and of the keys, and what is drawn.  The file system is the class [Files];
    its answers may change from one call to the next.  [qsort] is the class
    [Qsort], whose laws are those of the C standard: a permutation in order,
    with nothing said of equal elements. *)

From Stdlib Require Import String Ascii.
From stdpp Require Import sorting.
From S2P Require Import Prelude Text Util Desktop.

Definition FILE_MAX_ENTRIES : Z := 128.
Definition FILE_ROW_HEIGHT : Z := 15.
Definition FILE_LIST_TOP : Z := 55.
Definition NAME_MAX : Z := 255.

(** ** The file system *)

Inductive file_kind : Type := Directory | Regular | Link | Special.
Record stat := Stat { st_mode : file_kind; st_size : Z }.
#[export] Instance file_kind_eq_dec : EqDecision file_kind.
Proof. solve_decision. Defined.

(** [opendir] answers [errno] or the names that [readdir] will give. *)
Class Files (W : Type) := {
  os_opendir : list Z → st W (Z + list (list Z));
  os_lstat : list Z → st W (option stat);
  os_stat : list Z → st W (option stat);
  os_strerror : Z → list Z;
}.

(** ** Data *)

Record file_entry := Entry {
  name : list Z;
  directory : bool;
  regular : bool;
  link : bool;
  size : Z;
}.
#[export] Instance file_entry_inhabited : Inhabited file_entry := populate (Entry [] false false false 0).
#[export] Instance file_entry_eq_dec : EqDecision file_entry.
Proof. solve_decision. Defined.

(** The arrays of characters are the strings they hold; [entries] is the whole
    array. *)
Record file_state := State {
  path : list Z;
  entries : list file_entry;
  count : Z;
  selected : Z;
  offset : Z;
  last_click : Z;
  last_clicked : Z;
  message : list Z;
}.
Definition set_path (p : list Z) (s : file_state) : file_state :=
  State p (entries s) (count s) (selected s) (offset s) (last_click s) (last_clicked s) (message s).
Definition set_entries (l : list file_entry) (n : Z) (s : file_state) : file_state :=
  State (path s) l n (selected s) (offset s) (last_click s) (last_clicked s) (message s).
Definition set_selected (i : Z) (s : file_state) : file_state :=
  State (path s) (entries s) (count s) i (offset s) (last_click s) (last_clicked s) (message s).
Definition set_offset (i : Z) (s : file_state) : file_state :=
  State (path s) (entries s) (count s) (selected s) i (last_click s) (last_clicked s) (message s).
Definition set_clicked (i time : Z) (s : file_state) : file_state :=
  State (path s) (entries s) (count s) (selected s) (offset s) time i (message s).
Definition set_message (m : list Z) (s : file_state) : file_state :=
  State (path s) (entries s) (count s) (selected s) (offset s) (last_click s) (last_clicked s) m.

(** ** The order of the entries *)

(** Of an [unsigned char]. *)
Definition tolower (c : Z) : Z := if (65 <=? c) && (c <=? 90) then c + 32 else c.

(** The characters from here on; the terminator is zero. *)
Definition first_char (s : list Z) : Z := u8 (default 0 (head s)).

Fixpoint strcasecmp (a b : list Z) : Z :=
  let x := first_char a in
  let y := first_char b in
  if negb (x =? 0) && negb (y =? 0) && (tolower x =? tolower y)
  then match a, b with _ :: a, _ :: b => strcasecmp a b | _, _ => 0 end
  else tolower x - tolower y.

Definition entry_compare (left right : file_entry) : Z :=
  if negb (eqb (directory left) (directory right)) then if directory left then -1 else 1
  else strcasecmp (name left) (name right).

(** What a comparison of [qsort] says of two elements. *)
Definition in_order {A} (compare : A → A → Z) (x y : A) : Prop := compare x y <= 0.
#[export] Instance in_order_dec {A} (compare : A → A → Z) : RelDecision (in_order compare).
Proof. unfold in_order. intros x y. apply _. Defined.

Class Qsort := {
  qsort : ∀ {A}, (A → A → Z) → list A → list A;
  qsort_perm : ∀ {A} (compare : A → A → Z) l, qsort compare l ≡ₚ l;
  qsort_sorted : ∀ {A} (compare : A → A → Z) l,
    Transitive (in_order compare) → Total (in_order compare) →
    StronglySorted (in_order compare) (qsort compare l);
}.
#[global] Instance merge_qsort : Qsort := {
  qsort A compare l := merge_sort (in_order compare) l;
  qsort_perm A compare l := merge_sort_Permutation _ l;
  qsort_sorted A compare l _ _ := StronglySorted_merge_sort _ l;
}.

(** ** Paths and directories *)

(** The destination and whether it holds the whole path. *)
Definition path_join (dest_size : Z) (dir nm : list Z) : list Z * bool :=
  let '(dest, result) :=
    snprintf dest_size (if bool_decide (dir = str "/") then str "/" ++ nm else dir ++ str "/" ++ nm) in
  (dest, result <? dest_size).

Section Files.
Context {W : Type} `{Files W} `{Qsort}.
Abbreviation F := (st W).

(** The entry of a name; [None] when it is passed over. *)
Definition read_entry (dir d_name : list Z) : F (option file_entry) :=
  if bool_decide (d_name = str ".") || bool_decide (d_name = str "..") then mret None
  else
    let '(full_path, ok) := path_join PATH_MAX dir d_name in
    if negb ok then mret None
    else
      status ← os_lstat full_path;
      match status with
      | None => mret None
      | Some status =>
          let is_link := bool_decide (st_mode status = Link) in
          status ← (if is_link then
                      followed ← os_stat full_path;
                      mret (default (Stat Special 0) followed)
                    else mret status);
          mret (Some (Entry (take (Z.to_nat NAME_MAX) d_name)
            (bool_decide (st_mode status = Directory)) (bool_decide (st_mode status = Regular))
            is_link (st_size status)))
      end.

(** The loop over the names that [readdir] gives. *)
Fixpoint read_directory (names : list (list Z)) (s : file_state) : F file_state :=
  match names with
  | [] => mret s
  | d_name :: names =>
      if count s <? FILE_MAX_ENTRIES then
        item ← read_entry (path s) d_name;
        match item with
        | None => read_directory names s
        | Some item =>
            read_directory names
              (set_entries (<[Z.to_nat (count s) := item]> (entries s)) (count s + 1) s)
        end
      else mret s
  end.

Definition sort_entries (s : file_state) : file_state :=
  set_entries (qsort entry_compare (take (Z.to_nat (count s)) (entries s)) ++
               drop (Z.to_nat (count s)) (entries s)) (count s) s.

Definition load_directory (s : file_state) : F file_state :=
  let s := set_message [] (set_clicked (-1) (last_click s) (set_offset 0 (set_selected (-1)
             (set_entries (entries s) 0 s)))) in
  directory ← os_opendir (path s);
  match directory with
  | inl errno => mret (set_message (snprintf 96 (str "Cannot open: " ++ os_strerror errno)).1 s)
  | inr names =>
      s ← read_directory names s;
      let s := sort_entries s in
      mret (if count s =? FILE_MAX_ENTRIES then set_message (str "Showing the first 128 entries") s else s)
  end.

Definition file_up (s : file_state) : F file_state :=
  if bool_decide (path s = str "/") then mret s
  else
    load_directory
      match strrchr (path s) 47 with
      | Some slash =>
          let start := (length (path s) - length slash)%nat in
          set_path (take (if (start =? 0)%nat then 1 else start) (path s)) s
      | None => s
      end.

Definition file_set_path (p : list Z) (s : file_state) : F file_state :=
  status ← os_stat p;
  match status with
  | Some (Stat Directory _) => load_directory (set_path (take (Z.to_nat (PATH_MAX - 1)) p) s)
  | _ => mret (set_message (snprintf 96 (str "Directory unavailable: " ++ p)).1 s)
  end.

(** The file for the viewer, if one is started. *)
Definition file_open_selected (s : file_state) : F (file_state * option (list Z)) :=
  if (selected s <? 0) || (count s <=? selected s) then mret (s, None)
  else
    let entry := entries s !!! Z.to_nat (selected s) in
    let '(full_path, ok) := path_join PATH_MAX (path s) (name entry) in
    if negb ok then mret (set_message (str "Path is too long") s, None)
    else if directory entry then s ← file_set_path full_path s; mret (s, None)
    else if negb (regular entry) then mret (set_message (str "Special files cannot be opened") s, None)
    else if 131072 <? size entry then mret (set_message (str "File is too large (128 KiB limit)") s, None)
    else mret (s, Some full_path).

(** ** What is shown *)

Definition visible_rows (u : ui) : Z :=
  let rows := Z.quot (height u - FILE_LIST_TOP - 22) FILE_ROW_HEIGHT in
  if 1 <? rows then rows else 1.

Definition keep_selection_visible (u : ui) (s : file_state) : file_state :=
  let rows := visible_rows u in
  let o := offset s in
  let o := if selected s <? o then selected s else o in
  let o := if o + rows <=? selected s then selected s - rows + 1 else o in
  let o := if o <? 0 then 0 else o in
  set_offset o s.

(** [%8lu]. *)
Definition pad_left (w : nat) (s : list Z) : list Z := replicate (w - length s) 32 ++ s.

(** The line of an entry, in an array of 128 bytes. *)
Definition entry_line (e : file_entry) : list Z :=
  (snprintf 128
    (if directory e then str "[DIR] " ++ name e
     else [if link e then 64 else 32] ++ str " " ++ pad_left 8 (decimal (u32 (size e))) ++
          str "  " ++ name e)).1.

(** [strnlen(s, n)]. *)
Definition strnlen (s : list Z) (n : Z) : Z := Z.min (zlen s) n.

(** One row; [None]: a read outside the array.  [Some None]: the loop ends. *)
Definition draw_row (u : ui) (s : file_state) (row : Z) : option (option (list drawing)) :=
  let index := offset s + row in
  let y := FILE_LIST_TOP + row * FILE_ROW_HEIGHT in
  let max_chars := Z.quot (width u - 18) 6 in
  if count s <=? index then Some None
  else if index <? 0 then None
  else
    e ← entries s !! Z.to_nat index;
    let line := entry_line e in
    Some (Some
      ((if index =? selected s then fill Navy 6 y (width u - 12) FILE_ROW_HEIGHT else []) ++
       text_n (if index =? selected s then Focus_text else White) 9 (y + 12) line
         (strnlen line max_chars))).

Fixpoint draw_rows (u : ui) (s : file_state) (n : nat) (row : Z) : option (list drawing) :=
  match n with
  | O => Some []
  | S n =>
      r ← draw_row u s row;
      match r with
      | None => Some []
      | Some d => d' ← draw_rows u s n (row + 1); Some (d ++ d')
      end
  end.

Definition draw_message (u : ui) (s : file_state) : list drawing :=
  match message s with
  | _ :: _ => text Dark 6 (height u - 6) (message s)
  | [] =>
      text Dark 6 (height u - 6)
        (snprintf 128 (decimal (count s) ++ str " item" ++
          (if count s =? 1 then [] else str "s") ++ str "  ENTER/double-click opens")).1
  end.

Definition draw_file_manager (u : ui) (s : file_state) : option (list drawing) :=
  let rows := visible_rows u in
  let title := (snprintf (PATH_MAX + 16) (str "EX-File  " ++ path s)).1 in
  lines ← draw_rows u s (Z.to_nat rows) 0;
  Some (
    fill Face 0 0 (width u) (height u) ++
    fill Navy 2 2 (width u - 4) 21 ++
    fill Light 2 22 (width u - 4) 1 ++
    text_n Focus_text 7 17 title (strnlen title (Z.quot (width u - 14) 6)) ++
    button u 4 27 48 22 (str "Up") false ++
    button u 56 27 48 22 (str "Root") false ++
    button u 108 27 48 22 (str "mnt") false ++
    button u 160 27 62 22 (str "Refresh") false ++
    button u (width u - 56) 27 52 22 (str "Close") false ++
    fill Desk 4 (FILE_LIST_TOP - 2) (width u - 8) (rows * FILE_ROW_HEIGHT + 4) ++
    bevel 3 (FILE_LIST_TOP - 3) (width u - 6) (rows * FILE_ROW_HEIGHT + 6) true ++
    lines ++ draw_message u s).

(** ** Events *)

(** Whether the loop goes on, the state and the file shown by a viewer. *)
Definition step : Type := bool * file_state * option (list Z).

(** A row of the list is clicked. *)
Definition click_entry (index button time : Z) (s : file_state) : F (file_state * option (list Z)) :=
  if (0 <=? index) && (index <? count s) then
    let double_click := (index =? last_clicked s) && (u32 (time - last_click s) <? 500) in
    let enter_directory :=
      ((button =? Button3) || double_click) && directory (entries s !!! Z.to_nat index) in
    let s := set_selected index s in
    '(s, shown) ← (if double_click || (button =? Button3) then file_open_selected s
                   else mret (s, None));
    mret (if enter_directory then s else set_clicked index time s, shown)
  else mret (s, None).

Definition press (u : ui) (button x y time : Z) (s : file_state) : F step :=
  let stay (m : F file_state) : F step := s ← m; mret (true, s, None) in
  if button =? Button4 then
    mret (true, if 0 <? offset s then set_offset (offset s - 1) s else s, None)
  else if button =? Button5 then
    mret (true, if offset s + visible_rows u <? count s then set_offset (offset s + 1) s else s, None)
  else if (27 <=? y) && (y <? 49) then
    if (4 <=? x) && (x <? 52) then stay (file_up s)
    else if (56 <=? x) && (x <? 104) then stay (file_set_path (str "/") s)
    else if (108 <=? x) && (x <? 156) then stay (file_set_path (str "/mnt") s)
    else if (160 <=? x) && (x <? 222) then stay (load_directory s)
    else if width u - 56 <=? x then mret (false, s, None)
    else mret (true, s, None)
  else if (4 <=? x) && (x <? width u - 4) && (FILE_LIST_TOP <=? y) &&
          (y <? FILE_LIST_TOP + visible_rows u * FILE_ROW_HEIGHT) then
    '(s, shown) ← click_entry (offset s + Z.quot (y - FILE_LIST_TOP) FILE_ROW_HEIGHT) button time s;
    mret (true, s, shown)
  else mret (true, s, None).

(** The keys that only move the selection. *)
Definition move_selection (rows : Z) (k : key) (s : file_state) : file_state :=
  if 0 <? count s then
    match k with
    | XK_Up =>
        if selected s <? 0 then set_selected 0 s
        else if 0 <? selected s then set_selected (selected s - 1) s else s
    | XK_Down =>
        if selected s <? 0 then set_selected 0 s
        else if selected s + 1 <? count s then set_selected (selected s + 1) s else s
    | XK_Prior =>
        set_selected (if selected s - rows <? 0 then 0 else selected s - rows) s
    | XK_Next =>
        set_selected (if count s <=? selected s + rows then count s - 1 else selected s + rows) s
    | XK_Home => set_selected 0 s
    | XK_End => set_selected (count s - 1) s
    | _ => s
    end
  else s.

Definition handle_key (u : ui) (k : key) (s : file_state) : F step :=
  '(s, shown) ←
    (match k with
     | XK_Return | XK_KP_Enter => file_open_selected s
     | XK_BackSpace => s ← file_up s; mret (s, None)
     | XK_F5 => s ← load_directory s; mret (s, None)
     | _ => mret (move_selection (visible_rows u) k s, None)
     end);
  mret (true, keep_selection_visible u s, shown).

(** The state after an event and whether the window is drawn again. *)
Definition handle_event (u : ui) (e : event) (s : file_state) : F (step * bool) :=
  if close_event u e then mret ((false, s, None), false)
  else
    match e with
    | Expose n => mret ((true, s, None), n =? 0)
    | ButtonPress b x y time => r ← press u b x y time s; mret (r, true)
    | KeyPress XK_Escape => mret ((false, s, None), false)
    | KeyPress k => r ← handle_key u k s; mret (r, true)
    | _ => mret ((true, s, None), false)
    end.

(** Whether the loop was left, the calls, and the last state; [None]: a read
    outside the array of entries. *)
Fixpoint file_loop (u : ui) (events : list event) (s : file_state) :
    F (option (bool * list call * file_state)) :=
  match events with
  | [] => mret (Some (false, [], s))
  | e :: events =>
      '(running, s, shown, redraw) ← handle_event u e s;
      let viewed := match shown with Some p => [Spawn_viewer p] | None => [] end in
      match (if redraw : bool then d ← draw_file_manager u s; Some [Draw d] else Some []) with
      | None => mret None
      | Some drawn =>
          if running : bool then
            rest ← file_loop u events s;
            mret ('(stopped, calls, s) ← rest; Some (stopped, viewed ++ drawn ++ calls, s))
          else mret (Some (true, viewed ++ drawn, s))
      end
  end.

(** The state before the first path: all of it zero, but for two members. *)
Definition initial_state : file_state :=
  State [] (replicate (Z.to_nat FILE_MAX_ENTRIES) (Entry [] false false false 0)) 0 (-1) 0 0 (-1) [].

Definition run_file_manager (a : answers) (initial_path : option (list Z)) (events : list event) :
    F (option (run_end * list call)) :=
  match instance_lock a (str "file") with
  | None => mret (Some (Exit 0, []))
  | Some lock =>
      match ui_init a with
      | (None, init) => mret (Some (Exit 1, lock ++ init ++ [Close_lock]))
      | (Some u, init) =>
          s ← file_set_path (default (str "/") initial_path) initial_state;
          let '(u, made) := make_window a u (str "EX-File") 500 276 true false in
          match draw_file_manager u s with
          | None => mret None
          | Some d =>
              rest ← file_loop u events s;
              mret ('(stopped, calls, _) ← rest;
                let calls := lock ++ init ++ made ++ Draw d :: calls in
                Some (if stopped : bool then (Exit 0, calls ++ ui_close ++ [Close_lock])
                      else (Waiting, calls)))
          end
      end
  end.
End Files.
