(* ===== verification/DesktopTimed.v ===== *)
(** * The clock, the eyes and the entry of the desktop programs
      ([src/x11/apps/exdesk.c])

    [unsigned long], [long] and [int] have 32 bits.  The local time and the
    position of the pointer come from the system. *)

From Stdlib Require Import String Ascii.
From S2P Require Import Prelude Text Util Desktop DesktopFiles.

(** ** The clock *)

Definition pattern : list Z := [0x3f; 0x06; 0x5b; 0x4f; 0x66; 0x6d; 0x7d; 0x07; 0x7f; 0x6f].

Definition seven_segment (x y digit : Z) : option (list drawing) :=
  bits ← (if digit <? 0 then None else pattern !! Z.to_nat digit);
  let segment b x y w h := if negb (Z.land bits b =? 0) then fill Light x y w h else [] in
  Some (segment 0x01 (x + 3) y 14 3 ++ segment 0x02 (x + 17) (y + 3) 3 15 ++
        segment 0x04 (x + 17) (y + 20) 3 15 ++ segment 0x08 (x + 3) (y + 35) 14 3 ++
        segment 0x10 x (y + 20) 3 15 ++ segment 0x20 x (y + 3) 3 15 ++
        segment 0x40 (x + 3) (y + 18) 14 3).

Record tm := Tm {
  tm_hour : Z; tm_min : Z; tm_sec : Z; tm_wday : Z; tm_year : Z; tm_mon : Z; tm_mday : Z
}.

(** [strftime] with ["%a %Y-%m-%d"], in the C locale. *)
Definition two_digits (n : Z) : list Z := [48 + n / 10; 48 + n mod 10].
Definition weekday (t : tm) : list Z :=
  nth (Z.to_nat (tm_wday t)) (map str ["Sun"; "Mon"; "Tue"; "Wed"; "Thu"; "Fri"; "Sat"]%string) (str "?").
Definition date_string (t : tm) : list Z :=
  weekday t ++ str " " ++ decimal (tm_year t + 1900) ++ str "-" ++
  two_digits (tm_mon t + 1) ++ str "-" ++ two_digits (tm_mday t).

(** The digits from [index] on, at [x]. *)
Fixpoint draw_digits (values : list Z) (index x : Z) : option (list drawing) :=
  match values with
  | [] => Some []
  | v :: values =>
      d ← seven_segment x 30 v;
      let x := x + 25 in
      let colon := (index =? 1) || (index =? 3) in
      rest ← draw_digits values (index + 1) (if colon then x + 10 else x);
      Some (d ++ (if colon then fill Light x 40 3 3 ++ fill Light x 53 3 3 else []) ++ rest)
  end.

(** [None]: a read outside the patterns. *)
Definition draw_clock (u : ui) (local : option tm) : option (list drawing) :=
  match local with
  | None => Some []
  | Some t =>
      digits ← draw_digits
        [Z.quot (tm_hour t) 10; Z.rem (tm_hour t) 10; Z.quot (tm_min t) 10; Z.rem (tm_min t) 10;
         Z.quot (tm_sec t) 10; Z.rem (tm_sec t) 10] 0 30;
      Some (fill Face 0 0 (width u) (height u) ++ fill Navy 2 2 (width u - 4) 20 ++
            fill Light 2 22 (width u - 4) 1 ++ text Focus_text 7 16 (str "Clock") ++
            digits ++ text Dark 74 84 (date_string t))
  end.

(** ** The eyes *)

(** The loops of [integer_sqrt]; [None] when the fuel runs out. *)
Fixpoint sqrt_start (fuel : nat) (bit value : Z) : option Z :=
  match fuel with
  | O => None
  | S fuel => if value <? bit then sqrt_start fuel (Z.shiftr bit 2) value else Some bit
  end.
Fixpoint sqrt_loop (fuel : nat) (bit value result : Z) : option Z :=
  match fuel with
  | O => None
  | S fuel =>
      if bit =? 0 then Some result
      else
        let '(value, result) :=
          if u32 (result + bit) <=? value
          then (u32 (value - u32 (result + bit)), u32 (Z.shiftr result 1 + bit))
          else (value, Z.shiftr result 1) in
        sqrt_loop fuel (Z.shiftr bit 2) value result
  end.
Definition integer_sqrt (value : Z) : option Z :=
  bit ← sqrt_start 17 (Z.shiftl 1 30) value;
  sqrt_loop 17 bit value 0.

(** The position of the pointer and of the window. *)
Record eyes_input := Eyes { root_x : Z; root_y : Z; window_x : Z; window_y : Z }.
#[export] Instance eyes_input_eq_dec : EqDecision eyes_input.
Proof. solve_decision. Defined.

(** Where the pupil of an eye is drawn. *)
Definition pupil (i : eyes_input) (center_x center_y : Z) : option (Z * Z) :=
  let dx := s32 (root_x i - (window_x i + center_x)) in
  let dy := s32 (root_y i - (window_y i + center_y)) in
  distance ← integer_sqrt (u32 (s32 (s32 (dx * dx) + s32 (dy * dy))));
  Some (if 0 <? distance
        then (s32 (center_x + Z.quot (s32 (dx * 14)) (s32 distance)),
              s32 (center_y + Z.quot (s32 (dy * 10)) (s32 distance)))
        else (center_x, center_y)).

Definition draw_eye (i : eyes_input) (eye : Z) : option (list drawing) :=
  let center_x := if eye =? 0 then 53 else 127 in
  let center_y := 61 in
  '(pupil_x, pupil_y) ← pupil i center_x center_y;
  Some [Fill_arc White (center_x - 28) (center_y - 25) 56 50;
        Draw_arc Black (center_x - 28) (center_y - 25) 56 50;
        Fill_arc Black (pupil_x - 7) (pupil_y - 7) 14 14].

(** The picture for a position. *)
Definition eyes_picture (u : ui) (i : eyes_input) : option (list drawing) :=
  l ← draw_eye i 0;
  r ← draw_eye i 1;
  Some (fill Face 0 0 (width u) (height u) ++ fill Navy 2 2 (width u - 4) 20 ++
        fill Light 2 22 (width u - 4) 1 ++ text Focus_text 7 16 (str "xeyes") ++ l ++ r).

(** The positions drawn last, when they are valid, and the drawing, if any;
    the outer [None]: the root did not end. *)
Definition draw_eyes (u : ui) (force : bool) (i : eyes_input) (previous : option eyes_input) :
    option (option eyes_input * option (list drawing)) :=
  if negb force && bool_decide (previous = Some i) then Some (previous, None)
  else d ← eyes_picture u i; Some (Some i, Some d).

(** ** The loop of both *)

Record timed_state := Timed { running : bool; redraw : bool; obscured : bool }.

(** One event that is waiting. *)
Definition timed_event (u : ui) (s : timed_state) (e : event) : timed_state :=
  if close_event u e then Timed false (redraw s) (obscured s)
  else
    match e with
    | Expose n => if n =? 0 then Timed (running s) true (obscured s) else s
    | VisibilityNotify full => Timed (running s) (if full then redraw s else true) full
    | KeyPress XK_Escape => Timed false (redraw s) (obscured s)
    | _ => s
    end.

(** What a turn of the loop sees: the waiting events, the time and the
    positions. *)
Record turn_input := Turn { waiting : list event; local : option tm; positions : eyes_input }.

(** The state, the positions drawn last and what is drawn. *)
Definition timed_turn (clock_mode : bool) (u : ui) (i : turn_input) (s : timed_state)
    (previous : option eyes_input) : option (timed_state * option eyes_input * option (list drawing)) :=
  let s := foldl (timed_event u) s (waiting i) in
  if negb (running s) then Some (s, previous, None)
  else
    '(previous, d) ←
      (if obscured s then Some (previous, None)
       else if clock_mode then d ← draw_clock u (local i); Some (previous, Some d)
       else draw_eyes u (redraw s) (positions i) previous);
    Some (Timed (running s) false (obscured s), previous, d).

(** Whether the loop was left, and what was drawn. *)
Fixpoint timed_loop (clock_mode : bool) (u : ui) (turns : list turn_input) (s : timed_state)
    (previous : option eyes_input) : option (bool * list call) :=
  match turns with
  | [] => Some (false, [])
  | i :: turns =>
      '(s, previous, d) ← timed_turn clock_mode u i s previous;
      let drawn := match d with Some d => [Draw d] | None => [] end in
      if running s then
        '(stopped, calls) ← timed_loop clock_mode u turns s previous; Some (stopped, drawn ++ calls)
      else Some (true, drawn)
  end.

Definition run_timed_window (mode : list Z) (a : answers) (turns : list turn_input) :
    option (run_end * list call) :=
  let clock_mode := bool_decide (mode = str "xclock") in
  match instance_lock a (if clock_mode then str "clock" else str "eyes") with
  | None => Some (Exit 0, [])
  | Some lock =>
      match ui_init a with
      | (None, init) => Some (Exit 1, lock ++ init ++ [Close_lock])
      | (Some u, init) =>
          let '(u, made) := make_window a u (if clock_mode then str "Clock" else str "Eyes")
            (if clock_mode then 220 else 180) (if clock_mode then 92 else 96) true false in
          '(stopped, drawn) ← timed_loop clock_mode u turns (Timed true true false) None;
          let calls := lock ++ init ++ made ++ drawn in
          Some (if stopped : bool then (Exit 0, calls ++ ui_close ++ [Close_lock]) else (Waiting, calls))
      end
  end.

(** ** The programs *)

(** [events] for the menu and the file manager, [turns] for the others. *)
Definition main {W : Type} `{Files W} `{Qsort} (argv0 : list Z) (argv1 : option (list Z)) (a : answers)
    (events : list event) (turns : list turn_input) : st W (option (run_end * list call)) :=
  let mode := match strrchr argv0 47 with Some slash => drop 1 slash | None => argv0 end in
  if bool_decide (mode = str "exmenu") then mret (run_menu a events)
  else if bool_decide (mode = str "exfile") then
    run_file_manager a (Some (default (str "/") argv1)) events
  else if bool_decide (mode = str "xclock") || bool_decide (mode = str "xeyes") then
    mret (run_timed_window mode a turns)
  else mret (Some (Exit 2, [])).
