(* ===== verification/DesktopFacts.v ===== *)
(** * The desktop programs: theorems on the menu, the clock, the eyes and what
      the programs acquire, release and draw *)

From Stdlib Require Import String Ascii.
From S2P Require Import Prelude Text Util Desktop DesktopFiles DesktopTimed.

(** ** The integer square root *)

Definition four (j : nat) : Z := 2 ^ Z.of_nat j * 2 ^ Z.of_nat j.

Lemma pow2_succ j : 2 ^ Z.of_nat (S j) = 2 * 2 ^ Z.of_nat j.
Proof. rewrite Nat2Z.inj_succ, Z.pow_succ_r; lia. Qed.
Lemma pow2_pos j : 0 < 2 ^ Z.of_nat j.
Proof. apply Z.pow_pos_nonneg; lia. Qed.
Lemma four_succ j : Z.shiftr (four (S j)) 2 = four j.
Proof.
  unfold four. rewrite pow2_succ, Z.shiftr_div_pow2 by lia.
  replace (2 * 2 ^ Z.of_nat j * (2 * 2 ^ Z.of_nat j))
    with (2 ^ Z.of_nat j * 2 ^ Z.of_nat j * 2 ^ 2) by lia.
  by apply Z.div_mul.
Qed.
Lemma four_pos j : 0 < four j.
Proof. unfold four. pose proof (pow2_pos j). nia. Qed.

(** The bit below [four j], which ends the loop after [four 0]. *)
Definition next_bit (j : nat) : Z := match j with O => 0 | S j => four j end.
Lemma four_next j : Z.shiftr (four j) 2 = next_bit j.
Proof. destruct j; [done|apply four_succ]. Qed.

(** [r] is the root found so far: its bits below [2 ^ j] are still zero. *)
Definition sqrt_inv (v r : Z) (j : nat) : Prop :=
  0 <= r ∧ r * r <= v ∧ v < (r + 2 ^ Z.of_nat j) * (r + 2 ^ Z.of_nat j) ∧
  r + 2 ^ Z.of_nat j <= 2 ^ 16.

Lemma sqrt_inv_found v r : sqrt_inv v r 0 → r = Z.sqrt v.
Proof. intros (? & ? & ? & ?). symmetry. apply Z.sqrt_unique. cbn in *. lia. Qed.

(** The bit is in the root exactly when the test of the loop says so. *)
Lemma sqrt_step v r j :
  sqrt_inv v r (S j) → let p := 2 ^ Z.of_nat j in
  u32 (r * 2 ^ Z.of_nat (S j) + four j) = 2 * r * p + p * p ∧
  if 2 * r * p + p * p <=? v - r * r then sqrt_inv v (r + p) j else sqrt_inv v r j.
Proof.
  intros (Hr & Hlo & Hhi & Hmax) p. pose proof (pow2_pos j) as Hp. fold p in Hp.
  rewrite pow2_succ in *. fold p in Hhi, Hmax |- *. unfold four. fold p.
  change (2 ^ 16) with 65536 in *. split.
  - rewrite u32_small; [lia|]. split; [nia|]. change (2 ^ 32) with (65536 * 65536). nia.
  - unfold sqrt_inv. fold p. case_goal; to_prop; repeat split; nia.
Qed.

Lemma sqrt_loop_spec v j r fuel :
  is_u 32 v → sqrt_inv v r j → (j < fuel)%nat →
  sqrt_loop fuel (next_bit j) (v - r * r) (r * 2 ^ Z.of_nat j) = Some (Z.sqrt v).
Proof.
  intros Hv. revert r fuel. induction j as [|j IH]; intros r [|fuel] Hinv Hfuel; try lia.
  - cbn. rewrite (sqrt_inv_found v r Hinv). f_equal. lia.
  - cbn [sqrt_loop next_bit]. pose proof (four_pos j). rewrite (proj2 (Z.eqb_neq _ _)) by lia.
    rewrite four_next. pose proof Hinv as (Hr & Hlo & Hhi & Hmax).
    destruct (sqrt_step v r j Hinv) as [-> Hnext]. pose proof (pow2_pos j).
    assert (Z.shiftr (r * 2 ^ Z.of_nat (S j)) 1 = r * 2 ^ Z.of_nat j) as ->.
    { rewrite Z.shiftr_div_pow2, pow2_succ by lia.
      replace (r * (2 * 2 ^ Z.of_nat j)) with (r * 2 ^ Z.of_nat j * 2 ^ 1) by lia. by apply Z.div_mul. }
    set (p := 2 ^ Z.of_nat j) in *. revert Hnext.
    destruct (Z.leb_spec (2 * r * p + p * p) (v - r * r)); intros Hnext; [|apply (IH r); [exact Hnext|lia]].
    pose proof Hnext as (_ & _ & _ & Hmax').
    fold p in Hmax'. change (2 ^ 16) with 65536 in Hmax'.
    rewrite (u32_small (v - r * r - _)) by (unfold is_u in *; nia).
    rewrite (u32_small (_ + four j)).
    + replace (v - r * r - (2 * r * p + p * p)) with (v - (r + p) * (r + p)) by lia.
      replace (r * p + four j) with ((r + p) * p) by (unfold four; fold p; lia).
      apply IH; [done|lia].
    + unfold four. fold p. split; [nia|]. change (2 ^ 32) with (65536 * 65536). nia.
Qed.

Lemma sqrt_start_spec v j fuel :
  0 <= v < four (S j) → (j < fuel)%nat → v = 0 ∨
  ∃ k, (k <= j)%nat ∧ sqrt_start fuel (four j) v = Some (four k) ∧ four k <= v < four (S k).
Proof.
  revert fuel. induction j as [|j IH]; intros [|fuel] Hv Hfuel; try lia; cbn [sqrt_start].
  - destruct (Z.ltb_spec v (four 0)) as [Hlt|?]; [left; change (four 0) with 1 in *; lia|]. right. exists 0%nat. repeat split; lia || done.
  - destruct (Z.ltb_spec v (four (S j))); [|right; exists (S j); repeat split; lia || done].
    rewrite four_succ. destruct (IH fuel) as [|(k & ? & Hk & ?)]; [lia|lia|by left|].
    right. exists k. repeat split; try done; lia.
Qed.

(** [integer_sqrt] ends with the root rounded down, for every value of
    [unsigned long]. *)
Theorem integer_sqrt_exact v : is_u 32 v → integer_sqrt v = Some (Z.sqrt v).
Proof.
  intros Hv. unfold integer_sqrt. change (Z.shiftl 1 30) with (four 15).
  destruct (sqrt_start_spec v 15 17) as [->|(k & Hk & -> & Hlo & Hhi)]; [done|lia|done|].
  cbn [mbind option_bind]. pose proof (sqrt_loop_spec v (S k) 0 17 Hv) as Hloop.
  rewrite Z.sub_0_r, Z.mul_0_l in Hloop. apply Hloop; [|lia].
  unfold sqrt_inv, four in *. rewrite Z.add_0_l. repeat split; [lia|lia|lia|].
  transitivity (2 ^ Z.of_nat 16); [|done]. apply Z.pow_le_mono_r; lia.
Qed.
Lemma integer_sqrt_exact_witness : integer_sqrt 4294967295 = Some 65535.
Proof. apply (integer_sqrt_exact 4294967295). done. Defined.

(** ** The pupils *)

(** A position that X can report of a screen. *)
Definition on_screen (i : eyes_input) : Prop :=
  - 2 ^ 13 <= root_x i <= 2 ^ 13 ∧ - 2 ^ 13 <= root_y i <= 2 ^ 13 ∧
  - 2 ^ 13 <= window_x i <= 2 ^ 13 ∧ - 2 ^ 13 <= window_y i <= 2 ^ 13.

(** A share of [n] of a coordinate over the distance stays within [n] and on
    the side of the coordinate. *)
Lemma quot_share d x n : 0 < d → Z.abs x <= d → 0 <= n →
  Z.abs (Z.quot (x * n) d) <= n ∧ 0 <= Z.quot (x * n) d * x.
Proof.
  intros Hd Hx Hn. destruct (Z.le_gt_cases 0 x) as [Hpos|Hneg].
  - assert (0 <= Z.quot (x * n) d <= n); [|split; nia].
    split; [apply Z.quot_pos; nia|]. rewrite Z.quot_div_nonneg by nia.
    apply Z.div_le_upper_bound; nia.
  - replace (x * n) with (- (- x * n)) by lia. rewrite Z.quot_opp_l by lia.
    assert (0 <= Z.quot (- x * n) d <= n); [|split; nia].
    split; [apply Z.quot_pos; nia|]. rewrite Z.quot_div_nonneg by nia.
    apply Z.div_le_upper_bound; nia.
Qed.

Lemma abs_sqrt x y : Z.abs x <= Z.sqrt (x * x + y * y).
Proof. apply Z.sqrt_le_square; [nia|lia|]. nia. Qed.

Lemma pupil_spec i cx cy :
  on_screen i → 0 <= cx <= 200 → 0 <= cy <= 200 →
  ∃ px py, pupil i cx cy = Some (px, py) ∧ Z.abs (px - cx) <= 14 ∧ Z.abs (py - cy) <= 10 ∧
    0 <= (px - cx) * (root_x i - (window_x i + cx)) ∧ 0 <= (py - cy) * (root_y i - (window_y i + cy)).
Proof.
  intros (? & ? & ? & ?) Hcx Hcy. unfold pupil. change (2 ^ 13) with 8192 in *.
  set (dx := root_x i - (window_x i + cx)) in *. set (dy := root_y i - (window_y i + cy)) in *.
  assert (Z.abs dx <= 16584) as Hdx by lia. assert (Z.abs dy <= 16584) as Hdy by lia. clearbody dx dy.
  rewrite (s32_small dx), (s32_small dy) by lia.
  rewrite (s32_small (dx * dx)), (s32_small (dy * dy)) by nia. rewrite (s32_small (_ + _)) by nia.
  rewrite u32_small by (unfold is_u; change (2 ^ 32) with 4294967296; nia).
  rewrite integer_sqrt_exact by (unfold is_u; change (2 ^ 32) with 4294967296; nia).
  cbn [mbind option_bind]. pose proof (abs_sqrt dx dy) as Hx.
  pose proof (abs_sqrt dy dx) as Hy. rewrite (Z.add_comm (dy * dy)) in Hy.
  assert (Z.sqrt (dx * dx + dy * dy) <= 33168) as Hd.
  { transitivity (Z.sqrt (33168 * 33168)); [apply Z.sqrt_le_mono; nia|]. by rewrite Z.sqrt_square. }
  set (d := Z.sqrt _) in *. clearbody d. case_goal; to_prop.
  - rewrite (s32_small d), (s32_small (dx * 14)), (s32_small (dy * 10)) by lia.
    destruct (quot_share d dx 14) as [Hqx Hsx]; [lia..|]. destruct (quot_share d dy 10) as [Hqy Hsy]; [lia..|].
    rewrite !s32_small by lia. eexists _, _. split; [done|]. repeat split; lia.
  - exists cx, cy. split; [done|]. repeat split; lia.
Qed.

(** ** Drawing stays in the window *)

(** The width of a character of the font. *)
Definition char_width : Z := 6.

(** The line of the file manager for messages: it is drawn whole, up to the 95
    characters of [message], and may leave the window on the right. *)
Definition message_line (h : Z) (c : colour) (x baseline : Z) (s : list Z) : Prop :=
  c = Dark ∧ x = 6 ∧ baseline = h - 6 ∧ zlen s < 96.

(** A request touches only pixels of a window of [w] by [h]; the characters of
    a text are between its left and its right edge, on a line of it. *)
Definition inside (w h : Z) (d : drawing) : Prop :=
  match d with
  | Fill_rectangle _ x y rw rh | Fill_arc _ x y rw rh => 0 <= x ∧ 0 <= y ∧ x + rw <= w ∧ y + rh <= h
  | Draw_rectangle _ x y rw rh | Draw_arc _ x y rw rh => 0 <= x ∧ 0 <= y ∧ x + rw < w ∧ y + rh < h
  | Draw_string c x baseline s =>
      0 <= x ∧ 0 <= baseline < h ∧ (x + char_width * zlen s <= w ∨ message_line h c x baseline s)
  end.

(** The font fits the buttons, and its characters are of one width. *)
Definition font_fits (u : ui) : Prop :=
  0 <= ascent u ∧ 0 <= descent u ∧ ascent u + descent u <= 22 ∧
  ∀ s, text_width u s = char_width * zlen s.

Create HintDb inside.

Lemma fill_inside w h c x y rw rh :
  0 <= x → 0 <= y → x + rw <= w → y + rh <= h → Forall (inside w h) (fill c x y rw rh).
Proof. intros. unfold fill. case_goal; [constructor|]. by repeat constructor. Qed.
Lemma bevel_inside w h x y rw rh b :
  0 <= x → 0 <= y → x + rw <= w → y + rh <= h → Forall (inside w h) (bevel x y rw rh b).
Proof. intros. unfold bevel. case_goal; [constructor|]. repeat constructor; lia. Qed.
Lemma text_n_inside w h c x y s n :
  0 <= x → 0 <= y < h → x + char_width * n <= w → Forall (inside w h) (text_n c x y s n).
Proof.
  intros. unfold text_n. case_goal; [constructor|]. to_prop.
  apply Forall_singleton. split_and!; [done|lia..|left].
  unfold char_width, zlen in *. rewrite length_take. lia.
Qed.
Lemma text_inside w h c x y s :
  0 <= x → 0 <= y < h → x + char_width * zlen s <= w → Forall (inside w h) (text c x y s).
Proof. apply text_n_inside. Qed.
Lemma button_inside w h u x y rw rh s b :
  font_fits u → 0 <= x → 0 <= y → x + rw <= w → y + rh < h → 22 <= rh → char_width * zlen s <= rw →
  Forall (inside w h) (button u x y rw rh s b).
Proof.
  intros (Ha & Hd & Hf & Htw) ? ? ? ? ? ?. unfold button. rewrite Htw, !Forall_app.
  assert (0 <= char_width * zlen s) by (unfold char_width, zlen; lia).
  rewrite !Z.quot_div_nonneg by lia. split_and!.
  - apply fill_inside; lia.
  - apply bevel_inside; lia.
  - pose proof (Z.div_pos (rw - char_width * zlen s) 2). pose proof (Z.mul_div_le (rw - char_width * zlen s) 2).
    pose proof (Z.div_pos (rh - (ascent u + descent u)) 2).
    pose proof (Z.mul_div_le (rh - (ascent u + descent u)) 2). apply text_inside; lia.
Qed.
Lemma segment_inside w h (b : bool) c x y rw rh :
  0 <= x → 0 <= y → x + rw <= w → y + rh <= h →
  Forall (inside w h) (if b then fill c x y rw rh else []).
Proof. destruct b; [apply fill_inside|constructor]. Qed.
Lemma inside_app w h l k :
  Forall (inside w h) l → Forall (inside w h) k → Forall (inside w h) (l ++ k).
Proof. intros. by apply Forall_app. Qed.
#[export] Hint Resolve fill_inside bevel_inside text_n_inside text_inside button_inside
  segment_inside inside_app Forall_nil_2 : inside.
#[export] Hint Extern 4 (_ <= _) => lia : inside.
#[export] Hint Extern 4 (_ < _) => lia : inside.
#[export] Hint Extern 4 (_ <= _ < _) => lia : inside.
#[export] Hint Extern 5 (_ + char_width * zlen (str _) <= _) => by vm_compute : inside.
#[export] Hint Extern 5 (char_width * zlen (str _) <= _) => by vm_compute : inside.

(** What a loop on a window does: it draws in it, or starts a viewer. *)
Definition window_call (u : ui) (c : call) : Prop :=
  match c with
  | Draw d => Forall (inside (width u) (height u)) d
  | Spawn_viewer _ => True
  | _ => False
  end.

(** *** The menu *)

(** The window that [run_menu] makes. *)
Definition menu_window (u : ui) : Prop := width u = 190 ∧ height u = 294.

(** The labels end before the right edge. *)
Lemma menu_labels_fit : Forall (λ item, 12 + char_width * zlen (label item) <= 190) menu_items.
Proof. repeat (constructor; [by vm_compute|]). constructor. Qed.

Lemma draw_menu_inside u hover : menu_window u → Forall (inside (width u) (height u)) (draw_menu u hover).
Proof.
  intros [Hw Hh]. unfold draw_menu. rewrite Hw, Hh. do 2 (apply inside_app; [auto with inside|]).
  apply Forall_concat, Forall_lookup. intros i d Hd.
  rewrite list_lookup_imap in Hd. destruct (menu_items !! i) as [item|] eqn:Hi; [|done].
  injection Hd as <-. pose proof (proj1 (Forall_lookup _ _) menu_labels_fit i item Hi) as Hlabel.
  cbn beta in Hlabel. apply lookup_lt_Some in Hi. change (length menu_items) with 13%nat in Hi.
  unfold draw_menu_item. rewrite Hw. auto with inside.
Qed.

(** The pixel is in the row of the item. *)
Definition in_row (w : Z) (i : nat) (x y : Z) : Prop :=
  4 <= x < w - 4 ∧ 4 + Z.of_nat i * 22 <= y < 4 + Z.of_nat i * 22 + 22.

Lemma menu_index_at_range x y w : -1 <= menu_index_at x y w < menu_count.
Proof. unfold menu_index_at. repeat case_goal; to_prop; try lia; change menu_count with 13 in *; lia. Qed.
Lemma menu_index_at_row x y w (i : nat) : menu_index_at x y w = Z.of_nat i → in_row w i x y.
Proof.
  unfold menu_index_at, in_row. case_goal; [lia|]. to_prop. rewrite Z.quot_div_nonneg by lia.
  case_goal; [lia|]. intros Hi. pose proof (Z.div_mod (y - 4) 22). pose proof (Z.mod_pos_bound (y - 4) 22). lia.
Qed.

Lemma command_at_spec i : 0 <= i < menu_count →
  ∃ n item, i = Z.of_nat n ∧ menu_items !! n = Some item ∧ command_at i = Some (command item).
Proof.
  intros Hi. unfold command_at. rewrite (proj2 (Z.ltb_ge _ _)) by lia.
  destruct (lookup_lt_is_Some_2 menu_items (Z.to_nat i)) as [item Hitem].
  { change (length menu_items) with 13%nat. change menu_count with 13 in Hi. lia. }
  exists (Z.to_nat i), item. rewrite Hitem. split_and!; [lia|done|done].
Qed.

(** The last picture among the calls. *)
Definition screen : list drawing → list call → list drawing :=
  foldl (λ p c, match c with Draw (d :: l) => d :: l | _ => p end).

Lemma screen_app p l k : screen p (l ++ k) = screen (screen p l) k.
Proof. apply foldl_app. Qed.
Lemma draw_menu_screen u hover p l :
  menu_window u → screen p (Draw (draw_menu u hover) :: l) = screen (draw_menu u hover) l.
Proof. intros [Hw Hh]. unfold draw_menu. by rewrite Hw, Hh. Qed.

(** The item whose command [c] is was pointed at or shown as selected. *)
Definition item_chosen (u : ui) (events : list event) (picture : list drawing) (c : list Z) : Prop :=
  ∃ (i : nat) item, menu_items !! i = Some item ∧ command item = Some c ∧
    ((∃ x y t, ButtonPress Button1 x y t ∈ events ∧ in_row (width u) i x y) ∨
     ((KeyPress XK_Return ∈ events ∨ KeyPress XK_KP_Enter ∈ events) ∧
      picture = draw_menu u (Z.of_nat i))).

Lemma item_chosen_cons u e events p c : item_chosen u events p c → item_chosen u (e :: events) p c.
Proof. unfold item_chosen. set_solver. Qed.

(** One event: the next selection is a row or none, and is the one drawn. *)
Lemma menu_event_spec u hover e :
  menu_window u → -1 <= hover < menu_count →
  match menu_event u hover e with
  | Some (Stay hover', d) =>
      -1 <= hover' < menu_count ∧ (hover' = hover ∧ d = [] ∨ d = draw_menu u hover')
  | Some (Leave c, d) => ∀ c', c = Some c' → item_chosen u [e] (draw_menu u hover) c'
  | None => False
  end.
Proof.
  intros Hu Hhover. assert (menu_count = 13) as Hcount by done.
  destruct e as [n|x y|b x y t|k|l0|full|]; cbn [menu_event]; try (split; [lia|by auto]).
  - case_goal; split; auto; lia.
  - destruct (Z.eqb_spec (menu_index_at x y (width u)) hover); [by auto|].
    split; [apply menu_index_at_range|by auto].
  - destruct ((b =? Button1) && _) eqn:Hb; [|done].
    apply andb_true_iff in Hb as [->%Z.eqb_eq Hi%Z.leb_le].
    destruct (command_at_spec (menu_index_at x y (width u))) as (n & item & Hn & Hitem & ->).
    { pose proof (menu_index_at_range x y (width u)). lia. }
    cbn. intros c' Hc. exists n, item. split_and!; [done|done|left].
    exists x, y, t. split; [set_solver|by apply menu_index_at_row].
  - assert (∀ k', k = k' → k' = XK_Return ∨ k' = XK_KP_Enter → 0 <= hover →
      ∃ item, command_at hover = Some (command item) ∧
        ∀ c', command item = Some c' → item_chosen u [KeyPress k'] (draw_menu u hover) c') as Hreturn.
    { intros k' -> Hk ?. destruct (command_at_spec hover) as (n & item & Hn & Hitem & ->); [lia|].
      exists item. split; [done|]. intros c' Hc. exists n, item. split_and!; [done|done|right].
      split; [destruct Hk as [->| ->]; set_solver|by rewrite Hn]. }
    destruct k; try (split; [lia|by auto]); try done.
    + destruct (Z.ltb_spec (hover - 1) 0); split; auto; lia.
    + destruct (Z.leb_spec menu_count (hover + 1)); split; auto; lia.
    + destruct (Z.leb_spec 0 hover); [|by auto]. destruct (Hreturn _ eq_refl) as (item & -> & Hc); auto.
    + destruct (Z.leb_spec 0 hover); [|by auto]. destruct (Hreturn _ eq_refl) as (item & -> & Hc); auto.
Qed.

Lemma menu_loop_spec u events : menu_window u → ∀ hover, -1 <= hover < menu_count →
  ∃ chosen calls, menu_loop u hover events = Some (chosen, calls) ∧ Forall (window_call u) calls ∧
    ∀ c, chosen = Some (Some c) → item_chosen u events (screen (draw_menu u hover) calls) c.
Proof.
  intros Hu. induction events as [|e events IH]; intros hover Hhover; [by eexists _, _|].
  cbn [menu_loop]. pose proof (menu_event_spec u hover e Hu Hhover) as He.
  destruct (menu_event u hover e) as [[[hover'|c] d]|] eqn:Hev; [| |done]; cbn [mbind option_bind].
  - destruct He as [Hhover' Hd]. destruct (IH hover' Hhover') as (chosen & calls & -> & Hcalls & Hc).
    cbn [mbind option_bind]. eexists _, _. split; [done|]. split.
    + constructor; [|done]. cbn. destruct Hd as [[_ ->]| ->]; [constructor|by apply draw_menu_inside].
    + intros c ->. apply item_chosen_cons. specialize (Hc c eq_refl).
      destruct Hd as [[-> ->]| ->]; [done|].
      by rewrite draw_menu_screen.
  - eexists _, _. split; [done|]. split; [constructor|]. intros c' [= ->].
    destruct (He c' eq_refl) as (i & item & ? & ? & Hor). exists i, item. set_solver.
Qed.

(** *** The clock *)

(** What [localtime] fills in. *)
Definition tm_ok (t : tm) : Prop :=
  0 <= tm_hour t <= 23 ∧ 0 <= tm_min t <= 59 ∧ 0 <= tm_sec t <= 60 ∧ 0 <= tm_year t + 1900 <= 9999.
Definition clock_window (u : ui) : Prop := width u = 220 ∧ height u = 92.

Lemma seven_segment_ok x v : 0 <= v < 10 → 0 <= x → x + 20 <= 220 →
  ∃ d, seven_segment x 30 v = Some d ∧ Forall (inside 220 92) d.
Proof.
  intros Hv ? ?. unfold seven_segment. rewrite (proj2 (Z.ltb_ge _ _)) by lia.
  destruct (lookup_lt_is_Some_2 pattern (Z.to_nat v)) as [bits ->].
  { change (length pattern) with 10%nat. lia. }
  cbn [mbind option_bind]. eexists. split; [done|]. repeat apply inside_app; auto with inside.
Qed.

Lemma draw_digits_ok a b c d e f : Forall (λ v, 0 <= v < 10) [a; b; c; d; e; f] →
  ∃ l, draw_digits [a; b; c; d; e; f] 0 30 = Some l ∧ Forall (inside 220 92) l.
Proof.
  rewrite !Forall_cons. intros Hv.
  cbv [draw_digits orb Z.eqb Z.add Pos.eqb Pos.add Pos.add_carry Pos.succ].
  repeat match goal with
  | |- context [seven_segment ?x 30 ?v] =>
      let l := fresh "l" in
      destruct (seven_segment_ok x v) as (l & -> & ?); [lia..|]; cbn [mbind option_bind]
  end.
  eexists. split; [done|]. repeat apply inside_app; auto with inside.
Qed.

Lemma digits_ok n : 0 <= n < 100 → 0 <= n / 10 < 10 ∧ 0 <= n mod 10 < 10.
Proof.
  intros Hn. split; [|by apply Z.mod_pos_bound].
  split; [apply Z.div_pos; lia|apply Z.div_lt_upper_bound; lia].
Qed.
(** The date has at most 14 characters. *)
Lemma date_string_short t : 0 <= tm_year t + 1900 <= 9999 → zlen (date_string t) <= 14.
Proof.
  intros Hyear. assert (length (weekday t) <= 3)%nat as Hday.
  { unfold weekday. set (names := map str _). assert (Forall (λ n, length n <= 3)%nat (str "?" :: names)) as Hall.
    { repeat (constructor; [by vm_compute; lia|]). constructor. }
    rewrite Forall_forall in Hall. apply Hall.
    destruct (nth_in_or_default (Z.to_nat (tm_wday t)) names (str "?")) as [Hin| ->]; [|by left].
    right. by apply list_elem_of_In. }
  assert (length (decimal (tm_year t + 1900)) <= 4)%nat.
  { apply decimal_digits_length. change (10 ^ Z.of_nat 4) with 10000. lia. }
  unfold date_string, zlen, two_digits. rewrite !length_app. cbn [length].
  change (length (str " ")) with 1%nat. change (length (str "-")) with 1%nat. lia.
Qed.
Lemma draw_clock_ok u local : clock_window u → (∀ t, local = Some t → tm_ok t) →
  ∃ d, draw_clock u local = Some d ∧ Forall (inside (width u) (height u)) d.
Proof.
  intros [Hw Hh] Ht. destruct local as [t|]; [|by exists []]. destruct (Ht t eq_refl) as (? & ? & ? & Hyear).
  pose proof (date_string_short t Hyear) as Hdate. unfold draw_clock. rewrite Hw, Hh.
  destruct (draw_digits_ok (Z.quot (tm_hour t) 10) (Z.rem (tm_hour t) 10) (Z.quot (tm_min t) 10)
    (Z.rem (tm_min t) 10) (Z.quot (tm_sec t) 10) (Z.rem (tm_sec t) 10)) as (l & -> & Hl).
  { rewrite !Z.quot_div_nonneg, !Z.rem_mod_nonneg by lia.
    rewrite !Forall_cons. split_and!; try apply digits_ok; try lia. by apply Forall_nil. }
  cbn [mbind option_bind]. eexists. split; [done|].
  assert (74 + char_width * zlen (date_string t) <= 220) by (unfold char_width; lia).
  repeat apply inside_app; auto with inside.
Qed.

(** *** The eyes *)

Definition eyes_window (u : ui) : Prop := width u = 180 ∧ height u = 96.

Lemma draw_eye_ok i eye : on_screen i → ∃ d, draw_eye i eye = Some d ∧ Forall (inside 180 96) d.
Proof.
  intros Hi. unfold draw_eye. set (cx := if eye =? 0 then 53 else 127).
  assert (cx = 53 ∨ cx = 127) as Hcx by (unfold cx; case_goal; auto). clearbody cx.
  destruct (pupil_spec i cx 61 Hi) as (px & py & -> & ? & ? & _); [lia..|].
  cbn [mbind option_bind]. eexists. split; [done|]. repeat constructor; lia.
Qed.
Lemma eyes_picture_ok u i : eyes_window u → on_screen i →
  ∃ d, eyes_picture u i = Some d ∧ Forall (inside (width u) (height u)) d.
Proof.
  intros [Hw Hh] Hi. unfold eyes_picture. rewrite Hw, Hh.
  destruct (draw_eye_ok i 0 Hi) as (l & -> & Hl). destruct (draw_eye_ok i 1 Hi) as (r & -> & Hr).
  cbn [mbind option_bind]. eexists. split; [done|]. repeat apply inside_app; auto with inside.
Qed.

(** *** The loop of both *)

(** What the system answers in a turn is what it can answer. *)
Definition turn_ok (i : turn_input) : Prop := (∀ t, local i = Some t → tm_ok t) ∧ on_screen (positions i).
Definition timed_window (clock_mode : bool) (u : ui) : Prop :=
  if clock_mode then clock_window u else eyes_window u.

Lemma timed_turn_ok clock_mode u i s previous :
  timed_window clock_mode u → turn_ok i →
  ∃ s' previous' d, timed_turn clock_mode u i s previous = Some (s', previous', d) ∧
    ∀ l, d = Some l → Forall (inside (width u) (height u)) l.
Proof.
  intros Hu [Ht Hp]. unfold timed_turn. set (s' := foldl _ _ _).
  case_goal; [by eexists _, _, _|]. destruct (obscured s'); [by eexists _, _, _|].
  destruct clock_mode.
  - destruct (draw_clock_ok u (local i) Hu Ht) as (d & -> & Hd). cbn.
    eexists _, _, _. split; [done|]. by intros l [= <-].
  - destruct (eyes_picture_ok u (positions i) Hu Hp) as (d & Hpic & Hd). unfold draw_eyes.
    rewrite Hpic. case_goal; cbn; eexists _, _, _; (split; [done|]); [done|by intros l [= <-]].
Qed.

Lemma timed_loop_ok clock_mode u turns : timed_window clock_mode u → Forall turn_ok turns →
  ∀ s previous, ∃ stopped calls, timed_loop clock_mode u turns s previous = Some (stopped, calls) ∧
    Forall (window_call u) calls.
Proof.
  intros Hu. induction 1 as [|i turns Hi _ IH]; intros s previous; [by eexists _, _|].
  cbn [timed_loop]. destruct (timed_turn_ok clock_mode u i s previous Hu Hi) as (s' & p' & d & -> & Hd).
  cbn [mbind option_bind].
  assert (Forall (window_call u) (match d with Some d => [Draw d] | None => [] end)) as Hdrawn.
  { destruct d as [l|]; [|done]. repeat constructor. by apply Hd. }
  destruct (running s'); [|by eexists _, _].
  destruct (IH s' p') as (stopped & calls & -> & Hcalls). cbn. eexists _, _. split; [done|].
  by apply Forall_app.
Qed.

(** ** The eyes look at the pointer *)

(** The events lose what the window showed. *)
Definition damages (e : event) : bool :=
  match e with Expose n => n =? 0 | VisibilityNotify _ => true | _ => false end.

(** A run of turns with what the window shows: the last picture, unless the
    server has lost it. *)
Definition watch (u : ui) (r : option (timed_state * option eyes_input * option (list drawing)))
    (i : turn_input) : option (timed_state * option eyes_input * option (list drawing)) :=
  '(s, previous, shown) ← r;
  '(s, previous, d) ← timed_turn false u i s previous;
  Some (s, previous, match d with
                     | Some d => Some d
                     | None => if existsb damages (waiting i) then None else shown
                     end).
Definition watch_all (u : ui) (turns : list turn_input) :
    option (timed_state * option eyes_input * option (list drawing)) :=
  foldl (watch u) (Some (Timed true true false, None, None)) turns.

(** Without a redraw to come, the window is as hidden as before and has lost
    nothing. *)
Lemma timed_events_redraw u events s : redraw (foldl (timed_event u) s events) = false →
  redraw s = false ∧ (obscured (foldl (timed_event u) s events) = false →
    obscured s = false ∧ existsb damages events = false).
Proof.
  revert s. induction events as [|e events IH]; intros s Hr; [done|]. cbn [foldl] in *.
  destruct (IH _ Hr) as [He Hvis]. clear IH Hr. revert He Hvis. cbn [existsb]. unfold timed_event.
  destruct s as [run red obs].
  destruct e as [n| | |k|l0|full|]; cbn;
    repeat match goal with
    | |- context [if ?b then _ else _] => is_var b; destruct b; cbn
    | |- context [if ?b =? ?c then _ else _] => destruct (b =? c); cbn
    | k : key |- _ => destruct k; cbn
    end; try done; intros He Hvis; (split; [done|]); intros Ho; destruct (Hvis Ho) as [? Hrest]; try done;
    by rewrite ?Hrest.
Qed.

Lemma timed_events_running u events s :
  running (foldl (timed_event u) s events) = true → running s = true.
Proof.
  revert s. induction events as [|e events IH]; intros s Hr; [done|].
  apply IH in Hr. revert Hr. unfold timed_event. repeat case_match; done.
Qed.

(** The picture belongs to the positions drawn last. *)
Definition shows (u : ui) (previous : option eyes_input) (shown : option (list drawing)) : Prop :=
  ∃ p, previous = Some p ∧ shown = eyes_picture u p.
Definition watch_inv (u : ui) (r : timed_state * option eyes_input * option (list drawing)) : Prop :=
  let '(s, previous, shown) := r in
  running s = true →
  (shown = None ∨ shows u previous shown) ∧
  (redraw s = true ∨ obscured s = true ∨ shows u previous shown).

(** A turn keeps the invariant, and a window in view shows the position of the
    turn. *)
Lemma watch_step u i r : eyes_window u → turn_ok i → watch_inv u r →
  ∃ s previous shown, watch u (Some r) i = Some (s, previous, shown) ∧ watch_inv u (s, previous, shown) ∧
    (running s = true → obscured s = false → shown = eyes_picture u (positions i)).
Proof.
  destruct r as [[s previous] shown]. intros Hu [_ Hp] Hinv. cbn in Hinv.
  destruct (eyes_picture_ok u (positions i) Hu Hp) as (d & Hd & _).
  cbn [watch mbind option_bind]. unfold timed_turn.
  pose proof (timed_events_redraw u (waiting i) s) as Hredraw.
  pose proof (timed_events_running u (waiting i) s) as Hrunning.
  set (s' := foldl _ _ _) in *. destruct (running s') eqn:Hrun; cbn [negb].
  2: { cbn. eexists _, _, _. split; [done|]. split; [|by rewrite Hrun]. cbn. by rewrite Hrun. }
  destruct (Hinv (Hrunning eq_refl)) as [Hshown Hcur].
  assert (∀ b : bool, (if b then None else shown) = None ∨ shows u previous (if b then None else shown)) as Hold.
  { intros [|]; auto. }
  destruct (obscured s') eqn:Hobs; cbn [mbind option_bind].
  { eexists _, _, _. split; [done|]. split; [|done]. cbn. auto. }
  unfold draw_eyes. rewrite Hd.
  destruct (negb (redraw s') && _) eqn:Hdec; cbn [mbind option_bind]; eexists _, _, _; (split; [done|]).
  - apply andb_true_iff in Hdec as [Hr%negb_true_iff Heq%bool_decide_eq_true].
    destruct (Hredraw Hr) as [Hr' Hsame]. destruct (Hsame eq_refl) as [Ho ->].
    destruct Hcur as [?|[?|(p & Hprev & ->)]]; [congruence|congruence|]. rewrite Heq in Hprev.
    injection Hprev as <-. split; [|done]. intros _. split; [|right]; right; by exists (positions i).
  - split; [|done]. intros _. split; [|right]; right; by exists (positions i).
Qed.

(** Both pupils of a picture are near the centres of their eyes, on the side of
    the pointer. *)
Definition eyes_look_at (i : eyes_input) (picture : list drawing) : Prop :=
  ∀ cx, cx = 53 ∨ cx = 127 → ∃ px py,
    Fill_arc White (cx - 28) 36 56 50 ∈ picture ∧ Fill_arc Black (px - 7) (py - 7) 14 14 ∈ picture ∧
    Z.abs (px - cx) <= 14 ∧ Z.abs (py - 61) <= 10 ∧
    0 <= (px - cx) * (root_x i - (window_x i + cx)) ∧ 0 <= (py - 61) * (root_y i - (window_y i + 61)).

Lemma eyes_picture_pupils u i picture :
  on_screen i → eyes_picture u i = Some picture → eyes_look_at i picture.
Proof.
  intros Hi. unfold eyes_picture, draw_eye. cbn [Z.eqb].
  destruct (pupil_spec i 53 61 Hi) as (lx & ly & -> & Hl); [lia..|].
  destruct (pupil_spec i 127 61 Hi) as (rx & ry & -> & Hr); [lia..|].
  cbn [mbind option_bind]. intros [= <-] cx [->| ->].
  - exists lx, ly. split_and!; try apply Hl; apply elem_of_app; right; rewrite !elem_of_app; set_solver.
  - exists rx, ry. split_and!; try apply Hr; apply elem_of_app; right; rewrite !elem_of_app; set_solver.
Qed.

Lemma watch_all_inv u turns : eyes_window u → Forall turn_ok turns →
  ∃ r, watch_all u turns = Some r ∧ watch_inv u r.
Proof.
  intros Hu. unfold watch_all. induction turns as [|i turns IH] using rev_ind; intros Hturns.
  { eexists. split; [done|]. cbn. auto. }
  apply Forall_app in Hturns as [Hturns [Hi _]%Forall_cons]. destruct (IH Hturns) as (r & Hr & Hinv).
  rewrite foldl_app, Hr. cbn [foldl].
  destruct (watch_step u i r Hu Hi Hinv) as (s & previous & shown & -> & Hinv' & _). eauto.
Qed.

(** While the window of the eyes is in view and the program runs, what it
    shows is the picture for the position of the pointer and of the window in
    the last turn, though turns without a change draw nothing; the pupils of
    the picture are in the whites of the eyes, on the side of the pointer. *)
Theorem eyes_current u turns i :
  eyes_window u → Forall turn_ok turns → turn_ok i →
  ∃ s previous shown, watch_all u (turns ++ [i]) = Some (s, previous, shown) ∧
    (running s = true → obscured s = false →
     ∃ picture, shown = Some picture ∧ eyes_picture u (positions i) = Some picture ∧
       eyes_look_at (positions i) picture).
Proof.
  intros Hu Hturns Hi. destruct (watch_all_inv u turns Hu Hturns) as (r & Hr & Hinv).
  unfold watch_all in *. rewrite foldl_app, Hr. cbn [foldl].
  destruct (watch_step u i r Hu Hi Hinv) as (s & previous & shown & -> & _ & Hshown).
  exists s, previous, shown. split; [done|]. intros Hrun Hobs. rewrite (Hshown Hrun Hobs).
  destruct (eyes_picture_ok u (positions i) Hu (proj2 Hi)) as (picture & Hpicture & _).
  exists picture. split_and!; [done|done|]. by apply (eyes_picture_pupils u (positions i) picture (proj2 Hi)).
Qed.

(** A window of the eyes. *)
Definition some_eyes : ui := Ui 0 10 2 (λ s, 6 * zlen s) 180 96.
Definition pointer_at (x y : Z) (events : list event) : turn_input := Turn events None (Eyes x y 174 102).
Lemma eyes_current_witness :
  ∃ s previous shown,
    watch_all some_eyes ([pointer_at 400 20 [Expose 0]; pointer_at 10 300 [VisibilityNotify true]] ++
                         [pointer_at 10 300 [VisibilityNotify false]]) = Some (s, previous, shown) ∧
    (running s = true → obscured s = false →
     ∃ picture, shown = Some picture ∧ eyes_picture some_eyes (Eyes 10 300 174 102) = Some picture ∧
       eyes_look_at (Eyes 10 300 174 102) picture).
Proof.
  apply (eyes_current some_eyes [pointer_at 400 20 [Expose 0]; pointer_at 10 300 [VisibilityNotify true]]
    (pointer_at 10 300 [VisibilityNotify false])); [done| |].
  - repeat constructor; done.
  - split; [done|]. repeat constructor; done.
Defined.
