(* ===== verification/FilesWatch.v ===== *)
(** * The file manager over a file system that is watched: what it lists are
      the answers to the last reading of the directory that it shows *)

From Stdlib Require Import String Ascii.
From S2P Require Import Prelude Text Util Desktop DesktopFiles.

(** The entries in use. *)
Definition listed (s : file_state) : list file_entry := take (Z.to_nat (count s)) (entries s).

(** The entry of a name, if the name is listed, from what the system answers: a
    link is shown with what it leads to. *)
Definition listed_as (lstat_of stat_of : list Z → option stat) (dir d_name : list Z) : option file_entry :=
  if bool_decide (d_name = str "." ∨ d_name = str "..") then None
  else if negb (path_join PATH_MAX dir d_name).2 then None
  else
    let full := (path_join PATH_MAX dir d_name).1 in
    status ← lstat_of full;
    let is_link := bool_decide (st_mode status = Link) in
    let shown := if is_link then default (Stat Special 0) (stat_of full) else status in
    Some (Entry (take (Z.to_nat NAME_MAX) d_name) (bool_decide (st_mode shown = Directory))
            (bool_decide (st_mode shown = Regular)) is_link (st_size shown)).

(** ** What was read *)

(** The directory opened last, the names [readdir] gives of it, none when it
    could not be opened, and what was answered since. *)
Inductive os_answer : Type :=
| Lstat (p : list Z) (answer : option stat)
| Followed (p : list Z) (answer : option stat).
Record directory_read := Read {
  read_path : list Z;
  read_names : list (list Z);
  answers_since : list os_answer;
}.
Definition nothing_read : directory_read := Read [] [] [].
Definition also (a : os_answer) (r : directory_read) : directory_read :=
  Read (read_path r) (read_names r) (answers_since r ++ [a]).

(** Every file system, with a record of what was read. *)
#[export] Instance watched_files {W} `{Files W} : Files (W * directory_read) | 10 := {
  os_opendir p '(w, _) :=
    let '(answer, w) := os_opendir p w in
    (answer, (w, Read p match answer with inr names => names | inl _ => [] end []));
  os_lstat p '(w, r) := let '(answer, w) := os_lstat p w in (answer, (w, also (Lstat p answer) r));
  os_stat p '(w, r) := let '(answer, w) := os_stat p w in (answer, (w, also (Followed p answer) r));
  os_strerror := os_strerror (W := W);
}.

(** The entry is what was answered for the name. *)
Definition entry_of (r : directory_read) (d_name : list Z) (e : file_entry) : Prop :=
  let full := (path_join PATH_MAX (read_path r) d_name).1 in
  ∃ status target, Lstat full status ∈ answers_since r ∧
    (link e = true → Followed full target ∈ answers_since r) ∧
    listed_as (λ _, status) (λ _, target) (read_path r) d_name = Some e.

(** What is listed are entries of the directory shown, the one opened last, each
    for a name that [readdir] gave, and no name twice. *)
Definition shows_directory (r : directory_read) (s : file_state) : Prop :=
  read_path r = path s ∧
  ∃ names found, names `sublist_of` read_names r ∧ Forall2 (entry_of r) names found ∧ listed s ≡ₚ found.

(** More was answered. *)
Definition later (r r' : directory_read) : Prop :=
  read_path r' = read_path r ∧ read_names r' = read_names r ∧ answers_since r ⊆ answers_since r'.

Lemma later_refl r : later r r.
Proof. by split_and!. Qed.
Lemma later_also r r' a : later r r' → later r (also a r').
Proof. unfold later. cbn. set_solver. Qed.
Lemma entry_of_later r r' d_name e : later r r' → entry_of r d_name e → entry_of r' d_name e.
Proof.
  unfold entry_of. intros (-> & _ & Hsub) (status & target & ? & ? & ?). exists status, target. set_solver.
Qed.
Lemma entries_of_later r r' names found :
  later r r' → Forall2 (entry_of r) names found → Forall2 (entry_of r') names found.
Proof. intros Hl Hall. apply (Forall2_impl _ _ _ _ Hall). intros. by apply (entry_of_later r). Qed.
Lemma shows_later r r' s : later r r' → shows_directory r s → shows_directory r' s.
Proof.
  intros Hl (Hpath & names & found & Hsub & Hall & Hperm). destruct (Hl) as (Hp & Hn & _).
  split; [by rewrite Hp|]. exists names, found. rewrite Hn. eauto using entries_of_later.
Qed.

Section Watch.
Context {W : Type} `{Files W} `{Qsort}.

Lemma watched_opendir p (w : W) r :
  ∃ answer w', os_opendir p (w, r) = (answer, (w', Read p match answer with inr names => names | inl _ => [] end [])).
Proof. cbn. destruct (os_opendir p w) as [answer w']. eauto. Qed.
Lemma watched_lstat p (w : W) r : ∃ answer w', os_lstat p (w, r) = (answer, (w', also (Lstat p answer) r)).
Proof. cbn. destruct (os_lstat p w) as [answer w']. eauto. Qed.
Lemma watched_stat p (w : W) r : ∃ answer w', os_stat p (w, r) = (answer, (w', also (Followed p answer) r)).
Proof. cbn. destruct (os_stat p w) as [answer w']. eauto. Qed.

(** Reading an entry adds its answers. *)
Lemma read_entry_shows d_name (x : W * directory_read) :
  let '(o, x') := read_entry (read_path x.2) d_name x in
  later x.2 x'.2 ∧ ∀ e, o = Some e → entry_of x'.2 d_name e.
Proof.
  destruct x as [w r]. cbn [fst snd]. unfold read_entry, entry_of.
  destruct (bool_decide (d_name = str ".") || bool_decide (d_name = str "..")) eqn:Hdots.
  { split; [apply later_refl|done]. }
  destruct (path_join PATH_MAX (read_path r) d_name) as [full ok] eqn:Hjoin.
  destruct ok; cbn [negb]; [|split; [apply later_refl|done]].
  rewrite st_bind_eq. destruct (watched_lstat full w r) as (status & w1 & ->). cbn [fst snd].
  destruct status as [status|]; [|split; [apply later_also, later_refl|done]].
  rewrite st_bind_eq. destruct (decide (st_mode status = Link)) as [Hlink|Hlink].
  - rewrite (bool_decide_eq_true_2 _ Hlink), st_bind_eq. destruct (watched_stat full w1 (also (Lstat full (Some status)) r)) as (target & w2 & ->).
    cbn [fst snd mret st_mret read_path also answers_since].
    split; [by apply later_also, later_also, later_refl|]. intros e [= <-].
    rewrite Hjoin. cbn [fst]. exists (Some status), target. split_and!; [set_solver|set_solver|].
    unfold listed_as. rewrite bool_decide_or, Hdots, Hjoin. cbn [fst snd negb mbind option_bind]. by rewrite (bool_decide_eq_true_2 _ Hlink).
  - rewrite (bool_decide_eq_false_2 _ Hlink). cbn [fst snd mret st_mret read_path also answers_since].
    split; [by apply later_also, later_refl|]. intros e [= <-].
    rewrite Hjoin. cbn [fst]. exists (Some status), None. split_and!; [set_solver|done|].
    unfold listed_as. rewrite bool_decide_or, Hdots, Hjoin. cbn [fst snd negb mbind option_bind]. by rewrite (bool_decide_eq_false_2 _ Hlink).
Qed.

(** The names read so far and what they were listed as. *)
Definition reads (names todo : list (list Z)) (s : file_state) (r : directory_read) : Prop :=
  zlen (entries s) = FILE_MAX_ENTRIES ∧ 0 <= count s <= FILE_MAX_ENTRIES ∧ read_path r = path s ∧
  ∃ done_with, read_names r = done_with ++ todo ∧ names `sublist_of` done_with ∧
    Forall2 (entry_of r) names (listed s).

Lemma listed_add s e : zlen (entries s) = FILE_MAX_ENTRIES → 0 <= count s < FILE_MAX_ENTRIES →
  listed (set_entries (<[Z.to_nat (count s) := e]> (entries s)) (count s + 1) s) = listed s ++ [e].
Proof.
  intros Hlen Hcount. unfold listed. cbn. replace (Z.to_nat (count s + 1)) with (S (Z.to_nat (count s))) by lia.
  rewrite (take_S_r _ _ e); [|apply list_lookup_insert_eq; unfold zlen in *; lia].
  by rewrite take_insert_ge by lia.
Qed.

(** The state is that of the directory opened last. *)
Definition shown (s : file_state) (x : W * directory_read) : Prop :=
  zlen (entries s) = FILE_MAX_ENTRIES ∧ 0 <= count s <= FILE_MAX_ENTRIES ∧ shows_directory x.2 s.

Lemma shown_same s s' x : entries s' = entries s → count s' = count s → path s' = path s →
  shown s x → shown s' x.
Proof. unfold shown, shows_directory, listed. by intros -> -> ->. Qed.

Lemma reads_shown names todo s x : reads names todo s x.2 → shown s x.
Proof.
  intros (Hlen & Hcount & Hpath & done_with & Hnames & Hsub & Hall). do 3 (split; [done|]).
  exists names, (listed s). split_and!; [|done|done]. rewrite Hnames. by apply sublist_inserts_r.
Qed.

Lemma read_directory_shows todo names s :
  triple (λ x, reads names todo s x.2) (read_directory todo s) shown.
Proof.
  revert names s. induction todo as [|d_name todo IH]; intros names s; cbn [read_directory].
  { apply triple_ret. intros x. apply reads_shown. }
  destruct (Z.ltb_spec (count s) FILE_MAX_ENTRIES); [|apply triple_ret; intros x; apply reads_shown].
  apply (triple_bind _ _ _ (λ o x, match o with
    | None => reads names todo s x.2
    | Some e => reads (names ++ [d_name]) todo
        (set_entries (<[Z.to_nat (count s) := e]> (entries s)) (count s + 1) s) x.2
    end)); [|intros [e|]; apply IH].
  intros x o x' (Hlen & Hcount & Hpath & done_with & Hnames & Hsub & Hall) Hread.
  pose proof (read_entry_shows d_name x) as Hentry. rewrite Hpath, Hread in Hentry.
  destruct Hentry as [Hlater He]. pose proof (entries_of_later _ _ _ _ Hlater Hall) as Hall'.
  destruct Hlater as (Hp & Hn & _).
  assert (read_names x'.2 = (done_with ++ [d_name]) ++ todo) as Hnames'.
  { by rewrite Hn, Hnames, <- app_assoc. }
  destruct o as [e|].
  - split; [|split; [cbn; lia|split; [by rewrite Hp|]]].
    { cbn. unfold zlen in *. by rewrite length_insert. }
    exists (done_with ++ [d_name]). split_and!; [done|by apply sublist_app|].
    rewrite listed_add by (done || lia). apply Forall2_app; [done|]. repeat constructor. by apply He.
  - split; [done|]. split; [done|]. split; [by rewrite Hp|]. exists (done_with ++ [d_name]).
    split_and!; [done|by apply sublist_inserts_r|done].
Qed.

Lemma sort_entries_shown s x : shown s x → shown (sort_entries s) x.
Proof.
  intros (Hlen & Hcount & Hpath & names & found & Hsub & Hall & Hperm).
  pose proof (Permutation_length (qsort_perm entry_compare (listed s))) as Hsorted.
  assert (listed (sort_entries s) = qsort entry_compare (listed s)) as Hlisted.
  { unfold sort_entries, listed at 1. cbn. apply take_app_length'. rewrite Hsorted.
    unfold listed. rewrite length_take. unfold zlen in *. lia. }
  split; [|split; [done|split; [done|]]].
  - unfold sort_entries. cbn. unfold listed in Hsorted. rewrite zlen_app. unfold zlen in *.
    rewrite Hsorted, length_take, length_drop. lia.
  - exists names, found. split_and!; [done|done|]. by rewrite Hlisted, qsort_perm.
Qed.

(** *** The operations *)

(** A state with the same listing, after more answers. *)
Lemma still_shown s x x' : later x.2 x'.2 → shown s x → shown s x'.
Proof. intros Hl (? & ? & ?). split_and!; try done; try lia. by apply (shows_later x.2). Qed.

Lemma load_directory_shown s : zlen (entries s) = FILE_MAX_ENTRIES →
  triple (λ _, True) (load_directory s) shown.
Proof.
  intros Hlen. unfold load_directory. set (s0 := set_message _ _).
  apply (triple_bind _ _ _ (λ answer x, match answer with
    | inl _ => reads [] [] s0 x.2 | inr names => reads [] names s0 x.2 end)).
  - intros [w r] answer x _. destruct (watched_opendir (path s0) w r) as (answer' & w' & ->).
    intros [= <- <-]. destruct answer' as [errno|names]; (split_and!; [done|done|done|done|]);
      exists []; split_and!; try done; apply sublist_nil_l.
  - intros [errno|names].
    + apply triple_ret. intros x Hx. apply (shown_same s0); [done..|]. by apply (reads_shown [] []).
    + apply (triple_bind _ _ _ shown); [apply read_directory_shows|]. intros s'. apply triple_ret.
      intros x Hx%sort_entries_shown. by case_goal.
Qed.

(** A question before the next step. *)
Lemma stat_shown {A} p s (f : option stat → st (W * directory_read) A) Q :
  (∀ a, triple (shown s) (f a) Q) → triple (shown s) (os_stat p ≫= f) Q.
Proof.
  intros Hf. apply (triple_bind _ _ _ (λ _, shown s)); [|done].
  intros [w r] answer x Hx. destruct (watched_stat p w r) as (answer' & w' & ->). intros [= _ <-].
  apply (still_shown s (w, r)); [|done]. by apply later_also, later_refl.
Qed.

Lemma reload_shown s s' : entries s' = entries s → triple (shown s) (load_directory s') shown.
Proof.
  intros Heq x a x' (Hlen & _). apply (load_directory_shown s'); [by rewrite Heq|done].
Qed.

Lemma file_up_shown s : triple (shown s) (file_up s) shown.
Proof.
  unfold file_up. case_goal; [by apply triple_ret|]. apply reload_shown. by case_match.
Qed.

Lemma file_set_path_shown p s : triple (shown s) (file_set_path p s) shown.
Proof.
  unfold file_set_path. apply stat_shown. intros [[[] ?]|]; try (by apply triple_ret). by apply reload_shown.
Qed.

Lemma file_open_selected_shown s : triple (shown s) (file_open_selected s) (λ r, shown r.1).
Proof.
  unfold file_open_selected. case_goal; [by apply triple_ret|].
  destruct (path_join _ _ _) as [full ok]. destruct ok; cbn [negb]; [|by apply triple_ret].
  case_goal.
  - apply (triple_bind _ _ _ _ _ (file_set_path_shown full s)). intros s'. by apply triple_ret.
  - repeat (case_goal; [by apply triple_ret|]). by apply triple_ret.
Qed.

Lemma click_entry_shown index b time s : triple (shown s) (click_entry index b time s) (λ r, shown r.1).
Proof.
  unfold click_entry. case_goal; [|by apply triple_ret].
  apply (triple_bind _ _ _ (λ r, shown r.1)).
  - case_goal; [|by apply triple_ret]. apply (file_open_selected_shown (set_selected index s)).
  - intros [s' v]. apply triple_ret. intros x Hx. by case_goal.
Qed.

Lemma press_shown u b x y time s : triple (shown s) (press u b x y time s) (λ r, shown r.1.2).
Proof.
  assert (∀ m, triple (shown s) m shown → triple (shown s) (s ← m; mret (true, s, None) : st _ step)
    (λ r, shown r.1.2)) as Hstay.
  { intros m Hm. apply (triple_bind _ _ _ _ _ Hm). intros s'. by apply triple_ret. }
  unfold press. do 2 (case_goal; [apply triple_ret; intros; by case_goal|]). case_goal.
  - case_goal; [apply Hstay, file_up_shown|]. do 2 (case_goal; [apply Hstay, file_set_path_shown|]).
    case_goal; [by apply Hstay, reload_shown|]. case_goal; by apply triple_ret.
  - case_goal; [|by apply triple_ret].
    apply (triple_bind _ _ _ _ _ (click_entry_shown _ b time s)). intros [s' v]. by apply triple_ret.
Qed.

Lemma move_selection_same rows k s :
  entries (move_selection rows k s) = entries s ∧ count (move_selection rows k s) = count s ∧
  path (move_selection rows k s) = path s.
Proof. unfold move_selection. case_goal; [|done]. destruct k; try done; repeat case_goal; done. Qed.

Lemma handle_key_shown u k s : triple (shown s) (handle_key u k s) (λ r, shown r.1.2).
Proof.
  unfold handle_key. apply (triple_bind _ _ _ (λ r, shown r.1)).
  - assert (∀ m, triple (shown s) m shown →
      triple (shown s) (s ← m; mret (s, None) : st _ (file_state * option (list Z))) (λ r, shown r.1)) as Hplain.
    { intros m Hm. apply (triple_bind _ _ _ _ _ Hm). intros s'. by apply triple_ret. }
    destruct (move_selection_same (visible_rows u) k s) as (? & ? & ?).
    destruct k; try (apply triple_ret; intros x; by apply shown_same);
      try apply file_open_selected_shown; apply Hplain; [apply file_up_shown|by apply reload_shown].
  - intros [s' v]. by apply triple_ret.
Qed.

Lemma handle_event_shown u e s : triple (shown s) (handle_event u e s) (λ r, shown r.1.1.2).
Proof.
  unfold handle_event. case_goal; [by apply triple_ret|].
  destruct e as [n|x y|b x y t|k|l0|full|]; try by apply triple_ret.
  - apply (triple_bind _ _ _ _ _ (press_shown u b x y t s)). intros r. by apply triple_ret.
  - assert (triple (shown s) (r ← handle_key u k s; mret (r, true) : st _ (step * bool))
      (λ r, shown r.1.1.2)) as Hk.
    { apply (triple_bind _ _ _ _ _ (handle_key_shown u k s)). intros r. by apply triple_ret. }
    destruct k; try exact Hk. by apply triple_ret.
Qed.

(** After any events the listing is still that of the directory shown. *)
Lemma file_loop_shown u events s : triple (shown s) (file_loop u events s)
  (λ r x, ∀ stopped calls s', r = Some (stopped, calls, s') → shown s' x).
Proof.
  revert s. induction events as [|e events IH]; intros s; cbn [file_loop].
  { apply triple_ret. intros x Hx ? ? ? [= _ _ <-]. done. }
  apply (triple_bind _ _ _ _ _ (handle_event_shown u e s)). intros [[[running s'] v] redraw]. cbn [fst snd].
  destruct (if redraw then _ else _) as [drawn|]; [|by apply triple_ret].
  destruct running; [|by apply triple_ret; intros x Hx ? ? ? [= _ _ <-]].
  apply (triple_bind _ _ _ _ _ (IH s')). intros r. apply triple_ret. intros x Hx stopped calls s'' Hr.
  destruct r as [[[? ?] ?]|]; [|done]. cbn in Hr. injection Hr as _ _ <-. by eapply Hx.
Qed.

Lemma initial_shown (w : W) : shown initial_state (w, nothing_read).
Proof. split; [done|]. split; [done|]. split; [done|]. exists [], []. by split_and!. Qed.
End Watch.
