(* ===== verification/FilesFacts.v ===== *)
(** * The file manager: its invariant, what it lists and opens; what the desktop
      programs acquire, release and draw *)

From Stdlib Require Import String Ascii.
From stdpp Require Import sorting.
From S2P Require Import Prelude Text Util Desktop DesktopFiles DesktopTimed DesktopFacts FilesWatch.

(** ** The order of the entries *)

(** What [strcasecmp] compares: the characters before the terminator. *)
Fixpoint fold_case (s : list Z) : list Z :=
  match s with
  | [] => []
  | c :: s => if u8 c =? 0 then [] else tolower (u8 c) :: fold_case s
  end.

Fixpoint lex_le (a b : list Z) : Prop :=
  match a, b with
  | [], _ => True
  | _ :: _, [] => False
  | x :: a, y :: b => x < y ∨ x = y ∧ lex_le a b
  end.

Lemma lex_le_trans a b c : lex_le a b → lex_le b c → lex_le a c.
Proof.
  revert b c. induction a as [|x a IH]; intros [|y b] [|z c]; cbn; try done.
  intros [?|[-> ?]] [?|[-> ?]]; eauto using Z.lt_trans.
Qed.
Lemma lex_le_total a b : lex_le a b ∨ lex_le b a.
Proof.
  revert b. induction a as [|x a IH]; intros [|y b]; cbn; auto.
  destruct (Z.lt_trichotomy x y) as [?|[->|?]]; auto. destruct (IH b); auto.
Qed.

Lemma tolower_pos c : 0 < c → 0 < tolower c.
Proof. unfold tolower. case_goal; lia. Qed.
Lemma first_char_range s : 0 <= first_char s.
Proof. unfold first_char. apply u8_range. Qed.

Lemma strcasecmp_lex a b : strcasecmp a b <= 0 ↔ lex_le (fold_case a) (fold_case b).
Proof.
  revert b. induction a as [|x a IH]; intros [|y b]; [done|..].
  - cbn. pose proof (u8_range y) as [? _]. unfold first_char. cbn [head default from_option id].
    change (u8 0) with 0. cbn. pose proof (tolower_pos (u8 y)). destruct (Z.eqb_spec (u8 y) 0) as [->|?]; [done|].
    cbn. split; [done|]. change (tolower 0) with 0. lia.
  - cbn. pose proof (u8_range x) as [? _]. unfold first_char. cbn [head default from_option id].
    change (u8 0) with 0. pose proof (tolower_pos (u8 x)). destruct (Z.eqb_spec (u8 x) 0) as [->|?]; [done|].
    cbn. change (tolower 0) with 0. split; [lia|done].
  - cbn. unfold first_char. cbn [head default from_option id].
    pose proof (u8_range x) as [? _]. pose proof (u8_range y) as [? _].
    pose proof (tolower_pos (u8 x)). pose proof (tolower_pos (u8 y)).
    destruct (Z.eqb_spec (u8 x) 0) as [->|?], (Z.eqb_spec (u8 y) 0) as [->|?]; cbn;
      change (tolower 0) with 0; try (split; [done|lia]); try (split; [lia|done]).
    destruct (Z.eqb_spec (tolower (u8 x)) (tolower (u8 y))) as [Heq|Hne].
    + rewrite IH. split; [by auto|]. intros [?|[_ ?]]; [lia|done].
    + split; [lia|]. intros [?|[? _]]; lia.
Qed.

#[export] Instance entry_compare_trans : Transitive (in_order entry_compare).
Proof.
  intros x y z. unfold in_order, entry_compare.
  destruct (directory x), (directory y), (directory z); cbn; try lia;
    rewrite !strcasecmp_lex; apply lex_le_trans.
Qed.
#[export] Instance entry_compare_total : Total (in_order entry_compare).
Proof.
  intros x y. unfold in_order, entry_compare.
  destruct (directory x), (directory y); cbn; try (by left); try (by right);
    rewrite !strcasecmp_lex; apply lex_le_total.
Qed.

(** Case analysis on the comparisons of the goal, the inner ones first. *)
Ltac innermost_cases :=
  repeat match goal with
  | |- context [?a <? ?b] =>
      lazymatch a with context [if _ then _ else _] => fail | _ => destruct (Z.ltb_spec a b) end
  | |- context [?a <=? ?b] =>
      lazymatch a with context [if _ then _ else _] => fail | _ => destruct (Z.leb_spec a b) end
  end.

(** ** Results whatever the system answers *)

Definition yields {W A} (m : st W A) (Q : A → Prop) : Prop := ∀ w, Q (m w).1.

Lemma yields_ret {W A} (a : A) (Q : A → Prop) : Q a → yields (W := W) (mret a) Q.
Proof. intros HQ w. done. Qed.
Lemma yields_bind {W A B} (m : st W A) (f : A → st W B) (R : A → Prop) (Q : B → Prop) :
  yields m R → (∀ a, R a → yields (f a) Q) → yields (m ≫= f) Q.
Proof. intros Hm Hf w. rewrite st_bind_eq. apply Hf, Hm. Qed.
(** Whatever a call answers. *)
Lemma yields_call {W A B} (m : st W A) (f : A → st W B) (Q : B → Prop) :
  (∀ a, yields (f a) Q) → yields (m ≫= f) Q.
Proof. intros Hf. by apply (yields_bind _ _ (λ _, True)). Qed.
Lemma yields_mono {W A} (m : st W A) (R Q : A → Prop) :
  yields m R → (∀ a, R a → Q a) → yields m Q.
Proof. intros Hm HRQ w. apply HRQ, Hm. Qed.

(** ** The invariant *)

(** An entry of the listing of [dir]. *)
Record entry_ok (dir : list Z) (e : file_entry) : Prop := {
  name_short : zlen (name e) <= NAME_MAX;
  name_here : name e ≠ str ".";
  name_parent : name e ≠ str "..";
  name_fits : (path_join PATH_MAX dir (name e)).2 = true;
}.

(** The array and its contents. *)
Record listing_ok (s : file_state) : Prop := {
  entries_length : zlen (entries s) = FILE_MAX_ENTRIES;
  count_range : 0 <= count s <= FILE_MAX_ENTRIES;
  path_short : zlen (path s) < PATH_MAX;
  message_short : zlen (message s) < 96;
  entries_ok : Forall (entry_ok (path s)) (listed s);
}.
Record files_ok (u : ui) (s : file_state) : Prop := {
  files_listing : listing_ok s;
  entries_sorted : StronglySorted (in_order entry_compare) (listed s);
  selected_range : -1 <= selected s < count s;
  offset_range : 0 <= offset s <= Z.max 0 (count s - visible_rows u);
  clicked_range : -1 <= last_clicked s < count s;
}.

Lemma visible_rows_pos u : 1 <= visible_rows u.
Proof. unfold visible_rows. case_goal; to_prop; lia. Qed.

Lemma snprintf_short n s : 1 <= n → zlen (snprintf n s).1 < n.
Proof. intros. unfold snprintf, zlen. cbn. rewrite length_take. lia. Qed.

Lemma path_join_result n dir nm : (path_join n dir nm).2 = (zlen (if bool_decide (dir = str "/") then str "/" ++ nm else dir ++ str "/" ++ nm) <? n).
Proof. done. Qed.

(** A path that fits is the whole path. *)
Lemma path_join_whole n dir nm : (path_join n dir nm).2 = true →
  (path_join n dir nm).1 = if bool_decide (dir = str "/") then str "/" ++ nm else dir ++ str "/" ++ nm.
Proof.
  unfold path_join, snprintf. cbn. intros Hn%Z.ltb_lt. unfold zlen in *. apply take_ge. lia.
Qed.
Lemma path_join_short n dir a b : zlen b <= zlen a →
  (path_join n dir a).2 = true → (path_join n dir b).2 = true.
Proof.
  rewrite !path_join_result. case_bool_decide; rewrite !zlen_app; intros Hab ?%Z.ltb_lt; apply Z.ltb_lt; lia.
Qed.

Lemma take_name_ne (s d : list Z) n : (length s < n)%nat → take n d = s → d = s.
Proof.
  intros Hs <-. rewrite length_take in Hs. symmetry. apply take_ge. lia.
Qed.

Section Files.
Context {W : Type} `{Files W} `{Qsort}.

Lemma read_entry_ok dir d_name :
  yields (read_entry dir d_name) (λ o, ∀ e, o = Some e → entry_ok dir e).
Proof.
  unfold read_entry. case_goal; [by apply yields_ret|].
  apply orb_false_iff in Heqb as [?%bool_decide_eq_false ?%bool_decide_eq_false]. destruct (path_join PATH_MAX dir d_name) as [full ok] eqn:Hjoin.
  destruct ok; cbn [negb]; [|by apply yields_ret].
  apply yields_call. intros [status|]; [|by apply yields_ret].
  apply yields_call. intros status'. apply yields_ret. intros e [= <-].
  assert (zlen (take (Z.to_nat NAME_MAX) d_name) <= NAME_MAX) as Hlen.
  { unfold zlen, NAME_MAX. rewrite length_take. lia. }
  split; cbn [name]; [done| | |].
  - intros ?%take_name_ne; [auto|]. by apply Nat.ltb_lt.
  - intros ?%take_name_ne; [auto|]. by apply Nat.ltb_lt.
  - apply (path_join_short _ _ d_name); [|by rewrite Hjoin]. unfold zlen. rewrite length_take. lia.
Qed.

(** The state while a directory is read. *)
Definition reading (s : file_state) : Prop :=
  listing_ok s ∧ selected s = -1 ∧ offset s = 0 ∧ last_clicked s = -1.

Lemma add_entry_ok s e :
  listing_ok s → entry_ok (path s) e → count s < FILE_MAX_ENTRIES →
  listing_ok (set_entries (<[Z.to_nat (count s) := e]> (entries s)) (count s + 1) s).
Proof.
  intros [Hlen Hcount Hpath Hmsg Hall] He Hlt. split; cbn; try done; [|lia|].
  - unfold zlen in *. by rewrite length_insert.
  - unfold listed in *. cbn. replace (Z.to_nat (count s + 1)) with (S (Z.to_nat (count s))) by lia.
    rewrite (take_S_r _ _ e); [|apply list_lookup_insert_eq; unfold zlen in *; lia].
    rewrite take_insert_ge by lia. apply Forall_app. split; [done|by constructor].
Qed.

Lemma read_directory_ok names s :
  reading s → yields (read_directory names s) reading.
Proof.
  revert s. induction names as [|d_name names IH]; intros s Hs; [by apply yields_ret|].
  cbn [read_directory]. destruct (Z.ltb_spec (count s) FILE_MAX_ENTRIES); [|by apply yields_ret].
  apply (yields_bind _ _ _ _ (read_entry_ok (path s) d_name)). intros [e|] He; [|by apply IH].
  apply IH. destruct Hs as (Hl & Hrest). split; [|done]. apply add_entry_ok; auto.
Qed.

Lemma listed_sorted s : listing_ok s →
  listed (sort_entries s) = qsort entry_compare (listed s).
Proof.
  intros [Hlen Hcount _ _ _]. unfold sort_entries, listed. cbn.
  apply take_app_length'. rewrite (Permutation_length (qsort_perm _ _)), length_take. unfold zlen in *. lia.
Qed.

Lemma sort_entries_ok u s : reading s → files_ok u (sort_entries s).
Proof.
  intros (Hl & Hsel & Hoff & Hclick). pose proof (listed_sorted s Hl) as Hsort.
  destruct Hl as [Hlen Hcount Hpath Hmsg Hall]. split; cbn [sort_entries set_entries count selected offset last_clicked]; try lia.
  - split; try done.
    + unfold sort_entries. cbn. rewrite zlen_app. unfold zlen in *.
      rewrite (Permutation_length (qsort_perm _ _)), length_take, length_drop. lia.
    + rewrite Hsort. by rewrite (qsort_perm entry_compare (listed s)).
  - rewrite Hsort. apply qsort_sorted; apply _.
Qed.

Lemma set_message_ok u m s : zlen m < 96 → files_ok u s → files_ok u (set_message m s).
Proof. intros Hm [[? ? ? ? ?] ? ? ? ?]. split; [split|..]; done. Qed.

Lemma load_directory_ok u s : zlen (entries s) = FILE_MAX_ENTRIES → zlen (path s) < PATH_MAX →
  yields (load_directory s) (λ s, files_ok u s).
Proof.
  intros Hlen Hpath. unfold load_directory. set (s' := set_message _ _).
  assert (reading s') as Hs'. { repeat split; cbn; try done || lia. }
  apply yields_call. intros [errno|names].
  - apply yields_ret, set_message_ok; [by apply snprintf_short|].
    destruct Hs' as (Hl & ? & ? & ?). split; try done; cbn; try lia. unfold listed. cbn. constructor.
  - apply (yields_bind _ _ _ _ (read_directory_ok names s' Hs')). intros s'' Hs''.
    apply yields_ret. pose proof (sort_entries_ok u s'' Hs''). case_goal; [|done].
    by apply set_message_ok.
Qed.

(** *** The operations keep the invariant *)

Lemma files_ok_parts u s : files_ok u s → zlen (entries s) = FILE_MAX_ENTRIES ∧ zlen (path s) < PATH_MAX.
Proof. by intros [[] ? ? ? ?]. Qed.

Lemma zlen_take_le {A} n (l : list A) : zlen (take n l) <= zlen l.
Proof. unfold zlen. rewrite length_take. lia. Qed.

Lemma file_up_ok u s : files_ok u s → yields (file_up s) (files_ok u).
Proof.
  intros Hs. destruct (files_ok_parts u s Hs). unfold file_up. case_goal; [by apply yields_ret|].
  apply load_directory_ok; case_goal; try done. cbn. eapply Z.le_lt_trans; [apply zlen_take_le|done].
Qed.

Lemma file_set_path_entries_ok u p s :
  zlen (entries s) = FILE_MAX_ENTRIES → files_ok u s → yields (file_set_path p s) (files_ok u).
Proof.
  intros Hlen Hs. unfold file_set_path. apply yields_call. intros o.
  assert (yields (W := W) (mret (set_message (snprintf 96 (str "Directory unavailable: " ++ p)).1 s)) (files_ok u)).
  { apply yields_ret, set_message_ok; [by apply snprintf_short|done]. }
  destruct o as [[[] ?]|]; try done. apply load_directory_ok; [done|].
  cbn. unfold zlen, PATH_MAX. rewrite length_take. lia.
Qed.
Lemma file_set_path_ok u p s : files_ok u s → yields (file_set_path p s) (files_ok u).
Proof. intros Hs. apply file_set_path_entries_ok; [apply Hs|done]. Qed.

(** The entry that is selected. *)
Definition selected_entry (s : file_state) (e : file_entry) : Prop :=
  0 <= selected s < count s ∧ listed s !! Z.to_nat (selected s) = Some e.

Lemma selected_entry_exists s : listing_ok s → 0 <= selected s < count s →
  selected_entry s (entries s !!! Z.to_nat (selected s)).
Proof.
  intros Hl Hsel. split; [done|]. unfold listed. rewrite lookup_take_lt by lia.
  apply list_lookup_lookup_total_lt. pose proof (entries_length s Hl). pose proof (count_range s Hl).
  unfold zlen in *. lia.
Qed.

(** What a viewer is started on. *)
Definition viewed (s : file_state) (p : list Z) : Prop :=
  ∃ e, selected_entry s e ∧ regular e = true ∧ directory e = false ∧ size e <= 131072 ∧
    p = (path_join PATH_MAX (path s) (name e)).1 ∧ (path_join PATH_MAX (path s) (name e)).2 = true.

(** The invariant, no other listing unless a directory was entered, and what a
    viewer may be started on. *)
Definition opened (u : ui) (s s' : file_state) (shown : option (list Z)) : Prop :=
  files_ok u s' ∧ (∀ e, selected_entry s e → directory e = false → count s' = count s) ∧
  ∀ p, shown = Some p → s' = s ∧ viewed s p.

Lemma opened_message u s m : files_ok u s → zlen m < 96 → opened u s (set_message m s) None.
Proof. intros. split_and!; [by apply set_message_ok|done|done]. Qed.

Lemma file_open_selected_ok u s : files_ok u s →
  yields (file_open_selected s) (λ '(s', shown), opened u s s' shown).
Proof.
  intros Hs. unfold file_open_selected. case_goal; [by apply yields_ret|]. to_prop.
  pose proof (selected_entry_exists s (files_listing u s Hs)) as Hsel.
  set (e := entries s !!! _) in *. clearbody e.
  destruct (path_join PATH_MAX (path s) (name e)) as [full ok] eqn:Hjoin.
  destruct ok; cbn [negb]; [|by apply yields_ret, opened_message].
  destruct (directory e) eqn:Hdir.
  { apply (yields_bind _ _ _ _ (file_set_path_ok u full s Hs)). intros s' Hs'. apply yields_ret.
    split_and!; [done| |done]. intros e' [_ He'] ?. destruct (Hsel ltac:(lia)) as [_ He]. congruence. }
  destruct (regular e) eqn:Hreg; cbn [negb]; [|by apply yields_ret, opened_message].
  destruct (Z.ltb_spec 131072 (size e)); [by apply yields_ret, opened_message|].
  apply yields_ret. split_and!; [done|done|]. intros p [= <-]. split; [done|].
  exists e. rewrite Hjoin. split_and!; try done. apply Hsel. lia.
Qed.

Lemma set_selected_ok u i s : files_ok u s → -1 <= i < count s → files_ok u (set_selected i s).
Proof. intros [[] ? ? ? ?] ?. by split. Qed.
Lemma set_offset_ok u i s : files_ok u s → 0 <= i <= Z.max 0 (count s - visible_rows u) →
  files_ok u (set_offset i s).
Proof. intros [[] ? ? ? ?] ?. by split. Qed.
Lemma set_clicked_ok u i time s : files_ok u s → -1 <= i < count s → files_ok u (set_clicked i time s).
Proof. intros [[] ? ? ? ?] ?. by split. Qed.
Lemma files_ok_bounds u s : files_ok u s →
  -1 <= selected s < count s ∧ 0 <= offset s <= Z.max 0 (count s - visible_rows u) ∧ 0 <= count s.
Proof. intros [[_ ? _ _ _] ? ? ? ?]. lia. Qed.

(** *** Events *)

(** What a row is clicked with starts a viewer only on the entry of the row. *)
Lemma click_entry_ok u index b time s : files_ok u s →
  yields (click_entry index b time s) (λ '(s', shown), files_ok u s' ∧
    ∀ p, shown = Some p → viewed (set_selected index s) p).
Proof.
  intros Hs. unfold click_entry. case_goal; [|by apply yields_ret]. to_prop.
  set (double := (index =? last_clicked s) && _).
  assert (files_ok u (set_selected index s)) as Hsel by (apply set_selected_ok; [done|lia]).
  apply (yields_bind _ _ (λ '(s', shown), opened u (set_selected index s) s' shown ∧
    (double || (b =? Button3) = false → s' = set_selected index s))).
  - destruct (double || (b =? Button3)).
    + eapply yields_mono; [by apply file_open_selected_ok|]. by intros [s' shown] ?.
    + apply yields_ret. split; [|done]. by split_and!.
  - intros [s' shown] ((Hs' & Hcount & Hview) & Hsame). apply yields_ret. split.
    + rewrite (orb_comm (b =? Button3)). destruct (double || (b =? Button3)); cbn [andb].
      * destruct (directory _) eqn:Hdir; [done|]. apply set_clicked_ok; [done|].
        rewrite (Hcount (entries s !!! Z.to_nat index)); [cbn; lia| |done].
        apply (selected_entry_exists (set_selected index s)); [apply Hsel|cbn; lia].
      * rewrite (Hsame eq_refl). apply set_clicked_ok; [done|cbn; lia].
    + intros p Hp. by apply Hview.
Qed.

Definition step_ok (u : ui) (s : file_state) (r : step) : Prop :=
  let '(_, s', shown) := r in
  files_ok u s' ∧ ∀ p, shown = Some p → ∃ i, viewed (set_selected i s) p.

Lemma stay_ok u s m : yields m (files_ok u) →
  yields (s ← m; mret (true, s, None) : st W step) (step_ok u s).
Proof. intros Hm. apply (yields_bind _ _ _ _ Hm). intros s' Hs'. by apply yields_ret. Qed.

Lemma press_ok u b x y time s : files_ok u s → yields (press u b x y time s) (step_ok u s).
Proof.
  intros Hs. pose proof (files_ok_bounds u s Hs) as (? & ? & ?). pose proof (visible_rows_pos u).
  assert (∀ s', files_ok u s' → ∀ r, step_ok u s (r, s', None)) as Hstep by (intros; by split).
  unfold press. case_goal.
  { apply yields_ret, Hstep. case_goal; [|done]. to_prop. apply set_offset_ok; [done|lia]. }
  case_goal.
  { apply yields_ret, Hstep. case_goal; [|done]. to_prop. apply set_offset_ok; [done|lia]. }
  case_goal.
  { case_goal; [by apply stay_ok, file_up_ok|]. case_goal; [by apply stay_ok, file_set_path_ok|].
    case_goal; [by apply stay_ok, file_set_path_ok|].
    case_goal; [by apply stay_ok, load_directory_ok; apply (files_ok_parts u)|].
    case_goal; by apply yields_ret, Hstep. }
  case_goal; [|by apply yields_ret, Hstep].
  apply (yields_bind _ _ _ _ (click_entry_ok u _ b time s Hs)). intros [s' shown] [Hs' Hview].
  apply yields_ret. split; [done|]. eauto.
Qed.

Lemma move_selection_ok u k s : files_ok u s → files_ok u (move_selection (visible_rows u) k s).
Proof.
  intros Hs. pose proof (files_ok_bounds u s Hs) as (? & ? & ?). pose proof (visible_rows_pos u).
  unfold move_selection. destruct (Z.ltb_spec 0 (count s)); [|done].
  destruct k; try done; repeat case_goal; to_prop; try done; apply set_selected_ok; done || lia.
Qed.

Lemma keep_selection_visible_ok u s : files_ok u s → files_ok u (keep_selection_visible u s).
Proof.
  intros Hs. pose proof (files_ok_bounds u s Hs) as (? & ? & ?). pose proof (visible_rows_pos u).
  apply set_offset_ok; [done|]. repeat case_goal; to_prop; lia.
Qed.

(** The selected row is one of the rows shown. *)
Definition selection_visible (u : ui) (s : file_state) : Prop :=
  0 <= selected s → offset s <= selected s < offset s + visible_rows u.

Lemma keep_selection_visible_shows u s : 0 <= offset s → selection_visible u (keep_selection_visible u s).
Proof.
  intros ?. pose proof (visible_rows_pos u). unfold selection_visible, keep_selection_visible. cbn.
  intros ?. innermost_cases; lia.
Qed.

Lemma handle_key_ok u k s : files_ok u s →
  yields (handle_key u k s) (λ '(r, s', shown), step_ok u s (r, s', shown) ∧ selection_visible u s').
Proof.
  intros Hs. unfold handle_key.
  apply (yields_bind _ _ (λ '(s', shown), files_ok u s' ∧ ∀ p, shown = Some p → ∃ i, viewed (set_selected i s) p)).
  - assert (yields (file_open_selected s) (λ '(s', shown),
      files_ok u s' ∧ ∀ p, shown = Some p → ∃ i, viewed (set_selected i s) p)) as Hopen.
    { eapply yields_mono; [by apply file_open_selected_ok|]. intros [s' shown] (Hs' & _ & Hview).
      split; [done|]. intros p Hp. exists (selected s). destruct (Hview p Hp) as [_ Hv]. by destruct s. }
    assert (∀ m, yields m (files_ok u) → yields (s ← m; mret (s, None) : st W (file_state * option (list Z)))
      (λ '(s', shown), files_ok u s' ∧ ∀ p, shown = Some p → ∃ i, viewed (set_selected i s) p)) as Hplain.
    { intros m Hm. apply (yields_bind _ _ _ _ Hm). intros s' Hs'. by apply yields_ret. }
    pose proof (move_selection_ok u k s Hs) as Hmove.
    destruct k; try (by apply yields_ret); try exact Hopen.
    + by apply Hplain, file_up_ok.
    + by apply Hplain, load_directory_ok; apply (files_ok_parts u).
  - intros [s' shown] [Hs' Hview]. apply yields_ret. split; [split; [|done]|].
    + by apply keep_selection_visible_ok.
    + apply keep_selection_visible_shows. apply (files_ok_bounds u s' Hs').
Qed.

Lemma handle_event_ok u e s : files_ok u s →
  yields (handle_event u e s) (λ '(r, _), step_ok u s r ∧
    ∀ k, e = KeyPress k → r.1.1 = true → selection_visible u r.1.2).
Proof.
  intros Hs. unfold handle_event. case_goal; [by apply yields_ret|].
  destruct e as [n|x y|b x y t|k|l0|full|]; try by apply yields_ret.
  - apply (yields_bind _ _ _ _ (press_ok u b x y t s Hs)). intros r Hr. by apply yields_ret.
  - assert (yields (r ← handle_key u k s; mret (r, true) : st W (step * bool)) (λ '(r, _), step_ok u s r ∧
      ∀ k', KeyPress k = KeyPress k' → r.1.1 = true → selection_visible u r.1.2)) as Hk.
    { apply (yields_bind _ _ _ _ (handle_key_ok u k s Hs)). intros [[r s'] shown] [Hr Hvis].
      by apply yields_ret. }
    destruct k; try exact Hk. by apply yields_ret.
Qed.
End Files.

(** *** The window *)

(** The window that [run_file_manager] makes, with a font that fits. *)
Definition file_window (u : ui) : Prop := width u = 500 ∧ height u = 276 ∧ font_fits u.

Lemma visible_rows_window u : file_window u → visible_rows u = 13.
Proof. intros (_ & Hh & _). unfold visible_rows. by rewrite Hh. Qed.

Lemma draw_row_ok u s row : file_window u → files_ok u s → 0 <= row < 13 →
  ∃ r, draw_row u s row = Some r ∧ ∀ d, r = Some d → Forall (inside 500 276) d.
Proof.
  intros (Hw & _ & _) Hs Hrow. unfold draw_row.
  pose proof (files_ok_bounds u s Hs) as (_ & ? & _). case_goal; [by eexists|]. to_prop.
  rewrite (proj2 (Z.ltb_ge _ _)) by lia.
  pose proof (entries_length s (files_listing u s Hs)). pose proof (count_range s (files_listing u s Hs)).
  destruct (lookup_lt_is_Some_2 (entries s) (Z.to_nat (offset s + row))) as [e ->].
  { unfold zlen in *. lia. }
  cbn [mbind option_bind]. eexists. split; [done|]. intros d [= <-]. rewrite Hw.
  unfold FILE_LIST_TOP, FILE_ROW_HEIGHT. apply inside_app; [apply segment_inside; lia|].
  apply text_n_inside; [lia|lia|]. unfold strnlen, char_width.
  change (Z.quot (500 - 18) 6) with 80. lia.
Qed.

Lemma draw_rows_ok u s n row : file_window u → files_ok u s → 0 <= row → Z.of_nat n + row <= 13 →
  ∃ d, draw_rows u s n row = Some d ∧ Forall (inside 500 276) d.
Proof.
  intros Hu Hs. revert row. induction n as [|n IH]; intros row ? ?; [by exists []|]. cbn [draw_rows].
  destruct (draw_row_ok u s row Hu Hs) as ([d|] & -> & Hd); [lia| |by exists []].
  cbn [mbind option_bind]. destruct (IH (row + 1)) as (d' & -> & Hd'); [lia..|].
  exists (d ++ d'). split; [done|]. apply inside_app; auto.
Qed.

(** The message line is as long as the message, but the number of entries has
    three digits at most. *)
Lemma draw_message_ok u s : file_window u → files_ok u s → Forall (inside 500 276) (draw_message u s).
Proof.
  intros (_ & Hh & _) Hs. unfold draw_message. rewrite Hh.
  pose proof (message_short s (files_listing u s Hs)) as Hmessage.
  destruct (message s) as [|c m]; cycle 1.
  { unfold text, text_n. case_goal; [constructor|]. apply Forall_singleton.
    split_and!; [done..|right]. split_and!; try done. eapply Z.le_lt_trans; [apply zlen_take_le|done]. }
  assert (length (decimal (count s)) <= 3)%nat as Hcount.
  { apply decimal_digits_length. change (10 ^ Z.of_nat 3) with 1000.
    pose proof (count_range s (files_listing u s Hs)). unfold FILE_MAX_ENTRIES in *. lia. }
  apply text_inside; [done|done|]. unfold snprintf, char_width. cbn [fst].
  set (plural := if count s =? 1 then _ else _).
  assert (length plural <= 1)%nat by (unfold plural; case_goal; vm_compute; lia).
  set (line := decimal (count s) ++ _). pose proof (zlen_take_le (Z.to_nat (128 - 1)) line).
  assert (zlen line <= 40); [|lia]. unfold line, zlen. rewrite !length_app.
  change (length (str " item")) with 5%nat.
  change (length (str "  ENTER/double-click opens")) with 26%nat. lia.
Qed.

Lemma draw_file_manager_ok u s : file_window u → files_ok u s →
  ∃ d, draw_file_manager u s = Some d ∧ Forall (inside (width u) (height u)) d.
Proof.
  intros Hu Hs. unfold draw_file_manager. rewrite (visible_rows_window u Hu).
  destruct (draw_rows_ok u s (Z.to_nat 13) 0 Hu Hs) as (lines & -> & Hlines); [lia..|].
  cbn [mbind option_bind]. eexists. split; [done|].
  pose proof (draw_message_ok u s Hu Hs) as Hmessage. destruct Hu as (Hw & Hh & Hf). rewrite Hw, Hh.
  unfold FILE_LIST_TOP, FILE_ROW_HEIGHT. set (head := snprintf (PATH_MAX + 16) _).
  assert (7 + char_width * strnlen head.1 (Z.quot (500 - 14) 6) <= 500) as Htitle.
  { unfold strnlen, char_width. change (Z.quot (500 - 14) 6) with 81. lia. }
  repeat match goal with |- Forall _ (_ ++ _) => apply inside_app end; auto with inside.
Qed.

Lemma initial_state_ok u : files_ok u initial_state.
Proof. pose proof (visible_rows_pos u). split; [split|..]; try done; cbn; try lia; constructor. Qed.

(** *** The loop *)

Section Loop.
Context {W : Type} `{Files W} `{Qsort}.

(** The loop never reads outside the array, and shows the selection after a
    key. *)
Definition loop_result_ok (u : ui) (s : file_state) (events : list event) (r : option (bool * list call * file_state)) : Prop :=
  match r with
  | None => False
  | Some (stopped, calls, s') =>
      Forall (window_call u) calls ∧ files_ok u s' ∧ (events = [] → s' = s) ∧
      ∀ k, last events = Some (KeyPress k) → stopped = false → selection_visible u s'
  end.

Lemma file_loop_ok u events : file_window u → ∀ s, files_ok u s →
  yields (file_loop u events s) (loop_result_ok u s events).
Proof.
  intros Hu. induction events as [|e events IH]; intros s Hs; [by apply yields_ret|].
  cbn [file_loop]. apply (yields_bind _ _ _ _ (handle_event_ok u e s Hs)).
  intros [[[running s'] shown] redraw] [[Hs' _] Hvisible].
  destruct (draw_file_manager_ok u s' Hu Hs') as (d & Hdraw & Hd).
  set (now := match shown with Some p => [Spawn_viewer p] | None => [] end).
  assert (∃ drawn, (if redraw then d ← draw_file_manager u s'; Some [Draw d] else Some []) = Some drawn ∧
    Forall (window_call u) (now ++ drawn)) as (drawn & -> & Hcalls).
  { rewrite Hdraw. cbn. exists (if redraw then [Draw d] else []). split; [by destruct redraw|].
    apply Forall_app. split; [destruct shown; repeat constructor|destruct redraw; repeat constructor; done]. }
  destruct running; [|by apply yields_ret].
  apply (yields_bind _ _ _ _ (IH s' Hs')). intros [[[stopped calls] s'']|] Hr; [|done].
  destruct Hr as (Hc & Hs'' & Hsame & Hv). apply yields_ret. cbn. rewrite app_assoc. split_and!; [by apply Forall_app|done|done|].
  intros k Hk Hstopped. destruct events as [|e' events]; [|by apply (Hv k)].
  rewrite (Hsame eq_refl). apply (Hvisible k); [by injection Hk|done].
Qed.
End Loop.


(** A file system that does not change, for the witnesses: what is at a path. *)
Definition tree : Type := list Z → option (stat * list (list Z)).
#[global] Instance tree_files : Files tree := {
  os_opendir p t := (match t p with Some (Stat Directory _, names) => inr names | _ => inl 2 end, t);
  os_lstat p t := (fst <$> t p, t);
  os_stat p t := (fst <$> t p, t);
  os_strerror _ := str "No such file or directory";
}.
Definition some_tree : tree := λ p,
  if bool_decide (p = str "/") then
    Some (Stat Directory 0, map str [".."; "readme"; "Mnt"; "mnt2"; "big"; "."; "gone"]%string)
  else if bool_decide (p = str "/Mnt") then Some (Stat Directory 0, map str ["x"; "Y"]%string)
  else if bool_decide (p = str "/readme") then Some (Stat Regular 300, [])
  else if bool_decide (p = str "/big") then Some (Stat Regular 200000, [])
  else if bool_decide (p = str "/mnt2") then Some (Stat Link 4, [])
  else if bool_decide (p = str "/Mnt/x") then Some (Stat Regular 5, [])
  else None.
Definition some_window : ui := Ui 77 10 2 (λ s, 6 * zlen s) 500 276.


(** A message as long as its array leaves the window on the right. *)
Lemma long_message_overruns :
  let s := (file_set_path (replicate 100 97) initial_state some_tree).1 in
  Draw_string Dark 6 270 (message s) ∈ default [] (draw_file_manager some_window s) ∧
  width some_window < 6 + char_width * zlen (message s).
Proof. split; [apply (bool_decide_unpack _); vm_compute; exact I|by vm_compute]. Qed.

(** ** What is listed *)

Section Listing.
Context {W : Type} `{Files W} `{Qsort}.

(** The answers of the system do not change while the directory is read. *)
Context (w : W) (lstat_of stat_of : list Z → option stat).
Hypothesis lstat_steady : ∀ p, os_lstat p w = (lstat_of p, w).
Hypothesis stat_steady : ∀ p, os_stat p w = (stat_of p, w).

Lemma read_entry_steady dir d_name : read_entry dir d_name w = (listed_as lstat_of stat_of dir d_name, w).
Proof.
  unfold read_entry, listed_as. rewrite bool_decide_or.
  destruct (_ || _); [done|].
  destruct (path_join PATH_MAX dir d_name) as [full ok]. cbn [fst snd]. destruct ok; cbn [negb]; [|done].
  rewrite st_bind_eq, lstat_steady. cbn [fst snd]. destruct (lstat_of full) as [status|]; [|done].
  cbn [mbind option_bind]. case_bool_decide; rewrite st_bind_eq; cbn; [|done].
  by rewrite st_bind_eq, stat_steady.
Qed.

Lemma read_directory_steady names s :
  zlen (entries s) = FILE_MAX_ENTRIES → 0 <= count s <= FILE_MAX_ENTRIES →
  let found := take (Z.to_nat (FILE_MAX_ENTRIES - count s)) (omap (listed_as lstat_of stat_of (path s)) names) in
  ∃ l, read_directory names s w = (set_entries l (count s + zlen found) s, w) ∧
    zlen l = FILE_MAX_ENTRIES ∧ take (Z.to_nat (count s + zlen found)) l = listed s ++ found.
Proof.
  revert s. induction names as [|d_name names IH]; intros s Hlen Hcount found.
  { exists (entries s). subst found. cbn [omap list_omap]. rewrite take_nil, zlen_nil, Z.add_0_r, app_nil_r. by destruct s. }
  cbn [read_directory]. destruct (Z.ltb_spec (count s) FILE_MAX_ENTRIES) as [Hlt|Hge].
  2: { exists (entries s). subst found. replace (Z.to_nat _) with 0%nat by lia.
       rewrite take_0, zlen_nil, Z.add_0_r, app_nil_r. by destruct s. }
  rewrite st_bind_eq, read_entry_steady. cbn [fst snd]. subst found. cbn [omap list_omap].
  destruct (listed_as lstat_of stat_of (path s) d_name) as [e|]; [|by apply IH].
  destruct (IH (set_entries (<[Z.to_nat (count s) := e]> (entries s)) (count s + 1) s)) as (l & -> & Hl & Htake).
  { cbn. unfold zlen in *. by rewrite length_insert. }
  { cbn. lia. }
  exists l. cbn [count path set_entries] in *.
  replace (Z.to_nat (FILE_MAX_ENTRIES - count s)) with (S (Z.to_nat (FILE_MAX_ENTRIES - (count s + 1)))) by lia.
  cbn [take]. rewrite zlen_cons, Z.add_assoc. split_and!; [done|done|]. rewrite Htake.
  unfold listed. cbn. replace (Z.to_nat (count s + 1)) with (S (Z.to_nat (count s))) by lia.
  rewrite (take_S_r _ _ e); [|apply list_lookup_insert_eq; unfold zlen in *; lia].
  by rewrite take_insert_ge, <- app_assoc by lia.
Qed.

(** C19: over files that do not change, loading a directory keeps its path and
    lists, in order of kind and name, exactly the names that can be looked up,
    the first 128 of them in the order of [readdir], and says so when there are
    that many; a directory that cannot be opened is shown empty, with a message
    that gives the reason. *)
Theorem directory_listed s (w0 : W) answer :
  zlen (entries s) = FILE_MAX_ENTRIES → os_opendir (path s) w0 = (answer, w) →
  let '(s', w') := load_directory s w0 in
  w' = w ∧ path s' = path s ∧ selected s' = -1 ∧ offset s' = 0 ∧
  match answer with
  | inl errno => listed s' = [] ∧ message s' = take 95 (str "Cannot open: " ++ os_strerror errno)
  | inr names =>
      let found := take (Z.to_nat FILE_MAX_ENTRIES) (omap (listed_as lstat_of stat_of (path s)) names) in
      listed s' ≡ₚ found ∧ StronglySorted (in_order entry_compare) (listed s') ∧
      message s' = if zlen found =? FILE_MAX_ENTRIES then str "Showing the first 128 entries" else []
  end.
Proof.
  intros Hlen Hopen. unfold load_directory. rewrite st_bind_eq. cbn [path set_message set_clicked set_offset set_selected set_entries].
  rewrite Hopen. cbn [fst snd]. destruct answer as [errno|names]; [done|].
  set (s0 := set_message _ _).
  destruct (read_directory_steady names s0) as (l & Hread & Hl & Htake); [done|done|].
  rewrite st_bind_eq, Hread. cbn [fst snd].
  change (count s0) with 0 in *. change (path s0) with (path s) in *. change (listed s0) with (@nil file_entry) in *.
  rewrite !Z.add_0_l, Z.sub_0_r in *. set (found := take _ _) in *. cbn [app] in Htake.
  set (s1 := set_entries l (zlen found) s0).
  assert (listed (sort_entries s1) = qsort entry_compare found) as Hsort.
  { unfold listed, sort_entries. cbn [count entries set_entries s1]. rewrite Htake.
    apply take_app_length'. rewrite (Permutation_length (qsort_perm _ _)). unfold zlen. lia. }
  change (count (sort_entries s1)) with (zlen found).
  set (s2 := if zlen found =? FILE_MAX_ENTRIES then _ else _). cbn [mret st_mret].
  assert (path s2 = path s ∧ selected s2 = -1 ∧ offset s2 = 0 ∧ listed s2 = listed (sort_entries s1))
    as (? & ? & ? & Hlisted) by (unfold s2; by case_goal).
  split_and!; try done.
  - rewrite Hlisted, Hsort. apply qsort_perm.
  - rewrite Hlisted, Hsort. apply qsort_sorted; apply _.
  - unfold s2. by case_goal.
Qed.
End Listing.

Lemma directory_listed_witness :
  let '(s', w') := load_directory (set_path (str "/") initial_state) some_tree in
  w' = some_tree ∧ path s' = str "/" ∧ selected s' = -1 ∧ offset s' = 0 ∧
  let found := take 128 (omap (listed_as (λ p, fst <$> some_tree p) (λ p, fst <$> some_tree p) (str "/"))
    (map str [".."; "readme"; "Mnt"; "mnt2"; "big"; "."; "gone"]%string)) in
  listed s' ≡ₚ found ∧ StronglySorted (in_order entry_compare) (listed s') ∧
  message s' = if zlen found =? FILE_MAX_ENTRIES then str "Showing the first 128 entries" else [].
Proof.
  apply (directory_listed (H := tree_files) some_tree (λ p, fst <$> some_tree p) (λ p, fst <$> some_tree p) (λ _, eq_refl)
    (λ _, eq_refl) (set_path (str "/") initial_state) some_tree
    (inr (map str [".."; "readme"; "Mnt"; "mnt2"; "big"; "."; "gone"]%string))); done.
Defined.

(** ** Going down and up again *)

Lemma strrchr_last a b : 47 ∉ b → strrchr (a ++ 47 :: b) 47 = Some (47 :: b).
Proof.
  intros Hb. assert (strrchr b 47 = None) as Hnone.
  { induction b as [|c b IH]; [done|]. cbn. rewrite not_elem_of_cons in Hb. destruct Hb as [Hc Hb].
    rewrite (IH Hb). by rewrite (proj2 (Z.eqb_neq _ _)). }
  induction a as [|c a IH]; cbn; [by rewrite Hnone|]. by rewrite IH.
Qed.

Section Paths.
Context {W : Type} `{Files W} `{Qsort}.

(** Loading keeps the path. *)
Lemma read_directory_path names s : yields (read_directory names s) (λ s', path s' = path s) (W := W).
Proof.
  revert s. induction names as [|d names IH]; intros s; [by apply yields_ret|]. cbn [read_directory].
  case_goal; [|by apply yields_ret]. apply yields_call. intros [e|]; [|apply IH].
  eapply yields_mono; [apply IH|]. by intros s' ->.
Qed.
Lemma load_directory_path s : yields (load_directory s) (λ s', path s' = path s) (W := W).
Proof.
  unfold load_directory. apply yields_call. intros [errno|names]; [by apply yields_ret|].
  apply (yields_bind _ _ _ _ (read_directory_path _ _)). intros s' Hs'. apply yields_ret.
  by case_goal.
Qed.

Lemma file_up_join s dir nm (w : W) :
  dir ≠ [] → 47 ∉ nm → path s = (if bool_decide (dir = str "/") then str "/" ++ nm else dir ++ str "/" ++ nm) →
  nm ≠ [] → path (file_up s w).1 = dir.
Proof.
  intros Hdir Hnm Hpath Hne. unfold file_up. rewrite Hpath. case_bool_decide as Hroot.
  - subst dir. change (str "/" ++ nm) with ([] ++ 47 :: nm). rewrite strrchr_last by done.
    rewrite bool_decide_eq_false_2 by (destruct nm; [done|by intros [=]]).
    rewrite load_directory_path. cbn [path set_path]. cbn [app length]. by rewrite Nat.sub_diag.
  - change (str "/" ++ nm) with (47 :: nm). rewrite strrchr_last by done.
    rewrite bool_decide_eq_false_2.
    2: { intros Heq. apply (f_equal length) in Heq. rewrite length_app in Heq. destruct dir, nm; cbn in Heq; try done; lia. }
    rewrite load_directory_path. cbn [path set_path]. rewrite length_app. cbn [length].
    replace (length dir + S (length nm) - S (length nm))%nat with (length dir) by lia.
    destruct (Nat.eqb_spec (length dir) 0) as [Hz|_]; [by destruct dir|]. by rewrite take_app_length.
Qed.

(** Entering the selected directory and going up leads back to the
    directory shown before, for every path that is not empty and every name
    without a slash. *)
Theorem up_undoes_enter u s e (w w1 w2 : W) sz s' shown :
  files_ok u s → selected_entry s e → directory e = true →
  path s ≠ [] → name e ≠ [] → 47 ∉ name e →
  os_stat (path_join PATH_MAX (path s) (name e)).1 w = (Some (Stat Directory sz), w1) →
  file_open_selected s w = (s', shown, w2) →
  path s' = (path_join PATH_MAX (path s) (name e)).1 ∧
  ∀ w3, path (file_up s' w3).1 = path s.
Proof.
  intros Hs [Hsel He] Hdir Hpath Hne Hslash Hstat Hopen.
  pose proof (entries_ok s (files_listing u s Hs)) as Hall. rewrite Forall_lookup in Hall.
  pose proof (name_fits _ _ (Hall _ _ He)) as Hfits. pose proof (path_join_whole _ _ _ Hfits) as Hwhole.
  assert (path s' = (path_join PATH_MAX (path s) (name e)).1) as Hs'.
  2: { split; [done|]. intros w3. apply (file_up_join _ _ (name e)); try done. by rewrite Hs'. }
  revert Hopen. unfold file_open_selected.
  rewrite (proj2 (Z.ltb_ge _ _)), (proj2 (Z.leb_gt _ _)) by lia. cbn [orb].
  unfold listed in He. rewrite lookup_take_lt in He by lia. apply list_lookup_total_correct in He as ->.
  destruct (path_join PATH_MAX (path s) (name e)) as [full ok] eqn:Hjoin. cbn [fst snd] in *. subst ok.
  cbn [negb]. rewrite Hdir, st_bind_eq. unfold file_set_path. rewrite st_bind_eq, Hstat. cbn [fst snd].
  intros [= <- _ _]. rewrite load_directory_path. cbn [path set_path]. apply take_ge.
  assert (full = (path_join PATH_MAX (path s) (name e)).1) as -> by by rewrite Hjoin.
  assert (zlen (snprintf PATH_MAX (if bool_decide (path s = str "/") then str "/" ++ name e
    else path s ++ str "/" ++ name e)).1 < PATH_MAX) as Hshort by by apply snprintf_short.
  unfold path_join, zlen, PATH_MAX in *. cbn [fst snprintf] in *. lia.
Qed.
End Paths.

(** The listing of the root of [some_tree]. *)
Definition some_files : file_state := (file_set_path (str "/") initial_state some_tree).1.
Definition some_directory : file_entry := Entry (str "Mnt") true false false 0.

Definition at_directory : file_state := set_selected 0 some_files.
Definition after_enter : file_state * option (list Z) * tree := file_open_selected at_directory some_tree.

Lemma some_files_ok : files_ok some_window some_files.
Proof. apply (file_set_path_ok (W := tree) some_window (str "/") _ (initial_state_ok _) some_tree). Qed.

Lemma up_undoes_enter_witness :
  path after_enter.1.1 = (path_join PATH_MAX (path at_directory) (name some_directory)).1 ∧
  ∀ w3, path (file_up (W := tree) after_enter.1.1 w3).1 = path at_directory.
Proof.
  apply (up_undoes_enter (H := tree_files) some_window at_directory some_directory
    some_tree some_tree after_enter.2 0 after_enter.1.1 after_enter.1.2).
  - apply set_selected_ok; [apply some_files_ok|]. compute_dec.
  - split; [compute_dec|]. vm_compute. reflexivity.
  - reflexivity.
  - apply (bool_decide_unpack _). vm_compute. exact I.
  - discriminate.
  - apply (bool_decide_unpack _). vm_compute. exact I.
  - reflexivity.
  - fold after_enter. by destruct after_enter as [[? ?] ?].
Defined.

(** ** What is opened *)

(** A viewer is started only on a regular file of the directory shown, of
    at most 128 KiB when it was listed, under its whole path. *)
Theorem viewer_guarded {W} `{Files W} `{Qsort} u ev s p (w : W) :
  files_ok u s → (handle_event u ev s w).1.1.2 = Some p →
  ∃ i e, listed s !! i = Some e ∧ regular e = true ∧ directory e = false ∧ size e <= 131072 ∧
    zlen p < PATH_MAX ∧ p = if bool_decide (path s = str "/") then str "/" ++ name e else path s ++ str "/" ++ name e.
Proof.
  intros Hs Hp. pose proof (handle_event_ok u ev s Hs w) as Hok.
  destruct (handle_event u ev s w).1 as [[[r s'] shown] red]. cbn in Hp. subst shown.
  destruct Hok as [[_ Hview] _]. destruct (Hview p eq_refl) as (i & e & [_ He] & Hreg & Hdir & Hsize & -> & Hfit).
  exists (Z.to_nat i), e. split_and!; try done.
  - by apply snprintf_short.
  - by apply path_join_whole.
Qed.
Lemma viewer_guarded_witness :
  ∃ i e, listed some_files !! i = Some e ∧ regular e = true ∧ directory e = false ∧ size e <= 131072 ∧
    zlen (str "/readme") < PATH_MAX ∧
    str "/readme" = if bool_decide (path some_files = str "/") then str "/" ++ name e
                    else path some_files ++ str "/" ++ name e.
Proof.
  apply (viewer_guarded (H := tree_files) some_window (ButtonPress Button3 30 105 7) some_files _ some_tree).
  - apply some_files_ok.
  - vm_compute. reflexivity.
Defined.

(** ** What the programs hold *)

Inductive resource : Type :=
| R_lock | R_display | R_font | R_gc | R_window (w h : Z) | R_pointer | R_keyboard.
#[export] Instance resource_eq_dec : EqDecision resource.
Proof. solve_decision. Defined.

(** What is held after the calls, the last acquired first: a release is of what
    was acquired last, drawing stays in the window, and a shell is started when
    only the lock is held. *)
Definition acquire (r : resource) (held : list resource) : option (list resource) := Some (r :: held).
Definition release (r : resource) (held : list resource) : option (list resource) :=
  match held with r' :: held => if decide (r = r') then Some held else None | [] => None end.
#[export] Instance inside_dec w h d : Decision (inside w h d).
Proof. destruct d; unfold inside, message_line; apply _. Defined.
Definition drawable (d : list drawing) (r : resource) : bool :=
  match r with R_window w h => bool_decide (Forall (inside w h) d) | _ => false end.

Definition replay_call (held : list resource) (c : call) : option (list resource) :=
  match c with
  | Lock_file _ => acquire R_lock held
  | Close_lock => release R_lock held
  | Open_display => acquire R_display held
  | Close_display => release R_display held
  | Load_font => acquire R_font held
  | Free_font => release R_font held
  | Create_gc => acquire R_gc held
  | Free_gc => release R_gc held
  | Create_window w => acquire (R_window (win_width w) (win_height w)) held
  | Destroy_window =>
      match held with R_window _ _ :: held => Some held | _ => None end
  | Grab_pointer => acquire R_pointer held
  | Ungrab_pointer => release R_pointer held
  | Grab_keyboard => acquire R_keyboard held
  | Ungrab_keyboard => release R_keyboard held
  | Draw d => if existsb (drawable d) held then Some held else None
  | Spawn_shell _ => if decide (held = [R_lock]) then Some held else None
  | Spawn_viewer _ => Some held
  end.
Fixpoint replay (held : list resource) (calls : list call) : option (list resource) :=
  match calls with
  | [] => Some held
  | c :: calls => held ← replay_call held c; replay held calls
  end.

Lemma replay_app held l k : replay held (l ++ k) = h ← replay held l; replay h k.
Proof.
  revert held. induction l as [|c l IH]; intros held; [done|]. cbn.
  destruct (replay_call held c); [apply IH|done].
Qed.

Lemma replay_window held u calls : R_window (width u) (height u) ∈ held → Forall (window_call u) calls →
  replay held calls = Some held.
Proof.
  intros Hw. induction 1 as [|c calls Hc Hcalls IH]; [done|]. cbn.
  destruct c as [ | | | | | | | | | | | | | |d| |]; try done.
  assert (existsb (drawable d) held = true) as Hdraw.
  { apply existsb_exists. exists (R_window (width u) (height u)). split; [by apply list_elem_of_In|].
    by apply bool_decide_eq_true. }
  cbn [replay_call]. by rewrite Hdraw.
Qed.

(** The run ends with all released, or waits with what it acquired. *)
Definition run_ok (r : option (run_end * list call)) : Prop :=
  ∃ e calls, r = Some (e, calls) ∧
    match e with Exit _ => replay [] calls = Some [] | Waiting => is_Some (replay [] calls) end.

Lemma instance_lock_calls a nm : instance_lock a nm = None ∨ ∃ p, instance_lock a nm = Some [Lock_file p].
Proof. unfold instance_lock. destruct (snprintf _ _). repeat case_match; eauto. Qed.

(** With the window open: what is held without the grabs. *)
Definition held_open (u : ui) : list resource :=
  [R_window (width u) (height u); R_gc; R_font; R_display; R_lock].

Lemma held_window u l : R_window (width u) (height u) ∈ l ++ held_open u.
Proof. apply elem_of_app. right. constructor. Qed.

(** A run: what it acquires, the loop on its window, and the rest. *)
Lemma replay_run u held pre body post :
  replay [] pre = Some held → R_window (width u) (height u) ∈ held → Forall (window_call u) body →
  replay [] (pre ++ body ++ post) = replay held post.
Proof.
  intros Hpre Hw Hbody. rewrite replay_app, Hpre. cbn [mbind option_bind].
  by rewrite replay_app, (replay_window _ u).
Qed.

Lemma replay_waiting u held pre body :
  replay [] pre = Some held → R_window (width u) (height u) ∈ held → Forall (window_call u) body →
  replay [] (pre ++ body) = Some held.
Proof. intros Hpre Hw Hbody. rewrite <- (app_nil_r body). by rewrite (replay_run u held). Qed.

Definition menu_ui (a : answers) : ui := set_size 190 294 (display_ui a).

Lemma draw_menu_calls u hover : menu_window u → Forall (window_call u) [Draw (draw_menu u hover)].
Proof. intros Hu. repeat constructor. by apply draw_menu_inside. Qed.

Lemma run_menu_ok a events : run_ok (run_menu a events).
Proof.
  unfold run_menu. destruct (instance_lock_calls a (str "menu")) as [->|(p & ->)]; [by eexists _, _|].
  unfold ui_init. destruct (display_ok a); [|by eexists _, _]. destruct (font_ok a); [|by eexists _, _].
  cbn [make_window]. fold (menu_ui a). change (set_size 190 (menu_count * 22 + 8) (display_ui a)) with (menu_ui a).
  assert (menu_window (menu_ui a)) as Hu by done.
  destruct (grab_ok a); cbn [negb]; [|by eexists _, _].
  destruct (menu_loop_spec (menu_ui a) events Hu 0) as (chosen & calls & -> & Hcalls & _); [done|].
  cbn [mbind option_bind].
  assert (Forall (window_call (menu_ui a)) (Draw (draw_menu (menu_ui a) 0) :: calls)) as Hbody.
  { constructor; [|done]. by apply draw_menu_inside. }
  destruct chosen as [c|].
  - eexists _, _. split; [done|]. etrans; [apply (replay_run (menu_ui a) (R_keyboard :: R_pointer :: held_open (menu_ui a))
      [_; _; _; _; _; _; _] (Draw _ :: calls) _); [reflexivity|apply (held_window _ [_; _])|exact Hbody]|].
    by destruct c.
  - eexists _, _. split; [done|]. exists (R_keyboard :: R_pointer :: held_open (menu_ui a)).
    apply (replay_waiting (menu_ui a) (R_keyboard :: R_pointer :: held_open (menu_ui a))
      [_; _; _; _; _; _; _] (Draw _ :: calls)); [reflexivity|apply (held_window _ [_; _])|exact Hbody].
Qed.

(** A program that only opens a window and runs its loop. *)
Lemma run_window_ok u p w body (stopped : bool) :
  win_width w = width u → win_height w = height u → Forall (window_call u) body →
  let calls := [Lock_file p] ++ [Open_display; Load_font; Create_gc] ++ [Create_window w] ++ body in
  run_ok (Some (if stopped then (Exit 0, calls ++ ui_close ++ [Close_lock]) else (Waiting, calls))).
Proof.
  intros Hw Hh Hbody calls. subst calls.
  assert (replay [] [Lock_file p; Open_display; Load_font; Create_gc; Create_window w] = Some (held_open u)) as Hpre.
  { cbn. by rewrite Hw, Hh. }
  destruct stopped; eexists _, _; (split; [done|]).
  - etrans; [apply (replay_run u (held_open u) [_; _; _; _; _] body _);
      [exact Hpre|apply (held_window u [])|exact Hbody]|done].
  - exists (held_open u).
    apply (replay_waiting u (held_open u) [_; _; _; _; _] body); [exact Hpre|apply (held_window u [])|exact Hbody].
Qed.

Lemma run_file_manager_ok {W} `{Files W} `{Qsort} a p events :
  font_fits (display_ui a) → yields (W := W) (run_file_manager a p events) run_ok.
Proof.
  intros Hfont. unfold run_file_manager.
  destruct (instance_lock_calls a (str "file")) as [->|(lock & ->)].
  { apply yields_ret. by eexists _, _. }
  unfold ui_init. destruct (display_ok a), (font_ok a); try (apply yields_ret; by eexists _, _).
  cbn [make_window]. set (u := set_size 500 276 (display_ui a)). assert (file_window u) as Hu by done.
  apply (yields_bind _ _ _ _ (file_set_path_ok u _ initial_state (initial_state_ok u))). intros s Hs.
  destruct (draw_file_manager_ok u s Hu Hs) as (d & -> & Hd).
  apply (yields_bind _ _ _ _ (file_loop_ok u events Hu s Hs)).
  intros [[[stopped calls] s']|] Hr; [|done]. destruct Hr as (Hcalls & _). apply yields_ret.
  apply (run_window_ok u lock _ (Draw d :: calls) stopped); [done|done|by constructor].
Qed.

Lemma run_timed_window_ok mode a turns : Forall turn_ok turns → run_ok (run_timed_window mode a turns).
Proof.
  intros Hturns. unfold run_timed_window. set (clock := bool_decide _).
  destruct (instance_lock_calls a (if clock then str "clock" else str "eyes")) as [->|(lock & ->)]; [by eexists _, _|].
  unfold ui_init. destruct (display_ok a); [|by eexists _, _]. destruct (font_ok a); [|by eexists _, _].
  cbn [make_window]. set (u := set_size _ _ (display_ui a)).
  assert (timed_window clock u) as Hu by (unfold u; by destruct clock).
  destruct (timed_loop_ok clock u turns Hu Hturns (Timed true true false) None) as (stopped & calls & -> & Hcalls).
  cbn [mbind option_bind]. by apply (run_window_ok u lock).
Qed.

(** C17: every one of the programs, whatever the system and the server answer and
    the user does, runs without a fault; when it ends it has released, in the
    reverse order, all that it acquired; it draws only in its window, while it
    has it, and every text ends before the right edge, but for the message line
    of the file manager; and a command of the menu is started with nothing held
    but the lock of the program.  The font is the one the layout is made for,
    of 6 pixels a character and at most 22 high; the positions of the pointer and
    of the window are within 8192 pixels, and the local time has a year of at
    most four digits. *)
Theorem desktop_discipline {W} `{Files W} `{Qsort} argv0 argv1 a events turns (w : W) :
  font_fits (display_ui a) → Forall turn_ok turns →
  ∃ e calls, (main argv0 argv1 a events turns w).1 = Some (e, calls) ∧
    match e with Exit _ => replay [] calls = Some [] | Waiting => is_Some (replay [] calls) end.
Proof.
  intros Hfont Hturns. unfold main. set (mode := match strrchr argv0 47 with Some _ => _ | None => _ end).
  case_bool_decide; [apply run_menu_ok|]. case_bool_decide; [by apply run_file_manager_ok|].
  case_match; [by apply run_timed_window_ok|]. by eexists _, _.
Qed.

Definition some_answers : answers := Answers true true true true true 528 320 some_window.
Lemma desktop_discipline_witness :
  ∃ e calls,
    (main (str "/opt/x11/usr/bin/exfile") (Some (str "/Mnt")) some_answers
      [Expose 0; KeyPress XK_Down; KeyPress XK_Return; KeyPress XK_Escape]
      [pointer_at 400 20 []] some_tree).1 = Some (e, calls) ∧
    match e with Exit _ => replay [] calls = Some [] | Waiting => is_Some (replay [] calls) end.
Proof.
  apply (desktop_discipline (H := tree_files)); [done|]. repeat constructor; done.
Defined.

Definition no_shell (c : call) : Prop := match c with Spawn_shell _ => False | _ => True end.
Lemma no_shell_spec calls c : Forall no_shell calls → Spawn_shell c ∉ calls.
Proof. rewrite Forall_forall. intros Hall Hc. exact (Hall _ Hc). Qed.
Lemma window_no_shell u calls : Forall (window_call u) calls → Forall no_shell calls.
Proof. intros Hcalls. apply (Forall_impl _ _ _ Hcalls). by intros []. Qed.

(** What a run starts: the command that follows the calls without one. *)
Lemma shell_after pre post command c :
  Forall no_shell pre → Forall no_shell post →
  Spawn_shell c ∈ pre ++ match command with Some command => [Spawn_shell command] | None => [] end ++ post →
  command = Some c.
Proof.
  intros Hpre Hpost. rewrite !elem_of_app. intros [Hc|[Hc|Hc]].
  - by apply no_shell_spec in Hc.
  - destruct command as [c'|]; [|by apply elem_of_nil in Hc]. apply list_elem_of_singleton in Hc. congruence.
  - by apply no_shell_spec in Hc.
Qed.

(** The menu starts exactly the command of an item that was clicked, on its
    own row, or that the window showed as selected when the user pressed the
    return key; and it never reads outside its table. *)
Theorem menu_starts_item a events :
  ∃ e calls, run_menu a events = Some (e, calls) ∧
    ∀ c, Spawn_shell c ∈ calls → e = Exit 0 ∧ item_chosen (menu_ui a) events (screen [] calls) c.
Proof.
  assert (∀ e calls, Forall no_shell calls → ∀ c, Spawn_shell c ∈ calls →
    e = Exit 0 ∧ item_chosen (menu_ui a) events (screen [] calls) c) as Hnone.
  { intros e calls Hcalls c Hc. by apply no_shell_spec in Hc. }
  unfold run_menu. destruct (instance_lock_calls a (str "menu")) as [->|(p & ->)].
  { eexists _, _. split; [done|]. by apply Hnone. }
  unfold ui_init. destruct (display_ok a), (font_ok a);
    try (eexists _, _; split; [done|]; apply Hnone; by repeat constructor).
  cbn [make_window]. change (set_size 190 (menu_count * 22 + 8) (display_ui a)) with (menu_ui a).
  assert (menu_window (menu_ui a)) as Hu by done.
  destruct (grab_ok a); cbn [negb];
    [|eexists _, _; split; [done|]; apply Hnone; by repeat constructor].
  destruct (menu_loop_spec (menu_ui a) events Hu 0) as (chosen & calls & -> & Hcalls & Hchosen); [done|].
  pose proof (window_no_shell _ _ Hcalls) as Hquiet. cbn [mbind option_bind].
  destruct chosen as [c|]; eexists _, _; (split; [done|]).
  2: { apply Hnone. repeat (constructor; [done|]). exact Hquiet. }
  intros c' Hc'. split; [done|].
  set (pre := [Lock_file p] ++ _) in *. rewrite (app_assoc _ ui_close), (app_assoc pre) in *.
  apply shell_after in Hc' as ->; [| |by repeat constructor].
  - rewrite !screen_app. unfold pre. rewrite !screen_app. by apply Hchosen.
  - apply Forall_app. split; [|by repeat constructor]. by repeat (constructor; [done|]).
Qed.
