(* ===== verification/Command.v ===== *)
(** * libexword: the command line tool ([src/tools/libexword/src/main.c])

    The state of the tool, its table of commands, the commands over the
    interfaces [Session] and [Device] of the dictionary and [Local] of the
    operating system, and the prompt.  What is printed is a list of strings;
    the history of the line editor is left out. *)

From stdpp Require Import vector.
From Stdlib Require Import String Ascii.
From S2P Require Import Prelude Text DataBuffer Obex Crypt Exword Util Content.

(** ** Strings *)

(** [basename]: the last component; trailing slashes do not count. *)
Fixpoint strip_slashes (s : list Z) : list Z :=
  match s with 47 :: s => strip_slashes s | _ => s end.
Definition basename (s : list Z) : list Z :=
  match s with
  | [] => str "."
  | _ =>
      match reverse (strip_slashes (reverse s)) with
      | [] => str "/"
      | s => match strrchr s 47 with Some r => drop 1 r | None => s end
      end
  end.

(** ** The words of a line *)

Definition is_delimiter (c : Z) : bool := (c =? 32) || (c =? 9).
Fixpoint skip_delimiters (s : list Z) : list Z :=
  match s with
  | c :: s' => if is_delimiter c then skip_delimiters s' else s
  | [] => []
  end.
Fixpoint take_word (s : list Z) : list Z * list Z :=
  match s with
  | [] => ([], [])
  | c :: s' => if is_delimiter c then ([], s') else let '(w, r) := take_word s' in (c :: w, r)
  end.
(** [strtok(s, " \t")]: the word and what is kept for the next call; [None] is
    [NULL]. *)
Definition strtok (s : list Z) : option (list Z * list Z) :=
  match skip_delimiters s with
  | [] => None
  | s => Some (take_word s)
  end.

(** ** Paths *)

Definition is_separator (c : Z) : bool := (c =? 47) || (c =? 92).

(** The inner loop: while this and the next character are separators, the string
    moves one to the left. *)
Fixpoint drop_separators (s : list Z) : list Z :=
  match s with
  | a :: ((b :: _) as s') => if is_separator a && is_separator b then drop_separators s' else s
  | _ => s
  end.
(** The outer loop, from [p] on. *)
Fixpoint normalise (fuel : nat) (p : list Z) : list Z :=
  match fuel with
  | O => p
  | S fuel =>
      match drop_separators p with
      | [] => []
      | c :: p => (if c =? 47 then 92 else c) :: normalise fuel p
      end
  end.
(** [strstr(s, pat)] in a string: the offset. *)
Fixpoint find_substring (s pat : list Z) : option nat :=
  if bool_decide (take (length pat) s = pat) then Some 0%nat
  else match s with [] => None | _ :: s => S <$> find_substring s pat end.

(** ** [sscanf] *)

Definition is_space (c : Z) : bool := (c =? 32) || ((9 <=? c) && (c <=? 13)).
Fixpoint skip_spaces (s : list Z) : list Z :=
  match s with c :: s' => if is_space c then skip_spaces s' else s | [] => [] end.

(** The digits of a number, and whether there is one; it stops at [ulong_max]. *)
Fixpoint scan_digits (ulong_max acc : Z) (any : bool) (s : list Z) : option Z :=
  match s with
  | c :: s' =>
      if (48 <=? c) && (c <=? 57)
      then scan_digits ulong_max (Z.min (acc * 10 + (c - 48)) (ulong_max + 1)) true s'
      else if any then Some acc else None
  | [] => if any then Some acc else None
  end.
(** ["%hhu"]: a sign negates; a number too large becomes [ulong_max]. *)
Definition scan_hhu (ulong_max : Z) (s : list Z) : option Z :=
  let '(negative, s) := match skip_spaces s with
                        | 45 :: s => (true, s)
                        | 43 :: s => (false, s)
                        | s => (false, s)
                        end in
  n ← scan_digits ulong_max 0 false s;
  Some (u8 (if ulong_max <? n then ulong_max else if negative : bool then - n else n)).

(** ["%s"] from a block: the word; [None] when the block has no terminator. *)
Fixpoint scan_word (fuel : nat) (l : list Z) : option (list Z) :=
  match fuel, l with
  | S fuel, c :: l => if (c =? 0) || is_space c then Some [] else w ← scan_word fuel l; Some (c :: w)
  | _, _ => None
  end.
Definition scan_string (l : list Z) : option (list Z) := scan_word (S (length l)) (skip_spaces l).

(** ["0x%40[a-fA-F0-9]"]: at most 40 digits, at least one. *)
Definition is_hex (c : Z) : bool :=
  ((97 <=? c) && (c <=? 102)) || ((65 <=? c) && (c <=? 70)) || ((48 <=? c) && (c <=? 57)).
Fixpoint hex_prefix (n : nat) (s : list Z) : list Z :=
  match n, s with
  | S n, c :: s => if is_hex c then c :: hex_prefix n s else []
  | _, _ => []
  end.
Definition scan_authkey (s : list Z) : option (list Z) :=
  match s with
  | 48 :: 120 :: s => match hex_prefix 40 s with [] => None | key => Some key end
  | _ => None
  end.

(** The value of a digit; the variable is a [char], kept as its byte. *)
Definition hex_value (c : Z) : Z :=
  if 97 <=? c then c - 87 else if 65 <=? c then c - 55 else c - 48.
(** The loop over [authkey], from the pair at [i] on, in place. *)
Fixpoint decode_loop (n : nat) (i : nat) (authkey : list Z) : list Z :=
  match n with
  | O => authkey
  | S n =>
      let hi := u8 (Z.shiftl (hex_value (authkey !!! i)) 4) in
      let val := u8 (Z.lor hi (hex_value (authkey !!! S i))) in
      decode_loop n (S (S i)) (<[Nat.div i 2 := val]> authkey)
  end.
Definition decode_authkey (authkey : list Z) : list Z := decode_loop 20 0 authkey.

(** ** The dictionary *)

(** What the tool needs of the library besides the commands of [Device]; polling
    answers the reasons that the callback got. *)
Class Session (D : Type) `{Device D} := {
  ses_init : option D;
  ses_register : D → D;
  ses_set_debug : Z → D → D;
  ses_connect : Z → res D Z;
  ses_disconnect : res D Z;
  ses_deinit : res D unit;
  ses_poll : res D (list Z);
  ses_get_model : exword_model_t → res D (Z * exword_model_t);
  ses_sd_format : res D Z;
}.

#[global] Instance exword_session `{Alloc} `{Iconv} {U : Type} `{Usb U} `{Interrupts U}
    (fuel read_fuel conv_fuel : nat) (big_endian char_signed : bool) (h : host) :
    @Session (exword_t U) (exword_device fuel read_fuel conv_fuel big_endian char_signed) :=
  Build_Session (exword_t U) (exword_device fuel read_fuel conv_fuel big_endian char_signed)
    exword_init
    (exword_register_disconnect_callback true)
    exword_set_debug
    (exword_connect fuel read_fuel conv_fuel h)
    (exword_disconnect fuel read_fuel conv_fuel)
    (exword_deinit fuel read_fuel conv_fuel)
    (λ s, match exword_poll_disconnect fuel read_fuel conv_fuel s with
          | Ok _ s' => Ok (drop (length (notified s)) (notified s')) s'
          | Fault e => Fault e
          end)
    (exword_get_model fuel read_fuel conv_fuel)
    (exword_sd_format fuel read_fuel conv_fuel).

(** ** The state *)

Inductive handler : Type :=
| Do_connect | Do_disconnect | Do_model | Do_capacity | Do_format | Do_list | Do_delete | Do_send
| Do_get | Do_setpath | Do_content | Do_set | Do_quit | Do_help.

(** [struct command]; [None] is [NULL]. *)
Record command := Command {
  cmd_str : list Z;
  ptr : handler;
  help_short : option (list Z);
  help_long : option (list Z);
  cmd_mode : Z;
}.

Definition commands : list command := [
  Command (str "connect") Do_connect
    (Some (c_str ["connect [mode] [region]\t- connect to attached dictionary\n"]))
    (Some (c_str ["Connects to device.\n\n";
      "Region specifies the region of the device (default:ja).\n";
      "Mode can be one of the following values:\n";
      "library - connect as CASIO Library (default)\n";
      "text    - connect as Textloader\n";
      "cd      - connect as CDLoader\n"])) 0x700;
  Command (str "disconnect") Do_disconnect
    (Some (c_str ["disconnect\t\t- disconnect from dictionary\n"]))
    (Some (c_str ["Disconnects from device.\n"])) 0x700;
  Command (str "model") Do_model
    (Some (c_str ["model\t\t\t- display model information\n"]))
    (Some (c_str ["Displays model information of device.\n"])) 0x700;
  Command (str "capacity") Do_capacity
    (Some (c_str ["capacity\t\t- display medium capacity\n"]))
    (Some (c_str ["Displays capacity of current storage medium.\n"])) 0x700;
  Command (str "format") Do_format
    (Some (c_str ["format\t\t\t- format SD card\n"]))
    (Some (c_str ["Formats currently inserted SD Card.\n"])) 0x700;
  Command (str "list") Do_list
    (Some (c_str ["list\t\t\t- list files\n"]))
    (Some (c_str ["Lists files and directories under current path.\n\n";
      "Directories are enclosed in <>.\n";
      "Files or directories beginning with * were returned as unicode.\n"])) 0x700;
  Command (str "delete") Do_delete
    (Some (c_str ["delete <filename>\t- delete a file\n"]))
    (Some (c_str ["Deletes a file from dicionary.\n"])) 0x700;
  Command (str "send") Do_send
    (Some (c_str ["send <filename>\t\t- upload a file\n"]))
    (Some (c_str ["Uploads a file to dicionary.\n"])) 0x700;
  Command (str "get") Do_get
    (Some (c_str ["get <filename>\t\t- download a file\n"]))
    (Some (c_str ["Downloads a file from dicionary.\n"])) 0x700;
  Command (str "setpath") Do_setpath
    (Some (c_str ["setpath <path>\t\t- changes directory on dictionary\n"]))
    (Some (c_str ["Changes to the the specified path.\n\n";
      "<path> is in the form of <device>://<path>\n";
      "Known devices are: drv0 crd0 crd1 (On dual card devices)\n";
      "Example: drv0:/// - sets path to root of internal memory\n"])) 0x700;
  Command (str "cd") Do_content
    (Some (c_str ["cd <sub-function>\t- audio cd commands\n"]))
    (Some (c_str ["This command allows manipulation of installed audio cds. It uses\n";
      "the storage medium of your current path as the storage device to\n";
      "operate on. The reset sub-function WILL delete all installed\n";
      "dictionaries. DP4+ Only\n\n";
      "Sub functions:\n";
      "reset <user>\t    - resets authentication info\n";
      "auth <user> [key]   - authenticate to dictionary\n";
      "list [local|remote] - list installed audio cds\n";
      "decrypt <id>\t    - decrypts specified audio cd\n";
      "remove  <id>\t    - removes specified audio cd\n";
      "install <id>\t    - installs specified audio cd\n"])) 0x400;
  Command (str "dict") Do_content
    (Some (c_str ["dict <sub-function>\t- add-on dictionary commands\n"]))
    (Some (c_str ["This command allows manipulation of add-on dictionaries. It uses\n";
      "the storage medium of your current path as the storage device to\n";
      "operate on. The reset sub-function WILL delete all installed\n";
      "dictionaries.\n\n";
      "Sub functions:\n";
      "reset <user>\t    - resets authentication info\n";
      "auth <user> [key]   - authenticate to dictionary\n";
      "list [local|remote] - list installed add-on dictionaries\n";
      "decrypt <id>\t    - decrypts specified add-on dictionary\n";
      "remove  <id>\t    - removes specified add-on dictionary\n";
      "install <id>\t    - installs specified add-on dictionary\n"])) 0x100;
  Command (str "set") Do_set
    (Some (c_str ["set <option> [value]\t- sets program options\n"]))
    (Some (c_str ["Sets <option> to [value], if no value is specified will display current value.\n\n";
      "Available options:\n";
      "debug <level>  - sets debug level (0-5)\n";
      "mkdir <on|off> - specifies whether setpath should create directories\n"])) 0x700;
  Command (str "exit") Do_quit
    (Some (c_str ["exit\t\t\t- exits program\n"]))
    (Some (c_str ["Exits program and disconnects from device.\n"])) 0x700;
  Command (str "help") Do_help
    (None)
    (None) 0x700
]%string.

(** [device] and the files are [tool]; [printed] is the output so far, errors
    among it, the latest last. *)
Record state (D F : Type) := State {
  tool_of : tool D F;
  mode : Z;
  region : Z;
  running : bool;
  connected : bool;
  debug : Z;
  mkdir : bool;
  authenticated : bool;
  disconnect_event : bool;
  cwd : option (list Z);
  dev_list : list device_map;
  cmd_list : list (list Z);
  printed : list (list Z);
}.
Arguments State {D F}.
Arguments tool_of {D F}.
Arguments mode {D F}.
Arguments region {D F}.
Arguments running {D F}.
Arguments connected {D F}.
Arguments debug {D F}.
Arguments mkdir {D F}.
Arguments authenticated {D F}.
Arguments disconnect_event {D F}.
Arguments cwd {D F}.
Arguments dev_list {D F}.
Arguments cmd_list {D F}.
Arguments printed {D F}.

Definition set_tool {D F} (v : tool D F) (s : state D F) : state D F :=
  State v (mode s) (region s) (running s) (connected s) (debug s) (mkdir s) (authenticated s) (disconnect_event s) (cwd s) (dev_list s) (cmd_list s) (printed s).
Definition set_mode {D F} (v : Z) (s : state D F) : state D F :=
  State (tool_of s) v (region s) (running s) (connected s) (debug s) (mkdir s) (authenticated s) (disconnect_event s) (cwd s) (dev_list s) (cmd_list s) (printed s).
Definition set_region {D F} (v : Z) (s : state D F) : state D F :=
  State (tool_of s) (mode s) v (running s) (connected s) (debug s) (mkdir s) (authenticated s) (disconnect_event s) (cwd s) (dev_list s) (cmd_list s) (printed s).
Definition set_running {D F} (v : bool) (s : state D F) : state D F :=
  State (tool_of s) (mode s) (region s) v (connected s) (debug s) (mkdir s) (authenticated s) (disconnect_event s) (cwd s) (dev_list s) (cmd_list s) (printed s).
Definition set_connected {D F} (v : bool) (s : state D F) : state D F :=
  State (tool_of s) (mode s) (region s) (running s) v (debug s) (mkdir s) (authenticated s) (disconnect_event s) (cwd s) (dev_list s) (cmd_list s) (printed s).
Definition set_debug {D F} (v : Z) (s : state D F) : state D F :=
  State (tool_of s) (mode s) (region s) (running s) (connected s) v (mkdir s) (authenticated s) (disconnect_event s) (cwd s) (dev_list s) (cmd_list s) (printed s).
Definition set_mkdir {D F} (v : bool) (s : state D F) : state D F :=
  State (tool_of s) (mode s) (region s) (running s) (connected s) (debug s) v (authenticated s) (disconnect_event s) (cwd s) (dev_list s) (cmd_list s) (printed s).
Definition set_authenticated {D F} (v : bool) (s : state D F) : state D F :=
  State (tool_of s) (mode s) (region s) (running s) (connected s) (debug s) (mkdir s) v (disconnect_event s) (cwd s) (dev_list s) (cmd_list s) (printed s).
Definition set_disconnect_event {D F} (v : bool) (s : state D F) : state D F :=
  State (tool_of s) (mode s) (region s) (running s) (connected s) (debug s) (mkdir s) (authenticated s) v (cwd s) (dev_list s) (cmd_list s) (printed s).
Definition set_cwd {D F} (v : option (list Z)) (s : state D F) : state D F :=
  State (tool_of s) (mode s) (region s) (running s) (connected s) (debug s) (mkdir s) (authenticated s) (disconnect_event s) v (dev_list s) (cmd_list s) (printed s).
Definition set_dev_list {D F} (v : list device_map) (s : state D F) : state D F :=
  State (tool_of s) (mode s) (region s) (running s) (connected s) (debug s) (mkdir s) (authenticated s) (disconnect_event s) (cwd s) v (cmd_list s) (printed s).
Definition set_cmd_list {D F} (v : list (list Z)) (s : state D F) : state D F :=
  State (tool_of s) (mode s) (region s) (running s) (connected s) (debug s) (mkdir s) (authenticated s) (disconnect_event s) (cwd s) (dev_list s) v (printed s).
Definition set_printed {D F} (v : list (list Z)) (s : state D F) : state D F :=
  State (tool_of s) (mode s) (region s) (running s) (connected s) (debug s) (mkdir s) (authenticated s) (disconnect_event s) (cwd s) (dev_list s) (cmd_list s) v.

Section Command.
Context {D F : Type} `{Device D} `{!Session D} `{Local F}.

(** As in [Content]; the largest [unsigned long]. *)
Context (junk_size junk_byte : Z) (char_signed : bool) (fuel : nat) (ulong_max : Z).
Context (to_locale : list Z → list Z → option (list Z)).
Abbreviation M := (res (state D F)).

Definition on_tool {A} (m : res (tool D F) A) : M A := λ s,
  match m (tool_of s) with
  | Ok a t => Ok a (set_tool t s)
  | Fault e => Fault e
  end.
Definition on_dict {A} (m : res D A) : M A := on_tool (on_device m).
Definition on_disk {A} (m : st F A) : M A := on_tool (on_files m).
Definition print (m : list Z) : M unit := res_upd (λ s, set_printed (printed s ++ [m]) s).
Definition print_error (rsp : Z) : M unit := print (str (exword_error_to_string rsp) ++ [10]).

(** *** The queue of words *)

Definition queue_arg (arg : list Z) : M unit := res_upd (λ s, set_cmd_list (cmd_list s ++ [arg]) s).
Definition peek_arg : M (option (list Z)) := res_get (λ s, head (cmd_list s)).
Definition dequeue_arg : M unit := res_upd (λ s, set_cmd_list (tail (cmd_list s)) s).
Definition clear_arg_list : M unit := res_upd (set_cmd_list []).

Fixpoint queue_words (n : nat) (rest : list Z) : M unit :=
  match n with
  | O => res_fault OutOfFuel
  | S n =>
      match strtok rest with
      | None => mret tt
      | Some (token, rest) => queue_arg token;; queue_words n rest
      end
  end.
(** The first word is queued before it is compared with [NULL]. *)
Definition fill_arg_list (line : list Z) : M unit :=
  '(token, rest) ← res_opt OutOfBounds (strtok line);
  queue_arg token;;
  queue_words (S (length rest)) rest.

(** *** Disconnection *)

Definition disconnect_notify (reason : Z) : M unit :=
  if reason =? 2 then
    print (c_str ["\nDevice was unplugged\n"%string]);; res_upd (set_disconnect_event true)
  else if reason =? 4 then
    print (c_str ["\nInternal Server Error\n"%string]);; res_upd (set_disconnect_event true)
  else mret tt.

Definition disconnect : M unit :=
  c ← res_get connected;
  if negb c then mret tt
  else
    event ← res_get disconnect_event;
    (if event : bool then mret tt else print (c_str ["disconnecting...done\n"%string]));;
    on_dict ses_disconnect;;
    res_upd (λ s, set_dev_list [] (set_disconnect_event false (set_authenticated false
      (set_connected false (set_region 0 (set_mode 0 (set_cwd None s)))))));;
    mret tt.

Definition quit : M unit := res_upd (set_running false);; disconnect.

(** *** Paths *)

(** [device] is [None] for a null pointer. *)
Definition _setpath (device pathname : list Z) (make : bool) : M Z :=
  path ← mkpath BACKSLASH (Some device) [Some pathname];
  let path := normalise (S (length path)) path in
  rsp ← on_dict (dev_setpath path make);
  (if rsp =? EXWORD_SUCCESS then res_upd (set_cwd (Some path)) else mret tt);;
  mret rsp.

(** *** Connection *)

Definition mode_of (word : list Z) : option Z :=
  if bool_decide (word = str "library") then Some EXWORD_MODE_LIBRARY
  else if bool_decide (word = str "text") then Some EXWORD_MODE_TEXT
  else if bool_decide (word = str "cd") then Some EXWORD_MODE_CD
  else None.
Definition region_of (word : list Z) : option Z :=
  if bool_decide (word = str "ja") then Some EXWORD_REGION_JA
  else if bool_decide (word = str "kr") then Some EXWORD_REGION_KR
  else if bool_decide (word = str "cn") then Some EXWORD_REGION_CN
  else if bool_decide (word = str "in") then Some EXWORD_REGION_IN
  else if bool_decide (word = str "it") then Some EXWORD_REGION_IT
  else if bool_decide (word = str "de") then Some EXWORD_REGION_DE
  else if bool_decide (word = str "es") then Some EXWORD_REGION_ES
  else if bool_decide (word = str "fr") then Some EXWORD_REGION_FR
  else if bool_decide (word = str "ru") then Some EXWORD_REGION_RU
  else None.

(** The options of the words; [None] after an error. *)
Definition connect_options : M (option Z) :=
  word ← peek_arg;
  match word with
  | None => mret (Some (Z.lor EXWORD_MODE_LIBRARY EXWORD_REGION_JA))
  | Some word =>
      (match mode_of word with
       | None => print (str "Unknown 'mode': " ++ word ++ [10])
       | Some _ => mret tt
       end);;
      dequeue_arg;;
      area ← peek_arg;
      match mode_of word, area with
      | None, _ => mret None
      | Some options, None => mret (Some (Z.lor options EXWORD_REGION_JA))
      | Some options, Some area =>
          match region_of area with
          | Some r => mret (Some (Z.lor options r))
          | None => print (str "Unknown 'region': " ++ area ++ [10]);; mret None
          end
      end
  end.

(** The names of the entries. *)
Definition entry_names (entries : list exword_dirent_t) : option (list (list Z)) :=
  mapM (λ e, cstr (d_name e)) entries.

Definition scan_devices : M unit :=
  rsp ← on_dict (dev_setpath [] false);
  if rsp =? EXWORD_SUCCESS then
    '(rsp, entries) ← on_dict Content.dev_list;
    if rsp =? EXWORD_SUCCESS then
      names ← res_opt OutOfBounds (entry_names (default [] entries));
      l ← res_get dev_list;
      l ← res_opt OutOfBounds (dev_list_scan l names);
      res_upd (set_dev_list l)
    else mret tt
  else mret tt.

Definition establish (options : Z) : M unit :=
  print (str "connecting to device...");;
  rsp ← on_dict (ses_connect options);
  if negb (rsp =? EXWORD_SUCCESS) then print (c_str ["device not found\n"%string])
  else
    scan_devices;;
    _setpath internal_path (str "/") true;;
    res_upd (λ s, set_region (Z.land options 0x00ff) (set_mode (Z.land options 0xff00) (set_connected true s)));;
    print (c_str ["done\n"%string]).

Definition connect_new : M unit :=
  options ← connect_options;
  match options with Some options => establish options | None => mret tt end.
Definition connect : M unit :=
  c ← res_get connected;
  if c : bool then mret tt else connect_new.

(** *** Commands on files *)

(** A command of a connected dictionary. *)
Definition when_connected (m : M unit) : M unit :=
  c ← res_get connected; if c : bool then m else mret tt.

(** A string of a fixed array, as [%s] prints it. *)
Definition array_string (l : list Z) : list Z := default l (cstr l).
Definition has_cap (m : exword_model_t) (c : Z) : bool := negb (Z.land (capabilities m) c =? 0).

Definition print_capabilities (m : exword_model_t) : list Z :=
  let part c s := if has_cap m c then str s else [] in
  str "Capabilities: " ++ part CAP_ST "ST "%string ++ part CAP_T "T "%string ++ part CAP_SW "SW "%string ++
  part CAP_P "P "%string ++ part CAP_F "F "%string ++ part CAP_C "C "%string ++ part CAP_C2 "C"%string ++
  part CAP_C3 "C"%string ++ [10].

Definition model : M unit :=
  when_connected
    ('(rsp, m) ← on_dict (ses_get_model (ModelInfo [] [] [] 0));
     if rsp =? EXWORD_SUCCESS then
       print (str "Model: " ++ array_string (Exword.model m) ++ c_str ["\nSub: "%string] ++
              array_string (sub_model m) ++ [10]);;
       (if has_cap m CAP_EXT then print (str "Extended: " ++ array_string (ext_model m) ++ [10]) else mret tt);;
       (if negb (Z.land (capabilities m) (Z.lnot CAP_EXT) =? 0) then print (print_capabilities m) else mret tt)
     else print_error rsp).

Definition capacity : M unit :=
  when_connected
    ('(rsp, cap) ← on_dict (dev_get_capacity (Capacity junk_size junk_size));
     if rsp =? EXWORD_SUCCESS then
       print (str "Capacity: " ++ decimal (total cap) ++ str " / " ++ decimal (free cap) ++ [10])
     else print_error rsp).

Definition format : M unit :=
  when_connected
    (print (str "Formatting SD Card...");;
     rsp ← on_dict ses_sd_format;
     print_error rsp).

Definition send : M unit :=
  when_connected
    (word ← peek_arg;
     match word with
     | None => print (c_str ["No file specified\n"%string])
     | Some filename =>
         print (str "uploading...");;
         r ← on_disk (read_file junk_size filename);
         rsp ← match r with
               | inl _ => mret (-1)
               | inr (buffer, len) =>
                   on_dict (dev_send_file (basename filename) (take (Z.to_nat len) buffer))
               end;
         print_error rsp
     end).

Definition get : M unit :=
  when_connected
    (word ← peek_arg;
     match word with
     | None => print (c_str ["No file specified\n"%string])
     | Some filename =>
         print (str "downloading...");;
         '(rsp, len, buffer) ← on_dict (dev_get_file (basename filename));
         rsp ← (if rsp =? EXWORD_SUCCESS then
                  if len <? 0 then res_fault OutOfBounds
                  else
                    r ← on_disk (write_file filename (take (Z.to_nat len) (default [] buffer)));
                    mret (match r with None => 0 | Some _ => -1 end)
                else mret rsp);
         print_error rsp
     end).

Definition delete : M unit :=
  when_connected
    (word ← peek_arg;
     match word with
     | None => print (c_str ["No file specified\n"%string])
     | Some filename =>
         print (str "deleting file...");;
         rsp ← match filename with
               | 42 :: name => on_dict (dev_remove_file name true)
               | _ => on_dict (dev_remove_file filename false)
               end;
         print_error rsp
     end).

Definition entry_is_unicode (e : exword_dirent_t) : bool := negb (Z.land (d_flags e) 2 =? 0).
Definition entry_is_directory (e : exword_dirent_t) : bool := negb (Z.land (d_flags e) 1 =? 0).

(** A name that cannot be converted leaves the pointer that is printed unset. *)
Definition print_entry (e : exword_dirent_t) : M unit :=
  name ← (if entry_is_unicode e
          then
            name ← res_opt OutOfBounds (to_locale (str "UTF-16BE") (take (Z.to_nat (d_size e - 3)) (d_name e)));
            mret (str "*" ++ array_string name)
          else res_opt OutOfBounds (cstr (d_name e)));
  print (if entry_is_directory e then str "<" ++ name ++ str ">" ++ [10] else name ++ [10]).
Fixpoint print_entries (entries : list exword_dirent_t) : M unit :=
  match entries with
  | [] => mret tt
  | e :: entries => print_entry e;; print_entries entries
  end.
Definition list_files : M unit :=
  when_connected
    ('(rsp, entries) ← on_dict Content.dev_list;
     (if rsp =? EXWORD_SUCCESS then print_entries (default [] entries) else mret tt);;
     print_error rsp).

(** *** Content *)

(** What follows a successful or a failed authentication. *)
Definition authenticate (user : list Z) (auth : option (list Z)) : M unit :=
  ok ← on_tool (content_auth junk_size junk_byte char_signed fuel user auth);
  if ok : bool then
    res_upd (set_authenticated true);; print (c_str ["Authentication sucessful.\n"%string])
  else print (c_str ["Authentication failed.\n"%string]).

(** The user of [auth]: given, or in a file of the dictionary. *)
Definition auth_user : M (option (list Z)) :=
  word ← peek_arg;
  match word with
  | Some user => dequeue_arg;; mret (Some user)
  | None =>
      '(rsp, len, buffer) ← on_dict (dev_get_file (str "user.inf"));
      if rsp =? EXWORD_SUCCESS then
        user ← res_opt OutOfBounds (scan_string (default [] buffer));
        if len <? zlen user then res_fault OutOfBounds else mret (Some user)
      else print (c_str ["No username specified.\n"%string]);; mret None
  end.

Definition content_auth_command : M unit :=
  user ← auth_user;
  match user with
  | None => mret tt
  | Some user =>
      word ← peek_arg;
      match word with
      | None => authenticate user None
      | Some word =>
          match scan_authkey word with
          | None => print (c_str ["Invalid character in authkey.\n"%string])
          | Some key =>
              if negb (zlen key =? 40) then print (c_str ["Authkey wrong length. Must be 20 bytes.\n"%string])
              else authenticate user (Some (take 20 (decode_authkey key)))
          end
      end
  end.

Definition content_reset_command : M unit :=
  word ← peek_arg;
  match word with
  | None => print (c_str ["No username specified.\n"%string])
  | Some user =>
      ok ← on_tool (content_reset junk_size junk_byte char_signed fuel user);
      res_upd (set_authenticated ok)
  end.

Definition content_list_command (root : list Z) : M unit :=
  word ← peek_arg;
  mo ← res_get mode;
  re ← res_get region;
  match word with
  | None => on_tool (content_list_remote to_locale re root);; mret tt
  | Some word =>
      if bool_decide (word = str "remote") then on_tool (content_list_remote to_locale re root);; mret tt
      else if bool_decide (word = str "local") then on_tool (content_list_local junk_size to_locale mo re);; mret tt
      else print (c_str ["Unknown parameter passed to list.\n"%string])
  end.

Definition content_change_command (subfunc root : list Z) : M unit :=
  word ← peek_arg;
  match word with
  | None => print (c_str ["No id specified.\n"%string])
  | Some x =>
      if negb (zlen x =? 5) then print (c_str ["Id must be 5 characters long.\n"%string])
      else
        auth ← res_get authenticated;
        mo ← res_get mode;
        re ← res_get region;
        if negb auth then print (c_str ["Not authenticated.\n"%string])
        else if bool_decide (subfunc = str "decrypt") then
          on_tool (content_decrypt char_signed mo re root x);; mret tt
        else if bool_decide (subfunc = str "install") then
          on_tool (content_install junk_size mo re root x);; mret tt
        else on_tool (content_remove root x);; mret tt
  end.

(** The directory of the content: the first component of the current path, and
    [SOUND] in the mode of audio disks. *)
Definition content_root (mo : Z) (path : list Z) : option (list Z) :=
  match path with
  | [] => None
  | c :: rest =>
      n ← list_find (λ c, c = 92) rest;
      Some (take (S n.1) path ++ if mo =? EXWORD_MODE_CD then str "\SOUND" else [])
  end.

Definition content : M unit :=
  when_connected
    (path ← res_get cwd;
     path ← res_opt OutOfBounds path;
     mo ← res_get mode;
     root ← res_opt OutOfBounds (content_root mo path);
     word ← peek_arg;
     match word with
     | None => print (c_str ["No sub-function specified.\n"%string])
     | Some subfunc =>
         dequeue_arg;;
         (if bool_decide (subfunc = str "list") then content_list_command root
          else if bool_decide (subfunc = str "reset") then content_reset_command
          else if bool_decide (subfunc = str "auth") then content_auth_command
          else if bool_decide (subfunc = str "decrypt") || bool_decide (subfunc = str "remove") ||
                  bool_decide (subfunc = str "install") then content_change_command subfunc root
          else print (c_str ["Unknown subfunction\n"%string]));;
         rsp ← on_dict (dev_setpath path false);
         if negb (rsp =? EXWORD_SUCCESS) then _setpath root (str "/") false;; mret tt else mret tt
     end).

(** *** Paths and options *)

Definition setpath : M unit :=
  when_connected
    (word ← peek_arg;
     match word with
     | None => print (c_str ["No path specified\n"%string])
     | Some arg =>
         match find_substring arg (str "://") with
         | None => print (c_str ["Invalid argument. Format <device>://<path>\n"%string])
         | Some n =>
             let name := take n arg in
             l ← res_get dev_list;
             found ← res_opt OutOfBounds (dev_list_search l name);
             match found with
             | None => print (str "No such device `" ++ name ++ c_str ["`.\n"%string])
             | Some m =>
                 make ← res_get mkdir;
                 rsp ← _setpath (root m) (drop (n + 3) arg) make;
                 if negb (rsp =? EXWORD_SUCCESS) then
                   print_error rsp;;
                   path ← res_get cwd;
                   path ← res_opt OutOfBounds path;
                   on_dict (dev_setpath path false);; mret tt
                 else mret tt
             end
         end
     end).

Definition set_debug_level (word : option (list Z)) : M unit :=
  match word with
  | None => d ← res_get debug; print (str "Debug Level: " ++ decimal d ++ [10])
  | Some arg =>
      match scan_hhu ulong_max arg with
      | None => print (c_str ["Invalid value\n"%string])
      | Some level =>
          if 5 <? level then print (c_str ["Value should be between 0 and 5\n"%string])
          else
            res_upd (set_debug level);;
            on_dict (λ d, Ok tt (ses_set_debug level d))
      end
  end.

Definition set_mkdir_option (word : option (list Z)) : M unit :=
  match word with
  | None =>
      m ← res_get mkdir; print (str "Mkdir: " ++ decimal (if m : bool then 1 else 0) ++ [10])
  | Some arg =>
      if bool_decide (arg ∈ map str ["on"; "yes"; "true"]%string) then res_upd (set_mkdir true)
      else if bool_decide (arg ∈ map str ["off"; "no"; "false"]%string) then res_upd (set_mkdir false)
      else print (c_str ["Invalid value\n"%string])
  end.

Definition set_command : M unit :=
  word ← peek_arg;
  match word with
  | None => print (c_str ["No option specified\n"%string])
  | Some opt =>
      if bool_decide (opt = str "debug") then dequeue_arg;; arg ← peek_arg; set_debug_level arg
      else if bool_decide (opt = str "mkdir") then dequeue_arg;; arg ← peek_arg; set_mkdir_option arg
      else print (str "Unknown option " ++ opt ++ [10])
  end.

(** *** The table *)

Definition find_command (cmd : list Z) : option command :=
  snd <$> list_find (λ c, cmd = cmd_str c) commands.

Definition help : M unit :=
  word ← peek_arg;
  match word with
  | None =>
      res_upd (λ s, set_printed (printed s ++ omap help_short commands) s)
  | Some cmd =>
      match find_command cmd with
      | Some c =>
          print (match help_long c with
                 | Some h => h
                 | None => str "No help available for " ++ cmd ++ [10]
                 end)
      | None => print (cmd ++ str " is not a command" ++ [10])
      end
  end.

Definition run_handler (h : handler) : M unit :=
  match h with
  | Do_connect => connect
  | Do_disconnect => disconnect
  | Do_model => model
  | Do_capacity => capacity
  | Do_format => format
  | Do_list => list_files
  | Do_delete => delete
  | Do_send => send
  | Do_get => get
  | Do_setpath => setpath
  | Do_content => content
  | Do_set => set_command
  | Do_quit => quit
  | Do_help => help
  end.

Definition process_command : M unit :=
  word ← peek_arg;
  cmd ← res_opt OutOfBounds word;
  match find_command cmd with
  | None => print (c_str ["Unknown command\n"%string])
  | Some c =>
      mo ← res_get mode;
      if negb (Z.land (cmd_mode c) mo =? 0) || (mo =? 0) then dequeue_arg;; run_handler (ptr c)
      else print (str "This option not supported in " ++ default (str "(null)") (mode_id2str mo) ++
                  c_str [" mode\n"%string])
  end.

(** *** The prompt *)

Definition create_prompt (path : option (list Z)) : list Z :=
  match path with Some path => path ++ str " >> " | None => str ">> " end.

Fixpoint notify_all (reasons : list Z) : M unit :=
  match reasons with
  | [] => mret tt
  | reason :: reasons => disconnect_notify reason;; notify_all reasons
  end.
Definition do_events : M unit :=
  reasons ← on_dict ses_poll;
  notify_all reasons;;
  event ← res_get disconnect_event;
  if event : bool then disconnect else mret tt.

(** [Hook]: the line editor waits and calls [do_events]; [Line None] is the end
    of the input. *)
Inductive input : Type :=
| Hook
| Line (line : option (list Z)).

Definition prompt_turn (i : input) : M unit :=
  match i with
  | Hook => do_events
  | Line None | Line (Some []) => mret tt
  | Line (Some line) => fill_arg_list line;; process_command;; clear_arg_list
  end.

(** The loop: whether it was left. *)
Fixpoint prompt_loop (inputs : list input) : M bool :=
  go ← res_get running;
  if negb go then mret true
  else
    match inputs with
    | [] => mret false
    | i :: inputs => prompt_turn i;; prompt_loop inputs
    end.

(** The file of the history. *)
Definition history_file : M (list Z) :=
  dir ← on_tool (ask_files get_data_dir); mkpath PATH_SEP dir [Some (str ".exword_history")].

(** Whether the program ended; the handle of the state before [exword_init] is
    not used. *)
Definition interactive (inputs : list input) : M bool :=
  print (c_str ["Exword dictionary tool.\nType 'help' for a list of commands.\n"%string]);;
  res_upd (λ s, set_dev_list [] (set_cmd_list [] (set_running true s)));;
  history_file;;
  handle ← res_opt OutOfBounds ses_init;
  res_upd (λ s, set_tool (Tool (ses_set_debug (debug s) (ses_register handle)) (files (tool_of s))) s);;
  ended ← prompt_loop inputs;
  if ended : bool then history_file;; on_dict ses_deinit;; mret true else mret false.
End Command.

(** All of [s] zero, with the files [f]; [d] is no handle yet. *)
Definition main {D F} `{Device D} `{!Session D} `{Local F} junk_size junk_byte char_signed fuel ulong_max
    to_locale (inputs : list input) (d : D) (f : F) : outcome (state D F) bool :=
  interactive junk_size junk_byte char_signed fuel ulong_max to_locale inputs
    (State (Tool d f) 0 0 false false 0 false false false None [] [] []).
