(* ===== verification/CommandFacts.v ===== *)
(** * libexword: theorems on the command line tool

    The words of a line, the paths and the keys it reads; the state of the
    session; what a user who has not been authenticated cannot reach; how the
    prompt ends. *)

From stdpp Require Import vector.
From Stdlib Require Import String Ascii.
From S2P Require Import Prelude Text DataBuffer Obex Crypt Exword Util Content ContentFacts Command.

(** ** Pieces of a string *)

(** The pieces between the characters that [p] holds of. *)
Fixpoint pieces (p : Z → bool) (s : list Z) : list (list Z) :=
  match s with
  | [] => [[]]
  | c :: s =>
      if p c then [] :: pieces p s
      else match pieces p s with w :: l => (c :: w) :: l | [] => [[c]] end
  end.
Definition nonempty (w : list Z) : Prop := w ≠ [].
#[export] Instance nonempty_dec w : Decision (nonempty w).
Proof. unfold nonempty. apply _. Defined.
Definition components (p : Z → bool) (s : list Z) : list (list Z) := filter nonempty (pieces p s).

Lemma pieces_cons p s : ∃ w l, pieces p s = w :: l.
Proof.
  induction s as [|c s (w & l & IH)]; cbn; [by eexists _, _|]. rewrite IH. destruct (p c); by eexists _, _.
Qed.
Lemma components_sep p c s : p c = true → components p (c :: s) = components p s.
Proof. intros Hc. unfold components. cbn. rewrite Hc. by rewrite filter_cons_False by (intros H; by apply H). Qed.

(** A string that starts with another character starts with a component. *)
Lemma components_word p c s : p c = false →
  ∃ w l, pieces p s = w :: l ∧ components p (c :: s) = (c :: w) :: filter nonempty l.
Proof.
  intros Hc. destruct (pieces_cons p s) as (w & l & Hs). exists w, l. split; [done|].
  unfold components. cbn. rewrite Hc, Hs. by rewrite filter_cons_True.
Qed.

(** ** The words of a line *)

Lemma skip_delimiters_components s : components is_delimiter (skip_delimiters s) = components is_delimiter s.
Proof.
  induction s as [|c s IH]; [done|]. cbn [skip_delimiters]. destruct (is_delimiter c) eqn:Hc; [|done].
  by rewrite IH, components_sep.
Qed.
Lemma skip_delimiters_head s : match skip_delimiters s with c :: _ => is_delimiter c = false | [] => True end.
Proof. induction s as [|c s IH]; [done|]. cbn. by destruct (is_delimiter c) eqn:Hc. Qed.
Lemma skip_delimiters_length s : (length (skip_delimiters s) <= length s)%nat.
Proof. induction s as [|c s IH]; [done|]. cbn. case_goal; cbn; lia. Qed.

Lemma take_word_pieces s : let '(w, r) := take_word s in
  (length r <= length s)%nat ∧
  ∃ l, pieces is_delimiter s = w :: l ∧ filter nonempty l = components is_delimiter r.
Proof.
  induction s as [|c s IH]; [by split; [|exists []]|]. cbn. destruct (is_delimiter c) eqn:Hc.
  { split; [lia|]. by exists (pieces is_delimiter s). }
  destruct (take_word s) as [w r]. destruct IH as (Hlen & l & -> & Hl). split; [lia|]. by exists l.
Qed.

(** The first word and the others. *)
Lemma strtok_spec s :
  match strtok s with
  | None => components is_delimiter s = []
  | Some (w, r) => components is_delimiter s = w :: components is_delimiter r ∧ (length r < length s)%nat
  end.
Proof.
  unfold strtok. rewrite <- (skip_delimiters_components s). pose proof (skip_delimiters_length s).
  pose proof (skip_delimiters_head s) as Hc. destruct (skip_delimiters s) as [|c t]; [done|].
  pose proof (take_word_pieces t) as Ht. cbn [take_word]. rewrite Hc. destruct (take_word t) as [w r].
  destruct Ht as (Hlen & l & Hpieces & Hl). cbn [length] in *.
  destruct (components_word is_delimiter c t Hc) as (w' & l' & Hp & ->).
  rewrite Hpieces in Hp. injection Hp as <- <-. rewrite Hl. split; [done|lia].
Qed.

Section Words.
Context {D F : Type} `{Device D} `{!Session D} `{Local F}.
Abbreviation M := (res (state D F)).

Lemma queue_words_spec n rest (s : state D F) : (length rest < n)%nat →
  queue_words n rest s = Ok tt (set_cmd_list (cmd_list s ++ components is_delimiter rest) s).
Proof.
  revert rest s. induction n as [|n IH]; intros rest s Hn; [lia|]. cbn [queue_words].
  pose proof (strtok_spec rest) as Hs. destruct (strtok rest) as [[w r]|].
  - destruct Hs as [-> Hr].
    change (queue_words n r (set_cmd_list (cmd_list s ++ [w]) s) =
      Ok tt (set_cmd_list (cmd_list s ++ w :: components is_delimiter r) s)).
    rewrite IH by lia. cbn. by rewrite <- app_assoc.
  - rewrite Hs, app_nil_r. by destruct s.
Qed.

(** A line is split into exactly its words, the longest runs of characters
    that are neither spaces nor tabs, in their order; a line without a word reads
    through a null pointer. *)
Theorem line_words line (s : state D F) :
  fill_arg_list line s =
  match components is_delimiter line with
  | [] => Fault OutOfBounds
  | words => Ok tt (set_cmd_list (cmd_list s ++ words) s)
  end.
Proof.
  unfold fill_arg_list. pose proof (strtok_spec line) as Hs. destruct (strtok line) as [[w r]|].
  - destruct Hs as [-> Hr].
    change (queue_words (S (length r)) r (set_cmd_list (cmd_list s ++ [w]) s) =
      Ok tt (set_cmd_list (cmd_list s ++ w :: components is_delimiter r) s)).
    rewrite queue_words_spec by lia. cbn. by rewrite <- app_assoc.
  - by rewrite Hs.
Qed.
End Words.

(** ** The paths *)

(** Only backslashes separate, never two in a row. *)
Fixpoint path_ok (s : list Z) : Prop :=
  match s with
  | [] => True
  | c :: s' => c ≠ 47 ∧ (match s' with b :: _ => ¬ (c = 92 ∧ b = 92) | [] => True end) ∧ path_ok s'
  end.

(** The first piece and the components behind it. *)
Definition parts (s : list Z) : list Z * list (list Z) :=
  match pieces is_separator s with w :: l => (w, filter nonempty l) | [] => ([], []) end.

Lemma parts_components s t : parts s = parts t → components is_separator s = components is_separator t.
Proof.
  unfold parts, components. destruct (pieces_cons is_separator s) as (w & l & ->).
  destruct (pieces_cons is_separator t) as (w' & l' & ->). intros [= -> Hl].
  destruct (decide (nonempty w')); [rewrite !filter_cons_True by done; by rewrite Hl|].
  by rewrite !filter_cons_False.
Qed.
Lemma parts_sep c s : is_separator c = true → parts (c :: s) = ([], components is_separator s).
Proof. intros Hc. unfold parts. cbn. by rewrite Hc. Qed.
Lemma parts_char c s : is_separator c = false → parts (c :: s) = (c :: (parts s).1, (parts s).2).
Proof.
  intros Hc. unfold parts. cbn. rewrite Hc. by destruct (pieces_cons is_separator s) as (w & l & ->).
Qed.

Lemma drop_separators_parts s : parts (drop_separators s) = parts s.
Proof.
  induction s as [|a s IH]; [done|]. destruct s as [|b s]; [done|]. cbn [drop_separators] in *.
  destruct (is_separator a && is_separator b) eqn:Hab; [|done]. apply andb_true_iff in Hab as [Ha Hb].
  rewrite IH, parts_sep, (parts_sep a), components_sep by done. done.
Qed.
Lemma drop_separators_shape s :
  (length (drop_separators s) <= length s)%nat ∧
  match drop_separators s with
  | a :: b :: _ => is_separator a && is_separator b = false
  | _ => True
  end ∧
  match s with
  | c :: _ => ∃ c' t, drop_separators s = c' :: t ∧ is_separator c' = is_separator c ∧
                (is_separator c = false → c' = c)
  | [] => True
  end.
Proof.
  induction s as [|a s IH]; [done|]. destruct s as [|b s]; [by split_and!; [done|done|exists a, []]|]. cbn [drop_separators] in *.
  destruct (is_separator a && is_separator b) eqn:Hab.
  2: { split_and!; [done|done|]. eauto. }
  apply andb_true_iff in Hab as [Ha Hb]. destruct IH as (Hlen & Hshape & c' & t & Ht & Hc' & _).
  split_and!; [cbn in *; lia|done|]. exists c', t. split_and!; [done|congruence|intros ?; congruence].
Qed.

Lemma normalise_spec fuel p : (length p < fuel)%nat →
  parts (normalise fuel p) = parts p ∧ path_ok (normalise fuel p) ∧
  match p with
  | c :: _ => ∃ t, normalise fuel p = (if is_separator c then 92 else c) :: t
  | [] => normalise fuel p = []
  end.
Proof.
  revert p. induction fuel as [|fuel IH]; intros p Hp; [lia|]. cbn [normalise].
  pose proof (drop_separators_parts p) as Hparts. pose proof (drop_separators_shape p) as (Hlen & Hshape & Hhead).
  destruct (drop_separators p) as [|c t] eqn:Hd.
  { destruct p; [done|]. by destruct Hhead as (? & ? & ? & _). }
  cbn [length] in Hlen. destruct (IH t) as (Ht & Hok & Hhd); [lia|].
  set (c' := if c =? 47 then 92 else c).
  assert (is_separator c' = is_separator c ∧ c' ≠ 47 ∧ (is_separator c = true → c' = 92) ∧
    (is_separator c = false → c' = c)) as (Hsep & H47 & Htrue & Hfalse).
  { unfold c', is_separator. destruct (Z.eqb_spec c 47) as [->|Hne]; [done|]. cbn.
    rewrite (proj2 (Z.eqb_neq c 47) Hne). split_and!; [done|done|by intros ->%Z.eqb_eq|done]. }
  split_and!.
  - rewrite <- Hparts. destruct (is_separator c) eqn:Hc.
    + rewrite !parts_sep by congruence. by rewrite (parts_components _ _ Ht).
    + rewrite !parts_char, Ht by congruence. by rewrite Hfalse.
  - cbn. split_and!; [done| |done]. destruct t as [|b t']; [by rewrite Hhd|]. destruct Hhd as (t'' & ->).
    destruct (is_separator c) eqn:Hc; [|intros [Hc' _]; rewrite Hc' in Hsep; done].
    cbn in Hshape. rewrite Hshape. intros [_ ->]. done.
  - destruct p as [|d p]; [done|]. destruct Hhead as (c'' & t' & [= <- <-] & Hcd & Hsame). exists (normalise fuel t).
    f_equal. destruct (is_separator d) eqn:Hd'; [by apply Htrue|]. rewrite Hfalse by done. by apply Hsame.
Qed.

Lemma pieces_app p s c t : p c = true → pieces p (s ++ c :: t) = pieces p s ++ pieces p t.
Proof.
  intros Hc. induction s as [|d s IH]; cbn; [by rewrite Hc|]. rewrite IH.
  destruct (p d); [done|]. by destruct (pieces_cons p s) as (w & l & ->).
Qed.
Lemma components_app p s c t : p c = true →
  components p (s ++ c :: t) = components p s ++ components p t.
Proof. intros Hc. unfold components. by rewrite pieces_app, filter_app. Qed.

(** The path that is sent and becomes the current one names the directory of
    the device and then that of the argument, component by component, whatever
    separators were typed; backslashes alone separate, never two in a row. *)
Theorem path_normalised {D F} `{Device D} device pathname make (s : state D F) :
  ∃ path, path_ok path ∧
    components is_separator path = components is_separator device ++ components is_separator pathname ∧
    _setpath device pathname make s =
    (rsp ← on_dict (dev_setpath path make);
     (if rsp =? EXWORD_SUCCESS then res_upd (set_cwd (Some path)) else mret tt);; mret rsp) s.
Proof.
  set (path := device ++ 92 :: pathname). exists (normalise (S (length path)) path).
  destruct (normalise_spec (S (length path)) path) as (Hparts & Hok & _); [lia|].
  split_and!; [done| |done]. rewrite (parts_components _ _ Hparts). by apply components_app.
Qed.

(** ** The keys *)

Definition hex_digit (upper : bool) (v : Z) : Z :=
  if v <? 10 then 48 + v else (if upper then 55 else 87) + v.
Definition hex_byte (upper : bool) (b : Z) : list Z := [hex_digit upper (b / 16); hex_digit upper (b mod 16)].
Definition hex_string (upper : bool) (key : list Z) : list Z := concat (map (hex_byte upper) key).

Lemma byte_cases (f : Z → bool) b :
  forallb f (map Z.of_nat (seq 0 256)) = true → is_u 8 b → f b = true.
Proof.
  rewrite forallb_forall. intros Hf Hb. apply Hf, in_map_iff. exists (Z.to_nat b).
  unfold is_u in Hb. rewrite in_seq. lia.
Qed.

Lemma hex_byte_ok upper b : is_u 8 b →
  Forall (λ c, is_hex c = true) (hex_byte upper b) ∧
  u8 (Z.lor (u8 (Z.shiftl (hex_value (hex_digit upper (b / 16))) 4)) (hex_value (hex_digit upper (b mod 16)))) = b.
Proof.
  intros Hb. pose proof (byte_cases (λ b, bool_decide (Forall (λ c, is_hex c = true) (hex_byte upper b) ∧
    u8 (Z.lor (u8 (Z.shiftl (hex_value (hex_digit upper (b / 16))) 4)) (hex_value (hex_digit upper (b mod 16)))) = b)) b) as Hf.
  apply bool_decide_eq_true in Hf; [done| |done]. by destruct upper; vm_compute.
Qed.

Lemma hex_string_length upper key : length (hex_string upper key) = (2 * length key)%nat.
Proof. unfold hex_string. induction key as [|b key IH]; [done|]. cbn in *. lia. Qed.
Lemma hex_string_ok upper key : bytes_ok key → Forall (λ c, is_hex c = true) (hex_string upper key).
Proof.
  unfold hex_string. induction 1 as [|b key Hb _ IH]; [constructor|].
  cbn [map concat]. apply Forall_app. split; [by apply hex_byte_ok|done].
Qed.
Lemma hex_prefix_all n s rest : Forall (λ c, is_hex c = true) s → length s = n → hex_prefix n (s ++ rest) = s.
Proof.
  intros Hs <-. induction Hs as [|c s Hc Hs IH]; [done|]. cbn. by rewrite Hc, IH.
Qed.

Lemma decode_loop_spec upper key n k a :
  bytes_ok key → length key = 20%nat → length a = 40%nat → (k + n = 20)%nat →
  drop (2 * k) a = hex_string upper (drop k key) →
  take 20 (decode_loop n (2 * k) a) = take k a ++ drop k key.
Proof.
  intros Hkey Hlen. revert k a. induction n as [|n IH]; intros k a Ha Hk Hdrop.
  { replace k with 20%nat by lia. by rewrite (drop_ge key), app_nil_r by lia. }
  destruct (lookup_lt_is_Some_2 key k) as [b Hb]; [lia|].
  assert (is_u 8 b) as Hu by (by apply (Forall_lookup_1 _ key k)).
  rewrite (drop_S _ _ _ Hb) in Hdrop |- *. unfold hex_string in Hdrop. cbn [map concat hex_byte app] in Hdrop.
  fold (hex_string upper (drop (S k) key)) in Hdrop.
  assert (a !!! (2 * k)%nat = hex_digit upper (b / 16) ∧ a !!! S (2 * k) = hex_digit upper (b mod 16)) as [H0 H1].
  { split; apply list_lookup_total_correct.
    - rewrite <- (Nat.add_0_r (2 * k)), <- lookup_drop, Hdrop. done.
    - rewrite <- (Nat.add_1_r (2 * k)), <- lookup_drop, Hdrop. done. }
  cbn [decode_loop]. rewrite H0, H1, (proj2 (hex_byte_ok upper b Hu)).
  replace (Nat.div (2 * k) 2) with k by (rewrite Nat.mul_comm; by rewrite Nat.div_mul).
  replace (S (S (2 * k))) with (2 * S k)%nat by lia.
  rewrite IH; [|by rewrite length_insert|lia|].
  - rewrite (take_S_r _ _ b) by (apply list_lookup_insert_eq; lia).
    rewrite take_insert_ge by lia. by rewrite <- app_assoc.
  - rewrite drop_insert_lt by lia. replace (2 * S k)%nat with (2 * k + 2)%nat by lia.
    by rewrite <- drop_drop, Hdrop.
Qed.

(** The 40 hexadecimal digits after [0x], of either case, are read as the 20
    bytes of the key they write, whatever follows them. *)
Theorem authkey_roundtrip upper key rest : bytes_ok key → length key = 20%nat →
  ∃ digits, scan_authkey (str "0x" ++ hex_string upper key ++ rest) = Some digits ∧
    zlen digits = 40 ∧ take 20 (decode_authkey digits) = key.
Proof.
  intros Hkey Hlen. pose proof (hex_string_length upper key) as Hhex. exists (hex_string upper key). split_and!.
  - change (match hex_prefix 40 (hex_string upper key ++ rest) with [] => None | k => Some k end =
      Some (hex_string upper key)).
    rewrite hex_prefix_all by (lia || by apply hex_string_ok).
    destruct (hex_string upper key); [cbn in Hhex; lia|done].
  - unfold zlen. lia.
  - etrans; [apply (decode_loop_spec upper key 20 0); (done || lia)|done].
Qed.
Definition sample_key : list Z := map (λ n, Z.of_nat n * 13 mod 256) (seq 0 20).
Lemma authkey_roundtrip_witness :
  ∃ digits, scan_authkey (str "0x" ++ hex_string true sample_key ++ str "zz") = Some digits ∧
    zlen digits = 40 ∧ take 20 (decode_authkey digits) = sample_key.
Proof. apply authkey_roundtrip; [|done]. apply (bool_decide_unpack _). vm_compute. exact I. Defined.

(** ** What the state keeps *)

Definition cwd_ok {D F} (s : state D F) : Prop := ∀ p, cwd s = Some p → path_ok p.

(** Without a dictionary nothing of a session is left; with one, the mode is one
    of the three. *)
Definition consistent {D F} (s : state D F) : Prop :=
  cwd_ok s ∧
  if connected s then mode s = EXWORD_MODE_LIBRARY ∨ mode s = EXWORD_MODE_TEXT ∨ mode s = EXWORD_MODE_CD
  else mode s = 0 ∧ region s = 0 ∧ authenticated s = false ∧ cwd s = None ∧ dev_list s = [].

Section State.
Context {D F : Type} `{Device D} `{!Session D} `{Local F}.
Context (junk_size junk_byte : Z) (char_signed : bool) (fuel : nat) (ulong_max : Z).
Context (to_locale : list Z → list Z → option (list Z)).
Abbreviation M := (res (state D F)).

(** A computation keeps a property of the state. *)
Definition saves (P : state D F → Prop) {A} (m : M A) : Prop := res_triple P m (λ _, P).

(** A property that does not look at the dictionary, the files, the words and
    the output. *)
Class Output_property (P : state D F → Prop) : Prop := {
  op_tool t s : P s → P (set_tool t s);
  op_printed l s : P s → P (set_printed l s);
}.
Class Session_property (P : state D F → Prop) : Prop := {
  sp_output :: Output_property P;
  sp_words l s : P s → P (set_cmd_list l s);
}.

Section Output.
Context (P : state D F → Prop) `{!Output_property P}.

Lemma saves_ret {A} (a : A) : saves P (mret a).
Proof. by apply res_triple_ret. Qed.
Lemma saves_bind {A B} (m : M A) (f : A → M B) : saves P m → (∀ a, saves P (f a)) → saves P (m ≫= f).
Proof. intros Hm Hf. by apply (res_triple_bind _ _ _ (λ _, P)). Qed.
Lemma saves_get {A} (q : state D F → A) : saves P (res_get q).
Proof. intros s a s' Hs [= <- <-]. done. Qed.
Lemma saves_opt {A} e (o : option A) : saves P (res_opt e o).
Proof. by apply res_triple_opt. Qed.
Lemma saves_fault {A} e : saves P (res_fault e : M A).
Proof. apply res_triple_fault. Qed.
Lemma saves_upd (f : state D F → state D F) : (∀ s, P s → P (f s)) → saves P (res_upd f).
Proof. intros Hf s a s' Hs [= <- <-]. auto. Qed.
Lemma saves_tool {A} (m : res (tool D F) A) : saves P (on_tool m).
Proof.
  intros s a s' Hs. unfold on_tool. destruct (m (tool_of s)) as [b t|]; [|done].
  intros [= <- <-]. by apply op_tool.
Qed.
Lemma saves_dict {A} (m : res D A) : saves P (on_dict m).
Proof. apply saves_tool. Qed.
Lemma saves_disk {A} (m : st F A) : saves P (on_disk m).
Proof. apply saves_tool. Qed.
Lemma saves_print m : saves P (print m).
Proof. apply saves_upd. intros s. apply op_printed. Qed.
Lemma saves_print_error rsp : saves P (print_error rsp).
Proof. apply saves_print. Qed.
Lemma saves_peek : saves P peek_arg.
Proof. apply saves_get. Qed.
Lemma saves_when m : saves P m → saves P (when_connected m).
Proof. intros Hm. apply saves_bind; [apply saves_get|]. intros [|]; [done|apply saves_ret]. Qed.
Lemma saves_mkpath sep base l : saves P (mkpath sep base l).
Proof. apply saves_bind; [apply saves_opt|]. intros b. apply saves_ret. Qed.
End Output.

Section Property.
Context (P : state D F → Prop) `{!Session_property P}.
Lemma saves_dequeue : saves P dequeue_arg.
Proof. apply saves_upd. intros s. apply sp_words. Qed.
Lemma saves_queue w : saves P (queue_arg w).
Proof. apply saves_upd. intros s. apply sp_words. Qed.
End Property.

Create HintDb saves.
Hint Resolve saves_mkpath saves_ret saves_get saves_opt saves_fault saves_tool saves_dict saves_disk saves_print
  saves_print_error saves_peek saves_dequeue saves_queue : saves.
Hint Extern 1 (Session_property _) => typeclasses eauto : saves.
Hint Extern 1 (Output_property _) => typeclasses eauto : saves.

Ltac saves :=
  repeat match goal with
  | |- saves _ (_ ≫= _) => apply saves_bind; [|intros ?]
  | |- saves _ (when_connected _) => apply saves_when
  | |- saves _ (match ?x with _ => _ end) => destruct x
  | |- saves _ (let '(_, _) := ?x in _) => destruct x
  | |- saves _ _ => solve [auto with saves]
  | |- saves _ _ => progress cbv zeta
  end.

Section Plain.
Context (P : state D F → Prop) `{!Session_property P}.

Lemma saves_model : saves P model.
Proof. unfold model. saves. Qed.
Lemma saves_capacity : saves P (capacity junk_size).
Proof. unfold capacity. saves. Qed.
Lemma saves_format : saves P format.
Proof. unfold format. saves. Qed.
Lemma saves_send : saves P (send junk_size).
Proof. unfold send. saves. Qed.
Lemma saves_get_file : saves P get.
Proof. unfold get. saves. Qed.
Lemma saves_delete : saves P delete.
Proof. unfold delete. saves. Qed.
Lemma saves_entries l : saves P (print_entries to_locale l).
Proof. induction l as [|e l IH]; cbn [print_entries]; unfold print_entry; saves. Qed.
Hint Resolve saves_entries : saves.
Lemma saves_list : saves P (list_files to_locale).
Proof. unfold list_files. saves. Qed.

Lemma saves_setpath_raw (P_cwd : ∀ p s, P s → path_ok p → P (set_cwd (Some p) s)) device pathname make :
  saves P (_setpath device pathname make).
Proof.
  intros s a s' Hs Hm. destruct (path_normalised device pathname make s) as (path & Hok & _ & Heq).
  rewrite Heq in Hm. clear Heq. revert s a s' Hs Hm. change (saves P
    (rsp ← on_dict (dev_setpath path make);
     (if rsp =? EXWORD_SUCCESS then res_upd (set_cwd (Some path)) else mret tt);; mret rsp)).
  saves. apply saves_upd. intros s Hs. by apply P_cwd.
Qed.

Lemma saves_list_command r : saves P (content_list_command junk_size to_locale r).
Proof. unfold content_list_command. saves. Qed.
Lemma saves_change_command f r : saves P (content_change_command junk_size char_signed f r).
Proof. unfold content_change_command. saves. Qed.
End Plain.
Hint Resolve saves_model saves_capacity saves_format saves_send saves_get_file saves_delete saves_list
  saves_list_command saves_change_command : saves.

(** *** The session *)

Definition linked (s : state D F) : Prop := consistent s ∧ connected s = true.
Definition linking (s : state D F) : Prop :=
  cwd_ok s ∧ connected s = false ∧ mode s = 0 ∧ region s = 0 ∧ authenticated s = false.

Instance consistent_property : Session_property consistent.
Proof. split; [by split|done]. Qed.
Instance linked_property : Session_property linked.
Proof. split; [by split|done]. Qed.
Instance linking_property : Session_property linking.
Proof. split; [by split|done]. Qed.

Lemma saves_when_linked m : saves linked m → saves consistent (when_connected m).
Proof.
  intros Hm s a s' Hs. unfold when_connected. rewrite (bind_ok _ _ s (connected s) s) by done.
  destruct (connected s) eqn:Hc; intros Hrun; [|by inversion Hrun; subst].
  assert (linked s) as Hl by done. apply (Hm s a s' Hl Hrun).
Qed.

Lemma linked_cwd p s : linked s → path_ok p → linked (set_cwd (Some p) s).
Proof.
  intros [[_ Hs] Hc] Hp. unfold linked, consistent in *. cbn in *. rewrite Hc in *.
  split_and!; [|done|done]. by intros q [= <-].
Qed.
Lemma linked_authenticated b s : linked s → linked (set_authenticated b s).
Proof. intros [[? Hs] Hc]. unfold linked, consistent in *. cbn in *. by rewrite Hc in *. Qed.

Lemma saves_linked_setpath device pathname make : saves linked (_setpath device pathname make).
Proof. apply saves_setpath_raw; [apply _|apply linked_cwd]. Qed.
Lemma saves_linked_authenticated b : saves linked (res_upd (set_authenticated b)).
Proof. apply saves_upd, linked_authenticated. Qed.
Hint Resolve saves_linked_setpath saves_linked_authenticated : saves.

Lemma saves_content : saves consistent (content junk_size junk_byte char_signed fuel to_locale).
Proof.
  unfold content. apply saves_when_linked.
  unfold content_auth_command, content_reset_command, auth_user, authenticate. saves.
Qed.
Lemma saves_setpath : saves consistent setpath.
Proof. unfold setpath. apply saves_when_linked. saves. Qed.
Lemma saves_set : saves consistent (set_command ulong_max).
Proof.
  unfold set_command, set_debug_level, set_mkdir_option. saves; by apply saves_upd.
Qed.
Lemma saves_help : saves consistent help.
Proof. unfold help. saves. by apply saves_upd. Qed.

Lemma saves_disconnect : saves consistent disconnect.
Proof.
  unfold disconnect. saves. apply saves_upd. by intros s _.
Qed.
Lemma saves_quit : saves consistent quit.
Proof. unfold quit. saves; [by apply saves_upd|apply saves_disconnect]. Qed.

Lemma linking_cwd p s : linking s → path_ok p → linking (set_cwd (Some p) s).
Proof. intros (Hs & Hrest) Hp. split; [|done]. by intros q [= <-]. Qed.
Lemma saves_scan : saves linking scan_devices.
Proof.
  unfold scan_devices. saves. apply saves_upd. intros s Hs. by destruct Hs as (? & ? & ? & ? & ?).
Qed.
Lemma saves_linking_setpath device pathname make : saves linking (_setpath device pathname make).
Proof. apply saves_setpath_raw; [apply _|apply linking_cwd]. Qed.

(** The mode that the words give. *)
Lemma mode_of_known word m : mode_of word = Some m →
  m = EXWORD_MODE_LIBRARY ∨ m = EXWORD_MODE_TEXT ∨ m = EXWORD_MODE_CD.
Proof. unfold mode_of. repeat case_match; intros [= <-]; auto. Qed.
Lemma region_of_known word r : region_of word = Some r → 0 <= r < 256.
Proof. unfold region_of. repeat case_match; intros [= <-]; done. Qed.

Definition options_ok (o : option Z) : Prop := ∀ options, o = Some options →
  Z.land options 0xff00 = EXWORD_MODE_LIBRARY ∨ Z.land options 0xff00 = EXWORD_MODE_TEXT ∨
  Z.land options 0xff00 = EXWORD_MODE_CD.

Lemma options_mode m r : (m = EXWORD_MODE_LIBRARY ∨ m = EXWORD_MODE_TEXT ∨ m = EXWORD_MODE_CD) →
  0 <= r < 256 → Z.land (Z.lor m r) 0xff00 = m.
Proof.
  intros Hm Hr. rewrite Z.land_lor_distr_l.
  assert (Z.land r 0xff00 = 0) as ->.
  { apply Z.bits_inj'. intros n Hn. rewrite Z.land_spec, Z.bits_0.
    destruct (Z.lt_ge_cases n 8) as [Hlt|Hge].
    - change 0xff00 with (Z.shiftl 0xff 8). rewrite Z.shiftl_spec_low by lia. apply andb_false_r.
    - by rewrite (is_u_above 8 r n). }
  rewrite Z.lor_0_r. by destruct Hm as [->|[->| ->]].
Qed.

Lemma connect_options_ok (P : state D F → Prop) `{!Session_property P} :
  res_triple P connect_options (λ o s, P s ∧ options_ok o).
Proof.
  unfold connect_options. apply (res_triple_bind _ _ _ (λ _, P)); [apply saves_peek|].
  intros [word|]; [|apply res_triple_ret; split; [done|intros o [= <-]; by left]].
  apply (res_triple_bind _ _ _ (λ _, P)).
  { destruct (mode_of word); [by apply res_triple_ret|apply saves_print; apply _]. }
  intros _. apply (res_triple_bind _ _ _ (λ _, P)); [apply saves_dequeue; apply _|].
  intros _. apply (res_triple_bind _ _ _ (λ _, P)); [apply saves_peek|]. intros area.
  destruct (mode_of word) as [m|] eqn:Hm; [|by apply res_triple_ret].
  pose proof (mode_of_known word m Hm) as Hknown. destruct area as [area|].
  - destruct (region_of area) as [r|] eqn:Hr.
    + apply res_triple_ret. split; [done|]. intros o [= <-].
      by rewrite options_mode by (done || by apply (region_of_known area)).
    + apply (res_triple_bind _ _ _ (λ _, P)); [apply saves_print; apply _|]. intros _. by apply res_triple_ret.
  - apply res_triple_ret. split; [done|]. intros o [= <-]. by rewrite options_mode.
Qed.

Lemma linking_consistent s : linking s → dev_list s = [] → cwd s = None → consistent s.
Proof. intros (? & Hc & ? & ? & ?) ? ?. unfold consistent. rewrite Hc. by split_and!. Qed.

(** Nothing of a session before it is established. *)
Definition unlinked (s : state D F) : Prop := linking s ∧ dev_list s = [] ∧ cwd s = None.
Instance unlinked_property : Session_property unlinked.
Proof. split; [by split|done]. Qed.

Lemma establish_ok options :
  options_ok (Some options) → res_triple unlinked (establish options) (λ _, consistent).
Proof.
  intros Hopt. unfold establish.
  apply (res_triple_bind _ _ _ (λ _, unlinked)); [apply saves_print; apply _|]. intros _.
  apply (res_triple_bind _ _ _ (λ _, unlinked)); [apply saves_dict; apply _|]. intros rsp.
  case_goal.
  { eapply res_triple_conseq; [apply (saves_print unlinked)|done|].
    intros _ s (Hl & ? & ?). by apply linking_consistent. }
  apply (res_triple_bind _ _ _ (λ _, linking)).
  { eapply res_triple_conseq; [apply saves_scan|by intros s [Hl _]|done]. }
  intros _. apply (res_triple_bind _ _ _ (λ _, linking)); [apply saves_linking_setpath|]. intros _.
  apply (res_triple_bind _ _ _ (λ _, consistent)); [|intros _; apply saves_print; apply _].
  intros s a s' (Hcwd & _) [= _ <-]. split; [done|]. cbn. by apply Hopt.
Qed.

Lemma saves_connect : saves consistent connect.
Proof.
  intros s a s' Hs. unfold connect. rewrite (bind_ok _ _ s (connected s) s) by done.
  destruct (connected s) eqn:Hc; [intros Hrun; by inversion Hrun; subst|].
  assert (unlinked s) as Hl.
  { destruct Hs as [Hcwd Hs]. rewrite Hc in Hs. destruct Hs as (? & ? & ? & ? & ?). by split_and!. }
  assert (res_triple unlinked connect_new (λ _, consistent)) as Hnew; [|by apply Hnew].
  unfold connect_new. apply (res_triple_bind _ _ _ (λ o s, unlinked s ∧ options_ok o)); [apply connect_options_ok; apply _|].
  intros [options|].
  - intros t b t' [Ht Ho]. by apply (establish_ok options).
  - apply res_triple_ret. intros t [(? & ? & ?) _]. by apply linking_consistent.
Qed.

Lemma saves_handler h : saves consistent (run_handler junk_size junk_byte char_signed fuel ulong_max to_locale h).
Proof.
  destruct h; cbn [run_handler];
    [apply saves_connect|apply saves_disconnect|apply saves_model|apply saves_capacity|apply saves_format
    |apply saves_list|apply saves_delete|apply saves_send|apply saves_get_file|apply saves_setpath
    |apply saves_content|apply saves_set|apply saves_quit|apply saves_help]; apply _.
Qed.
Lemma saves_process : saves consistent (process_command junk_size junk_byte char_signed fuel ulong_max to_locale).
Proof. unfold process_command. saves. apply saves_handler. Qed.

Lemma saves_fill line : saves consistent (fill_arg_list line).
Proof.
  intros s a s' Hs. rewrite line_words. destruct (components is_delimiter line); [done|].
  by intros [= _ <-].
Qed.
Lemma saves_notify l : saves consistent (notify_all l).
Proof.
  induction l as [|r l IH]; cbn [notify_all]; unfold disconnect_notify; saves; try by apply saves_upd.
  all: exact IH.
Qed.
Lemma saves_events : saves consistent do_events.
Proof. unfold do_events. saves; [apply saves_notify|apply saves_disconnect]. Qed.

Lemma saves_turn i : saves consistent (prompt_turn junk_size junk_byte char_signed fuel ulong_max to_locale i).
Proof.
  destruct i as [|[[|c line]|]]; cbn [prompt_turn]; try apply saves_ret; [apply saves_events|].
  saves; [apply saves_fill|apply saves_process|by apply saves_upd].
Qed.
Lemma saves_loop inputs :
  saves consistent (prompt_loop junk_size junk_byte char_signed fuel ulong_max to_locale inputs).
Proof.
  induction inputs as [|i inputs IH]; cbn [prompt_loop]; saves. apply saves_turn.
Qed.
Lemma saves_interactive inputs :
  saves consistent (interactive junk_size junk_byte char_signed fuel ulong_max to_locale inputs).
Proof.
  unfold interactive, history_file. saves; [| |apply saves_loop].
  - apply saves_upd. intros s [Hcwd Hs]. split; [done|]. cbn. destruct (connected s); [done|].
    by destruct Hs as (? & ? & ? & ? & ?).
  - by apply saves_upd.
Qed.

(** *** Running *)

(** The program goes on; and no word is left of the last line. *)
Definition up (s : state D F) : Prop := running s = true.
Definition idle (s : state D F) : Prop := running s = true ∧ cmd_list s = [].
Instance up_property : Session_property up.
Proof. split; [by split|done]. Qed.
Instance idle_property : Output_property idle.
Proof. by split. Qed.
Hint Extern 1 (saves up (res_upd _)) => (apply saves_upd; by intros) : saves.
Hint Extern 1 (saves idle (res_upd _)) => (apply saves_upd; by intros) : saves.

Lemma up_setpath dev pathname make : saves up (_setpath dev pathname make).
Proof. unfold _setpath. saves. Qed.
Hint Resolve up_setpath : saves.
Lemma up_connect : saves up connect.
Proof. unfold connect, connect_new, establish, connect_options, scan_devices. saves. Qed.
Lemma up_disconnect : saves up disconnect.
Proof. unfold disconnect. saves. Qed.
Lemma up_content : saves up (content junk_size junk_byte char_signed fuel to_locale).
Proof.
  unfold content, content_auth_command, content_reset_command, auth_user, authenticate. saves.
Qed.
Lemma up_set : saves up (set_command ulong_max).
Proof. unfold set_command, set_debug_level, set_mkdir_option. saves. Qed.
Lemma up_handler h : h ≠ Do_quit →
  saves up (run_handler junk_size junk_byte char_signed fuel ulong_max to_locale h).
Proof.
  intros Hh. destruct h; try done; cbn [run_handler];
    [apply up_connect|apply up_disconnect|apply saves_model|apply saves_capacity|apply saves_format
    |apply saves_list|apply saves_delete|apply saves_send|apply saves_get_file|unfold setpath; saves
    |apply up_content|apply up_set|unfold help; saves]; apply _.
Qed.
Lemma idle_events : saves idle do_events.
Proof.
  unfold do_events. saves.
  - match goal with |- saves _ (notify_all ?l) => generalize l end. intros l.
    induction l as [|r l IH]; cbn [notify_all]; unfold disconnect_notify; saves.
  - unfold disconnect. saves.
Qed.

(** The line that ends the program. *)
Definition is_exit (i : input) : Prop :=
  match i with
  | Line (Some line) => head (components is_delimiter line) = Some (str "exit")
  | _ => False
  end.

(** Only the word [exit] has the command that quits. *)
Lemma find_quit cmd c : find_command cmd = Some c → ptr c = Do_quit → cmd = str "exit".
Proof.
  unfold find_command. destruct (list_find _ commands) as [[i c']|] eqn:Hfind; [|done].
  intros [= ->]. apply list_find_Some in Hfind as (Hi & -> & _). intros Hq.
  assert (Forall (λ c, ptr c = Do_quit → cmd_str c = str "exit") commands) as Hall.
  { repeat (constructor; [by intros|]). constructor. }
  rewrite Forall_forall in Hall. apply Hall; [by eapply list_elem_of_lookup_2|done].
Qed.

(** A line whose first word is another. *)
Lemma up_process w : w ≠ str "exit" →
  res_triple (λ s, up s ∧ head (cmd_list s) = Some w)
    (process_command junk_size junk_byte char_signed fuel ulong_max to_locale) (λ _, up).
Proof.
  intros Hw. unfold process_command.
  apply (res_triple_bind _ _ _ (λ word s, up s ∧ word = Some w)); [by intros s a s' [Hs Hhead] [= <- <-]|].
  intros word. apply (res_triple_bind _ _ _ (λ cmd s, up s ∧ cmd = w)).
  { intros s a s' [Hs ->] [= <- <-]. done. }
  intros cmd s a s' [Hs ->]. revert s a s' Hs.
  change (saves up (match find_command w with
    | None => print (c_str ["Unknown command\n"%string])
    | Some c =>
        mo ← res_get mode;
        if negb (Z.land (cmd_mode c) mo =? 0) || (mo =? 0)
        then dequeue_arg;; run_handler junk_size junk_byte char_signed fuel ulong_max to_locale (ptr c)
        else print (str "This option not supported in " ++ default (str "(null)") (mode_id2str mo) ++
                    c_str [" mode\n"%string])
    end)).
  destruct (find_command w) as [c|] eqn:Hc; saves. apply up_handler. intros Hq. by apply Hw, (find_quit w c).
Qed.

Lemma idle_turn i s s' : ¬ is_exit i → idle s →
  prompt_turn junk_size junk_byte char_signed fuel ulong_max to_locale i s = Ok tt s' → idle s'.
Proof.
  intros Hi Hs. destruct i as [|[[|c line]|]]; cbn [prompt_turn]; try by intros [= <-].
  { apply (idle_events s tt s' Hs). }
  destruct Hs as [Hup Hwords]. cbn [is_exit] in Hi. pose proof (line_words (c :: line) s) as Hline.
  destruct (components is_delimiter (c :: line)) as [|w words] eqn:Hw; [by unfold mbind, res_mbind; rewrite Hline|].
  rewrite (bind_ok _ _ _ _ _ Hline). unfold mbind, res_mbind.
  destruct (process_command _ _ _ _ _ _ _) as [[] s1|] eqn:Hp; [|done]. intros [= <-].
  split; [|done]. apply (up_process w (λ Heq, Hi (f_equal Some Heq)) _ _ _) in Hp; [exact Hp|].
  split; [exact Hup|]. cbn. by rewrite Hwords.
Qed.

Lemma loop_exit inputs s s' : idle s →
  prompt_loop junk_size junk_byte char_signed fuel ulong_max to_locale inputs s = Ok true s' →
  Exists is_exit inputs.
Proof.
  revert s. induction inputs as [|i inputs IH]; intros s Hs; cbn [prompt_loop];
    rewrite (bind_ok _ _ s true s) by (unfold res_get; by destruct Hs as [-> _]); [done|].
  cbn [negb]. unfold mbind, res_mbind.
  destruct (prompt_turn _ _ _ _ _ _ i s) as [[] s1|] eqn:Hturn; [|done]. intros Hrun.
  assert (is_exit i ∨ ¬ is_exit i) as [?|Hi].
  { destruct i as [|[line|]]; [right; by intros []| |right; by intros []].
    destruct (decide (head (components is_delimiter line) = Some (str "exit"))); [by left|by right]. }
  - by left.
  - right. apply (IH s1); [by apply (idle_turn i s)|done].
Qed.

Lemma saves_history (P : state D F → Prop) `{!Output_property P} : saves P history_file.
Proof. unfold history_file. saves. Qed.

Lemma interactive_exit inputs :
  res_triple (λ _, True) (interactive junk_size junk_byte char_signed fuel ulong_max to_locale inputs)
    (λ ended _, ended = true → Exists is_exit inputs).
Proof.
  unfold interactive.
  apply (res_triple_bind _ _ _ (λ _ _, True)); [done|]. intros _.
  apply (res_triple_bind _ _ _ (λ _, idle)); [by intros s a s' _ [= _ <-]|]. intros _.
  apply (res_triple_bind _ _ _ (λ _, idle)); [apply saves_history; apply _|]. intros _.
  apply (res_triple_bind _ _ _ (λ _, idle)); [apply saves_opt|]. intros handle.
  apply (res_triple_bind _ _ _ (λ _, idle)); [by apply saves_upd|]. intros _.
  apply (res_triple_bind _ _ _ (λ ended _, ended = true → Exists is_exit inputs)).
  { intros s ended s' Hs Hrun ->. by apply (loop_exit inputs s s'). }
  intros ended s a s' Hended. destruct ended; [|by intros [= <- _]]. intros _ _. by apply Hended.
Qed.
End State.

(** A dictionary, for the witnesses. *)
Definition cabinet_session : @Session Z cabinet := {|
  ses_init := Some 0;
  ses_register d := d;
  ses_set_debug v d := d;
  ses_connect o := mret 0;
  ses_disconnect := mret 0;
  ses_deinit := mret tt;
  ses_poll := mret [2];
  ses_get_model m := mret (0, m);
  ses_sd_format := mret 0;
|}.
Definition typed (l : list string) : list input := map (λ w, Line (Some (str w))) l.

(** C26: in every run of the tool the state is consistent: without a dictionary
    no mode, region, authentication, path or device is left; with one, the mode
    is one of the three; and the current path has its normal form. *)
Theorem session_consistent {D F} `{Device D} `{!Session D} `{Local F}
    junk_size junk_byte char_signed fuel ulong_max to_locale inputs (d : D) (f : F) ended s' :
  main junk_size junk_byte char_signed fuel ulong_max to_locale inputs d f = Ok ended s' →
  consistent s'.
Proof.
  unfold main. apply saves_interactive. by split.
Qed.
Definition sample_inputs : list input :=
  typed ["connect library ja"; "setpath drv0:///a"; "set mkdir on"]%string ++ [Hook; Line (Some [])] ++
  typed ["connect cd"; "dict list"; "exit"]%string.
Definition sample_run : outcome (state Z unit) bool :=
  main (Session0 := cabinet_session) (H0 := disk) 0 0 true 9 4294967295 (λ _ _, None) sample_inputs 0 tt.
Lemma session_consistent_witness :
  match sample_run with Ok _ s' => consistent s' | Fault _ => False end.
Proof.
  assert (∀ ended s', sample_run = Ok ended s' → consistent s') as Hrun.
  { intros ended s'. apply (session_consistent (Session0 := cabinet_session) (H0 := disk)). }
  destruct sample_run as [ended s'|] eqn:Hr; [by apply (Hrun ended)|]. vm_compute in Hr. discriminate.
Defined.

(** ** What an unauthenticated user cannot reach *)

(** A relation between the dictionary before and after, which all commands keep
    but the unlocking, the lock, the names and the keys of add-ons. *)
Class Unkeyed {D} `{Device D} `{!Session D} (R : relation D) : Prop := {
  uk_order :: PreOrder R;
  uk_setpath p b d a d' : dev_setpath p b d = Ok a d' → R d d';
  uk_get_file n d a d' : dev_get_file n d = Ok a d' → R d d';
  uk_send_file n l d a d' : dev_send_file n l d = Ok a d' → R d d';
  uk_remove_file n b d a d' : dev_remove_file n b d = Ok a d' → R d d';
  uk_list d a d' : Content.dev_list d = Ok a d' → R d d';
  uk_get_capacity c d a d' : dev_get_capacity c d = Ok a d' → R d d';
  uk_authchallenge c d a d' : dev_authchallenge c d = Ok a d' → R d d';
  uk_authinfo i d a d' : dev_authinfo i d = Ok a d' → R d d';
  uk_userid n d a d' : dev_userid n d = Ok a d' → R d d';
  uk_set_debug v d : R d (ses_set_debug v d);
  uk_connect o d a d' : ses_connect o d = Ok a d' → R d d';
  uk_disconnect d a d' : ses_disconnect d = Ok a d' → R d d';
  uk_poll d a d' : ses_poll d = Ok a d' → R d d';
  uk_get_model m d a d' : ses_get_model m d = Ok a d' → R d d';
  uk_sd_format d a d' : ses_sd_format d = Ok a d' → R d d';
}.

Section Unkeyed.
Context {D F : Type} `{Device D} `{!Session D} `{Local F} (R : relation D) `{!Unkeyed R}.
Context (junk_size junk_byte : Z) (char_signed : bool) (fuel : nat) (ulong_max : Z).
Context (to_locale : list Z → list Z → option (list Z)).

(** A computation on a state that has a dictionary. *)
Definition follows {S} (dict : S → D) {A} (m : res S A) : Prop :=
  ∀ s a s', m s = Ok a s' → R (dict s) (dict s').
Definition of_state (s : state D F) : D := device (tool_of s).

Section Generic.
Context {S : Type} (dict : S → D).
Lemma follows_ret {A} (a : A) : follows dict (mret a).
Proof. intros s b s' [= _ <-]. reflexivity. Qed.
Lemma follows_bind {A B} (m : res S A) (f : A → res S B) :
  follows dict m → (∀ a, follows dict (f a)) → follows dict (m ≫= f).
Proof.
  intros Hm Hf s b s' Hrun. unfold mbind, res_mbind in Hrun. destruct (m s) as [a s1|] eqn:E; [|done].
  etrans; [exact (Hm _ _ _ E)|exact (Hf _ _ _ _ Hrun)].
Qed.
Lemma follows_get {A} (q : S → A) : follows dict (res_get q).
Proof. intros s b s' [= _ <-]. reflexivity. Qed.
Lemma follows_opt {A} e (o : option A) : follows dict (res_opt e o).
Proof. destruct o; [apply follows_ret|intros s b s'; done]. Qed.
Lemma follows_fault {A} e : follows dict (res_fault e : res S A).
Proof. by intros s b s'. Qed.
Lemma follows_upd (f : S → S) : (∀ s, dict (f s) = dict s) → follows dict (res_upd f).
Proof. intros Hf s b s' [= _ <-]. by rewrite Hf. Qed.
Lemma follows_mkpath sep base l : follows dict (mkpath sep base l).
Proof. apply follows_bind; [apply follows_opt|]. intros b. apply follows_ret. Qed.
End Generic.

Lemma follows_files {A} (m : st F A) : follows device (on_files (D := D) m).
Proof. intros s b s'. unfold on_files. destruct (m (files s)). intros [= _ <-]. reflexivity. Qed.
Lemma follows_ask {A} (q : F → A) : follows device (ask_files (D := D) q).
Proof. apply follows_get. Qed.
Lemma follows_device {A} (m : res D A) : (∀ d a d', m d = Ok a d' → R d d') → follows device (on_device (F := F) m).
Proof.
  intros Hm s b s'. unfold on_device. destruct (m (device s)) as [a d|] eqn:E; [|done].
  intros [= _ <-]. exact (Hm _ _ _ E).
Qed.
Lemma follows_tool {A} (m : res (tool D F) A) : follows device m → follows of_state (on_tool m).
Proof.
  intros Hm s b s'. unfold on_tool. destruct (m (tool_of s)) as [a t|] eqn:E; [|done].
  intros [= _ <-]. exact (Hm _ _ _ E).
Qed.
Lemma follows_dict {A} (m : res D A) : (∀ d a d', m d = Ok a d' → R d d') → follows of_state (on_dict m).
Proof. intros Hm. apply follows_tool, follows_device, Hm. Qed.
Lemma follows_disk {A} (m : st F A) : follows of_state (on_disk m).
Proof. apply follows_tool, follows_files. Qed.
Lemma follows_print m : follows of_state (print m).
Proof. by apply follows_upd. Qed.
Lemma follows_print_error rsp : follows of_state (print_error rsp).
Proof. apply follows_print. Qed.
Lemma follows_peek : follows of_state peek_arg.
Proof. apply follows_get. Qed.
Lemma follows_dequeue : follows of_state dequeue_arg.
Proof. by apply follows_upd. Qed.

Create HintDb follows.
Hint Resolve follows_ret follows_get follows_opt follows_fault follows_mkpath follows_files follows_ask
  follows_disk follows_print follows_print_error follows_peek follows_dequeue : follows.
Hint Extern 1 (follows of_state (res_upd _)) => (apply follows_upd; reflexivity) : follows.
Ltac unkeyed := first
  [ apply uk_setpath | apply uk_get_file | apply uk_send_file | apply uk_remove_file | apply uk_list
  | apply uk_get_capacity | apply uk_authchallenge | apply uk_authinfo | apply uk_userid | apply uk_connect
  | apply uk_disconnect | apply uk_poll | apply uk_get_model | apply uk_sd_format ].
Hint Extern 1 (follows _ (on_device _)) => (apply follows_device; unkeyed) : follows.
Hint Extern 1 (follows _ (on_dict _)) => (apply follows_dict; unkeyed) : follows.

Ltac follows :=
  repeat match goal with
  | |- follows _ (_ ≫= _) => apply follows_bind; [|intros ?]
  | |- follows _ (when_connected _) => unfold when_connected
  | |- follows _ (match ?x with _ => _ end) => destruct x
  | |- follows _ (let '(_, _) := ?x in _) => destruct x
  | |- follows _ (on_tool _) => apply follows_tool
  | |- follows _ _ => solve [auto with follows nocore]
  | |- follows _ _ => progress cbv zeta
  end.

(** *** The content *)

Lemma follows_read_admini : follows device (_read_admini (D := D) (F := F)).
Proof.
  unfold _read_admini. generalize 0 admini_list. intros i l. revert i.
  induction l as [|n l IH]; intros i; cbn [read_admini_loop]; follows.
Qed.
Lemma follows_find_user n b len i nm : follows device (find_user (D := D) (F := F) char_signed n b len i nm).
Proof. revert i. induction n as [|n IH]; intros i; cbn [find_user]; follows. Qed.
Lemma follows_users_file : follows device (users_file (D := D) (F := F)).
Proof. unfold users_file. follows. Qed.
Hint Resolve follows_read_admini follows_find_user follows_users_file : follows.
Lemma follows_save nm k : follows device (_save_user_key (D := D) (F := F) junk_size char_signed fuel nm k).
Proof. unfold _save_user_key. follows. Qed.
Lemma follows_load nm : follows device (_load_user_key (D := D) (F := F) junk_size char_signed fuel nm).
Proof. unfold _load_user_key. follows. Qed.
Lemma follows_cards l c ai : follows device (auth_cards (D := D) (F := F) l c ai).
Proof.
  revert ai. induction l as [|e l IH]; intros ai; cbn [auth_cards]; unfold name_is; follows.
Qed.
Hint Resolve follows_save follows_load follows_cards : follows.
Lemma follows_auth u k :
  follows device (content_auth (D := D) (F := F) junk_size junk_byte char_signed fuel u k).
Proof. unfold content_auth. follows. Qed.
Hint Resolve follows_auth : follows.
Lemma follows_reset u :
  follows device (content_reset (D := D) (F := F) junk_size junk_byte char_signed fuel u).
Proof. unfold content_reset. follows. Qed.
Lemma follows_list_admini n re b : follows device (list_admini (D := D) (F := F) to_locale n re b).
Proof. revert b. induction n as [|n IH]; intros b; cbn [list_admini]; follows. Qed.
Hint Resolve follows_list_admini : follows.
Lemma follows_remote re r : follows device (content_list_remote (D := D) (F := F) to_locale re r).
Proof. unfold content_list_remote. follows. Qed.
Lemma follows_local_list mo re p l : follows device (list_local (D := D) (F := F) junk_size to_locale mo re p l).
Proof.
  induction l as [|e l IH]; cbn [list_local]; unfold _get_cd_name, _get_dict_name; follows.
Qed.
Hint Resolve follows_local_list : follows.
Lemma follows_local mo re : follows device (content_list_local (D := D) (F := F) junk_size to_locale mo re).
Proof. unfold content_list_local. follows. Qed.
Hint Resolve follows_reset follows_remote follows_local : follows.

(** *** The commands *)

Lemma follows_setpath_raw dev pathname make : follows of_state (_setpath (D := D) (F := F) dev pathname make).
Proof. unfold _setpath. follows. Qed.
Lemma follows_list_command r : follows of_state (content_list_command junk_size to_locale r).
Proof. unfold content_list_command. follows. Qed.
Hint Resolve follows_setpath_raw follows_list_command : follows.
Lemma follows_auth_command : follows of_state (content_auth_command junk_size junk_byte char_signed fuel).
Proof. unfold content_auth_command, auth_user, authenticate. follows. Qed.
Lemma follows_reset_command : follows of_state (content_reset_command junk_size junk_byte char_signed fuel).
Proof. unfold content_reset_command. follows. Qed.
Lemma follows_entries l : follows of_state (print_entries (D := D) (F := F) to_locale l).
Proof. induction l as [|e l IH]; cbn [print_entries]; unfold print_entry; follows. Qed.
Hint Resolve follows_auth_command follows_reset_command follows_entries : follows.
Lemma follows_disconnect : follows of_state (disconnect (F := F)).
Proof. unfold disconnect. follows. Qed.
Lemma follows_notify l : follows of_state (notify_all (D := D) (F := F) l).
Proof. induction l as [|r l IH]; cbn [notify_all]; unfold disconnect_notify; follows. Qed.
Hint Resolve follows_disconnect follows_notify : follows.
Lemma follows_events : follows of_state (do_events (F := F)).
Proof. unfold do_events. follows. Qed.
Lemma follows_options : follows of_state (connect_options (D := D) (F := F)).
Proof. unfold connect_options. follows. Qed.
Lemma follows_scan : follows of_state (scan_devices (D := D) (F := F)).
Proof. unfold scan_devices. follows. Qed.
Hint Resolve follows_options follows_scan : follows.
Lemma follows_connect : follows of_state (connect (F := F)).
Proof. unfold connect, connect_new, establish. follows. Qed.
Lemma follows_debug_level w : follows of_state (set_debug_level (F := F) ulong_max w).
Proof.
  unfold set_debug_level. follows. apply follows_dict. intros d b d' [= _ <-]. apply uk_set_debug.
Qed.
Hint Resolve follows_debug_level : follows.

(** Every command but those on the content. *)
Lemma follows_handler h : h ≠ Do_content →
  follows of_state (run_handler junk_size junk_byte char_signed fuel ulong_max to_locale h).
Proof.
  intros Hh. destruct h; try done; cbn [run_handler]; [apply follows_connect|apply follows_disconnect|..];
    unfold model, capacity, format, list_files, delete, send, get, setpath, set_command, set_mkdir_option, quit, help;
    follows.
Qed.

(** Without authentication. *)
Definition gated (d0 : D) (s : state D F) : Prop := R d0 (of_state s) ∧ authenticated s = false.
Definition reached (d0 : D) (s : state D F) : Prop := R d0 (of_state s).

Lemma follows_reached {A} d0 (m : res (state D F) A) :
  follows of_state m → res_triple (reached d0) m (λ _, reached d0).
Proof. intros Hm s a s' Hs Hrun. unfold reached in *. etrans; [exact Hs|exact (Hm _ _ _ Hrun)]. Qed.
Lemma gated_step {A B} d0 (m : res (state D F) A) (f : A → res (state D F) B) :
  follows of_state m → saves (λ s, authenticated s = false) m →
  (∀ a, res_triple (gated d0) (f a) (λ _, reached d0)) →
  res_triple (gated d0) (m ≫= f) (λ _, reached d0).
Proof.
  intros Hm Hs Hf. apply (res_triple_bind _ _ _ (λ _, gated d0)); [|done].
  intros s a s' [HR Ha] Hrun. split; [etrans; [exact HR|exact (Hm _ _ _ Hrun)]|exact (Hs _ _ _ Ha Hrun)].
Qed.
Lemma gated_follows {A} d0 (m : res (state D F) A) :
  follows of_state m → res_triple (gated d0) m (λ _, reached d0).
Proof. intros Hm s a s' [HR _] Hrun. unfold reached in *. etrans; [exact HR|exact (Hm _ _ _ Hrun)]. Qed.

Instance unauthenticated_property : Session_property (λ s : state D F, authenticated s = false).
Proof. split; [by split|done]. Qed.

Lemma gated_change d0 f r :
  res_triple (gated d0) (content_change_command junk_size char_signed f r) (λ _, reached d0).
Proof.
  unfold content_change_command. apply gated_step; [apply follows_peek|apply saves_get|].
  intros [x|]; [|apply gated_follows, follows_print]. case_goal; [apply gated_follows, follows_print|].
  apply (res_triple_bind _ _ _ (λ auth s, gated d0 s ∧ auth = false)).
  { intros s a s' Hs [= <- <-]. split; [done|apply Hs]. }
  intros auth. apply (res_triple_bind _ _ _ (λ _ s, gated d0 s ∧ auth = false)).
  { intros s a s' Hs [= _ <-]. done. }
  intros mo. apply (res_triple_bind _ _ _ (λ _ s, gated d0 s ∧ auth = false)).
  { intros s a s' Hs [= _ <-]. done. }
  intros re s a s' [Hs ->] Hrun. cbn [negb] in Hrun. exact (gated_follows d0 _ (follows_print _) s a s' Hs Hrun).
Qed.

Lemma gated_content d0 :
  res_triple (gated d0) (content junk_size junk_byte char_signed fuel to_locale) (λ _, reached d0).
Proof.
  unfold content, when_connected.
  apply gated_step; [apply follows_get|apply saves_get|]. intros [|]; [|apply gated_follows, follows_ret].
  apply gated_step; [apply follows_get|apply saves_get|]. intros path.
  apply gated_step; [apply follows_opt|apply saves_opt|]. intros path'.
  apply gated_step; [apply follows_get|apply saves_get|]. intros mo.
  apply gated_step; [apply follows_opt|apply saves_opt|]. intros root.
  apply gated_step; [apply follows_peek|apply saves_get|]. intros [sub|]; [|apply gated_follows, follows_print].
  apply gated_step; [apply follows_dequeue|apply saves_dequeue; apply _|]. intros _.
  apply (res_triple_bind _ _ _ (λ _, reached d0)).
  - repeat (case_goal; [first [apply gated_change|apply gated_follows; follows]|]).
    apply gated_follows. follows.
  - intros _. apply follows_reached. follows.
Qed.

Lemma follows_fill line : follows of_state (fill_arg_list (D := D) (F := F) line).
Proof.
  intros s a s'. rewrite line_words. destruct (components is_delimiter line); [done|].
  intros [= _ <-]. reflexivity.
Qed.
Lemma unauthenticated_fill line : saves (λ s : state D F, authenticated s = false) (fill_arg_list line).
Proof.
  intros s a s' Hs. rewrite line_words. destruct (components is_delimiter line); [done|].
  by intros [= _ <-].
Qed.

Lemma gated_process d0 :
  res_triple (gated d0) (process_command junk_size junk_byte char_signed fuel ulong_max to_locale)
    (λ _, reached d0).
Proof.
  unfold process_command. apply gated_step; [apply follows_peek|apply saves_get|]. intros word.
  apply gated_step; [apply follows_opt|apply saves_opt|]. intros cmd.
  destruct (find_command cmd) as [c|]; [|apply gated_follows, follows_print].
  apply gated_step; [apply follows_get|apply saves_get|]. intros mo.
  case_goal; [|apply gated_follows, follows_print].
  apply gated_step; [apply follows_dequeue|apply saves_dequeue; apply _|]. intros _.
  destruct (ptr c) eqn:Hc; try (apply gated_follows, follows_handler; by rewrite ?Hc). apply gated_content.
Qed.

Lemma gated_turn d0 i :
  res_triple (gated d0) (prompt_turn junk_size junk_byte char_signed fuel ulong_max to_locale i)
    (λ _, reached d0).
Proof.
  destruct i as [|[[|c line]|]]; cbn [prompt_turn]; try (apply gated_follows, follows_ret).
  { apply gated_follows, follows_events. }
  apply gated_step; [apply follows_fill|apply unauthenticated_fill|]. intros _.
  apply (res_triple_bind _ _ _ (λ _, reached d0)); [apply gated_process|]. intros _.
  apply follows_reached. by apply follows_upd.
Qed.
End Unkeyed.

(** The commands behind the authentication. *)
Definition keyed (c : ContentFacts.command) : bool :=
  match c with Unlock | Lock | CName | CryptKey => true | _ => false end.

(** The log of [ContentFacts], over a session. *)
Definition on_inner {D A} (m : res D A) : res (logged D) A := λ s,
  match m (inner s) with
  | Ok a d => Ok a (Logged d (log s))
  | Fault e => Fault e
  end.
#[export] Instance logged_session {D} `{Device D} `{!Session D} : Session (logged D) := {
  ses_init := (λ d, Logged d []) <$> ses_init;
  ses_register s := Logged (ses_register (inner s)) (log s);
  ses_set_debug v s := Logged (ses_set_debug v (inner s)) (log s);
  ses_connect o := on_inner (ses_connect o);
  ses_disconnect := on_inner ses_disconnect;
  ses_deinit := on_inner ses_deinit;
  ses_poll := on_inner ses_poll;
  ses_get_model m := on_inner (ses_get_model m);
  ses_sd_format := on_inner ses_sd_format;
}.

Definition log_unkeyed {D} (s s' : logged D) : Prop :=
  ∃ l, log s' = log s ++ l ∧ Forall (λ e, keyed e.1 = false) l.
#[export] Instance log_unkeyed_order {D} : PreOrder (log_unkeyed (D := D)).
Proof.
  split.
  - intros s. exists []. by rewrite app_nil_r.
  - intros s1 s2 s3 (l & H1 & Hl) (k & H2 & Hk). exists (l ++ k). rewrite H2, H1, app_assoc.
    split; [done|]. by apply Forall_app.
Qed.
Lemma logging_unkeyed {D A} c code (m : res D A) s a s' :
  keyed c = false → logging c code m s = Ok a s' → log_unkeyed s s'.
Proof.
  intros Hc. unfold logging. destruct (m (inner s)) as [b d|]; [|done]. intros [= _ <-].
  eexists. split; [done|]. by repeat constructor.
Qed.
Lemma inner_unkeyed {D A} (m : res D A) s a s' : on_inner m s = Ok a s' → log_unkeyed s s'.
Proof.
  unfold on_inner. destruct (m (inner s)) as [b d|]; [|done]. intros [= _ <-].
  exists []. by rewrite app_nil_r.
Qed.
#[export] Instance log_unkeyed_ok {D} `{Device D} `{!Session D} : Unkeyed (log_unkeyed (D := D)).
Proof.
  split; [apply _|..]; try (intros *; apply logging_unkeyed; reflexivity); try (intros *; apply inner_unkeyed).
  intros v d. exists []. by rewrite app_nil_r.
Qed.

(** C10: while the user is not authenticated, no line and no event makes the tool
    unlock or lock the dictionary, or send the name or the key of an add-on. *)
Theorem unlock_needs_authentication {D F} `{Device D} `{!Session D} `{Local F}
    junk_size junk_byte char_signed fuel ulong_max to_locale i (s s' : state (logged D) F) :
  authenticated s = false →
  prompt_turn junk_size junk_byte char_signed fuel ulong_max to_locale i s = Ok tt s' →
  ∃ l, log (device (tool_of s')) = log (device (tool_of s)) ++ l ∧ Forall (λ e, keyed e.1 = false) l.
Proof.
  intros Hauth Hrun. refine (gated_turn log_unkeyed _ _ _ _ _ _ (of_state s) i s tt s' _ Hrun).
  by split.
Qed.

Definition connected_state : state (logged Z) unit :=
  State (Tool (Logged 0 []) tt) 0x100 0x20 true true 0 false false false (Some (str "\_INTERNAL_00\")) [] [] [].
Definition install_run : outcome (state (logged Z) unit) unit :=
  prompt_turn (H := @logged_device Z cabinet) (Session0 := @logged_session Z cabinet cabinet_session)
    (H0 := disk) 0 0 true 9 4294967295 (λ _ _, None) (Line (Some (str "dict install ABCDE"))) connected_state.
Lemma unlock_needs_authentication_witness :
  match install_run with
  | Ok _ s' => ∃ l, log (device (tool_of s')) = [] ++ l ∧ Forall (λ e, keyed e.1 = false) l
  | Fault _ => False
  end.
Proof.
  assert (∀ s', install_run = Ok tt s' → ∃ l,
    log (device (tool_of s')) = [] ++ l ∧ Forall (λ e, keyed e.1 = false) l) as Hrun.
  { intros s'. apply (unlock_needs_authentication (H := cabinet) (Session0 := cabinet_session) (H0 := disk)
      0 0 true 9 4294967295 (λ _ _, None) (Line (Some (str "dict install ABCDE"))) connected_state s').
    reflexivity. }
  destruct install_run as [[] s'|] eqn:Hr; [by apply Hrun|]. vm_compute in Hr. discriminate.
Defined.

(** ** How the prompt ends *)

Section Prompt.
Context {D F : Type} `{Device D} `{!Session D} `{Local F}.
Context (junk_size junk_byte : Z) (char_signed : bool) (fuel : nat) (ulong_max : Z).
Context (to_locale : list Z → list Z → option (list Z)).
Abbreviation turn := (prompt_turn junk_size junk_byte char_signed fuel ulong_max to_locale).
Abbreviation loop := (prompt_loop junk_size junk_byte char_signed fuel ulong_max to_locale).

End Prompt.

(** The tool ends only after a line whose first word is [exit]: neither the
    end of the input nor the loss of the dictionary ends it. *)
Theorem prompt_ends_by_exit {D F} `{Device D} `{!Session D} `{Local F}
    junk_size junk_byte char_signed fuel ulong_max to_locale inputs (d : D) (f : F) s' :
  main junk_size junk_byte char_signed fuel ulong_max to_locale inputs d f = Ok true s' →
  Exists is_exit inputs.
Proof.
  unfold main. intros Hrun. by apply (interactive_exit _ _ _ _ _ _ _ _ _ _ I Hrun).
Qed.
Lemma prompt_ends_by_exit_witness :
  match sample_run with Ok true _ => Exists is_exit sample_inputs | _ => False end.
Proof.
  assert (∀ s', sample_run = Ok true s' → Exists is_exit sample_inputs) as Hrun.
  { intros s'. apply (prompt_ends_by_exit (Session0 := cabinet_session) (H0 := disk)). }
  destruct sample_run as [[|] s'|] eqn:Hr; [by apply (Hrun s')|vm_compute in Hr; discriminate..].
Defined.
