(* ===== verification/Gate.v ===== *)
(** * The gate in front of the X server ([src/x11/apps/x11-start-gate.c])

    The program stops the shell that started it, forks a process that forks a
    second one, becomes the X server, and leaves it to that second process to let
    the shell go on once the server is ready.  Every process is a run of [main]
    with answers of its own ([Traced]); [fork] is a request that is answered with
    0 in the process it makes.  The kernel below relates the runs.

    [ready_pipe] is named by its ends, 0 to read and 1 to write; messages on the
    standard error are left out. *)

From Stdlib Require Import String Ascii.
From S2P Require Import Prelude Text Traced.

(** ** Requests *)

Inductive signal : Type := SIGSTOP | SIGCONT.

(** [Descriptor i], [Buffer i], [NotifierStatus] and [Errno] read what a call
    before them has left in memory. *)
Inductive request : Type :=
| Getppid | Pipe | Descriptor (i : Z) | Kill (pid : Z) (s : signal) | Fork | Waitpid (pid : Z)
| NotifierStatus | Errno | Read (i : Z) | Buffer (i : Z) | Close (i : Z)
| Execv (path : list Z) (argv : list (list Z)).

#[export] Instance signal_eq_dec : EqDecision signal.
Proof. solve_decision. Defined.
#[export] Instance request_eq_dec : EqDecision request.
Proof. solve_decision. Defined.

(** How a process ends: the status of [_exit] or of the return from [main], as
    the X server, or not within the fuel. *)
Inductive ending : Type := Exits (code : Z) | Replaced | Waiting.

Definition REAL_XFBDEV : list Z := str "/opt/x11/usr/bin/Xfbdev.real".
Definition MAX_ARGC : Z := 96.
Definition EINTR : Z := 4.

Definition WIFEXITED (status : Z) : bool := Z.land status 0x7f =? 0.
Definition WEXITSTATUS (status : Z) : Z := Z.land (Z.shiftr status 8) 0xff.

Section Gate.
Context {E : Type} `{Answers request E}.
Abbreviation K := (st (world request E)).

Definition resume_parent (parent : Z) : K unit :=
  if 1 <? parent then tell (Kill parent SIGCONT) else mret tt.

(** Is there a newline in [buffer[index .. index+n-1]]? *)
Fixpoint has_newline (n : nat) (index : Z) : K bool :=
  match n with
  | O => mret false
  | S n => b ← ask (Buffer index); if b =? 10 then mret true else has_newline n (index + 1)
  end.

(** The [for] loop: does it end within [fuel] reads? *)
Fixpoint await_ready (fuel : nat) : K bool :=
  match fuel with
  | O => mret false
  | S fuel =>
      count ← ask (Read 0);
      if 0 <? count then
        found ← has_newline (Z.to_nat count) 0;
        if found : bool then mret true else await_ready fuel
      else
        again ← (if count <? 0 then equals Errno EINTR else mret false);
        if again : bool then await_ready fuel else mret true
  end.

Definition wait_for_x_ready (fuel : nat) (parent : Z) : K ending :=
  ended ← await_ready fuel;
  if ended : bool then tell (Close 0);; resume_parent parent;; mret (Exits 0) else mret Waiting.

(** [do ... while (detached < 0 && errno == EINTR)] *)
Fixpoint wait_notifier (fuel : nat) (notifier : Z) : K (option Z) :=
  match fuel with
  | O => mret None
  | S fuel =>
      detached ← ask (Waitpid notifier);
      again ← (if detached <? 0 then equals Errno EINTR else mret false);
      if again : bool then wait_notifier fuel notifier else mret (Some detached)
  end.

Definition close_both : K unit := tell (Close 0);; tell (Close 1).

(** The process that the first [fork] makes. *)
Definition notify (fuel : nat) (parent : Z) : K ending :=
  detached ← ask Fork;
  if detached <? 0 then close_both;; resume_parent parent;; mret (Exits 125)
  else if 0 <? detached then close_both;; mret (Exits 0)
  else tell (Close 1);; wait_for_x_ready fuel parent.

Definition server_argv (argv : list (list Z)) (fd_number : list Z) : list (list Z) :=
  REAL_XFBDEV :: tail argv ++ [str "-displayfd"; fd_number].

(** From the wait for the notifier on. *)
Definition become_server (fuel : nat) (argv : list (list Z)) (fd_number : list Z)
    (parent notifier : Z) : K ending :=
  waited ← wait_notifier fuel notifier;
  match waited with
  | None => mret Waiting
  | Some detached =>
      good ← (if detached =? notifier then
                status ← ask NotifierStatus;
                mret (WIFEXITED status && (WEXITSTATUS status =? 0))
              else mret false);
      if negb good then close_both;; resume_parent parent;; mret (Exits 125)
      else
        tell (Close 0);;
        r ← ask (Execv REAL_XFBDEV (server_argv argv fd_number));
        if 0 <=? r then mret Replaced
        else ask Errno;; tell (Close 1);; resume_parent parent;; mret (Exits 127)
  end.

Definition main (fuel : nat) (argv : list (list Z)) : K ending :=
  parent ← ask Getppid;
  if (zlen argv <? 1) || (zlen argv >? MAX_ARGC) then mret (Exits 125)
  else if existsb (λ a, bool_decide (a = str "-displayfd")) (tail argv) then mret (Exits 125)
  else if parent <=? 1 then mret (Exits 125)
  else
    r ← ask Pipe;
    if r <? 0 then mret (Exits 125)
    else
      w ← ask (Descriptor 1);
      let fd_number := decimal w in
      if (zlen fd_number <? 1) || (16 <=? zlen fd_number) then close_both;; mret (Exits 125)
      else
        r ← ask (Kill parent SIGSTOP);
        if r <? 0 then close_both;; mret (Exits 125)
        else
          notifier ← ask Fork;
          if notifier <? 0 then close_both;; resume_parent parent;; mret (Exits 125)
          else if notifier =? 0 then notify fuel parent
          else become_server fuel argv fd_number parent notifier.
End Gate.

(** ** What a process has done *)

(** [forks]: the answers of the successful forks, the last first.  [sound]:
    signals only to the parent, which is neither [init] nor a group; an end of the
    pipe is closed when open; reading only after the other end is closed, so
    that the end of the server ends the wait; the server gets its arguments, with
    the write end open and the read end closed, and after the notifier exited
    well. *)
Record knowledge := Knowledge {
  parent : Z; number : Z; stopped : bool; resumed : bool; forks : list Z; reaped : bool;
  reads : bool; writes : bool; sound : bool;
}.
Definition nothing : knowledge := Knowledge 0 0 false false [] false false false true.

Section Safety.
Context {E : Type} `{Answers request E} (argv : list (list Z)).

Definition observe (g : knowledge) (rv : request * Z) : knowledge :=
  let '(r, v) := rv in
  let '(Knowledge p d st rs fk rp rd wr ok) := g in
  match r with
  | Getppid => Knowledge v d st rs fk rp rd wr ok
  | Pipe => if v <? 0 then g else Knowledge p d st rs fk rp true true ok
  | Descriptor _ => Knowledge p v st rs fk rp rd wr ok
  | Kill pid SIGSTOP =>
      Knowledge p d (st || negb (v <? 0)) rs fk rp rd wr (ok && (1 <? pid) && (pid =? p))
  | Kill pid SIGCONT => Knowledge p d st true fk rp rd wr (ok && (1 <? pid) && (pid =? p))
  | Fork => if v <? 0 then g else Knowledge p d st rs (v :: fk) rp rd wr ok
  | NotifierStatus =>
      Knowledge p d st rs fk (WIFEXITED v && (WEXITSTATUS v =? 0)) rd wr ok
  | Read _ => Knowledge p d st rs fk rp rd wr (ok && rd && negb wr)
  | Close i =>
      if i =? 0 then Knowledge p d st rs fk rp false wr (ok && rd)
      else Knowledge p d st rs fk rp rd false (ok && wr)
  | Execv path args =>
      Knowledge p d st rs fk rp rd wr
        (ok && negb rd && wr && rp && bool_decide (path = REAL_XFBDEV)
         && bool_decide (args = server_argv argv (decimal d)))
  | Waitpid _ | Errno | Buffer _ => g
  end.

Definition settled (e : ending) (g : knowledge) : Prop :=
  sound g = true ∧
  match e with
  | Exits code =>
      reads g = false ∧ writes g = false ∧
      (stopped g = false ∧ resumed g = false ∧ forks g = [] ∨
       stopped g = true ∧ resumed g = true ∨
       stopped g = true ∧ code = 0 ∧ ∃ m, 0 < m ∧ forks g = [m; 0])
  | Replaced =>
      reads g = false ∧ writes g = true ∧ stopped g = true ∧ reaped g = true ∧
      ∃ n, 0 < n ∧ forks g = [n]
  | Waiting => True
  end.

Abbreviation hoare := (hoare observe nothing).

Section Stopped.
Context (p d : Z) (parent_ok : 1 < p).
Let known sp rs fk rp rd wr := Knowledge p d sp rs fk rp rd wr true.

Lemma resume_then {A} sp rs fk rp rd wr (f : unit → st (world request E) A) Q :
  hoare (λ g, g = known sp true fk rp rd wr) (f tt) Q →
  hoare (λ g, g = known sp rs fk rp rd wr) (resume_parent p ≫= f) Q.
Proof.
  intros Hf. unfold resume_parent. rewrite (proj2 (Z.ltb_lt 1 p)) by done. apply step_tell.
  intros v. cbn. by rewrite (proj2 (Z.ltb_lt 1 p)), Z.eqb_refl by done.
Qed.

Lemma close_both_then {A} sp rs fk rp (f : unit → st (world request E) A) Q :
  hoare (λ g, g = known sp rs fk rp false false) (f tt) Q →
  hoare (λ g, g = known sp rs fk rp true true) (close_both ≫= f) Q.
Proof.
  intros Hf. apply (hoare_bind _ _ _ (λ _ g, g = known sp rs fk rp false false)).
  - unfold close_both. apply step_tell. intros v. cbn. apply hoare_tell. by intros ? v' ->.
  - by intros [].
Qed.

Lemma await_ready_same fuel fk : same observe nothing (known true false fk false true false) (await_ready fuel).
Proof.
  assert (∀ n i g, same observe nothing g (has_newline n i)) as Hn.
  { induction n as [|n IH]; intros i g; cbn [has_newline]; [apply same_ret|].
    apply same_bind; [apply same_ask; intros v; by destruct g|]. intros b. case_match; [apply same_ret|auto]. }
  induction fuel as [|fuel IH]; cbn [await_ready]; [apply same_ret|].
  apply same_bind; [by apply same_ask|]. intros count. case_match.
  - apply same_bind; [apply Hn|]. intros []; [apply same_ret|done].
  - apply same_bind; [|intros []; [done|apply same_ret]].
    case_match; [|apply same_ret]. unfold equals. apply same_bind; [by apply same_ask|intros; apply same_ret].
Qed.

Lemma wait_notifier_same fuel n g : same observe nothing g (wait_notifier fuel n).
Proof.
  induction fuel as [|fuel IH]; cbn [wait_notifier]; [apply same_ret|].
  apply same_bind; [apply same_ask; intros v; by destruct g|]. intros v. apply same_bind.
  - case_match; [|apply same_ret]. unfold equals.
    apply same_bind; [apply same_ask; intros w; by destruct g|intros; apply same_ret].
  - intros []; [done|apply same_ret].
Qed.

Lemma notify_settled fuel :
  hoare (λ g, g = known true false [0] false true true) (notify fuel p) settled.
Proof.
  unfold notify. apply step_ask. intros v. cbn.
  destruct (Z.ltb_spec v 0) as [Hv|Hv]; [|destruct (Z.ltb_spec 0 v)].
  - apply close_both_then, resume_then, step_ret. unfold settled. cbn. auto 10.
  - apply close_both_then, step_ret. unfold settled. cbn. split_and!; try done.
    right; right. split_and!; try done. by exists v.
  - assert (v = 0) as -> by lia. apply step_tell. intros u. cbn. unfold wait_for_x_ready.
    apply (step_same (known true false [0; 0] false true false)); [apply await_ready_same|].
    intros []; [|by apply step_ret]. apply step_tell. intros u'. cbn.
    apply resume_then, step_ret. unfold settled. cbn. auto 10.
Qed.

Lemma become_server_settled fuel n : 0 < n →
  hoare (λ g, g = known true false [n] false true true)
    (become_server fuel argv (decimal d) p n) settled.
Proof.
  intros Hn. unfold become_server. apply step_same; [apply wait_notifier_same|].
  intros [v|]; [|by apply step_ret].
  apply (hoare_bind _ _ _ (λ good g, ∃ rp, g = known true false [n] rp true true ∧ (good = true → rp = true))).
  { case_match; [|apply step_ret; by exists false]. apply step_ask. intros s. cbn. apply step_ret. by eexists. }
  intros good. apply hoare_pre. intros ? (rp & -> & Hrp). destruct good; cbn [negb].
  - rewrite Hrp by done. apply step_tell. intros u. cbn. apply step_ask. intros r. cbn.
    rewrite !bool_decide_true by done. cbn.
    destruct (Z.leb_spec 0 r); [apply step_ret; unfold settled; cbn; by eauto 10|].
    apply step_ask. intros e. cbn. apply step_tell. intros u'. cbn.
    apply resume_then, step_ret. unfold settled. cbn. auto 10.
  - apply close_both_then, resume_then, step_ret. unfold settled. cbn. auto 10.
Qed.
End Stopped.

Lemma main_settled fuel : hoare (λ g, g = nothing) (main fuel argv) settled.
Proof.
  unfold main. apply step_ask. intros p. cbn.
  assert (settled (Exits 125) (Knowledge p 0 false false [] false false false true)) as Hnone.
  { unfold settled. cbn. auto 10. }
  case_match; [by apply step_ret|]. case_match; [by apply step_ret|].
  destruct (Z.leb_spec p 1); [by apply step_ret|]. apply step_ask. intros r. cbn.
  destruct (Z.ltb_spec r 0); [by apply step_ret|]. apply step_ask. intros d. cbn.
  case_match; [apply close_both_then, step_ret; unfold settled; cbn; by auto 10|].
  apply step_ask. intros k. cbn. rewrite (proj2 (Z.ltb_lt 1 p)), Z.eqb_refl by done. cbn.
  destruct (Z.ltb_spec k 0); cbn.
  { apply close_both_then, step_ret. unfold settled. cbn. auto 10. }
  apply step_ask. intros n. cbn. destruct (Z.ltb_spec n 0).
  - apply close_both_then. apply resume_then; [done|]. apply step_ret. unfold settled. cbn. auto 10.
  - destruct (Z.eqb_spec n 0) as [->|]; [by apply notify_settled|apply become_server_settled; lia].
Qed.
End Safety.

(** ** Every wait ends *)

(** The processes are not kept waiting for ever: [patience] bounds how often a
    read gives bytes and how often a call is interrupted. *)
Class Patient (E : Type) `{Answers request E} := {
  patience : E → nat;
  patience_le r e : (patience (answer r e).2 <= patience e)%nat;
  patience_read e : 0 < (answer (Read 0) e).1 → (patience (answer (Read 0) e).2 < patience e)%nat;
  patience_interrupt e : (answer Errno e).1 = EINTR → (patience (answer Errno e).2 < patience e)%nat;
}.

Section Ending.
Context {E : Type} `{Patient E}.
Abbreviation K := (st (world request E)).

Definition within (n : nat) (w : world request E) : Prop := (patience (env w) < n)%nat.

Lemma triple_pre_weaken {A} (P P' : world request E → Prop) (m : K A) Q :
  triple P m Q → (∀ w, P' w → P w) → triple P' m Q.
Proof. intros Hm HP. by eapply triple_conseq. Qed.

Lemma ask_within n r : triple (within n) (ask r) (λ _, within n).
Proof.
  intros w v w' Hw. unfold ask, within in *. pose proof (patience_le r (env w)) as Hle.
  destruct (answer r (env w)). intros [= <- <-]. cbn in *. lia.
Qed.

Lemma then_within {A B} n (m : K A) (f : A → K B) Q : triple (within n) m (λ _, within n) →
  (∀ a, triple (within n) (f a) Q) → triple (within n) (m ≫= f) Q.
Proof. intros Hm Hf. by apply (triple_bind _ _ _ (λ _, within n)). Qed.

Lemma tell_within n r : triple (within n) (tell r) (λ _, within n).
Proof. apply then_within; [apply ask_within|]. intros v. by apply triple_ret. Qed.

Lemma has_newline_within n k i : triple (within n) (has_newline k i) (λ _, within n).
Proof.
  revert i. induction k as [|k IH]; intros i; cbn [has_newline]; [by apply triple_ret|].
  apply then_within; [apply ask_within|]. intros b. case_match; [by apply triple_ret|apply IH].
Qed.

(** A negative answer, asked for its reason: patience is lost if it is tried again. *)
Lemma interrupted_within n (c : bool) :
  triple (within (S n)) (if c then equals Errno EINTR else mret false)
    (λ again w, within (S n) w ∧ (again = true → within n w)).
Proof.
  destruct c; [|apply triple_ret; intros w Hw; by split]. unfold equals.
  apply (triple_bind _ _ _ (λ v w, within (S n) w ∧ (v = EINTR → within n w))).
  - intros w v w' Hw. unfold ask, within in *. pose proof (patience_le Errno (env w)).
    pose proof (patience_interrupt (env w)) as Hi. destruct (answer Errno (env w)).
    intros [= <- <-]. cbn in *. split; [lia|]. intros Hz. specialize (Hi Hz). lia.
  - intros v. apply triple_ret. intros w [Hw Hi]. split; [done|]. intros ->%Z.eqb_eq. auto.
Qed.

Lemma await_ready_ends fuel : triple (within fuel) (await_ready fuel) (λ a _, a = true).
Proof.
  induction fuel as [|fuel IH]; cbn [await_ready]; [intros w a w' Hw; by inversion Hw|].
  apply (triple_bind _ _ _ (λ v w, within (S fuel) w ∧ (0 < v → within fuel w))).
  { intros w v w' Hw. unfold ask, within in *. pose proof (patience_le (Read 0) (env w)).
    pose proof (patience_read (env w)) as Hr. destruct (answer (Read 0) (env w)).
    intros [= <- <-]. cbn in *. split; [lia|]. intros Hz. specialize (Hr Hz). lia. }
  intros v. destruct (Z.ltb_spec 0 v).
  - apply (triple_pre_weaken (within fuel)); [|by intros w [_ Hw]; auto].
    apply then_within; [apply has_newline_within|]. intros []; [by apply triple_ret|exact IH].
  - apply (triple_pre_weaken (within (S fuel))); [|by intros w [Hw _]].
    eapply triple_bind; [apply interrupted_within|]. intros []; [|by apply triple_ret].
    apply (triple_pre_weaken (within fuel)); [exact IH|by intros w [_ Hw]; auto].
Qed.

Lemma wait_notifier_ends fuel n : triple (within fuel) (wait_notifier fuel n) (λ a _, a ≠ None).
Proof.
  induction fuel as [|fuel IH]; cbn [wait_notifier]; [intros w a w' Hw; by inversion Hw|].
  apply then_within; [apply ask_within|]. intros v.
  eapply triple_bind; [apply interrupted_within|]. intros []; [|by apply triple_ret].
  apply (triple_pre_weaken (within fuel)); [exact IH|by intros w [_ Hw]; auto].
Qed.

(** What comes after the loops. *)
Definition ends (m : K ending) : Prop := triple (λ _, True) m (λ e _, e ≠ Waiting).
Lemma ends_then {A} (m : K A) f : (∀ a, ends (f a)) → ends (m ≫= f).
Proof. intros Hf. apply (triple_bind _ _ _ (λ _ _, True)); [by intros w a w'|done]. Qed.
Lemma ends_exit e : e ≠ Waiting → ends (mret e).
Proof. intros He. by apply triple_ret. Qed.
Lemma ends_within n m : ends m → triple (within n) m (λ e _, e ≠ Waiting).
Proof. intros Hm. by apply (triple_pre_weaken (λ _, True)). Qed.

Ltac ends :=
  repeat first [apply ends_exit; done | apply ends_then; intros ? | case_match].

Lemma notify_ends fuel p : triple (within fuel) (notify fuel p) (λ e _, e ≠ Waiting).
Proof.
  apply then_within; [apply ask_within|]. intros v.
  case_match; [apply ends_within; ends|]. case_match; [apply ends_within; ends|].
  apply then_within; [apply tell_within|]. intros _.
  eapply triple_bind; [apply await_ready_ends|]. intros a.
  apply triple_pre. intros w ->.
  apply (triple_pre_weaken (λ _, True)); [|done]. apply (ends_then (tell (Close 0))). intros. ends.
Qed.

Lemma become_server_ends fuel argv s p n :
  triple (within fuel) (become_server fuel argv s p n) (λ e _, e ≠ Waiting).
Proof.
  eapply triple_bind; [apply wait_notifier_ends|]. intros o. apply triple_pre. intros w Ho.
  destruct o as [v|]; [|done]. 
  apply (triple_pre_weaken (λ _, True)); [|done]. apply ends_then. intros good. ends.
Qed.

Lemma main_ends fuel argv : triple (within fuel) (main fuel argv) (λ e _, e ≠ Waiting).
Proof.
  unfold main. apply then_within; [apply ask_within|]. intros p.
  do 3 (case_match; [apply ends_within; ends|]).
  apply then_within; [apply ask_within|]. intros r. case_match; [apply ends_within; ends|].
  apply then_within; [apply ask_within|]. intros d. case_match; [apply ends_within; ends|].
  apply then_within; [apply ask_within|]. intros k. case_match; [apply ends_within; ends|].
  apply then_within; [apply ask_within|]. intros n. case_match; [apply ends_within; ends|].
  case_match; [apply notify_ends|apply become_server_ends].
Qed.
End Ending.

(** ** The processes together *)

Section Family.
Context {E : Type} `{Patient E} (argv : list (list Z)) (fuel : nat).

Abbreviation process := (ending * world request E)%type.
Abbreviation known := (seen (observe argv) nothing).

(** A process runs [main] from the beginning: what it did before its first [fork]
    is what the process it comes from has done. *)
Definition runs (q : process) : Prop :=
  ∃ w, trace w = [] ∧ within fuel w ∧ main fuel argv w = q.

(** For every successful [fork] of a process there is one that shares its past,
    and there the answer was 0. *)
Record kernel (procs : list process) : Prop := {
  all_run : Forall runs procs;
  forked q post pre n : q ∈ procs → trace q.2 = post ++ (Fork, n) :: pre → 0 < n →
    ∃ q', q' ∈ procs ∧ ∃ post', trace q'.2 = post' ++ (Fork, 0) :: pre;
}.

Lemma run_settled q : runs q → settled q.1 (known q.2) ∧ q.1 ≠ Waiting.
Proof.
  intros (w & Hw & Hp & Em). destruct q as [e w']. split.
  - refine (main_settled argv fuel w e w' _ Em). unfold seen. by rewrite Hw.
  - exact (main_ends fuel argv w e w' Hp Em).
Qed.

Lemma forks_app (l pre : list (request * Z)) :
  ∃ k, forks (foldr (λ rv g, observe argv g rv) nothing (l ++ pre))
       = k ++ forks (foldr (λ rv g, observe argv g rv) nothing pre).
Proof.
  induction l as [|[r v] l [k IH]]; [by exists []|]. cbn [app foldr]. revert IH.
  generalize (foldr (λ rv g, observe argv g rv) nothing (l ++ pre)). intros [] IH. cbn in IH.
  destruct r as [| |i|pid []| |pid| | |i|i|i|path args]; cbn; try case_match; cbn;
    first [by exists k | exists (v :: k); by rewrite IH].
Qed.

Lemma forks_last (l : list (request * Z)) m fk :
  forks (foldr (λ rv g, observe argv g rv) nothing l) = m :: fk →
  ∃ post pre, l = post ++ (Fork, m) :: pre ∧
    forks (foldr (λ rv g, observe argv g rv) nothing pre) = fk.
Proof.
  induction l as [|[r v] l IH]; [done|]. cbn [foldr]. revert IH.
  set (g := foldr _ nothing l). destruct g eqn:Eg. intros IH.
  assert (forks g = m :: fk → ∃ post pre, (r, v) :: l = post ++ (Fork, m) :: pre ∧
    forks (foldr (λ rv g, observe argv g rv) nothing pre) = fk) as Hk.
  { rewrite Eg. intros Hg. destruct (IH Hg) as (post & pre & -> & Hpre). by exists ((r, v) :: post), pre. }
  rewrite Eg in Hk.
  destruct r as [| |i|pid []| |pid| | |i|i|i|path args]; cbn; try (case_match; cbn); try exact Hk.
  intros [= -> <-]. exists [], l. split; [done|]. fold g. by rewrite Eg.
Qed.

(** The process at the other side of the last fork. *)
Lemma other_side procs q m fk : kernel procs → q ∈ procs → forks (known q.2) = m :: fk → 0 < m →
  ∃ q' k, q' ∈ procs ∧ forks (known q'.2) = k ++ 0 :: fk.
Proof.
  intros Hk Hq Hf Hm. apply forks_last in Hf as (post & pre & El & Hpre).
  destruct (forked _ Hk q post pre m Hq El Hm) as (q' & Hq' & post' & El').
  destruct (forks_app post' ((Fork, 0) :: pre)) as [k Ek].
  exists q', k. split; [done|]. unfold seen. rewrite El', Ek. f_equal. cbn [foldr].
  rewrite <- Hpre. by destruct (foldr _ nothing pre).
Qed.

(** The second process that was forked lets the parent go on, whatever happens. *)
Lemma grandchild_resumes procs q m : kernel procs → q ∈ procs → forks (known q.2) = [m; 0] → 0 < m →
  ∃ q', q' ∈ procs ∧ resumed (known q'.2) = true.
Proof.
  intros Hk Hq Hf Hm. destruct (other_side procs q m [0] Hk Hq Hf Hm) as (q' & k & Hq' & Hf').
  exists q'. split; [done|]. pose proof (proj1 (Forall_forall _ _) (all_run _ Hk) q' Hq') as Hr.
  destruct (run_settled q' Hr) as [[_ Hs] Hw]. destruct q'.1 as [code| |]; [| |done].
  - destruct Hs as (_ & _ & [(_ & _ & Hn)|[(_ & Hres)|(_ & _ & m' & Hm' & Hn)]]); [|done|];
      rewrite Hf' in Hn; [by destruct k|].
    destruct k as [|a [|b [|c k]]]; simplify_eq; try lia; cbn in *; by simplify_eq.
  - destruct Hs as (_ & _ & _ & _ & n & Hn & He). rewrite Hf' in He.
    destruct k as [|a [|b k]]; simplify_eq; by cbn in *.
Qed.

(** C5: The shell that was stopped is never forgotten.  Every process of the
    program ends well or becomes the server: the pipe is closed as it should be,
    reading waits only while no own end could keep it waiting, signals go only to
    the parent, and the server starts with its arguments after the notifier
    exited well.  And where the parent was stopped, one of the processes lets it go
    on, however the forks, the wait, the server and the reads turn out. *)
Theorem parent_resumed (procs : list process) : kernel procs →
  (∀ q, q ∈ procs → settled q.1 (known q.2) ∧ q.1 ≠ Waiting) ∧
  (∀ q, q ∈ procs → stopped (known q.2) = true →
     ∃ q', q' ∈ procs ∧ resumed (known q'.2) = true).
Proof.
  intros Hk. assert (∀ q, q ∈ procs → settled q.1 (known q.2) ∧ q.1 ≠ Waiting) as Hall.
  { intros q Hq. apply run_settled. exact (proj1 (Forall_forall _ _) (all_run _ Hk) q Hq). }
  split; [done|]. intros q Hq Hst. destruct (Hall q Hq) as [[_ Hs] Hw].
  destruct q.1 as [code| |] eqn:Ee; [| |done].
  - destruct Hs as (_ & _ & [(Hno & _)|[(_ & Hres)|(_ & _ & m & Hm & Hf)]]).
    + congruence.
    + by exists q.
    + by eapply grandchild_resumes.
  - destruct Hs as (_ & _ & _ & _ & n & Hn & Hf).
    destruct (other_side procs q n [] Hk Hq Hf Hn) as (c & k & Hc & Hfc).
    destruct (Hall c Hc) as [[_ Hsc] Hwc]. destruct c.1 as [code| |]; [| |done].
    + destruct Hsc as (_ & _ & [(_ & _ & Hno)|[(_ & Hres)|(_ & _ & m & Hm & Hfm)]]).
      * rewrite Hfc in Hno. by destruct k.
      * by exists c.
      * by eapply grandchild_resumes.
    + destruct Hsc as (_ & _ & _ & _ & m & Hm & Hfm). rewrite Hfc in Hfm.
      destruct k as [|a k]; cbn in *; simplify_eq; first [lia|by destruct k].
Qed.
End Family.

(** ** A concrete family

    The answers are a list, and 0 behind its end. *)

Module Script.
#[global] Instance script_answers : Answers request (list Z) := λ _ l,
  match l with [] => (0, []) | v :: l => (v, l) end.

#[global] Program Instance script_patient : Patient (list Z) := {| patience := length |}.
Next Obligation. intros r [|v l]; cbn; lia. Qed.
Next Obligation. intros [|v l]; cbn; lia. Qed.
Next Obligation. intros [|v l]; cbn; [done|lia]. Qed.

(** The shell is 50, the notifier 60, the process that waits 61; the descriptor is
    4.  The wait is interrupted once, the server starts, and is ready with the
    second read. *)
Definition server : list Z := [50; 0; 4; 0; 60; -1; 4; 60; 0; 0; 0].
Definition notifier : list Z := [50; 0; 4; 0; 0; 61].
Definition waiter : list Z := [50; 0; 4; 0; 0; 0; 0; 1; 53; 2; 50; 10].
Definition run (l : list Z) : ending * world request (list Z) := main 20 [str "Xfbdev"] (World l []).
Definition family : list (ending * world request (list Z)) := map run [server; notifier; waiter].
End Script.

(** [forked], as a test. *)
Definition has_child {E} (procs : list (ending * world request E)) (l : list (request * Z)) : bool :=
  match l with
  | (Fork, n) :: pre =>
      (n <=? 0) || existsb (λ q, existsb (λ k, bool_decide (drop k (trace q.2) = (Fork, 0) :: pre))
                                   (seq 0 (length (trace q.2)))) procs
  | _ => true
  end.
Definition all_children {E} (procs : list (ending * world request E)) : bool :=
  forallb (λ q, forallb (λ k, has_child procs (drop k (trace q.2))) (seq 0 (length (trace q.2)))) procs.

Lemma all_children_forked {E} (procs : list (ending * world request E)) q post pre n :
  all_children procs = true → q ∈ procs → trace q.2 = post ++ (Fork, n) :: pre → 0 < n →
  ∃ q', q' ∈ procs ∧ ∃ post', trace q'.2 = post' ++ (Fork, 0) :: pre.
Proof.
  intros Hc Hq Ht Hn. unfold all_children in Hc. rewrite forallb_forall in Hc.
  apply list_elem_of_In, Hc in Hq. rewrite forallb_forall in Hq.
  specialize (Hq (length post)). rewrite Ht, drop_app_length in Hq. cbn [has_child] in Hq.
  rewrite (proj2 (Z.leb_gt n 0)) in Hq by lia. cbn in Hq.
  apply existsb_exists in Hq as (q' & Hq' & Hk).
  - apply existsb_exists in Hk as (k & _ & Hk%bool_decide_eq_true).
    exists q'. split; [by apply list_elem_of_In|]. exists (take k (trace q'.2)).
    by rewrite <- Hk, take_drop.
  - apply in_seq. rewrite length_app. cbn. lia.
Qed.

Lemma parent_resumed_witness :
  map (λ q, q.1) Script.family = [Replaced; Exits 0; Exits 0] ∧
  (∀ q, q ∈ Script.family →
     settled q.1 (seen (observe [str "Xfbdev"]) nothing q.2) ∧ q.1 ≠ Waiting) ∧
  (∀ q, q ∈ Script.family → stopped (seen (observe [str "Xfbdev"]) nothing q.2) = true →
     ∃ q', q' ∈ Script.family ∧ resumed (seen (observe [str "Xfbdev"]) nothing q'.2) = true).
Proof.
  split; [by vm_compute|]. apply (parent_resumed [str "Xfbdev"] 20). split.
  - repeat constructor; eexists (World _ []); (split_and!; [done| |done]); unfold within; cbn; lia.
  - intros q post pre n. apply all_children_forked. by vm_compute.
Defined.
