(* ===== verification/FileLite.v ===== *)
(** * What a file is ([src/x11/apps/file-lite.c])

    The small [file] command: it looks at the first bytes of a file and names
    what it sees.  System calls and output are requests ([Traced]); the text that
    belongs to [errno] is printed by [PutsError]. *)

From Stdlib Require Import String Ascii.
From S2P Require Import Prelude Text Traced.

(** ** Requests *)

(** [Mode] is [st_mode]; [Byte i] and [Target i] are what [read] and [readlink]
    have put into their buffers. *)
Inductive request : Type :=
| Lstat (name : list Z) | Mode | Readlink (name : list Z) (size : Z) | Target (i : Z)
| Open (name : list Z) | Read (fd size : Z) | Byte (i : Z) | Close (fd : Z)
| Puts (s : list Z) | PutsError (s : list Z).

Definition S_IFMT : Z := 0xf000.
Definition is_mode (m kind : Z) : bool := Z.land m S_IFMT =? kind.
Definition S_ISLNK (m : Z) : bool := is_mode m 0xa000.
Definition S_ISDIR (m : Z) : bool := is_mode m 0x4000.
Definition S_ISREG (m : Z) : bool := is_mode m 0x8000.
Definition S_ISCHR (m : Z) : bool := is_mode m 0x2000.
Definition S_ISBLK (m : Z) : bool := is_mode m 0x6000.
Definition S_ISFIFO (m : Z) : bool := is_mode m 0x1000.

(** ** Looking at the bytes *)

Fixpoint is_text (data : list Z) : bool :=
  match data with
  | [] => true
  | c :: data =>
      if c =? 0 then false
      else if (c <? 0x20) && negb (c =? 10) && negb (c =? 13) && negb (c =? 9) && negb (c =? 12)
              && negb (c =? 8) then false
      else is_text data
  end.

(** [p[i]]; the bytes are all that was read. *)
Definition at_ (p : list Z) (i : nat) : option Z := p !! i.
Definition is_at (p : list Z) (i : nat) (v : Z) : option bool := c ← at_ p i; Some (c =? v).

(** [!memcmp(p, s, length s)] *)
Fixpoint begins (p s : list Z) : option bool :=
  match s with
  | [] => Some true
  | b :: s => match p with [] => None | c :: p => if c =? b then begins p s else Some false end
  end.

(** [&&] and [||] of tests. *)
Definition and_also (a b : option bool) : option bool := x ← a; if x : bool then b else Some false.
Definition or_else (a b : option bool) : option bool := x ← a; if x : bool then Some true else b.
(** [n >= k && test] *)
Definition with_bytes (p : list Z) (k : Z) (test : option bool) : option bool :=
  if k <=? zlen p then test else Some false.

Definition elf_name (p : list Z) : option (list Z) :=
  p4 ← at_ p 4; p5 ← at_ p 5; p18 ← at_ p 18; p19 ← at_ p 19;
  let machine := if p5 =? 2 then Z.lor (Z.shiftl p18 8) p19 else Z.lor (Z.shiftl p19 8) p18 in
  Some (str "ELF " ++ (if p4 =? 2 then str "64" else str "32") ++ str "-bit " ++
        (if p5 =? 2 then str "MSB" else str "LSB") ++
        (if machine =? 42 then str ", Renesas SH" else [])).

(** [snprintf] into 96 bytes. *)
Definition elf (p : list Z) : option (list Z) := s ← elf_name p; Some (take 95 s).

(** The tests in order, the first that holds decides. *)
Fixpoint first_of (tests : list (option bool * option (list Z))) (otherwise : option (list Z))
    : option (list Z) :=
  match tests with
  | [] => otherwise
  | (t, name) :: tests => b ← t; if b : bool then name else first_of tests otherwise
  end.

Definition classify (p : list Z) : option (list Z) :=
  first_of
    [ (Some (zlen p =? 0), Some (str "empty"));
      (with_bytes p 20 (begins p ([127] ++ str "ELF")), elf p);
      (with_bytes p 2 (and_also (is_at p 0 35) (is_at p 1 33)), Some (str "executable script, text"));
      (with_bytes p 4 (begins p (str "hsqs")), Some (str "SquashFS filesystem, little-endian"));
      (with_bytes p 4 (begins p (str "sqsh")), Some (str "SquashFS filesystem, big-endian"));
      (with_bytes p 6 (begins p ([0xfd] ++ str "7zXZ" ++ [0])), Some (str "XZ compressed data"));
      (with_bytes p 3 (and_also (is_at p 0 0x1f) (is_at p 1 0x8b)), Some (str "gzip compressed data"));
      (with_bytes p 3 (begins p (str "BZh")), Some (str "bzip2 compressed data"));
      (with_bytes p 4 (and_also (is_at p 0 0x28) (and_also (is_at p 1 0xb5)
         (and_also (is_at p 2 0x2f) (is_at p 3 0xfd)))), Some (str "Zstandard compressed data"));
      (with_bytes p 8 (begins p ([0x89] ++ str "PNG" ++ [13; 10; 0x1a; 10])), Some (str "PNG image data"));
      (with_bytes p 3 (and_also (is_at p 0 0xff) (and_also (is_at p 1 0xd8) (is_at p 2 0xff))),
         Some (str "JPEG image data"));
      (with_bytes p 6 (or_else (begins p (str "GIF87a")) (begins p (str "GIF89a"))),
         Some (str "GIF image data"));
      (with_bytes p 5 (begins p (str "%PDF-")), Some (str "PDF document"));
      (with_bytes p 4 (begins p (str "PK" ++ [3; 4])), Some (str "Zip archive data"));
      (with_bytes p 6 (or_else (begins p (str "070701")) (begins p (str "070702"))),
         Some (str "ASCII cpio archive"));
      (with_bytes p 512 (and_also (is_at p 510 0x55) (is_at p 511 0xaa)), Some (str "DOS/MBR boot sector")) ]
    (Some (if is_text p then str "text" else str "data")).

(** ** The command *)

Section Files.
Context {E : Type} `{Answers request E} (brief : bool).
Abbreviation K := (st (world request E)).

Definition print_name (name : list Z) : K unit :=
  if brief then mret tt else tell (Puts (name ++ str ": ")).

Definition print_type (name type : list Z) : K unit :=
  print_name name;; tell (Puts (type ++ [10])).

(** [cannot open (...)] and the like *)
Definition print_failure (name what : list Z) : K unit := print_name name;; tell (PutsError what).

(** The first [n] bytes of a buffer. *)
Fixpoint buffer (byte : Z → request) (n : nat) (i : Z) : K (list Z) :=
  match n with
  | O => mret []
  | S n => b ← ask (byte i); l ← buffer byte n (i + 1); mret (u8 b :: l)
  end.

(** [%s] of a buffer with a terminator at its end. *)
Fixpoint until_nul (l : list Z) : list Z :=
  match l with [] => [] | c :: l => if c =? 0 then [] else c :: until_nul l end.

(** [None]: it has read bytes that were not there. *)
Definition inspect (name : list Z) : K (option Z) :=
  r ← ask (Lstat name);
  if r <? 0 then print_failure name (str "cannot open");; mret (Some 1)
  else
    mode ← ask Mode;
    if S_ISLNK mode then
      count ← ask (Readlink name 255);
      if count <? 0 then mret (Some 1)
      else
        target ← buffer Target (Z.to_nat count) 0;
        print_name name;;
        tell (Puts (str "symbolic link to " ++ until_nul target ++ [10]));;
        mret (Some 0)
    else if S_ISDIR mode then print_type name (str "directory");; mret (Some 0)
    else if negb (S_ISREG mode) then
      print_type name
        (if S_ISCHR mode then str "character special"
         else if S_ISBLK mode then str "block special"
         else if S_ISFIFO mode then str "fifo" else str "special");;
      mret (Some 0)
    else
      fd ← ask (Open name);
      if fd <? 0 then print_failure name (str "cannot open");; mret (Some 1)
      else
        count ← ask (Read fd 2048);
        data ← buffer Byte (Z.to_nat count) 0;
        tell (Close fd);;
        if count <? 0 then print_failure name (str "cannot read");; mret (Some 1)
        else
          match classify data with
          | None => mret None
          | Some type => print_type name type;; mret (Some 0)
          end.

Fixpoint inspect_all (names : list (list Z)) (result : Z) : K (option Z) :=
  match names with
  | [] => mret (Some result)
  | name :: names =>
      r ← inspect name;
      match r with
      | None => mret None
      | Some r => inspect_all names (Z.lor result r)
      end
  end.
End Files.

Definition main {E} `{Answers request E} (argv : list (list Z)) : st (world request E) (option Z) :=
  let names := tail argv in
  let brief := bool_decide (head names = Some (str "-b")) in
  let names := if brief then tail names else names in
  match names with
  | [] => mret (Some 2)
  | _ => inspect_all brief names 0
  end.

(** ** Looking only at what was read *)

Definition answers_yes_or_no (t : option bool) : Prop := ∃ b, t = Some b.

Lemma begins_total p s : (length s <= length p)%nat → answers_yes_or_no (begins p s).
Proof.
  revert p. induction s as [|b s IH]; intros [|c p] Hl; cbn in *; try lia; [by eexists..|].
  case_match; [apply IH; lia|by eexists].
Qed.
Lemma is_at_total p i v : (i < length p)%nat → answers_yes_or_no (is_at p i v).
Proof. intros Hi. unfold is_at, at_. destruct (lookup_lt_is_Some_2 p i Hi) as [c ->]. by eexists. Qed.
Lemma and_also_total a b : answers_yes_or_no a → answers_yes_or_no b → answers_yes_or_no (and_also a b).
Proof. intros [[] ->] Hb; [exact Hb|by eexists]. Qed.
Lemma or_else_total a b : answers_yes_or_no a → answers_yes_or_no b → answers_yes_or_no (or_else a b).
Proof. intros [[] ->] Hb; [by eexists|exact Hb]. Qed.
Lemma with_bytes_total p k t : (k <= zlen p → answers_yes_or_no t) → answers_yes_or_no (with_bytes p k t).
Proof. intros Ht. unfold with_bytes. destruct (Z.leb_spec k (zlen p)); [by apply Ht|by eexists]. Qed.

Lemma first_of_total tests o :
  Forall (λ t, answers_yes_or_no t.1 ∧ (t.1 = Some true → ∃ s, t.2 = Some s)) tests →
  (∃ s, o = Some s) → ∃ s, first_of tests o = Some s.
Proof.
  intros Ht Ho. induction Ht as [|[t name] tests [[b Hb] Hn] Ht IH]; [done|].
  cbn in *. subst t. destruct b; [by apply Hn|exact IH].
Qed.

Lemma elf_total p : with_bytes p 20 (begins p ([127] ++ str "ELF")) = Some true → ∃ s, elf p = Some s.
Proof.
  unfold with_bytes. destruct (Z.leb_spec 20 (zlen p)) as [Hp|]; [|done]. intros _. unfold elf, elf_name, at_.
  destruct (lookup_lt_is_Some_2 p 4) as [? ->]; [unfold zlen in *; lia|].
  destruct (lookup_lt_is_Some_2 p 5) as [? ->]; [unfold zlen in *; lia|].
  destruct (lookup_lt_is_Some_2 p 18) as [? ->]; [unfold zlen in *; lia|].
  destruct (lookup_lt_is_Some_2 p 19) as [? ->]; [unfold zlen in *; lia|]. by eexists.
Qed.

Lemma classify_total p : ∃ s, classify p = Some s.
Proof.
  unfold classify. apply first_of_total; [|by eexists].
  repeat (apply Forall_cons; split); [..|apply Forall_nil; done]; cbn [fst snd];
    (split; [|first [apply elf_total|intros _; by eexists]]); try (by eexists);
    apply with_bytes_total; intros Hp; unfold zlen in Hp;
    repeat first [apply and_also_total | apply or_else_total];
    first [apply begins_total; cbn; lia | apply is_at_total; lia].
Qed.

(** ** What a run does *)

(** [held]: the descriptor that is open; [reported] lines were printed, of them
    [failures] about errors; [silent] links could not be read, which prints
    nothing; [sound]: one file at a time, read and closed while open. *)
Record account := Account {
  held : option Z; reported : nat; failures : nat; silent : nat; sound : bool;
}.
Definition nothing : account := Account None 0 0 0 true.

Definition observe (g : account) (rv : request * Z) : account :=
  let '(Account h rp fl sl ok) := g in
  match rv with
  | (Open _, v) => if v <? 0 then g else Account (Some v) rp fl sl (ok && bool_decide (h = None))
  | (Read fd _, _) => Account h rp fl sl (ok && bool_decide (h = Some fd))
  | (Close fd, _) => Account None rp fl sl (ok && bool_decide (h = Some fd))
  | (Puts s, _) => if bool_decide (last s = Some 10) then Account h (S rp) fl sl ok else g
  | (PutsError _, _) => Account h (S rp) (S fl) sl ok
  | (Readlink _ _, v) => if v <? 0 then Account h rp fl (S sl) ok else g
  | _ => g
  end.

Section Account.
Context {E : Type} `{Answers request E} (brief : bool).
Abbreviation K := (st (world request E)).
Abbreviation hoare := (hoare observe nothing).

(** After one name more: one line or one silent failure more. *)
Definition after_one (rp fl sl : nat) (o : option Z) (g : account) : Prop :=
  held g = None ∧ sound g = true ∧ (reported g + silent g = S (rp + sl))%nat ∧
  ∃ r, o = Some r ∧ (r = 0 ∧ (failures g + silent g = fl + sl)%nat ∨
                     r = 1 ∧ (failures g + silent g = S (fl + sl))%nat).

Lemma print_name_same g name : same observe nothing g (print_name (E := E) brief name).
Proof.
  unfold print_name, tell. destruct brief; same. apply same_ask. intros v. unfold observe.
  destruct g. by rewrite last_app.
Qed.

Lemma buffer_same g byte n i : (∀ j v, observe g (byte j, v) = g) →
  same observe nothing g (buffer (E := E) byte n i).
Proof.
  intros Hb. revert i. induction n as [|n IH]; intros i; cbn [buffer]; [apply same_ret|].
  apply same_bind; [by apply same_ask|]. intros b. apply same_bind; [apply IH|]. intros l. apply same_ret.
Qed.

(** The last request of a name. *)
Lemma line_then {A} h rp fl sl s (f : unit → K A) Q :
  hoare (λ g, g = Account h (S rp) fl sl true) (f tt) Q →
  hoare (λ g, g = Account h rp fl sl true) (tell (Puts (s ++ [10])) ≫= f) Q.
Proof. intros Hf. apply step_tell. intros v. unfold observe. by rewrite last_snoc, bool_decide_true. Qed.

Lemma print_type_then {A} h rp fl sl name type (f : unit → K A) Q :
  hoare (λ g, g = Account h (S rp) fl sl true) (f tt) Q →
  hoare (λ g, g = Account h rp fl sl true) (print_type brief name type ≫= f) Q.
Proof.
  intros Hf. apply (hoare_step _ (λ g, g = Account h (S rp) fl sl true)).
  - unfold print_type. apply step_same; [apply print_name_same|]. intros _.
    apply hoare_tell. intros g v ->. unfold observe. by rewrite last_snoc, bool_decide_true.
  - by intros [].
Qed.

Lemma print_failure_then {A} h rp fl sl name what (f : unit → K A) Q :
  hoare (λ g, g = Account h (S rp) (S fl) sl true) (f tt) Q →
  hoare (λ g, g = Account h rp fl sl true) (print_failure brief name what ≫= f) Q.
Proof.
  intros Hf. apply (hoare_step _ (λ g, g = Account h (S rp) (S fl) sl true)).
  - unfold print_failure. apply step_same; [apply print_name_same|]. intros _.
    apply hoare_tell. by intros g v ->.
  - by intros [].
Qed.

Lemma inspect_account name rp fl sl :
  hoare (λ g, g = Account None rp fl sl true) (inspect (E := E) brief name) (after_one rp fl sl).
Proof.
  assert (after_one rp fl sl (Some 0) (Account None (S rp) fl sl true)) as Hgood.
  { split_and!; [done..|cbn; lia|]. exists 0. split; [done|]. left. cbn. lia. }
  assert (after_one rp fl sl (Some 1) (Account None (S rp) (S fl) sl true)) as Hbad.
  { split_and!; [done..|cbn; lia|]. exists 1. split; [done|]. right. cbn. lia. }
  unfold inspect. apply step_ask. intros r. cbn [observe]. case_match; [by apply print_failure_then, step_ret|].
  apply step_ask. intros mode. cbn [observe]. case_match.
  { apply step_ask. intros count. cbn [observe]. case_match.
    - apply step_ret. split_and!; [done..|cbn; lia|]. exists 1. split; [done|]. right. cbn. lia.
    - apply step_same; [by apply buffer_same|]. intros target.
      apply step_same; [apply print_name_same|]. intros _. rewrite app_assoc.
      by apply line_then, step_ret. }
  case_match; [by apply print_type_then, step_ret|].
  case_match; [by apply print_type_then, step_ret|].
  apply step_ask. intros fd. cbn [observe]. case_match; [by apply print_failure_then, step_ret|].
  apply step_ask. intros count. cbn [observe]. rewrite bool_decide_true by done.
  apply step_same; [by apply buffer_same|]. intros data.
  apply step_tell. intros u. cbn [observe]. rewrite bool_decide_true by done.
  case_match; [by apply print_failure_then, step_ret|].
  destruct (classify_total data) as [type ->]. by apply print_type_then, step_ret.
Qed.

(** The result so far. *)
Definition result_of (fl sl : nat) : Z := if decide (fl + sl = 0)%nat then 0 else 1.

Lemma inspect_all_account names rp fl sl :
  hoare (λ g, g = Account None rp fl sl true) (inspect_all (E := E) brief names (result_of fl sl))
    (λ o g, held g = None ∧ sound g = true ∧ (reported g + silent g = rp + sl + length names)%nat ∧
            o = Some (result_of (failures g) (silent g))).
Proof.
  revert rp fl sl. induction names as [|name names IH]; intros rp fl sl; cbn [inspect_all].
  { apply step_ret. cbn. split_and!; [done..|lia|done]. }
  eapply hoare_bind; [apply inspect_account|]. intros o. apply hoare_pre.
  intros [h rp' fl' sl' ok] (Hh & Hok & Hrp & r & -> & Hr). cbn in Hh, Hok, Hrp, Hr. subst h ok.
  replace (Z.lor (result_of fl sl) r) with (result_of fl' sl').
  - eapply hoare_conseq; [apply (IH rp' fl' sl')|done|]. cbn [length].
    intros o g (? & ? & ? & ?). split_and!; [done..|lia|done].
  - unfold result_of. destruct Hr as [[-> Hr]|[-> Hr]]; repeat case_decide; done || lia.
Qed.
End Account.

(** C34: Every name gets its line.  For each name given there is one line, or it
    is a link that cannot be read; no byte is looked at that was not read; files
    are open one at a time, read while open and closed; and the result is 0
    exactly if nothing failed, 1 if something did, 2 without a name. *)
Theorem files_reported {E} `{Answers request E} (argv : list (list Z)) (w : world request E) :
  trace w = [] →
  let '(o, w') := main argv w in
  let g := seen observe nothing w' in
  let names := if bool_decide (head (tail argv) = Some (str "-b")) then tail (tail argv) else tail argv in
  held g = None ∧ sound g = true ∧ (reported g + silent g = length names)%nat ∧
  o = Some (if decide (names = []) then 2
            else if decide (failures g + silent g = 0)%nat then 0 else 1).
Proof.
  intros Hw. destruct (main argv w) as [o w'] eqn:Em. cbv zeta. revert Em. unfold main.
  set (brief := bool_decide _). set (names := if brief then _ else _).
  destruct names as [|name rest] eqn:En.
  { intros [= <- <-]. unfold seen. rewrite Hw. done. }
  intros Em. pose proof (inspect_all_account brief (name :: rest) 0 0 0 w o w') as Hi.
  destruct Hi as (H1 & H2 & H3 & ->); [unfold seen; by rewrite Hw|exact Em|].
  split_and!; [done|done|exact H3|]. by rewrite decide_False.
Qed.

(** ** A concrete run: a compressed file, a missing one and a link *)

Module Disk.
#[global] Instance disk_answers : Answers request unit := λ r e,
  (match r with
   | Lstat name => if bool_decide (name = str "missing") then -1 else 0
   | Mode => 0x81a4 | Open _ => 3 | Read _ _ => 3
   | Byte i => if i =? 0 then 0x1f else 0x8b
   | _ => 0
   end, e).
End Disk.

Lemma files_reported_witness :
  let '(o, w') := main [str "file"; str "a.gz"; str "missing"] (World tt []) in
  let g := seen observe nothing w' in
  let names := [str "a.gz"; str "missing"] in
  held g = None ∧ sound g = true ∧ (reported g + silent g = length names)%nat ∧
  o = Some (if decide (names = []) then 2
            else if decide (failures g + silent g = 0)%nat then 0 else 1).
Proof. apply (files_reported [str "file"; str "a.gz"; str "missing"] (World tt [])). reflexivity. Defined.
