(* ===== verification/FrameBuffer.v ===== *)
(** * Frame buffer driver ([src/kernel/overlay/drivers/video/fbdev/exwordfb.c])

    The display shows its memory only when it is told to ([exwordfb_refresh] of
    [Lcd]).  Every operation that draws counts a generation up and queues a work
    item; the worker waits until a turn of the scheduler passes without another
    generation and then refreshes.  The operations run concurrently with each
    other and with the worker: each is a list of atomic actions, and the driver
    is a step relation on the interleavings. *)

From S2P Require Import Prelude.

(** ** The operations *)

(** [Draw]: the helper of the kernel has changed the memory, in a call that
    succeeds or in one that reports an error all the same.  [Cancel] is
    [cancel_work_sync], which waits for the worker. *)
Inductive action : Type := Draw (succeeds : bool) | Bump | Schedule | Cancel | Refresh.
#[export] Instance action_eq_dec : EqDecision action.
Proof. solve_decision. Defined.

Definition exwordfb_queue_refresh : list action := [Bump; Schedule].
Definition exwordfb_fillrect : list action := Draw true :: exwordfb_queue_refresh.
Definition exwordfb_copyarea : list action := Draw true :: exwordfb_queue_refresh.
Definition exwordfb_imageblit : list action := Draw true :: exwordfb_queue_refresh.
Definition exwordfb_pan_display : list action := [Cancel; Refresh].

(** [drew]: [fb_sys_write] has changed the memory; [written] is its result, which
    can be an error also when it has: past the end of the memory it writes what
    fits and reports that the rest did not. *)
Definition exwordfb_write (drew : bool) (written : Z) : list action :=
  (if drew then [Draw (0 <? written)] else []) ++ (if 0 <? written then exwordfb_queue_refresh else []).

Definition FB_BLANK_UNBLANK : Z := 0.
Definition exwordfb_blank (blank : Z) : list action :=
  if blank =? FB_BLANK_UNBLANK then exwordfb_queue_refresh else [].

(** The calls, with any answer of [fb_sys_write]. *)
Inductive entry : list action → Prop :=
| entry_fillrect : entry exwordfb_fillrect
| entry_copyarea : entry exwordfb_copyarea
| entry_imageblit : entry exwordfb_imageblit
| entry_pan : entry exwordfb_pan_display
| entry_write drew written : entry (exwordfb_write drew written)
| entry_blank blank : entry (exwordfb_blank blank).

(** ** The driver *)

(** Where the worker is: before it reads the generation, after it read one and
    yields, or before the refresh. *)
Inductive phase : Type := Idle | Begin | Yielding (generation : Z) | Present.

(** [drawn] counts the changes of the memory, [shown] those the display has; [due]
    are the changes up to the latest one of a call that succeeds, and [clean] says
    that there was no other. *)
Record state := State {
  refresh_generation : Z; pending : bool; worker : phase; drawn : Z; shown : Z;
  due : Z; clean : bool; threads : list (list action);
}.

Definition set_threads (t : list (list action)) (s : state) : state :=
  State (refresh_generation s) (pending s) (worker s) (drawn s) (shown s) (due s) (clean s) t.

(** [None]: it has to wait. *)
Definition run_action (a : action) (s : state) : option state :=
  let '(State g p w d h u c t) := s in
  match a with
  | Draw succeeds =>
      Some (State g p w (d + 1) h (if succeeds then d + 1 else u) (c && succeeds) t)
  | Bump => Some (State (u32 (g + 1)) p w d h u c t)
  | Schedule => Some (State g true w d h u c t)
  | Cancel => match w with Idle => Some (State g false w d h u c t) | _ => None end
  | Refresh => Some (State g p w d d u c t)
  end.

(** [exwordfb_refresh_work], from the queue to the refresh. *)
Definition exwordfb_refresh_work (s : state) : option state :=
  let '(State g p w d h u c t) := s in
  match w with
  | Idle => if p then Some (State g false Begin d h u c t) else None
  | Begin => Some (State g p (Yielding g) d h u c t)
  | Yielding generation =>
      Some (State g p (if generation =? g then Present else Begin) d h u c t)
  | Present => Some (State g p Idle d d u c t)
  end.

Inductive quiet : state → state → Prop :=
| quiet_act s s' i a rest : threads s !! i = Some (a :: rest) →
    run_action a s = Some s' → quiet s (set_threads (<[i := rest]> (threads s)) s')
| quiet_work s s' : exwordfb_refresh_work s = Some s' → quiet s s'.

Inductive step : state → state → Prop :=
| step_enter s call : entry call → step s (set_threads (call :: threads s) s)
| step_quiet s s' : quiet s s' → step s s'.

(** After [exwordfb_init], which ends with a refresh. *)
Definition initial : state := State 0 false Idle 0 0 0 true [].

Definition quiescent (s : state) : Prop :=
  pending s = false ∧ worker s = Idle ∧ Forall (λ t, t = []) (threads s).

(** ** The invariant *)

(** What was drawn is going to be shown: drawing with success is followed by
    queueing, taking back what is queued by a refresh. *)
Fixpoint safe (t : list action) : bool :=
  match t with
  | [] => true
  | Draw true :: t => bool_decide (Schedule ∈ t) && safe t
  | Cancel :: t => bool_decide (Refresh ∈ t) && safe t
  | _ :: t => safe t
  end.
Definition will_show (t : list action) : Prop := Schedule ∈ t ∨ Refresh ∈ t.

Definition covered (s : state) : Prop :=
  due s <= shown s ∨ pending s = true ∨ worker s ≠ Idle ∨ Exists will_show (threads s).
Definition counted (s : state) : Prop :=
  shown s <= drawn s ∧ due s <= drawn s ∧ (clean s = true → due s = drawn s).
Definition invariant (s : state) : Prop :=
  Forall (λ t, safe t = true) (threads s) ∧ covered s ∧ counted s.

Lemma entry_safe t : entry t → safe t = true.
Proof.
  intros [| | | |drew written|blank]; try reflexivity.
  - unfold exwordfb_write. by destruct drew, (0 <? written).
  - unfold exwordfb_blank. by case_match.
Qed.

Lemma safe_cons a t : safe (a :: t) = true → safe t = true ∧
  (a = Draw true → Schedule ∈ t) ∧ (a = Cancel → Refresh ∈ t).
Proof.
  destruct a as [[]| | | |]; cbn; intros Hs; try (by split_and!); apply andb_prop in Hs as [Hs%bool_decide_eq_true ?];
    by split_and!.
Qed.

(** Replacing a thread by what is left of it. *)
Lemma shown_later i a rest (ts : list (list action)) : ts !! i = Some (a :: rest) →
  Exists will_show ts → will_show rest ∨ a = Schedule ∨ a = Refresh ∨ Exists will_show (<[i := rest]> ts).
Proof.
  intros Hi He. apply Exists_exists in He as (t & Ht & Hw).
  apply list_elem_of_lookup in Ht as [j Hj]. destruct (decide (i = j)) as [<-|Hij].
  - rewrite Hi in Hj. injection Hj as <-. unfold will_show in *. set_solver.
  - right; right; right. apply Exists_exists. exists t. split; [|done].
    apply list_elem_of_lookup. exists j. by rewrite list_lookup_insert_ne.
Qed.

Lemma will_show_insert i a rest (ts : list (list action)) : ts !! i = Some (a :: rest) →
  will_show rest → Exists will_show (<[i := rest]> ts).
Proof.
  intros Hi Hw. apply Exists_exists. exists rest. split; [|done].
  apply list_elem_of_lookup. exists i. apply list_lookup_insert_eq. by eapply lookup_lt_Some.
Qed.

Lemma quiet_counted s s' : quiet s s' → counted s → counted s'.
Proof.
  unfold counted. intros [s0 s1 i a rest Hi Ha|s0 s1 Hw] (Hh & Hu & Hc);
    destruct s0 as [g p w d h u c t]; cbn in *.
  - destruct a as [[]| | | |]; cbn in Ha; try (destruct w; [|done..]); injection Ha as <-; cbn;
      split_and!; try (done || lia); destruct c; cbn; auto; lia.
  - destruct w as [| |k|]; [destruct p; [|done]|..]; injection Hw as <-; cbn; split_and!; auto; lia.
Qed.

Lemma quiet_covered s s' : quiet s s' → Forall (λ t, safe t = true) (threads s) → counted s →
  covered s → Forall (λ t, safe t = true) (threads s') ∧ covered s'.
Proof.
  intros [s0 s1 i a rest Hi Ha|s0 s1 Hw] Hs (Hh & Hu & _) Hc.
  - pose proof (proj1 (Forall_lookup _ _) Hs i _ Hi) as Hsafe. cbn in Hsafe.
    apply safe_cons in Hsafe as (Hr & Hd & Hx). split.
    { destruct s0, s1. by apply Forall_insert. }
    pose proof (will_show_insert i a rest (threads s0) Hi) as Hins.
    pose proof (shown_later i a rest (threads s0) Hi) as Hlater.
    unfold covered in *. destruct s0 as [g p w d h u c t]. cbn in *.
    destruct a as [[]| | | |]; cbn in Ha; [injection Ha as <-..| |injection Ha as <-]; cbn;
      try (destruct Hc as [?|[?|[?|He]]]; [by auto..|];
           destruct (Hlater He) as [?|[?|[?|?]]]; by auto 8).
    + right; right; right. apply Hins. left. auto.
    + destruct w; [|done..]. injection Ha as <-. right; right; right. apply Hins. right. auto.
  - destruct s0 as [g p w d h u c t]. unfold covered in *. cbn in *.
    destruct w as [| |k|]; [destruct p; [|done]|..]; injection Hw as <-; cbn; (split; [done|]); auto.
    right; right; left. by case_match.
Qed.

Lemma quiet_invariant s s' : quiet s s' → invariant s → invariant s'.
Proof.
  intros Hq (Hs & Hc & Hn). destruct (quiet_covered _ _ Hq Hs Hn Hc).
  split_and!; [done..|]. by eapply quiet_counted.
Qed.

Lemma step_invariant s s' : step s s' → invariant s → invariant s'.
Proof.
  intros [s0 call Hcall|s0 s1 Hq]; [|by apply quiet_invariant]. intros (Hs & Hc & Hn).
  destruct s0. split; [|split; [|done]].
  - constructor; [by apply entry_safe|done].
  - unfold covered in *. cbn in *. destruct Hc as [?|[?|[?|?]]]; auto.
Qed.

(** ** Everything comes to rest *)

Definition weight (a : action) : nat := match a with Bump => 3 | Schedule => 5 | _ => 1 end.
Definition work (s : state) : nat :=
  sum_list_with (sum_list_with weight) (threads s)
  + (if pending s then 4 else 0)
  + match worker s with
    | Idle => 0 | Present => 1 | Begin => 3
    | Yielding g => if g =? refresh_generation s then 2 else 4
    end.

Lemma sum_insert (f : list action → nat) i t t' (ts : list (list action)) : ts !! i = Some t →
  (sum_list_with f (<[i := t']> ts) + f t = sum_list_with f ts + f t')%nat.
Proof.
  revert i. induction ts as [|u ts IH]; intros [|i] Hi; [done..| |].
  - injection Hi as ->. change (f t' + sum_list_with f ts + f t = f t + sum_list_with f ts + f t')%nat. lia.
  - specialize (IH i Hi).
    change (f u + sum_list_with f (<[i:=t']> ts) + f t = f u + sum_list_with f ts + f t')%nat. lia.
Qed.

Lemma quiet_work_less s s' : quiet s s' → (work s' < work s)%nat.
Proof.
  intros [s0 s1 i a rest Hi Ha|s0 s1 Hw].
  - pose proof (sum_insert (sum_list_with weight) i _ rest _ Hi) as Hsum. cbn in Hsum.
    destruct s0 as [g p w d h u c t]. unfold work. cbn in *.
    destruct a; cbn in Ha; [injection Ha as <-..| |injection Ha as <-];
      try (destruct w; [|done..]; injection Ha as <-); cbn in *; repeat case_match; lia.
  - destruct s0 as [g p w d h u c t]. unfold work. cbn in *.
    destruct w as [| |k|]; [destruct p; [|done]|..]; injection Hw as <-; cbn; try lia.
    + rewrite Z.eqb_refl. lia.
    + destruct (k =? g); lia.
Qed.

Lemma rest_quiescent s : nf quiet s → quiescent s.
Proof.
  intros Hnf. unfold quiescent.
  assert (∀ s', exwordfb_refresh_work s ≠ Some s') as Hw.
  { intros s' Hs'. apply Hnf. exists s'. by constructor. }
  destruct s as [g p w d h u c t]. cbn in *.
  destruct w; [destruct p; [by edestruct Hw|]|by edestruct Hw..]. split_and!; [done..|].
  apply Forall_lookup. intros i [|a rest] Hi; [done|]. exfalso. apply Hnf.
  assert (∃ s', run_action a (State g false Idle d h u c t) = Some s') as [s' Hs'] by (destruct a; by eexists).
  eexists. by eapply quiet_act.
Qed.

(** C8: What was drawn with success is shown.  In every interleaving of drawing,
    writing, blanking and panning with the worker: from every reachable state the
    driver comes to rest without a further call, on every path, and at rest nothing
    is queued, no operation hangs, and the display has every change up to the latest
    one of an operation that succeeded: a fill, a copy, an image or a write with a
    positive result.  So it has every change of the memory, unless a write has
    changed it and reported an error (see [truncated_write_not_shown]). *)
Theorem frame_presented (s : state) : rtc step initial s →
  sn quiet s ∧
  ∀ s', rtc quiet s s' → nf quiet s' →
    quiescent s' ∧ due s' <= shown s' <= drawn s' ∧ (clean s' = true → shown s' = drawn s').
Proof.
  intros Hr. assert (invariant s) as Hi.
  { eapply (rtc_invariant step); [|done|by split_and!; [constructor|left|..]].
    intros. by eapply step_invariant. }
  split.
  - clear. induction s as [s IH] using (well_founded_induction (well_founded_ltof _ work)).
    constructor. intros s' Hs'. apply IH. by apply quiet_work_less.
  - intros s' Hs Hnf. assert (invariant s') as (_ & Hc & Hh & Hu & Hd).
    { eapply (rtc_invariant quiet); [|done|done]. intros. by eapply quiet_invariant. }
    pose proof (rest_quiescent s' Hnf) as (Hp & Hw & Ht). split; [done|].
    assert (due s' <= shown s') as Hds; [|split; [lia|intros Hcl; specialize (Hd Hcl); lia]].
    destruct Hc as [?|[?|[?|He]]]; [done|congruence|done|].
    apply Exists_exists in He as (t & Hin & Hwill). rewrite Forall_forall in Ht.
    rewrite (Ht t Hin) in Hwill. unfold will_show in Hwill. set_solver.
Qed.

(** A change is drawn while the worker yields for the one before. *)
Definition busy : state :=
  State 1 false (Yielding 1) 2 0 2 true [[Bump; Schedule]; []].

Lemma frame_presented_witness : sn quiet busy ∧
  ∀ s', rtc quiet busy s' → nf quiet s' →
    quiescent s' ∧ due s' <= shown s' <= drawn s' ∧ (clean s' = true → shown s' = drawn s').
Proof.
  apply (frame_presented busy).
  eapply rtc_l; [exact (step_enter initial _ entry_fillrect)|].
  do 3 (eapply rtc_l; [apply step_quiet; by eapply (quiet_act _ _ 0)|]).
  eapply rtc_l; [apply step_quiet; by eapply quiet_work|].
  eapply rtc_l; [apply step_quiet; by eapply quiet_work|].
  eapply rtc_l; [exact (step_enter _ _ (entry_write true 8))|].
  eapply rtc_l; [apply step_quiet; by eapply (quiet_act _ _ 0)|]. apply rtc_refl.
Defined.

(** A write past the end of the memory changes its last bytes and reports ENOSPC:
    nothing is queued, and the driver rests with a display that does not have them. *)
Lemma truncated_write_not_shown :
  ∃ s, rtc step initial s ∧ nf quiet s ∧ shown s < drawn s.
Proof.
  eexists. split; [|split].
  - eapply rtc_l; [exact (step_enter initial _ (entry_write true (- 28)))|].
    eapply rtc_l; [apply step_quiet; by eapply (quiet_act _ _ 0)|]. apply rtc_refl.
  - intros [s' Hq]. inversion Hq as [s0 s1 i a rest Hi Ha|s0 s1 Hw]; subst; [|done].
    by destruct i as [|[|i]].
  - done.
Qed.

(** ** Colours *)

Definition EINVAL : Z := 22.

(** [palette[regno] = ...]; the arguments are [unsigned int]s. *)
Definition exwordfb_setcolreg (regno red green blue : Z) (palette : list Z) : Z * list Z :=
  if 16 <=? regno then (- EINVAL, palette)
  else (0, <[Z.to_nat regno :=
    Z.lor (Z.lor (Z.shiftr (Z.land red 0xf800) 0) (Z.shiftr (Z.land green 0xfc00) 5))
      (Z.shiftr (Z.land blue 0xf800) 11)]> palette).

(** ** Registration *)

(** [struct fb_bitfield] *)
Record bitfield := Bitfield { offset : Z; length_ : Z }.

(** What is filled in of [struct fb_info]. *)
Record fb_info := FbInfo {
  smem_start : Z; smem_len : Z; line_length : Z; xres : Z; yres : Z; xres_virtual : Z;
  yres_virtual : Z; bits_per_pixel : Z; red : bitfield; green : bitfield; blue : bitfield;
  screen_base : Z; screen_size : Z;
}.

Definition EXWORD_WIDTH : Z := 528.
Definition EXWORD_HEIGHT : Z := 320.
Definition EXWORD_LINE_LENGTH : Z := EXWORD_WIDTH * 2.
Definition EXWORD_VRAM_SIZE : Z := EXWORD_LINE_LENGTH * EXWORD_HEIGHT.
Definition EXWORD_VRAM_P2 : Z := 0xac200000.
Definition EXWORD_VRAM_PHYS : Z := 0x0c200000.

Definition exword_info : fb_info :=
  FbInfo EXWORD_VRAM_PHYS EXWORD_VRAM_SIZE EXWORD_LINE_LENGTH EXWORD_WIDTH EXWORD_HEIGHT
    EXWORD_WIDTH EXWORD_HEIGHT 16 (Bitfield 11 5) (Bitfield 5 6) (Bitfield 0 5)
    EXWORD_VRAM_P2 EXWORD_VRAM_SIZE.

Definition ENOMEM : Z := 12.

Inductive init_call : Type :=
| Framebuffer_alloc | Fb_alloc_cmap | Register_framebuffer (info : fb_info) | First_refresh
| Fb_dealloc_cmap | Framebuffer_release.

(** The calls in order and the result, from the results of the three that can fail:
    is there memory, and the two errors. *)
Definition exwordfb_init (info : bool) (cmap_error register_error : Z) : list init_call * Z :=
  if negb info then ([Framebuffer_alloc], - ENOMEM)
  else if negb (cmap_error =? 0) then
    ([Framebuffer_alloc; Fb_alloc_cmap; Framebuffer_release], cmap_error)
  else if negb (register_error =? 0) then
    ([Framebuffer_alloc; Fb_alloc_cmap; Register_framebuffer exword_info; Fb_dealloc_cmap;
      Framebuffer_release], register_error)
  else
    ([Framebuffer_alloc; Fb_alloc_cmap; Register_framebuffer exword_info; First_refresh], 0).

(** A component of a colour, 16 bits of it given, at its place in a pixel. *)
Definition place (f : bitfield) (v : Z) : Z := v / 2 ^ (16 - length_ f) * 2 ^ offset f.

(** The top bits of a component. *)
Lemma top_bits v n : 0 <= n <= 16 → is_u 16 v →
  Z.land v (Z.land (Z.ones 16) (Z.lnot (Z.ones n))) = v / 2 ^ n * 2 ^ n.
Proof.
  intros Hn Hv. rewrite Z.land_assoc, Z.land_ones, Z.mod_small by (unfold is_u in Hv; lia).
  by rewrite <- Z.ldiff_land, Z.ldiff_ones_r, Z.shiftl_mul_pow2, Z.shiftr_div_pow2 by lia.
Qed.

(** The palette has the pixels of the format that is registered, and no entry
    behind its end is written. *)
Lemma palette_matches regno r g b palette : 0 <= regno → is_u 16 r → is_u 16 g → is_u 16 b →
  exwordfb_setcolreg regno r g b palette
  = if 16 <=? regno then (- EINVAL, palette)
    else (0, <[Z.to_nat regno :=
      place (red exword_info) r + place (green exword_info) g + place (blue exword_info) b]> palette).
Proof.
  intros Hn Hr Hg Hb. unfold exwordfb_setcolreg. case_match; [done|]. do 2 f_equal.
  change 0xf800 with (Z.land (Z.ones 16) (Z.lnot (Z.ones 11))).
  change 0xfc00 with (Z.land (Z.ones 16) (Z.lnot (Z.ones 10))).
  rewrite !top_bits, !Z.shiftr_div_pow2 by (done || lia).
  unfold place, exword_info, is_u in *. cbn [red green blue offset length_].
  replace (r / 2 ^ 11 * 2 ^ 11 / 2 ^ 0) with (r / 2 ^ 11 * 2 ^ 11) by (by rewrite Z.div_1_r).
  replace (g / 2 ^ 10 * 2 ^ 10 / 2 ^ 5) with (g / 2 ^ 10 * 2 ^ 5)
    by (Z.div_mod_to_equations; lia).
  rewrite Z.div_mul by lia.
  change (16 - 5) with 11. change (16 - 6) with 10.
  assert (0 <= g / 2 ^ 10 < 2 ^ 6 ∧ 0 <= b / 2 ^ 11 < 2 ^ 5) as [Hg' Hb']
    by (Z.div_mod_to_equations; lia).
  revert Hg' Hb'. generalize (r / 2 ^ 11), (g / 2 ^ 10), (b / 2 ^ 11). clear. intros r g b Hg Hb.
  rewrite (Z.lor_comm (r * 2 ^ 11)), lor_fields by lia.
  replace (g * 2 ^ 5 + r * 2 ^ 11) with ((g + r * 2 ^ 6) * 2 ^ 5) by lia.
  rewrite Z.lor_comm, lor_fields by lia. lia.
Qed.
