(* ===== verification/Lcd.v ===== *)
(** * Driving the main display

    The program that the loader can start to test the display,
    [src/payload/display-test.c], and the refresh of the frame buffer driver,
    [src/kernel/overlay/drivers/video/fbdev/exwordfb.c]; the marker of the
    decompressor is in [Boot].  Registers are requests ([Traced]); [Latches] says
    which of them keep what is written.  Barriers and delays are left out. *)

From S2P Require Import Prelude Traced.

(** ** Requests *)

(** A load or store has its width in bits; the lock is that of the driver;
    [Icbi], [CacheControl] and [Decompress] are the decompressor's. *)
Inductive request : Type :=
| Load (bits a : Z) | Store (bits a v : Z) | SpinLock | SpinUnlock
| Icbi (a : Z) | CacheControl (command : Z) | Decompress (output : Z) | InputByte (i : Z).
#[export] Instance request_eq_dec : EqDecision request.
Proof. solve_decision. Defined.

Definition WIDTH : Z := 528.
Definition HEIGHT : Z := 320.
Definition VRAM : Z := 0xac200000.
Definition LCDC : Z := 0xb4000000.
Definition PORTR : Z := 0xa405013c.
Definition SAR3 : Z := 0xfe008050.
Definition DAR3 : Z := 0xfe008054.
Definition TCR3 : Z := 0xfe008058.
Definition CHCR3 : Z := 0xfe00805c.
Definition DMAOR : Z := 0xfe008060.
Definition EXWORD_VRAM_PHYS : Z := 0x0c200000.
Definition TIMEOUT : nat := Z.to_nat 1000000.
Definition EXPECTED_COOKIE : Z := 0x45585731.

Section Drawing.
Context {E : Type} `{Answers request E}.
Abbreviation K := (st (world request E)).

Definition load8 (a : Z) : K Z := v ← ask (Load 8 a); mret (u8 v).
Definition load16 (a : Z) : K Z := v ← ask (Load 16 a); mret (u16 v).
Definition load32 (a : Z) : K Z := v ← ask (Load 32 a); mret (u32 v).
Definition store8 (a v : Z) : K unit := tell (Store 8 a (u8 v)).
Definition store16 (a v : Z) : K unit := tell (Store 16 a (u16 v)).
Definition store32 (a v : Z) : K unit := tell (Store 32 a (u32 v)).

(** [while (!(CHCR3 & 2) && --timeout)]: at most [timeout] reads. *)
Fixpoint wait_dma (timeout : nat) : K unit :=
  match timeout with
  | O => mret tt
  | S timeout =>
      v ← load32 CHCR3;
      if Z.land v 2 =? 0 then wait_dma timeout else mret tt
  end.

(** ** The test program *)

Definition rgb565 (red green blue : Z) : Z :=
  u16 (Z.lor (Z.lor (Z.shiftl (Z.land red 0xf8) 8) (Z.shiftl (Z.land green 0xfc) 3))
         (Z.shiftr blue 3)).

Definition lcd_command (command : Z) : K unit :=
  p ← load8 PORTR; store8 PORTR (Z.land p 0xef);;
  store16 LCDC command;;
  p ← load8 PORTR; store8 PORTR (Z.lor p 0x10).

Definition refresh : K unit :=
  lcd_command 0x2c;;
  store32 TCR3 (Z.shiftr (WIDTH * HEIGHT) 4);;
  store32 SAR3 0x0c200000;;
  store32 DAR3 0x14000000;;
  d ← load16 DMAOR; store16 DMAOR (Z.land d 0xfffe);;
  store32 CHCR3 0x40101401;;
  d ← load16 DMAOR; store16 DMAOR (Z.lor d 1);;
  wait_dma TIMEOUT.

(** [VRAM[i] = color] *)
Definition pixel (i color : Z) : K unit := store16 (VRAM + 2 * i) color.

Fixpoint fill_columns (n : nat) (row column color : Z) : K unit :=
  match n with
  | O => mret tt
  | S n => pixel (row * WIDTH + column) color;; fill_columns n row (column + 1) color
  end.
Fixpoint fill_rows (n : nat) (row x width color : Z) : K unit :=
  match n with
  | O => mret tt
  | S n => fill_columns (Z.to_nat width) row x color;; fill_rows n (row + 1) x width color
  end.
Definition fill_rect (x y width height color : Z) : K unit :=
  fill_rows (Z.to_nat height) y x width color.

Definition payload_main (cookie : Z) : K Z :=
  let background := rgb565 3 18 30 in
  let cyan := rgb565 56 220 255 in
  let green := rgb565 70 235 165 in
  let warning := rgb565 255 190 70 in
  fill_rect 0 0 WIDTH HEIGHT background;;
  fill_rect 0 0 WIDTH 36 cyan;;
  fill_rect 26 72 (WIDTH - 52) 8 green;;
  fill_rect 26 100 (WIDTH - 52) 72 (if cookie =? EXPECTED_COOKIE then green else warning);;
  fill_rect 26 194 (WIDTH - 52) 8 green;;
  fill_rect 26 228 (WIDTH - 52) 44 cyan;;
  refresh;;
  mret (Z.lxor cookie 0xffffffff).

(** ** The driver of the kernel *)

Definition exwordfb_refresh : K unit :=
  tell SpinLock;;
  portr ← load8 PORTR;
  store8 PORTR (Z.land portr (Z.lnot 0x10));;
  store16 LCDC 0x2c;;
  store8 PORTR (Z.lor portr 0x10);;
  store32 TCR3 (Z.shiftr (WIDTH * HEIGHT) 4);;
  store32 SAR3 EXWORD_VRAM_PHYS;;
  store32 DAR3 (Z.land LCDC 0x1fffffff);;
  dmaor ← load16 DMAOR;
  store16 DMAOR (Z.land dmaor (Z.lnot 1));;
  store32 CHCR3 0x40101401;;
  store16 DMAOR (Z.lor dmaor 1);;
  wait_dma TIMEOUT;;
  tell SpinUnlock.
End Drawing.

(** ** What is written *)

(** The stores of a log, the last first as in the log. *)
Definition is_store (rv : request * Z) : bool := match rv.1 with Store _ _ _ => true | _ => false end.
Definition stores (l : list (request * Z)) : list request := map fst (List.filter is_store l).

(** One picture: the command with the data line low, and the transfer of the
    whole memory, from the values of the two registers that are shared. *)
Definition picture (portr dmaor : Z) : list request :=
  [Store 16 DMAOR (Z.lor dmaor 1); Store 32 CHCR3 0x40101401; Store 16 DMAOR (Z.land dmaor 0xfffe);
   Store 32 DAR3 0x14000000; Store 32 SAR3 0x0c200000; Store 32 TCR3 10560;
   Store 8 PORTR (Z.lor portr 0x10); Store 16 LCDC 0x2c; Store 8 PORTR (Z.land portr 0xef)].

(** The port and the control register of the DMA keep what is written, and no
    other request changes them. *)
Definition latched : list Z := [PORTR; DMAOR].
Class Latches (E : Type) `{Answers request E} := {
  register : E → Z → Z;
  port_range e : is_u 8 (register e PORTR);
  dmaor_range e : is_u 16 (register e DMAOR);
  latch_load bits a e : a ∈ latched → (answer (Load bits a) e).1 = register e a;
  latch_store bits a v e b : b ∈ latched → is_u bits v → (a = PORTR → bits = 8) → (a = DMAOR → bits = 16) →
    register (answer (Store bits a v) e).2 b = if a =? b then v else register e b;
  latch_other r e b : b ∈ latched → (∀ bits a v, r ≠ Store bits a v) →
    register (answer r e).2 b = register e b;
}.

Section Agreement.
Context {E : Type} `{Latches E}.
Abbreviation K := (st (world request E)).

(** The registers have these values, and this was written. *)
Definition at_ (p d : Z) (l : list request) (w : world request E) : Prop :=
  register (env w) PORTR = p ∧ register (env w) DMAOR = d ∧ stores (trace w) = l.

Lemma load8_port p d l : triple (at_ p d l) (load8 PORTR) (λ v w, v = p ∧ at_ p d l w).
Proof.
  intros w v w' (Hp & Hd & Hl). unfold load8, ask. rewrite st_bind_eq.
  pose proof (latch_load 8 PORTR (env w) ltac:(set_solver)) as Hv.
  pose proof (latch_other (Load 8 PORTR) (env w) PORTR ltac:(set_solver) ltac:(done)) as H1.
  pose proof (latch_other (Load 8 PORTR) (env w) DMAOR ltac:(set_solver) ltac:(done)) as H2.
  destruct (answer _ _) as [a e]. cbn in Hv, H1, H2. intros [= <- <-]. unfold at_. cbn [env trace].
  rewrite H1, H2. subst. split; [by apply u8_small, port_range|done].
Qed.

Lemma load16_dmaor p d l : triple (at_ p d l) (load16 DMAOR) (λ v w, v = d ∧ at_ p d l w).
Proof.
  intros w v w' (Hp & Hd & Hl). unfold load16, ask. rewrite st_bind_eq.
  pose proof (latch_load 16 DMAOR (env w) ltac:(set_solver)) as Hv.
  pose proof (latch_other (Load 16 DMAOR) (env w) PORTR ltac:(set_solver) ltac:(done)) as H1.
  pose proof (latch_other (Load 16 DMAOR) (env w) DMAOR ltac:(set_solver) ltac:(done)) as H2.
  destruct (answer _ _) as [a e]. cbn in Hv, H1, H2. intros [= <- <-]. unfold at_. cbn [env trace].
  rewrite H1, H2. subst. split; [by apply u16_small, dmaor_range|done].
Qed.

Lemma tell_store bits a v p d l : is_u bits v → (a = PORTR → bits = 8) → (a = DMAOR → bits = 16) →
  triple (at_ p d l) (tell (Store bits a v))
  (λ _, at_ (if a =? PORTR then v else p) (if a =? DMAOR then v else d) (Store bits a v :: l)).
Proof.
  intros Hv Hb8 Hb16 w u w' (Hp & Hd & Hl). unfold tell, ask. rewrite st_bind_eq.
  pose proof (latch_store bits a v (env w) PORTR ltac:(set_solver) Hv Hb8 Hb16) as H1.
  pose proof (latch_store bits a v (env w) DMAOR ltac:(set_solver) Hv Hb8 Hb16) as H2.
  destruct (answer _ _) as [r e]. cbn in H1, H2. intros [= _ <-]. unfold at_. cbn [env trace].
  rewrite H1, H2, Hp, Hd. split_and!; [done..|]. unfold stores. cbn. by f_equal.
Qed.

(** A request that is neither. *)
Lemma ask_other r p d l : (∀ bits a v, r ≠ Store bits a v) →
  triple (at_ p d l) (ask r) (λ _, at_ p d l).
Proof.
  intros Hr w v w' (Hp & Hd & Hl). unfold ask.
  pose proof (latch_other r (env w) PORTR ltac:(set_solver) Hr) as H1.
  pose proof (latch_other r (env w) DMAOR ltac:(set_solver) Hr) as H2.
  destruct (answer _ _) as [a e]. cbn in H1, H2. intros [= _ <-]. unfold at_. cbn [env trace].
  rewrite H1, H2. split_and!; [done..|]. rewrite <- Hl. unfold stores. cbn.
  destruct r; try done. by destruct (Hr bits a0 v0).
Qed.

Lemma tell_other r p d l : (∀ bits a v, r ≠ Store bits a v) →
  triple (at_ p d l) (tell r) (λ _, at_ p d l).
Proof.
  intros Hr. eapply triple_bind; [by apply ask_other|]. intros v. by apply triple_ret.
Qed.

Lemma wait_dma_same n p d l : triple (at_ p d l) (wait_dma n) (λ _, at_ p d l).
Proof.
  induction n as [|n IH]; cbn [wait_dma]; [by apply triple_ret|].
  apply (triple_bind _ _ _ (λ _, at_ p d l)).
  - eapply triple_bind; [by apply ask_other|]. intros v. by apply triple_ret.
  - intros v. case_match; [done|by apply triple_ret].
Qed.

(** ** The same picture *)

Lemma clear_bits w m x : 0 <= w → is_u w x → Z.land x (Z.lnot m) = Z.land x (Z.land (Z.ones w) (Z.lnot m)).
Proof. intros Hw Hx. by rewrite Z.land_assoc, Z.land_ones, Z.mod_small. Qed.
Lemma set_bits w m x : 0 <= w → is_u w x → is_u w m →
  Z.lor (Z.land x (Z.land (Z.ones w) (Z.lnot m))) m = Z.lor x m.
Proof.
  intros Hw Hx Hm. apply Z.bits_inj'. intros i Hi.
  rewrite !Z.lor_spec, !Z.land_spec, Z.lnot_spec, Z.testbit_ones_nonneg by lia.
  destruct (Z.testbit m i) eqn:Em; [by rewrite !orb_true_r|]. rewrite !orb_false_r. cbn.
  destruct (Z.ltb_spec i w); [by rewrite !andb_true_r|].
  rewrite (is_u_above w x) by done. done.
Qed.

Lemma port_values p : is_u 8 p →
  u8 (Z.land p (Z.lnot 0x10)) = Z.land p 0xef ∧ u8 (Z.land p 0xef) = Z.land p 0xef ∧
  u8 (Z.lor p 0x10) = Z.lor p 0x10 ∧ u8 (Z.lor (Z.land p 0xef) 0x10) = Z.lor p 0x10.
Proof.
  intros Hp. assert (is_u 8 (Z.land p 0xef)) by (by apply land_range).
  rewrite (clear_bits 8) by done. change (Z.land (Z.ones 8) (Z.lnot 0x10)) with 0xef.
  pose proof (set_bits 8 0x10 p ltac:(lia) Hp ltac:(compute_dec)) as Hs.
  change (Z.land (Z.ones 8) (Z.lnot 0x10)) with 0xef in Hs. rewrite Hs, !u8_small; [done|..]; try done.
  apply lor_range; [lia|done|compute_dec].
Qed.

Lemma dmaor_values d : is_u 16 d →
  u16 (Z.land d (Z.lnot 1)) = Z.land d 0xfffe ∧ u16 (Z.land d 0xfffe) = Z.land d 0xfffe ∧
  u16 (Z.lor d 1) = Z.lor d 1 ∧ u16 (Z.lor (Z.land d 0xfffe) 1) = Z.lor d 1.
Proof.
  intros Hd. assert (is_u 16 (Z.land d 0xfffe)) by (by apply land_range).
  rewrite (clear_bits 16) by done. change (Z.land (Z.ones 16) (Z.lnot 1)) with 0xfffe.
  pose proof (set_bits 16 1 d ltac:(lia) Hd ltac:(compute_dec)) as Hs.
  change (Z.land (Z.ones 16) (Z.lnot 1)) with 0xfffe in Hs. rewrite Hs, !u16_small; [done|..]; try done.
  apply lor_range; [lia|done|compute_dec].
Qed.

(** Running the first request of a sequence. *)
Lemma first_then {A B} P P' (m : K A) (f : A → K B) Q :
  triple P m (λ _, P') → (∀ a, triple P' (f a) Q) → triple P (m ≫= f) Q.
Proof. intros Hm Hf. by apply (triple_bind _ _ _ (λ _, P')). Qed.
Lemma nested_then {A B C} P (m : K A) (f : A → K B) (g : B → K C) Q :
  triple P (m ≫= λ a, f a ≫= g) Q → triple P ((m ≫= f) ≫= g) Q.
Proof.
  intros Hm w a w' Hw E1. apply (Hm w a w' Hw). revert E1. unfold mbind, st_mbind.
  by destruct (m w).
Qed.
Lemma store_port_then {A} v p d l (f : unit → K A) Q :
  triple (at_ (u8 v) d (Store 8 PORTR (u8 v) :: l)) (f tt) Q →
  triple (at_ p d l) (tell (Store 8 PORTR (u8 v)) ≫= f) Q.
Proof. intros Hf. eapply first_then; [apply tell_store; [apply u8_range|done..]|]. by intros []. Qed.
Lemma store_dmaor_then {A} v p d l (f : unit → K A) Q :
  triple (at_ p (u16 v) (Store 16 DMAOR (u16 v) :: l)) (f tt) Q →
  triple (at_ p d l) (tell (Store 16 DMAOR (u16 v)) ≫= f) Q.
Proof. intros Hf. eapply first_then; [apply tell_store; [apply u16_range|done..]|]. by intros []. Qed.
Lemma store_then {A} bits a v p d l (f : unit → K A) Q : a ≠ PORTR → a ≠ DMAOR → is_u bits v →
  triple (at_ p d (Store bits a v :: l)) (f tt) Q →
  triple (at_ p d l) (tell (Store bits a v) ≫= f) Q.
Proof.
  intros H1 H2 Hv Hf. eapply first_then; [by apply tell_store|]. intros [].
  by rewrite (proj2 (Z.eqb_neq a PORTR)), (proj2 (Z.eqb_neq a DMAOR)).
Qed.
Lemma port_then {A} p d l (f : Z → K A) Q :
  triple (at_ p d l) (f p) Q → triple (at_ p d l) (load8 PORTR ≫= f) Q.
Proof.
  intros Hf. eapply triple_bind; [apply load8_port|]. intros v. apply triple_pre.
  intros w [-> Hw]. eapply triple_conseq; [exact Hf| |done]. by intros ? <-.
Qed.
Lemma dmaor_then {A} p d l (f : Z → K A) Q :
  triple (at_ p d l) (f d) Q → triple (at_ p d l) (load16 DMAOR ≫= f) Q.
Proof.
  intros Hf. eapply triple_bind; [apply load16_dmaor|]. intros v. apply triple_pre.
  intros w [-> Hw]. eapply triple_conseq; [exact Hf| |done]. by intros ? <-.
Qed.

End Agreement.

(** Running everything that is known. *)
Ltac drive :=
  repeat first
    [ match goal with |- triple _ ((_ ≫= _) ≫= _) _ => apply nested_then end
    | apply port_then | apply dmaor_then | apply store_port_then | apply store_dmaor_then | apply store_then; [done|done|first [apply u16_range|apply u32_range]|] ].

Section Pictures.
Context {E : Type} `{Latches E}.

(** The display was given a picture, after the stores [l]. *)
Definition pictured (p d : Z) (l : list request) (w : world request E) : Prop :=
  at_ (Z.lor p 0x10) (Z.lor d 1) (picture p d ++ l) w.

Lemma refresh_pictured p d l : is_u 8 p → is_u 16 d →
  triple (at_ p d l) refresh (λ _, pictured p d l).
Proof.
  intros Hp Hd. unfold refresh, lcd_command, store8, store16, store32. drive.
  destruct (port_values p Hp) as (_ & -> & _ & ->), (dmaor_values d Hd) as (_ & -> & _ & ->).
  apply wait_dma_same.
Qed.

Lemma exwordfb_refresh_pictured p d l : is_u 8 p → is_u 16 d →
  triple (at_ p d l) exwordfb_refresh (λ _, pictured p d l).
Proof.
  intros Hp Hd. unfold exwordfb_refresh, store8, store16, store32.
  eapply first_then; [by apply tell_other|]. intros _. drive.
  destruct (port_values p Hp) as (-> & _ & -> & _), (dmaor_values d Hd) as (-> & _ & -> & _).
  eapply first_then; [apply wait_dma_same|]. intros _. by apply tell_other.
Qed.
End Pictures.
