(* ===== verification/Boot.v ===== *)
(** * The decompressor of the kernel ([src/kernel/overlay/arch/sh/boot/compressed/misc.c])

    What the file adds around the decompressors of the kernel, which are the
    request [Decompress]: the marker on the display, the size of the kernel from
    the last bytes of the archive, and the invalidation of the instruction cache
    for what was written.  The symbols of the linker and the segments of the
    address space are the class [AddressSpace].  [puts] prints nothing. *)

From S2P Require Import Prelude Traced Lcd.
From S2P Require Libc.

Definition CACHE_ENABLE : Z := 0.
Definition CACHE_DISABLE : Z := 1.

(** [physical]: where the kernel goes, [__pa(&_text + PAGE_SIZE)]. *)
Class AddressSpace := {
  P1SEGADDR : Z → Z;
  P2SEG : Z;
  physical : Z;
  input_len : Z;
}.

(** ** Memory *)

(** [for (i = 0; i < n; i++) ss[i] = c] *)
Fixpoint memset_from (n : nat) (s : list Z) (i : nat) (c : Z) : option (list Z) :=
  match n with O => Some s | S n => s ← Libc.put s i (u8 c); memset_from n s (S i) c end.
Definition memset (s : list Z) (c : Z) (n : nat) : option (list Z) := memset_from n s 0 c.

Fixpoint memcpy_from (n : nat) (d s : list Z) (i : nat) : option (list Z) :=
  match n with
  | O => Some d
  | S n => b ← s !! i; d ← Libc.put d i b; memcpy_from n d s (S i)
  end.
Definition memcpy (dest src : list Z) (n : nat) : option (list Z) := memcpy_from n dest src 0.

Lemma memset_from_ok n s i c : (i + n <= length s)%nat →
  memset_from n s i c = Some (splice i (replicate n (u8 c)) s).
Proof.
  revert s i. induction n as [|n IH]; intros s i Hn; cbn [memset_from replicate].
  { by rewrite splice_nil. }
  rewrite Libc.put_splice by lia. cbn [mbind option_bind].
  rewrite IH by (rewrite splice_length; cbn; lia).
  change (u8 c :: replicate n (u8 c)) with ([u8 c] ++ replicate n (u8 c)).
  rewrite <- splice_splice by (rewrite length_replicate; cbn; lia). by rewrite Nat.add_1_r.
Qed.

Lemma memset_fills s c n : (n <= length s)%nat → memset s c n = Some (splice 0 (replicate n (u8 c)) s).
Proof. apply (memset_from_ok n s 0). Qed.

Lemma memcpy_from_ok n d s i : (i + n <= length d)%nat → (i + n <= length s)%nat →
  memcpy_from n d s i = Some (splice i (slice i n s) d).
Proof.
  revert d i. induction n as [|n IH]; intros d i Hd Hs; cbn [memcpy_from].
  { unfold slice. by rewrite take_0, splice_nil. }
  destruct (lookup_lt_is_Some_2 s i ltac:(lia)) as [b Hb]. rewrite Hb. cbn [mbind option_bind].
  rewrite Libc.put_splice by lia. cbn [mbind option_bind].
  rewrite IH by (rewrite ?splice_length; cbn; lia).
  assert (slice i (S n) s = [b] ++ slice (S i) n s) as ->.
  { unfold slice. by rewrite (drop_S _ _ _ Hb). }
  rewrite <- splice_splice by (rewrite slice_length; cbn; lia). by rewrite Nat.add_1_r.
Qed.

Lemma memcpy_copies d s n : (n <= length d)%nat → (n <= length s)%nat →
  memcpy d s n = Some (splice 0 (slice 0 n s) d).
Proof. apply (memcpy_from_ok n d s 0). Qed.

Section Boot.
Context {E : Type} `{Answers request E} `{AddressSpace}.
Abbreviation K := (st (world request E)).

(** ** The marker *)

Fixpoint fill_marker (n : nat) (i color : Z) : K unit :=
  match n with O => mret tt | S n => pixel i color;; fill_marker n (i + 1) color end.

Definition exword_marker (color : Z) : K unit :=
  fill_marker (Z.to_nat (528 * 12)) 0 color;;
  p ← load8 PORTR; store8 PORTR (Z.land p 0xef);;
  store16 LCDC 0x2c;;
  p ← load8 PORTR; store8 PORTR (Z.lor p 0x10);;
  store32 TCR3 (Z.shiftr (528 * 320) 4);;
  store32 SAR3 0x0c200000;;
  store32 DAR3 0x14000000;;
  d ← load16 DMAOR; store16 DMAOR (Z.land d 0xfffe);;
  store32 CHCR3 0x40101401;;
  d ← load16 DMAOR; store16 DMAOR (Z.lor d 1);;
  wait_dma TIMEOUT.

(** It ends in [while(1)]. *)
Definition error : K unit := exword_marker 0xf800.

(** ** The cache *)

(** [while (address < end)] *)
Fixpoint invalidate (fuel : nat) (address end_ : Z) : K unit :=
  match fuel with
  | O => mret tt
  | S fuel =>
      if address <? end_ then tell (Icbi address);; invalidate fuel (u32 (address + 32)) end_
      else mret tt
  end.

Definition line_of (a : Z) : Z := Z.land a (u32 (Z.lnot 31)).

Definition sync_decompressed_kernel_icache (p2_start size : Z) : K unit :=
  let address := line_of (P1SEGADDR p2_start) in
  let end_ := line_of (u32 (P1SEGADDR p2_start + size + 31)) in
  invalidate (Z.to_nat (size / 32 + 3)) address end_.

Definition gzip_byte (i : Z) : K Z := v ← ask (InputByte (input_len - 4 + i)); mret (u8 v).

Definition gzip_uncompressed_size : K Z :=
  t0 ← gzip_byte 0; t1 ← gzip_byte 1; t2 ← gzip_byte 2; t3 ← gzip_byte 3;
  mret (Z.lor (Z.lor (Z.lor t0 (Z.shiftl t1 8)) (Z.shiftl t2 16)) (Z.shiftl t3 24)).

(** Does it return?  A negative answer of [Decompress]: it called [error]. *)
Definition decompress_kernel : K bool :=
  let output_addr := Z.lor physical P2SEG in
  exword_marker 0x07ff;;
  tell (CacheControl CACHE_ENABLE);;
  r ← ask (Decompress output_addr);
  if r <? 0 then error;; mret false
  else
    tell (CacheControl CACHE_DISABLE);;
    exword_marker 0xffe0;;
    size ← gzip_uncompressed_size;
    sync_decompressed_kernel_icache output_addr size;;
    exword_marker 0x07e0;;
    mret true.
End Boot.

(** ** The three programs drive the display alike *)

(** The pixels of the marker, the last first. *)
Fixpoint marker_stores (n : nat) (i color : Z) : list request :=
  match n with
  | O => []
  | S n => marker_stores n (i + 1) color ++ [Store 16 (VRAM + 2 * i) (u16 color)]
  end.

Section Agreement.
Context {E : Type} `{Latches E}.

Lemma fill_marker_stores n i color p d l : 0 <= i → i + Z.of_nat n <= 528 * 320 →
  triple (at_ p d l) (fill_marker n i color) (λ _, at_ (E := E) p d (marker_stores n i color ++ l)).
Proof.
  revert i l. induction n as [|n IH]; intros i l Hi Hn; cbn [fill_marker marker_stores];
    [by apply triple_ret|].
  unfold pixel, store16. apply store_then; [unfold VRAM, PORTR, DMAOR; lia..|apply u16_range|].
  rewrite <- app_assoc. apply IH; lia.
Qed.

Lemma marker_pictured color p d l : is_u 8 p → is_u 16 d →
  triple (at_ p d l) (exword_marker color)
    (λ _, pictured (E := E) p d (marker_stores (Z.to_nat (528 * 12)) 0 color ++ l)).
Proof.
  intros Hp Hd. unfold exword_marker. eapply first_then; [by apply fill_marker_stores|]. intros _.
  unfold store8, store16, store32. drive.
  destruct (port_values p Hp) as (_ & -> & _ & ->), (dmaor_values d Hd) as (_ & -> & _ & ->).
  apply wait_dma_same.
Qed.

(** C32: The refresh of the frame buffer driver, the one of the test program and
    the marker of the decompressor make the display show its memory by the same
    stores in the same order, whatever the registers they share hold, and leave
    every bit of those that is not theirs as it was; the marker draws its stripe
    before that and nothing else. *)
Theorem refresh_agrees (color : Z) (w : world request E) :
  let p := register (env w) PORTR in let d := register (env w) DMAOR in
  let l := stores (trace w) in
  pictured p d l (exwordfb_refresh w).2 ∧ pictured p d l (refresh w).2 ∧
  pictured p d (marker_stores (Z.to_nat (528 * 12)) 0 color ++ l) (exword_marker color w).2.
Proof.
  intros p d l. assert (at_ p d l w) as Hw by done.
  pose proof (port_range (env w)) as Hp. pose proof (dmaor_range (env w)) as Hd.
  split_and!; [destruct (exwordfb_refresh w) eqn:E1|destruct (refresh w) eqn:E1
              |destruct (exword_marker color w) eqn:E1].
  - exact (exwordfb_refresh_pictured p d l Hp Hd w _ _ Hw E1).
  - exact (refresh_pictured p d l Hp Hd w _ _ Hw E1).
  - exact (marker_pictured color p d l Hp Hd w _ _ Hw E1).
Qed.
End Agreement.

(** ** No stale instruction *)

(** [P1] is the cached half gigabyte behind 0x80000000. *)
Class SegmentOk `{AddressSpace} :=
  p1_range x : 2 ^ 31 <= P1SEGADDR x < 2 ^ 31 + 2 ^ 29.

(** [booted]: the decompressor has returned; the bytes of the archive read, by their
    index, and the lines of the cache invalidated since then, the last first. *)
Record cache := Cache { booted : bool; bytes : Z → option Z; lines : list Z }.

Definition observe (g : cache) (rv : request * Z) : cache :=
  match rv with
  | (Decompress _, v) => if v <? 0 then g else Cache true (λ _, None) []
  | (InputByte i, v) => Cache (booted g) (λ j, if j =? i then Some (u8 v) else bytes g j) (lines g)
  | (Icbi a, _) => Cache (booted g) (bytes g) (a :: lines g)
  | _ => g
  end.
Definition fresh : cache := Cache false (λ _, None) [].

(** The size of the kernel, in the last four bytes of the archive, the lowest first;
    [None] when one of them was not read. *)
Definition kernel_size `{AddressSpace} (g : cache) : option Z :=
  b0 ← bytes g (input_len - 4); b1 ← bytes g (input_len - 3);
  b2 ← bytes g (input_len - 2); b3 ← bytes g (input_len - 1);
  Some (b0 + 2 ^ 8 * b1 + 2 ^ 16 * b2 + 2 ^ 24 * b3).

Lemma line_of_spec a : is_u 32 a → line_of a = a / 32 * 32.
Proof.
  intros Ha. unfold line_of. change (u32 (Z.lnot 31)) with (Z.land (Z.ones 32) (Z.lnot 31)).
  rewrite <- clear_bits by done. change 31 with (Z.ones 5).
  by rewrite <- Z.ldiff_land, Z.ldiff_ones_r, Z.shiftl_mul_pow2, Z.shiftr_div_pow2 by lia.
Qed.

Section Coherence.
Context {E : Type} `{Answers request E} `{SegmentOk}.
Abbreviation hoare := (hoare observe fresh).

Lemma marker_same g color : same observe fresh g (exword_marker (E := E) color).
Proof.
  assert (∀ n, same observe fresh g (wait_dma (E := E) n)) as Hw.
  { induction n as [|n IH]; cbn [wait_dma]; unfold load32; same. }
  assert (∀ n i, same observe fresh g (fill_marker (E := E) n i color)) as Hf.
  { induction n as [|n IH]; intros i; cbn [fill_marker]; unfold pixel, store16, tell; same. }
  unfold exword_marker, store8, store16, store32, load8, load16, tell. generalize TIMEOUT. intros n.
  same; auto.
Qed.

Lemma invalidate_spec fuel k a e g : (k < fuel)%nat → 0 <= a → e < 2 ^ 32 → e = a + 32 * Z.of_nat k →
  hoare (λ g', g' = g) (invalidate (E := E) fuel a e) (λ _ g', booted g' = booted g ∧
    bytes g' = bytes g ∧
    ∀ x, x ∈ lines g' ↔ x ∈ lines g ∨ ∃ i, (i < k)%nat ∧ x = a + 32 * Z.of_nat i).
Proof.
  revert k a g. induction fuel as [|fuel IH]; intros k a g Hk Ha He Hak; [lia|]. cbn [invalidate].
  destruct (Z.ltb_spec a e) as [Hlt|Hge].
  - destruct k as [|k]; [lia|].
    apply (hoare_bind _ _ _ (λ _ g', g' = Cache (booted g) (bytes g) (a :: lines g))).
    { apply hoare_tell. by intros ? v ->. }
    intros _. rewrite u32_small by (unfold is_u; lia).
    eapply hoare_conseq; [apply (IH k (a + 32) (Cache (booted g) (bytes g) (a :: lines g))); lia|done|].
    cbn. intros _ g' (Hb & Ht & Hl).
    split_and!; [done..|]. intros x. rewrite Hl, elem_of_cons. split.
    + intros [[->|Hx]|(i & Hi & ->)]; [right; exists O; split; [lia|lia]|by left|].
      right. exists (S i). split; lia.
    + intros [Hx|(i & Hi & ->)]; [by left; right|]. destruct i as [|i]; [left; left; lia|].
      right. exists i. split; lia.
  - assert (k = O) as -> by lia. apply hoare_ret. intros ? ->. split_and!; [done..|].
    intros x. split; [by left|]. intros [Hx|(i & Hi & _)]; [done|lia].
Qed.

Lemma sync_spec p2 size g : 0 <= size <= 2 ^ 30 → lines g = [] →
  hoare (λ g', g' = g) (sync_decompressed_kernel_icache (E := E) p2 size) (λ _ g',
    booted g' = booted g ∧ bytes g' = bytes g ∧
    ∀ a, P1SEGADDR p2 <= a < P1SEGADDR p2 + size → a / 32 * 32 ∈ lines g').
Proof.
  intros Hs Hl. unfold sync_decompressed_kernel_icache. cbv zeta.
  pose proof (p1_range p2) as Hp. set (A := P1SEGADDR p2) in *.
  rewrite u32_small by (unfold is_u; lia). rewrite !line_of_spec by (unfold is_u; lia).
  eapply hoare_conseq;
    [apply (invalidate_spec _ (Z.to_nat ((A + size + 31) / 32 - A / 32)) _ _ g);
     Z.div_mod_to_equations; lia|done|].
  cbn. intros _ g' (Hb & Ht & Hx). split_and!; [done..|]. intros a Ha. apply Hx. right.
  exists (Z.to_nat (a / 32 - A / 32)). Z.div_mod_to_equations; lia.
Qed.

Lemma size_of_bytes t0 t1 t2 t3 : is_u 8 t0 → is_u 8 t1 → is_u 8 t2 → is_u 8 t3 →
  Z.lor (Z.lor (Z.lor t0 (Z.shiftl t1 8)) (Z.shiftl t2 16)) (Z.shiftl t3 24)
  = t0 + 2 ^ 8 * t1 + 2 ^ 16 * t2 + 2 ^ 24 * t3.
Proof.
  unfold is_u. intros. rewrite !Z.shiftl_mul_pow2 by lia.
  rewrite (lor_fields t0 t1 8), (lor_fields _ t2 16), (lor_fields _ t3 24) by lia. lia.
Qed.

(** A byte of the archive is read, and is kept while the others are. *)
Definition reading (l : list (Z * Z)) (g : cache) : Prop :=
  booted g = true ∧ lines g = [] ∧ ∀ i v, (i, v) ∈ l → bytes g (input_len - 4 + i) = Some v.

Lemma gzip_byte_spec l i : i ∉ l.*1 →
  hoare (reading l) (gzip_byte (E := E) i) (λ v g, is_u 8 v ∧ reading (l ++ [(i, v)]) g).
Proof.
  intros Hi. unfold gzip_byte. apply (hoare_bind _ _ _ (λ v, reading (l ++ [(i, u8 v)]))).
  - apply hoare_ask. intros g v (Hb & Hl & Hr). split; [done|]. split; [done|]. cbn.
    intros j x [Hj|Hj]%elem_of_app.
    + rewrite (proj2 (Z.eqb_neq _ _)); [by apply Hr|]. intros Heq. assert (j = i) as -> by lia.
      apply Hi. by apply (list_elem_of_fmap_2 fst _ (i, x)).
    + apply list_elem_of_singleton in Hj as [= -> ->]. by rewrite Z.eqb_refl.
  - intros v. apply hoare_ret. intros g Hg. split; [apply u8_range|done].
Qed.

Lemma gzip_spec :
  hoare (reading []) (gzip_uncompressed_size (E := E)) (λ size g,
    kernel_size g = Some size ∧ 0 <= size ∧ lines g = [] ∧ booted g = true).
Proof.
  assert (∀ A l i (f : Z → st (world request E) A) Q, i ∉ l.*1 →
    (∀ v, is_u 8 v → hoare (reading (l ++ [(i, v)])) (f v) Q) →
    hoare (reading l) (gzip_byte i ≫= f) Q) as Hbyte.
  { intros A l i f Q Hi Hf. eapply hoare_bind; [by apply gzip_byte_spec|]. intros v. cbv beta.
    apply hoare_pre. intros g [Hv Hg]. eapply hoare_conseq; [by apply Hf|by intros ? ->|done]. }
  unfold gzip_uncompressed_size.
  apply Hbyte; [apply (bool_decide_unpack _); vm_compute; exact I|intros t0 ?].
  apply Hbyte; [apply (bool_decide_unpack _); vm_compute; exact I|intros t1 ?].
  apply Hbyte; [apply (bool_decide_unpack _); vm_compute; exact I|intros t2 ?].
  apply Hbyte; [apply (bool_decide_unpack _); vm_compute; exact I|intros t3 ?].
  apply hoare_ret. intros g (Hb & Hl & Hr). rewrite size_of_bytes by done.
  split; [|split; [unfold is_u in *; lia|done]]. unfold kernel_size.
  replace (input_len - 4) with (input_len - 4 + 0) by lia.
  replace (input_len - 3) with (input_len - 4 + 1) by lia.
  replace (input_len - 2) with (input_len - 4 + 2) by lia.
  replace (input_len - 1) with (input_len - 4 + 3) by lia. cbn [app] in Hr.
  by rewrite (Hr 0 t0), (Hr 1 t1), (Hr 2 t2), (Hr 3 t3) by set_solver.
Qed.

Lemma sync_keeps p2 size b t :
  hoare (λ g, booted g = b ∧ bytes g = t) (sync_decompressed_kernel_icache (E := E) p2 size)
    (λ _ g, booted g = b ∧ bytes g = t).
Proof.
  unfold sync_decompressed_kernel_icache. cbv zeta. generalize (Z.to_nat (size / 32 + 3)).
  generalize (line_of (P1SEGADDR p2)), (line_of (u32 (P1SEGADDR p2 + size + 31))).
  intros a e n. revert a. induction n as [|n IH]; intros a; cbn [invalidate]; [by apply hoare_ret|].
  case_match; [|by apply hoare_ret].
  apply (hoare_bind _ _ _ (λ _ g, booted g = b ∧ bytes g = t)); [by apply hoare_tell|].
  intros _. apply IH.
Qed.

(** What has to be invalidated was. *)
Definition covered (out : Z) (g : cache) : Prop :=
  ∃ size, kernel_size g = Some size ∧
    (size <= 2 ^ 30 → ∀ a, P1SEGADDR out <= a < P1SEGADDR out + size → a / 32 * 32 ∈ lines g).

Lemma size_lasts g g' : bytes g' = bytes g → kernel_size g' = kernel_size g.
Proof. intros Hb. unfold kernel_size. by rewrite Hb. Qed.

Lemma sync_covers out size :
  hoare (λ g, kernel_size g = Some size ∧ 0 <= size ∧ lines g = [] ∧ booted g = true)
    (sync_decompressed_kernel_icache (E := E) out size) (λ _ g, booted g = true ∧ covered out g).
Proof.
  apply hoare_pre. intros g (Hk & Hs & Hl & Hb). destruct (decide (size <= 2 ^ 30)) as [Hle|Hgt].
  - eapply hoare_conseq; [by apply (sync_spec out size g)|done|].
    intros _ g' (Hb' & Ht & Ha). split; [congruence|]. exists size.
    by rewrite (size_lasts g g' Ht).
  - eapply hoare_conseq; [apply (sync_keeps out size true (bytes g))|by intros ? ->|].
    intros _ g' [Hb' Ht]. split; [done|]. exists size. by rewrite (size_lasts g g' Ht).
Qed.

(** C25: A kernel that was decompressed is started without a stale instruction.
    The result is false exactly if the decompressor failed; otherwise the size in the
    last four bytes of the archive was read and, for a size of at most 2^30 bytes (the
    window of the cached segment is smaller), every address of the kernel lies in a
    line of the instruction cache that was invalidated after the decompressor
    returned. *)
Theorem icache_coherent (w : world request E) : trace w = [] →
  let '(boots, w') := decompress_kernel w in
  let g := seen observe fresh w' in
  boots = booted g ∧
  (boots = true → ∃ size, kernel_size g = Some size ∧
     (size <= 2 ^ 30 → ∀ a,
        P1SEGADDR (Z.lor physical P2SEG) <= a < P1SEGADDR (Z.lor physical P2SEG) + size →
        a / 32 * 32 ∈ lines g)).
Proof.
  intros Hw. destruct (decompress_kernel w) as [boots w'] eqn:Em. revert Em.
  set (out := Z.lor physical P2SEG).
  assert (hoare (λ g, g = fresh) decompress_kernel (λ boots g, boots = booted g ∧
    (boots = true → covered out g))) as Hh.
  { unfold decompress_kernel. fold out.
    apply hoare_same; [intros g ->; apply marker_same|]. intros _.
    apply hoare_same; [intros g ->; unfold tell; same|]. intros _.
    apply (hoare_bind _ _ _ (λ r g, g = observe fresh (Decompress out, r))).
    { apply hoare_ask. by intros g v ->. }
    intros r. cbn. destruct (Z.ltb_spec r 0).
    { apply hoare_same; [intros g ->; apply marker_same|]. intros _. apply hoare_ret. by intros g ->. }
    apply hoare_same; [intros g ->; unfold tell; same|]. intros _.
    apply hoare_same; [intros g ->; apply marker_same|]. intros _.
    apply (hoare_bind _ _ _ (λ size g, kernel_size g = Some size ∧ 0 <= size ∧ lines g = [] ∧ booted g = true)).
    { eapply hoare_conseq; [apply gzip_spec| |done]. intros g ->. split_and!; [done..|].
      by intros i v ?%elem_of_nil. }
    intros size. eapply hoare_step; [apply sync_covers|]. intros _.
    apply hoare_same; [intros g _; apply marker_same|]. intros _. apply hoare_ret.
    intros g [-> Hg]. by split. }
  intros Em. apply (Hh w boots w'); [|done]. unfold seen. by rewrite Hw.
Qed.
End Coherence.

(** ** A concrete machine *)

Module Machine.
Record machine := Machine { port : Z; dmaor : Z }.

#[global] Instance machine_answers : Answers request machine := λ r e,
  match r with
  | Load _ a =>
      (if a =? PORTR then u8 (port e) else if a =? DMAOR then u16 (dmaor e) else if a =? CHCR3 then 2 else 0, e)
  | Store _ a v => (0, if a =? PORTR then Machine v (dmaor e) else if a =? DMAOR then Machine (port e) v else e)
  | InputByte i => (if i =? 996 then 100 else 0, e)
  | _ => (0, e)
  end.

(** What the registers hold, whatever was put into the model of them. *)
#[global] Program Instance machine_latches : Latches machine :=
  {| register e a := if a =? PORTR then u8 (port e) else u16 (dmaor e) |}.
Next Obligation. intros e. apply u8_range. Qed.
Next Obligation. intros e. apply u16_range. Qed.
Next Obligation.
  intros bits a e Ha. unfold latched in Ha. set_unfold in Ha. destruct Ha as [->|[->|[]]]; done.
Qed.
Next Obligation.
  intros bits a v e b Hb Hv H8 H16. unfold latched in Hb. set_unfold in Hb. cbn.
  destruct (Z.eqb_spec a PORTR) as [->|Hp]; [|destruct (Z.eqb_spec a DMAOR) as [->|Hd]];
    destruct Hb as [->|[->|[]]]; cbn; try done.
  - apply u8_small. by rewrite <- H8.
  - apply u16_small. by rewrite <- H16.
  - by rewrite (proj2 (Z.eqb_neq a PORTR)).
  - by rewrite (proj2 (Z.eqb_neq a DMAOR)).
Qed.
Next Obligation.
  intros r e b Hb Hr. destruct r; try done. by destruct (Hr bits a v).
Qed.

#[global] Instance machine_space : AddressSpace :=
  {| P1SEGADDR x := x mod 2 ^ 29 + 2 ^ 31; P2SEG := 0xa0000000; physical := 0x0c011000; input_len := 1000 |}.
#[global] Instance machine_segments : SegmentOk.
Proof. intros x. cbn. pose proof (Z.mod_pos_bound x (2 ^ 29)). lia. Qed.

Definition powered : world request machine := World (Machine 0x5f 0x11) [].
End Machine.

Lemma refresh_agrees_witness :
  let p := register (env Machine.powered) PORTR in let d := register (env Machine.powered) DMAOR in
  let l := stores (trace Machine.powered) in
  (p = 0x5f ∧ d = 0x11 ∧ l = []) ∧
  pictured p d l (exwordfb_refresh Machine.powered).2 ∧ pictured p d l (refresh Machine.powered).2 ∧
  pictured p d (marker_stores (Z.to_nat (528 * 12)) 0 0x7ff ++ l) (exword_marker 0x7ff Machine.powered).2.
Proof. intros p d l. split; [done|]. exact (refresh_agrees 0x7ff Machine.powered). Defined.

Lemma icache_coherent_witness :
  let '(boots, w') := decompress_kernel Machine.powered in
  let g := seen observe fresh w' in
  boots = booted g ∧
  (boots = true → ∃ size, kernel_size g = Some size ∧
     (size <= 2 ^ 30 → ∀ a,
        P1SEGADDR (Z.lor physical P2SEG) <= a < P1SEGADDR (Z.lor physical P2SEG) + size →
        a / 32 * 32 ∈ lines g)).
Proof. apply (icache_coherent Machine.powered). reflexivity. Defined.

(** It starts, with the four lines of a kernel of a hundred bytes invalidated. *)
Example icache_lines :
  let '(boots, w') := decompress_kernel Machine.powered in
  boots = true ∧ kernel_size (seen observe fresh w') = Some 100 ∧ reverse (lines (seen observe fresh w')) = [0x8c011000; 0x8c011020; 0x8c011040; 0x8c011060].
Proof. vm_compute. done. Qed.
