(* ===== verification/Sdhi.v ===== *)
(** * SD host controller: registers and tuning
    ([src/kernel/overlay/drivers/mmc/host/renesas_sdhi_core.c])

    The operations of the driver on the registers of the controller and of its
    sampling clock unit (SCC), as requests ([Traced]): the width of the data
    buffer, the tuning of the sampling clock and its corrections, HS400 mode, the
    wait for an idle bus and the voltage switch.  The clock, the reset and the
    probe are in [SdhiProbe], the theorems on tuning in [SdhiFacts].

    The headers of the controller library [tmio] are not part of the source: its
    registers are names, the values of its constants are the class [Tmio].  What
    the kernel answers (rates, results of commands) is the answer of a request. *)

From S2P Require Import Prelude Traced.

(** ** Requests *)

(** The registers of the controller, by their names in [tmio]. *)
Inductive ctl : Type :=
| CTL_SD_CMD | CTL_STOP_INTERNAL_ACTION | CTL_XFER_BLK_COUNT | CTL_SD_XFER_LEN
| CTL_SD_MEM_CARD_OPT | CTL_TRANSACTION_CTL | CTL_DMA_ENABLE | CTL_HOST_MODE
| CTL_SD_CARD_CLK_CTL | CTL_STATUS | CTL_SDIF_MODE | CTL_RESET_SD | CTL_VERSION.

(** The two clocks: [priv->clk] and [priv->clkh]. *)
Inductive clock : Type := Clk | Clkh.
Inductive pins : Type := PinsDefault | PinsUhs.

(** [Readl] and [Writel] are at [scc_ctl + (addr << shift)].  The last line is of
    the probe: [call] names a function of the kernel. *)
Inductive call : Type :=
| GetResource | Alloc | GetClk | GetClkh | GetClkCd | GetReset | GetPinctrl | LookupDefault
| LookupUhs | HostAlloc | ParentClk | CanGpioRo | PmDomainStart | ClkPrepare | ClkUnprepare
| HostProbe | HostRemove | HostFree | IrqCount | GetIrq (i : Z) | RequestIrq (irq : Z).
Inductive request : Type :=
| Read16 (r : ctl) | Write16 (r : ctl) (v : Z) | Read32 (r : ctl) | Write32 (r : ctl) (v : Z)
| Readl (addr shift : Z) | Writel (addr shift v : Z)
| SendTuning (opcode : Z) | CmdError | AbortTuning (opcode : Z) | DoingTune | GetCd
| SetVqmmc | SelectState (p : pins) | Udelay (us : Z) | UsleepRange (min max : Z)
| RoundRate (c : clock) (rate : Z) | SetRate (c : clock) (rate : Z) | GetRate (c : clock)
| ResetControl | PollReset
| Call (c : call).

#[export] Instance ctl_eq_dec : EqDecision ctl.
Proof. solve_decision. Defined.
#[export] Instance clock_eq_dec : EqDecision clock.
Proof. solve_decision. Defined.
#[export] Instance pins_eq_dec : EqDecision pins.
Proof. solve_decision. Defined.
#[export] Instance call_eq_dec : EqDecision call.
Proof. solve_decision. Defined.
#[export] Instance request_eq_dec : EqDecision request.
Proof. solve_decision. Defined.

(** ** Constants *)

Class Tmio := {
  CLK_CTL_SCLKEN : Z; CLK_CTL_DIV_MASK : Z; SDIF_MODE_HS400 : Z;
  CARD_OPT_EXTOP : Z; CARD_OPT_TOP_MASK : Z; CARD_OPT_TOP_SHIFT : Z;
  TMIO_STAT_DAT0 : Z; TMIO_STAT_SCLKDIVEN : Z; TMIO_STAT_CMD_BUSY : Z;
  DMA_ENABLE_DMASDRW : Z; MMC_DATA_READ : Z; MMC_SEND_STATUS : Z;
}.

Definition EIO : Z := 5.
Definition ENXIO : Z := 6.
Definition ENOMEM : Z := 12.
Definition EBUSY : Z := 16.
Definition EINVAL : Z := 22.
Definition ETIMEDOUT : Z := 110.

Definition BIT (n : Z) : Z := Z.shiftl 1 n.

Definition HOST_MODE_GEN2_SDR50_WMODE : Z := BIT 0.
Definition HOST_MODE_GEN2_SDR104_WMODE : Z := BIT 0.
Definition HOST_MODE_GEN3_WMODE : Z := BIT 0.
Definition HOST_MODE_GEN3_BUSWIDTH : Z := BIT 8.
Definition HOST_MODE_GEN3_16BIT : Z := HOST_MODE_GEN3_WMODE.
Definition HOST_MODE_GEN3_32BIT : Z := Z.lor HOST_MODE_GEN3_WMODE HOST_MODE_GEN3_BUSWIDTH.
Definition HOST_MODE_GEN3_64BIT : Z := 0.

Definition SDHI_VER_GEN2_SDR50 : Z := 0x490c.
Definition SDHI_VER_GEN2_SDR104 : Z := 0xcb0d.
Definition SDHI_VER_GEN3_SD : Z := 0xcc10.
Definition SDHI_VER_GEN3_SDMMC : Z := 0xcd10.
Definition SDHI_GEN3_MMC0_ADDR : Z := 0xee140000.

Definition SCC_DTCNTL : Z := 0x000.
Definition SCC_TAPSET : Z := 0x002.
Definition SCC_DT2FF : Z := 0x004.
Definition SCC_CKSEL : Z := 0x006.
Definition SCC_RVSCNTL : Z := 0x008.
Definition SCC_RVSREQ : Z := 0x00a.
Definition SCC_SMPCMP : Z := 0x00c.
Definition SCC_TMPPORT2 : Z := 0x00e.
Definition SCC_TMPPORT3 : Z := 0x014.
Definition SCC_TMPPORT4 : Z := 0x016.
Definition SCC_TMPPORT5 : Z := 0x018.
Definition SCC_TMPPORT6 : Z := 0x01a.
Definition SCC_TMPPORT7 : Z := 0x01c.

Definition DTCNTL_TAPEN : Z := BIT 0.
Definition DTCNTL_TAPNUM_SHIFT : Z := 16.
Definition DTCNTL_TAPNUM_MASK : Z := 0xff.
Definition CKSEL_DTSEL : Z := BIT 0.
Definition RVSCNTL_RVSEN : Z := BIT 0.
Definition RVSREQ_REQTAPDOWN : Z := BIT 0.
Definition RVSREQ_REQTAPUP : Z := BIT 1.
Definition RVSREQ_RVSERR : Z := BIT 2.
Definition SMPCMP_CMD_REQDOWN : Z := BIT 8.
Definition SMPCMP_CMD_REQUP : Z := BIT 24.
Definition SMPCMP_CMD_ERR : Z := Z.lor (BIT 8) (BIT 24).
Definition TMPPORT2_HS400OSEL : Z := BIT 4.
Definition TMPPORT2_HS400EN : Z := BIT 31.
Definition TMPPORT4_DLL_ACC_START : Z := BIT 0.
Definition TMPPORT5_DLL_RW_SEL_R : Z := BIT 8.
Definition TMPPORT5_DLL_RW_SEL_W : Z := Z.shiftl 0 8.
Definition TMPPORT5_DLL_ADR_MASK : Z := 0x3f.
Definition TMPPORT_DISABLE_WP_CODE : Z := 0xa5000000.
Definition TMPPORT_CALIB_CODE_MASK : Z := 0x1f.
Definition TMPPORT_MANUAL_MODE : Z := BIT 7.
Definition SH_MOBILE_SDHI_MIN_TAP_ROW : Z := 3.

(** ** State *)

(** The timings the driver distinguishes, and the voltages. *)
Inductive timing : Type := UHS_SDR104 | MMC_HS200 | MMC_HS400 | OtherTiming.
Inductive voltage : Type := VOLTAGE_330 | VOLTAGE_180 | OtherVoltage.
#[export] Instance timing_eq_dec : EqDecision timing.
Proof. solve_decision. Defined.

Record quirks := Quirks {
  hs400_disabled : bool; hs400_4taps : bool; manual_tap_correction : bool;
  hs400_bad_taps : Z; hs400_calib_table : option (list Z * list Z);
}.

(** What the operations read of [struct tmio_mmc_host], its platform data and the
    core, and of [struct renesas_sdhi] after the probe.  [has_clkh], [has_rstc] and
    [has_scc]: the pointer is not null; [has_pinctrl] and [has_pins]: it is not an
    error.  [taps_bits]: the bits of [priv->taps]. *)
Record host := Host {
  bus_shift : Z; min_rcar2 : bool; have_cbsy : bool; clk_actual : bool;
  nonremovable : bool; has_get_cd : bool;
  has_clkh : bool; has_rstc : bool; has_scc : bool;
  has_pinctrl : bool; has_pins : pins → bool;
  priv_quirks : option quirks; scc_tappos : Z; scc_tappos_hs400 : Z;
  adjust_hs400_calib_table : option (list Z); taps_bits : nat;
}.

(** What they change of [struct renesas_sdhi]. *)
Record priv := Priv {
  tap_num : Z; tap_set : Z; taps : list bool; smpcmp : list bool; needs_adjust_hs400 : bool;
}.

Definition set_tap_num (v : Z) (p : priv) : priv :=
  Priv v (tap_set p) (taps p) (smpcmp p) (needs_adjust_hs400 p).
Definition set_tap_set (v : Z) (p : priv) : priv :=
  Priv (tap_num p) v (taps p) (smpcmp p) (needs_adjust_hs400 p).
Definition set_bitmaps (b : list bool * list bool) (p : priv) : priv :=
  Priv (tap_num p) (tap_set p) b.1 b.2 (needs_adjust_hs400 p).
Definition set_needs_adjust (v : bool) (p : priv) : priv :=
  Priv (tap_num p) (tap_set p) (taps p) (smpcmp p) v.

Definition quirk (f : quirks → bool) (h : host) : bool :=
  match priv_quirks h with Some q => f q | None => false end.
Definition bad_taps_of (h : host) : Z :=
  match priv_quirks h with Some q => hs400_bad_taps q | None => 0 end.

(** ** Bitmaps *)

(** [test_bit], [set_bit] and [clear_bit]; a bit that is not there is not set. *)
Definition test_bit (i : Z) (b : list bool) : bool := default false (b !! Z.to_nat i).
Definition set_bit (i : Z) (b : list bool) : list bool := <[Z.to_nat i := true]> b.
Definition clear_bit (i : Z) (b : list bool) : list bool := <[Z.to_nat i := false]> b.
Definition bitmap_zero (b : list bool) (n : Z) : list bool :=
  splice 0 (replicate (Z.to_nat n) false) b.
Definition bitmap_full (b : list bool) (n : Z) : bool := forallb id (take (Z.to_nat n) b).

(** The bits from [s] on and before [e] are set, and no larger range around. *)
Definition run (b : list bool) (s e : nat) : Prop :=
  (s < e <= length b)%nat ∧ ∀ i, (s <= i < e)%nat → b !! i = Some true.
Definition maximal_run (b : list bool) (s e : nat) : Prop :=
  run b s e ∧ b !! e ≠ Some true ∧ (0 < s → b !! (s - 1) ≠ Some true)%nat.

(** [for_each_set_bitrange] of the kernel goes through the maximal runs. *)
Class Bitranges := set_bitranges : list bool → list (nat * nat).
Class BitrangesOk `{Bitranges} :=
  set_bitranges_spec b s e : (s, e) ∈ set_bitranges b ↔ maximal_run b s e.

(** ** The driver *)

Section Driver.
Context {E : Type} `{Answers request E} `{Tmio} (h : host).
Abbreviation K := (st (world request E)).

Definition sd_ctrl_read16 (r : ctl) : K Z := v ← ask (Read16 r); mret (u16 v).
Definition sd_ctrl_write16 (r : ctl) (v : Z) : K unit := tell (Write16 r (u16 v)).
Definition sd_ctrl_read32 (r : ctl) : K Z := v ← ask (Read32 r); mret (u32 v).
Definition sd_scc_read32 (addr : Z) : K Z := v ← ask (Readl addr (bus_shift h)); mret (u32 v).
Definition sd_scc_write32 (addr v : Z) : K unit := tell (Writel addr (bus_shift h) (u32 v)).

(** [write32(r, f(read32(r)))] and the like. *)
Definition modify16 (r : ctl) (f : Z → Z) : K unit :=
  v ← sd_ctrl_read16 r; sd_ctrl_write16 r (f v).
Definition modify_scc (addr : Z) (f : Z → Z) : K unit :=
  v ← sd_scc_read32 addr; sd_scc_write32 addr (f v).
Definition stop_clock : K unit := modify16 CTL_SD_CARD_CLK_CTL (Z.land (Z.lnot CLK_CTL_SCLKEN)).
Definition start_clock : K unit := modify16 CTL_SD_CARD_CLK_CTL (Z.lor CLK_CTL_SCLKEN).

Definition renesas_sdhi_sdbuf_width (width : Z) : K unit :=
  version ← sd_ctrl_read16 CTL_VERSION;
  if version =? SDHI_VER_GEN2_SDR50 then
    sd_ctrl_write16 CTL_HOST_MODE (if width =? 32 then HOST_MODE_GEN2_SDR50_WMODE else 0)
  else if version =? SDHI_VER_GEN2_SDR104 then
    sd_ctrl_write16 CTL_HOST_MODE (if width =? 32 then 0 else HOST_MODE_GEN2_SDR104_WMODE)
  else if (version =? SDHI_VER_GEN3_SD) || (version =? SDHI_VER_GEN3_SDMMC) then
    sd_ctrl_write16 CTL_HOST_MODE
      (if width =? 64 then HOST_MODE_GEN3_64BIT
       else if width =? 32 then HOST_MODE_GEN3_32BIT else HOST_MODE_GEN3_16BIT)
  else mret tt.

Definition renesas_sdhi_card_busy : K bool :=
  status ← sd_ctrl_read32 CTL_STATUS; mret (Z.land status TMIO_STAT_DAT0 =? 0).

Definition select_voltage (signal : voltage) (pin_state : pins) : K Z :=
  if negb (has_pinctrl h) || negb (has_pins h pin_state) then
    mret (match signal with VOLTAGE_330 => 0 | _ => - EINVAL end)
  else
    ret ← ask SetVqmmc;
    if ret <? 0 then mret ret else ask (SelectState pin_state).
Definition renesas_sdhi_start_signal_voltage_switch (signal : voltage) : K Z :=
  match signal with
  | VOLTAGE_330 => select_voltage signal PinsDefault
  | VOLTAGE_180 => select_voltage signal PinsUhs
  | OtherVoltage => mret (- EINVAL)
  end.

(** *** The sampling clock unit *)

Definition renesas_sdhi_init_tuning : K Z :=
  tell (Write32 CTL_STATUS 0);;
  stop_clock;;
  sd_scc_write32 SCC_DTCNTL (Z.lor DTCNTL_TAPEN (Z.shiftl 8 DTCNTL_TAPNUM_SHIFT));;
  modify_scc SCC_CKSEL (Z.lor CKSEL_DTSEL);;
  modify_scc SCC_RVSCNTL (Z.land (Z.lnot RVSCNTL_RVSEN));;
  sd_scc_write32 SCC_DT2FF (scc_tappos h);;
  start_clock;;
  v ← sd_scc_read32 SCC_DTCNTL;
  mret (Z.land (Z.shiftr v DTCNTL_TAPNUM_SHIFT) DTCNTL_TAPNUM_MASK).

(** The tap that is set in HS400 mode, in place of a bad one. *)
Definition avoid_bad_tap (p : priv) : Z :=
  let bad_taps := bad_taps_of h in
  if Z.land bad_taps (BIT (tap_set p)) =? 0 then tap_set p
  else
    let up := u32 (tap_set p + 1) mod tap_num p in
    let new_tap :=
      if Z.land bad_taps (BIT up) =? 0 then up else u32 (tap_set p - 1) mod tap_num p in
    if Z.land bad_taps (BIT new_tap) =? 0 then new_tap else tap_set p.

Definition taps_per_position (use_4tap : bool) : Z := if use_4tap then 2 else 1.

Definition renesas_sdhi_hs400_complete (p : priv) : K priv :=
  stop_clock;;
  modify16 CTL_SDIF_MODE (Z.lor SDIF_MODE_HS400);;
  sd_scc_write32 SCC_DT2FF (scc_tappos_hs400 h);;
  (if quirk manual_tap_correction h
   then modify_scc SCC_RVSCNTL (Z.land (Z.lnot RVSCNTL_RVSEN)) else mret tt);;
  modify_scc SCC_TMPPORT2 (Z.lor (Z.lor TMPPORT2_HS400EN TMPPORT2_HS400OSEL));;
  modify_scc SCC_DTCNTL (Z.lor DTCNTL_TAPEN);;
  let p := set_tap_set (avoid_bad_tap p) p in
  sd_scc_write32 SCC_TAPSET (tap_set p / taps_per_position (quirk hs400_4taps h));;
  modify_scc SCC_CKSEL (Z.lor CKSEL_DTSEL);;
  start_clock;;
  mret (match adjust_hs400_calib_table h with Some _ => set_needs_adjust true p | None => p end).

Definition renesas_sdhi_disable_scc : K unit :=
  stop_clock;;
  modify_scc SCC_CKSEL (Z.land (Z.lnot CKSEL_DTSEL));;
  modify_scc SCC_DTCNTL (Z.land (Z.lnot DTCNTL_TAPEN));;
  start_clock.

Definition sd_scc_tmpport_read32 (addr : Z) : K Z :=
  sd_scc_write32 SCC_TMPPORT5 (Z.lor TMPPORT5_DLL_RW_SEL_R (Z.land TMPPORT5_DLL_ADR_MASK addr));;
  sd_scc_write32 SCC_TMPPORT4 TMPPORT4_DLL_ACC_START;;
  sd_scc_write32 SCC_TMPPORT4 0;;
  sd_scc_read32 SCC_TMPPORT7.

Definition sd_scc_tmpport_write32 (addr v : Z) : K unit :=
  sd_scc_write32 SCC_TMPPORT5 (Z.lor TMPPORT5_DLL_RW_SEL_W (Z.land TMPPORT5_DLL_ADR_MASK addr));;
  sd_scc_write32 SCC_TMPPORT6 v;;
  sd_scc_write32 SCC_TMPPORT4 TMPPORT4_DLL_ACC_START;;
  sd_scc_write32 SCC_TMPPORT4 0.

(** [table]: what [adjust_hs400_calib_table] points to, 32 entries or more. *)
Definition renesas_sdhi_adjust_hs400_mode_enable (table : list Z) (p : priv) : K priv :=
  sd_scc_tmpport_write32 0 TMPPORT_DISABLE_WP_CODE;;
  code ← sd_scc_tmpport_read32 0x26;
  let calib_code := Z.land code TMPPORT_CALIB_CODE_MASK in
  sd_scc_tmpport_write32 0x22
    (Z.lor TMPPORT_MANUAL_MODE (default 0 (table !! Z.to_nat calib_code)));;
  sd_scc_write32 SCC_TMPPORT3 3;;
  mret (set_needs_adjust false p).

Definition renesas_sdhi_adjust_hs400_mode_disable : K unit :=
  sd_scc_tmpport_write32 0 TMPPORT_DISABLE_WP_CODE;;
  sd_scc_tmpport_write32 0x22 0;;
  sd_scc_write32 SCC_TMPPORT3 0.

Definition renesas_sdhi_reset_hs400_mode : K unit :=
  stop_clock;;
  modify16 CTL_SDIF_MODE (Z.land (Z.lnot SDIF_MODE_HS400));;
  sd_scc_write32 SCC_DT2FF (scc_tappos h);;
  modify_scc SCC_TMPPORT2 (Z.land (Z.lnot (Z.lor TMPPORT2_HS400EN TMPPORT2_HS400OSEL)));;
  match adjust_hs400_calib_table h with
  | Some _ => renesas_sdhi_adjust_hs400_mode_disable | None => mret tt end;;
  start_clock.
Definition renesas_sdhi_prepare_hs400_tuning : K Z := renesas_sdhi_reset_hs400_mode;; mret 0.

Definition renesas_sdhi_scc_reset (p : priv) : K priv :=
  renesas_sdhi_disable_scc;;
  renesas_sdhi_reset_hs400_mode;;
  let p := set_needs_adjust false p in
  modify_scc SCC_RVSCNTL (Z.land (Z.lnot RVSCNTL_RVSEN));;
  mret p.

Definition renesas_sdhi_gen3_get_cycles : K Z :=
  v ← sd_ctrl_read16 CTL_SD_MEM_CARD_OPT;
  let num := u16 (Z.shiftr (Z.land v CARD_OPT_TOP_MASK) CARD_OPT_TOP_SHIFT) in
  mret (u32 (BIT ((if Z.land v CARD_OPT_EXTOP =? 0 then 13 else 14) + num))).

(** *** Tuning *)

(** The first loop of [renesas_sdhi_select_tuning]: from position [i] on. *)
Fixpoint merge (n : nat) (i tap_num : Z) (b : list bool * list bool) : list bool * list bool :=
  match n with
  | O => b
  | S n =>
      let j := u32 (i + tap_num * (if i <? tap_num then 1 else -1)) in
      let keep (l : list bool) := if test_bit i l then l else clear_bit j l in
      merge n (i + 1) tap_num (keep b.1, keep b.2)
  end.

(** [tap_start], [tap_end] of the second loop: the first of the longest ranges. *)
Definition longer (best range : nat * nat) : nat * nat :=
  if (best.2 - best.1 <? range.2 - range.1)%nat then range else best.

Context `{Bitranges}.

Definition longest (b : list bool) : nat * nat := foldl longer (0, 0)%nat (set_bitranges b).

(** The bitmap in which the range is searched, and the least length of it. *)
Definition tuning_bitmap (tap_num : Z) (b : list bool * list bool) : list bool * Z :=
  let taps_size := tap_num * 2 in
  if bitmap_full b.1 taps_size then (take (Z.to_nat taps_size) b.2, 1)
  else (take (Z.to_nat taps_size) b.1, SH_MOBILE_SDHI_MIN_TAP_ROW).

(** [None]: [-EIO]. *)
Definition select_tap (tap_num : Z) (b : list bool * list bool) : option Z :=
  let '(bitmap, min_tap_row) := tuning_bitmap tap_num b in
  let '(tap_start, tap_end) := longest bitmap in
  if Z.of_nat (tap_end - tap_start) >=? min_tap_row
  then Some (Z.of_nat (tap_start + tap_end) / 2 mod tap_num) else None.

Definition renesas_sdhi_select_tuning (p : priv) : K (Z * priv) :=
  sd_scc_write32 SCC_RVSREQ 0;;
  let p := set_bitmaps (merge (Z.to_nat (tap_num p * 2)) 0 (tap_num p) (taps p, smpcmp p)) p in
  match select_tap (tap_num p) (taps p, smpcmp p) with
  | None => mret (- EIO, p)
  | Some tap =>
      sd_scc_write32 SCC_TAPSET tap;;
      modify_scc SCC_RVSCNTL (Z.lor RVSCNTL_RVSEN);;
      mret (0, set_tap_set tap p)
  end.

(** One turn of the loop of [renesas_sdhi_execute_tuning], and [n] from [i] on. *)
Definition probe_tap (opcode i tap_num : Z) (b : list bool * list bool) :
    K (list bool * list bool) :=
  sd_scc_write32 SCC_TAPSET (i mod tap_num);;
  r ← ask (SendTuning opcode);
  cmd_error ← ask CmdError;
  let taps := if r =? 0 then set_bit i b.1 else b.1 in
  v ← sd_scc_read32 SCC_SMPCMP;
  let smpcmp := if v =? 0 then set_bit i b.2 else b.2 in
  (if cmd_error =? 0 then mret tt else tell (AbortTuning opcode));;
  mret (taps, smpcmp).
Fixpoint probe_taps (opcode : Z) (n : nat) (i tap_num : Z) (b : list bool * list bool) :
    K (list bool * list bool) :=
  match n with
  | O => mret b
  | S n => b ← probe_tap opcode i tap_num b; probe_taps opcode n (i + 1) tap_num b
  end.

Definition renesas_sdhi_execute_tuning (opcode : Z) (p : priv) : K (Z * priv) :=
  n ← renesas_sdhi_init_tuning;
  let p := set_tap_num n p in
  if n =? 0 then mret (0, p)
  else if n * 2 >=? Z.of_nat (taps_bits h) then mret (- EINVAL, p)
  else
    b ← probe_taps opcode (Z.to_nat (2 * n)) 0 n
          (bitmap_zero (taps p) (n * 2), bitmap_zero (smpcmp p) (n * 2));
    rp ← renesas_sdhi_select_tuning (set_bitmaps b p);
    if rp.1 <? 0 then p ← renesas_sdhi_scc_reset rp.2; mret (rp.1, p) else mret rp.

(** *** Corrections *)

(** The answer of [CMD] in HS400 mode: the tap to go to and the one in error, or
    what is returned. *)
Definition command_status (tap smpcmp : Z) : bool + Z * Z :=
  if smpcmp =? 0 then inl false
  else if smpcmp =? SMPCMP_CMD_REQUP then inr (u32 (tap + 1), u32 (tap - 1))
  else if smpcmp =? SMPCMP_CMD_REQDOWN then inr (u32 (tap - 1), u32 (tap + 1))
  else inl true.

Definition correction_request (tap v : Z) : bool + Z :=
  if negb (Z.land v RVSREQ_RVSERR =? 0) then inl true
  else if negb (Z.land v RVSREQ_REQTAPUP =? 0) then inr (u32 (tap + 1))
  else if negb (Z.land v RVSREQ_REQTAPDOWN =? 0) then inr (u32 (tap - 1))
  else inl false.

Definition move_tap (use_4tap : bool) (new_tap : Z) (p : priv) : K (bool * priv) :=
  let p := set_tap_set (new_tap mod tap_num p) p in
  sd_scc_write32 SCC_TAPSET (tap_set p / taps_per_position use_4tap);;
  mret (false, p).

Definition renesas_sdhi_manual_correction (t : timing) (use_4tap : bool) (p : priv) :
    K (bool * priv) :=
  v ← sd_scc_read32 SCC_RVSREQ;
  if v =? 0 then mret (false, p)
  else
    sd_scc_write32 SCC_RVSREQ 0;;
    if quirk manual_tap_correction h && bool_decide (t = MMC_HS400) then
      s ← sd_scc_read32 SCC_SMPCMP;
      match command_status (tap_set p) (Z.land s SMPCMP_CMD_ERR) with
      | inl retune => mret (retune, p)
      | inr (new_tap, error_tap) =>
          if negb (Z.land (bad_taps_of h) (BIT (new_tap mod tap_num p)) =? 0)
          then mret (test_bit (error_tap mod tap_num p) (smpcmp p), p)
          else move_tap use_4tap new_tap p
      end
    else
      match correction_request (tap_set p) v with
      | inl retune => mret (retune, p)
      | inr new_tap => move_tap use_4tap new_tap p
      end.

Definition renesas_sdhi_auto_correction : K bool :=
  v ← sd_scc_read32 SCC_RVSREQ;
  if negb (Z.land v RVSREQ_RVSERR =? 0) then sd_scc_write32 SCC_RVSREQ 0;; mret true
  else mret false.

(** [cmd_error], [data_error]: [mrq->cmd->error] and, where the request has data,
    [mrq->data->error]. *)
Definition renesas_sdhi_check_scc_error (t : timing) (cmd_error : Z) (data_error : option Z)
    (p : priv) : K (bool * priv) :=
  let use_4tap := quirk hs400_4taps h in
  let checked :=
    match t with
    | UHS_SDR104 | MMC_HS200 => true | MMC_HS400 => negb use_4tap | OtherTiming => false end in
  if negb checked then mret (false, p)
  else
    tune ← ask DoingTune;
    if negb (tune =? 0) then mret (false, p)
    else
      lost ←
        (if (cmd_error =? - ETIMEDOUT) || bool_decide (data_error = Some (- ETIMEDOUT)) then
           if nonremovable h then mret true
           else if has_get_cd h then cd ← ask GetCd; mret (negb (cd =? 0))
           else mret false
         else mret false);
      v ← sd_scc_read32 SCC_RVSCNTL;
      rp ← (if negb (Z.land v RVSCNTL_RVSEN =? 0)
            then retune ← renesas_sdhi_auto_correction; mret (retune, p)
            else renesas_sdhi_manual_correction t use_4tap p);
      mret (lost || rp.1, rp.2).

(** *** Waiting *)

(** [while (--timeout && (status & bit) == wait_state)], with [n] the value of
    [timeout] after it was counted down: is it above 0 at the end? *)
Fixpoint idle_within (n : nat) (bit wait_state : Z) : K bool :=
  match n with
  | O => mret false
  | S n =>
      status ← sd_ctrl_read32 CTL_STATUS;
      if Z.land status bit =? wait_state then tell (Udelay 1);; idle_within n bit wait_state
      else mret true
  end.
Definition renesas_sdhi_wait_idle (bit : Z) : K Z :=
  let wait_state := if bit =? TMIO_STAT_CMD_BUSY then TMIO_STAT_CMD_BUSY else 0 in
  idle ← idle_within 999 bit wait_state;
  mret (if idle : bool then 0 else - EBUSY).

Definition renesas_sdhi_write16_hook (r : ctl) : K Z :=
  match r with
  | CTL_SD_CMD | CTL_STOP_INTERNAL_ACTION | CTL_XFER_BLK_COUNT | CTL_SD_XFER_LEN
  | CTL_SD_MEM_CARD_OPT | CTL_TRANSACTION_CTL | CTL_DMA_ENABLE | CTL_HOST_MODE =>
      renesas_sdhi_wait_idle (if have_cbsy h then TMIO_STAT_CMD_BUSY else TMIO_STAT_SCLKDIVEN)
  | CTL_SD_CARD_CLK_CTL => renesas_sdhi_wait_idle TMIO_STAT_SCLKDIVEN
  | CTL_STATUS | CTL_SDIF_MODE | CTL_RESET_SD | CTL_VERSION => mret 0
  end.

Definition renesas_sdhi_multi_io_quirk (direction blk_size : Z) : Z :=
  if (direction =? MMC_DATA_READ) && (blk_size =? 2) then 1 else blk_size.

Definition renesas_sdhi_fixup_request (opcode : Z) (p : priv) : K priv :=
  if needs_adjust_hs400 p && (opcode =? MMC_SEND_STATUS) then
    match adjust_hs400_calib_table h with
    | Some table => renesas_sdhi_adjust_hs400_mode_enable table p
    | None => mret p
    end
  else mret p.

Definition renesas_sdhi_enable_dma (enable : bool) : K unit :=
  let width := if bus_shift h =? 2 then 64 else 32 in
  sd_ctrl_write16 CTL_DMA_ENABLE (if enable then DMA_ENABLE_DMASDRW else 0);;
  renesas_sdhi_sdbuf_width (if enable then width else 16).
End Driver.

Lemma byte_mask x : is_u 8 (Z.land x 0xff).
Proof. change 0xff with (Z.ones 8). rewrite Z.land_ones by lia. by apply Z.mod_pos_bound. Qed.

(** Values of the constants, and a controller, for examples. *)
Definition plain_tmio : Tmio := Build_Tmio 0x100 0xff 1 0x200 0xf0 4 0x800000 0x20000000 0x40000000 2 0x200 13.
Definition plain_host : host :=
  Host 0 true true true false false false false true false (λ _, false) None 0 0 None 32.
