(* ===== verification/SdhiFacts.v ===== *)
(** * SD host controller: tuning finds a good sampling position

    Theorems on the tuning of [Sdhi]: the merge of the two passes, the search for
    the longest range, and what the controller was seen to do in a whole run of
    [renesas_sdhi_execute_tuning]; and that the sampling clock unit is changed only
    while the clock of the card is stopped. *)

From S2P Require Import Prelude Traced Sdhi.

(** ** Bits *)

Lemma test_bit_lookup i b : 0 <= i → test_bit i b = true ↔ b !! Z.to_nat i = Some true.
Proof. intros Hi. unfold test_bit. destruct (b !! Z.to_nat i) as [[|]|]; naive_solver. Qed.

Lemma test_bit_clear i j b : 0 <= i → 0 <= j →
  test_bit j (clear_bit i b) = (negb (j =? i) && test_bit j b).
Proof.
  intros Hi Hj. unfold test_bit, clear_bit. destruct (Z.eqb_spec j i) as [->|Hij]; cbn.
  - destruct (decide (Z.to_nat i < length b)%nat) as [Hb|Hb].
    + by rewrite list_lookup_insert_eq.
    + by rewrite list_insert_ge, lookup_ge_None_2 by lia.
  - by rewrite list_lookup_insert_ne by lia.
Qed.

Lemma test_bit_set i j b : 0 <= i < zlen b → 0 <= j →
  test_bit j (set_bit i b) = ((j =? i) || test_bit j b).
Proof.
  intros Hi Hj. unfold test_bit, set_bit, zlen in *. destruct (Z.eqb_spec j i) as [->|Hij]; cbn.
  - by rewrite list_lookup_insert_eq by lia.
  - by rewrite list_lookup_insert_ne by lia.
Qed.

Lemma test_bit_zero n j b : 0 <= j < n → n <= zlen b → test_bit j (bitmap_zero b n) = false.
Proof.
  unfold test_bit, bitmap_zero, zlen. intros Hj Hn.
  by rewrite lookup_splice, length_replicate, decide_False, decide_True, Nat.sub_0_r,
    lookup_replicate_2 by lia.
Qed.

Lemma bitmap_full_bits b n : 0 <= n <= zlen b →
  bitmap_full b n = true ↔ ∀ j, 0 <= j < n → test_bit j b = true.
Proof.
  unfold bitmap_full, zlen. intros Hn. rewrite forallb_forall. split.
  - intros Hb j Hj. apply test_bit_lookup; [lia|].
    destruct (lookup_lt_is_Some_2 b (Z.to_nat j)) as [x Hx]; [lia|]. rewrite Hx. f_equal.
    apply Hb, list_elem_of_In, list_elem_of_lookup. exists (Z.to_nat j). by rewrite lookup_take_lt by lia.
  - intros Hb x (i & [Hx Hi]%lookup_take_Some)%list_elem_of_In%list_elem_of_lookup.
    specialize (Hb (Z.of_nat i) ltac:(lia)). apply test_bit_lookup in Hb; [|lia].
    rewrite Nat2Z.id in Hb. unfold id. congruence.
Qed.

(** ** The merge of the two passes *)

(** The same tap in the other pass. *)
Definition partner (n i : Z) : Z := if i <? n then i + n else i - n.

Fixpoint merge_bits (k : nat) (i n : Z) (b : list bool) : list bool :=
  match k with
  | O => b
  | S k => merge_bits k (i + 1) n (if test_bit i b then b else clear_bit (partner n i) b)
  end.

Lemma merge_both k i n b : 0 <= i → 0 <= n → i + Z.of_nat k <= 2 * n → 2 * n < 2 ^ 32 →
  merge k i n b = (merge_bits k i n b.1, merge_bits k i n b.2).
Proof.
  revert i b. induction k as [|k IH]; intros i b Hi Hn Hk Hw; cbn [merge merge_bits]; [by destruct b|].
  rewrite IH by lia. cbn [fst snd].
  assert (u32 (i + n * (if i <? n then 1 else -1)) = partner n i) as ->; [|done].
  unfold partner. case_match; to_prop; rewrite u32_small; unfold is_u; lia.
Qed.

(** After the first [i] steps from [t]. *)
Definition merged_until (n i : Z) (t b : list bool) : Prop :=
  length b = length t ∧ ∀ j, 0 <= j < 2 * n →
    test_bit j b = test_bit j t && (if partner n j <? i then test_bit (partner n j) t else true).

Lemma merge_step n i t b : 0 <= i < 2 * n → merged_until n i t b →
  merged_until n (i + 1) t (if test_bit i b then b else clear_bit (partner n i) b).
Proof.
  intros Hi [Hl Hb]. split; [case_match; [done|]; unfold clear_bit; by rewrite length_insert|].
  intros j Hj. set (p := partner n). assert (0 <= p i < 2 * n ∧ 0 <= p j < 2 * n ∧ (p j = i ↔ j = p i)
    ∧ p (p j) = j) as (Hpi & Hpj & Hij & Hpp) by (unfold p, partner; repeat case_match; to_prop; lia).
  destruct (Z.eq_dec (p j) i) as [Hi'|Hi'].
  - assert (j = p i) as -> by tauto. rewrite Hi' in *.
    rewrite (proj2 (Z.ltb_lt i (i + 1))) by lia.
    specialize (Hb i Hi) as Hbi. fold p in Hbi. specialize (Hb (p i) Hpi) as Hbp. fold p in Hbp.
    rewrite Hi', Z.ltb_irrefl, andb_true_r in Hbp.
    destruct (test_bit i b) eqn:Ei; [|rewrite test_bit_clear, Z.eqb_refl by lia].
    + symmetry in Hbi. apply andb_prop in Hbi as [-> _]. by rewrite andb_true_r.
    + cbn. symmetry in Hbi. apply andb_false_iff in Hbi as [->|Hbi]; [by rewrite andb_false_r|].
      case_match; [|done]. by rewrite Hbi.
  - assert (test_bit j (if test_bit i b then b else clear_bit (p i) b) = test_bit j b) as ->.
    { case_match; [done|]. rewrite test_bit_clear by lia. by rewrite (proj2 (Z.eqb_neq j (p i))) by tauto. }
    rewrite Hb by done. fold p. f_equal. repeat case_match; to_prop; try done; lia.
Qed.

Lemma merge_bits_until n t k i b : 0 <= i → i + Z.of_nat k <= 2 * n →
  merged_until n i t b → merged_until n (i + Z.of_nat k) t (merge_bits k i n b).
Proof.
  revert i b. induction k as [|k IH]; intros i b Hi Hk Hb; cbn [merge_bits]; [by rewrite Z.add_0_r|].
  replace (i + Z.of_nat (S k)) with (i + 1 + Z.of_nat k) by lia.
  apply IH, merge_step; [lia..|done].
Qed.

Definition merged (n : Z) (t : list bool) : list bool := merge_bits (Z.to_nat (n * 2)) 0 n t.

(** Merged, a bit is set exactly when it was in both passes. *)
Lemma merged_bits n t j : 0 < n → 0 <= j < 2 * n →
  test_bit j (merged n t) = test_bit j t && test_bit (partner n j) t.
Proof.
  intros Hn Hj. destruct (merge_bits_until n t (Z.to_nat (n * 2)) 0 t) as [_ Hb]; [lia|lia| |].
  - split; [done|]. intros i Hi. assert (0 <= partner n i) by (unfold partner; case_match; to_prop; lia).
    by rewrite (proj2 (Z.ltb_ge _ _)), andb_true_r by lia.
  - unfold merged. rewrite Hb by done. rewrite (proj2 (Z.ltb_lt _ _)); [done|].
    unfold partner. case_match; to_prop; lia.
Qed.

Lemma merged_length n t : length (merged n t) = length t.
Proof.
  unfold merged. generalize (Z.to_nat (n * 2)), 0. intros k. revert t.
  induction k as [|k IH]; intros t i; cbn [merge_bits]; [done|]. rewrite IH.
  case_match; [done|]. unfold clear_bit. by rewrite length_insert.
Qed.

(** ** The longest range *)

Lemma run_forall b s e : run b s e ↔
  (s < e <= length b)%nat ∧ Forall (λ i, b !! i = Some true) (seq s (e - s)).
Proof.
  unfold run. rewrite Forall_forall. split; intros [Hl Hr]; (split; [done|]); intros i Hi; apply Hr.
  - apply elem_of_seq in Hi. lia.
  - apply elem_of_seq. lia.
Qed.
#[export] Instance run_dec b s e : Decision (run b s e).
Proof.
  destruct (decide ((s < e <= length b)%nat ∧ Forall (λ i, b !! i = Some true) (seq s (e - s))));
    [left|right]; by rewrite run_forall.
Defined.
#[export] Instance maximal_run_dec b s e : Decision (maximal_run b s e).
Proof. unfold maximal_run. apply _. Defined.

(** An instance of the law: all the pairs that are maximal ranges, in order. *)
Definition maximal_runs : Bitranges := λ b,
  filter (λ r, maximal_run b r.1 r.2) (list_prod (seq 0 (length b)) (seq 0 (S (length b)))).
Lemma maximal_runs_ok : @BitrangesOk maximal_runs.
Proof.
  intros b s e. unfold set_bitranges, maximal_runs. rewrite list_elem_of_filter, list_elem_of_In,
    in_prod_iff, <-!list_elem_of_In, !elem_of_seq. cbn [fst snd]. split; [tauto|].
  intros Hm. split; [done|]. destruct Hm as [[? _] _]. lia.
Qed.

(** A range lies in a maximal one. *)
Lemma run_shrink b s e s' e' : run b s e → (s <= s')%nat → (s' < e')%nat → (e' <= e)%nat → run b s' e'.
Proof. intros [? Hr] ???. split; [lia|]. intros i Hi. apply Hr. lia. Qed.

Lemma run_right b s e : run b s e → ∃ e', run b s e' ∧ b !! e' ≠ Some true ∧ (e <= e')%nat.
Proof.
  remember (length b - e)%nat as k eqn:Hk. revert e Hk. induction k as [k IH] using lt_wf_ind.
  intros e -> Hr. destruct (decide (b !! e = Some true)) as [He|He]; [|by exists e].
  pose proof (lookup_lt_Some _ _ _ He). destruct (IH (length b - S e)%nat ltac:(lia) (S e) eq_refl)
    as (e' & ? & ? & ?); [|exists e'; split_and!; [done..|lia]].
  destruct Hr as [? Hr]. split; [lia|]. intros i Hi.
  destruct (decide (i = e)) as [->|]; [done|apply Hr; lia].
Qed.

Lemma run_left b s e : run b s e →
  ∃ s', run b s' e ∧ (0 < s' → b !! (s' - 1) ≠ Some true)%nat ∧ (s' <= s)%nat.
Proof.
  induction s as [|s IH]; intros Hr; [exists O; split_and!; [done|lia..]|].
  destruct (decide (b !! s = Some true)) as [Hs|Hs].
  - destruct IH as (s' & ? & ? & ?); [|exists s'; split_and!; [done..|lia]].
    destruct Hr as [? Hr]. split; [lia|]. intros i Hi.
    destruct (decide (i = s)) as [->|]; [done|apply Hr; lia].
  - exists (S s). rewrite Nat.sub_1_r. cbn [Nat.pred]. split_and!; done.
Qed.

Lemma run_maximal b s e : run b s e →
  ∃ s' e', maximal_run b s' e' ∧ (s' <= s)%nat ∧ (e <= e')%nat.
Proof.
  intros (e' & Hr & He & ?)%run_right. apply run_left in Hr as (s' & Hr & Hs & ?).
  exists s', e'. unfold maximal_run. by split_and!.
Qed.

Definition size (r : nat * nat) : nat := (r.2 - r.1)%nat.

Lemma longer_cases best r :
  (longer best r = best ∨ longer best r = r) ∧
  (size best <= size (longer best r))%nat ∧ (size r <= size (longer best r))%nat.
Proof. unfold longer, size. destruct (Nat.ltb_spec (best.2 - best.1) (r.2 - r.1)); (split; [tauto|lia]). Qed.

Lemma longer_fold l best :
  foldl longer best l ∈ best :: l ∧ Forall (λ r, size r <= size (foldl longer best l))%nat (best :: l).
Proof.
  revert best. induction l as [|r l IH]; intros best; cbn [foldl].
  { split; [set_solver|]. by constructor. }
  destruct (IH (longer best r)) as [Hin [Hb Hl]%Forall_cons].
  destruct (longer_cases best r) as (Hc & ? & ?).
  split; [apply elem_of_cons in Hin as [Hin|Hin]; rewrite !elem_of_cons; [rewrite Hin; tauto|tauto]|].
  apply Forall_cons_2; [lia|]. apply Forall_cons_2; [lia|done].
Qed.

Section Search.
Context `{BitrangesOk}.

(** What is found is as long as any range, and is one when there is any. *)
Lemma longest_spec b s e : longest b = (s, e) →
  ((s < e)%nat → run b s e) ∧ ∀ s' e', run b s' e' → (e' - s' <= e - s)%nat.
Proof.
  unfold longest. intros Hl. destruct (longer_fold (set_bitranges b) (0, 0)%nat) as [Hin Hall].
  rewrite Hl in *. split.
  - intros Hse. apply elem_of_cons in Hin as [[= -> ->]|Hin]; [lia|].
    by apply set_bitranges_spec in Hin as [? _].
  - intros s' e' (s1 & e1 & Hm & ? & ?)%run_maximal. rewrite <- set_bitranges_spec in Hm.
    apply Forall_cons in Hall as [_ Hall]. rewrite Forall_forall in Hall.
    specialize (Hall _ Hm). unfold size in Hall. cbn in Hall. lia.
Qed.
End Search.

(** ** The tap that is selected *)

(** The tap was good in both passes; so were the taps next to it on the circle. *)
Definition steady (n : Z) (b : list bool) (t : Z) : bool := test_bit t b && test_bit (t + n) b.
Definition row (n : Z) (b : list bool) (t : Z) : Prop :=
  steady n b ((t - 1) mod n) = true ∧ steady n b t = true ∧ steady n b ((t + 1) mod n) = true.
Definition all_steady (n : Z) (b : list bool) : Prop := ∀ t, 0 <= t < n → steady n b t = true.

(** [b]: the results of the commands and of the comparison of the samples. *)
Definition acceptable (n : Z) (b : list bool * list bool) (t : Z) : Prop :=
  0 <= t < n ∧
  (all_steady n b.1 ∧ steady n b.2 t = true ∨ ¬ all_steady n b.1 ∧ row n b.1 t).

Lemma merged_steady n b j : 0 < n → 0 <= j < 2 * n →
  test_bit j (merged n b) = steady n b (j mod n).
Proof.
  intros Hn Hj. rewrite merged_bits by done. unfold steady, partner. case_match; to_prop.
  - by rewrite Z.mod_small by lia.
  - assert (j mod n = j - n) as ->.
    { symmetry. apply Z.mod_unique with 1; lia. }
    rewrite andb_comm. by replace (j - n + n) with j by lia.
Qed.

(** Of the first [2 n] bits. *)
Lemma run_merged n b s e : 0 < n → 2 * n <= zlen b →
  run (take (Z.to_nat (n * 2)) (merged n b)) s e ↔
  (s < e)%nat ∧ Z.of_nat e <= 2 * n ∧
  ∀ j, Z.of_nat s <= j < Z.of_nat e → steady n b (j mod n) = true.
Proof.
  intros Hn Hb. unfold run, zlen in *. rewrite length_take, merged_length.
  assert (∀ j, 0 <= j < 2 * n → take (Z.to_nat (n * 2)) (merged n b) !! Z.to_nat j = Some true ↔
    steady n b (j mod n) = true) as Hj.
  { intros j Hj. by rewrite lookup_take_lt, <- test_bit_lookup, merged_steady by lia. }
  split.
  - intros [Hse Hr]. split_and!; [lia..|]. intros j Hj'. apply Hj; [lia|]. apply Hr. lia.
  - intros (Hse & He & Hr). split; [lia|]. intros i Hi.
    specialize (Hj (Z.of_nat i) ltac:(lia)). rewrite Nat2Z.id in Hj. apply Hj, Hr. lia.
Qed.

Lemma full_merged n b : 0 < n → 2 * n <= zlen b →
  bitmap_full (merged n b) (n * 2) = true ↔ all_steady n b.
Proof.
  intros Hn Hb. rewrite bitmap_full_bits by (unfold zlen in *; rewrite merged_length; lia).
  unfold all_steady. split.
  - intros Hf t Ht. rewrite <- (Z.mod_small t n), <- merged_steady by lia. apply Hf. lia.
  - intros Ha j Hj. rewrite merged_steady by lia. apply Ha. by apply Z.mod_pos_bound.
Qed.

Lemma centre s e : (s < e)%nat →
  let c := Z.of_nat (s + e) / 2 in
  Z.of_nat s <= c < Z.of_nat e ∧ (3 <= Z.of_nat (e - s) → Z.of_nat s < c ∧ c + 1 < Z.of_nat e).
Proof. intros Hse c. subst c. split; [|intros ?; split]; try split; Z.to_euclidean_division_equations; lia. Qed.

Section Select.
Context `{BitrangesOk}.

Lemma run_row n b t : 0 < n → 2 * n <= zlen b → 0 <= t < n → ¬ all_steady n b → row n b t →
  ∃ s, run (take (Z.to_nat (n * 2)) (merged n b)) s (s + 3).
Proof.
  intros Hn Hb Ht Ha (Hp & Hc & Hq).
  assert (3 <= n).
  { destruct (decide (3 <= n)) as [|Hs]; [done|]. exfalso. apply Ha. intros u Hu.
    assert (u = t ∨ u = (t + 1) mod n) as [-> | ->]; [|done..].
    assert (n = 1 ∨ n = 2) as [-> | ->] by lia; [left; lia|].
    destruct (decide (u = t)) as [|Hut]; [by left|right]. Z.to_euclidean_division_equations. lia. }
  set (s := if t =? 0 then n - 1 else t - 1).
  assert ((t - 1) mod n = s mod n ∧ t = (s + 1) mod n ∧ (t + 1) mod n = (s + 2) mod n ∧ 0 <= s <= n)
    as (E1 & E2 & E3 & Hs).
  { subst s. destruct (Z.eqb_spec t 0) as [->|Ht0].
    - replace (n - 1 + 1) with (0 + 1 * n) by lia. replace (n - 1 + 2) with (0 + 1 + 1 * n) by lia.
      replace (n - 1) with (0 - 1 + 1 * n) by lia. rewrite !Z_mod_plus_full, Z.mod_0_l by lia. lia.
    - replace (t - 1 + 1) with t by lia. replace (t - 1 + 2) with (t + 1) by lia.
      rewrite (Z.mod_small t) by lia. lia. }
  exists (Z.to_nat s). apply run_merged; [done..|]. split_and!; [lia|lia|]. intros j Hj.
  assert (j = s ∨ j = s + 1 ∨ j = s + 2) as [-> | [-> | ->]] by lia; congruence.
Qed.

Lemma centre_steady n b s e : 0 < n → 2 * n <= zlen b →
  run (take (Z.to_nat (n * 2)) (merged n b)) s e →
  let t := Z.of_nat (s + e) / 2 mod n in
  0 <= t < n ∧ steady n b t = true ∧ (3 <= Z.of_nat (e - s) → row n b t).
Proof.
  intros Hn Hb (Hse & He & Hj)%run_merged t; [|done..].
  destruct (centre s e Hse) as [Hc H3]. split_and!; [by apply Z.mod_pos_bound..| |].
  - by apply Hj.
  - intros [??]%H3. unfold row, t. rewrite Zminus_mod_idemp_l, Zplus_mod_idemp_l.
    split_and!; apply Hj; lia.
Qed.

Lemma select_tap_spec n b : 0 < n → 2 * n <= zlen b.1 → 2 * n <= zlen b.2 →
  match select_tap n (merged n b.1, merged n b.2) with
  | Some t => acceptable n b t
  | None => ∀ t, ¬ acceptable n b t
  end.
Proof.
  intros Hn H1 H2. unfold select_tap, tuning_bitmap, acceptable, SH_MOBILE_SDHI_MIN_TAP_ROW. cbn [fst snd].
  pose proof (full_merged n b.1 Hn H1) as Hf.
  destruct (bitmap_full (merged n b.1) (n * 2)); cbn [fst snd].
  - assert (all_steady n b.1) as Ha by (by apply Hf).
    destruct (longest (take (Z.to_nat (n * 2)) (merged n b.2))) as [s e] eqn:El.
    apply longest_spec in El as [Hr Hl]. rewrite Z.geb_leb. destruct (Z.leb_spec 1 (Z.of_nat (e - s))).
    + destruct (centre_steady n b.2 s e) as (? & ? & _); [done..|apply Hr; lia|]. auto.
    + intros t (Ht & [[_ Hs]|[? _]]); [|done].
      assert (run (take (Z.to_nat (n * 2)) (merged n b.2)) (Z.to_nat t) (S (Z.to_nat t))) as H'.
      { apply run_merged; [done..|]. split_and!; [lia..|]. intros j Hj.
        replace j with t by lia. by rewrite Z.mod_small. }
      apply Hl in H'. lia.
  - assert (¬ all_steady n b.1) as Ha by (intros Ha; by apply Hf in Ha).
    destruct (longest (take (Z.to_nat (n * 2)) (merged n b.1))) as [s e] eqn:El.
    apply longest_spec in El as [Hr Hl]. rewrite Z.geb_leb. destruct (Z.leb_spec 3 (Z.of_nat (e - s))).
    + destruct (centre_steady n b.1 s e) as (? & ? & ?); [done..|apply Hr; lia|]. auto.
    + intros t (Ht & [[? _]|[_ Hs]]); [done|].
      destruct (run_row n b.1 t) as (u & Hu); [done..|]. apply Hl in Hu. lia.
Qed.
End Select.

(** ** What is seen of a tuning *)

(** The sampling position that is set, and for every command of the tuning and
    every comparison of the samples the position it was made at and whether it was
    good; the last first. *)
Record log := Log { position : Z; probes : list (Z * bool); samples : list (Z * bool) }.

Definition notice (g : log) (rv : request * Z) : log :=
  match rv.1 with
  | Writel a _ v => if a =? SCC_TAPSET then Log v (probes g) (samples g) else g
  | SendTuning _ => Log (position g) ((position g, rv.2 =? 0) :: probes g) (samples g)
  | Readl a _ =>
      if a =? SCC_SMPCMP
      then Log (position g) (probes g) ((position g, u32 rv.2 =? 0) :: samples g) else g
  | _ => g
  end.

(** The results for the first [i] positions. *)
Definition results (n i : Z) (b : list bool) : list (Z * bool) :=
  map (λ j, (j mod n, test_bit j b)) (seqZ 0 i).

Lemma results_snoc n i b (v : bool) : 0 <= i < zlen b → test_bit i b = false →
  results n (i + 1) (if v then set_bit i b else b) = results n i b ++ [(i mod n, v)].
Proof.
  intros Hi Hf. unfold results. rewrite seqZ_app, map_app by lia. f_equal.
  - apply map_ext_Forall, Forall_forall. intros j Hj%elem_of_seqZ. f_equal.
    destruct v; [|done]. rewrite test_bit_set by lia. by rewrite (proj2 (Z.eqb_neq j i)) by lia.
  - rewrite Z.add_0_l, seqZ_cons by lia. cbn. f_equal. f_equal.
    destruct v; [|done]. rewrite test_bit_set by lia. by rewrite Z.eqb_refl.
Qed.

(** All the results at a position were good. *)
Definition always_good (l : list (Z * bool)) (t : Z) : Prop := ∀ ok, (t, ok) ∈ l → ok = true.

Lemma results_good n b t : 0 <= t < n →
  always_good (reverse (results n (2 * n) b)) t ↔ steady n b t = true.
Proof.
  intros Ht. unfold always_good, steady, results. setoid_rewrite elem_of_reverse.
  setoid_rewrite list_elem_of_In. setoid_rewrite in_map_iff. split.
  - intros Hg. apply andb_true_intro. split; apply Hg.
    + exists t. rewrite Z.mod_small by lia. by rewrite <-list_elem_of_In, elem_of_seqZ; split; [|lia].
    + exists (t + n). rewrite <-list_elem_of_In, elem_of_seqZ. split; [|lia]. f_equal.
      symmetry. apply Z.mod_unique with 1; lia.
  - intros [H1 H2]%andb_prop ok (j & [= Hj <-] & Hin).
    rewrite <- list_elem_of_In, elem_of_seqZ in Hin.
    assert (j = t ∨ j = t + n) as [-> | ->]; [|done..].
    destruct (decide (j < n)); [rewrite Z.mod_small in Hj by lia; lia|].
    assert (j mod n = j - n); [symmetry; apply Z.mod_unique with 1; lia|lia].
Qed.

Section Seen.
Context {E : Type} `{Answers request E} `{Tmio} (h : host).
Abbreviation K := (st (world request E)).
Abbreviation same := (same notice (Log 0 [] [])).
Abbreviation hoare := (hoare notice (Log 0 [] [])).

Lemma same_read_scc g a : a ≠ SCC_SMPCMP → same g (sd_scc_read32 h a).
Proof. intros Ha. unfold sd_scc_read32. same. apply same_ask. intros v. cbn. by rewrite (proj2 (Z.eqb_neq _ _)). Qed.
Lemma same_write_scc g a v : a ≠ SCC_TAPSET → same g (sd_scc_write32 h a v).
Proof.
  intros Ha. unfold sd_scc_write32, tell. same. apply same_ask. intros x. cbn.
  by rewrite (proj2 (Z.eqb_neq _ _)).
Qed.
Lemma same_modify_scc g a f : a ≠ SCC_SMPCMP → a ≠ SCC_TAPSET → same g (modify_scc h a f).
Proof.
  intros ??. unfold modify_scc. apply same_bind; [by apply same_read_scc|].
  intros v. by apply same_write_scc.
Qed.
Lemma same_modify16 g r f : same g (modify16 r f).
Proof. unfold modify16, sd_ctrl_read16, sd_ctrl_write16, tell. same. Qed.
Hint Resolve same_modify16 : same.
Hint Extern 1 (Traced.same _ _ _ (sd_scc_read32 _ _)) => (apply same_read_scc; discriminate) : same.
Hint Extern 1 (Traced.same _ _ _ (sd_scc_write32 _ _ _)) => (apply same_write_scc; discriminate) : same.
Hint Extern 1 (Traced.same _ _ _ (modify_scc _ _ _)) => (apply same_modify_scc; discriminate) : same.

Lemma scc_reset_known g p :
  hoare (λ g', g' = g) (renesas_sdhi_scc_reset h p) (λ q g', g' = g ∧ q = set_needs_adjust false p).
Proof.
  unfold renesas_sdhi_scc_reset, renesas_sdhi_disable_scc, renesas_sdhi_reset_hs400_mode,
    renesas_sdhi_adjust_hs400_mode_disable, sd_scc_tmpport_write32, stop_clock, start_clock.
  repeat (apply step_same; [same|intros ?]). by apply step_ret.
Qed.

(** The number of taps is that of the register. *)
Lemma init_tuning_known g :
  hoare (λ g', g' = g) (renesas_sdhi_init_tuning h) (λ n g', g' = g ∧ 0 <= n <= 255).
Proof.
  unfold renesas_sdhi_init_tuning, stop_clock, start_clock, tell.
  repeat (apply step_same; [by same|intros ?v]).
  apply step_ret. split; [done|]. pose proof (byte_mask (Z.shiftr v6 DTCNTL_TAPNUM_SHIFT)) as Hb.
  unfold is_u, DTCNTL_TAPNUM_MASK in *. lia.
Qed.

(** The bitmaps and the log after the first [i] positions. *)
Definition probed (n i : Z) (b : list bool * list bool) (g : log) : Prop :=
  (2 * n <= zlen b.1 ∧ 2 * n <= zlen b.2) ∧
  (probes g = reverse (results n i b.1) ∧ samples g = reverse (results n i b.2)) ∧
  ∀ j, i <= j < 2 * n → test_bit j b.1 = false ∧ test_bit j b.2 = false.

Lemma probed_snoc n i b g (u v : bool) : 0 <= i < 2 * n → probed n i b g →
  probed n (i + 1) (if u then set_bit i b.1 else b.1, if v then set_bit i b.2 else b.2)
    (Log (i mod n) ((i mod n, u) :: probes g) ((i mod n, v) :: samples g)).
Proof.
  intros Hi ((H1 & H2) & (Hp & Hs) & Hb). destruct (Hb i) as [F1 F2]; [lia|].
  unfold probed. cbn [fst snd probes samples]. split; [|split].
  - unfold zlen, set_bit in *. destruct u, v; rewrite ?length_insert; lia.
  - rewrite !results_snoc by (done || lia). by rewrite Hp, Hs, !reverse_snoc.
  - intros j Hj. destruct (Hb j) as [G1 G2]; [lia|].
    destruct u, v; rewrite ?test_bit_set by lia; rewrite ?(proj2 (Z.eqb_neq j i)) by lia; done.
Qed.

Lemma step_read_scc {A} g a (f : Z → K A) Q :
  (∀ v, hoare (λ g', g' = notice g (Readl a (bus_shift h), v)) (f (u32 v)) Q) →
  hoare (λ g', g' = g) (sd_scc_read32 h a ≫= f) Q.
Proof.
  intros Hf. apply (hoare_bind _ _ _ (λ u g', ∃ v, u = u32 v ∧ g' = notice g (Readl a (bus_shift h), v))).
  - unfold sd_scc_read32. apply step_ask. intros v. apply step_ret. by exists v.
  - intros u. apply hoare_pre. intros ? (v & -> & ->). apply Hf.
Qed.

Lemma probe_tap_log opcode n i b : 0 <= i < 2 * n → n < 2 ^ 31 →
  hoare (probed n i b) (probe_tap h opcode i n b) (probed n (i + 1)).
Proof.
  intros Hi Hn. apply hoare_pre. intros g Hg. unfold probe_tap, sd_scc_write32.
  apply step_tell. intros x. apply step_ask. intros r. apply step_ask. intros e.
  apply step_read_scc. intros v. apply step_same; [case_match; unfold tell; same|]. intros _.
  apply step_ret. pose proof (Z.mod_pos_bound i n). cbn [notice fst snd position probes samples Z.eqb Pos.eqb].
  rewrite (u32_small (i mod n)) by (unfold is_u; lia). by apply probed_snoc.
Qed.

Lemma probe_taps_log opcode n k i b : 0 <= i → i + Z.of_nat k = 2 * n → n < 2 ^ 31 →
  hoare (probed n i b) (probe_taps h opcode k i n b) (probed n (2 * n)).
Proof.
  intros Hi Hk Hn. revert i b Hi Hk. induction k as [|k IH]; intros i b Hi Hk; cbn [probe_taps].
  { apply hoare_ret. intros g. by replace i with (2 * n) by lia. }
  eapply hoare_bind; [apply probe_tap_log; lia|]. intros b'. apply IH; lia.
Qed.

Context `{BitrangesOk}.

(** What a selection leaves: the tap that is set, or no tap that could be. *)
Definition selected (n : Z) (b : list bool * list bool) (r : Z) (p : priv) (g : log) : Prop :=
  (probes g = reverse (results n (2 * n) b.1) ∧ samples g = reverse (results n (2 * n) b.2)) ∧
  tap_num p = n ∧
  ((r = 0 ∧ position g = tap_set p ∧ acceptable n b (tap_set p)) ∨
   (r = - EIO ∧ ∀ t, ¬ acceptable n b t)).

Lemma select_tuning_log n b p g : 0 < n < 2 ^ 31 → tap_num p = n → (taps p, smpcmp p) = b →
  probed n (2 * n) b g →
  hoare (λ g', g' = g) (renesas_sdhi_select_tuning h p) (λ rp, selected n b rp.1 rp.2).
Proof.
  intros Hn Ep Eb ((Hb1 & Hb2) & Hg & _). unfold renesas_sdhi_select_tuning.
  apply step_same; [same|]. intros _. cbv zeta. cbn [tap_num taps smpcmp set_bitmaps].
  rewrite Ep, Eb, merge_both by lia. fold (merged n b.1) (merged n b.2).
  pose proof (select_tap_spec n b ltac:(lia) Hb1 Hb2) as Hs. cbn [fst snd].
  destruct (select_tap n _) as [t|].
  - unfold sd_scc_write32. apply step_tell. intros v. apply step_same; [same|]. intros _.
    apply step_ret. unfold selected. cbn. split; [done|]. split; [done|]. left.
    destruct Hs as [Ht ?]. by rewrite u32_small by (unfold is_u; lia).
  - apply step_ret. unfold selected. cbn. auto.
Qed.

(** A position as the code looks for it: where every tap was good, one whose
    samples did not change; else one that was good with its neighbours. *)
Definition good_tap (n : Z) (g : log) (t : Z) : Prop :=
  let all := ∀ u, 0 <= u < n → always_good (probes g) u in
  0 <= t < n ∧
  (all ∧ always_good (samples g) t ∨
   ¬ all ∧ always_good (probes g) ((t - 1) mod n) ∧ always_good (probes g) t ∧
           always_good (probes g) ((t + 1) mod n)).

(** Every tap was tried twice, in order. *)
Definition tried_twice (n : Z) (l : list (Z * bool)) : Prop :=
  map fst (reverse l) = map (λ j, j mod n) (seqZ 0 (2 * n)).

Lemma good_tap_acceptable n b g t : 0 < n →
  probes g = reverse (results n (2 * n) b.1) → samples g = reverse (results n (2 * n) b.2) →
  good_tap n g t ↔ acceptable n b t.
Proof.
  intros Hn Hp Hs. unfold good_tap, acceptable, row, all_steady. rewrite Hp, Hs.
  pose proof (Z.mod_pos_bound (t - 1) n Hn). pose proof (Z.mod_pos_bound (t + 1) n Hn).
  assert ((∀ u, 0 <= u < n → always_good (reverse (results n (2 * n) b.1)) u) ↔
          ∀ u, 0 <= u < n → steady n b.1 u = true) as ->.
  { split; intros Ha u Hu; apply results_good; auto. }
  split; intros [Ht Hc]; (split; [done|]); rewrite !results_good in * by done; done.
Qed.

Lemma results_tried n b : tried_twice n (reverse (results n (2 * n) b)).
Proof. unfold tried_twice, results. rewrite reverse_involutive, map_map. done. Qed.

(** What has happened when the call returns [r]: no tuning is supported, there are
    too many taps, or every tap was tried and the best one is set if there is any. *)
Definition tuning_result (r : Z) (p : priv) (g : log) : Prop :=
  let n := tap_num p in
  (n = 0 ∧ r = 0 ∧ probes g = []) ∨
  (Z.of_nat (taps_bits h) <= 2 * n ∧ r = - EINVAL ∧ probes g = []) ∨
  (0 < n ∧ tried_twice n (probes g) ∧ tried_twice n (samples g) ∧
   (r = 0 ∧ position g = tap_set p ∧ good_tap n g (tap_set p) ∨
    r = - EIO ∧ ∀ t, ¬ good_tap n g t)).

Lemma selected_result n b r p g : 0 < n → selected n b r p g → tuning_result r p g.
Proof.
  intros Hn ((Hp & Hs) & <- & Hr). right; right. split; [done|].
  pose proof (good_tap_acceptable (tap_num p) b g) as Hg.
  specialize (λ t, Hg t Hn Hp Hs) as Hg'. rewrite Hp, Hs.
  split_and!; [apply results_tried..|].
  destruct Hr as [(? & ? & ?)|(? & Hr)]; [left|right]; (split_and!; try done).
  - by apply Hg'.
  - intros t Ht. apply (Hr t). by apply Hg'.
Qed.

Lemma probed_none n (b : list bool * list bool) g : 0 < n →
  2 * n <= zlen b.1 → 2 * n <= zlen b.2 → probes g = [] → samples g = [] →
  probed n 0 (bitmap_zero b.1 (n * 2), bitmap_zero b.2 (n * 2)) g.
Proof.
  intros Hn Hb1 Hb2 Hp Hs. unfold probed, results. rewrite Hp, Hs. cbn [fst snd].
  split; [|split; [done|]].
  - unfold bitmap_zero, zlen in *. rewrite !splice_length by (rewrite length_replicate; lia). lia.
  - intros j Hj. rewrite !test_bit_zero by lia. done.
Qed.

Lemma execute_tuning_log opcode p :
  length (taps p) = taps_bits h → length (smpcmp p) = taps_bits h →
  hoare (λ g, g = Log 0 [] []) (renesas_sdhi_execute_tuning h opcode p)
    (λ rp, tuning_result rp.1 rp.2).
Proof.
  intros Hl1 Hl2. unfold renesas_sdhi_execute_tuning.
  eapply hoare_bind; [apply init_tuning_known|]. intros n. apply hoare_pre. intros g [-> Hn].
  destruct (Z.eqb_spec n 0) as [->|Hn0]; [apply step_ret; by left|].
  rewrite Z.geb_leb. destruct (Z.leb_spec (Z.of_nat (taps_bits h)) (n * 2)).
  { apply step_ret. right; left. cbn. split; [lia|done]. }
  eapply hoare_bind.
  - eapply hoare_conseq; [apply (probe_taps_log opcode n (Z.to_nat (2 * n)) 0); lia| |done].
    intros ? ->. cbn [taps smpcmp set_tap_num].
    by apply (probed_none n (taps p, smpcmp p)); unfold zlen; cbn [fst snd]; lia || done.
  - intros b. apply hoare_pre. intros g Hg.
    eapply hoare_bind; [apply (select_tuning_log n b); [lia|done|by destruct b|done]|].
    intros [r q]. cbn [fst snd]. case_match.
    + apply hoare_pre. intros g' Hg'. eapply hoare_bind; [apply scc_reset_known|].
      intros q'. apply hoare_ret. intros ? [-> ->]. apply (selected_result n b); [lia|].
      by destruct Hg' as (? & ? & ?).
    + apply hoare_ret. intros g' Hg'. by apply (selected_result n b); [lia|].
Qed.

(** C7: Whatever the card and the controller answer, a tuning tries every tap twice
    and sets one that was good both times, as were the taps next to it; when every
    tap was good it sets one at which the samples did not change.  It fails with
    [-EIO] exactly when there is no such tap, and tries nothing when the controller
    has no taps or more than the bitmaps hold. *)
Theorem tuning_finds_tap opcode p w r p' w' :
  renesas_sdhi_execute_tuning h opcode p w = ((r, p'), w') → trace w = [] →
  length (taps p) = taps_bits h → length (smpcmp p) = taps_bits h →
  tuning_result r p' (seen notice (Log 0 [] []) w').
Proof.
  intros Hrun Hw Hl1 Hl2. apply (execute_tuning_log opcode p Hl1 Hl2 w (r, p') w'); [|done].
  unfold seen. by rewrite Hw.
Qed.
End Seen.

(** A controller with eight taps and a card that answers at taps 2 to 4. *)
Definition plain_card : Answers request Z := λ r tap,
  match r with
  | Writel a _ v => (0, if a =? SCC_TAPSET then v else tap)
  | Readl a _ => (if a =? SCC_DTCNTL then 0x80001 else if a =? SCC_SMPCMP then 1 else 0, tap)
  | SendTuning _ => (if (2 <=? tap) && (tap <=? 4) then 0 else - EIO, tap)
  | _ => (0, tap)
  end.
Definition idle_priv : priv := Priv 0 0 (replicate 32 false) (replicate 32 false) false.

Definition plain_run : Z * priv * world request Z :=
  renesas_sdhi_execute_tuning (H := plain_card) (H0 := plain_tmio) (H1 := maximal_runs)
    plain_host 21 idle_priv (World 0 []).

Lemma tuning_finds_tap_witness :
  (plain_run.1.1 = 0 ∧ tap_set plain_run.1.2 = 3) ∧
  tuning_result plain_host plain_run.1.1 plain_run.1.2 (seen notice (Log 0 [] []) plain_run.2).
Proof.
  split; [by vm_compute|].
  apply (tuning_finds_tap (H := plain_card) (H0 := plain_tmio) (H2 := maximal_runs_ok)
    plain_host 21 idle_priv (World 0 [])); [|done..].
  unfold plain_run. match goal with |- ?x = _ => by destruct x as [[] ] end.
Defined.
