(* ===== verification/SdhiClock.v ===== *)
(** * SD host controller: the clock
    ([src/kernel/overlay/drivers/mmc/host/renesas_sdhi_core.c])

    The rate of the input clock, the divider of the card's clock and the reset, on
    the requests of [Sdhi].  The theorem bounds the rate that the divider gives. *)

From S2P Require Import Prelude Traced Sdhi.

Definition UINT_MAX : Z := 0xffffffff.

Section Clock.
Context {E : Type} `{Answers request E} `{Tmio} (h : host).
Abbreviation K := (st (world request E)).

Definition clk_get_rate (c : clock) : K Z := v ← ask (GetRate c); mret (u32 v).
Definition clk_round_rate (c : clock) (rate : Z) : K Z := v ← ask (RoundRate c rate); mret (u32 v).

(** *** The input clock *)

(** One turn of the loop; [best]: [best_freq] and [diff_min]. *)
Definition try_rate (c : clock) (new_clock : Z) (i : nat) (best : Z * Z) : K (Z * Z) :=
  let target := u32 (Z.shiftl new_clock (Z.of_nat i)) in
  let new_upper_limit := u32 (target + Z.shiftr target 10) in
  freq ← clk_round_rate c target;
  slower ← (if freq >? new_upper_limit then clk_round_rate c (u32 (target / 4 * 3)) else mret freq);
  if slower >? new_upper_limit then mret best
  else
    let diff := u32 (new_clock - Z.shiftr slower (Z.of_nat i)) in
    mret (if diff <=? best.2 then (slower, diff) else best).

(** From [i] down to 0. *)
Fixpoint search_rate (c : clock) (new_clock : Z) (i : nat) (best : Z * Z) : K (Z * Z) :=
  best ← try_rate c new_clock i best;
  match i with O => mret best | S i => search_rate c new_clock i best end.

(** [new_clock] is not 0 where the quotient is taken: what is asked for is below
    2^30 and not 0. *)
Definition renesas_sdhi_clk_update (t : timing) (wanted_clock : Z) : K Z :=
  tuning ← (if min_rcar2 h then v ← ask DoingTune; mret (negb (v =? 0)) else mret true);
  if tuning : bool then clk_get_rate Clk
  else
    let clkh_shift :=
      if has_clkh h then if quirk hs400_4taps h && bool_decide (t = MMC_HS400) then 1 else 2
      else 0 in
    let ref_clk := if has_clkh h then Clkh else Clk in
    let new_clock := u32 (Z.shiftl wanted_clock clkh_shift) in
    best ← search_rate ref_clk new_clock (Z.to_nat (Z.min 9 (Z.log2 (UINT_MAX / new_clock))))
             (0, UINT_MAX);
    tell (SetRate ref_clk best.1);;
    (if has_clkh h then tell (SetRate Clk (Z.shiftr best.1 clkh_shift)) else mret tt);;
    clk_get_rate Clk.

(** *** The divider *)

(** The loop, with 32 turns at most: then [clk] is 0. *)
Fixpoint divide (n : nat) (limit clk clock : Z) : Z :=
  match n with
  | O => clk
  | S n =>
      if negb (clk =? 0) && negb (clock =? 0) && (limit >=? u32 (Z.shiftl clock 1))
      then divide n limit (Z.shiftr clk 1) (u32 (Z.shiftl clock 1)) else clk
  end.

(** [1/1 clock is option] *)
Definition whole_clock (t : timing) (clk : Z) : Z :=
  if clk_actual h && negb (Z.land (Z.shiftr clk 22) 1 =? 0) then
    if negb (bool_decide (t = MMC_HS400)) then Z.lor clk 0xff else Z.land clk (u32 (Z.lnot 0xff))
  else clk.

Definition div_control (t : timing) (new_clock actual_clock : Z) : Z :=
  let clock := actual_clock / 512 in
  let clk_margin := Z.shiftr new_clock 10 in
  whole_clock t (divide 32 (u32 (new_clock + clk_margin)) 0x80000080 clock).

(** Gives [actual_clock] of the core. *)
Definition renesas_sdhi_set_clock (t : timing) (new_clock : Z) : K Z :=
  stop_clock;;
  let settle : K unit := if min_rcar2 h then mret tt else tell (UsleepRange 10000 11000) in
  if new_clock =? 0 then settle;; mret 0
  else
    actual_clock ← renesas_sdhi_clk_update t new_clock;
    let clk := div_control t new_clock actual_clock in
    sd_ctrl_write16 CTL_SD_CARD_CLK_CTL (Z.land clk CLK_CTL_DIV_MASK);;
    settle;;
    start_clock;;
    settle;;
    mret actual_clock.

(** *** Switching it on, and the reset *)

(** The result with [f_max] and [f_min] of the core. *)
Definition renesas_sdhi_clk_enable (f_max f_min : Z) : K (Z * (Z * Z)) :=
  ret ← ask (Call ClkPrepare);
  if ret <? 0 then mret (ret, (f_max, f_min))
  else
    f_max ← (if f_max =? 0 then clk_get_rate Clk else mret f_max);
    if f_max =? 0 then tell (Call ClkUnprepare);; mret (- EINVAL, (f_max, f_min))
    else
      lowest ← ask (RoundRate Clk 1);
      let f_min := u32 (Z.max (Z.quot lowest 512) 1) in
      renesas_sdhi_sdbuf_width 16;;
      mret (0, (f_max, f_min)).
Definition renesas_sdhi_clk_disable : K unit := tell (Call ClkUnprepare).

(** [clk_cache]: the rate the library keeps.  The poll of the reset status, at most
    100 microseconds, is one request. *)
Definition renesas_sdhi_reset (t : timing) (clk_cache : Z) (preserve : bool) (p : priv) : K priv :=
  p ← (if preserve then mret p
       else if has_rstc h then
         tell ResetControl;;
         tell PollReset;;
         sd_ctrl_write16 CTL_RESET_SD 1;;
         renesas_sdhi_set_clock t clk_cache;;
         mret (set_needs_adjust false p)
       else if has_scc h then renesas_sdhi_scc_reset h p
       else mret p);
  version ← sd_ctrl_read16 CTL_VERSION;
  (if version >=? SDHI_VER_GEN3_SD then modify16 CTL_SD_MEM_CARD_OPT (λ v, Z.lor v CARD_OPT_EXTOP)
   else mret tt);;
  mret p.
End Clock.

(** ** The rate of the card's clock *)

(** After [k] doublings. *)
Lemma divide_doublings limit n clk clock :
  0 < clock < 2 ^ 31 → 0 <= clk < 2 ^ Z.of_nat n → 0 <= limit < 2 ^ 31 →
  ∃ k : nat, divide n limit clk clock = Z.shiftr clk (Z.of_nat k) ∧
    (k = 0%nat ∨ clock * 2 ^ Z.of_nat k <= limit) ∧
    (Z.shiftr clk (Z.of_nat k) = 0 ∨ limit < clock * 2 ^ Z.of_nat (S k)).
Proof.
  revert clk clock. induction n as [|n IH]; intros clk clock Hc Hk Hl; cbn [divide].
  { exists 0%nat. rewrite Z.shiftr_0_r. split; [done|]. split; [by left|]. left. cbn in Hk. lia. }
  rewrite Nat2Z.inj_succ, Z.pow_succ_r in Hk by lia.
  rewrite Z.shiftl_mul_pow2, u32_small, Z.geb_leb by (unfold is_u; lia).
  rewrite (proj2 (Z.eqb_neq clock 0)) by lia.
  destruct (Z.eqb_spec clk 0) as [->|H0]; cbn [negb andb].
  { exists 0%nat. auto. }
  destruct (Z.leb_spec (clock * 2 ^ 1) limit) as [Hle|Hgt].
  - destruct (IH (Z.shiftr clk 1) (clock * 2 ^ 1)) as (k & -> & Hlow & Hhigh); [lia| |done|].
    { rewrite Z.shiftr_div_pow2 by lia. change (2 ^ 1) with 2. Z.to_euclidean_division_equations. lia. }
    exists (S k). rewrite Z.shiftr_shiftr in * by lia. replace (1 + Z.of_nat k) with (Z.of_nat (S k)) in * by lia.
    split; [done|]. rewrite !Nat2Z.inj_succ, !Z.pow_succ_r in * by lia.
    split; [right; destruct Hlow as [-> |]; cbn; lia|]. destruct Hhigh; [by left|right; lia].
  - exists 0%nat. rewrite Z.shiftr_0_r. split; [done|]. split; [by left|]. right. cbn. lia.
Qed.

(** The divider that the low byte of the register stands for. *)
Definition divisor (v : Z) : Z := if v =? 0xff then 1 else if v =? 0 then 2 else 4 * v.

(** The least divider there is. *)
Definition least_divisor (h : host) (t : timing) : Z :=
  if clk_actual h && bool_decide (t ≠ MMC_HS400) then 1 else 2.

(** The register after [k] doublings, for the nine dividers of the byte and beyond. *)
Lemma control_values h t k : (k <= 23)%nat →
  let v := Z.land (whole_clock h t (Z.shiftr 0x80000080 (Z.of_nat k))) 0xff in
  ((k <= 8)%nat → divisor v = 2 ^ (9 - Z.of_nat k)) ∧
  (k = 9%nat → divisor v = least_divisor h t) ∧ ((10 <= k)%nat → divisor v = 2).
Proof.
  intros Hk. unfold least_divisor, whole_clock. destruct (clk_actual h), t;
    do 24 (destruct k as [|k]; [vm_compute; split_and!; intros; done || lia|]); lia.
Qed.

Lemma doublings limit q : 0 < q < 2 ^ 31 → 0 <= limit < 2 ^ 31 →
  ∃ k : nat, divide 32 limit 0x80000080 q = Z.shiftr 0x80000080 (Z.of_nat k) ∧
    (k = 0%nat ∨ q * 2 ^ Z.of_nat k <= limit) ∧ limit < q * 2 ^ Z.of_nat (S k).
Proof.
  intros Hq Hl. destruct (divide_doublings limit 32 0x80000080 q) as (k & Hk & Hlow & Hhigh); [done..|].
  exists k. split; [done|]. split; [done|]. destruct Hhigh as [Hz|]; [exfalso|done].
  rewrite Z.shiftr_div_pow2, Z.div_small_iff in Hz by lia.
  destruct Hlow as [-> |Hlow]; [lia|nia].
Qed.

Lemma doublings_below limit q k m : 0 < q → (k = 0%nat ∨ q * 2 ^ Z.of_nat k <= limit) →
  limit < 2 ^ m * q → 0 < m → Z.of_nat k < m.
Proof.
  intros Hq Hk Hl Hm. destruct (Z.lt_ge_cases (Z.of_nat k) m) as [|Hge]; [done|].
  pose proof (Z.pow_le_mono_r 2 m (Z.of_nat k) ltac:(lia) Hge). destruct Hk as [-> |]; [lia|nia].
Qed.

(** What the register is given: the rate is not above what is asked for and a margin,
    unless it is the lowest, and twice it would be, unless it is the highest. *)
Lemma div_control_spec h t new_clock actual :
  0 < new_clock → new_clock + Z.shiftr new_clock 10 < 2 ^ 31 → 512 <= actual < 2 ^ 32 →
  let limit := new_clock + Z.shiftr new_clock 10 in
  let v := Z.land (div_control h t new_clock actual) 0xff in
  let rate := actual / 512 * 512 / divisor v in
  (limit < 1024 * (actual / 512) →
    (rate <= limit ∨ divisor v = 512) ∧ (limit < 2 * rate ∨ divisor v = least_divisor h t)) ∧
  (1024 * (actual / 512) <= limit < 2 ^ 24 * (actual / 512) → divisor v = 2).
Proof.
  intros Hn Hl Ha limit v rate. set (q := actual / 512) in *.
  assert (0 < q < 2 ^ 23) as Hq by (subst q; Z.to_euclidean_division_equations; lia).
  assert (0 <= Z.shiftr new_clock 10) as Hs by (apply Z.shiftr_nonneg; lia).
  destruct (doublings limit q) as (k & Hk & Hlow & Hhigh); [lia|unfold limit; lia|].
  assert (v = Z.land (whole_clock h t (Z.shiftr 0x80000080 (Z.of_nat k))) 0xff) as Hv.
  { unfold v, div_control. fold q limit. rewrite u32_small by (unfold is_u, limit in *; lia).
    by rewrite Hk. }
  rewrite Nat2Z.inj_succ, Z.pow_succ_r in Hhigh by lia.
  split.
  - intros Hlim. pose proof (doublings_below limit q k 10 ltac:(lia) Hlow Hlim ltac:(lia)).
    destruct (control_values h t k) as (H8 & H9 & _); [lia|]. rewrite <- Hv in H8, H9.
    destruct (decide (k = 9%nat)) as [Hk9|].
    + split; [left|right; auto]. subst rate. rewrite H9 by done.
      subst k. change (2 ^ Z.of_nat 9) with 512 in *.
      unfold least_divisor. case_match; rewrite ?Z.div_1_r; Z.to_euclidean_division_equations; lia.
    + assert (rate = q * 2 ^ Z.of_nat k) as ->.
      { subst rate. rewrite H8 by lia. symmetry. apply Z.div_unique_exact; [lia|].
        assert (2 ^ (9 - Z.of_nat k) * 2 ^ Z.of_nat k = 512); [|nia].
        rewrite <- Z.pow_add_r by lia. by replace (9 - Z.of_nat k + Z.of_nat k) with 9 by lia. }
      rewrite H8 by lia. split; [|left; lia]. destruct Hlow as [-> |]; [by right|by left].
  - intros [Hge Hlim]. pose proof (doublings_below limit q k 24 ltac:(lia) Hlow Hlim ltac:(lia)).
    destruct (control_values h t k) as (_ & _ & H10); [lia|]. rewrite Hv. apply H10.
    destruct (le_lt_dec 10 k) as [|Hlt]; [done|].
    pose proof (Z.pow_le_mono_r 2 (Z.of_nat k) 9 ltac:(lia) ltac:(lia)). nia.
Qed.

(** Asked for twice the input or more, the card gets half of it. *)
Lemma fast_request_halved h t new_clock actual : 512 <= actual < 2 ^ 28 →
  2 * actual <= new_clock < 2 ^ 30 → new_clock < 2 ^ 12 * actual →
  divisor (Z.land (div_control h t new_clock actual) 0xff) = 2.
Proof.
  intros Ha Hn Hm. assert (0 <= Z.shiftr new_clock 10 <= new_clock / 1024) as Hs.
  { rewrite Z.shiftr_div_pow2 by lia. split; [apply Z.div_pos; lia|done]. }
  apply div_control_spec; [lia|Z.to_euclidean_division_equations; lia|lia|].
  Z.to_euclidean_division_equations. lia.
Qed.

(** ** What is seen of it *)

(** The constants of [tmio] that the theorem needs: a mask of the low byte, and an
    enable bit in the 16 bits of the register. *)
Class TmioClockOk `{Tmio} := {
  div_mask_byte : CLK_CTL_DIV_MASK = 0xff;
  sclken_range : is_u 16 CLK_CTL_SCLKEN;
}.

(** The values given to the clock control register, the last first. *)
Definition clock_writes (g : list Z) (rv : request * Z) : list Z :=
  match rv.1 with Write16 CTL_SD_CARD_CLK_CTL v => v :: g | _ => g end.

Lemma land_u16 x y : is_u 16 y → Z.land (u16 x) y = Z.land x y.
Proof.
  intros Hy. unfold u16. rewrite <- Z.land_ones by lia. rewrite <- Z.land_assoc. f_equal.
  rewrite Z.land_comm, Z.land_ones by lia. by apply Z.mod_small.
Qed.

Section Seen.
Context {E : Type} `{Answers request E} `{TmioClockOk} (h : host).
Abbreviation K := (st (world request E)).
Abbreviation same := (same clock_writes []).
Abbreviation hoare := (hoare clock_writes []).

(** The clock of the card is off, on. *)
Definition stopped (v : Z) : Prop := Z.land v CLK_CTL_SCLKEN = 0.
Definition running (v : Z) : Prop := Z.land v CLK_CTL_SCLKEN = CLK_CTL_SCLKEN.

Lemma stop_value v : Z.land (u16 (Z.land (Z.lnot CLK_CTL_SCLKEN) v)) CLK_CTL_SCLKEN = 0.
Proof.
  rewrite land_u16 by apply sclken_range.
  rewrite (Z.land_comm (Z.lnot _)), <- Z.land_assoc, (Z.land_comm (Z.lnot _)), Z.land_lnot_diag.
  apply Z.land_0_r.
Qed.

Lemma stop_clock_seen {A} g (f : unit → K A) Q :
  (∀ v, stopped v → hoare (λ g', g' = v :: g) (f tt) Q) →
  hoare (λ g', g' = g) (stop_clock ≫= f) Q.
Proof.
  intros Hf. apply (hoare_bind _ _ _ (λ _ g', ∃ v, stopped v ∧ g' = v :: g)).
  - unfold stop_clock, modify16, sd_ctrl_read16, sd_ctrl_write16.
    apply step_same; [same|]. intros x. apply hoare_tell. intros ? y ->.
    eexists. split; [|reflexivity]. apply stop_value.
  - intros []. apply hoare_pre. intros ? (v & Hv & ->). by apply Hf.
Qed.

Lemma start_clock_seen {A} g (f : unit → K A) Q :
  (∀ v, running v → hoare (λ g', g' = v :: g) (f tt) Q) →
  hoare (λ g', g' = g) (start_clock ≫= f) Q.
Proof.
  intros Hf. apply (hoare_bind _ _ _ (λ _ g', ∃ v, running v ∧ g' = v :: g)).
  - unfold start_clock, modify16, sd_ctrl_read16, sd_ctrl_write16.
    apply step_same; [same|]. intros x. apply hoare_tell. intros ? y ->.
    eexists. split; [|reflexivity]. unfold running. rewrite land_u16 by apply sclken_range.
    apply Z.bits_inj. intros i. rewrite Z.land_spec, Z.lor_spec.
    by destruct (Z.testbit CLK_CTL_SCLKEN i), (Z.testbit x i).
  - intros []. apply hoare_pre. intros ? (v & Hv & ->). by apply Hf.
Qed.

Lemma same_try_rate g c new_clock i best : same g (try_rate c new_clock i best).
Proof. unfold try_rate, clk_round_rate. same. Qed.
Hint Resolve same_try_rate : same.
Lemma same_search_rate g c new_clock i best : same g (search_rate c new_clock i best).
Proof. revert best. induction i; intros best; cbn [search_rate]; same. Qed.
Hint Resolve same_search_rate : same.

(** The rate that is looked for is none, or not above what is asked for and a margin. *)
Definition allowed_rate (new_clock : Z) (i : nat) (rate : Z) : Prop :=
  rate = 0 ∨ ∃ j : nat, (j <= i)%nat ∧
    let target := new_clock * 2 ^ Z.of_nat j in rate <= target + target / 1024.

Lemma try_rate_allowed c new_clock m i best : 0 <= new_clock → (i <= m)%nat →
  allowed_rate new_clock m best.1 →
  triple (λ _ : world request E, True) (try_rate c new_clock i best)
    (λ b _, allowed_rate new_clock m b.1).
Proof.
  intros Hn Hi Hb. unfold try_rate. apply (triple_bind _ _ _ (λ _ _, True)); [done|]. intros f.
  apply (triple_bind _ _ _ (λ _ _, True)); [done|]. intros s. case_match eqn:Hs.
  { by apply triple_ret. }
  apply triple_ret. intros _ _. case_match; [|done]. right. exists i. split; [done|]. cbn [fst].
  rewrite Z.gtb_ltb in Hs. apply Z.ltb_ge in Hs. rewrite Z.shiftl_mul_pow2, Z.shiftr_div_pow2 in Hs by lia.
  set (target := new_clock * 2 ^ Z.of_nat i) in *. assert (0 <= target) by (subst target; nia).
  assert (u32 target <= target) by (apply Z.mod_le; lia).
  assert (0 <= u32 target) by apply u32_range.
  assert (u32 target / 2 ^ 10 <= target / 1024) by (apply Z.div_le_mono; lia).
  pose proof (Z.mod_le (u32 target + u32 target / 2 ^ 10) (2 ^ 32)) as Hm.
  assert (0 <= u32 target / 2 ^ 10) by (apply Z.div_pos; lia). fold (u32 (u32 target + u32 target / 2 ^ 10)) in Hm.
  lia.
Qed.

Lemma search_rate_allowed c new_clock m i best : 0 <= new_clock → (i <= m)%nat →
  allowed_rate new_clock m best.1 →
  triple (λ _ : world request E, True) (search_rate c new_clock i best)
    (λ b _, allowed_rate new_clock m b.1).
Proof.
  intros Hn. revert best. induction i as [|i IH]; intros best Hi Hb; cbn [search_rate].
  - eapply triple_bind; [by apply try_rate_allowed|]. intros b. by apply triple_ret.
  - eapply triple_bind; [by apply try_rate_allowed|]. intros b. apply triple_pre.
    intros w Hb'. eapply triple_conseq; [apply IH; [lia|done]|done|done].
Qed.

Lemma clk_update_known g t new_clock :
  hoare (λ g', g' = g) (renesas_sdhi_clk_update h t new_clock) (λ actual g', g' = g ∧ is_u 32 actual).
Proof.
  assert (hoare (λ g', g' = g) (clk_get_rate Clk : K Z) (λ actual g', g' = g ∧ is_u 32 actual)) as Hr.
  { unfold clk_get_rate. apply step_same; [same|]. intros v. apply step_ret. split; [done|apply u32_range]. }
  unfold renesas_sdhi_clk_update, tell. apply step_same; [same|]. intros [|]; [done|].
  do 3 (apply step_same; [same|intros ?]). done.
Qed.

(** C22: Whatever the kernel and the controller answer, the clock of the card is
    switched off, gets its divider and is switched on, for a request that with a
    1024th of it is below 2^31.  Where the input rate is at least 512 Hz and twice that
    rate, rounded down to 512 Hz, is more than what is asked for and a 1024th of it, the
    rate that the divider gives, of the rounded input rate, is at most what is asked for
    and a 1024th of it unless the divider is the largest, and more than half of that
    unless it is the least. (Above that see [fast_request_halved].) *)
Theorem set_clock_divides t new_clock w actual w' :
  0 < new_clock → new_clock + Z.shiftr new_clock 10 < 2 ^ 31 → trace w = [] →
  renesas_sdhi_set_clock h t new_clock w = (actual, w') →
  let limit := new_clock + Z.shiftr new_clock 10 in
  ∃ on v off, seen clock_writes [] w' = [on; v; off] ∧ stopped off ∧ running on ∧
    let rate := actual / 512 * 512 / divisor v in
    (512 <= actual → limit < 1024 * (actual / 512) →
      (rate <= limit ∨ divisor v = 512) ∧ (limit < 2 * rate ∨ divisor v = least_divisor h t)).
Proof.
  intros Hn Hl Hw Hrun limit.
  assert (hoare (λ g, g = []) (renesas_sdhi_set_clock h t new_clock) (λ actual g, is_u 32 actual ∧
    ∃ on off, g = [on; Z.land (div_control h t new_clock actual) 0xff; off] ∧ stopped off ∧ running on))
    as Ht.
  { unfold renesas_sdhi_set_clock. apply stop_clock_seen. intros off Hoff.
    rewrite (proj2 (Z.eqb_neq new_clock 0)) by lia.
    eapply hoare_bind; [apply clk_update_known|]. intros r. apply hoare_pre. intros g [-> Hr].
    rewrite div_mask_byte. apply step_tell. intros x. apply step_same; [case_match; unfold tell; same|].
    intros _. apply start_clock_seen. intros on Hon. apply step_same; [case_match; unfold tell; same|].
    intros _. apply step_ret. split; [done|]. exists on, off. cbn. split; [|done].
    f_equal. f_equal. apply u16_small. apply (is_u_mono 8); [lia|]. apply byte_mask. }
  destruct (Ht w actual w') as (Ha & on & off & Hg & Hoff & Hon); [by unfold seen; rewrite Hw|done|].
  eexists on, _, off. split; [exact Hg|]. split; [done|]. split; [done|]. intros rate Hmin Hlim.
  destruct (div_control_spec h t new_clock actual) as [Hd _]; [done|done|unfold is_u in Ha; lia|].
  by apply Hd.
Qed.
End Seen.

(** A request for 25 MHz of an input of 100 MHz. *)
Definition plain_rate : Answers request unit := λ r e,
  (match r with GetRate _ => 100000000 | RoundRate _ rate => rate | _ => 0 end, e).
Definition plain_set_clock : Z * world request unit :=
  renesas_sdhi_set_clock (H := plain_rate) (H0 := plain_tmio) plain_host OtherTiming 25000000 (World tt []).
Lemma plain_tmio_clock : @TmioClockOk plain_tmio.
Proof. by split. Qed.

Lemma set_clock_divides_witness :
  (0 < 25000000 ∧ plain_set_clock.1 = 100000000) ∧
  ∃ on v off, seen clock_writes [] plain_set_clock.2 = [on; v; off] ∧
    @stopped plain_tmio off ∧ @running plain_tmio on ∧
    let rate := plain_set_clock.1 / 512 * 512 / divisor v in
    (512 <= plain_set_clock.1 →
      25000000 + Z.shiftr 25000000 10 < 1024 * (plain_set_clock.1 / 512) →
      (rate <= 25000000 + Z.shiftr 25000000 10 ∨ divisor v = 512) ∧
      (25000000 + Z.shiftr 25000000 10 < 2 * rate ∨ divisor v = least_divisor plain_host OtherTiming)).
Proof.
  split; [by vm_compute|].
  apply (set_clock_divides (H := plain_rate) (H0 := plain_tmio) (H1 := plain_tmio_clock) plain_host OtherTiming 25000000 (World tt []));
    [done..|].
  unfold plain_set_clock. match goal with |- ?x = _ => by destruct x end.
Defined.
