(* ===== verification/SdhiCore.v ===== *)
(** * SD host controller: the callbacks together
    ([src/kernel/overlay/drivers/mmc/host/renesas_sdhi_core.c])

    The operations that the controller library and the core of the kernel call, in
    any order ([Sdhi], [SdhiClock]).  The sampling clock unit is set up only while the
    clock of the card is off, and every wait for the bus ends. *)

From S2P Require Import Prelude Traced Sdhi SdhiClock.

(** ** The callbacks *)

Inductive callback : Type :=
| ExecuteTuning (opcode : Z) | PrepareHs400Tuning | Hs400Downgrade | Hs400Complete
| CheckRetune (t : timing) (cmd_error : Z) (data_error : option Z) | FixupRequest (opcode : Z)
| Reset (t : timing) (clk_cache : Z) (preserve : bool) | SetClock (t : timing) (new_clock : Z)
| ClkEnable (f_max f_min : Z) | ClkDisable | EnableDma (enable : bool) | CardBusy
| SwitchVoltage (v : voltage) | Write16Hook (r : ctl) | TimeoutCycles.

Section Callbacks.
Context {E : Type} `{Answers request E} `{Tmio} `{Bitranges} (h : host).
Abbreviation K := (st (world request E)).

Definition handle (c : callback) (p : priv) : K priv :=
  match c with
  | ExecuteTuning opcode => rp ← renesas_sdhi_execute_tuning h opcode p; mret rp.2
  | PrepareHs400Tuning => renesas_sdhi_prepare_hs400_tuning h;; mret p
  | Hs400Downgrade => renesas_sdhi_disable_scc h;; mret p
  | Hs400Complete => renesas_sdhi_hs400_complete h p
  | CheckRetune t cmd_error data_error =>
      rp ← renesas_sdhi_check_scc_error h t cmd_error data_error p; mret rp.2
  | FixupRequest opcode => renesas_sdhi_fixup_request h opcode p
  | Reset t clk_cache preserve => renesas_sdhi_reset h t clk_cache preserve p
  | SetClock t new_clock => renesas_sdhi_set_clock h t new_clock;; mret p
  | ClkEnable f_max f_min => renesas_sdhi_clk_enable f_max f_min;; mret p
  | ClkDisable => renesas_sdhi_clk_disable;; mret p
  | EnableDma enable => renesas_sdhi_enable_dma h enable;; mret p
  | CardBusy => renesas_sdhi_card_busy;; mret p
  | SwitchVoltage v => renesas_sdhi_start_signal_voltage_switch h v;; mret p
  | Write16Hook r => renesas_sdhi_write16_hook h r;; mret p
  | TimeoutCycles => renesas_sdhi_gen3_get_cycles;; mret p
  end.

Fixpoint handle_all (l : list callback) (p : priv) : K priv :=
  match l with [] => mret p | c :: l => p ← handle c p; handle_all l p end.
End Callbacks.

(** ** The unit is set up while the clock is off *)

(** Is the clock of the card on, and was it off at every write that sets up the
    sampling clock unit? *)
Record unit_log := UnitLog { on : bool; quiet : bool }.

Definition setup_register (a : Z) : bool :=
  existsb (Z.eqb a) [SCC_DTCNTL; SCC_CKSEL; SCC_DT2FF; SCC_TMPPORT2].
Definition watch `{Tmio} (g : unit_log) (rv : request * Z) : unit_log :=
  match rv.1 with
  | Write16 CTL_SD_CARD_CLK_CTL v => UnitLog (negb (Z.land v CLK_CTL_SCLKEN =? 0)) (quiet g)
  | Writel a _ _ => if setup_register a then UnitLog (on g) (quiet g && negb (on g)) else g
  | _ => g
  end.

Section Quiet.
Context {E : Type} `{Answers request E} `{TmioClockOk} `{Bitranges} (h : host).
Abbreviation K := (st (world request E)).
Abbreviation start := (UnitLog true true).
Abbreviation hoare := (hoare watch start).
Abbreviation keeps := (keeps watch start).

Definition always (g : unit_log) : Prop := quiet g = true.
Definition off (g : unit_log) : Prop := quiet g = true ∧ on g = false.

Lemma keeps_tell P r : (∀ g v, P g → P (watch g (r, v))) → keeps P (tell r).
Proof. intros Hr. apply hoare_tell. done. Qed.
Lemma keeps_read16 P r : keeps P (sd_ctrl_read16 r).
Proof. apply log_keeps_bind; [by apply keeps_ask|]. intros v. apply log_keeps_ret. Qed.
Lemma keeps_modify16 P r f : r ≠ CTL_SD_CARD_CLK_CTL → keeps P (modify16 r f).
Proof.
  intros Hr. apply log_keeps_bind; [apply keeps_read16|].
  intros v. apply keeps_tell. intros g x. by destruct r.
Qed.
Lemma keeps_write16 P r v : r ≠ CTL_SD_CARD_CLK_CTL → keeps P (sd_ctrl_write16 r v).
Proof. intros Hr. apply keeps_tell. intros g x. by destruct r. Qed.
Lemma always_write16 r v : keeps always (sd_ctrl_write16 r v).
Proof. apply keeps_tell. intros g x. by destruct r. Qed.
Lemma always_modify16 r f : keeps always (modify16 r f).
Proof.
  apply log_keeps_bind; [apply keeps_read16|]. intros v. apply always_write16.
Qed.
Lemma off_scc a v : keeps off (sd_scc_write32 h a v).
Proof.
  apply keeps_tell. intros g x [Hq Ho]. unfold watch, off. cbn [fst]. case_match; [|done].
  cbn [quiet on]. by rewrite Hq, Ho.
Qed.
Lemma always_scc a v : setup_register a = false → keeps always (sd_scc_write32 h a v).
Proof. intros Ha. apply keeps_tell. intros g x. unfold watch. cbn [fst]. by rewrite Ha. Qed.
Lemma keeps_read_scc P a : keeps P (sd_scc_read32 h a).
Proof. apply log_keeps_bind; [by apply keeps_ask|]. intros v. apply log_keeps_ret. Qed.
Lemma off_modify_scc a f : keeps off (modify_scc h a f).
Proof. apply log_keeps_bind; [apply keeps_read_scc|]. intros v. apply off_scc. Qed.
Lemma always_modify_scc a f : setup_register a = false → keeps always (modify_scc h a f).
Proof. intros Ha. apply log_keeps_bind; [apply keeps_read_scc|]. intros v. by apply always_scc. Qed.

Lemma stop_off : hoare always stop_clock (λ _, off).
Proof.
  unfold stop_clock, modify16, sd_ctrl_write16.
  apply (hoare_step _ always); [apply keeps_read16|intros v].
  apply hoare_tell; intros g x Hg. split; [done|]. cbn. by rewrite (stop_value v).
Qed.
Lemma start_always : hoare off start_clock (λ _, always).
Proof. apply (hoare_conseq always off _ (λ _, always)); [apply always_modify16|by intros ? []|done]. Qed.

Hint Extern 1 (Traced.keeps _ _ _ (tell _)) => (apply keeps_tell; intros ? ? ?; assumption) : keeps.
Hint Extern 1 (Traced.keeps _ _ _ (ask _)) => (apply keeps_ask; intros ? ? ?; assumption) : keeps.
Hint Resolve keeps_read16 always_write16 always_modify16 off_scc off_modify_scc
  keeps_read_scc : keeps.
Hint Extern 1 (Traced.keeps _ _ _ (sd_scc_write32 _ _ _)) => (apply always_scc; reflexivity) : keeps.
Hint Extern 1 (Traced.keeps _ _ _ (modify_scc _ _ _)) => (apply always_modify_scc; reflexivity) : keeps.
Hint Extern 1 (Traced.keeps _ _ off (modify16 _ _)) => (apply keeps_modify16; discriminate) : keeps.

(** A stretch between stopping and starting the clock, in front of the rest. *)
Lemma stopping {A} (f : unit → K A) Q : hoare off (f tt) Q → hoare always (stop_clock ≫= f) Q.
Proof. intros Hf. apply (hoare_step _ off); [apply stop_off|]. by intros []. Qed.
Lemma starting {A} (f : unit → K A) : keeps always (f tt) → hoare off (start_clock ≫= f) (λ _, always).
Proof. intros Hf. apply (hoare_step _ always); [apply start_always|]. by intros []. Qed.

Ltac set_up :=
  apply stopping;
  repeat lazymatch goal with
  | |- Traced.hoare _ _ off (start_clock ≫= _) _ => apply starting
  | |- Traced.hoare _ _ off start_clock _ => apply start_always
  | |- Traced.hoare _ _ off _ _ => apply hoare_keeps; [by keeps|intros ?]
  end.

Lemma always_disable_scc : keeps always (renesas_sdhi_disable_scc h).
Proof. unfold renesas_sdhi_disable_scc. set_up. Qed.
Lemma always_reset_hs400_mode : keeps always (renesas_sdhi_reset_hs400_mode h).
Proof.
  unfold renesas_sdhi_reset_hs400_mode, renesas_sdhi_adjust_hs400_mode_disable, sd_scc_tmpport_write32.
  set_up.
Qed.
Lemma always_init_tuning : keeps always (renesas_sdhi_init_tuning h).
Proof.
  unfold renesas_sdhi_init_tuning. apply hoare_keeps; [by keeps|intros _]. set_up. keeps.
Qed.
Lemma always_hs400_complete p : keeps always (renesas_sdhi_hs400_complete h p).
Proof. unfold renesas_sdhi_hs400_complete. set_up. keeps. Qed.

Hint Resolve always_disable_scc always_reset_hs400_mode always_init_tuning always_hs400_complete : keeps.

Lemma always_scc_reset p : keeps always (renesas_sdhi_scc_reset h p).
Proof. unfold renesas_sdhi_scc_reset. keeps. Qed.
Lemma always_probe_taps opcode n i tap_num b : keeps always (probe_taps h opcode n i tap_num b).
Proof. revert i b. induction n; intros i b; cbn [probe_taps]; unfold probe_tap; keeps. Qed.
Lemma always_select_tuning p : keeps always (renesas_sdhi_select_tuning h p).
Proof. unfold renesas_sdhi_select_tuning. keeps. Qed.
Hint Resolve always_scc_reset always_probe_taps always_select_tuning : keeps.

Lemma always_execute_tuning opcode p : keeps always (renesas_sdhi_execute_tuning h opcode p).
Proof. unfold renesas_sdhi_execute_tuning. keeps. Qed.
Lemma always_check_scc_error t c d p : keeps always (renesas_sdhi_check_scc_error h t c d p).
Proof.
  unfold renesas_sdhi_check_scc_error, renesas_sdhi_auto_correction, renesas_sdhi_manual_correction,
    move_tap. keeps.
Qed.
Lemma always_sdbuf_width width : keeps always (renesas_sdhi_sdbuf_width width).
Proof. unfold renesas_sdhi_sdbuf_width. keeps. Qed.
Lemma always_search_rate c new_clock i best : keeps always (search_rate c new_clock i best).
Proof. revert best. induction i; intros best; cbn [search_rate]; unfold try_rate, clk_round_rate; keeps. Qed.
Hint Resolve always_search_rate always_sdbuf_width : keeps.
Lemma always_set_clock t new_clock : keeps always (renesas_sdhi_set_clock h t new_clock).
Proof.
  unfold renesas_sdhi_set_clock, renesas_sdhi_clk_update, clk_get_rate, stop_clock, start_clock. keeps.
Qed.
Lemma always_write16_hook r : keeps always (renesas_sdhi_write16_hook h r).
Proof.
  assert (∀ n bit s, keeps always (idle_within n bit s)) as Hi.
  { intros n bit s. induction n; cbn [idle_within]; unfold sd_ctrl_read32; keeps. }
  unfold renesas_sdhi_write16_hook, renesas_sdhi_wait_idle. keeps.
Qed.
Hint Resolve always_execute_tuning always_check_scc_error always_set_clock always_write16_hook : keeps.

Lemma always_handle c p : keeps always (handle h c p).
Proof.
  destruct c; cbn [handle]; unfold renesas_sdhi_prepare_hs400_tuning, renesas_sdhi_fixup_request,
    renesas_sdhi_adjust_hs400_mode_enable, sd_scc_tmpport_write32, sd_scc_tmpport_read32,
    renesas_sdhi_reset, renesas_sdhi_clk_enable, clk_get_rate, renesas_sdhi_clk_disable,
    renesas_sdhi_enable_dma, renesas_sdhi_card_busy, renesas_sdhi_start_signal_voltage_switch,
    select_voltage, renesas_sdhi_gen3_get_cycles, sd_ctrl_read32; keeps.
Qed.
Lemma always_handle_all l p : keeps always (handle_all h l p).
Proof.
  revert p. induction l as [|c l IH]; intros p; cbn [handle_all]; [apply log_keeps_ret|].
  apply log_keeps_bind; [apply always_handle|done].
Qed.

(** C15: In every sequence of calls of the driver, whatever the controller and the card
    answer, the tap range, the source of the sampling clock, its delay and the HS400
    mode are changed only after the clock of the card was switched off and before it
    is switched on again. *)
Theorem unit_set_up_stopped l p w p' w' :
  handle_all h l p w = (p', w') → trace w = [] → quiet (seen watch start w') = true.
Proof.
  intros Hrun Hw. apply (always_handle_all l p w p' w'); [|done]. unfold seen. by rewrite Hw.
Qed.
End Quiet.

Definition example_calls : list callback :=
  [SetClock OtherTiming 25000000; ExecuteTuning 21; Hs400Complete; CheckRetune MMC_HS400 0 None;
   Reset MMC_HS400 0 false].
Definition example_card : Answers request unit := λ r e,
  (match r with Readl 0 _ => 0x80001 | GetRate _ => 100000000 | _ => 0 end, e).
Definition example_run : priv * world request unit :=
  handle_all (H := example_card) (H0 := plain_tmio) (H1 := λ _, [(0, 16)%nat]) plain_host example_calls
    (Priv 0 0 (replicate 32 false) (replicate 32 false) false) (World tt []).

Lemma unit_set_up_stopped_witness :
  (100 <= length (trace example_run.2))%nat ∧
  quiet (seen (watch (H := plain_tmio)) (UnitLog true true) example_run.2) = true.
Proof.
  split; [apply (bool_decide_unpack _); by vm_compute|].
  apply (unit_set_up_stopped (H := example_card) (H1 := plain_tmio_clock) (H2 := λ _, [(0, 16)%nat])
    plain_host example_calls (Priv 0 0 (replicate 32 false) (replicate 32 false) false) (World tt [])
    example_run.1); [|done].
  unfold example_run. match goal with |- ?x = _ => by destruct x end.
Defined.
