(* ===== verification/SdhiProbe.v ===== *)
(** * SD host controller: probe and remove
    ([src/kernel/overlay/drivers/mmc/host/renesas_sdhi_core.c])

    [renesas_sdhi_probe] with every exit, and [renesas_sdhi_remove].  What the probe
    leaves in the host and in the private data is its result, as [Sdhi.host] and the
    rest the other operations read; assignments of callbacks that depend on nothing,
    and the wiring of the DMA helper, are left out.  The theorem is about what is
    held of the kernel when it returns. *)

From S2P Require Import Prelude Traced Sdhi SdhiClock.

(** ** Data *)

(** The masks of the kernel's and the library's headers. *)
Class ProbeMasks := {
  TMIO_MMC_MIN_RCAR2 : Z; TMIO_MMC_HAVE_CBSY : Z; TMIO_MMC_CLK_ACTUAL : Z;
  TMIO_MMC_BLKSZ_2BYTES : Z; TMIO_MMC_SDIO_IRQ : Z; TMIO_MMC_HAVE_CMD12_CTRL : Z;
  TMIO_MMC_SDIO_STATUS_SETBITS : Z; TMIO_MMC_USE_BUSY_TIMEOUT : Z;
  MMC_CAP_MMC_HIGHSPEED : Z; MMC_CAP_UHS_SDR104 : Z; MMC_CAP_NONREMOVABLE : Z;
  MMC_CAP2_HS400 : Z; MMC_CAP2_HS400_ES : Z; MMC_CAP2_NO_WRITE_PROTECT : Z;
  MMC_CAP2_HS200_1_8V_SDR : Z; MMC_CAP2_HS400_1_8V : Z;
  SDHI_FLAG_NEED_CLKH_FALLBACK : Z;
}.

Record mmc_data := MmcData {
  flags : Z; ocr_mask : Z; capabilities : Z; capabilities2 : Z; dma_rx_offset : Z;
  max_blk_count : Z; max_segs : Z; alignment_shift : Z;
}.
Definition no_data : mmc_data := MmcData 0 0 0 0 0 0 0 0.

Definition set_flags (f : Z → Z) (d : mmc_data) : mmc_data :=
  MmcData (f (flags d)) (ocr_mask d) (capabilities d) (capabilities2 d) (dma_rx_offset d)
    (max_blk_count d) (max_segs d) (alignment_shift d).
Definition set_caps2 (f : Z → Z) (d : mmc_data) : mmc_data :=
  MmcData (flags d) (ocr_mask d) (capabilities d) (f (capabilities2 d)) (dma_rx_offset d)
    (max_blk_count d) (max_segs d) (alignment_shift d).
Definition set_max_blk_count (v : Z) (d : mmc_data) : mmc_data :=
  MmcData (flags d) (ocr_mask d) (capabilities d) (capabilities2 d) (dma_rx_offset d) v
    (max_segs d) (alignment_shift d).

Record scc_taps := SccTaps { clk_rate : Z; tap : Z; tap_hs400_4tap : Z }.
Record of_data := OfData {
  tmio_flags : Z; tmio_ocr_mask : Z; of_capabilities : Z; of_capabilities2 : Z;
  of_dma_rx_offset : Z; of_max_blk_count : Z; of_max_segs : Z; of_bus_shift : Z;
  sdhi_flags : Z; scc_offset : Z; of_taps : list scc_taps;
}.

(** What the platform and [tmio_mmc_host_alloc] give: the resource, the platform's
    own data, and of the core the capabilities, the highest rate and whether a card
    detect is there. *)
Record platform := Platform {
  res_start : Z; res_size : Z; platform_data : option mmc_data;
  caps : Z; caps2 : Z; f_max : Z; get_cd : bool; bitmap_bits : nat;
}.

(** What the probe leaves: [host], the data, and which callbacks that depend on the
    controller are set: the calibration's, the timeout's, the tuning's, and those for
    the voltage and the reset. *)
Record setup := Setup {
  conf : host; data : mmc_data; core_caps2 : Z; rates : Z * Z;
  with_fixup : bool; with_cycles : bool; with_tuning : bool; with_gen2 : bool;
}.

Definition has (v mask : Z) : bool := negb (Z.land v mask =? 0).
Definition U16_MAX : Z := 0xffff.

Section Probe.
Context {E : Type} `{Answers request E} `{ProbeMasks}.
Abbreviation K := (st (world request E)).
Implicit Types (d : mmc_data) (q : option quirks).

(** The pointer that a call of the kernel gives: negative, an error; 0, null. *)
Definition pointer (c : call) : K Z := ask (Call c).

Definition merge_of_data (o : of_data) d : mmc_data :=
  MmcData (Z.lor (flags d) (tmio_flags o)) (tmio_ocr_mask o) (Z.lor (capabilities d) (of_capabilities o))
    (Z.lor (capabilities2 d) (of_capabilities2 o)) (of_dma_rx_offset o) (of_max_blk_count o)
    (of_max_segs o) (alignment_shift d).

(** The flags every controller of the family has. *)
Definition common_flags (f : Z) : Z :=
  Z.lor (Z.lor (Z.lor (Z.lor (Z.lor f TMIO_MMC_BLKSZ_2BYTES) TMIO_MMC_SDIO_IRQ)
    TMIO_MMC_HAVE_CMD12_CTRL) TMIO_MMC_SDIO_STATUS_SETBITS) TMIO_MMC_USE_BUSY_TIMEOUT.

Definition common_data d : mmc_data :=
  MmcData (common_flags (flags d)) (ocr_mask d) (Z.lor (capabilities d) MMC_CAP_MMC_HIGHSPEED)
    (capabilities2 d) (dma_rx_offset d) (max_blk_count d) (max_segs d) 1.

(** What depends on the version of the controller. *)
Definition version_data (ver : Z) d : mmc_data :=
  let d := if (ver <? SDHI_VER_GEN2_SDR104) && (max_blk_count d >? U16_MAX)
           then set_max_blk_count U16_MAX d else d in
  if ver =? SDHI_VER_GEN2_SDR50 then set_flags (λ f, Z.land f (Z.lnot TMIO_MMC_HAVE_CBSY)) d else d.

(** [adjust_hs400_calib_table]: where it is set. *)
Definition calib_table (ver start : Z) q : option (list Z) :=
  if ver =? SDHI_VER_GEN3_SDMMC then
    match q with
    | Some q =>
        match hs400_calib_table q with
        | Some (first, second) => Some (if start =? SDHI_GEN3_MMC0_ADDR then first else second)
        | None => None
        end
    | None => None
    end
  else None.

(** The loop over the taps of the device: [scc_tappos] and [scc_tappos_hs400] when
    there is a rate that fits. *)
Definition tap_positions (use_4tap : bool) (rate : Z) (l : list scc_taps) : option (Z * Z) :=
  match l with
  | [] => None
  | first :: _ =>
      if existsb (λ t, (clk_rate t =? 0) || (clk_rate t =? rate)) l
      then Some (tap first, if use_4tap then tap_hs400_4tap first else tap first) else None
  end.

(** The interrupts from [i] on. *)
Fixpoint request_irqs (n : nat) (i ret : Z) : K Z :=
  match n with
  | O => mret ret
  | S n =>
      irq ← ask (Call (GetIrq i));
      if irq <? 0 then mret irq
      else
        ret ← ask (Call (RequestIrq irq));
        if negb (ret =? 0) then mret ret else request_irqs n (i + 1) ret
  end.

(** The ends of the probe: [eirq], [edisclk] and [efree]. *)
Definition efree (ret : Z) : K (Z * option setup) := tell (Call HostFree);; mret (ret, None).
Definition edisclk (ret : Z) : K (Z * option setup) := renesas_sdhi_clk_disable;; efree ret.
Definition eirq (ret : Z) : K (Z * option setup) := tell (Call HostRemove);; edisclk ret.

(** From [tmio_mmc_host_probe] on. *)
Definition start_host (s : setup) : K (Z * option setup) :=
  ret ← ask (Call HostProbe);
  if ret <? 0 then edisclk ret
  else
    num_irqs ← ask (Call IrqCount);
    if num_irqs <? 0 then eirq num_irqs
    else if num_irqs =? 0 then eirq (- ENXIO)
    else
      ret' ← request_irqs (Z.to_nat num_irqs) 0 ret;
      if negb (ret' =? 0) then eirq ret' else mret (ret', Some s).

(** The clocks, the reset and the pins, in order: a negative one of the first four
    ends the probe. *)
Record handles := Handles { clkh : Z; rstc : Z; pinctrl : Z; pin_default : Z; pin_uhs : Z }.
Definition get_handles : K (Z + handles) :=
  clk ← pointer GetClk;
  if clk <? 0 then mret (inl clk)
  else
    clkh ← pointer GetClkh;
    if clkh <? 0 then mret (inl clkh)
    else
      clk_cd ← pointer GetClkCd;
      if clk_cd <? 0 then mret (inl clk_cd)
      else
        rstc ← pointer GetReset;
        if rstc <? 0 then mret (inl rstc)
        else
          pinctrl ← pointer GetPinctrl;
          if pinctrl <? 0 then mret (inr (Handles clkh rstc pinctrl 0 0))
          else
            pin_default ← pointer LookupDefault;
            pin_uhs ← pointer LookupUhs;
            mret (inr (Handles clkh rstc pinctrl pin_default pin_uhs)).

(** From the allocation of the host on; [host]: it succeeded. *)
Definition set_up_host (pl : platform) (o : option of_data) (q : option quirks) (hs : handles) :
    K (Z * option setup) :=
  let d := match o with Some o => merge_of_data o no_data | None => no_data end in
  parent ← (match o with
            | Some o =>
                if (clkh hs =? 0) && has (sdhi_flags o) SDHI_FLAG_NEED_CLKH_FALLBACK
                then pointer ParentClk else mret (clkh hs)
            | None => mret (clkh hs)
            end);
  let caps2 :=
    if match q with Some q => hs400_disabled q | None => false end
    then Z.land (caps2 pl) (Z.lnot (Z.lor MMC_CAP2_HS400 MMC_CAP2_HS400_ES)) else caps2 pl in
  gpio_ro ← ask (Call CanGpioRo);
  let d := if gpio_ro =? 0 then d
           else set_caps2 (λ c, Z.land c (Z.lnot MMC_CAP2_NO_WRITE_PROTECT)) d in
  let gen2 := has (flags d) TMIO_MMC_MIN_RCAR2 in
  let shift := match o with Some o => of_bus_shift o | None => 0 end in
  let shift := if (shift =? 0) && (res_size pl >? 0x100) then 1 else shift in
  let d := common_data (default d (platform_data pl)) in
  tell (Call PmDomainStart);;
  r ← renesas_sdhi_clk_enable (f_max pl) 0;
  if negb (r.1 =? 0) then efree r.1
  else
    ver ← sd_ctrl_read16 CTL_VERSION;
    let d := version_data ver d in
    let table := calib_table ver (res_start pl) q in
    let tuning :=
      match o with
      | Some o =>
          negb (scc_offset o =? 0) &&
          (has (caps pl) MMC_CAP_UHS_SDR104 ||
           has caps2 (Z.lor MMC_CAP2_HS200_1_8V_SDR MMC_CAP2_HS400_1_8V))
      | None => false
      end in
    let use_4tap := match q with Some q => hs400_4taps q | None => false end in
    let positions :=
      if tuning then
        default (0, 0) (tap_positions use_4tap r.2.1 (match o with Some o => of_taps o | None => [] end))
      else (0, 0) in
    start_host
      (Setup
        (Host shift (has (flags d) TMIO_MMC_MIN_RCAR2) (has (flags d) TMIO_MMC_HAVE_CBSY)
           (has (flags d) TMIO_MMC_CLK_ACTUAL) (has (caps pl) MMC_CAP_NONREMOVABLE) (get_cd pl)
           (negb (parent =? 0)) (negb (rstc hs =? 0)) tuning (0 <=? pinctrl hs)
           (λ p, 0 <=? match p with PinsDefault => pin_default hs | PinsUhs => pin_uhs hs end)
           q positions.1 positions.2 table (bitmap_bits pl))
        d caps2 r.2 (match table with Some _ => true | None => false end)
        (SDHI_VER_GEN3_SD <=? ver) tuning gen2).

Definition renesas_sdhi_probe (pl : platform) (o : option of_data) (q : option quirks) :
    K (Z * option setup) :=
  res ← pointer GetResource;
  if res =? 0 then mret (- EINVAL, None)
  else
    priv ← pointer Alloc;
    if priv =? 0 then mret (- ENOMEM, None)
    else
      hs ← get_handles;
      match hs with
      | inl error => mret (error, None)
      | inr hs =>
          host ← pointer HostAlloc;
          if host <? 0 then mret (host, None) else set_up_host pl o q hs
      end.

Definition renesas_sdhi_remove : K Z :=
  tell (Call HostRemove);; renesas_sdhi_clk_disable;; tell (Call HostFree);; mret 0.
End Probe.

(** The entry that fits is looked for, but the first one is used. *)
Lemma taps_of_first_entry rate first second : 0 < clk_rate first → clk_rate first ≠ rate →
  clk_rate second = rate →
  tap_positions false rate [first; second] = Some (tap first, tap first).
Proof.
  intros H1 H2 H3. unfold tap_positions. cbn [existsb]. rewrite H3, Z.eqb_refl, orb_true_r.
  by rewrite orb_true_l, orb_true_r.
Qed.

(** ** What is held *)

Inductive resource : Type := TheHost | TheClock | TheDevice.
#[export] Instance resource_eq_dec : EqDecision resource.
Proof. solve_decision. Defined.

(** What was acquired and not given back, the last first; [None]: something was given
    back out of order. *)
Definition acquire (r : resource) (v : Z) (g : option (list resource)) : option (list resource) :=
  if v <? 0 then g else cons r <$> g.
Definition release (r : resource) (g : option (list resource)) : option (list resource) :=
  match g with Some (r' :: l) => if decide (r = r') then Some l else None | _ => None end.
Definition holding (g : option (list resource)) (rv : request * Z) : option (list resource) :=
  match rv.1 with
  | Call HostAlloc => acquire TheHost rv.2 g
  | Call HostFree => release TheHost g
  | Call ClkPrepare => acquire TheClock rv.2 g
  | Call ClkUnprepare => release TheClock g
  | Call HostProbe => acquire TheDevice rv.2 g
  | Call HostRemove => release TheDevice g
  | _ => g
  end.

Definition all_held : option (list resource) := Some [TheDevice; TheClock; TheHost].

Section Held.
Context {E : Type} `{Answers request E} `{ProbeMasks}.
Abbreviation K := (st (world request E)).
Abbreviation same := (same holding (Some [])).
Abbreviation hoare := (hoare holding (Some [])).

(** All is held and the result is 0, or nothing and it is an error. *)
Definition all_or_nothing (rs : Z * option setup) (g : option (list resource)) : Prop :=
  (rs.1 = 0 ∧ is_Some rs.2 ∧ g = all_held) ∨ (rs.1 ≠ 0 ∧ rs.2 = None ∧ g = Some []).

Lemma efree_held ret : ret ≠ 0 → hoare (λ g, g = Some [TheHost]) (efree ret) all_or_nothing.
Proof. intros Hr. apply step_tell. intros v. apply step_ret. by right. Qed.
Lemma edisclk_held ret : ret ≠ 0 →
  hoare (λ g, g = Some [TheClock; TheHost]) (edisclk ret) all_or_nothing.
Proof. intros Hr. apply step_tell. intros v. by apply efree_held. Qed.
Lemma eirq_held ret : ret ≠ 0 → hoare (λ g, g = all_held) (eirq ret) all_or_nothing.
Proof. intros Hr. apply step_tell. intros v. by apply edisclk_held. Qed.

Lemma same_request_irqs g n i ret : same g (request_irqs n i ret).
Proof. revert i ret. induction n as [|n IH]; intros i ret; cbn [request_irqs]; same; apply IH. Qed.

(** An acquisition that fails, one that succeeds. *)
Lemma step_acquire {A} c r l (f : Z → K A) Q :
  (∀ v, holding (Some l) (Call c, v) = acquire r v (Some l)) →
  (∀ v, v < 0 → hoare (λ g, g = Some l) (f v) Q) →
  (∀ v, 0 <= v → hoare (λ g, g = Some (r :: l)) (f v) Q) →
  hoare (λ g, g = Some l) (ask (Call c) ≫= f) Q.
Proof.
  intros Hc Hneg Hpos. apply step_ask. intros v. rewrite Hc. unfold acquire.
  destruct (Z.ltb_spec v 0); [by apply Hneg|by apply Hpos].
Qed.

Lemma start_host_held s : hoare (λ g, g = Some [TheClock; TheHost]) (start_host s) all_or_nothing.
Proof.
  unfold start_host. apply (step_acquire _ TheDevice); [done|..]; intros ret Hret.
  { rewrite (proj2 (Z.ltb_lt ret 0)) by done. apply edisclk_held. lia. }
  rewrite (proj2 (Z.ltb_ge ret 0)) by done.
  apply step_same; [same|]. intros n. destruct (Z.ltb_spec n 0); [apply eirq_held; lia|].
  destruct (Z.eqb_spec n 0); [by apply eirq_held|].
  apply step_same; [apply same_request_irqs|]. intros r.
  destruct (Z.eqb_spec r 0) as [-> |Hr]; [|by apply eirq_held]. apply step_ret. left. by split_and!.
Qed.

Lemma clk_enable_held f_max f_min :
  hoare (λ g, g = Some [TheHost]) (renesas_sdhi_clk_enable f_max f_min)
    (λ r g, r.1 = 0 ∧ g = Some [TheClock; TheHost] ∨ r.1 ≠ 0 ∧ g = Some [TheHost]).
Proof.
  unfold renesas_sdhi_clk_enable. apply (step_acquire _ TheClock); [done|..]; intros ret Hret.
  { rewrite (proj2 (Z.ltb_lt ret 0)) by done. apply step_ret. right. cbn. split; [lia|done]. }
  rewrite (proj2 (Z.ltb_ge ret 0)) by done.
  apply step_same; [unfold clk_get_rate; same|]. intros rate.
  destruct (rate =? 0); [apply step_tell; intros v; apply step_ret; by right|].
  apply step_same; [same|]. intros lowest. apply step_same; [|intros _; apply step_ret; by left].
  unfold renesas_sdhi_sdbuf_width, sd_ctrl_read16, sd_ctrl_write16, tell. same.
Qed.

Lemma set_up_host_held pl o q hs :
  hoare (λ g, g = Some [TheHost]) (set_up_host pl o q hs) all_or_nothing.
Proof.
  unfold set_up_host. apply step_same; [unfold pointer; same|]. intros parent.
  apply step_same; [same|]. intros gpio. cbv zeta. apply step_same; [unfold tell; same|]. intros _.
  eapply hoare_bind; [apply clk_enable_held|]. intros [r rs]. apply hoare_pre. cbn [fst snd].
  intros g [[-> ->]|[Hr ->]].
  - apply step_same; [unfold sd_ctrl_read16; same|]. intros ver. apply start_host_held.
  - rewrite (proj2 (Z.eqb_neq r 0)) by done. by apply efree_held.
Qed.

Lemma get_handles_held :
  hoare (λ g, g = Some []) get_handles (λ r g, g = Some [] ∧ ∀ e, r = inl e → e < 0).
Proof.
  unfold get_handles, pointer.
  repeat first
    [ apply step_same; [by same|intros ?]
    | match goal with |- context [if ?x <? 0 then _ else _] => destruct (Z.ltb_spec x 0) end
    | apply step_ret; split; [done|intros ? [= <-]; done] ].
Qed.

Lemma probe_held pl o q :
  hoare (λ g, g = Some []) (renesas_sdhi_probe pl o q) all_or_nothing.
Proof.
  unfold renesas_sdhi_probe, pointer. apply step_same; [same|]. intros res.
  case_match; [apply step_ret; by right|]. apply step_same; [same|]. intros pr.
  case_match; [apply step_ret; by right|].
  eapply hoare_bind; [apply get_handles_held|]. intros [e|hs]; apply hoare_pre; intros g [-> He].
  - apply step_ret. right. cbn. specialize (He e eq_refl). split_and!; [lia|done..].
  - apply (step_acquire _ TheHost); [done|..]; intros host Hh.
    + rewrite (proj2 (Z.ltb_lt host 0)) by done. apply step_ret. right. cbn. split_and!; [lia|done..].
    + rewrite (proj2 (Z.ltb_ge host 0)) by done. apply set_up_host_held.
Qed.

Lemma remove_held : hoare (λ g, g = all_held) renesas_sdhi_remove (λ r g, r = 0 ∧ g = Some []).
Proof. unfold renesas_sdhi_remove. do 3 (apply step_tell; intros ?). by apply step_ret. Qed.

(** C27: Whatever the kernel answers, a probe that fails has given back what it
    acquired, in the reverse order, and one that succeeds holds the host, its clock
    and the registered device; removing the device gives back all of them. *)
Theorem probe_balanced pl o q w r s w' :
  renesas_sdhi_probe pl o q w = ((r, s), w') → trace w = [] →
  (r ≠ 0 ∧ s = None ∧ seen holding (Some []) w' = Some []) ∨
  (r = 0 ∧ is_Some s ∧ seen holding (Some []) w' = all_held ∧
   let '(r', w'') := renesas_sdhi_remove w' in r' = 0 ∧ seen holding (Some []) w'' = Some []).
Proof.
  intros Hrun Hw. destruct (probe_held pl o q w (r, s) w') as [(? & ? & Hg)|(? & ? & ?)];
    [by unfold seen; rewrite Hw|done|right|by left].
  split_and!; [done..|]. destruct (renesas_sdhi_remove w') as [r' w''] eqn:Hrem.
  by apply (remove_held w').
Qed.
End Held.

(** A device with one interrupt that cannot be had, and one whose can. *)
Definition kernel (irq : Z) : Answers request unit := λ r e,
  (match r with
   | Call GetResource | Call Alloc | Call IrqCount | GetRate _ => 1
   | Call (GetIrq _) => irq
   | _ => 0
   end, e).
Definition plain_masks : ProbeMasks := Build_ProbeMasks 1 2 4 8 16 32 64 128 1 2 4 8 16 32 64 128 1.
Definition plain_platform : platform := Platform 0 0x100 None 0 0 0 false 32.
Definition example_probe (irq : Z) : Z * option setup * world request unit :=
  renesas_sdhi_probe (H := kernel irq) (H0 := plain_masks) plain_platform None None
    (World tt []).

(** What the theorem says, of a result. *)
Definition ends_balanced (irq : Z) (run : Z * option setup * world request unit) : Prop :=
  (run.1.1 ≠ 0 ∧ run.1.2 = None ∧ seen holding (Some []) run.2 = Some []) ∨
  (run.1.1 = 0 ∧ is_Some run.1.2 ∧ seen holding (Some []) run.2 = all_held ∧
   let '(r', w') := renesas_sdhi_remove (H := kernel irq) run.2 in
   r' = 0 ∧ seen holding (Some []) w' = Some []).

Lemma probe_balanced_witness :
  ((example_probe 7).1.1 = 0 ∧ (example_probe (- ENXIO)).1.1 = - ENXIO) ∧
  ends_balanced 7 (example_probe 7) ∧ ends_balanced (- ENXIO) (example_probe (- ENXIO)).
Proof.
  split; [by vm_compute|].
  split; unfold example_probe;
    match goal with |- ends_balanced ?irq ?run =>
      pose proof (probe_balanced (H := kernel irq) (H0 := plain_masks) plain_platform None None
        (World tt [])) as Hb; generalize dependent run
    end; intros [[r s] w'] Hb; exact (Hb r s w' eq_refl eq_refl).
Defined.
