(* ===== verification/CpuProbe.v ===== *)
(** * Probing the processor ([src/kernel/overlay/arch/sh/kernel/cpu/sh4/probe.c])

    The kernel finds out what SH-4 it runs on: the type, the features and the shape
    of the caches, from three registers.  The file adds the number that the
    dictionary's chip reports.  The caches come out well formed for every value of
    the registers, and the addition changes nothing for any other chip. *)

From S2P Require Import Prelude.

(** ** Data *)

Inductive cpu_type : Type :=
| CPU_SH7750 | CPU_SH7750S | CPU_SH7751 | CPU_SH7770 | CPU_SH7781 | CPU_SH7763 | CPU_SH7780
| CPU_SH7343 | CPU_SH7785 | CPU_SH7786 | CPU_SH7723 | CPU_SH7366 | CPU_SH7722 | CPU_SH7724
| CPU_SH7757 | CPU_SH7372 | CPU_SH7734 | CPU_SHX3 | CPU_SH4_501 | CPU_SH4_202 | CPU_SH7750R
| CPU_SH7751R | CPU_SH7760 | CPU_NONE.
Inductive cpu_family : Type := CPU_FAMILY_SH4 | CPU_FAMILY_SH4A | CPU_FAMILY_SH4AL_DSP | FAMILY_NONE.

Record cache_info := CacheInfo {
  ways : Z; sets : Z; linesz : Z; way_incr : Z; entry_shift : Z; entry_mask : Z; way_size : Z;
}.
Record sh_cpuinfo := CpuInfo {
  type : cpu_type; family : cpu_family; flags : Z; cut_major : Z; cut_minor : Z;
  icache : cache_info; dcache : cache_info; scache : cache_info;
}.

(** The flags and the size of a line, of the headers of the kernel. *)
Class CpuFeatures := {
  CPU_HAS_FPU : Z; CPU_HAS_P2_FLUSH_BUG : Z; CPU_HAS_DSP : Z; CPU_HAS_PERF_COUNTER : Z;
  CPU_HAS_PTEA : Z; CPU_HAS_LLSC : Z; CPU_HAS_L2_CACHE : Z; CPU_HAS_PTEAEX : Z;
  L1_CACHE_BYTES : Z;
}.

Section Probe.
Context `{CpuFeatures}.
Implicit Types (c : sh_cpuinfo) (k : cache_info).

Definition set_type (t : cpu_type) c : sh_cpuinfo :=
  CpuInfo t (family c) (flags c) (cut_major c) (cut_minor c) (icache c) (dcache c) (scache c).
Definition set_family (f : cpu_family) c : sh_cpuinfo :=
  CpuInfo (type c) f (flags c) (cut_major c) (cut_minor c) (icache c) (dcache c) (scache c).
Definition add_flags (f : Z) c : sh_cpuinfo :=
  CpuInfo (type c) (family c) (Z.lor (flags c) f) (cut_major c) (cut_minor c) (icache c) (dcache c) (scache c).
Definition clear_flags (f : Z) c : sh_cpuinfo :=
  CpuInfo (type c) (family c) (Z.land (flags c) (Z.lnot f)) (cut_major c) (cut_minor c) (icache c)
    (dcache c) (scache c).
Definition set_cut (major minor : Z) c : sh_cpuinfo :=
  CpuInfo (type c) (family c) (flags c) major minor (icache c) (dcache c) (scache c).
Definition set_icache (k : cache_info) c : sh_cpuinfo :=
  CpuInfo (type c) (family c) (flags c) (cut_major c) (cut_minor c) k (dcache c) (scache c).
Definition set_dcache (k : cache_info) c : sh_cpuinfo :=
  CpuInfo (type c) (family c) (flags c) (cut_major c) (cut_minor c) (icache c) k (scache c).
Definition set_scache (k : cache_info) c : sh_cpuinfo :=
  CpuInfo (type c) (family c) (flags c) (cut_major c) (cut_minor c) (icache c) (dcache c) k.

Definition set_ways (n : Z) k : cache_info :=
  CacheInfo n (sets k) (linesz k) (way_incr k) (entry_shift k) (entry_mask k) (way_size k).
Definition set_size (size : Z) k : cache_info :=
  CacheInfo (ways k) (Z.shiftr size 6) (linesz k) (Z.shiftr size 1) (entry_shift k) (entry_mask k)
    (way_size k).
Definition both_ways (n : Z) c : sh_cpuinfo :=
  set_dcache (set_ways n (dcache c)) (set_icache (set_ways n (icache c)) c).

(** ** The steps of [cpu_probe] *)

Definition sizes (i : Z) : Z :=
  if i =? 1 then Z.shiftl 1 12 else if i =? 2 then Z.shiftl 1 13 else if i =? 4 then Z.shiftl 1 14
  else if i =? 8 then Z.shiftl 1 15 else if i =? 9 then Z.shiftl 1 16 else 0.

(** The defaults; [cut_major] and [cut_minor] are -1. *)
Definition defaults c : sh_cpuinfo :=
  let default_cache sets incr k :=
    CacheInfo 1 sets L1_CACHE_BYTES incr 5 (entry_mask k) (way_size k) in
  set_cut (-1) (-1)
    (set_dcache (default_cache 512 (Z.shiftl 1 14) (dcache c))
      (set_icache (default_cache 256 (Z.shiftl 1 13) (icache c)) c)).

Definition generic (pvr cvr : Z) c : sh_cpuinfo :=
  if Z.land (Z.shiftr pvr 16) 0xff =? 0x10 then
    let c := set_family CPU_FAMILY_SH4A c in
    let c := if Z.land cvr 0x10000000 =? 0
             then set_family CPU_FAMILY_SH4AL_DSP (add_flags CPU_HAS_DSP c) else c in
    let c := add_flags (Z.lor CPU_HAS_LLSC CPU_HAS_PERF_COUNTER) c in
    both_ways 4 (set_cut (Z.land pvr 0x7f) (cut_minor c) c)
  else set_family CPU_FAMILY_SH4 (add_flags (Z.lor CPU_HAS_PTEA CPU_HAS_FPU) c).

Definition probe_fpu (cvr : Z) c : sh_cpuinfo :=
  if Z.land cvr 0x20000000 =? 0 then c else add_flags CPU_HAS_FPU c.

Definition is_in (v : Z) (l : list Z) : bool := existsb (Z.eqb v) l.

(** The [switch] on the version; [exword]: the kernel is built for the dictionary. *)
Definition subtype (exword : bool) (pvr prr : Z) c : sh_cpuinfo :=
  if pvr =? 0x205 then
    add_flags (Z.lor CPU_HAS_P2_FLUSH_BUG CPU_HAS_PERF_COUNTER) (set_type CPU_SH7750 c)
  else if pvr =? 0x206 then
    add_flags (Z.lor CPU_HAS_P2_FLUSH_BUG CPU_HAS_PERF_COUNTER) (set_type CPU_SH7750S c)
  else if pvr =? 0x1100 then set_type CPU_SH7751 c
  else if is_in pvr [0x2001; 0x2004] then set_type CPU_SH7770 c
  else if is_in pvr [0x2006; 0x200a] then
    set_type (if prr =? 0x61 then CPU_SH7781 else if prr =? 0xa1 then CPU_SH7763 else CPU_SH7780) c
  else if is_in pvr [0x3000; 0x3003; 0x3009] then set_type CPU_SH7343 c
  else if is_in pvr [0x3004; 0x3007] then set_type CPU_SH7785 c
  else if is_in pvr [0x4004; 0x4005] then
    add_flags (Z.lor CPU_HAS_PTEAEX CPU_HAS_L2_CACHE) (set_type CPU_SH7786 c)
  else if pvr =? 0x3008 then
    if is_in prr [0x50; 0x51] then add_flags CPU_HAS_L2_CACHE (set_type CPU_SH7723 c)
    else if prr =? 0x70 then set_type CPU_SH7366 c
    else if is_in prr [0xa0; 0xa1] then set_type CPU_SH7722 c
    else c
  else if pvr =? 0x300b then
    if (exword && (prr =? 0xc0)) || (prr =? 0x20) then add_flags CPU_HAS_L2_CACHE (set_type CPU_SH7724 c)
    else if is_in prr [0x10; 0x11] then set_type CPU_SH7757 c
    else if is_in prr [0xd0; 0x40] then set_type CPU_SH7372 c
    else if prr =? 0xe0 then set_type CPU_SH7734 c
    else c
  else if is_in pvr [0x4000; 0x4001] then set_type CPU_SHX3 c
  else if pvr =? 0x700 then both_ways 2 (clear_flags CPU_HAS_FPU (set_type CPU_SH4_501 c))
  else if pvr =? 0x600 then both_ways 2 (set_type CPU_SH4_202 c)
  else if (0x500 <=? pvr) && (pvr <=? 0x501) then
    both_ways 2
      (if prr =? 0x10 then set_type CPU_SH7750R c
       else if prr =? 0x11 then set_type CPU_SH7751R c
       else if (0x50 <=? prr) && (prr <=? 0x5f) then set_type CPU_SH7760 c else c)
  else c.

Definition first_level (cvr : Z) c : sh_cpuinfo :=
  let c := if ways (icache c) >? 1
           then set_icache (set_size (sizes (Z.land (Z.shiftr cvr 20) 0xf)) (icache c)) c else c in
  if ways (dcache c) >? 1
  then set_dcache (set_size (sizes (Z.land (Z.shiftr cvr 16) 0xf)) (dcache c)) c else c.

Definition l2_cache (size : Z) : cache_info :=
  let incr := Z.shiftl 1 16 in
  let sets := size / (L1_CACHE_BYTES * 4) in
  CacheInfo 4 sets L1_CACHE_BYTES incr 5 (incr - L1_CACHE_BYTES) (sets * L1_CACHE_BYTES).

Definition second_level (cvr : Z) c : sh_cpuinfo :=
  if Z.land (flags c) CPU_HAS_L2_CACHE =? 0 then c
  else if Z.land cvr 0xf =? 0 then clear_flags CPU_HAS_L2_CACHE c
  else
    let cvr := Z.lxor cvr 0xf in
    set_scache (l2_cache (Z.shiftl (Z.land cvr 0xf) 17)) c.

(** [CCN_PVR], [CCN_PRR], [CCN_CVR]: what the registers hold. *)
Definition cpu_probe (exword : bool) (CCN_PVR CCN_PRR CCN_CVR : Z) c : sh_cpuinfo :=
  let pvr := Z.land (Z.shiftr CCN_PVR 8) 0xffffff in
  let prr := Z.land (Z.shiftr CCN_PRR 4) 0xff in
  let c := probe_fpu CCN_CVR (generic pvr CCN_CVR (defaults c)) in
  second_level CCN_CVR (first_level CCN_CVR (subtype exword (Z.land pvr 0xffff) prr c)).
End Probe.

(** ** What comes out *)

(** A line has 32 bytes, and the flag of the second level is a bit of its own. *)
Class CpuFeaturesOk `{CpuFeatures} := {
  line_bytes : L1_CACHE_BYTES = 32;
  l2_flag : CPU_HAS_L2_CACHE ≠ 0;
  l2_alone : Forall (λ f, Z.land f CPU_HAS_L2_CACHE = 0)
    [CPU_HAS_FPU; CPU_HAS_P2_FLUSH_BUG; CPU_HAS_DSP; CPU_HAS_PERF_COUNTER; CPU_HAS_PTEA;
     CPU_HAS_LLSC; CPU_HAS_PTEAEX];
}.

(** The sets of a way fill it, line by line. *)
Definition shaped (k : cache_info) : Prop :=
  sets k * linesz k = way_incr k ∧ linesz k = 2 ^ entry_shift k ∧ ways k ∈ [1; 2; 4].

Section Probed.
Context `{CpuFeaturesOk}.
Implicit Types (c : sh_cpuinfo).

Definition both_shaped c : Prop := shaped (icache c) ∧ shaped (dcache c).

Lemma shaped_ways n k : n ∈ [1; 2; 4] → shaped k → shaped (set_ways n k).
Proof. intros Hn (? & ? & _). by split_and!. Qed.

Lemma shaped_size i k : shaped k → linesz k = 32 → shaped (set_size (sizes i) k).
Proof.
  intros (_ & ? & ?) Hl. split_and!; [|done..]. cbn. rewrite Hl. unfold sizes.
  by repeat case_match.
Qed.

(** The first level, of which every step keeps the size of a line. *)
Definition first_shaped c : Prop :=
  both_shaped c ∧ linesz (icache c) = 32 ∧ linesz (dcache c) = 32.

Lemma defaults_shaped c : first_shaped (defaults c).
Proof.
  unfold first_shaped, both_shaped, shaped. cbn. rewrite line_bytes. split_and!; done || by left.
Qed.
Lemma both_ways_shaped n c : n ∈ [1; 2; 4] → first_shaped c → first_shaped (both_ways n c).
Proof. intros Hn ((? & ?) & ? & ?). unfold first_shaped, both_shaped. split_and!; cbn [icache dcache both_ways set_icache set_dcache linesz set_ways];
  try done; by apply shaped_ways. Qed.
Lemma generic_shaped pvr cvr c : first_shaped c → first_shaped (generic pvr cvr c).
Proof.
  intros Hc. unfold generic. case_match; [|done]. apply both_ways_shaped; [set_solver|]. by case_match.
Qed.
Lemma subtype_shaped exword pvr prr c : first_shaped c → first_shaped (subtype exword pvr prr c).
Proof.
  intros Hc. unfold subtype.
  repeat first [done | apply both_ways_shaped; [set_solver|] | case_match].
Qed.
Lemma first_level_shaped cvr c : first_shaped c → both_shaped (first_level cvr c).
Proof.
  intros ((Hi & Hd) & Li & Ld). unfold first_level.
  repeat case_match; split; cbn; try done; by apply shaped_size.
Qed.

(** For every value of the registers the two caches of the first level are well formed. *)
Lemma caches_shaped exword pvr prr cvr c : both_shaped (cpu_probe exword pvr prr cvr c).
Proof.
  unfold cpu_probe. set (p := first_level _ _). assert (both_shaped p) as Hp.
  { apply first_level_shaped, subtype_shaped. unfold probe_fpu.
    case_match; apply generic_shaped, defaults_shaped. }
  unfold second_level. by repeat case_match.
Qed.

(** The second level is there exactly where the flag stays, and then its ways have the
    size that the register says. *)
Lemma second_level_shaped cvr c : scache (second_level cvr c) ≠ scache c →
  let k := scache (second_level cvr c) in
  Z.land cvr 0xf ≠ 0 ∧ sets k * linesz k = way_size k ∧ linesz k = 2 ^ entry_shift k ∧
  ways k * way_size k = (15 - Z.land cvr 0xf) * 2 ^ 17.
Proof.
  unfold second_level. repeat (case_match; [done|]). cbn. rewrite line_bytes. intros _. to_prop.
  split; [done|]. split; [done|]. split; [done|].
  assert (Z.land (Z.lxor cvr 15) 15 = 15 - Z.land cvr 15) as ->.
  { change 15 with (Z.ones 4). rewrite !Z.land_ones by lia.
    assert (Z.lxor cvr (Z.ones 4) mod 2 ^ 4 = Z.lxor (cvr mod 2 ^ 4) (Z.ones 4)) as ->.
    { rewrite <- !Z.land_ones by lia. apply Z.bits_inj. intros i.
      rewrite !Z.land_spec, !Z.lxor_spec, Z.land_spec.
      destruct (Z.testbit (Z.ones 4) i); by rewrite ?andb_true_r, ?andb_false_r. }
    pose proof (Z.mod_pos_bound cvr (2 ^ 4) ltac:(lia)) as Hm.
    assert (cvr mod 2 ^ 4 ∈ seqZ 0 16) as Hin by (apply elem_of_seqZ; lia).
    revert Hin. generalize (cvr mod 2 ^ 4). clear.
    apply Forall_forall. by repeat constructor. }
  rewrite Z.shiftl_mul_pow2 by lia. replace (32 * 4) with (2 ^ 7) by done.
  replace ((15 - Z.land cvr 15) * 2 ^ 17) with ((15 - Z.land cvr 15) * 2 ^ 10 * 2 ^ 7) by lia.
  rewrite Z.div_mul by lia. lia.
Qed.

(** The chip of the dictionary is probed as an SH7724 is, and every other chip as in
    a kernel without the addition. *)
Lemma probed_as_sh7724 pvr prr cvr c :
  cpu_probe true pvr prr cvr c =
  if (Z.land (Z.land (Z.shiftr pvr 8) 0xffffff) 0xffff =? 0x300b) && (Z.land (Z.shiftr prr 4) 0xff =? 0xc0)
  then cpu_probe false pvr 0x200 cvr c else cpu_probe false pvr prr cvr c.
Proof.
  unfold cpu_probe. set (v := Z.land (Z.land _ _) _). set (r := Z.land (Z.shiftr prr 4) 0xff).
  generalize (probe_fpu cvr (generic (Z.land (Z.shiftr pvr 8) 0xffffff) cvr (defaults c))). intros d.
  destruct (Z.eqb_spec v 0x300b) as [Hv|Hv]; [rewrite Hv|].
  - destruct (Z.eqb_spec r 0xc0) as [Hr|Hr]; [by rewrite Hr|].
    unfold subtype. cbn [andb orb]. by rewrite (proj2 (Z.eqb_neq r 0xc0)).
  - cbn [andb]. unfold subtype. by rewrite (proj2 (Z.eqb_neq v 0x300b)).
Qed.
End Probed.
