(* ===== verification/Sh7724.v ===== *)
(** * The processor's devices and interrupts
    ([src/kernel/overlay/arch/sh/kernel/cpu/sh4a/setup-sh7724.c])

    The tables of the SH7724 that the kernel is given: the DMA channels and slaves,
    the on-chip devices with their registers and interrupts, and the tables of the
    interrupt controller.  The lemmas are about how the tables fit each other.  An
    interrupt is written as its event code, the argument of [evt2irq] and
    [INTC_VECT].  The parameters of the serial ports and the constants of the DMA
    headers are left out, and the code for standby, which is compiled out for the
    dictionary. *)

From Stdlib Require Import String.
From S2P Require Import Prelude Text.

(** ** DMA *)

Inductive dma_slave : Type :=
| SHDMA_SLAVE_SCIF0_TX | SHDMA_SLAVE_SCIF0_RX | SHDMA_SLAVE_SCIF1_TX | SHDMA_SLAVE_SCIF1_RX
| SHDMA_SLAVE_SCIF2_TX | SHDMA_SLAVE_SCIF2_RX | SHDMA_SLAVE_SCIF3_TX | SHDMA_SLAVE_SCIF3_RX
| SHDMA_SLAVE_SCIF4_TX | SHDMA_SLAVE_SCIF4_RX | SHDMA_SLAVE_SCIF5_TX | SHDMA_SLAVE_SCIF5_RX
| SHDMA_SLAVE_USB0D0_TX | SHDMA_SLAVE_USB0D0_RX | SHDMA_SLAVE_USB0D1_TX | SHDMA_SLAVE_USB0D1_RX
| SHDMA_SLAVE_USB1D0_TX | SHDMA_SLAVE_USB1D0_RX | SHDMA_SLAVE_USB1D1_TX | SHDMA_SLAVE_USB1D1_RX
| SHDMA_SLAVE_SDHI0_TX | SHDMA_SLAVE_SDHI0_RX | SHDMA_SLAVE_SDHI1_TX | SHDMA_SLAVE_SDHI1_RX.

Inductive direction : Type := ToDevice | FromDevice.

(** [addr] of the device's register, the direction and the width of [chcr]. *)
Record sh_dmae_slave_config := SlaveConfig {
  slave_id : dma_slave; addr : Z; direction_of : direction; size : Z; mid_rid : Z;
}.
Record sh_dmae_channel := DmaChannel { offset : Z; dmars : Z; dmars_bit : Z }.

Definition sh7724_dmae_slaves : list sh_dmae_slave_config := [
  SlaveConfig SHDMA_SLAVE_SCIF0_TX 0xffe0000c ToDevice 8 0x21;
  SlaveConfig SHDMA_SLAVE_SCIF0_RX 0xffe00014 FromDevice 8 0x22;
  SlaveConfig SHDMA_SLAVE_SCIF1_TX 0xffe1000c ToDevice 8 0x25;
  SlaveConfig SHDMA_SLAVE_SCIF1_RX 0xffe10014 FromDevice 8 0x26;
  SlaveConfig SHDMA_SLAVE_SCIF2_TX 0xffe2000c ToDevice 8 0x29;
  SlaveConfig SHDMA_SLAVE_SCIF2_RX 0xffe20014 FromDevice 8 0x2a;
  SlaveConfig SHDMA_SLAVE_SCIF3_TX 0xa4e30020 ToDevice 8 0x2d;
  SlaveConfig SHDMA_SLAVE_SCIF3_RX 0xa4e30024 FromDevice 8 0x2e;
  SlaveConfig SHDMA_SLAVE_SCIF4_TX 0xa4e40020 ToDevice 8 0x31;
  SlaveConfig SHDMA_SLAVE_SCIF4_RX 0xa4e40024 FromDevice 8 0x32;
  SlaveConfig SHDMA_SLAVE_SCIF5_TX 0xa4e50020 ToDevice 8 0x35;
  SlaveConfig SHDMA_SLAVE_SCIF5_RX 0xa4e50024 FromDevice 8 0x36;
  SlaveConfig SHDMA_SLAVE_USB0D0_TX 0xa4d80100 ToDevice 32 0x73;
  SlaveConfig SHDMA_SLAVE_USB0D0_RX 0xa4d80100 FromDevice 32 0x73;
  SlaveConfig SHDMA_SLAVE_USB0D1_TX 0xa4d80120 ToDevice 32 0x77;
  SlaveConfig SHDMA_SLAVE_USB0D1_RX 0xa4d80120 FromDevice 32 0x77;
  SlaveConfig SHDMA_SLAVE_USB1D0_TX 0xa4d90100 ToDevice 32 0xab;
  SlaveConfig SHDMA_SLAVE_USB1D0_RX 0xa4d90100 FromDevice 32 0xab;
  SlaveConfig SHDMA_SLAVE_USB1D1_TX 0xa4d90120 ToDevice 32 0xaf;
  SlaveConfig SHDMA_SLAVE_USB1D1_RX 0xa4d90120 FromDevice 32 0xaf;
  SlaveConfig SHDMA_SLAVE_SDHI0_TX 0x04ce0030 ToDevice 16 0xc1;
  SlaveConfig SHDMA_SLAVE_SDHI0_RX 0x04ce0030 FromDevice 16 0xc2;
  SlaveConfig SHDMA_SLAVE_SDHI1_TX 0x04cf0030 ToDevice 16 0xc9;
  SlaveConfig SHDMA_SLAVE_SDHI1_RX 0x04cf0030 FromDevice 16 0xca].

Definition sh7724_dmae_channels : list sh_dmae_channel := [
  DmaChannel 0 0 0;
  DmaChannel 0x10 0 8;
  DmaChannel 0x20 4 0;
  DmaChannel 0x30 4 8;
  DmaChannel 0x50 8 0;
  DmaChannel 0x60 8 8].

(** ** Devices *)

(** The last interrupt may be left out; [Placeholder] is empty. *)
Inductive resource : Type :=
| Mem (first last : Z) | Io (first last : Z) | Irq (first : Z) (last : option Z) | Placeholder.
Definition res_mem (start size : Z) : resource := Mem start (start + size - 1).
Definition res_irq (event : Z) : resource := Irq event (Some event).

Inductive platform_data : Type :=
| NoData | Dma | SerialPort | Timer (channels_mask : Z) | Uio (name : list Z) (irq : Z).
Record platform_device := PlatformDevice {
  name : list Z; id : Z; resources : list resource; data : platform_data;
}.

Definition sh7724_dmae0_resources : list resource :=
  [Mem 0xfe008020 0xfe00808f; Mem 0xfe009000 0xfe00900b; Irq 0xbc0 (Some 0xbc0);
  Irq 0x800 (Some 0x860); Irq 0xb80 (Some 0xba0)].
Definition sh7724_dmae1_resources : list resource :=
  [Mem 0xfdc08020 0xfdc0808f; Mem 0xfdc09000 0xfdc0900b; Irq 0xb40 (Some 0xb40);
  Irq 0x700 (Some 0x760); Irq 0xb00 (Some 0xb20)].
Definition scif0_resources : list resource :=
  [res_mem 0xffe00000 0x100; res_irq 0xc00].
Definition scif1_resources : list resource :=
  [res_mem 0xffe10000 0x100; res_irq 0xc20].
Definition scif2_resources : list resource :=
  [res_mem 0xffe20000 0x100; res_irq 0xc40].
Definition scif3_resources : list resource :=
  [res_mem 0xa4e30000 0x100; res_irq 0x900].
Definition scif4_resources : list resource :=
  [res_mem 0xa4e40000 0x100; res_irq 0xd00].
Definition scif5_resources : list resource :=
  [res_mem 0xa4e50000 0x100; res_irq 0xfa0].
Definition rtc_resources : list resource :=
  [Io 0xa465fec0 (0xa465fec0 + 0x58 - 1); Irq 0xaa0 None; Irq 0xac0 None; Irq 0xa80 None].
Definition iic0_resources : list resource :=
  [Mem 0x04470000 (0x04470018 - 1); Irq 0xe00 (Some 0xe60)].
Definition iic1_resources : list resource :=
  [Mem 0x04750000 (0x04750018 - 1); Irq 0xd80 (Some 0xde0)].
Definition vpu_resources : list resource :=
  [Mem 0xfe900000 0xfe902807; Placeholder].
Definition veu0_resources : list resource :=
  [Mem 0xfe920000 0xfe9200cb; Placeholder].
Definition veu1_resources : list resource :=
  [Mem 0xfe924000 0xfe9240cb; Placeholder].
Definition beu0_resources : list resource :=
  [Mem 0xfe930000 0xfe933400; Placeholder].
Definition beu1_resources : list resource :=
  [Mem 0xfe940000 0xfe943400; Placeholder].
Definition cmt_resources : list resource :=
  [res_mem 0x044a0000 0x70; res_irq 0xf00].
Definition tmu0_resources : list resource :=
  [res_mem 0xffd80000 0x2c; res_irq 0x400; res_irq 0x420; res_irq 0x440].
Definition tmu1_resources : list resource :=
  [res_mem 0xffd90000 0x2c; res_irq 0x920; res_irq 0x940; res_irq 0x960].
Definition jpu_resources : list resource :=
  [Mem 0xfe980000 0xfe9902d3; Placeholder].
Definition spu0_resources : list resource :=
  [Mem 0xfe200000 0xfe2fffff; Placeholder].
Definition spu1_resources : list resource :=
  [Mem 0xfe300000 0xfe3fffff; Placeholder].

Definition dma0_device : platform_device :=
  PlatformDevice (str "sh-dma-engine") 0 sh7724_dmae0_resources Dma.
Definition dma1_device : platform_device :=
  PlatformDevice (str "sh-dma-engine") 1 sh7724_dmae1_resources Dma.
Definition scif0_device : platform_device :=
  PlatformDevice (str "sh-sci") 0 scif0_resources SerialPort.
Definition scif1_device : platform_device :=
  PlatformDevice (str "sh-sci") 1 scif1_resources SerialPort.
Definition scif2_device : platform_device :=
  PlatformDevice (str "sh-sci") 2 scif2_resources SerialPort.
Definition scif3_device : platform_device :=
  PlatformDevice (str "sh-sci") 3 scif3_resources SerialPort.
Definition scif4_device : platform_device :=
  PlatformDevice (str "sh-sci") 4 scif4_resources SerialPort.
Definition scif5_device : platform_device :=
  PlatformDevice (str "sh-sci") 5 scif5_resources SerialPort.
Definition rtc_device : platform_device :=
  PlatformDevice (str "sh-rtc") (-1) rtc_resources NoData.
Definition iic0_device : platform_device :=
  PlatformDevice (str "i2c-sh_mobile") 0 iic0_resources NoData.
Definition iic1_device : platform_device :=
  PlatformDevice (str "i2c-sh_mobile") 1 iic1_resources NoData.
Definition vpu_device : platform_device :=
  PlatformDevice (str "uio_pdrv_genirq") 0 vpu_resources (Uio (str "VPU5F") 0x980).
Definition veu0_device : platform_device :=
  PlatformDevice (str "uio_pdrv_genirq") 1 veu0_resources (Uio (str "VEU3F0") 0xc60).
Definition veu1_device : platform_device :=
  PlatformDevice (str "uio_pdrv_genirq") 2 veu1_resources (Uio (str "VEU3F1") 0x8c0).
Definition beu0_device : platform_device :=
  PlatformDevice (str "uio_pdrv_genirq") 6 beu0_resources (Uio (str "BEU0") 0x8a0).
Definition beu1_device : platform_device :=
  PlatformDevice (str "uio_pdrv_genirq") 7 beu1_resources (Uio (str "BEU1") 0xa00).
Definition cmt_device : platform_device :=
  PlatformDevice (str "sh-cmt-32") 0 cmt_resources (Timer 0x20).
Definition tmu0_device : platform_device :=
  PlatformDevice (str "sh-tmu") 0 tmu0_resources (Timer 7).
Definition tmu1_device : platform_device :=
  PlatformDevice (str "sh-tmu") 1 tmu1_resources (Timer 7).
Definition jpu_device : platform_device :=
  PlatformDevice (str "uio_pdrv_genirq") 3 jpu_resources (Uio (str "JPU") 0x560).
Definition spu0_device : platform_device :=
  PlatformDevice (str "uio_pdrv_genirq") 4 spu0_resources (Uio (str "SPU2DSP0") 0xcc0).
Definition spu1_device : platform_device :=
  PlatformDevice (str "uio_pdrv_genirq") 5 spu1_resources (Uio (str "SPU2DSP1") 0xce0).

Definition sh7724_devices : list platform_device :=
  [scif0_device; scif1_device; scif2_device; scif3_device; scif4_device; scif5_device;
  cmt_device; tmu0_device; tmu1_device; dma0_device; dma1_device; rtc_device; iic0_device;
  iic1_device; vpu_device; veu0_device; veu1_device; beu0_device; beu1_device; jpu_device;
  spu0_device; spu1_device].

Definition sh7724_early_devices : list platform_device :=
  [scif0_device; scif1_device; scif2_device; scif3_device; scif4_device; scif5_device;
  cmt_device; tmu0_device; tmu1_device].

(** The memory that is set aside for a device, in order; then the devices are added. *)
Definition sh7724_devices_setup : list (platform_device * list Z * Z) :=
  [(vpu_device, str "vpu", Z.shiftl 2 20);
   (veu0_device, str "veu0", Z.shiftl 2 20);
   (veu1_device, str "veu1", Z.shiftl 2 20);
   (jpu_device, str "jpu", Z.shiftl 2 20);
   (spu0_device, str "spu0", Z.shiftl 2 20);
   (spu1_device, str "spu1", Z.shiftl 2 20)].

(** *** The second level of the cache *)

Definition RAMCR_CACHE_L2FC : Z := 0x0002.
Definition RAMCR_CACHE_L2E : Z := 0x0001.
Definition L2_CACHE_ENABLE : Z := Z.lor RAMCR_CACHE_L2E RAMCR_CACHE_L2FC.

(** ** Interrupts *)

Inductive intc_id : Type :=
| UNUSED | ENABLED | DISABLED | IRQ0 | IRQ1 | IRQ2 | IRQ3 | IRQ4 | IRQ5 | IRQ6 | IRQ7 | HUDI
| DMAC1A_DEI0 | DMAC1A_DEI1 | DMAC1A_DEI2 | DMAC1A_DEI3 | _2DG_TRI | _2DG_INI | _2DG_CEI
| DMAC0A_DEI0 | DMAC0A_DEI1 | DMAC0A_DEI2 | DMAC0A_DEI3 | VIO_CEU0 | VIO_BEU0 | VIO_VEU1
| VIO_VOU | SCIFA3 | VPU | TPU | CEU1 | BEU1 | USB0 | USB1 | ATAPI | RTC_ATI | RTC_PRI
| RTC_CUI | DMAC1B_DEI4 | DMAC1B_DEI5 | DMAC1B_DADERR | DMAC0B_DEI4 | DMAC0B_DEI5
| DMAC0B_DADERR | KEYSC | SCIF_SCIF0 | SCIF_SCIF1 | SCIF_SCIF2 | VEU0 | MSIOF_MSIOFI0
| MSIOF_MSIOFI1 | SPU_SPUI0 | SPU_SPUI1 | SCIFA4 | ICB | ETHI | I2C1_ALI | I2C1_TACKI
| I2C1_WAITI | I2C1_DTEI | I2C0_ALI | I2C0_TACKI | I2C0_WAITI | I2C0_DTEI | CMT | TSIF | FSI
| SCIFA5 | TMU0_TUNI0 | TMU0_TUNI1 | TMU0_TUNI2 | IRDA | JPU | _2DDMAC | MMC_MMC2I | MMC_MMC3I
| LCDC | TMU1_TUNI0 | TMU1_TUNI1 | TMU1_TUNI2 | DMAC1A | _2DG | DMAC0A | VIO | USB | RTC
| DMAC1B | DMAC0B | I2C0 | I2C1 | SDHI0 | SDHI1 | SPU | MMCIF.

Record intc_vect := IntcVect { enum_id : intc_id; vect : Z }.
Record intc_group := IntcGroup { group_id : intc_id; members : list intc_id }.
Record intc_mask_reg := IntcMaskReg { set_reg : Z; clr_reg : Z; reg_width : Z; enum_ids : list intc_id }.
Record intc_prio_reg := IntcPrioReg {
  prio_set : Z; prio_clr : Z; prio_width : Z; field_width : Z; prio_ids : list intc_id;
}.
Record intc_sense_reg := IntcSenseReg {
  sense_reg : Z; sense_width : Z; sense_field : Z; sense_ids : list intc_id;
}.

Definition vectors : list intc_vect := [
  IntcVect IRQ0 0x600; IntcVect IRQ1 0x620; IntcVect IRQ2 0x640; IntcVect IRQ3 0x660;
  IntcVect IRQ4 0x680; IntcVect IRQ5 0x6a0; IntcVect IRQ6 0x6c0; IntcVect IRQ7 0x6e0;
  IntcVect DMAC1A_DEI0 0x700; IntcVect DMAC1A_DEI1 0x720; IntcVect DMAC1A_DEI2 0x740;
  IntcVect DMAC1A_DEI3 0x760; IntcVect _2DG_TRI 0x780; IntcVect _2DG_INI 0x7a0;
  IntcVect _2DG_CEI 0x7c0; IntcVect DMAC0A_DEI0 0x800; IntcVect DMAC0A_DEI1 0x820;
  IntcVect DMAC0A_DEI2 0x840; IntcVect DMAC0A_DEI3 0x860; IntcVect VIO_CEU0 0x880;
  IntcVect VIO_BEU0 0x8a0; IntcVect VIO_VEU1 0x8c0; IntcVect VIO_VOU 0x8e0;
  IntcVect SCIFA3 0x900; IntcVect VPU 0x980; IntcVect TPU 0x9a0; IntcVect CEU1 0x9e0;
  IntcVect BEU1 0xa00; IntcVect USB0 0xa20; IntcVect USB1 0xa40; IntcVect ATAPI 0xa60;
  IntcVect RTC_ATI 0xa80; IntcVect RTC_PRI 0xaa0; IntcVect RTC_CUI 0xac0;
  IntcVect DMAC1B_DEI4 0xb00; IntcVect DMAC1B_DEI5 0xb20; IntcVect DMAC1B_DADERR 0xb40;
  IntcVect DMAC0B_DEI4 0xb80; IntcVect DMAC0B_DEI5 0xba0; IntcVect DMAC0B_DADERR 0xbc0;
  IntcVect KEYSC 0xbe0; IntcVect SCIF_SCIF0 0xc00; IntcVect SCIF_SCIF1 0xc20;
  IntcVect SCIF_SCIF2 0xc40; IntcVect VEU0 0xc60; IntcVect MSIOF_MSIOFI0 0xc80;
  IntcVect MSIOF_MSIOFI1 0xca0; IntcVect SPU_SPUI0 0xcc0; IntcVect SPU_SPUI1 0xce0;
  IntcVect SCIFA4 0xd00; IntcVect ICB 0xd20; IntcVect ETHI 0xd60; IntcVect I2C1_ALI 0xd80;
  IntcVect I2C1_TACKI 0xda0; IntcVect I2C1_WAITI 0xdc0; IntcVect I2C1_DTEI 0xde0;
  IntcVect I2C0_ALI 0xe00; IntcVect I2C0_TACKI 0xe20; IntcVect I2C0_WAITI 0xe40;
  IntcVect I2C0_DTEI 0xe60; IntcVect SDHI0 0xe80; IntcVect SDHI0 0xea0; IntcVect SDHI0 0xec0;
  IntcVect SDHI0 0xee0; IntcVect CMT 0xf00; IntcVect TSIF 0xf20; IntcVect FSI 0xf80;
  IntcVect SCIFA5 0xfa0; IntcVect TMU0_TUNI0 0x400; IntcVect TMU0_TUNI1 0x420;
  IntcVect TMU0_TUNI2 0x440; IntcVect IRDA 0x480; IntcVect SDHI1 0x4e0; IntcVect SDHI1 0x500;
  IntcVect SDHI1 0x520; IntcVect JPU 0x560; IntcVect _2DDMAC 0x4a0; IntcVect MMC_MMC2I 0x5a0;
  IntcVect MMC_MMC3I 0x5c0; IntcVect LCDC 0xf40; IntcVect TMU1_TUNI0 0x920;
  IntcVect TMU1_TUNI1 0x940; IntcVect TMU1_TUNI2 0x960].

Definition groups : list intc_group := [
  IntcGroup DMAC1A [DMAC1A_DEI0; DMAC1A_DEI1; DMAC1A_DEI2; DMAC1A_DEI3];
  IntcGroup _2DG [_2DG_TRI; _2DG_INI; _2DG_CEI];
  IntcGroup DMAC0A [DMAC0A_DEI0; DMAC0A_DEI1; DMAC0A_DEI2; DMAC0A_DEI3];
  IntcGroup VIO [VIO_CEU0; VIO_BEU0; VIO_VEU1; VIO_VOU];
  IntcGroup USB [USB0; USB1];
  IntcGroup RTC [RTC_ATI; RTC_PRI; RTC_CUI];
  IntcGroup DMAC1B [DMAC1B_DEI4; DMAC1B_DEI5; DMAC1B_DADERR];
  IntcGroup DMAC0B [DMAC0B_DEI4; DMAC0B_DEI5; DMAC0B_DADERR];
  IntcGroup I2C0 [I2C0_ALI; I2C0_TACKI; I2C0_WAITI; I2C0_DTEI];
  IntcGroup I2C1 [I2C1_ALI; I2C1_TACKI; I2C1_WAITI; I2C1_DTEI];
  IntcGroup SPU [SPU_SPUI0; SPU_SPUI1];
  IntcGroup MMCIF [MMC_MMC2I; MMC_MMC3I]].

Definition mask_registers : list intc_mask_reg := [
  IntcMaskReg 0xa4080080 0xa40800c0 8
    [UNUSED; TMU1_TUNI2; TMU1_TUNI1; TMU1_TUNI0; UNUSED; ENABLED; ENABLED; ENABLED];
  IntcMaskReg 0xa4080084 0xa40800c4 8
    [VIO_VOU; VIO_VEU1; VIO_BEU0; VIO_CEU0; DMAC0A_DEI3; DMAC0A_DEI2; DMAC0A_DEI1; DMAC0A_DEI0];
  IntcMaskReg 0xa4080088 0xa40800c8 8
    [UNUSED; UNUSED; UNUSED; VPU; ATAPI; ETHI; UNUSED; SCIFA3];
  IntcMaskReg 0xa408008c 0xa40800cc 8
    [DMAC1A_DEI3; DMAC1A_DEI2; DMAC1A_DEI1; DMAC1A_DEI0; SPU_SPUI1; SPU_SPUI0; BEU1; IRDA];
  IntcMaskReg 0xa4080090 0xa40800d0 8
    [UNUSED; TMU0_TUNI2; TMU0_TUNI1; TMU0_TUNI0; JPU; UNUSED; UNUSED; LCDC];
  IntcMaskReg 0xa4080094 0xa40800d4 8
    [KEYSC; DMAC0B_DADERR; DMAC0B_DEI5; DMAC0B_DEI4; VEU0; SCIF_SCIF2; SCIF_SCIF1; SCIF_SCIF0];
  IntcMaskReg 0xa4080098 0xa40800d8 8
    [UNUSED; UNUSED; ICB; SCIFA4; CEU1; UNUSED; MSIOF_MSIOFI1; MSIOF_MSIOFI0];
  IntcMaskReg 0xa408009c 0xa40800dc 8
    [I2C0_DTEI; I2C0_WAITI; I2C0_TACKI; I2C0_ALI; I2C1_DTEI; I2C1_WAITI; I2C1_TACKI; I2C1_ALI];
  IntcMaskReg 0xa40800a0 0xa40800e0 8
    [DISABLED; ENABLED; ENABLED; ENABLED; UNUSED; UNUSED; SCIFA5; FSI];
  IntcMaskReg 0xa40800a4 0xa40800e4 8
    [UNUSED; UNUSED; UNUSED; CMT; UNUSED; USB1; USB0; UNUSED];
  IntcMaskReg 0xa40800a8 0xa40800e8 8
    [UNUSED; DMAC1B_DADERR; DMAC1B_DEI5; DMAC1B_DEI4; UNUSED; RTC_CUI; RTC_PRI; RTC_ATI];
  IntcMaskReg 0xa40800ac 0xa40800ec 8
    [UNUSED; _2DG_CEI; _2DG_INI; _2DG_TRI; UNUSED; TPU; UNUSED; TSIF];
  IntcMaskReg 0xa40800b0 0xa40800f0 8
    [UNUSED; UNUSED; MMC_MMC3I; MMC_MMC2I; UNUSED; UNUSED; UNUSED; _2DDMAC];
  IntcMaskReg 0xa4140044 0xa4140064 8
    [IRQ0; IRQ1; IRQ2; IRQ3; IRQ4; IRQ5; IRQ6; IRQ7]].

Definition prio_registers : list intc_prio_reg := [
  IntcPrioReg 0xa4080000 0 16 4
    [TMU0_TUNI0; TMU0_TUNI1; TMU0_TUNI2; IRDA];
  IntcPrioReg 0xa4080004 0 16 4
    [JPU; LCDC; DMAC1A; BEU1];
  IntcPrioReg 0xa4080008 0 16 4
    [TMU1_TUNI0; TMU1_TUNI1; TMU1_TUNI2; SPU];
  IntcPrioReg 0xa408000c 0 16 4
    [UNUSED; MMCIF; UNUSED; ATAPI];
  IntcPrioReg 0xa4080010 0 16 4
    [DMAC0A; VIO; SCIFA3; VPU];
  IntcPrioReg 0xa4080014 0 16 4
    [KEYSC; DMAC0B; USB; CMT];
  IntcPrioReg 0xa4080018 0 16 4
    [SCIF_SCIF0; SCIF_SCIF1; SCIF_SCIF2; VEU0];
  IntcPrioReg 0xa408001c 0 16 4
    [MSIOF_MSIOFI0; MSIOF_MSIOFI1; I2C1; I2C0];
  IntcPrioReg 0xa4080020 0 16 4
    [SCIFA4; ICB; TSIF; _2DG];
  IntcPrioReg 0xa4080024 0 16 4
    [CEU1; ETHI; FSI; SDHI1];
  IntcPrioReg 0xa4080028 0 16 4
    [RTC; DMAC1B; UNUSED; SDHI0];
  IntcPrioReg 0xa408002c 0 16 4
    [SCIFA5; UNUSED; TPU; _2DDMAC];
  IntcPrioReg 0xa4140010 0 32 4
    [IRQ0; IRQ1; IRQ2; IRQ3; IRQ4; IRQ5; IRQ6; IRQ7]].

Definition sense_registers : list intc_sense_reg := [
  IntcSenseReg 0xa414001c 16 2
    [IRQ0; IRQ1; IRQ2; IRQ3; IRQ4; IRQ5; IRQ6; IRQ7]].

Definition ack_registers : list intc_mask_reg := [
  IntcMaskReg 0xa4140024 0 8
    [IRQ0; IRQ1; IRQ2; IRQ3; IRQ4; IRQ5; IRQ6; IRQ7]].

(** The enumeration, for comparing. *)
Definition number (i : intc_id) : nat :=
  match i with
  | UNUSED => 0 | ENABLED => 1 | DISABLED => 2 | IRQ0 => 3 | IRQ1 => 4 | IRQ2 => 5 | IRQ3 => 6
  | IRQ4 => 7 | IRQ5 => 8 | IRQ6 => 9 | IRQ7 => 10 | HUDI => 11 | DMAC1A_DEI0 => 12
  | DMAC1A_DEI1 => 13 | DMAC1A_DEI2 => 14 | DMAC1A_DEI3 => 15 | _2DG_TRI => 16 | _2DG_INI => 17
  | _2DG_CEI => 18 | DMAC0A_DEI0 => 19 | DMAC0A_DEI1 => 20 | DMAC0A_DEI2 => 21
  | DMAC0A_DEI3 => 22 | VIO_CEU0 => 23 | VIO_BEU0 => 24 | VIO_VEU1 => 25 | VIO_VOU => 26
  | SCIFA3 => 27 | VPU => 28 | TPU => 29 | CEU1 => 30 | BEU1 => 31 | USB0 => 32 | USB1 => 33
  | ATAPI => 34 | RTC_ATI => 35 | RTC_PRI => 36 | RTC_CUI => 37 | DMAC1B_DEI4 => 38
  | DMAC1B_DEI5 => 39 | DMAC1B_DADERR => 40 | DMAC0B_DEI4 => 41 | DMAC0B_DEI5 => 42
  | DMAC0B_DADERR => 43 | KEYSC => 44 | SCIF_SCIF0 => 45 | SCIF_SCIF1 => 46 | SCIF_SCIF2 => 47
  | VEU0 => 48 | MSIOF_MSIOFI0 => 49 | MSIOF_MSIOFI1 => 50 | SPU_SPUI0 => 51 | SPU_SPUI1 => 52
  | SCIFA4 => 53 | ICB => 54 | ETHI => 55 | I2C1_ALI => 56 | I2C1_TACKI => 57
  | I2C1_WAITI => 58 | I2C1_DTEI => 59 | I2C0_ALI => 60 | I2C0_TACKI => 61 | I2C0_WAITI => 62
  | I2C0_DTEI => 63 | CMT => 64 | TSIF => 65 | FSI => 66 | SCIFA5 => 67 | TMU0_TUNI0 => 68
  | TMU0_TUNI1 => 69 | TMU0_TUNI2 => 70 | IRDA => 71 | JPU => 72 | _2DDMAC => 73
  | MMC_MMC2I => 74 | MMC_MMC3I => 75 | LCDC => 76 | TMU1_TUNI0 => 77 | TMU1_TUNI1 => 78
  | TMU1_TUNI2 => 79 | DMAC1A => 80 | _2DG => 81 | DMAC0A => 82 | VIO => 83 | USB => 84
  | RTC => 85 | DMAC1B => 86 | DMAC0B => 87 | I2C0 => 88 | I2C1 => 89 | SDHI0 => 90
  | SDHI1 => 91 | SPU => 92 | MMCIF => 93
  end%nat.
Definition all_ids : list intc_id := [
  UNUSED; ENABLED; DISABLED; IRQ0; IRQ1; IRQ2; IRQ3; IRQ4; IRQ5; IRQ6; IRQ7; HUDI; DMAC1A_DEI0;
  DMAC1A_DEI1; DMAC1A_DEI2; DMAC1A_DEI3; _2DG_TRI; _2DG_INI; _2DG_CEI; DMAC0A_DEI0;
  DMAC0A_DEI1; DMAC0A_DEI2; DMAC0A_DEI3; VIO_CEU0; VIO_BEU0; VIO_VEU1; VIO_VOU; SCIFA3; VPU;
  TPU; CEU1; BEU1; USB0; USB1; ATAPI; RTC_ATI; RTC_PRI; RTC_CUI; DMAC1B_DEI4; DMAC1B_DEI5;
  DMAC1B_DADERR; DMAC0B_DEI4; DMAC0B_DEI5; DMAC0B_DADERR; KEYSC; SCIF_SCIF0; SCIF_SCIF1;
  SCIF_SCIF2; VEU0; MSIOF_MSIOFI0; MSIOF_MSIOFI1; SPU_SPUI0; SPU_SPUI1; SCIFA4; ICB; ETHI;
  I2C1_ALI; I2C1_TACKI; I2C1_WAITI; I2C1_DTEI; I2C0_ALI; I2C0_TACKI; I2C0_WAITI; I2C0_DTEI;
  CMT; TSIF; FSI; SCIFA5; TMU0_TUNI0; TMU0_TUNI1; TMU0_TUNI2; IRDA; JPU; _2DDMAC; MMC_MMC2I;
  MMC_MMC3I; LCDC; TMU1_TUNI0; TMU1_TUNI1; TMU1_TUNI2; DMAC1A; _2DG; DMAC0A; VIO; USB; RTC;
  DMAC1B; DMAC0B; I2C0; I2C1; SDHI0; SDHI1; SPU; MMCIF].

Lemma number_inj i j : number i = number j → i = j.
Proof.
  assert (∀ k, all_ids !! number k = Some k) as Hk by (by intros []).
  intros Hij. pose proof (Hk i) as Hi. rewrite Hij, Hk in Hi. congruence.
Qed.
#[export] Instance intc_id_eq_dec : EqDecision intc_id.
Proof.
  intros i j. destruct (decide (number i = number j)) as [Hij|Hij];
    [left; by apply number_inj|right; congruence].
Defined.

(** ** The tables fit each other *)

(** The interrupts of a resource, and of a device with those of its user space driver. *)
Definition events_of (r : resource) : list Z :=
  match r with
  | Irq first None => [first]
  | Irq first (Some last) =>
      map (λ k, first + 0x20 * k) (seqZ 0 ((last - first) / 0x20 + 1))
  | _ => []
  end.
Definition events (d : platform_device) : list Z :=
  concat (map events_of (resources d)) ++ match data d with Uio _ irq => [irq] | _ => [] end.

(** How many bits mask a source, and how many fields give it a priority, alone or with
    its group. *)
Definition occurs (i : intc_id) (l : list intc_id) : nat := length (filter (λ j, j = i) l).
Definition mask_bits (i : intc_id) : nat := occurs i (concat (map enum_ids mask_registers)).
Definition priorities (i : intc_id) : nat :=
  let fields := concat (map prio_ids prio_registers) in
  (occurs i fields +
   list_sum (map (λ g, occurs (group_id g) fields) (filter (λ g, i ∈ members g) groups)))%nat.

Definition sources (event : Z) : list intc_id :=
  map enum_id (filter (λ v, vect v = event) vectors).

(** Every interrupt of every device comes from one source, one bit masks it and one
    field orders it; no two devices, nor two resources of one, have the same. *)
Lemma devices_served :
  NoDup (concat (map events sh7724_devices)) ∧
  ∀ d e, d ∈ sh7724_devices → e ∈ events d →
    ∃ i, sources e = [i] ∧ mask_bits i = 1%nat ∧ priorities i = 1%nat.
Proof.
  split; [apply (bool_decide_unpack _); by vm_compute|].
  assert (Forall (λ d, Forall (λ e, match sources e with
    [i] => mask_bits i = 1 ∧ priorities i = 1 | _ => False end)%nat (events d)) sh7724_devices) as Hall.
  { repeat constructor. }
  intros d e Hd He. rewrite Forall_forall in Hall. specialize (Hall d Hd).
  rewrite Forall_forall in Hall. specialize (Hall e He).
  destruct (sources e) as [|i [|]]; try done. by exists i.
Qed.

(** The sources no bit of the tables masks are the two card controllers, whose bits
    are always on. *)
Lemma unmaskable_sources :
  Forall (λ v, priorities (enum_id v) = 1%nat ∧
    mask_bits (enum_id v) = if decide (enum_id v ∈ [SDHI0; SDHI1]) then 0%nat else 1%nat) vectors
  ∧ NoDup (map vect vectors).
Proof. split; [by repeat constructor|apply (bool_decide_unpack _); by vm_compute]. Qed.

(** Registers of different devices do not overlap. *)
Definition ranges (d : platform_device) : list (Z * Z) :=
  concat (map (λ r, match r with Mem a b | Io a b => [(a, b)] | _ => [] end) (resources d)).
Fixpoint disjoint_ranges (l : list (Z * Z)) : bool :=
  match l with
  | [] => true
  | (a, b) :: l => (a <=? b) && forallb (λ r, (b <? r.1) || (r.2 <? a)) l && disjoint_ranges l
  end.
Lemma registers_disjoint : disjoint_ranges (concat (map ranges sh7724_devices)) = true.
Proof. by vm_compute. Qed.

(** The registers that the DMA slaves of the serial ports name are the ports'. *)
Definition scif_devices : list platform_device := take 6 sh7724_devices.
Lemma slaves_in_ports :
  Forall2 (λ s d, Exists (λ r, r.1 <= addr s <= r.2) (ranges d))
    (take 12 sh7724_dmae_slaves) (concat (map (λ d, [d; d]) scif_devices)).
Proof. repeat constructor; cbn; lia. Qed.

(** The devices whose second resource is left empty for memory that is not set aside. *)
#[export] Instance resource_eq_dec : EqDecision resource.
Proof. solve_decision. Defined.
Definition unfilled : list platform_device :=
  filter (λ d, Placeholder ∈ resources d ∧ id d ∉ map (λ s, id s.1.1) sh7724_devices_setup) sh7724_devices.
Lemma blend_units_unfilled : unfilled = [beu0_device; beu1_device].
Proof. by vm_compute. Qed.
