(* ===== verification/Board.v ===== *)
(** * Board support ([src/kernel/overlay/arch/sh/boards/mach-exword/setup.c])

    The memory the kernel keeps away from its allocator, and the read-only device
    whose contents the loader has left behind the kernel.  What the device gives is
    related to what [Loader] verified before it started the kernel. *)

From S2P Require Import Prelude Text Loader.
From S2P Require Sh7724.

Definition EXWORD_VRAM_PHYS : Z := 0x0c200000.
Definition EXWORD_VRAM_SIZE : Z := 0x00053000.
Definition EXWORD_X11_PHYS : Z := 0x0c9b0000.
Definition EXWORD_X11_SIZE : Z := 0x00350000.
Definition EINVAL : Z := 22.
Definition EROFS : Z := 30.

(** The uncached alias of a physical address, a macro of the kernel. *)
Class Segments := P2SEGADDR : Z → Z.
Class SegmentsOk `{Segments} := p2_alias a : P2SEGADDR a = a mod 2 ^ 29 + 0xa0000000.

(** [memblock_reserve]: base and size, in order. *)
Definition exword_mem_reserve : list (Z * Z) :=
  [(EXWORD_VRAM_PHYS, EXWORD_VRAM_SIZE); (EXWORD_X11_PHYS, EXWORD_X11_SIZE)].

(** [struct mtd_info], what is filled in of it but the calls. *)
Record mtd_info := MtdInfo { size : Z; erasesize : Z; writesize : Z; writebufsize : Z }.
Definition exword_x11_mtd (page_size : Z) : mtd_info := MtdInfo EXWORD_X11_SIZE page_size 1 1.

Section Device.
Context `{Segments} (memory : gmap Z Z) (mtd : mtd_info).

(** The result, [*retlen] and what is in [buf]; [None]: neither was written.
    [from] is a [loff_t], [len] a [size_t]. *)
Definition exword_x11_read (from len : Z) : Z * option (Z * list Z) :=
  if (from <? 0) || (from >=? size mtd) then (- EINVAL, None)
  else
    let len := if len >? size mtd - from then size mtd - from else len in
    let source := u32 (P2SEGADDR EXWORD_X11_PHYS + from) in
    (0, Some (len, mem_read memory source len)).

Definition exword_x11_write (to len : Z) (buf : list Z) : Z * Z := (- EROFS, 0).
Definition exword_x11_erase : Z := - EROFS.
End Device.

(** *** The USB host *)

Definition exword_usb1_host_resources : list Sh7724.resource :=
  [Sh7724.Mem 0xa4d90000 (0xa4d90124 - 1); Sh7724.Irq 0xa40 (Some 0xa40)].
Definition exword_usb1_host_device : Sh7724.platform_device :=
  Sh7724.PlatformDevice (str "r8a66597_hcd") 1 exword_usb1_host_resources Sh7724.NoData.

(** It is a device the tables of the processor have room for: one source with one mask
    bit and one priority, which no other device has, and registers of its own, those
    that its two DMA channels in each direction name. *)
Lemma usb_host_served :
  Sh7724.events exword_usb1_host_device = [0xa40] ∧ Sh7724.sources 0xa40 = [Sh7724.USB1] ∧
  Sh7724.mask_bits Sh7724.USB1 = 1%nat ∧ Sh7724.priorities Sh7724.USB1 = 1%nat ∧
  0xa40 ∉ concat (map Sh7724.events Sh7724.sh7724_devices) ∧
  Sh7724.disjoint_ranges
    (concat (map Sh7724.ranges (exword_usb1_host_device :: Sh7724.sh7724_devices))) = true ∧
  Forall (λ s, 0xa4d90000 <= Sh7724.addr s <= 0xa4d90123) (slice 16 4 Sh7724.sh7724_dmae_slaves).
Proof.
  split; [reflexivity|]. split; [by vm_compute|]. split; [by vm_compute|]. split; [by vm_compute|].
  split; [|split; [by vm_compute|]].
  - apply (bool_decide_unpack _). by vm_compute.
  - repeat constructor; cbn; lia.
Qed.

(** ** What the boot writes *)

Definition region (r : Z * Z) (a : Z) : Prop := r.1 <= a < r.1 + r.2.

(** A byte stored at a physical address, seen through the uncached alias; the last
    one first. *)
Definition stores (writes : list (Z * Z)) (m : gmap Z Z) : gmap Z Z :=
  foldr (λ w m, <[w.1 + 0xa0000000 := w.2]> m) m writes.
(** What the allocator gives out is outside all that is reserved; the frame buffer
    has its memory besides. *)
Definition unreserved (a : Z) : Prop := Forall (λ r, ¬ region r a) exword_mem_reserve.
Definition stored_to (a : Z) : Prop := unreserved a ∨ region (EXWORD_VRAM_PHYS, EXWORD_VRAM_SIZE) a.

Lemma stores_other writes m a :
  (∀ w, w ∈ writes → stored_to w.1) → ¬ stored_to (a - 0xa0000000) →
  stores writes m !! a = m !! a.
Proof.
  intros Hw Ha. induction writes as [|w writes IH]; cbn [stores foldr]; [done|].
  rewrite lookup_insert_ne; [apply IH; intros; apply Hw; by right|].
  intros <-. apply Ha. replace (w.1 + 0xa0000000 - 0xa0000000) with w.1 by lia. apply Hw. left.
Qed.

Lemma image_reserved a : region (EXWORD_X11_PHYS, EXWORD_X11_SIZE) a → ¬ stored_to a.
Proof.
  intros Ha [Hu|Hv].
  - unfold unreserved in Hu. rewrite Forall_forall in Hu.
    apply (Hu (EXWORD_X11_PHYS, EXWORD_X11_SIZE)); [|done]. unfold exword_mem_reserve. set_solver.
  - unfold region, EXWORD_VRAM_PHYS, EXWORD_VRAM_SIZE, EXWORD_X11_PHYS, EXWORD_X11_SIZE in *.
    cbn in *. lia.
Qed.

(** ** The device gives what the loader verified *)

Lemma mem_read_slice m a n b k : a <= b → 0 <= k → b + k <= a + n →
  mem_read m b k = slice (Z.to_nat (b - a)) (Z.to_nat k) (mem_read m a n).
Proof.
  intros Hab Hk Hn. apply list_eq_same_length with (Z.to_nat k); [|by rewrite mem_read_length|].
  - rewrite slice_length; [done|]. rewrite mem_read_length. lia.
  - intros i x y Hi Hx Hy. rewrite lookup_slice, decide_True in Hy by lia.
    rewrite mem_read_lookup in Hx by lia. rewrite mem_read_lookup in Hy by lia.
    replace (a + Z.of_nat (Z.to_nat (b - a) + i)) with (b + Z.of_nat i) in Hy by lia. congruence.
Qed.

Section Handover.
Context {W : Type} `{FirmwareOk W} `{SegmentsOk}.

(** C14: The image of the X server that the kernel reads is the one the loader has
    verified.  After a load that succeeded and any stores of the boot and the
    kernel that keep out of what [exword_mem_reserve] reserves, but for those to the
    memory of the display (so all of the loader's window that is not the device's may
    be overwritten, as the relocation of the compressed kernel and the kernel itself
    do), a read of the device outside its size is refused and touches nothing;
    every other one gives as many bytes as it says, at most those asked for and
    never one behind the device's window, and where the payload reaches they are the
    bytes of the payload whose checksum was compared, at their place. *)
Theorem image_verified (s s' : loader W) (writes : list (Z * Z)) (page from len : Z) :
  load_payload s = (Some LOAD_OK, s') →
  (∀ w, w ∈ writes → stored_to w.1) →
  0 <= len →
  let memory := stores writes (ld_mem s') in
  let h := ld_header s' in
  let payload := mem_read (ld_mem s') (load_address h) (payload_size h) in
  let place := 0xac9b0000 + from in
  Z.lxor (crc32_update 0xffffffff payload) 0xffffffff = payload_crc32 h ∧
  if (from <? 0) || (0x350000 <=? from)
  then exword_x11_read memory (exword_x11_mtd page) from len = (- EINVAL, None)
  else ∃ n data, exword_x11_read memory (exword_x11_mtd page) from len = (0, Some (n, data)) ∧
    n = len `min` (0x350000 - from) ∧ zlen data = n ∧
    (load_address h <= place → place + n <= load_address h + payload_size h →
     data = slice (Z.to_nat (place - load_address h)) (Z.to_nat n) payload).
Proof.
  intros Hload Hmem Hlen memory h payload place.
  destruct (load_payload_spec s) as (status & s1 & Hrun & _ & _ & _ & Hok).
  rewrite Hload in Hrun. injection Hrun as <- <-. destruct (Hok eq_refl) as [Ha Hcrc].
  split; [exact Hcrc|]. unfold exword_x11_read, exword_x11_mtd, EXWORD_X11_SIZE, EXWORD_X11_PHYS.
  cbn [size]. rewrite Z.geb_leb. destruct ((from <? 0) || (0x350000 <=? from)) eqn:Er; [done|]. to_prop.
  cbv zeta. set (n := if len >? 0x350000 - from then 0x350000 - from else len).
  assert (n = len `min` (0x350000 - from)) as Hn.
  { unfold n. destruct (Z.gtb_spec len (0x350000 - from)); lia. }
  assert (u32 (P2SEGADDR 0x0c9b0000 + from) = place) as Hp.
  { rewrite p2_alias. change (0x0c9b0000 mod 2 ^ 29 + 0xa0000000) with 0xac9b0000.
    apply u32_small. unfold is_u, place. lia. }
  rewrite Hp. eexists n, _. split; [done|]. split; [done|].
  split; [unfold zlen; rewrite mem_read_length; lia|]. intros H1' H2'.
  unfold payload.
  rewrite <- (mem_read_slice (ld_mem s') (load_address h) (payload_size h) place n) by (done || lia).
  apply list_fmap_ext. intros i x Hx. apply lookup_seqZ in Hx as [-> Hi].
  unfold memory. rewrite stores_other; [done|done|]. apply image_reserved.
  unfold region, place, EXWORD_X11_PHYS, EXWORD_X11_SIZE. cbn. lia.
Qed.
End Handover.

(** ** The map of the memory *)

(** What is reserved does not overlap; the window of the device lies inside the
    window of the loader, the memory of the display outside. *)
Lemma reserved_apart :
  (∀ a, ¬ (region (EXWORD_VRAM_PHYS, EXWORD_VRAM_SIZE) a ∧ region (EXWORD_X11_PHYS, EXWORD_X11_SIZE) a)) ∧
  (∀ a, region (EXWORD_X11_PHYS, EXWORD_X11_SIZE) a → in_window (a + 0xa0000000)) ∧
  (∀ a, region (EXWORD_VRAM_PHYS, EXWORD_VRAM_SIZE) a → ¬ in_window (a + 0xa0000000)).
Proof.
  unfold region, in_window, EXWORD_VRAM_PHYS, EXWORD_VRAM_SIZE, EXWORD_X11_PHYS, EXWORD_X11_SIZE,
    PAYLOAD_P2_START, PAYLOAD_P2_END. cbn. split_and!; intros a; lia.
Qed.

(** ** A concrete handover: two bytes at the beginning of the window *)

Module Handed.
#[global] Instance segments : Segments := λ a, a mod 2 ^ 29 + 0xa0000000.
#[global] Instance segments_ok : SegmentsOk.
Proof. by intros a. Qed.

Definition header : list Z :=
  expected_magic ++ be_encode 4 32 ++ be_encode 4 0xac9b0000 ++ be_encode 4 0xac9b0000
  ++ be_encode 4 2 ++ be_encode 4 (Z.lxor (crc32_update 0xffffffff sample_payload) 0xffffffff)
  ++ be_encode 4 3.
Definition loader0 : loader file_world :=
  Loader ([("\\drv0\linux.pay"%string, header ++ sample_payload)], []) ∅ (replicate 32 0) 0 false [].
Definition loaded : loader file_world := (load_payload loader0).2.
End Handed.

(** The relocated kernel begins right behind the device's window. *)
Definition relocated : list (Z * Z) := [(0x0cd00001, 0x55); (0x0cd00000, 0xaa); (0x0c200000, 7); (0x0c001000, 1)].

Lemma image_verified_witness :
  ∃ n data, exword_x11_read (stores relocated (ld_mem Handed.loaded)) (exword_x11_mtd 4096) 1 1
      = (0, Some (n, data)) ∧ n = 1 ∧ data = [0xde].
Proof.
  destruct (image_verified Handed.loader0 Handed.loaded relocated 4096 1 1) as [_ Hr].
  - vm_compute. reflexivity.
  - apply list.Forall_forall. unfold stored_to, unreserved, exword_mem_reserve, region,
      EXWORD_VRAM_PHYS, EXWORD_VRAM_SIZE, EXWORD_X11_PHYS, EXWORD_X11_SIZE.
    do 2 (apply Forall_cons_2; [left; do 2 (apply Forall_cons_2; [cbn; lia|]); by apply Forall_nil|]).
    apply Forall_cons_2; [right; cbn; lia|].
    apply Forall_cons_2; [left; do 2 (apply Forall_cons_2; [cbn; lia|]); by apply Forall_nil|].
    by apply Forall_nil.
  - lia.
  - cbv match in Hr. destruct Hr as (n & data & E & Hn & _ & Hdata). exists n, data.
    assert (n = 1) as -> by (rewrite Hn; reflexivity). split; [exact E|]. split; [reflexivity|].
    rewrite Hdata; [vm_compute; reflexivity|vm_compute; discriminate..].
Defined.
