(* ===== verification/Status.v ===== *)
(** * The status line ([src/x11/apps/holostatus.c])

    Every three seconds the program prints a line: a notice that another program has
    left in a file, for two turns, or else the memory that is free, whether the card
    is mounted, and the time.  A file is its bytes when it is opened, or cannot be
    opened; [fgets] and [sscanf] are those of the C library of the system, whose
    [%ld] gives the nearest [long] for a number that is none. *)

From Stdlib Require Import String.
From S2P Require Import Prelude Text.

(** ** Reading *)

(** [fgets]: a line of at most [size - 1] bytes and what is left; [None] at the end. *)
Fixpoint take_line (n : nat) (s : list Z) : list Z * list Z :=
  match n, s with
  | O, _ => ([], s)
  | _, [] => ([], [])
  | S n, c :: s => if c =? 10 then ([c], s) else let '(l, r) := take_line n s in (c :: l, r)
  end.
Definition fgets (size : nat) (s : list Z) : option (list Z * list Z) :=
  match s with [] => None | _ => Some (take_line (size - 1) s) end.

(** The string in a buffer. *)
Fixpoint until_nul (s : list Z) : list Z :=
  match s with [] => [] | c :: s => if c =? 0 then [] else c :: until_nul s end.

(** The strings that repeated [fgets] gives. *)
Fixpoint read_lines (fuel size : nat) (s : list Z) : list (list Z) :=
  match fuel with
  | O => []
  | S fuel =>
      match fgets size s with
      | Some (line, s) => until_nul line :: read_lines fuel size s
      | None => []
      end
  end.
(** Every line takes a byte at least. *)
Definition lines (size : nat) (s : list Z) : list (list Z) := read_lines (length s) size s.

(** ** Scanning *)

Definition isspace (c : Z) : bool := (c =? 32) || ((9 <=? c) && (c <=? 13)).
Definition isdigit (c : Z) : bool := (48 <=? c) && (c <=? 57).

Fixpoint span (p : Z → bool) (s : list Z) : list Z * list Z :=
  match s with
  | c :: s' => if p c then let '(l, r) := span p s' in (c :: l, r) else ([], s)
  | [] => ([], [])
  end.
Definition skip_space (s : list Z) : list Z := (span isspace s).2.

(** A literal of the format. *)
Fixpoint literal (l s : list Z) : option (list Z) :=
  match l, s with
  | [], _ => Some s
  | c :: l, d :: s => if c =? d then literal l s else None
  | _, [] => None
  end.

Definition number (s : list Z) : Z := foldl (λ a c, a * 10 + (c - 48)) 0 s.
Definition clamp (v : Z) : Z := Z.max (- 2 ^ 31) (Z.min (2 ^ 31 - 1) v).

(** [%ld] *)
Definition scan_ld (s : list Z) : option Z :=
  let s := skip_space s in
  let '(negative, s) :=
    match s with
    | c :: r => if c =? 45 then (true, r) else (false, if c =? 43 then r else s)
    | [] => (false, s)
    end in
  match span isdigit s with
  | ([], _) => None
  | (digits, _) => Some (clamp (if negative : bool then - number digits else number digits))
  end.

(** [%95s] and the like, with what is left; [None]: no byte for it. *)
Definition scan_s (width : nat) (s : list Z) : option (list Z * list Z) :=
  let s := skip_space s in
  let word := take width (span (λ c, negb (isspace c)) s).1 in
  match word with [] => None | _ => Some (word, drop (length word) s) end.

(** [sscanf(line, "<name>: %ld kB", &value) == 1] *)
Definition scan_entry (name line : list Z) : option Z :=
  s ← literal (name ++ str ":") line; scan_ld s.

(** ** The program *)

Record memory := Memory { available_kib : Z; swap_total_kib : Z; swap_free_kib : Z }.

Definition read_entry (m : memory) (line : list Z) : memory :=
  match scan_entry (str "MemAvailable") line with
  | Some v => Memory v (swap_total_kib m) (swap_free_kib m)
  | None =>
      match scan_entry (str "SwapTotal") line with
      | Some v => Memory (available_kib m) v (swap_free_kib m)
      | None =>
          match scan_entry (str "SwapFree") line with
          | Some v => Memory (available_kib m) (swap_total_kib m) v
          | None => m
          end
      end
  end.
Definition read_memory (file : option (list Z)) : memory :=
  foldl read_entry (Memory 0 0 0) (match file with Some s => lines 128 s | None => [] end).

(** The third conversion holds where the first two do: the target of the mount. *)
Definition mount_target (line : list Z) : option (list Z) :=
  '(source, s) ← scan_s 95 line;
  '(target, s) ← scan_s 95 s;
  '(type, s) ← scan_s 31 s;
  Some target.
Fixpoint find_mount (l : list (list Z)) : bool :=
  match l with
  | [] => false
  | line :: l =>
      match mount_target line with
      | None => false
      | Some target => if bool_decide (target = str "/mnt/sd") then true else find_mount l
      end
  end.
Definition sd_mounted (file : option (list Z)) : bool :=
  match file with Some s => find_mount (lines 256 s) | None => false end.

(** The message without the ends of line. *)
Fixpoint strip (n : nat) (s : list Z) : list Z :=
  match n with
  | O => s
  | S n =>
      match last s with
      | Some c => if (c =? 10) || (c =? 13) then strip n (take (length s - 1) s) else s
      | None => s
      end
  end.

(** The result and the message; a file that was opened is removed. *)
Definition read_notice (file : option (list Z)) (message : list Z) : bool * list Z :=
  match file with
  | None => (false, message)
  | Some s =>
      let line := match fgets 96 s with Some (line, _) => until_nul line | None => [] end in
      let message := strip (length line) line in
      (negb (zlen message =? 0), message)
  end.

Definition signed_decimal (v : Z) : list Z := if v <? 0 then 45 :: decimal (- v) else decimal v.
(** [%02d] *)
Definition two_digits (v : Z) : list Z :=
  if (0 <=? v) && (v <? 10) then 48 :: decimal v else signed_decimal v.

Definition status_text (m : memory) (mounted : bool) (hour minute : Z) : list Z :=
  str "RAM " ++ signed_decimal (Z.quot (available_kib m) 1024) ++ str "M  SWP "
  ++ signed_decimal (Z.quot (swap_total_kib m - swap_free_kib m) 1024) ++ str "/"
  ++ signed_decimal (Z.quot (swap_total_kib m) 1024) ++ str "M  "
  ++ (if mounted then str "SD  " else []) ++ two_digits hour ++ str ":" ++ two_digits minute ++ [10].

(** What a turn finds: the three files, the local time ([None]: [localtime_r] failed),
    and whether the line could be printed and flushed ([EPIPE] is what counts). *)
Record turn := Turn {
  notice_file : option (list Z); meminfo : option (list Z); mounts : option (list Z);
  local : option (Z * Z); printed : bool; broken_pipe : bool;
}.

Record state := State { notice : list Z; notice_cycles : Z }.

(** The line of a turn, the state after it, and whether the loop goes on. *)
Definition take_turn (s : state) (t : turn) : list Z * state * bool :=
  let '(fresh, message) := read_notice (notice_file t) (notice s) in
  let cycles := if fresh : bool then 2 else notice_cycles s in
  if 0 <? cycles then
    let line := str "! " ++ take 72 message ++ [10] in
    if printed t then (line, State message (cycles - 1), negb (broken_pipe t))
    else (line, State message cycles, false)
  else
    let '(hour, minute) := default (0, 0) (local t) in
    (status_text (read_memory (meminfo t)) (sd_mounted (mounts t)) hour minute,
     State message cycles, printed t && negb (broken_pipe t)).

(** The lines of a run. *)
Fixpoint run (s : state) (l : list turn) : list (list Z) :=
  match l with
  | [] => []
  | t :: l =>
      let '(line, s, on) := take_turn s t in
      line :: if on : bool then run s l else []
  end.
Definition main (l : list turn) : list (list Z) := run (State [] 0) l.

(** ** Numbers *)

Lemma span_app p l c r : forallb p l = true → p c = false → span p (l ++ c :: r) = (l, c :: r).
Proof.
  intros Hl Hc. induction l as [|a l IH]; cbn [app span].
  - by rewrite Hc.
  - cbn in Hl. apply andb_prop in Hl as [-> Hl]. by rewrite IH.
Qed.

Lemma number_snoc l d : number (l ++ [d]) = number l * 10 + (d - 48).
Proof. unfold number. by rewrite foldl_app. Qed.

Lemma decimal_digits_number fuel n : 0 <= n < 10 ^ Z.of_nat fuel →
  number (decimal_digits fuel n) = n ∧ forallb isdigit (decimal_digits fuel n) = true ∧
  (0 < fuel → decimal_digits fuel n ≠ [])%nat.
Proof.
  revert n. induction fuel as [|fuel IH]; intros n Hn; [cbn in *; split_and!; [lia|done|lia]|].
  assert (isdigit (48 + n mod 10) = true) as Hd.
  { unfold isdigit. pose proof (Z.mod_pos_bound n 10). apply andb_true_intro. split; apply Z.leb_le; lia. }
  cbn [decimal_digits]. destruct (Z.ltb_spec n 10).
  - cbn [app]. split_and!; [unfold number; cbn [foldl]; rewrite Z.mod_small; lia| |done].
    cbn. by rewrite Hd.
  - rewrite Nat2Z.inj_succ, Z.pow_succ_r in Hn by lia.
    destruct (IH (n / 10)) as (Hv & Hf & _); [Z.to_euclidean_division_equations; lia|].
    split_and!.
    + rewrite number_snoc, Hv. Z.to_euclidean_division_equations; lia.
    + rewrite forallb_app, Hf. cbn. by rewrite Hd.
    + intros _ Hnil. by apply app_nil in Hnil as [_ ?].
Qed.

(** A number behind any space, in front of what is no digit. *)
Lemma scan_ld_decimal k v c r : 0 <= v < 2 ^ 31 → isdigit c = false →
  scan_ld (replicate k 32 ++ decimal v ++ c :: r) = Some v.
Proof.
  intros Hv Hc. destruct (decimal_digits_number 20 v) as (Hn & Hd & Hne); [cbn; lia|].
  unfold decimal. specialize (Hne ltac:(lia)).
  destruct (decimal_digits 20 v) as [|d l]; [done|]. pose proof Hd as Hd0. cbn in Hd0.
  apply andb_prop in Hd0 as [Hd0 _]. pose proof Hd0 as Hr. unfold isdigit in Hr. to_prop.
  assert (skip_space (replicate k 32 ++ (d :: l) ++ c :: r) = (d :: l) ++ c :: r) as Hs.
  { unfold skip_space. cbn [app]. rewrite span_app; [done| |].
    - by induction k.
    - unfold isspace. rewrite (proj2 (Z.eqb_neq d 32)), (proj2 (Z.leb_gt d 13)) by lia.
      by rewrite andb_false_r. }
  unfold scan_ld. rewrite Hs. cbn [app].
  rewrite (proj2 (Z.eqb_neq d 45)), (proj2 (Z.eqb_neq d 43)) by lia.
  change (d :: l ++ c :: r) with ((d :: l) ++ c :: r). rewrite span_app by done.
  rewrite Hn. unfold clamp. f_equal. lia.
Qed.

(** ** The memory of the machine *)

(** A line of the file as the kernel writes it: a name, its number and the unit. *)
Definition entry : Type := list Z * nat * Z.
Definition show_entry (e : entry) : list Z :=
  let '(name, k, v) := e in name ++ 58 :: replicate k 32 ++ decimal v ++ str " kB" ++ [10].
Definition name_of (e : entry) : list Z := e.1.1.
Definition entry_ok (e : entry) : Prop :=
  let '(name, k, v) := e in
  Forall (λ c, c ≠ 58 ∧ c ≠ 10 ∧ c ≠ 0) name ∧ 0 <= v < 2 ^ 31 ∧ zlen (show_entry e) < 128.

(** The number of the last line of a name, or 0. *)
Definition last_value (name : list Z) (l : list entry) : Z :=
  foldl (λ v e, if bool_decide (name_of e = name) then e.2 else v) 0 l.

Lemma literal_app l s : literal l (l ++ s) = Some s.
Proof. induction l as [|c l IH]; [done|]. cbn. by rewrite Z.eqb_refl. Qed.

(** A name with its colon is matched by itself only. *)
Lemma literal_name name name' s : Forall (λ c, c ≠ 58) name → Forall (λ c, c ≠ 58) name' →
  literal (name ++ [58]) (name' ++ 58 :: s) = if bool_decide (name' = name) then Some s else None.
Proof.
  intros Hn. revert name'. induction Hn as [|c name Hc Hn IH]; intros [|c' name'] Hn'; cbn [app literal].
  - done.
  - apply Forall_cons in Hn' as [Hc' _]. by rewrite (proj2 (Z.eqb_neq 58 c')).
  - rewrite (proj2 (Z.eqb_neq c 58)) by done. done.
  - apply Forall_cons in Hn' as [Hc' Hn']. destruct (Z.eqb_spec c c') as [->|Hcc].
    + rewrite IH by done. repeat case_bool_decide; congruence.
    + rewrite bool_decide_eq_false_2; congruence.
Qed.

Lemma scan_entry_shown name e : Forall (λ c, c ≠ 58) name → entry_ok e →
  scan_entry name (show_entry e) = if bool_decide (name_of e = name) then Some e.2 else None.
Proof.
  destruct e as [[name' k] v]. intros Hn (Hn' & Hv & _). unfold scan_entry, show_entry, name_of.
  cbn [fst snd]. change (str ":") with [58].
  rewrite literal_name; [|done|by eapply Forall_impl; [exact Hn'|]; intros ? (? & _)].
  case_bool_decide; [|done]. cbn [mbind option_bind]. by apply scan_ld_decimal.
Qed.

Definition plain (c : Z) : Prop := c ≠ 10 ∧ c ≠ 0.

Lemma take_line_plain n l r : Forall plain l → (length l < n)%nat →
  take_line n (l ++ 10 :: r) = (l ++ [10], r).
Proof.
  intros Hl. revert n. induction Hl as [|c l [Hc _] Hl IH]; intros [|n] Hn; cbn in Hn; try lia;
    cbn [app take_line]; [done|]. rewrite (proj2 (Z.eqb_neq c 10)), IH by (done || lia). done.
Qed.

Lemma until_nul_plain l : Forall plain l → until_nul (l ++ [10]) = l ++ [10].
Proof.
  intros Hl. induction Hl as [|c l [_ Hc] Hl IH]; [done|]. cbn.
  by rewrite (proj2 (Z.eqb_neq c 0)), IH.
Qed.

(** A text of plain lines is read line by line. *)
Lemma read_lines_plain size ls fuel :
  Forall (λ l, Forall plain l ∧ (length l + 1 < size)%nat) ls →
  (length ls <= fuel)%nat →
  read_lines fuel size (concat (map (λ l, l ++ [10]) ls)) = map (λ l, l ++ [10]) ls.
Proof.
  revert fuel. induction ls as [|l ls IH]; intros [|fuel] Hls Hf; cbn in Hf; try lia; try done.
  apply Forall_cons in Hls as [[Hl Hsize] Hls]. cbn [map concat read_lines].
  assert (fgets size ((l ++ [10]) ++ concat (map (λ l, l ++ [10]) ls)) =
    Some (l ++ [10], concat (map (λ l, l ++ [10]) ls))) as ->.
  { unfold fgets. rewrite <- app_assoc. cbn [app].
    rewrite take_line_plain by (done || lia). by destruct l. }
  rewrite until_nul_plain, IH by (done || lia). done.
Qed.

Lemma length_concat_lines (ls : list (list Z)) :
  (length ls <= length (concat (map (λ l, l ++ [10%Z]) ls)))%nat.
Proof.
  induction ls as [|l ls IH]; cbn [map concat length]; [lia|]. rewrite !length_app. cbn. lia.
Qed.

(** A line without its end. *)
Definition entry_body (e : entry) : list Z :=
  let '(name, k, v) := e in name ++ 58 :: replicate k 32 ++ decimal v ++ str " kB".
Lemma show_entry_body e : show_entry e = entry_body e ++ [10].
Proof. destruct e as [[name k] v]. unfold show_entry, entry_body. by rewrite <- !app_assoc, !app_comm_cons, <- !app_assoc. Qed.

Lemma entry_plain e : entry_ok e → Forall plain (entry_body e).
Proof.
  destruct e as [[name k] v]. intros (Hn & Hv & _). unfold entry_body.
  apply Forall_app. split; [eapply Forall_impl; [exact Hn|]; by intros c (_ & ? & ?)|].
  apply Forall_cons. split; [done|]. apply Forall_app. split; [by apply Forall_replicate|].
  apply Forall_app. split; [|repeat constructor; done].
  destruct (decimal_digits_number 20 v) as (_ & Hd & _); [cbn; lia|].
  apply Forall_forall. intros c Hc%list_elem_of_In. unfold decimal in Hc. rewrite forallb_forall in Hd.
  specialize (Hd c Hc). unfold isdigit in Hd. to_prop. unfold plain. lia.
Qed.

Lemma read_entries l m : Forall entry_ok l →
  foldl read_entry m (map show_entry l) =
  Memory (foldl (λ v e, if bool_decide (name_of e = str "MemAvailable") then e.2 else v) (available_kib m) l)
    (foldl (λ v e, if bool_decide (name_of e = str "SwapTotal") then e.2 else v) (swap_total_kib m) l)
    (foldl (λ v e, if bool_decide (name_of e = str "SwapFree") then e.2 else v) (swap_free_kib m) l).
Proof.
  intros Hl. revert m. induction Hl as [|e l He Hl IH]; intros m; cbn [map foldl]; [by destruct m|].
  rewrite IH. unfold read_entry.
  assert (Forall (λ c, c ≠ 58) (str "MemAvailable") ∧ Forall (λ c, c ≠ 58) (str "SwapTotal") ∧
    Forall (λ c, c ≠ 58) (str "SwapFree")) as (H1 & H2 & H3) by (split_and!; repeat constructor; done).
  rewrite !scan_entry_shown by done.
  assert (str "MemAvailable" ≠ str "SwapTotal" ∧ str "MemAvailable" ≠ str "SwapFree" ∧
    str "SwapTotal" ≠ str "SwapFree") as (D1 & D2 & D3) by done.
  generalize dependent (str "MemAvailable"). generalize dependent (str "SwapTotal").
  generalize dependent (str "SwapFree"). intros f ? t ? a ? ???.
  repeat case_bool_decide; cbn; try congruence; by f_equal.
Qed.

(** What the kernel writes is read back: of each of the three names the number of its
    last line, in any order and among any other lines. *)
Lemma memory_read l : Forall entry_ok l →
  read_memory (Some (concat (map show_entry l))) =
  Memory (last_value (str "MemAvailable") l) (last_value (str "SwapTotal") l)
    (last_value (str "SwapFree") l).
Proof.
  intros Hl. unfold read_memory, lines.
  assert (map show_entry l = map (λ l, l ++ [10]) (map entry_body l)) as Hb.
  { rewrite map_map. apply map_ext. apply show_entry_body. }
  rewrite Hb at 2. rewrite Hb at 1. rewrite read_lines_plain, <- Hb.
  - rewrite read_entries by done. done.
  - apply Forall_map. eapply Forall_impl; [exact Hl|]. intros e He. split; [by apply entry_plain|].
    destruct e as [[name k] v]. destruct He as (_ & _ & Hz). rewrite show_entry_body in Hz.
    unfold zlen in Hz. rewrite length_app in Hz. cbn [length] in Hz. lia.
  - etransitivity; [apply length_concat_lines|]. done.
Qed.

(** ** Notices and mounts *)

Definition undisturbed (t : turn) : Prop :=
  notice_file t = None ∧ printed t = true ∧ broken_pipe t = false.

Lemma notice_repeated n s l : Forall undisturbed l → (n <= length l)%nat →
  notice_cycles s = Z.of_nat n →
  run s l = replicate n (str "! " ++ take 72 (notice s) ++ [10]) ++ run (State (notice s) 0) (drop n l).
Proof.
  intros Hl. revert s l Hl. induction n as [|n IH]; intros s l Hl Hn Hc.
  { destruct s. cbn in *. by subst. }
  destruct l as [|t l]; cbn in Hn; [lia|]. apply Forall_cons in Hl as [(Hf & Hp & Hb) Hl].
  cbn [run drop]. unfold take_turn, read_notice. rewrite Hf, Hp, Hb.
  rewrite (proj2 (Z.ltb_lt 0 (notice_cycles s))) by lia. cbn [replicate app negb].
  f_equal. by rewrite (IH (State (notice s) (notice_cycles s - 1)) l) by (cbn; lia || done).
Qed.

(** A new notice is shown twice, if no other comes, and then the status again. *)
Lemma notice_shown_twice t t' l s message : notice_file t = Some s →
  read_notice (Some s) [] = (true, message) → printed t = true → broken_pipe t = false →
  Forall undisturbed (t' :: l) →
  main (t :: t' :: l) =
  [str "! " ++ take 72 message ++ [10]; str "! " ++ take 72 message ++ [10]] ++ run (State message 0) l.
Proof.
  intros Hf Hm Hp Hb Hl. unfold main.
  change l with (drop 1 (t' :: l)) at 2.
  assert (1 <= length (t' :: l))%nat as Hlen by (cbn; lia). revert Hl Hlen. generalize (t' :: l).
  intros k Hl Hlen. cbn [run]. unfold take_turn at 1. rewrite Hf.
  cbn [notice]. rewrite Hm, Hp, Hb. cbn [negb]. change (0 <? 2) with true. cbn iota.
  by rewrite (notice_repeated 1) by done.
Qed.

(** The search of the mounts ends at a line that is cut: the card behind one of 256
    bytes is not seen, though the line alone is. *)
Definition card_line : list Z := str "/dev/mmcblk0p1 /mnt/sd vfat rw 0 0" ++ [10].
Definition long_line : list Z :=
  str "overlay / overlay " ++ replicate 236 120 ++ str " 0 0" ++ [10].
Lemma mount_missed :
  sd_mounted (Some card_line) = true ∧ sd_mounted (Some (long_line ++ card_line)) = false.
Proof. by vm_compute. Qed.
